(* ===== verification/_CoqProject ===== *)
-Q . S2P
Prelude.v
Params.v
Sleeplock.v
Cache.v
Bio.v
Super.v
Log.v
LogProof.v
Journal.v
BioSpec.v
Crash.v
Reserve.v
Ide.v
Boot.v
CString.v
Fs.v
FsDemo.v
FsBlocks.v
FsInode.v
FsFile.v
FsDir.v
FsTrunc.v
FsPath.v
Mkfs.v
FsBoot.v
Spinlock.v
Kalloc.v
Vm.v
VmProof.v
VmFork.v
Mp.v
Proc.v
ProcInv.v
Pipe.v
File.v
Syscall.v
Kernel.v
Sysfile.v
Exec.v
Trap.v
FdRef.v
Desc.v
Asm.v
Apic.v
Smp.v
Ulib.v
Uprog.v
Grep.v
Umalloc.v
Kbd.v
Console.v
Sh.v
