(* ===== verification/Prelude.v ===== *)
(** * xv6: a verification development of the CS333 xv6 kernel

    The program is a small Unix: a kernel for 32-bit x86 with several CPUs, a
    journaled file system, processes with paged virtual memory, and a user land
    with a shell. This library translates its C code (under src/) into
    executable definitions and proves what makes the components correct, one by
    one and put together.

    ** Conventions

    Kernel code is written in the monad [M S A] of this file, on the state [S] of
    its component; its outcome is [Done] (with a result and the new state),
    [Panic] (the argument of the C function panic, or "trap" for an access that
    faults), [Wait] (the process sleeps; the state is what it leaves) or
    [Diverge] (the fuel of a loop is used up). Errors that the code returns are
    values. [wp] and [wpe] are total-correctness specifications: a proof of [wp]
    shows that the code returns. Integers are [Z] with the wrap-around written
    out ([u32], [s32], [u8]); bytes are numbers, memory and disk blocks are byte
    lists. A pointer is an index into the table that it points to, or an address
    where the code computes with it. A C loop is a recursive function, on its
    data or on fuel; the theorems show that the fuel suffices. Fuel is a bound on
    the rounds that follows from the arguments (bytes left, pages in a range,
    length of a list or line), and each loop's definition says which.

    A critical section of a spin lock is one step. Spinlock.v justifies this for
    the lock itself; the lock words of the other components are left out. A
    function that has several sections, as fork and exit, is split into
    definitions for them, which are steps where interleavings matter.

    Where the code relies on the overflow of a signed int (atoi, printint), the
    result wraps around: C leaves it undefined.

    ** The files

    - Params.v: constants of param.h, fs.h, buf.h, stat.h. Sleeplock.v:
      sleeplock.c. Spinlock.v: spinlock.c, as functions and as interleaved memory
      accesses of several CPUs.
    - The storage stack. Cache.v is the interface of the block cache (a class of
      operations and a class of laws over an abstract cache); Bio.v translates
      bio.c over memide.c and discharges it; BioSpec.v has its claims. Super.v is
      the superblock. Log.v translates log.c against Cache.v; LogProof.v proves it
      for every lawful cache; Crash.v instantiates it with Bio.v and adds crashes
      and recovery; Reserve.v is about concurrent calls that share the log.
      Journal.v is the interface of the log, discharged by Log.v. Ide.v
      translates ide.c, the driver of a real disk, over the ports of a controller
      (the class [Ata], with the class [AtaLaws] of what the ATA standard says and
      the class [AtaPrompt] of what the driver relies on beyond it).
    - The file system, fs.c, against Journal.v: Fs.v translates all of it;
      FsBlocks.v, FsInode.v, FsFile.v, FsDir.v, FsTrunc.v, FsPath.v prove the
      block allocator, the inode cache, file contents, directories, the freeing
      and allocation of inodes, and path names. FsDemo.v is a small image for the
      witnesses. CString.v is string.c. Mkfs.v translates mkfs.c, the program that
      builds the first image; FsBoot.v starts the kernel's storage stack on it.
    - Memory. Kalloc.v: kalloc.c. Vm.v: vm.c over Kalloc.v's pages; VmProof.v
      relates page tables to maps from page numbers to entries; VmFork.v builds,
      copies and frees whole address spaces.
    - The machine. Boot.v: bootmain.c, over the ports of a disk controller that
      is polled. Mp.v: mp.c, over the bytes of the firmware's memory. Desc.v: the
      descriptor tables of mmu.h and the code that fills and loads them (seginit,
      tvinit, idtinit, switchkvm, switchuvm). Asm.v: swtch.S, trapasm.S,
      vectors.pl and usys.S as instructions of a machine with registers and a
      stack, with the processor's entry and exit of traps. Apic.v: lapic.c,
      ioapic.c and picirq.c over classes of what the devices do, the clock
      included. Smp.v: startothers of main.c with the processors that it starts
      (entryother.S), as a step relation.
    - Processes. Proc.v: proc.c over the class [ProcEnv] of what it calls;
      ProcInv.v: the processes on several CPUs as a step relation.
    - Files and pipes. Pipe.v: pipe.c, as segments between sleeps. File.v: file.c
      over the class [FileEnv].
    - The kernel put together. Syscall.v: the arguments of system calls. Kernel.v
      implements [FileEnv] and [ProcEnv] with the components above. Sysfile.v,
      Exec.v, Trap.v: sysfile.c, exec.c, sysproc.c, syscall.c, trap.c over the
      composed state. FdRef.v: an invariant of all of it.
    - Console.v (console.c, uartputc), Kbd.v (kbd.c, kbd.h).
    - User land. Ulib.v (ulib.c, printf.c), Uprog.v (cat.c, wc.c, echo.c, over a
      class of the system calls), Umalloc.v (umalloc.c), Grep.v (grep.c), Sh.v
      (sh.c).

    ** What is proved

    - Storage: a committed transaction survives every sequence of crashes,
      crashes in recovery included, and an uncommitted one leaves no trace
      ([end_op_crash_safe]); the reservations of begin_op bound the log under
      every interleaving ([log_admission]), but not in a log as small as the one
      that mkfs.c makes ([admitted_calls_panic]); reads through the cache are current and
      its replacement policy is LRU ([buffer_cache_correct]); the IDE driver
      completes the requests of its queue in order ([ide_correct]).
    - File system: allocation ([bitmap_correct]), the inode cache, load and store
      of inodes ([inodes_correct]), reads of any length, and writes for which the
      log has room ([file_io_correct]), lookup and linking of names
      ([directory_correct]), freeing of files and allocation of inodes
      ([iput_correct], [ialloc_correct]); path resolution is a walk over the tree
      on the disk and leaks nothing ([namex_correct]); mkfs builds an image with the invariants
      that these theorems assume ([mkfs_correct]), and a kernel started on it
      reads the files back ([boot_reads_files]); string.c's copies, overlaps
      included ([copies_correct]).
    - Locks and memory: nesting of pushcli, mutual exclusion of spin locks
      ([spinlock_mutex]), free and used pages ([kalloc_safety]), mapping and
      unmapping of user memory without a lost or shared page ([uvm_correct]),
      address spaces built, copied and freed ([address_space_correct]).
    - The machine: the boot loader loads every segment of the kernel
      ([bootmain_correct]); the tables of the firmware are read back
      ([mpinit_correct]); the processor reads from the descriptors what the kernel
      put there ([descriptors_correct]); a context switch resumes the other
      context ([swtch_correct]) and a trap saves and restores the whole of a
      user's registers ([trap_correct]); the interrupt controllers route what is
      enabled and nothing else ([lapic_correct], [ioapic_correct]); every
      processor starts on its own stack, for every interleaving
      ([startothers_correct]); the date that is read is one that the clock held
      ([cmostime_correct]).
    - Processes: the table's invariant and no lost wakeup in wait
      ([proc_table_correct]); pipes deliver bytes in order and do not forget a
      sleeper ([pipe_correct]); references to files
      ([file_references]) and, for the whole kernel between its entries, that they
      are the descriptors of the processes ([fd_references]); system call
      arguments stay inside the process ([arg_bounds]).
    - Devices and user land: the line discipline of the console
      ([console_refines]), the keyboard decoder ([kbd_correct]), malloc and free
      ([umalloc_correct]), grep's matcher and its output ([grep_correct]), cat,
      wc and echo for every division of their input into reads
      ([user_programs_correct]),
      printing and reading of numbers ([printint_roundtrip]), the
      shell's parser ([parsecmd_correct]).
    - Behaviours that the code probably does not intend have a theorem of their
      own, [admitted_calls_panic], or are clauses of [directory_correct],
      [proc_table_correct], [mkfs_correct], [address_space_correct],
      [mpinit_correct], [lapic_correct], [pipe_correct], [grep_correct] and
      [umalloc_correct].

    ** Devices

    A device is a class of its operations and observations with a class of laws
    that state what its manual says ([Ata] and [AtaLaws], [Lapic] and
    [LapicLaws], [Ioapic] and [IoapicLaws], [Rtc] and [RtcLaws]); the system
    calls under user programs are such a class, too ([Sys], [SysLaws]). What the
    code relies on although no manual promises it is a class of its own:
    [AtaPrompt], a drive that takes the data of a write as soon as it has the
    command, for ide.c, which does not wait for it to ask; and [LapicPrompt], a
    local APIC that has delivered a command when its register ID is read back,
    for lapicstartap, whose delays are empty. The
    theorems hold for every instance, and each class has an instance that its
    witnesses run on. Where the code polls a device, the class bounds how long it
    stays busy, and that is the fuel of the loop.

    ** What is not modelled

    The assembly that switches the processor's mode (bootasm.S, entry.S, the
    first half of entryother.S): its meaning is in the hardware. main and mpmain
    of main.c only call the initialisations in order, uartinit and consoleinit
    only program devices. The storage stack runs on memide.c's disk, not on
    ide.c's queue. The test programs (usertests.c, forktest.c, stressfs.c and the
    p*-test.c), and the user programs that only make system calls and print
    (init.c, kill.c, ln.c, ls.c but for its names, mkdir.c, rm.c, halt.c,
    zombie.c). Code of configurations other than the default one of the Makefile
    (CS333_PROJECT 0), as date.c and print_mode.c; the shell's builtins, which
    are compiled with USE_BUILTINS only (CS333_PROJECT 2 to 5), are modelled, and
    whether they are there is a parameter of the shell's loop. A system call that
    sleeps inside a file operation ends in [Wait]; the theorems on the composed
    kernel ([fd_references]) are about entries of the kernel that are handled to
    their end, one after the other, and say nothing of the states within one:
    exit, for example, may sleep in fileclose when the reference to a file is
    dropped and the descriptor is still there. *)

From Stdlib Require Export ZArith Lia ssreflect.
From stdpp Require Export base tactics numbers strings gmap.
From stdpp Require Export list.

#[global] Set Default Goal Selector "!".
#[global] Unset SsrRewrite.
#[global] Open Scope general_if_scope.

(** ** The outcome of kernel code

    Kernel code either returns ([Done]), calls [panic] ([Panic], console.c),
    goes to sleep on a channel ([Wait], with the state it leaves behind), or
    runs out of the fuel a model of an unbounded loop is given ([Diverge]). *)

Inductive outcome (S A : Type) : Type :=
| Done (a : A) (s : S)
| Panic (msg : string)
| Wait (s : S)
| Diverge.
Arguments Done {S A} a s.
Arguments Panic {S A} msg.
Arguments Wait {S A} s.
Arguments Diverge {S A}.

Definition finished {S A} (o : outcome S A) : bool :=
  match o with Done _ _ => true | _ => false end.

Definition M (S A : Type) : Type := S → outcome S A.

#[export] Instance M_ret {S} : MRet (M S) := λ A a s, Done a s.
#[export] Instance M_bind {S} : MBind (M S) := λ A B k m s,
  match m s with
  | Done a s' => k a s'
  | Panic e => Panic e
  | Wait s' => Wait s'
  | Diverge => Diverge
  end.

Definition mget {S} : M S S := λ s, Done s s.
Definition mput {S} (s : S) : M S unit := λ _, Done tt s.
Definition mmodify {S} (f : S → S) : M S unit := λ s, Done tt (f s).
Definition panic {S A} (msg : string) : M S A := λ _, Panic msg.
Definition assert_or_panic {S} (b : bool) (msg : string) : M S unit :=
  if b then mret tt else panic msg.

(** Running a computation of a component on its part of a larger state. *)
Definition zoom {S T A} (get : T → S) (put : S → T → T) (m : M S A) : M T A :=
  λ t, match m (get t) with
       | Done a s => Done a (put s t)
       | Panic e => Panic e
       | Wait s => Wait (put s t)
       | Diverge => Diverge
       end.

(** A C [for] loop over a list of indices. *)
Fixpoint mfor {S A} (l : list A) (f : A → M S unit) : M S unit :=
  match l with
  | [] => mret tt
  | x :: l => f x ≫= λ _, mfor l f
  end.

(** A loop with an early return: [f] says [Some] to stop. *)
Fixpoint msearch {S A B} (l : list A) (f : A → M S (option B)) : M S (option B) :=
  match l with
  | [] => mret None
  | x :: l => f x ≫= λ r, match r with Some b => mret (Some b) | None => msearch l f end
  end.

(** *** Total-correctness weakest precondition *)

Definition wp {S A} (m : M S A) (Q : A → S → Prop) (s : S) : Prop :=
  match m s with Done a s' => Q a s' | _ => False end.

Section wp_rules.
Context {S : Type}.
Implicit Types (s : S).

Lemma wp_ret {A} (a : A) (Q : A → S → Prop) s : Q a s → wp (mret a) Q s.
Proof. done. Qed.

Lemma wp_bind {A B} (m : M S A) (k : A → M S B) Q s :
  wp m (λ a s', wp (k a) Q s') s → wp (m ≫= k) Q s.
Proof. rw /wp /mbind /M_bind. by destruct (m s). Qed.

Lemma wp_mono {A} (m : M S A) (P Q : A → S → Prop) s :
  wp m P s → (∀ a s', P a s' → Q a s') → wp m Q s.
Proof. rw /wp. destruct (m s); naive_solver. Qed.

Lemma wp_get (Q : S → S → Prop) s : Q s s → wp mget Q s.
Proof. done. Qed.

Lemma wp_put (Q : unit → S → Prop) s s' : Q tt s' → wp (mput s') Q s.
Proof. done. Qed.

Lemma wp_modify f (Q : unit → S → Prop) s : Q tt (f s) → wp (mmodify f) Q s.
Proof. done. Qed.

Lemma wp_assert b msg (Q : unit → S → Prop) s :
  b = true → Q tt s → wp (assert_or_panic b msg) Q s.
Proof. by intros ->. Qed.

Lemma wp_done {A} (m : M S A) a s s' (Q : A → S → Prop) :
  m s = Done a s' → Q a s' → wp m Q s.
Proof. by rw /wp; intros ->. Qed.

Lemma wp_inv {A} (m : M S A) (Q : A → S → Prop) s :
  wp m Q s → ∃ a s', m s = Done a s' ∧ Q a s'.
Proof. rw /wp. destruct (m s); naive_solver. Qed.

Lemma bind_done {A B} (m : M S A) (k : A → M S B) s b s' :
  (m ≫= k) s = Done b s' → ∃ a s1, m s = Done a s1 ∧ k a s1 = Done b s'.
Proof. rw /mbind /M_bind. destruct (m s); naive_solver. Qed.

Lemma assert_done b msg s a s' :
  assert_or_panic b msg s = Done a s' → b = true ∧ s' = s.
Proof. rw /assert_or_panic /mret /M_ret. destruct b; naive_solver. Qed.

(** Runs, one step at a time. *)
Lemma run_bind {A B} (m : M S A) (k : A → M S B) s a s1 :
  m s = Done a s1 → (m ≫= k) s = k a s1.
Proof. rw /mbind /M_bind. by intros ->. Qed.

Lemma bind_assoc {A B C} (m : M S A) (f : A → M S B) (g : B → M S C) s : ((m ≫= f) ≫= g) s = (m ≫= λ x, f x ≫= g) s.
Proof. rw /mbind /M_bind. by destruct (m s). Qed.

Lemma run_wait {A B} (m : M S A) (k : A → M S B) s s1 :
  m s = Wait s1 → (m ≫= k) s = Wait s1.
Proof. rw /mbind /M_bind. by intros ->. Qed.

Lemma run_panic {A B} (m : M S A) (k : A → M S B) s e :
  m s = Panic e → (m ≫= k) s = Panic e.
Proof. rw /mbind /M_bind. by intros ->. Qed.

Lemma panic_bind {A B} (m : M S A) (k : A → M S B) s e :
  wp m (λ a s', k a s' = Panic e) s → (m ≫= k) s = Panic e.
Proof. rw /wp /mbind /M_bind. by destruct (m s). Qed.

Lemma wp_and {A} (m : M S A) (P Q : A → S → Prop) s :
  wp m P s → wp m Q s → wp m (λ a s', P a s' ∧ Q a s') s.
Proof. rw /wp. by destruct (m s). Qed.

Lemma wp_zoom {T A} (get : T → S) (put : S → T → T) (m : M S A) Q (t : T) :
  wp m (λ a s, Q a (put s t)) (get t) → wp (zoom get put m) Q t.
Proof. rw /wp /zoom. by destruct (m (get t)). Qed.

(** The loop rule: [I done s] is kept by each iteration. *)
Lemma wp_mfor {A} (I : list A → S → Prop) (l : list A) (f : A → M S unit) Q s :
  I [] s →
  (∀ l1 x l2 s, l = l1 ++ x :: l2 → I l1 s → wp (f x) (λ _ s', I (l1 ++ [x]) s') s) →
  (∀ s', I l s' → Q tt s') →
  wp (mfor l f) Q s.
Proof.
  intros H0 Hstep HQ.
  cut (∀ l2 l1 s, l = l1 ++ l2 → I l1 s → wp (mfor l2 f) Q s).
  { intros Hcut. by apply (Hcut l []). }
  clear s H0. induction l2 as [|x l2 IH]; intros l1 s Hl HI; simpl.
  - apply HQ. by rewrite Hl, app_nil_r.
  - apply wp_bind. eapply wp_mono; [by eapply Hstep|]. intros [] s' HI'.
    apply (IH (l1 ++ [x])); [by rewrite <-app_assoc|done].
Qed.

Lemma wp_mfor_seq (I : nat → S → Prop) n (f : nat → M S unit) Q s :
  I 0 s → (∀ i s, i < n → I i s → wp (f i) (λ _ s', I (Datatypes.S i) s') s) →
  (∀ s', I n s' → Q tt s') → wp (mfor (seq 0 n) f) Q s.
Proof.
  intros H0 Hstep HQ. eapply (wp_mfor (λ l, I (length l))); [done| |].
  - intros l1 x l2 s' Hl HI. rewrite length_app, Nat.add_1_r.
    assert (Hx : seq 0 n !! length l1 = Some x) by (rewrite Hl; by apply list_lookup_middle).
    apply lookup_seq in Hx as [-> Hlt]. by apply Hstep.
  - intros s' HI. apply HQ. by rewrite length_seq in HI.
Qed.

(** *** With panics: [E] describes the messages. *)

Definition wpe {A} (m : M S A) (Q : A → S → Prop) (E : string → Prop) (s : S) : Prop :=
  match m s with Done a s' => Q a s' | Panic e => E e | _ => False end.

Lemma wp_wpe {A} (m : M S A) Q E s : wp m Q s → wpe m Q E s.
Proof. rw /wp /wpe. by destruct (m s). Qed.

Lemma wpe_bind {A B} (m : M S A) (k : A → M S B) Q E s :
  wpe m (λ a s', wpe (k a) Q E s') E s → wpe (m ≫= k) Q E s.
Proof. rw /wpe /mbind /M_bind. by destruct (m s). Qed.

Lemma wpe_bind_wp {A B} (m : M S A) (k : A → M S B) Q E s :
  wp m (λ a s', wpe (k a) Q E s') s → wpe (m ≫= k) Q E s.
Proof. intros Hm. by apply wpe_bind, wp_wpe. Qed.

Lemma wpe_mono {A} (m : M S A) (P Q : A → S → Prop) (E F : string → Prop) s :
  wpe m P E s → (∀ a s', P a s' → Q a s') → (∀ e, E e → F e) → wpe m Q F s.
Proof. rw /wpe. destruct (m s); naive_solver. Qed.

Lemma wpe_wp {A} (m : M S A) Q (E : string → Prop) s : wpe m Q E s → (∀ e, ¬ E e) → wp m Q s.
Proof. rw /wpe /wp. destruct (m s); naive_solver. Qed.

Lemma wpe_assert b msg (Q : unit → S → Prop) (E : string → Prop) s :
  (b = true → Q tt s) → (b = false → E msg) → wpe (assert_or_panic b msg) Q E s.
Proof. rw /wpe /assert_or_panic. destruct b; simpl; auto. Qed.

Lemma wpe_panic {A} msg (Q : A → S → Prop) (E : string → Prop) s : E msg → wpe (panic msg) Q E s.
Proof. done. Qed.

End wp_rules.

Create HintDb wp.
#[export] Hint Resolve wp_ret wp_get wp_put wp_modify : wp.

(** [wp_bind_with H] runs the first command of a sequence with its
    specification [H] and names nothing: the postcondition is left to
    introduce. *)
Ltac wp_bind_with H := apply wp_bind; eapply wp_mono; [eapply H | simpl].
Ltac wp_pure := apply wp_bind; first
  [apply wp_get | apply wp_put | apply wp_modify | apply wp_ret]; simpl.

(** ** Machine integers

    A C [uint] is a [Z] in [0, 2^32); arithmetic that may wrap is written
    with [u32]. [s32] reads the same bits as an [int]. *)

Declare Scope cint_scope.
Delimit Scope cint_scope with cint.

Definition u32 (x : Z) : Z := (x `mod` 2 ^ 32)%Z.
Definition u16 (x : Z) : Z := (x `mod` 2 ^ 16)%Z.
Definition u8 (x : Z) : Z := (x `mod` 2 ^ 8)%Z.
Definition s32 (x : Z) : Z :=
  (let y := u32 x in if y <? 2 ^ 31 then y else y - 2 ^ 32)%Z.
Definition s16 (x : Z) : Z :=
  (let y := u16 x in if y <? 2 ^ 15 then y else y - 2 ^ 16)%Z.
Definition is_u32 (x : Z) : Prop := (0 ≤ x < 2 ^ 32)%Z.

Notation "x +% y" := (u32 (x + y)) (at level 50, left associativity) : cint_scope.
Notation "x -% y" := (u32 (x - y)) (at level 50, left associativity) : cint_scope.
Notation "x *% y" := (u32 (x * y)) (at level 40, left associativity) : cint_scope.

Lemma u32_small x : is_u32 x → u32 x = x.
Proof. intros. by apply Z.mod_small. Qed.

Lemma u32_range x : is_u32 (u32 x).
Proof. by apply Z.mod_pos_bound. Qed.

Lemma u32_idem x : u32 (u32 x) = u32 x.
Proof. apply u32_small, u32_range. Qed.

(** Fields that do not overlap. *)
Lemma lor_shiftl (x y n : Z) : (0 ≤ n)%Z → (0 ≤ y < 2 ^ n)%Z → Z.lor (Z.shiftl x n) y = (x * 2 ^ n + y)%Z.
Proof.
  intros Hn Hy. rewrite <-Z.shiftl_mul_pow2 by lia. symmetry. apply Z.add_nocarry_lor, Z.bits_inj'. intros i Hi.
  rewrite Z.land_spec, Z.bits_0, Z.shiftl_spec by lia. destruct (Z.lt_ge_cases i n).
  - by rewrite Z.testbit_neg_r by lia.
  - apply andb_false_intro2. destruct (Z.eq_dec y 0%Z) as [->|]; [apply Z.bits_0|]. apply Z.bits_above_log2; [lia|].
    apply Z.log2_lt_pow2; [lia|]. apply Z.lt_le_trans with (2 ^ n)%Z; [lia|]. by apply Z.pow_le_mono_r.
Qed.

Lemma u32_add_l x y : u32 (u32 x + y) = u32 (x + y).
Proof. by rw /u32 Zplus_mod_idemp_l. Qed.

Lemma u32_add_r x y : u32 (x + u32 y) = u32 (x + y).
Proof. by rw /u32 Zplus_mod_idemp_r. Qed.

Lemma u32_sub_l x y : u32 (u32 x - y) = u32 (x - y).
Proof. by rw /u32 Zminus_mod_idemp_l. Qed.

Lemma u32_sub_r x y : u32 (x - u32 y) = u32 (x - y).
Proof. by rw /u32 Zminus_mod_idemp_r. Qed.

Lemma s32_u32 x : s32 (u32 x) = s32 x.
Proof. by rw /s32 u32_idem. Qed.

Lemma u32_s32 x : u32 (s32 x) = u32 x.
Proof.
  rw /s32. pose proof (u32_range x) as Hr. case_match.
  - by apply u32_idem.
  - rw /u32 in Hr |- *.
    rw -(Z_mod_plus_full _ 1). replace (_ - 2 ^ 32 + 1 * 2 ^ 32)%Z
      with (x `mod` 2 ^ 32)%Z by lia. by rewrite Zmod_mod.
Qed.

Lemma s32_small x : (- 2 ^ 31 ≤ x < 2 ^ 31)%Z → s32 x = x.
Proof.
  intros H. rw /s32 /u32. destruct (decide (0 ≤ x)%Z).
  - rewrite Z.mod_small by lia. case_match; lia.
  - rw -(Z_mod_plus_full _ 1) Z.mod_small; [lia|]. case_match; lia.
Qed.

Lemma s32_range x : (- 2 ^ 31 ≤ s32 x < 2 ^ 31)%Z.
Proof. rw /s32. pose proof (u32_range x) as [? ?]. case_match; lia. Qed.

Create HintDb cint.
Create Rewrite HintDb cint.
#[export] Hint Resolve u32_range s32_range : cint.
#[export] Hint Rewrite u32_idem u32_add_l u32_add_r u32_sub_l u32_sub_r
  s32_u32 u32_s32 : cint.

(** ** Bytes

    Memory and disk blocks are lists of bytes, a byte a [Z] in [0, 256).
    [le_enc]/[le_dec] are the little-endian layout the x86 compiler gives an
    integer field; [bytes_at]/[splice] read and overwrite a field at an
    offset. *)

Fixpoint le_enc (n : nat) (v : Z) : list Z :=
  match n with
  | O => []
  | S n => (v `mod` 256)%Z :: le_enc n (v `div` 256)%Z
  end.

Fixpoint le_dec (bs : list Z) : Z :=
  match bs with
  | [] => 0
  | b :: bs => (b + 256 * le_dec bs)%Z
  end.

Definition is_byte (b : Z) : Prop := (0 ≤ b < 256)%Z.

Definition bytes_at (off n : nat) (bs : list Z) : list Z := take n (drop off bs).

Definition splice (off : nat) (new bs : list Z) : list Z :=
  take off bs ++ new ++ drop (off + length new) bs.

Definition get32 (off : nat) (bs : list Z) : Z := le_dec (bytes_at off 4 bs).
Definition put32 (off : nat) (v : Z) (bs : list Z) : list Z := splice off (le_enc 4 v) bs.
Definition get16 (off : nat) (bs : list Z) : Z := le_dec (bytes_at off 2 bs).
Definition put16 (off : nat) (v : Z) (bs : list Z) : list Z := splice off (le_enc 2 v) bs.

Lemma le_enc_length n v : length (le_enc n v) = n.
Proof. revert v. induction n as [|n IH]; intros v; simpl; [done|]. by rewrite IH. Qed.

Lemma le_dec_enc n v : le_dec (le_enc n v) = (v `mod` 256 ^ Z.of_nat n)%Z.
Proof.
  revert v. induction n as [|n IH]; intros v; cbn [le_enc le_dec].
  - by rewrite Z.mod_1_r.
  - rewrite IH, Nat2Z.inj_succ, Z.pow_succ_r by lia.
    rewrite Z.rem_mul_r by lia. lia.
Qed.

Lemma le_enc_byte n v : Forall is_byte (le_enc n v).
Proof.
  revert v. induction n as [|n IH]; intros v; simpl; constructor; auto.
  by apply Z.mod_pos_bound.
Qed.

Lemma le_enc_dec bs : Forall is_byte bs → le_enc (length bs) (le_dec bs) = bs.
Proof.
  induction 1 as [|b bs Hb _ IH]; simpl; [done|]. unfold is_byte in Hb.
  f_equal.
  - rewrite (Z.mul_comm 256), Z.mod_add by lia. by apply Z.mod_small.
  - rewrite (Z.mul_comm 256), Z.div_add, Z.div_small by lia. by rewrite Z.add_0_l.
Qed.

Lemma le_dec_range bs :
  Forall is_byte bs → (0 ≤ le_dec bs < 256 ^ Z.of_nat (length bs))%Z.
Proof.
  induction 1 as [|b bs Hb _ IH]; cbn [le_dec length]; [lia|].
  unfold is_byte in Hb. rewrite Nat2Z.inj_succ, Z.pow_succ_r by lia. lia.
Qed.

Lemma le_dec_enc32 v : le_dec (le_enc 4 v) = u32 v.
Proof. by rewrite le_dec_enc. Qed.

Lemma splice_length off new bs :
  off + length new ≤ length bs → length (splice off new bs) = length bs.
Proof. intros. unfold splice. rewrite !length_app, length_take, length_drop. lia. Qed.

Lemma bytes_at_length off n bs :
  off + n ≤ length bs → length (bytes_at off n bs) = n.
Proof. intros. unfold bytes_at. rewrite length_take, length_drop. lia. Qed.

Lemma bytes_at_splice_eq off n new bs :
  n = length new → off ≤ length bs → bytes_at off n (splice off new bs) = new.
Proof.
  intros -> Ho. unfold bytes_at, splice.
  rewrite drop_app_length' by (rewrite length_take; lia).
  by rewrite take_app_length.
Qed.

Lemma lookup_splice off new bs i :
  off + length new ≤ length bs →
  splice off new bs !! i =
    if decide (off ≤ i < off + length new) then new !! (i - off) else bs !! i.
Proof.
  intros Hl. unfold splice. case_decide as Hi.
  - rewrite lookup_app_r by (rewrite length_take; lia).
    rewrite length_take, lookup_app_l by lia. f_equal. lia.
  - destruct (decide (i < off)).
    + rewrite lookup_app_l by (rewrite length_take; lia). by apply lookup_take_lt.
    + rewrite lookup_app_r by (rewrite length_take; lia).
      rewrite length_take, lookup_app_r by lia. rewrite lookup_drop. f_equal. lia.
Qed.

Lemma lookup_bytes_at off n bs i :
  bytes_at off n bs !! i = if decide (i < n) then bs !! (off + i) else None.
Proof.
  unfold bytes_at. case_decide.
  - by rewrite lookup_take_lt, lookup_drop by done.
  - apply lookup_take_ge. lia.
Qed.

Lemma bytes_at_splice_ne off n off' new bs :
  off' + length new ≤ length bs →
  (off + n ≤ off' ∨ off' + length new ≤ off) →
  bytes_at off n (splice off' new bs) = bytes_at off n bs.
Proof.
  intros Hl Hd. apply list_eq. intros i.
  rewrite !lookup_bytes_at. case_decide; [|done].
  rewrite lookup_splice by done. case_decide; [lia|done].
Qed.

Lemma splice_self off n bs : off + n ≤ length bs → splice off (bytes_at off n bs) bs = bs.
Proof.
  intros. unfold splice. rewrite bytes_at_length by done. unfold bytes_at.
  by rewrite <-drop_drop, take_drop, take_drop.
Qed.

Lemma splice_byte off new bs :
  Forall is_byte new → Forall is_byte bs → Forall is_byte (splice off new bs).
Proof.
  intros. unfold splice. rewrite !Forall_app. auto using Forall_take, Forall_drop.
Qed.

Lemma get32_put32_eq off v bs :
  off ≤ length bs → is_u32 v → get32 off (put32 off v bs) = v.
Proof.
  intros. unfold get32, put32.
  rewrite bytes_at_splice_eq by (rewrite ?le_enc_length; lia).
  by rewrite le_dec_enc32, u32_small.
Qed.

Lemma get32_put32_ne off off' v bs :
  off' + 4 ≤ length bs → (off + 4 ≤ off' ∨ off' + 4 ≤ off) →
  get32 off (put32 off' v bs) = get32 off bs.
Proof.
  intros. unfold get32, put32.
  rewrite bytes_at_splice_ne by (rewrite le_enc_length; lia). done.
Qed.

Lemma put32_length off v bs : off + 4 ≤ length bs → length (put32 off v bs) = length bs.
Proof. intros. apply splice_length. by rewrite le_enc_length. Qed.

Lemma put16_length off v bs : off + 2 ≤ length bs → length (put16 off v bs) = length bs.
Proof. intros. apply splice_length. by rewrite le_enc_length. Qed.

Create HintDb bytes.
Create Rewrite HintDb bytes.
#[export] Hint Resolve le_enc_byte splice_byte : bytes.
#[export] Hint Rewrite le_enc_length : bytes.

(** ** Arrays *)

Lemma alter_lookup_total {A} `{Inhabited A} (f : A → A) (l : list A) i j :
  i < length l →
  alter f i l !!! j = if decide (i = j) then f (l !!! j) else l !!! j.
Proof.
  intros Hi. rewrite list_lookup_total_alter.
  destruct (decide (i = j)) as [->|]; [by rewrite decide_True|].
  rewrite decide_False; [done|tauto].
Qed.

Lemma insert_lookup_total {A} `{Inhabited A} (x : A) (l : list A) i j :
  i < length l →
  <[i := x]> l !!! j = if decide (i = j) then x else l !!! j.
Proof.
  intros Hi. rewrite list_lookup_total_insert.
  destruct (decide (i = j)) as [->|]; [by rewrite decide_True|].
  rewrite decide_False; [done|tauto].
Qed.

Lemma zip_take_S {A B} (ks : list A) (vs : list B) i k v :
  ks !! i = Some k → vs !! i = Some v →
  zip (take (S i) ks) (take (S i) vs) = zip (take i ks) (take i vs) ++ [(k, v)].
Proof.
  intros Hk Hv. rewrite (take_S_r ks i k Hk), (take_S_r vs i v Hv).
  rewrite zip_with_app; [done|]. apply lookup_lt_Some in Hk, Hv. rewrite !length_take. lia.
Qed.

(** ** Searching a range *)

Lemma find_seq_None {P : nat → bool} a n i :
  find P (seq a n) = None → a ≤ i < a + n → P i = false.
Proof. intros Hf Hi. eapply find_none in Hf; [exact Hf|]. apply in_seq. lia. Qed.

Lemma find_seq_Some {P : nat → bool} a n i :
  find P (seq a n) = Some i → a ≤ i < a + n ∧ P i = true ∧ ∀ i', a ≤ i' < i → P i' = false.
Proof.
  revert a. induction n as [|n IH]; intros a Hf; simpl in *; [done|].
  destruct (P a) eqn:Ha.
  - simplify_eq. split_and!; [lia|lia|done|]. intros; lia.
  - apply IH in Hf as (Hi & HP & Hmin). split_and!; [lia|lia|done|].
    intros i' Hi'. destruct (decide (i' = a)) as [->|]; [done|]. apply Hmin. lia.
Qed.

Lemma list_alter_Some {A} (f : A → A) i (l : list A) x : l !! i = Some x → alter f i l = <[i := f x]> l.
Proof.
  intros Hx. apply list_eq. intros j. destruct (decide (i = j)) as [->|].
  - rewrite list_lookup_alter_eq, Hx, list_lookup_insert_eq; [done|]. by apply lookup_lt_Some in Hx.
  - by rewrite list_lookup_alter_ne, list_lookup_insert_ne.
Qed.
