(* ===== verification/Params.v ===== *)
(** * Kernel parameters and disk-layout constants (param.h, fs.h, buf.h, stat.h)

    The sizes and flag bits the components share. Array sizes are [nat], the
    constants that enter C arithmetic are [Z]. *)

From S2P Require Import Prelude.

Definition NPROC : nat := 64.
Definition NCPU : nat := 8.
Definition NOFILE : nat := 16.
Definition NFILE : nat := 100.
Definition NINODE : nat := 50.
Definition NDEV : Z := 10.
Definition ROOTDEV : Z := 1.
Definition MAXOPBLOCKS : Z := 10.
Definition LOGSIZE : Z := MAXOPBLOCKS * 3.
Definition NBUF : nat := Z.to_nat (MAXOPBLOCKS * 3).
Definition FSSIZE : Z := 2000.

Definition ROOTINO : Z := 1.
Definition BSIZE : Z := 512.
Definition NDIRECT : Z := 12.
Definition NINDIRECT : Z := BSIZE / 4.
Definition MAXFILE : Z := NDIRECT + NINDIRECT.
Definition DIRSIZ : nat := 14.
Definition BPB : Z := BSIZE * 8.

Definition B_VALID : Z := 2.
Definition B_DIRTY : Z := 4.

Definition T_DIR : Z := 1.
Definition T_FILE : Z := 2.
Definition T_DEV : Z := 3.

(** A disk block: [BSIZE] bytes. *)
Abbreviation block := (list Z).
Definition blk_ok (d : block) : Prop := length d = Z.to_nat BSIZE ∧ Forall is_byte d.
Definition zero_block : block := replicate (Z.to_nat BSIZE) 0%Z.

Lemma zero_block_ok : blk_ok zero_block.
Proof. split; [done|]. by apply Forall_replicate. Qed.

Lemma blk_ok_splice off new d :
  blk_ok d → Forall is_byte new → off + length new ≤ Z.to_nat BSIZE → blk_ok (splice off new d).
Proof.
  intros [Hl Hb] Hn Ho. split; [|by apply splice_byte].
  rewrite splice_length; lia.
Qed.

Create HintDb xv6.
#[export] Hint Resolve zero_block_ok : xv6.

(** [lia] with the constants unfolded. *)
Ltac plia :=
  unfold is_u32, MAXFILE, NINDIRECT, BPB, LOGSIZE, NBUF, MAXOPBLOCKS, BSIZE, NDIRECT, DIRSIZ,
    NPROC, NOFILE, NFILE, NINODE, NDEV, FSSIZE, ROOTINO, ROOTDEV in *; lia.
