(* ===== verification/Sleeplock.v ===== *)
(** * Sleep locks (sleeplock.c, sleeplock.h)

    The long-term locks on buffers and inodes, as one process sees them:
    [acquiresleep] on a held lock goes to sleep. The spin lock [lk->lk] that
    guards the fields is held only for the duration of each operation. *)

From S2P Require Import Prelude.

Record sleeplock := Sleeplock {
  sl_locked : Z;   (* Is the lock held? *)
  sl_pid : Z       (* Process holding lock *)
}.

Definition initsleeplock : sleeplock := Sleeplock 0 0.

Definition acquiresleep (pid : Z) : M sleeplock unit := λ lk,
  if decide (sl_locked lk = 0%Z) then Done tt (Sleeplock 1 pid) else Wait lk.

Definition releasesleep : M sleeplock unit := λ lk, Done tt (Sleeplock 0 0).

Definition holdingsleep (lk : sleeplock) : bool := negb (sl_locked lk =? 0)%Z.
