(* ===== verification/Cache.v ===== *)
(** * The interface of the block cache

    What bio.c (with the disk driver below it) promises its clients log.c and
    fs.c: the operations as a class, and their meaning as an abstract cache
    machine [cstate] that the class of laws relates every state to. The log
    is proved correct against this interface; Bio.v discharges it. *)

From S2P Require Import Prelude Params.

(** ** The operations *)

Class BlockCache (St : Type) := {
  bread : Z → Z → M St nat;        (* bread(dev, blockno) *)
  bwrite : nat → M St unit;        (* bwrite(b) *)
  brelse : nat → M St unit;        (* brelse(b) *)
  bdata : nat → M St block;        (* reads of b->data *)
  bstore : nat → block → M St unit;  (* stores through b->data *)
  bblockno : nat → M St Z;         (* b->blockno *)
  bpin : nat → M St unit           (* b->flags |= B_DIRTY *)
}.

(** ** The abstract cache

    [c_disk] is what survives a crash, [c_trace] the block writes that
    reached the disk so far in order, [c_view] the contents the kernel sees,
    [c_dirty] the blocks pinned in memory, [c_held] the locked buffers and
    the block each one holds. *)

Record cstate := CState {
  c_disk : list block;
  c_trace : list (nat * block);
  c_view : list block;
  c_dirty : gset nat;
  c_held : gmap nat nat
}.

Definition c_acquire (h b : nat) (c : cstate) : cstate :=
  CState (c_disk c) (c_trace c) (c_view c) (c_dirty c) (<[h := b]> (c_held c)).
Definition c_release (h : nat) (c : cstate) : cstate :=
  CState (c_disk c) (c_trace c) (c_view c) (c_dirty c) (delete h (c_held c)).
Definition c_store (b : nat) (d : block) (c : cstate) : cstate :=
  CState (c_disk c) (c_trace c) (<[b := d]> (c_view c)) (c_dirty c) (c_held c).
Definition c_pin (b : nat) (c : cstate) : cstate :=
  CState (c_disk c) (c_trace c) (c_view c) ({[b]} ∪ c_dirty c) (c_held c).
Definition c_write (b : nat) (d : block) (c : cstate) : cstate :=
  CState (<[b := d]> (c_disk c)) (c_trace c ++ [(b, d)]) (c_view c)
    (c_dirty c ∖ {[b]}) (c_held c).

(** There is a buffer for block [b]: it is pinned in memory, or some buffer
    is neither pinned nor held. *)
Definition c_room (b : nat) (c : cstate) : Prop :=
  b ∈ c_dirty c ∨ size (c_dirty c) + size (c_held c) < NBUF.

(** Block [b] can be given up: memory and disk agree, or it stays pinned. *)
Definition c_clean (b : nat) (c : cstate) : Prop :=
  b ∈ c_dirty c ∨ c_view c !! b = c_disk c !! b.

Class BlockCacheSpec (St : Type) `{BlockCache St} := {
  crep : St → cstate → Prop;
  crep_wf s c : crep s c →
    length (c_view c) = length (c_disk c) ∧ Forall blk_ok (c_view c) ∧
    Forall blk_ok (c_disk c);
  bread_law s c b : crep s c → b < length (c_disk c) →
    (∀ h, c_held c !! h ≠ Some b) → c_room b c →
    wp (bread ROOTDEV (Z.of_nat b))
      (λ h s', c_held c !! h = None ∧ crep s' (c_acquire h b c)) s;
  bdata_law s c h b : crep s c → c_held c !! h = Some b →
    wp (bdata h) (λ d s', s' = s ∧ c_view c !! b = Some d) s;
  bblockno_law s c h b : crep s c → c_held c !! h = Some b →
    wp (bblockno h) (λ n s', s' = s ∧ n = Z.of_nat b) s;
  bstore_law s c h b d : crep s c → c_held c !! h = Some b → blk_ok d →
    wp (bstore h d) (λ _ s', crep s' (c_store b d c)) s;
  bpin_law s c h b : crep s c → c_held c !! h = Some b →
    wp (bpin h) (λ _ s', crep s' (c_pin b c)) s;
  bwrite_law s c h b d : crep s c → c_held c !! h = Some b → c_view c !! b = Some d →
    wp (bwrite h) (λ _ s', crep s' (c_write b d c)) s;
  brelse_law s c h b : crep s c → c_held c !! h = Some b → c_clean b c →
    wp (brelse h) (λ _ s', crep s' (c_release h c)) s
}.
