(* ===== verification/Bio.v ===== *)
(** * The buffer cache (bio.c, buf.h) over the memory disk (memide.c)

    [bcache.buf] and [bcache.head] are one array of [NBUF + 1] buffers, the
    head at index [HEAD]; a [struct buf*] is an index. The LRU list is the
    code's circular doubly linked list through [prev]/[next]. The disk below
    is memide.c's [memdisk]; [wtrace] is a ghost history of the block writes
    it received. *)

From S2P Require Import Prelude Params Sleeplock Cache.

Record buf := Buf {
  flags : Z;
  dev : Z;
  blockno : Z;
  lock : sleeplock;
  refcnt : Z;
  prev : nat;   (* LRU cache list *)
  next : nat;
  data : block
}.

Record bstate := BState {
  bufs : list buf;                  (* bcache.buf and, last, bcache.head *)
  memdisk : list block;
  wtrace : list (nat * block)
}.

Definition HEAD : nat := NBUF.
Definition NULLBUF : nat := S NBUF.

(** Static storage before [binit]: all zero. *)
Definition zero_buf : buf := Buf 0 0 0 (Sleeplock 0 0) 0 NULLBUF NULLBUF zero_block.
#[export] Instance buf_inhabited : Inhabited buf := populate zero_buf.

Definition set_flags (v : Z) (b : buf) : buf :=
  Buf v (dev b) (blockno b) (lock b) (refcnt b) (prev b) (next b) (data b).
Definition set_lock (v : sleeplock) (b : buf) : buf :=
  Buf (flags b) (dev b) (blockno b) v (refcnt b) (prev b) (next b) (data b).
Definition set_refcnt (v : Z) (b : buf) : buf :=
  Buf (flags b) (dev b) (blockno b) (lock b) v (prev b) (next b) (data b).
Definition set_prev (v : nat) (b : buf) : buf :=
  Buf (flags b) (dev b) (blockno b) (lock b) (refcnt b) v (next b) (data b).
Definition set_next (v : nat) (b : buf) : buf :=
  Buf (flags b) (dev b) (blockno b) (lock b) (refcnt b) (prev b) v (data b).
Definition set_data (v : block) (b : buf) : buf :=
  Buf (flags b) (dev b) (blockno b) (lock b) (refcnt b) (prev b) (next b) v.
Definition set_id (d n : Z) (b : buf) : buf :=
  Buf (flags b) d n (lock b) (refcnt b) (prev b) (next b) (data b).

Definition getb (i : nat) : M bstate buf := λ s, Done (bufs s !!! i) s.
Definition updb (i : nat) (f : buf → buf) : M bstate unit :=
  mmodify (λ s, BState (alter f i (bufs s)) (memdisk s) (wtrace s)).

(** ** The operations *)

(** The body of [binit]'s loop: push [b] at the front of the list. *)
Definition binit_link (b : nat) : M bstate unit :=
  hd ← getb HEAD;
  updb b (set_next (next hd));;
  updb b (set_prev HEAD);;
  updb b (set_lock initsleeplock);;
  hd ← getb HEAD;
  updb (next hd) (set_prev b);;
  updb HEAD (set_next b).

Fixpoint binit_loop (l : list nat) : M bstate unit :=
  match l with
  | [] => mret tt
  | b :: l => binit_link b;; binit_loop l
  end.

Definition binit : M bstate unit :=
  updb HEAD (set_prev HEAD);;
  updb HEAD (set_next HEAD);;
  binit_loop (seq 0 NBUF).

(** Run a sleep-lock operation on [b->lock]. *)
Definition on_lock {A} (b : nat) (m : M sleeplock A) : M bstate A :=
  zoom (λ s, lock (bufs s !!! b))
       (λ lk s, BState (alter (set_lock lk) b (bufs s)) (memdisk s) (wtrace s)) m.

(** Is the block already cached? *)
Fixpoint bget_scan (fuel : nat) (pid d n : Z) (b : nat) : M bstate (option nat) :=
  match fuel with
  | O => λ _, Diverge
  | S fuel =>
    if decide (b = HEAD) then mret None else
    bf ← getb b;
    if decide (dev bf = d ∧ blockno bf = n) then
      updb b (set_refcnt (u32 (refcnt bf + 1)));;
      on_lock b (acquiresleep pid);;
      mret (Some b)
    else bget_scan fuel pid d n (next bf)
  end.

(** Not cached; recycle an unused buffer. *)
Fixpoint bget_recycle (fuel : nat) (pid d n : Z) (b : nat) : M bstate nat :=
  match fuel with
  | O => λ _, Diverge
  | S fuel =>
    if decide (b = HEAD) then panic "bget: no buffers" else
    bf ← getb b;
    if decide (refcnt bf = 0%Z ∧ Z.land (flags bf) B_DIRTY = 0%Z) then
      updb b (set_id d n);;
      updb b (set_flags 0);;
      updb b (set_refcnt 1);;
      on_lock b (acquiresleep pid);;
      mret b
    else bget_recycle fuel pid d n (prev bf)
  end.

Definition bget (pid d n : Z) : M bstate nat :=
  hd ← getb HEAD;
  r ← bget_scan (S NBUF) pid d n (next hd);
  match r with
  | Some b => mret b
  | None => hd ← getb HEAD; bget_recycle (S NBUF) pid d n (prev hd)
  end.

(** memide.c: sync a buffer with the disk. *)
Definition iderw (b : nat) : M bstate unit :=
  bf ← getb b;
  assert_or_panic (holdingsleep (lock bf)) "iderw: buf not locked";;
  assert_or_panic (negb (Z.land (flags bf) (Z.lor B_VALID B_DIRTY) =? B_VALID)%Z)
    "iderw: nothing to do";;
  assert_or_panic (dev bf =? 1)%Z "iderw: request not for disk 1";;
  s ← mget;
  assert_or_panic (blockno bf <? Z.of_nat (length (memdisk s)))%Z
    "iderw: block out of range";;
  (if decide (Z.land (flags bf) B_DIRTY = 0%Z) then
     updb b (set_data (memdisk s !!! Z.to_nat (blockno bf)))
   else
     updb b (set_flags (Z.land (flags bf) (Z.lnot B_DIRTY)));;
     mmodify (λ s, BState (bufs s) (<[Z.to_nat (blockno bf) := data bf]> (memdisk s))
                     (wtrace s ++ [(Z.to_nat (blockno bf), data bf)])));;
  bf ← getb b;
  updb b (set_flags (Z.lor (flags bf) B_VALID)).

Definition bread (pid d n : Z) : M bstate nat :=
  b ← bget pid d n;
  bf ← getb b;
  (if decide (Z.land (flags bf) B_VALID = 0%Z) then iderw b else mret tt);;
  mret b.

Definition bwrite (b : nat) : M bstate unit :=
  bf ← getb b;
  assert_or_panic (holdingsleep (lock bf)) "bwrite";;
  updb b (set_flags (Z.lor (flags bf) B_DIRTY));;
  iderw b.

(** Unlink [b] and push it at the front of the LRU list. *)
Definition bmove_front (b : nat) : M bstate unit :=
  bf ← getb b;
  updb (next bf) (set_prev (prev bf));;
  bf ← getb b;
  updb (prev bf) (set_next (next bf));;
  hd ← getb HEAD;
  updb b (set_next (next hd));;
  updb b (set_prev HEAD);;
  hd ← getb HEAD;
  updb (next hd) (set_prev b);;
  updb HEAD (set_next b).

Definition brelse (b : nat) : M bstate unit :=
  bf ← getb b;
  assert_or_panic (holdingsleep (lock bf)) "brelse";;
  on_lock b releasesleep;;
  bf ← getb b;
  updb b (set_refcnt (u32 (refcnt bf - 1)));;
  bf ← getb b;
  if decide (refcnt bf = 0%Z) then bmove_front b else mret tt.

(** The pieces of [struct buf] clients touch directly. *)
#[export] Instance bio_cache (pid : Z) : BlockCache bstate := {|
  Cache.bread := bread pid;
  Cache.bwrite := bwrite;
  Cache.brelse := brelse;
  Cache.bdata := λ b, bf ← getb b; mret (data bf);
  Cache.bstore := λ b d, updb b (set_data d);
  Cache.bblockno := λ b, bf ← getb b; mret (blockno bf);
  Cache.bpin := λ b, bf ← getb b; updb b (set_flags (Z.lor (flags bf) B_DIRTY))
|}.

(** State at boot: [binit] on zeroed memory, with a disk. *)
Definition bio_boot (d : list block) : bstate :=
  BState (replicate (S NBUF) zero_buf) d [].

(** ** The LRU list

    [path bs l]: consecutive elements of [l] are linked by [next] one way and
    [prev] the other. The cache's list is a path from the head through the
    buffers in LRU order back to the head. *)

Definition link (bs : list buf) (a b : nat) : Prop :=
  next (bs !!! a) = b ∧ prev (bs !!! b) = a.

Fixpoint path (bs : list buf) (l : list nat) : Prop :=
  match l with
  | a :: ((b :: _) as l') => link bs a b ∧ path bs l'
  | _ => True
  end.

Definition lru (bs : list buf) (order : list nat) : Prop :=
  order ≡ₚ seq 0 NBUF ∧ path bs (HEAD :: order ++ [HEAD]).

Lemma path_cons bs a b l : path bs (a :: b :: l) ↔ link bs a b ∧ path bs (b :: l).
Proof. done. Qed.

Lemma path_app bs l1 x l2 :
  path bs (l1 ++ x :: l2) ↔ path bs (l1 ++ [x]) ∧ path bs (x :: l2).
Proof.
  induction l1 as [|a l1 IH]; [simpl; tauto|].
  destruct l1 as [|b l1]; [simpl in *; tauto|]. simpl in *. tauto.
Qed.

Lemma path_ext bs bs' l :
  (∀ i, i ∈ removelast l → next (bs' !!! i) = next (bs !!! i)) →
  (∀ i, i ∈ tail l → prev (bs' !!! i) = prev (bs !!! i)) →
  path bs l → path bs' l.
Proof.
  induction l as [|a [|b l] IH]; [done|done|].
  change (removelast (a :: b :: l)) with (a :: removelast (b :: l)).
  intros Hn Hp [[Hl1 Hl2] Hpath]. split.
  - split; [rewrite Hn; [done|left]|rewrite Hp; [done|left]].
  - apply IH; [intros; apply Hn; by right|intros; apply Hp; by right|done].
Qed.

Arguments path : simpl never.

Lemma NoDup_lru order : order ≡ₚ seq 0 NBUF → NoDup (HEAD :: order).
Proof.
  intros Hp. constructor.
  - rewrite Hp, elem_of_seq. unfold HEAD. lia.
  - rewrite Hp. apply NoDup_seq.
Qed.

(** Splitting a non-empty list at its ends. *)
Lemma cons_snoc {A} (a : A) l : ∃ u p, a :: l = u ++ [p].
Proof.
  destruct (exists_last (l := a :: l)) as (u & p & Hu); [done|]. by exists u, p.
Qed.

Lemma snoc_cons {A} (l : list A) z : ∃ n w, l ++ [z] = n :: w.
Proof. destruct l as [|n w]; simpl; eauto. Qed.

(** Unlinking [b] from the middle of a path. *)
Lemma path_unlink bs bs' l1 b l2 u p n w :
  NoDup (HEAD :: l1 ++ b :: l2) → HEAD :: l1 = u ++ [p] → l2 ++ [HEAD] = n :: w →
  (∀ i, next (bs' !!! i) = if decide (i = p) then n else next (bs !!! i)) →
  (∀ i, prev (bs' !!! i) = if decide (i = n) then p else prev (bs !!! i)) →
  path bs (u ++ p :: b :: n :: w) → path bs' (u ++ p :: n :: w).
Proof.
  intros Hnd Hu Hw Hn Hp Hpath.
  assert (Hnd' : NoDup ((u ++ [p]) ++ b :: l2)) by (by rewrite <-Hu).
  apply NoDup_app in Hnd' as (Hnu & Hd & Hnl). apply NoDup_cons in Hnl as [Hbl Hnl].
  apply NoDup_app in Hnu as (_ & Hpu & _).
  assert (Hnw : n ∉ w).
  { destruct l2 as [|y l2]; simpl in Hw; simplify_eq; [set_solver|].
    rewrite elem_of_app, list_elem_of_singleton. apply NoDup_cons in Hnl as [? _].
    intros [?| ->]; [done|]. apply (Hd HEAD); [rewrite <-Hu; left|set_solver]. }
  assert (Hnl1 : n ∉ l1).
  { assert (n ∈ l2 ++ [HEAD]) as Hn2 by (rewrite Hw; left).
    apply NoDup_cons in Hnd as [Hh _].
    intros Hin. apply elem_of_app in Hn2 as [Hn2|Hn2].
    - apply (Hd n); [rewrite <-Hu; by right|by right].
    - apply list_elem_of_singleton in Hn2 as ->. apply Hh. set_solver. }
  apply path_app in Hpath as [Hup Hrest]. rewrite !path_cons in Hrest.
  destruct Hrest as (_ & _ & Hpw). apply path_app. split; [|rewrite path_cons; split].
  - eapply path_ext; [| |exact Hup].
    + intros i Hi. rewrite Hn. case_decide; [|done]. subst.
      rewrite removelast_last in Hi. set_solver.
    + rewrite <-Hu. intros i Hi. rewrite Hp. case_decide; [|done]. by subst.
  - split; [by rewrite Hn, decide_True|by rewrite Hp, decide_True].
  - eapply path_ext; [| |exact Hpw].
    + rewrite <-Hw, removelast_last. intros i Hi. rewrite Hn. case_decide; [|done].
      subst. destruct (Hd p); [set_solver|by right].
    + intros i Hi. rewrite Hp. case_decide; [|done]. by subst.
Qed.

(** Linking [b] in at the front of a path. *)
Lemma path_push bs bs' b f w :
  HEAD ∉ removelast (f :: w) → b ∉ f :: w → b ≠ HEAD → f ∉ w →
  (∀ i, next (bs' !!! i) = if decide (i = HEAD) then b
                           else if decide (i = b) then f else next (bs !!! i)) →
  (∀ i, prev (bs' !!! i) = if decide (i = f) then b
                           else if decide (i = b) then HEAD else prev (bs !!! i)) →
  path bs (f :: w) → path bs' (HEAD :: b :: f :: w).
Proof.
  intros Hh Hb Hbh Hf Hn Hp Hpath. rewrite !path_cons. split; [|split].
  - split; [by rewrite Hn, decide_True|].
    rewrite Hp, decide_False by set_solver. by rewrite decide_True.
  - split; [|by rewrite Hp, decide_True].
    rewrite Hn, decide_False by done. by rewrite decide_True.
  - eapply path_ext; [| |exact Hpath].
    + intros i Hi. rewrite Hn. rewrite decide_False by congruence.
      case_decide; [|done]. subst. destruct Hb. clear -Hi.
      rewrite (app_removelast_last 0 (l := f :: w)) by done. set_solver.
    + intros i Hi. rewrite Hp, decide_False by (simpl in Hi; congruence).
      rewrite decide_False; [done|]. intros ->. simpl in Hi. set_solver.
Qed.

(** The fields that are not list pointers. *)
Definition core (b : buf) := (flags b, dev b, blockno b, lock b, refcnt b, data b).

Definition unlink_bufs (b : nat) (bs : list buf) : list buf :=
  let bs1 := alter (set_prev (prev (bs !!! b))) (next (bs !!! b)) bs in
  alter (set_next (next (bs1 !!! b))) (prev (bs1 !!! b)) bs1.

Definition push_bufs (b : nat) (bs : list buf) : list buf :=
  let bs1 := alter (set_prev HEAD) b (alter (set_next (next (bs !!! HEAD))) b bs) in
  alter (set_next b) HEAD (alter (set_prev b) (next (bs1 !!! HEAD)) bs1).

Lemma bmove_front_eq b s :
  bmove_front b s = Done tt (BState (push_bufs b (unlink_bufs b (bufs s))) (memdisk s) (wtrace s)).
Proof. done. Qed.

Ltac alt := rewrite ?alter_lookup_total by (rewrite ?length_alter; done || lia); simpl.

Lemma push_bufs_next b bs i :
  b < length bs → HEAD < length bs → next (bs !!! HEAD) < length bs → b ≠ HEAD →
  next (push_bufs b bs !!! i) =
    if decide (i = HEAD) then b else if decide (i = b) then next (bs !!! HEAD)
    else next (bs !!! i).
Proof.
  intros Hb Hh Hn Hne. unfold push_bufs.
  assert (Hx : next (alter (set_prev HEAD) b (alter (set_next (next (bs !!! HEAD))) b bs) !!! HEAD)
    = next (bs !!! HEAD)) by (alt; by rewrite !decide_False by done).
  cbv zeta. rewrite Hx. alt. repeat case_decide; subst; simpl; congruence.
Qed.

Lemma push_bufs_prev b bs i :
  b < length bs → HEAD < length bs → next (bs !!! HEAD) < length bs → b ≠ HEAD →
  prev (push_bufs b bs !!! i) =
    if decide (i = next (bs !!! HEAD)) then b else if decide (i = b) then HEAD
    else prev (bs !!! i).
Proof.
  intros Hb Hh Hn Hne. unfold push_bufs.
  assert (Hx : next (alter (set_prev HEAD) b (alter (set_next (next (bs !!! HEAD))) b bs) !!! HEAD)
    = next (bs !!! HEAD)) by (alt; by rewrite !decide_False by done).
  cbv zeta. rewrite Hx. alt. repeat case_decide; subst; simpl; congruence.
Qed.

Lemma alter_core (f : buf → buf) (i : nat) (bs : list buf) (j : nat) :
  (∀ b, core (f b) = core b) → core (alter f i bs !!! j) = core (bs !!! j).
Proof.
  intros Hf. rewrite list_lookup_total_alter. case_decide as H; [|done].
  destruct H as [-> _]. apply Hf.
Qed.

Lemma push_bufs_core b bs i : core (push_bufs b bs !!! i) = core (bs !!! i).
Proof. unfold push_bufs. by rewrite !alter_core by done. Qed.

Lemma unlink_bufs_core b bs i : core (unlink_bufs b bs !!! i) = core (bs !!! i).
Proof. unfold unlink_bufs. by rewrite !alter_core by done. Qed.

Lemma push_bufs_length b bs : length (push_bufs b bs) = length bs.
Proof. unfold push_bufs. by rewrite !length_alter. Qed.

Lemma unlink_bufs_length b bs : length (unlink_bufs b bs) = length bs.
Proof. unfold unlink_bufs. by rewrite !length_alter. Qed.

Lemma unlink_bufs_next b bs i :
  next (bs !!! b) < length bs → prev (bs !!! b) < length bs → next (bs !!! b) ≠ b →
  next (unlink_bufs b bs !!! i) =
    if decide (i = prev (bs !!! b)) then next (bs !!! b) else next (bs !!! i).
Proof.
  intros Hn Hp Hne. unfold unlink_bufs.
  assert (Hx : alter (set_prev (prev (bs !!! b))) (next (bs !!! b)) bs !!! b = bs !!! b)
    by (alt; by rewrite decide_False by done).
  cbv zeta. rewrite Hx. alt. repeat case_decide; subst; simpl; congruence.
Qed.

Lemma unlink_bufs_prev b bs i :
  next (bs !!! b) < length bs → prev (bs !!! b) < length bs → next (bs !!! b) ≠ b →
  prev (unlink_bufs b bs !!! i) =
    if decide (i = next (bs !!! b)) then prev (bs !!! b) else prev (bs !!! i).
Proof.
  intros Hn Hp Hne. unfold unlink_bufs.
  assert (Hx : alter (set_prev (prev (bs !!! b))) (next (bs !!! b)) bs !!! b = bs !!! b)
    by (alt; by rewrite decide_False by done).
  cbv zeta. rewrite Hx. alt. repeat case_decide; subst; simpl; congruence.
Qed.

Lemma path_push_bufs bs b l :
  NoDup (HEAD :: b :: l) → (∀ x, x ∈ HEAD :: b :: l → x < length bs) →
  path bs (HEAD :: l ++ [HEAD]) → path (push_bufs b bs) (HEAD :: b :: l ++ [HEAD]).
Proof.
  intros Hnd Hlt. destruct (snoc_cons l HEAD) as (f & w & Hf). rewrite Hf, path_cons.
  intros [[Hnf _] Hpath].
  apply NoDup_cons in Hnd as [Hh Hnd]. apply NoDup_cons in Hnd as [Hb Hnd].
  assert (Hfl : f ∈ l ++ [HEAD]) by (rewrite Hf; left).
  assert (f < length bs) by (apply Hlt; set_solver).
  assert (b < length bs) by (apply Hlt; set_solver).
  assert (HEAD < length bs) by (apply Hlt; set_solver).
  assert (b ≠ HEAD) by set_solver.
  eapply path_push; [..|exact Hpath].
  - rewrite <-Hf, removelast_last. set_solver.
  - rewrite <-Hf. set_solver.
  - done.
  - destruct l as [|y l]; simpl in Hf; simplify_eq; [set_solver|].
    apply NoDup_cons in Hnd as [? _]. set_solver.
  - intros i. rewrite push_bufs_next by (rewrite ?Hnf; done). by rewrite Hnf.
  - intros i. rewrite push_bufs_prev by (rewrite ?Hnf; done). by rewrite Hnf.
Qed.

Lemma path_unlink_bufs bs l1 b l2 :
  NoDup (HEAD :: l1 ++ b :: l2) → (∀ x, x ∈ HEAD :: l1 ++ b :: l2 → x < length bs) →
  path bs (HEAD :: (l1 ++ b :: l2) ++ [HEAD]) →
  path (unlink_bufs b bs) (HEAD :: (l1 ++ l2) ++ [HEAD]).
Proof.
  intros Hnd Hlt Hpath.
  destruct (cons_snoc HEAD l1) as (u & p & Hu).
  destruct (snoc_cons l2 HEAD) as (n & w & Hw).
  replace (HEAD :: (l1 ++ b :: l2) ++ [HEAD]) with (u ++ p :: b :: n :: w) in Hpath.
  2:{ rewrite <-app_assoc. simpl. rewrite app_comm_cons, Hu, <-app_assoc. simpl.
      by rewrite Hw. }
  assert (prev (bs !!! b) = p ∧ next (bs !!! b) = n) as [Hp Hn].
  { apply path_app in Hpath as [_ Hp]. rewrite !path_cons in Hp.
    destruct Hp as ([_ ?] & [? _] & _). done. }
  assert (Hin : p ∈ HEAD :: l1 ++ b :: l2).
  { rewrite app_comm_cons, Hu. set_solver. }
  assert (Hn2 : n ∈ l2 ++ [HEAD]) by (rewrite Hw; left).
  assert (Hnb : n ≠ b).
  { intros ->. apply NoDup_cons in Hnd as [Hh Hnd].
    apply NoDup_app in Hnd as (_ & _ & Hnd). apply NoDup_cons in Hnd as [Hnd _].
    set_solver. }
  assert (n < length bs) by (apply Hlt; set_solver).
  replace (HEAD :: (l1 ++ l2) ++ [HEAD]) with (u ++ p :: n :: w).
  - eapply path_unlink; [done..| | |done]; intros i.
    + rewrite unlink_bufs_next; subst; auto.
    + rewrite unlink_bufs_prev; subst; auto.
  - rewrite <-(app_assoc l1), app_comm_cons, Hu, <-app_assoc. simpl. by rewrite Hw.
Qed.

(** [brelse]'s pointer surgery moves [b] to the front of the LRU list. *)
Lemma lru_move_front bs l1 b l2 :
  length bs = S NBUF → lru bs (l1 ++ b :: l2) →
  lru (push_bufs b (unlink_bufs b bs)) (b :: l1 ++ l2).
Proof.
  intros Hlen [Hperm Hpath].
  pose proof (NoDup_lru _ Hperm) as Hnd.
  assert (Hlt : ∀ x, x ∈ HEAD :: l1 ++ b :: l2 → x < length bs).
  { intros x. rewrite Hlen, elem_of_cons, Hperm, elem_of_seq. unfold HEAD. lia. }
  split.
  { rewrite <-Hperm. by rewrite Permutation_middle. }
  simpl. apply path_push_bufs.
  - by rewrite Permutation_middle.
  - intros x. rewrite unlink_bufs_length, Permutation_middle. apply Hlt.
  - by apply path_unlink_bufs.
Qed.

(** ** The two searches of [bget] *)

Definition hits (bs : list buf) (d n : Z) (i : nat) : bool :=
  bool_decide (dev (bs !!! i) = d ∧ blockno (bs !!! i) = n).
Definition idle (bs : list buf) (i : nat) : bool :=
  bool_decide (refcnt (bs !!! i) = 0%Z ∧ Z.land (flags (bs !!! i)) B_DIRTY = 0%Z).

Definition take_hit (pid : Z) (i : nat) : M bstate nat :=
  bf ← getb i;
  updb i (set_refcnt (u32 (refcnt bf + 1)));;
  on_lock i (acquiresleep pid);;
  mret i.

Definition take_idle (pid d n : Z) (i : nat) : M bstate nat :=
  updb i (set_id d n);;
  updb i (set_flags 0);;
  updb i (set_refcnt 1);;
  on_lock i (acquiresleep pid);;
  mret i.

Lemma bget_scan_eq pid d n s l fuel :
  path (bufs s) (l ++ [HEAD]) → HEAD ∉ l → length l < fuel →
  bget_scan fuel pid d n (hd HEAD l) s =
    match find (hits (bufs s) d n) l with
    | None => Done None s
    | Some i => (i ← take_hit pid i; mret (Some i)) s
    end.
Proof.
  revert fuel. induction l as [|a l IH]; intros fuel Hp Hh Hf.
  - destruct fuel as [|fuel]; [simpl in Hf; lia|]. done.
  - destruct fuel as [|fuel]; [simpl in Hf; lia|]. cbn [bget_scan hd find].
    rewrite decide_False by set_solver. unfold hits at 1.
    change (getb a ≫= ?k) with (λ s, k (bufs s !!! a) s). cbv beta.
    destruct (decide (dev (bufs s !!! a) = d ∧ blockno (bufs s !!! a) = n)) as [Hm|Hm].
    + rewrite bool_decide_true by done. unfold take_hit, mbind, M_bind, getb, updb, mmodify. simpl.
      by destruct (on_lock _ _ _).
    + rewrite bool_decide_false by done. simpl in Hp, Hf.
      destruct (snoc_cons l HEAD) as (x & w & Hx). rewrite Hx, path_cons in Hp.
      destruct Hp as [[Hn _] Hp]. rewrite <-Hx in Hp.
      replace (next (bufs s !!! a)) with (hd HEAD l).
      * apply IH; [done|set_solver|lia].
      * rewrite Hn. destruct l; simpl in Hx; by simplify_eq.
Qed.

Lemma bget_recycle_eq pid d n s l fuel :
  path (bufs s) (HEAD :: l) → HEAD ∉ l → length l < fuel →
  bget_recycle fuel pid d n (List.last (HEAD :: l) HEAD) s =
    match find (idle (bufs s)) (reverse l) with
    | None => Panic "bget: no buffers"
    | Some i => take_idle pid d n i s
    end.
Proof.
  revert fuel. induction l as [|a l IH] using rev_ind; intros fuel Hp Hh Hf.
  - by destruct fuel as [|fuel]; [simpl in Hf; lia|].
  - rewrite length_app in Hf. simpl in Hf.
    destruct fuel as [|fuel]; [lia|]. cbn [bget_recycle].
    rewrite app_comm_cons, last_last, reverse_snoc. cbn [find].
    rewrite decide_False by set_solver. unfold idle at 1.
    change (getb a ≫= ?k) with (λ s, k (bufs s !!! a) s). cbv beta.
    destruct (decide (refcnt (bufs s !!! a) = 0%Z ∧ Z.land (flags (bufs s !!! a)) B_DIRTY = 0%Z))
      as [Hm|Hm].
    + by rewrite bool_decide_true by done.
    + rewrite bool_decide_false by done.
      destruct (cons_snoc HEAD l) as (u & p & Hu).
      rewrite app_comm_cons, Hu, <-app_assoc in Hp. apply path_app in Hp as [Hp Ha].
      simpl in Ha. rewrite path_cons in Ha. destruct Ha as [[_ Ha] _].
      replace (prev (bufs s !!! a)) with (List.last (HEAD :: l) HEAD).
      * apply IH; [by rewrite Hu|set_solver|lia].
      * by rewrite Hu, last_last.
Qed.

(** The order of the LRU list decides which buffer [bget] takes: the first
    match from the front, else the first idle one from the back. *)
Lemma bget_eq pid d n s order :
  lru (bufs s) order →
  bget pid d n s =
    match find (hits (bufs s) d n) order with
    | Some i => take_hit pid i s
    | None =>
      match find (idle (bufs s)) (reverse order) with
      | None => Panic "bget: no buffers"
      | Some i => take_idle pid d n i s
      end
    end.
Proof.
  intros [Hperm Hpath]. pose proof (NoDup_lru _ Hperm) as Hnd.
  apply NoDup_cons in Hnd as [Hh _].
  assert (Hlen : length order < S NBUF) by (rewrite Hperm, length_seq; lia).
  destruct (snoc_cons order HEAD) as (x & w & Hx).
  pose proof Hpath as Hfwd. rewrite Hx, path_cons in Hfwd. destruct Hfwd as [[Hn _] Hfwd].
  rewrite <-Hx in Hfwd.
  destruct (cons_snoc HEAD order) as (u & p & Hu).
  pose proof Hpath as Hbwd. rewrite app_comm_cons, Hu, <-app_assoc in Hbwd.
  apply path_app in Hbwd as [Hbwd Hlast]. simpl in Hlast. rewrite path_cons in Hlast.
  destruct Hlast as [[_ Hlast] _]. rewrite <-Hu in Hbwd.
  unfold bget. change (getb HEAD ≫= ?k) with (λ s, k (bufs s !!! HEAD) s). cbv beta.
  replace (next (bufs s !!! HEAD)) with (hd HEAD order)
    by (rewrite Hn; destruct order; simpl in Hx; by simplify_eq).
  unfold mbind at 1, M_bind at 1. rewrite bget_scan_eq by done.
  destruct (find (hits (bufs s) d n) order) as [i|].
  - unfold mbind at 1, M_bind at 1. destruct (take_hit pid i s); done.
  - change (getb HEAD ≫= ?k) with (λ s, k (bufs s !!! HEAD) s). cbv beta.
    rewrite Hlast. replace p with (List.last (HEAD :: order) HEAD) by (by rewrite Hu, last_last).
    by rewrite bget_recycle_eq.
Qed.

(** ** What the buffers hold *)

Record buf_ok (disk : list block) (bf : buf) : Prop := {
  bo_data : blk_ok (data bf);
  bo_flags : flags bf = 0%Z ∨ flags bf = B_VALID ∨ flags bf = Z.lor B_VALID B_DIRTY;
  bo_dev : flags bf ≠ 0%Z ↔ dev bf = ROOTDEV;
  bo_range : flags bf ≠ 0%Z → (0 ≤ blockno bf < Z.of_nat (length disk))%Z;
  bo_free : sl_locked (lock bf) = 0%Z →
    refcnt bf = 0%Z ∧
    (flags bf = B_VALID → disk !! Z.to_nat (blockno bf) = Some (data bf));
  bo_held : sl_locked (lock bf) ≠ 0%Z →
    sl_locked (lock bf) = 1%Z ∧ refcnt bf = 1%Z ∧ flags bf ≠ 0%Z
}.

Record bcont (bs : list buf) (disk : list block) (c : cstate) : Prop := {
  bc_viewlen : length (c_view c) = length disk;
  bc_ok i : i < NBUF → buf_ok disk (bs !!! i);
  bc_uniq i j : i < NBUF → j < NBUF → dev (bs !!! i) = ROOTDEV → dev (bs !!! j) = ROOTDEV →
    blockno (bs !!! i) = blockno (bs !!! j) → i = j;
  bc_view i : i < NBUF → flags (bs !!! i) ≠ 0%Z →
    c_view c !! Z.to_nat (blockno (bs !!! i)) = Some (data (bs !!! i));
  bc_miss b : (∀ i, i < NBUF → flags (bs !!! i) ≠ 0%Z → blockno (bs !!! i) ≠ Z.of_nat b) →
    c_view c !! b = disk !! b;
  bc_dirty b : b ∈ c_dirty c ↔
    ∃ i, i < NBUF ∧ flags (bs !!! i) = Z.lor B_VALID B_DIRTY ∧ blockno (bs !!! i) = Z.of_nat b;
  bc_heldmap h b : c_held c !! h = Some b ↔
    h < NBUF ∧ sl_locked (lock (bs !!! h)) ≠ 0%Z ∧ blockno (bs !!! h) = Z.of_nat b
}.

Record brep (s : bstate) (c : cstate) : Prop := {
  br_len : length (bufs s) = S NBUF;
  br_lru : ∃ order, lru (bufs s) order;
  br_disk : c_disk c = memdisk s;
  br_trace : c_trace c = wtrace s;
  br_diskok : Forall blk_ok (memdisk s);
  br_cont : bcont (bufs s) (memdisk s) c
}.

Lemma core_inj b b' : core b = core b' →
  flags b = flags b' ∧ dev b = dev b' ∧ blockno b = blockno b' ∧ lock b = lock b' ∧
  refcnt b = refcnt b' ∧ data b = data b'.
Proof. unfold core. intros. by simplify_eq. Qed.

Lemma buf_ok_ext disk b b' : core b' = core b → buf_ok disk b → buf_ok disk b'.
Proof.
  intros (Hf & Hd & Hn & Hl & Hr & Hx)%core_inj [].
  constructor; rewrite ?Hf, ?Hd, ?Hn, ?Hl, ?Hr, ?Hx; done.
Qed.

Lemma bcont_ext bs bs' disk c :
  (∀ i, i < NBUF → core (bs' !!! i) = core (bs !!! i)) → bcont bs disk c → bcont bs' disk c.
Proof.
  intros He [].
  assert (Hc : ∀ i, i < NBUF → flags (bs' !!! i) = flags (bs !!! i) ∧
    dev (bs' !!! i) = dev (bs !!! i) ∧ blockno (bs' !!! i) = blockno (bs !!! i) ∧
    lock (bs' !!! i) = lock (bs !!! i) ∧ refcnt (bs' !!! i) = refcnt (bs !!! i) ∧
    data (bs' !!! i) = data (bs !!! i)) by (intros; apply core_inj; auto).
  constructor; [done|..].
  - intros i Hi. eapply buf_ok_ext; [by apply He|by apply bc_ok0].
  - intros i j Hi Hj. destruct (Hc i Hi) as (_&->&->&_), (Hc j Hj) as (_&->&->&_). auto.
  - intros i Hi. destruct (Hc i Hi) as (->&_&->&_&_&->). auto.
  - intros b Hb. apply bc_miss0. intros i Hi. destruct (Hc i Hi) as (<-&_&<-&_). auto.
  - intros b. rewrite bc_dirty0. split; intros (i & Hi & Hfl & Hbn); exists i;
      destruct (Hc i Hi) as (Hf&_&Hn&_); rewrite ?Hf, ?Hn in *; done.
  - intros h b. rewrite bc_heldmap0. split; intros (Hi & Hfl & Hbn);
      destruct (Hc h Hi) as (_&_&Hn&Hl&_); rewrite ?Hl, ?Hn in *; done.
Qed.

(** Two flag facts: the three values the flag word takes. *)
Lemma flags_clean f :
  (f = 0 ∨ f = B_VALID ∨ f = Z.lor B_VALID B_DIRTY)%Z →
  Z.land f B_DIRTY = 0%Z ↔ f ≠ Z.lor B_VALID B_DIRTY.
Proof. by intros [-> | [-> | ->]]. Qed.

Lemma flags_valid f :
  (f = 0 ∨ f = B_VALID ∨ f = Z.lor B_VALID B_DIRTY)%Z → Z.land f B_VALID = 0%Z ↔ f = 0%Z.
Proof. by intros [-> | [-> | ->]]. Qed.

(** ** One buffer changes

    Each operation rewrites one buffer [i] to [bf']; the lemmas say how the
    abstract cache moves. *)

Definition replaced (bs bs' : list buf) (i : nat) (bf' : buf) : Prop :=
  ∀ j, bs' !!! j = if decide (i = j) then bf' else bs !!! j.

Lemma replaced_alter f i bs : i < length bs → replaced bs (alter f i bs) i (f (bs !!! i)).
Proof.
  intros Hi j. rewrite alter_lookup_total by done. case_decide; by subst.
Qed.

Lemma replaced_eq bs bs' i bf' : replaced bs bs' i bf' → bs' !!! i = bf'.
Proof. intros Hr. by rewrite Hr, decide_True. Qed.

Lemma replaced_ne bs bs' i j bf' : replaced bs bs' i bf' → i ≠ j → bs' !!! j = bs !!! j.
Proof. intros Hr ?. by rewrite Hr, decide_False. Qed.

(** Case on whether buffer [j] is the replaced one. *)
Ltac rcase Hr i j := destruct (decide (i = j)) as [<-|?];
  rewrite ?(replaced_eq _ _ _ _ Hr), ?(replaced_ne _ _ _ _ _ Hr) in * by done;
  simpl in *.

Lemma view_hit bs disk c i b : bcont bs disk c → i < NBUF →
  flags (bs !!! i) ≠ 0%Z → blockno (bs !!! i) = Z.of_nat b →
  c_view c !! b = Some (data (bs !!! i)).
Proof.
  intros Hc Hi Hf Hb. rewrite <-(bc_view _ _ _ Hc i Hi Hf), Hb. by rewrite Nat2Z.id.
Qed.

(** A hit: the free buffer of block [b] is locked. *)
Lemma bcont_acquire bs bs' disk c i b pid :
  i < NBUF → bcont bs disk c →
  dev (bs !!! i) = ROOTDEV → blockno (bs !!! i) = Z.of_nat b →
  sl_locked (lock (bs !!! i)) = 0%Z →
  replaced bs bs' i (set_lock (Sleeplock 1 pid) (set_refcnt 1 (bs !!! i))) →
  bcont bs' disk (c_acquire i b c).
Proof.
  intros Hi [Hvl Hok Hu Hv Hm Hdi Hh] Hd Hb Hl Hr. pose proof (Hok i Hi) as [].
  constructor; simpl; [done|..].
  - intros j Hj. rcase Hr i j; [|auto]. constructor; simpl; auto; [done|]. intros _. split_and!; tauto.
  - intros j k Hj Hk. rcase Hr i j; rcase Hr i k; auto.
  - intros j Hj. rcase Hr i j; auto.
  - intros b' Hb'. apply Hm. intros j Hj. specialize (Hb' j Hj). rcase Hr i j; auto.
  - intros b'. rewrite Hdi. split; intros (j & Hj & Hfl & Hbn); exists j; rcase Hr i j; auto.
  - intros h b'. rcase Hr i h.
    + rewrite lookup_insert_eq, Hb. split; [intros; by simplify_eq|].
      intros (_ & _ & ?). f_equal. lia.
    + rewrite lookup_insert_ne by done. apply Hh.
Qed.

(** A miss: an idle buffer is given to block [b] and read from the disk. *)
Lemma bcont_recycle bs bs' disk c i b pid d :
  i < NBUF → bcont bs disk c → disk !! b = Some d → blk_ok d →
  (∀ j, j < NBUF → ¬ (dev (bs !!! j) = ROOTDEV ∧ blockno (bs !!! j) = Z.of_nat b)) →
  sl_locked (lock (bs !!! i)) = 0%Z → flags (bs !!! i) ≠ Z.lor B_VALID B_DIRTY →
  replaced bs bs' i (Buf B_VALID ROOTDEV (Z.of_nat b) (Sleeplock 1 pid) 1
                       (prev (bs !!! i)) (next (bs !!! i)) d) →
  bcont bs' disk (c_acquire i b c).
Proof.
  intros Hi Hc Hdb Hd Hmiss Hl Hfl Hr. pose proof Hc as [Hvl Hok Hu Hv Hm Hdi Hh].
  pose proof (Hok i Hi) as [_ Hfs _ _ Hfree _].
  assert (Hvb : c_view c !! b = Some d).
  { rewrite Hm; [done|]. intros j Hj Hf Hb. destruct (Hmiss j Hj). split; [|done].
    by apply (bo_dev _ _ (Hok j Hj)). }
  constructor; simpl; [done|..].
  - intros j Hj. rcase Hr i j; [|auto].
    constructor; simpl; auto; try done. apply lookup_lt_Some in Hdb. lia.
  - intros j k Hj Hk. rcase Hr i j; rcase Hr i k; auto; intros Hd1 Hd2 Hbn.
    + destruct (Hmiss k Hk). split; congruence.
    + destruct (Hmiss j Hj). split; congruence.
  - intros j Hj. rcase Hr i j; [|auto]. by rewrite Nat2Z.id.
  - intros b' Hb'. destruct (decide (Z.of_nat b' = blockno (bs !!! i) ∧ flags (bs !!! i) ≠ 0%Z))
      as [[Hold Hf]|Hold].
    + rewrite (view_hit _ _ _ _ _ Hc Hi Hf) by done. destruct (Hfree Hl) as [_ Hclean].
      destruct Hfs as [?|[Hf2|?]]; [done| |done]. rewrite <-(Hclean Hf2), <-Hold.
      by rewrite Nat2Z.id.
    + apply Hm. intros j Hj Hf Hbn. specialize (Hb' j Hj).
      rcase Hr i j; [|by destruct (Hb' Hf)]. apply Hold. split; congruence.
  - intros b'. rewrite Hdi. split; intros (j & Hj & Hfl' & Hbn); exists j; rcase Hr i j; auto; done.
  - intros h b'. rcase Hr i h.
    + rewrite lookup_insert_eq. split; [intros; by simplify_eq|].
      intros (_ & _ & ?). f_equal. lia.
    + rewrite lookup_insert_ne by done. apply Hh.
Qed.

(** A store through [b->data] of a held buffer. *)
Lemma bcont_store bs bs' disk c i b d :
  i < NBUF → bcont bs disk c → c_held c !! i = Some b → blk_ok d →
  replaced bs bs' i (set_data d (bs !!! i)) → bcont bs' disk (c_store b d c).
Proof.
  intros Hi Hc Hheld Hd Hr. pose proof Hc as [Hvl Hok Hu Hv Hm Hdi Hh].
  apply Hh in Hheld as (_ & Hl & Hb). pose proof (Hok i Hi) as [_ Hfs Hdev Hrange Hfree Hhold].
  destruct (Hhold Hl) as (Hl1 & Hr1 & Hf). specialize (Hrange Hf).
  constructor; simpl; [by rewrite length_insert|..].
  - intros j Hj. rcase Hr i j; [|auto]. constructor; simpl; auto. intros. congruence.
  - intros j k Hj Hk. rcase Hr i j; rcase Hr i k; auto.
  - intros j Hj. rcase Hr i j; intros Hfj.
    + rewrite Hb, Nat2Z.id, list_lookup_insert_eq by lia. done.
    + rewrite list_lookup_insert_ne; [auto|]. intros Hbj.
      assert (i = j); [|done]. apply Hu; auto.
      * by apply Hdev.
      * by apply (bo_dev _ _ (Hok j Hj)).
      * pose proof (bo_range _ _ (Hok j Hj) Hfj). lia.
  - intros b' Hb'. rewrite list_lookup_insert_ne.
    + apply Hm. intros j Hj. specialize (Hb' j Hj). rcase Hr i j; auto.
    + intros <-. specialize (Hb' i Hi). rewrite (replaced_eq _ _ _ _ Hr) in Hb'.
      by destruct (Hb' Hf).
  - intros b'. rewrite Hdi. split; intros (j & Hj & Hfl' & Hbn); exists j; rcase Hr i j; auto.
  - intros h b'. rewrite Hh. rcase Hr i h; done.
Qed.

(** A held buffer is pinned. *)
Lemma bcont_pin bs bs' disk c i b :
  i < NBUF → bcont bs disk c → c_held c !! i = Some b →
  replaced bs bs' i (set_flags (Z.lor B_VALID B_DIRTY) (bs !!! i)) →
  bcont bs' disk (c_pin b c).
Proof.
  intros Hi Hc Hheld Hr. pose proof Hc as [Hvl Hok Hu Hv Hm Hdi Hh].
  apply Hh in Hheld as (_ & Hl & Hb). pose proof (Hok i Hi) as [Hdat Hfs Hdev Hrange Hfree Hhold].
  destruct (Hhold Hl) as (Hl1 & Hr1 & Hf). specialize (Hrange Hf).
  constructor; simpl; [done|..].
  - intros j Hj. rcase Hr i j; [|auto].
    constructor; simpl; auto; try done. split; [tauto|done].
  - intros j k Hj Hk. rcase Hr i j; rcase Hr i k; auto.
  - intros j Hj. rcase Hr i j; auto.
  - intros b' Hb'. apply Hm. intros j Hj. specialize (Hb' j Hj). rcase Hr i j; auto.
  - intros b'. rewrite elem_of_union, elem_of_singleton, Hdi. split.
    + intros [->|(j & Hj & Hfl & Hbn)].
      * exists i. by rewrite (replaced_eq _ _ _ _ Hr).
      * exists j. rcase Hr i j; auto.
    + intros (j & Hj & Hfl & Hbn). rcase Hr i j.
      * left. lia.
      * right. exists j. auto.
  - intros h b'. rewrite Hh. rcase Hr i h; done.
Qed.

(** A held buffer is written to its disk block. *)
Lemma bcont_write bs bs' disk c i b :
  i < NBUF → bcont bs disk c → c_held c !! i = Some b →
  replaced bs bs' i (set_flags B_VALID (bs !!! i)) →
  bcont bs' (<[b := data (bs !!! i)]> disk) (c_write b (data (bs !!! i)) c).
Proof.
  intros Hi Hc Hheld Hr. pose proof Hc as [Hvl Hok Hu Hv Hm Hdi Hh].
  apply Hh in Hheld as (_ & Hl & Hb). pose proof (Hok i Hi) as [Hdat Hfs Hdev Hrange Hfree Hhold].
  destruct (Hhold Hl) as (Hl1 & Hr1 & Hf). specialize (Hrange Hf).
  assert (Hother : ∀ j, j < NBUF → i ≠ j → flags (bs !!! j) ≠ 0%Z → blockno (bs !!! j) ≠ Z.of_nat b).
  { intros j Hj Hne Hfj Hbj. apply Hne, (Hu i j); [done|done|by apply Hdev| |congruence].
    by apply (bo_dev _ _ (Hok j Hj)). }
  constructor; simpl; [by rewrite length_insert|..].
  - intros j Hj. rcase Hr i j.
    + constructor; simpl; rewrite ?length_insert; [done|auto|split; [tauto|done]|done| |done].
      intros ?. congruence.
    + destruct (Hok j Hj) as [Hd1 Hd2 Hd3 Hd4 Hd5 Hd6].
      constructor; rewrite ?length_insert; auto.
      intros Hlj. destruct (Hd5 Hlj) as [? Hcl]. split; [done|]. intros Hfj.
      rewrite list_lookup_insert_ne; [auto|]. intros Hbj.
      apply (Hother j Hj); [done|by rewrite Hfj|].
      assert (flags (bs !!! j) ≠ 0%Z) as Hf0 by (by rewrite Hfj). specialize (Hd4 Hf0). clear -Hbj Hd4. lia.
  - intros j k Hj Hk. rcase Hr i j; rcase Hr i k; auto.
  - intros j Hj. rcase Hr i j; auto.
  - intros b' Hb'. rewrite list_lookup_insert_ne.
    + apply Hm. intros j Hj. specialize (Hb' j Hj). rcase Hr i j; auto.
    + intros <-. specialize (Hb' i Hi). rewrite (replaced_eq _ _ _ _ Hr) in Hb'. by apply Hb'.
  - intros b'. rewrite elem_of_difference, not_elem_of_singleton, Hdi. split.
    + intros [(j & Hj & Hfl & Hbn) Hne]. exists j. rcase Hr i j; auto. lia.
    + intros (j & Hj & Hfl & Hbn). rcase Hr i j; [done|]. split; [by exists j|].
      intros ->. apply (Hother j Hj); auto. by rewrite Hfl.
  - intros h b'. rewrite Hh. rcase Hr i h; done.
Qed.

(** A held buffer is released. *)
Lemma bcont_release bs bs' disk c i b :
  i < NBUF → bcont bs disk c → c_disk c = disk → c_held c !! i = Some b → c_clean b c →
  replaced bs bs' i (set_refcnt 0 (set_lock (Sleeplock 0 0) (bs !!! i))) →
  bcont bs' disk (c_release i c).
Proof.
  intros Hi Hc Hdisk Hheld Hclean Hr. pose proof Hc as [Hvl Hok Hu Hv Hm Hdi Hh].
  apply Hh in Hheld as (_ & Hl & Hb). pose proof (Hok i Hi) as [Hdat Hfs Hdev Hrange Hfree Hhold].
  destruct (Hhold Hl) as (Hl1 & Hr1 & Hf). specialize (Hrange Hf).
  constructor; simpl; [done|..].
  - intros j Hj. rcase Hr i j; [|auto]. constructor; simpl; auto; [|done].
    intros _. split; [done|]. intros Hfl. rewrite Hb, Nat2Z.id.
    destruct Hclean as [Hdirty|Heq].
    + apply Hdi in Hdirty as (k & Hk & Hfk & Hbk).
      assert (flags (bs !!! k) ≠ 0%Z) by (by rewrite Hfk).
      assert (i = k) as <- by
        (apply Hu; [done|done|by apply Hdev|by apply (bo_dev _ _ (Hok k Hk))|congruence]).
      rewrite Hfl in Hfk. done.
    + by rewrite <-Hdisk, <-Heq, (view_hit _ _ _ _ _ Hc Hi Hf Hb).
  - intros j k Hj Hk. rcase Hr i j; rcase Hr i k; auto.
  - intros j Hj. rcase Hr i j; auto.
  - intros b' Hb'. apply Hm. intros j Hj. specialize (Hb' j Hj). rcase Hr i j; auto.
  - intros b'. rewrite Hdi. split; intros (j & Hj & Hfl' & Hbn); exists j; rcase Hr i j; auto.
  - intros h b'. rcase Hr i h.
    + rewrite lookup_delete_eq. split; [done|]. by intros (_ & ? & _).
    + rewrite lookup_delete_ne by done. apply Hh.
Qed.

(** The buffers pinned by the log are no more than the pinned blocks. *)
Definition pinned (bs : list buf) : list nat :=
  filter (λ i, flags (bs !!! i) = Z.lor B_VALID B_DIRTY) (seq 0 NBUF).

Lemma pinned_spec bs disk c i :
  bcont bs disk c → i ∈ pinned bs →
  i < NBUF ∧ flags (bs !!! i) = Z.lor B_VALID B_DIRTY ∧ dev (bs !!! i) = ROOTDEV ∧
  (0 ≤ blockno (bs !!! i))%Z.
Proof.
  intros Hc [Hf Hi%elem_of_seq]%list_elem_of_filter.
  assert (Hni : i < NBUF) by lia. pose proof (bc_ok _ _ _ Hc i Hni) as Ho.
  assert (flags (bs !!! i) ≠ 0%Z) as Hz by (by rewrite Hf).
  split_and!; [done..|by apply (bo_dev _ _ Ho)|apply (bo_range _ _ Ho Hz)].
Qed.

Lemma pinned_count bs disk c : bcont bs disk c → length (pinned bs) ≤ size (c_dirty c).
Proof.
  intros Hc. rewrite <-(length_fmap (λ i, Z.to_nat (blockno (bs !!! i)))).
  rewrite <-(size_list_to_set (C := gset nat)).
  - apply subseteq_size. intros b (i & -> & Hi)%elem_of_list_to_set%list_elem_of_fmap.
    apply (pinned_spec _ _ _ _ Hc) in Hi as (? & ? & ? & ?).
    apply (bc_dirty _ _ _ Hc). exists i. split_and!; [done|done|lia].
  - apply NoDup_fmap_2_strong; [|apply NoDup_filter, NoDup_seq]. intros i j Hi Hj Heq.
    apply (pinned_spec _ _ _ _ Hc) in Hi as (? & ? & ? & ?).
    apply (pinned_spec _ _ _ _ Hc) in Hj as (? & ? & ? & ?).
    apply (bc_uniq _ _ _ Hc); [done..|lia].
Qed.

(** Some buffer is idle when the pinned and the held ones do not fill the
    cache. *)
Lemma idle_exists bs disk c :
  bcont bs disk c → size (c_dirty c) + size (c_held c) < NBUF →
  ∃ i, i < NBUF ∧ idle bs i = true.
Proof.
  intros Hc Hsz.
  destruct (decide (Exists (λ i, idle bs i = true) (seq 0 NBUF))) as [Hex|Hno].
  { apply Exists_exists in Hex as (i & Hi%elem_of_seq & Hid). exists i. split; [lia|done]. }
  rewrite Exists_exists in Hno.
  assert (Hsub : (set_seq 0 NBUF : gset nat) ⊆ list_to_set (pinned bs) ∪ dom (c_held c)).
  { intros i Hi%elem_of_set_seq. apply elem_of_union.
    assert (Hi' : i < NBUF) by lia. pose proof (bc_ok _ _ _ Hc i Hi') as Hok.
    destruct (decide (sl_locked (lock (bs !!! i)) = 0%Z)) as [Hl|Hl].
    - left. apply elem_of_list_to_set, list_elem_of_filter. split; [|apply elem_of_seq; lia].
      apply dec_stable. intros Hf. apply Hno. exists i. split; [apply elem_of_seq; lia|].
      apply bool_decide_eq_true_2. split; [by apply (bo_free _ _ Hok)|].
      by apply flags_clean; [apply (bo_flags _ _ Hok)|].
    - right. apply elem_of_dom. exists (Z.to_nat (blockno (bs !!! i))).
      apply (bc_heldmap _ _ _ Hc). destruct (bo_held _ _ Hok Hl) as (_ & _ & Hf).
      pose proof (bo_range _ _ Hok Hf). split_and!; [done|done|lia]. }
  apply subseteq_size in Hsub. rewrite size_set_seq in Hsub.
  pose proof (pinned_count _ _ _ Hc).
  assert (HndD : NoDup (pinned bs)) by (apply NoDup_filter, NoDup_seq).
  rewrite size_union_alt, (size_list_to_set (pinned bs)) in Hsub by done.
  assert (size (dom (c_held c) ∖ list_to_set (pinned bs)) ≤ size (c_held c)).
  { rewrite <-size_dom. apply subseteq_size. set_solver. }
  lia.
Qed.

(** ** The operations on a well-formed cache *)

Lemma lru_ext bs bs' order :
  (∀ j, next (bs' !!! j) = next (bs !!! j)) → (∀ j, prev (bs' !!! j) = prev (bs !!! j)) →
  lru bs order → lru bs' order.
Proof. intros Hn Hp [? ?]. split; [done|]. eapply path_ext; eauto. Qed.

Lemma lru_replaced bs bs' i bf' order :
  replaced bs bs' i bf' → next bf' = next (bs !!! i) → prev bf' = prev (bs !!! i) →
  lru bs order → lru bs' order.
Proof.
  intros Hr Hn Hp. apply lru_ext; intros j; rewrite Hr; case_decide; by subst.
Qed.

Lemma lru_elem order i : order ≡ₚ seq 0 NBUF → i ∈ order ↔ i < NBUF.
Proof. intros ->. rewrite elem_of_seq. lia. Qed.

Lemma on_lock_acquire pid i s :
  sl_locked (lock (bufs s !!! i)) = 0%Z →
  on_lock i (acquiresleep pid) s =
    Done tt (BState (alter (set_lock (Sleeplock 1 pid)) i (bufs s)) (memdisk s) (wtrace s)).
Proof. intros Hl. unfold on_lock, zoom, acquiresleep. by rewrite decide_True. Qed.

Lemma take_hit_eq pid i s :
  i < length (bufs s) → sl_locked (lock (bufs s !!! i)) = 0%Z → refcnt (bufs s !!! i) = 0%Z →
  ∃ s', take_hit pid i s = Done i s' ∧ memdisk s' = memdisk s ∧ wtrace s' = wtrace s ∧
    length (bufs s') = length (bufs s) ∧
    replaced (bufs s) (bufs s') i (set_lock (Sleeplock 1 pid) (set_refcnt 1 (bufs s !!! i))).
Proof.
  intros Hi Hl Hrc. unfold take_hit, mbind, M_bind, getb, updb, mmodify. rewrite Hrc.
  rewrite on_lock_acquire by (simpl; rewrite alter_lookup_total, decide_True by done; done).
  simpl. rewrite list_alter_alter_eq. eexists. split_and!; [done|done|done|by simpl; rewrite length_alter|].
  by apply (replaced_alter (set_lock _ ∘ _)).
Qed.

Lemma take_idle_eq pid d n i s :
  i < length (bufs s) → sl_locked (lock (bufs s !!! i)) = 0%Z →
  ∃ s', take_idle pid d n i s = Done i s' ∧ memdisk s' = memdisk s ∧ wtrace s' = wtrace s ∧
    length (bufs s') = length (bufs s) ∧
    replaced (bufs s) (bufs s') i
      (Buf 0 d n (Sleeplock 1 pid) 1 (prev (bufs s !!! i)) (next (bufs s !!! i)) (data (bufs s !!! i))).
Proof.
  intros Hi Hl. unfold take_idle, mbind, M_bind, getb, updb, mmodify. simpl.
  rewrite on_lock_acquire.
  2:{ simpl. rewrite !alter_lookup_total by (by rewrite ?length_alter).
      by rewrite !decide_True by done. }
  simpl. rewrite !list_alter_alter_eq.
  eexists. split_and!; [done|done|done|by simpl; rewrite length_alter|].
  apply (replaced_alter (set_lock _ ∘ (set_refcnt 1 ∘ (set_flags 0 ∘ set_id d n)))); done.
Qed.

(** [iderw] on a locked buffer that is not valid reads the disk block. *)
Lemma iderw_read i s b d :
  i < length (bufs s) → sl_locked (lock (bufs s !!! i)) ≠ 0%Z → flags (bufs s !!! i) = 0%Z →
  dev (bufs s !!! i) = 1%Z → blockno (bufs s !!! i) = Z.of_nat b → memdisk s !! b = Some d →
  ∃ s', iderw i s = Done tt s' ∧ memdisk s' = memdisk s ∧ wtrace s' = wtrace s ∧
    length (bufs s') = length (bufs s) ∧
    replaced (bufs s) (bufs s') i (set_flags B_VALID (set_data d (bufs s !!! i))).
Proof.
  intros Hi Hl Hf Hd Hb Hm. pose proof (lookup_lt_Some _ _ _ Hm) as Hlt.
  assert (Hlock : holdingsleep (lock (bufs s !!! i)) = true).
  { unfold holdingsleep. by apply negb_true_iff, Z.eqb_neq. }
  unfold iderw, mbind, M_bind, getb, updb, mmodify, mget, assert_or_panic, mret, M_ret.
  rewrite Hlock, Hf, Hd, Hb, Nat2Z.id. simpl.
  destruct (Z.ltb_spec (Z.of_nat b) (Z.of_nat (length (memdisk s)))); [|lia]. simpl.
  rewrite (list_lookup_total_correct _ _ _ Hm).
  rewrite alter_lookup_total, decide_True by done. simpl. rewrite Hf, list_alter_alter_eq.
  eexists. split_and!; [done|done|done|by simpl; rewrite length_alter|].
  apply (replaced_alter (set_flags 2 ∘ set_data d)); done.
Qed.

(** [iderw] on a locked dirty buffer writes the disk block. *)
Lemma iderw_write i s b :
  i < length (bufs s) → sl_locked (lock (bufs s !!! i)) ≠ 0%Z →
  flags (bufs s !!! i) = Z.lor B_VALID B_DIRTY →
  dev (bufs s !!! i) = 1%Z → blockno (bufs s !!! i) = Z.of_nat b → b < length (memdisk s) →
  ∃ s', iderw i s = Done tt s' ∧ memdisk s' = <[b := data (bufs s !!! i)]> (memdisk s) ∧
    wtrace s' = wtrace s ++ [(b, data (bufs s !!! i))] ∧
    length (bufs s') = length (bufs s) ∧
    replaced (bufs s) (bufs s') i (set_flags B_VALID (bufs s !!! i)).
Proof.
  intros Hi Hl Hf Hd Hb Hlt.
  assert (Hlock : holdingsleep (lock (bufs s !!! i)) = true).
  { unfold holdingsleep. by apply negb_true_iff, Z.eqb_neq. }
  unfold iderw, mbind, M_bind, getb, updb, mmodify, mget, assert_or_panic, mret, M_ret.
  rewrite Hlock, Hf, Hd, Hb, Nat2Z.id. simpl.
  destruct (Z.ltb_spec (Z.of_nat b) (Z.of_nat (length (memdisk s)))); [|lia]. simpl.
  rewrite alter_lookup_total, decide_True by done. simpl. rewrite list_alter_alter_eq.
  eexists. split_and!; [done|done|done|by simpl; rewrite length_alter|].
  apply (replaced_alter (set_flags 2 ∘ set_flags 2)); done.
Qed.

Lemma brep_step s s' c c' i bf' :
  brep s c → length (bufs s') = length (bufs s) → replaced (bufs s) (bufs s') i bf' →
  next bf' = next (bufs s !!! i) → prev bf' = prev (bufs s !!! i) →
  c_disk c' = memdisk s' → c_trace c' = wtrace s' → Forall blk_ok (memdisk s') →
  bcont (bufs s') (memdisk s') c' → brep s' c'.
Proof.
  intros [Hlen [order Hlru] _ _ _ _] Hl Hr Hn Hp. constructor; [congruence| |done..].
  exists order. by eapply lru_replaced.
Qed.

Lemma held_lt s c h b : brep s c → c_held c !! h = Some b →
  h < NBUF ∧ h < length (bufs s) ∧ sl_locked (lock (bufs s !!! h)) ≠ 0%Z ∧
  blockno (bufs s !!! h) = Z.of_nat b ∧ flags (bufs s !!! h) ≠ 0%Z ∧
  dev (bufs s !!! h) = ROOTDEV ∧ b < length (memdisk s) ∧
  c_view c !! b = Some (data (bufs s !!! h)) ∧ refcnt (bufs s !!! h) = 1%Z ∧
  (flags (bufs s !!! h) = B_VALID ∨ flags (bufs s !!! h) = Z.lor B_VALID B_DIRTY).
Proof.
  intros Hrep Hh. pose proof (br_cont _ _ Hrep) as Hc.
  apply (bc_heldmap _ _ _ Hc) in Hh as (Hlt & Hl & Hb).
  pose proof (bc_ok _ _ _ Hc h Hlt) as Hok. destruct (bo_held _ _ Hok Hl) as (_ & Hr & Hf).
  pose proof (bo_range _ _ Hok Hf). pose proof (bo_flags _ _ Hok).
  rewrite (br_len _ _ Hrep). split_and!; [done|lia|done|done|done| | | |done|tauto].
  - by apply (bo_dev _ _ Hok).
  - lia.
  - by apply (view_hit _ _ _ _ _ Hc).
Qed.

Lemma bread_hit pid s c b i order :
  brep s c → lru (bufs s) order → (∀ h, c_held c !! h ≠ Some b) →
  find (hits (bufs s) ROOTDEV (Z.of_nat b)) order = Some i →
  wp (bread pid ROOTDEV (Z.of_nat b))
    (λ h s', c_held c !! h = None ∧ brep s' (c_acquire h b c)) s.
Proof.
  intros Hrep Hlru Hnh Hfind. pose proof (br_cont _ _ Hrep) as Hc.
  pose proof (List.find_some _ _ Hfind) as [Hin Hhit%bool_decide_eq_true_1].
  apply list_elem_of_In in Hin. destruct Hhit as [Hd Hb].
  apply (lru_elem _ _ (proj1 Hlru)) in Hin. pose proof (bc_ok _ _ _ Hc i Hin) as Hok.
  assert (Hl : sl_locked (lock (bufs s !!! i)) = 0%Z).
  { apply dec_stable. intros Hl. apply (Hnh i), (bc_heldmap _ _ _ Hc). done. }
  assert (Hi : i < length (bufs s)) by (rewrite (br_len _ _ Hrep); lia).
  destruct (take_hit_eq pid i s Hi Hl) as (s' & Hrun & Hmd & Htr & Hln & Hr).
  { by apply (bo_free _ _ Hok). }
  unfold wp, bread, mbind, M_bind. rewrite (bget_eq _ _ _ _ order Hlru), Hfind, Hrun.
  unfold getb. rewrite (replaced_eq _ _ _ _ Hr). simpl.
  rewrite decide_False.
  2:{ rewrite flags_valid by apply (bo_flags _ _ Hok). by apply (bo_dev _ _ Hok). }
  simpl. split.
  - destruct (c_held c !! i) eqn:Hh; [|done].
    apply (bc_heldmap _ _ _ Hc) in Hh as (_ & ? & _). done.
  - eapply brep_step; [done|done|exact Hr|done|done|..]; simpl; rewrite ?Hmd, ?Htr.
    + apply (br_disk _ _ Hrep).
    + apply (br_trace _ _ Hrep).
    + apply (br_diskok _ _ Hrep).
    + eapply bcont_acquire; eauto.
Qed.

Lemma bread_miss pid s c b order :
  brep s c → lru (bufs s) order → b < length (c_disk c) → c_room b c →
  find (hits (bufs s) ROOTDEV (Z.of_nat b)) order = None →
  wp (bread pid ROOTDEV (Z.of_nat b))
    (λ h s', c_held c !! h = None ∧ brep s' (c_acquire h b c)) s.
Proof.
  intros Hrep Hlru Hlt Hroom Hfind. pose proof (br_cont _ _ Hrep) as Hc.
  assert (Hmiss : ∀ j, j < NBUF →
    ¬ (dev (bufs s !!! j) = ROOTDEV ∧ blockno (bufs s !!! j) = Z.of_nat b)).
  { intros j Hj Hm. apply (lru_elem _ _ (proj1 Hlru)), list_elem_of_In in Hj.
    apply (List.find_none _ _ Hfind) in Hj. by apply bool_decide_eq_false_1 in Hj. }
  destruct Hroom as [Hdirty|Hroom].
  { apply (bc_dirty _ _ _ Hc) in Hdirty as (j & Hj & Hf & Hb). destruct (Hmiss j Hj).
    split; [|done]. apply (bo_dev _ _ (bc_ok _ _ _ Hc j Hj)). by rewrite Hf. }
  destruct (idle_exists _ _ _ Hc Hroom) as (k & Hk & Hidle).
  destruct (find (idle (bufs s)) (reverse order)) as [i|] eqn:Hfi.
  2:{ apply (lru_elem _ _ (proj1 Hlru)), elem_of_reverse, list_elem_of_In in Hk.
      rewrite (List.find_none _ _ Hfi k Hk) in Hidle. done. }
  pose proof (List.find_some _ _ Hfi) as [Hin [Hrc Hfl]%bool_decide_eq_true_1].
  apply list_elem_of_In, elem_of_reverse, (lru_elem _ _ (proj1 Hlru)) in Hin.
  pose proof (bc_ok _ _ _ Hc i Hin) as Hok.
  assert (Hl : sl_locked (lock (bufs s !!! i)) = 0%Z).
  { apply dec_stable. intros Hl. destruct (bo_held _ _ Hok Hl) as (_ & ? & _). lia. }
  assert (Hi : i < length (bufs s)) by (rewrite (br_len _ _ Hrep); lia).
  destruct (take_idle_eq pid ROOTDEV (Z.of_nat b) i s Hi Hl) as (s1 & Hrun & Hmd & Htr & Hln & Hr).
  rewrite (br_disk _ _ Hrep) in Hlt. apply lookup_lt_is_Some in Hlt as [d Hd].
  pose proof (replaced_eq _ _ _ _ Hr) as Hbf.
  destruct (iderw_read i s1 b d) as (s2 & Hrun2 & Hmd2 & Htr2 & Hln2 & Hr2);
    [congruence|by rewrite Hbf..|by rewrite Hmd|].
  rewrite Hbf in Hr2. simpl in Hr2.
  unfold wp, bread, mbind, M_bind. rewrite (bget_eq _ _ _ _ order Hlru), Hfind, Hfi, Hrun.
  unfold getb. rewrite Hbf. simpl. rewrite Hrun2. simpl. split.
  - destruct (c_held c !! i) eqn:Hh; [|done].
    apply (bc_heldmap _ _ _ Hc) in Hh as (_ & ? & _). done.
  - assert (Hr' : replaced (bufs s) (bufs s2) i (Buf B_VALID ROOTDEV (Z.of_nat b) (Sleeplock 1 pid)
      1 (prev (bufs s !!! i)) (next (bufs s !!! i)) d)).
    { intros j. rewrite (Hr2 j). case_decide; [done|]. by apply (replaced_ne _ _ _ _ _ Hr). }
    eapply brep_step; [done|congruence|exact Hr'|done|done|..]; simpl; rewrite ?Hmd2, ?Htr2, ?Hmd, ?Htr.
    + apply (br_disk _ _ Hrep).
    + apply (br_trace _ _ Hrep).
    + apply (br_diskok _ _ Hrep).
    + eapply bcont_recycle; eauto.
      * eapply Forall_lookup_1; [apply (br_diskok _ _ Hrep)|done].
      * by apply flags_clean; [apply (bo_flags _ _ Hok)|].
Qed.

Lemma bwrite_spec s c h b d :
  brep s c → c_held c !! h = Some b → c_view c !! b = Some d →
  wp (bwrite h) (λ _ s', brep s' (c_write b d c)) s.
Proof.
  intros Hrep Hh Hd.
  destruct (held_lt _ _ _ _ Hrep Hh) as (Hlt & Hlb & Hl & Hb & Hf & Hdev & Hbd & Hv & Hrc & Hfs).
  assert (Hlock : holdingsleep (lock (bufs s !!! h)) = true).
  { unfold holdingsleep. by apply negb_true_iff, Z.eqb_neq. }
  set (s1 := BState (alter (set_flags (Z.lor (flags (bufs s !!! h)) B_DIRTY)) h (bufs s))
               (memdisk s) (wtrace s)).
  assert (Hr1 : replaced (bufs s) (bufs s1) h
    (set_flags (Z.lor (flags (bufs s !!! h)) B_DIRTY) (bufs s !!! h))) by (by apply replaced_alter).
  pose proof (replaced_eq _ _ _ _ Hr1) as Hbf.
  destruct (iderw_write h s1 b) as (s2 & Hrun & Hmd & Htr & Hln & Hr2);
    [by simpl; rewrite length_alter|by rewrite Hbf| |by rewrite Hbf..|done|].
  { rewrite Hbf. simpl. by destruct Hfs as [-> | ->]. }
  rewrite Hbf in Hmd, Htr, Hr2. simpl in Hmd, Htr, Hr2.
  eapply (wp_done _ tt s s2).
  { unfold bwrite, mbind, M_bind, getb, updb, mmodify, assert_or_panic. by rewrite Hlock. }
  assert (Hr : replaced (bufs s) (bufs s2) h (set_flags B_VALID (bufs s !!! h))).
  { intros j. rewrite (Hr2 j). case_decide; [done|]. by apply (replaced_ne _ _ _ _ _ Hr1). }
  assert (d = data (bufs s !!! h)) as -> by congruence.
  eapply brep_step; [done| |exact Hr|done|done|..]; simpl; rewrite ?Hmd, ?Htr.
  - rewrite Hln. simpl. by rewrite length_alter.
  - by rewrite (br_disk _ _ Hrep).
  - by rewrite (br_trace _ _ Hrep).
  - apply Forall_insert; [apply (br_diskok _ _ Hrep)|].
    apply (bo_data _ _ (bc_ok _ _ _ (br_cont _ _ Hrep) h Hlt)).
  - eapply bcont_write; eauto. apply (br_cont _ _ Hrep).
Qed.

Lemma brelse_spec s c h b l1 l2 :
  brep s c → c_held c !! h = Some b → c_clean b c → lru (bufs s) (l1 ++ h :: l2) →
  wp (brelse h) (λ _ s', brep s' (c_release h c) ∧ lru (bufs s') (h :: l1 ++ l2)) s.
Proof.
  intros Hrep Hh Hclean Hlru.
  destruct (held_lt _ _ _ _ Hrep Hh) as (Hlt & Hlb & Hl & Hb & Hf & Hdev & Hbd & Hv & Hrc & Hfs).
  assert (Hlock : holdingsleep (lock (bufs s !!! h)) = true).
  { unfold holdingsleep. by apply negb_true_iff, Z.eqb_neq. }
  set (bs1 := alter (set_refcnt 0 ∘ set_lock (Sleeplock 0 0)) h (bufs s)).
  assert (Hr : replaced (bufs s) bs1 h (set_refcnt 0 (set_lock (Sleeplock 0 0) (bufs s !!! h)))).
  { by apply (replaced_alter (set_refcnt 0 ∘ _)). }
  assert (Hlru1 : lru bs1 (l1 ++ h :: l2)) by (by eapply lru_replaced; [exact Hr|..]).
  eapply (wp_done _ tt s (BState (push_bufs h (unlink_bufs h bs1)) (memdisk s) (wtrace s))).
  { unfold brelse, mbind, M_bind, getb, updb, mmodify, assert_or_panic, on_lock, zoom. simpl.
    rewrite Hlock. simpl. rewrite !alter_lookup_total by (by rewrite ?length_alter).
    rewrite !(decide_True (P := h = h)) by done. simpl. rewrite Hrc, list_alter_alter_eq. simpl. done. }
  assert (Hbl : length bs1 = S NBUF).
  { unfold bs1. rewrite length_alter. apply (br_len _ _ Hrep). }
  assert (Hlru2 := lru_move_front _ _ _ _ Hbl Hlru1). split; [|exact Hlru2]. constructor; simpl.
  - by rewrite push_bufs_length, unlink_bufs_length.
  - by exists (h :: l1 ++ l2).
  - apply (br_disk _ _ Hrep).
  - apply (br_trace _ _ Hrep).
  - apply (br_diskok _ _ Hrep).
  - eapply bcont_ext.
    + intros i _. by rewrite push_bufs_core, unlink_bufs_core.
    + eapply bcont_release; eauto; [apply (br_cont _ _ Hrep)|apply (br_disk _ _ Hrep)].
Qed.

#[export] Instance bio_cache_spec (pid : Z) : @BlockCacheSpec bstate (bio_cache pid).
Proof.
  refine {| crep := brep |}.
  - intros s c Hrep. pose proof (br_cont _ _ Hrep) as Hc. pose proof (br_diskok _ _ Hrep) as Hdk.
    rewrite (br_disk _ _ Hrep). split_and!; [apply (bc_viewlen _ _ _ Hc)| |done].
    apply Forall_lookup_2. intros b d Hb.
    destruct (decide (Exists (λ i, flags (bufs s !!! i) ≠ 0%Z ∧ blockno (bufs s !!! i) = Z.of_nat b)
      (seq 0 NBUF))) as [Hex|Hno].
    + apply Exists_exists in Hex as (i & Hi%elem_of_seq & Hf & Hbn).
      assert (Hi' : i < NBUF) by lia. rewrite (view_hit _ _ _ i b Hc) in Hb by done.
      simplify_eq. apply (bo_data _ _ (bc_ok _ _ _ Hc i Hi')).
    + rewrite (bc_miss _ _ _ Hc b) in Hb.
      * by eapply Forall_lookup_1.
      * intros i Hi Hf Hbn. apply Hno, Exists_exists. exists i. rewrite elem_of_seq. split; [lia|done].
  - intros s c b Hrep Hlt Hnh Hroom. destruct (br_lru _ _ Hrep) as [order Hlru].
    destruct (find (hits (bufs s) ROOTDEV (Z.of_nat b)) order) eqn:Hfind.
    + by eapply bread_hit.
    + by eapply bread_miss.
  - intros s c h b Hrep Hh. destruct (held_lt _ _ _ _ Hrep Hh) as (_&_&_&_&_&_&_&Hv&_). done.
  - intros s c h b Hrep Hh. destruct (held_lt _ _ _ _ Hrep Hh) as (_&_&_&Hb&_). done.
  - intros s c h b d Hrep Hh Hd.
    destruct (held_lt _ _ _ _ Hrep Hh) as (Hlt&Hlb&_). eapply wp_modify.
    pose proof (replaced_alter (set_data d) h (bufs s) Hlb) as Hr.
    eapply brep_step; [done|by simpl; rewrite length_alter|exact Hr|done|done|..]; simpl;
      [apply (br_disk _ _ Hrep)|apply (br_trace _ _ Hrep)|apply (br_diskok _ _ Hrep)|].
    eapply bcont_store; eauto. apply (br_cont _ _ Hrep).
  - intros s c h b Hrep Hh.
    destruct (held_lt _ _ _ _ Hrep Hh) as (Hlt&Hlb&_&_&_&_&_&_&_&Hfs).
    pose proof (replaced_alter (set_flags (Z.lor B_VALID B_DIRTY)) h (bufs s) Hlb) as Hr.
    eapply wp_done; [done|]. simpl.
    replace (Z.lor (flags (bufs s !!! h)) B_DIRTY) with (Z.lor B_VALID B_DIRTY)
      by (by destruct Hfs as [-> | ->]).
    eapply brep_step; [done|by simpl; rewrite length_alter|exact Hr|done|done|..]; simpl;
      [apply (br_disk _ _ Hrep)|apply (br_trace _ _ Hrep)|apply (br_diskok _ _ Hrep)|].
    eapply bcont_pin; eauto. apply (br_cont _ _ Hrep).
  - intros. by eapply bwrite_spec.
  - intros s c h b Hrep Hh Hclean. destruct (br_lru _ _ Hrep) as [order Hlru].
    destruct (held_lt _ _ _ _ Hrep Hh) as (Hlt & _).
    assert (Hin : h ∈ order) by (by apply (lru_elem _ _ (proj1 Hlru))).
    apply list_elem_of_split in Hin as (l1 & l2 & ->).
    eapply wp_mono; [by eapply brelse_spec|]. naive_solver.
Defined.

(** ** Boot *)

(** The buffers [binit] leaves. *)
Definition boot_bufs : list buf :=
  match binit (bio_boot []) with Done _ s => bufs s | _ => [] end.

Definition pathb (bs : list buf) (l : list nat) : bool :=
  forallb (λ '(a, b), bool_decide (next (bs !!! a) = b ∧ prev (bs !!! b) = a))
    (zip l (tail l)).

Lemma pathb_path bs l : pathb bs l = true → path bs l.
Proof.
  induction l as [|a [|b l] IH]; [done|done|]. unfold pathb. simpl.
  rewrite andb_true_iff, bool_decide_eq_true. intros [Hl Hr]. rewrite path_cons. auto.
Qed.

Lemma binit_eq d : binit (bio_boot d) = Done tt (BState boot_bufs d []).
Proof. vm_compute. reflexivity. Qed.

Lemma boot_lru : lru boot_bufs (reverse (seq 0 NBUF)).
Proof.
  split; [apply reverse_Permutation|]. apply pathb_path. vm_compute. reflexivity.
Qed.

Lemma boot_length : length boot_bufs = S NBUF.
Proof. vm_compute. reflexivity. Qed.

Lemma boot_cores : (core <$> take NBUF boot_bufs) = replicate NBUF (core zero_buf).
Proof. vm_compute. reflexivity. Qed.

#[global] Opaque boot_bufs.

Lemma boot_core i : i < NBUF → core (boot_bufs !!! i) = core zero_buf.
Proof.
  intros Hi.
  assert (Hc : (core <$> take NBUF boot_bufs) !! i = Some (core zero_buf)).
  { rewrite boot_cores. by apply lookup_replicate_2. }
  rewrite list_lookup_fmap, lookup_take_lt in Hc by done.
  destruct (boot_bufs !! i) eqn:Hb; [|done].
  rewrite (list_lookup_total_correct _ _ _ Hb). apply (inj Some). exact Hc.
Qed.

Lemma boot_rep d : Forall blk_ok d →
  brep (BState boot_bufs d []) (CState d [] d ∅ ∅).
Proof.
  intros Hd.
  assert (Hz : ∀ i, i < NBUF → replicate (S NBUF) zero_buf !!! i = zero_buf).
  { intros i Hi. apply lookup_total_replicate_2. lia. }
  constructor; cbn [bufs memdisk wtrace c_disk c_trace];
    [apply boot_length|eexists; apply boot_lru|done|done|done|].
  eapply (bcont_ext (replicate (S NBUF) zero_buf)).
  { intros i Hi. by rewrite boot_core, Hz. }
  constructor; cbn [c_view c_dirty c_held]; [done|..].
  - intros i Hi. rewrite Hz by done.
    constructor; [apply zero_block_ok|by left|done|done|done|done].
  - intros i j Hi Hj. by rewrite Hz.
  - intros i Hi. by rewrite Hz.
  - done.
  - intros b. split; [set_solver|]. intros (j & Hj & Hf & _). by rewrite Hz in Hf.
  - intros h b. rewrite lookup_empty. split; [done|]. intros (Hj & Hf & _).
    by rewrite Hz in Hf.
Qed.
