(* ===== verification/Super.v ===== *)
(** * The superblock (fs.h [struct superblock], fs.c [readsb])

    Block 1 of the disk holds the layout of the file system: seven
    little-endian words. *)

From S2P Require Import Prelude Params Cache.

Record superblock := Superblock {
  sb_size : Z;         (* Size of file system image (blocks) *)
  sb_nblocks : Z;      (* Number of data blocks *)
  sb_ninodes : Z;      (* Number of inodes *)
  sb_nlog : Z;         (* Number of log blocks *)
  sb_logstart : Z;     (* Block number of first log block *)
  sb_inodestart : Z;   (* Block number of first inode block *)
  sb_bmapstart : Z     (* Block number of first free map block *)
}.

(** The bytes of the structure, as [memmove] from [bp->data] reads them. *)
Definition sb_of_bytes (d : block) : superblock :=
  Superblock (get32 0 d) (get32 4 d) (get32 8 d) (get32 12 d) (get32 16 d) (get32 20 d)
    (get32 24 d).

Definition sb_to_bytes (sb : superblock) : list Z :=
  le_enc 4 (sb_size sb) ++ le_enc 4 (sb_nblocks sb) ++ le_enc 4 (sb_ninodes sb) ++
  le_enc 4 (sb_nlog sb) ++ le_enc 4 (sb_logstart sb) ++ le_enc 4 (sb_inodestart sb) ++
  le_enc 4 (sb_bmapstart sb).

Definition readsb {St} `{BlockCache St} (dev : Z) : M St superblock :=
  bp ← bread dev 1;
  d ← bdata bp;
  brelse bp;;
  mret (sb_of_bytes d).
