(* ===== verification/Log.v ===== *)
(** * The write-ahead log (log.c)

    The log is written against the block-cache interface of Cache.v. The
    state is the cache below and the in-memory [struct log]. [begin_op] on a
    full or committing log goes to sleep ([Wait]): the caller retries it after
    the next wakeup. Block numbers in the header are kept as their 32-bit
    unsigned patterns: the code only converts them from and to [uint]. *)

From S2P Require Import Prelude Params Cache Super.

Record logheader := LogHeader {
  lh_n : Z;
  lh_block : list Z
}.

Record log := Log {
  l_start : Z;
  l_size : Z;
  l_outstanding : Z;   (* how many FS sys calls are executing. *)
  l_committing : Z;    (* in commit(), please wait. *)
  l_dev : Z;
  l_lh : logheader
}.

(** The byte offset of [block[i]] in a [struct logheader]. *)
Definition off_block (i : nat) : nat := 4 + 4 * i.
Arguments off_block : simpl never.

(** Static storage at boot. *)
Definition zero_log : log := Log 0 0 0 0 0 (LogHeader 0 (replicate (Z.to_nat LOGSIZE) 0%Z)).

Record lstate (St : Type) := LState { ls_cache : St; ls_log : log }.
Arguments LState {St} _ _.
Arguments ls_cache {St} _.
Arguments ls_log {St} _.

Definition set_n (n : Z) (l : log) : log :=
  Log (l_start l) (l_size l) (l_outstanding l) (l_committing l) (l_dev l)
    (LogHeader n (lh_block (l_lh l))).
Definition set_block (i : nat) (b : Z) (l : log) : log :=
  Log (l_start l) (l_size l) (l_outstanding l) (l_committing l) (l_dev l)
    (LogHeader (lh_n (l_lh l)) (<[i := b]> (lh_block (l_lh l)))).
Definition set_outstanding (n : Z) (l : log) : log :=
  Log (l_start l) (l_size l) n (l_committing l) (l_dev l) (l_lh l).
Definition set_committing (n : Z) (l : log) : log :=
  Log (l_start l) (l_size l) (l_outstanding l) n (l_dev l) (l_lh l).
Definition set_geometry (start size dev : Z) (l : log) : log :=
  Log start size (l_outstanding l) (l_committing l) dev (l_lh l).

Section log_code.
Context {St : Type} `{BlockCache St}.

Definition cache {A} (m : M St A) : M (lstate St) A :=
  zoom ls_cache (λ s t, LState s (ls_log t)) m.
Definition getlog : M (lstate St) log := λ t, Done (ls_log t) t.
Definition updlog (f : log → log) : M (lstate St) unit :=
  mmodify (λ t, LState (ls_cache t) (f (ls_log t))).

(** Copy committed blocks from log to their home location. *)
Definition install_block (tail : nat) : M (lstate St) unit :=
  l ← getlog;
  lbuf ← cache (bread (l_dev l) (u32 (l_start l + Z.of_nat tail + 1)));
  dbuf ← cache (bread (l_dev l) (lh_block (l_lh l) !!! tail));
  d ← cache (bdata lbuf);
  cache (bstore dbuf d);;
  cache (bwrite dbuf);;
  cache (brelse lbuf);;
  cache (brelse dbuf).

Definition install_trans : M (lstate St) unit :=
  l ← getlog;
  mfor (seq 0 (Z.to_nat (lh_n (l_lh l)))) install_block.

(** Read the log header from disk into the in-memory log header. *)
Definition read_head : M (lstate St) unit :=
  l ← getlog;
  buf ← cache (bread (l_dev l) (u32 (l_start l)));
  d ← cache (bdata buf);
  updlog (set_n (s32 (get32 0 d)));;
  mfor (seq 0 (Z.to_nat (s32 (get32 0 d)))) (λ i, updlog (set_block i (get32 (off_block i) d)));;
  cache (brelse buf).

(** Write in-memory log header to disk: the commit point. *)
Definition write_head : M (lstate St) unit :=
  l ← getlog;
  buf ← cache (bread (l_dev l) (u32 (l_start l)));
  d ← cache (bdata buf);
  cache (bstore buf (put32 0 (lh_n (l_lh l)) d));;
  mfor (seq 0 (Z.to_nat (lh_n (l_lh l)))) (λ i,
    d ← cache (bdata buf);
    cache (bstore buf (put32 (off_block i) (lh_block (l_lh l) !!! i) d)));;
  cache (bwrite buf);;
  cache (brelse buf).

Definition recover_from_log : M (lstate St) unit :=
  read_head;;
  install_trans;;
  updlog (set_n 0);;
  write_head.

Definition initlog (dev : Z) : M (lstate St) unit :=
  assert_or_panic (negb (4 + 4 * LOGSIZE >=? BSIZE)%Z) "initlog: too big logheader";;
  sb ← cache (readsb dev);
  updlog (set_geometry (s32 (sb_logstart sb)) (s32 (sb_nlog sb)) dev);;
  recover_from_log.

(** Called at the start of each FS system call. *)
Definition begin_op : M (lstate St) unit := λ t,
  let l := ls_log t in
  if decide (l_committing l ≠ 0%Z) then Wait t
  else if decide (lh_n (l_lh l) + (l_outstanding l + 1) * MAXOPBLOCKS > LOGSIZE)%Z then Wait t
  else updlog (set_outstanding (l_outstanding l + 1)) t.

(** Copy modified blocks from cache to log. *)
Definition write_log_block (tail : nat) : M (lstate St) unit :=
  l ← getlog;
  to ← cache (bread (l_dev l) (u32 (l_start l + Z.of_nat tail + 1)));
  from ← cache (bread (l_dev l) (lh_block (l_lh l) !!! tail));
  d ← cache (bdata from);
  cache (bstore to d);;
  cache (bwrite to);;
  cache (brelse from);;
  cache (brelse to).

Definition write_log : M (lstate St) unit :=
  l ← getlog;
  mfor (seq 0 (Z.to_nat (lh_n (l_lh l)))) write_log_block.

Definition commit : M (lstate St) unit :=
  l ← getlog;
  if decide (lh_n (l_lh l) > 0)%Z then
    write_log;;
    write_head;;
    install_trans;;
    updlog (set_n 0);;
    write_head
  else mret tt.

(** Called at the end of each FS system call; commits if this was the last
    outstanding operation. *)
Definition end_op : M (lstate St) unit :=
  l ← getlog;
  updlog (set_outstanding (l_outstanding l - 1));;
  l ← getlog;
  assert_or_panic (l_committing l =? 0)%Z "log.committing";;
  if decide (l_outstanding l = 0%Z) then
    updlog (set_committing 1);;
    commit;;
    updlog (set_committing 0)
  else mret tt.

(** The index of block [b] among the first [n] logged blocks, or [n]. *)
Fixpoint log_slot (b : Z) (bs : list Z) (n : nat) (i : nat) : nat :=
  match n, bs with
  | S n, x :: bs => if decide (x = b) then i else log_slot b bs n (S i)
  | _, _ => i
  end.

Definition log_write (b : nat) : M (lstate St) unit :=
  l ← getlog;
  assert_or_panic (negb ((lh_n (l_lh l) >=? LOGSIZE) || (lh_n (l_lh l) >=? l_size l - 1))%Z)
    "too big a transaction";;
  assert_or_panic (negb (l_outstanding l <? 1)%Z) "log_write outside of trans";;
  bn ← cache (bblockno b);
  let i := log_slot bn (lh_block (l_lh l)) (Z.to_nat (lh_n (l_lh l))) 0 in
  updlog (set_block i bn);;
  (if decide (Z.of_nat i = lh_n (l_lh l)) then updlog (set_n (lh_n (l_lh l) + 1)) else mret tt);;
  cache (bpin b).

End log_code.
