(* ===== verification/LogProof.v ===== *)
(** * Correctness of the log

    Proved once for every implementation of the block-cache interface. The
    abstract effect of [commit] and [recover_from_log] on the cache is a
    sequence of block writes; the crash argument is then about replaying a
    prefix of that sequence. *)

From S2P Require Import Prelude Params Cache Super Log.

(** ** Sequences of block writes *)

(** A block is stored and written through to the disk. *)
Definition c_put (b : nat) (d : block) (c : cstate) : cstate := c_write b d (c_store b d c).

Definition replay (d : list block) (ws : list (nat * block)) : list block :=
  foldl (λ d '(b, x), <[b := x]> d) d ws.

Definition puts (ws : list (nat * block)) (c : cstate) : cstate :=
  foldl (λ c '(b, x), c_put b x c) c ws.

Lemma replay_app d ws1 ws2 : replay d (ws1 ++ ws2) = replay (replay d ws1) ws2.
Proof. apply foldl_app. Qed.

Lemma puts_app c ws1 ws2 : puts (ws1 ++ ws2) c = puts ws2 (puts ws1 c).
Proof. apply foldl_app. Qed.

Lemma replay_length d ws : length (replay d ws) = length d.
Proof.
  revert d. induction ws as [|[b x] ws IH]; intros d; [done|]. simpl.
  rewrite IH. apply length_insert.
Qed.

Lemma replay_lookup_other d ws b : b ∉ ws.*1 → replay d ws !! b = d !! b.
Proof.
  revert d. induction ws as [|[b' x] ws IH]; intros d Hb; [done|]. simpl in *.
  rewrite IH by set_solver. apply list_lookup_insert_ne. set_solver.
Qed.

Lemma replay_lookup d ws b x :
  NoDup ws.*1 → (b, x) ∈ ws → b < length d → replay d ws !! b = Some x.
Proof.
  revert d. induction ws as [|[b' x'] ws IH]; intros d Hnd Hin Hlt; [set_solver|].
  simpl in *. apply NoDup_cons in Hnd as [Hni Hnd].
  apply elem_of_cons in Hin as [Heq|Hin].
  - simplify_eq. rewrite replay_lookup_other by done. by apply list_lookup_insert_eq.
  - apply IH; [done..|]. by rewrite length_insert.
Qed.

(** A full replay hides what an earlier partial replay did. *)
Lemma replay_absorb d ws1 ws2 b :
  NoDup ws1.*1 → (∀ p, p ∈ ws2 → p ∈ ws1) → b < length d →
  replay (replay d ws2) ws1 !! b = replay d ws1 !! b.
Proof.
  intros Hnd Hsub Hlt. destruct (decide (b ∈ ws1.*1)) as [Hin|Hni].
  - apply list_elem_of_fmap in Hin as ([b' x] & -> & Hin). simpl in *.
    by rewrite !(replay_lookup _ ws1 b' x) by (rewrite ?replay_length; done).
  - rewrite !(replay_lookup_other _ ws1) by done. apply replay_lookup_other.
    intros ([b' x] & -> & Hin)%list_elem_of_fmap. apply Hni, list_elem_of_fmap.
    exists (b', x). split; [done|by apply Hsub].
Qed.

Lemma replay_absorb' d ws1 ws2 b :
  NoDup ws1.*1 → (∀ p, p ∈ ws2 → p ∈ ws1) →
  replay (replay d ws2) ws1 !! b = replay d ws1 !! b.
Proof.
  intros Hnd Hsub. destruct (decide (b < length d)); [by apply replay_absorb|].
  rewrite !lookup_ge_None_2; [done|..]; rewrite !replay_length; lia.
Qed.

Lemma puts_disk ws c : c_disk (puts ws c) = replay (c_disk c) ws.
Proof. revert c. induction ws as [|[b x] ws IH]; intros c; [done|]. simpl. by rewrite IH. Qed.

Lemma puts_view ws c : c_view (puts ws c) = replay (c_view c) ws.
Proof. revert c. induction ws as [|[b x] ws IH]; intros c; [done|]. simpl. by rewrite IH. Qed.

Lemma puts_trace ws c : c_trace (puts ws c) = c_trace c ++ ws.
Proof.
  revert c. induction ws as [|[b x] ws IH]; intros c; simpl; [by rewrite app_nil_r|].
  rewrite IH. simpl. by rewrite <-app_assoc.
Qed.

Lemma puts_held ws c : c_held (puts ws c) = c_held c.
Proof. revert c. induction ws as [|[b x] ws IH]; intros c; [done|]. simpl. by rewrite IH. Qed.

Lemma puts_dirty ws c : c_dirty (puts ws c) = c_dirty c ∖ list_to_set ws.*1.
Proof.
  revert c. induction ws as [|[b x] ws IH]; intros c; simpl; [set_solver|].
  rewrite IH. simpl. set_solver.
Qed.

(** ** The header block *)

(** What [write_head] makes of the old header block. *)
Definition hdr_enc (L : list nat) (d : block) : block :=
  foldl (λ d i, put32 (off_block i) (Z.of_nat (L !!! i)) d)
    (put32 0 (Z.of_nat (length L)) d) (seq 0 (length L)).

(** The header block lists [L]. *)
Definition hdr_is (d : block) (L : list nat) : Prop :=
  get32 0 d = Z.of_nat (length L) ∧
  ∀ i b, L !! i = Some b → get32 (off_block i) d = Z.of_nat b.

Lemma put32_ok off v d : blk_ok d → off + 4 ≤ Z.to_nat BSIZE → blk_ok (put32 off v d).
Proof. intros. apply blk_ok_splice; [done|apply le_enc_byte|by rewrite le_enc_length]. Qed.

Lemma hdr_enc_partial L d n :
  blk_ok d → n ≤ length L → length L ≤ Z.to_nat LOGSIZE →
  Forall (λ b, is_u32 (Z.of_nat b)) L →
  let d' := foldl (λ d i, put32 (off_block i) (Z.of_nat (L !!! i)) d)
    (put32 0 (Z.of_nat (length L)) d) (seq 0 n) in
  blk_ok d' ∧ get32 0 d' = Z.of_nat (length L) ∧
  ∀ i b, i < n → L !! i = Some b → get32 (off_block i) d' = Z.of_nat b.
Proof.
  intros Hd Hn HL HLb. induction n as [|n IH]; cbv zeta in *.
  - cbn [seq foldl]. split_and!; [apply put32_ok; [done|plia]| |lia].
    apply get32_put32_eq; [lia|plia].
  - rewrite seq_S, foldl_app. cbn [foldl]. change (0 + n) with n. destruct IH as (Hok & H0 & Hi); [lia|].
    assert (Hoff : off_block n + 4 ≤ Z.to_nat BSIZE) by (unfold off_block; plia).
    destruct Hok as [Hlen Hby].
    split_and!; [by apply put32_ok| |].
    + rewrite get32_put32_ne; [done|lia|unfold off_block; lia].
    + intros i b Hlt Hib. destruct (decide (i = n)) as [->|].
      * rewrite get32_put32_eq; [by rewrite (list_lookup_total_correct _ _ _ Hib)|lia|].
        rewrite (list_lookup_total_correct _ _ _ Hib). by eapply (Forall_lookup_1 _ _ _ _ HLb).
      * rewrite get32_put32_ne; [apply Hi; [lia|done]|lia|unfold off_block; lia].
Qed.

Lemma hdr_enc_ok L d :
  blk_ok d → length L ≤ Z.to_nat LOGSIZE → Forall (λ b, is_u32 (Z.of_nat b)) L →
  blk_ok (hdr_enc L d) ∧ hdr_is (hdr_enc L d) L.
Proof.
  intros Hd HL HLb. destruct (hdr_enc_partial L d (length L)) as (Hok & H0 & Hi); [done..|].
  split; [done|]. split; [done|]. intros i b Hib. apply Hi; [|done].
  by apply lookup_lt_Some in Hib.
Qed.

Lemma hdr_is_n d L : hdr_is d L → length L ≤ Z.to_nat LOGSIZE →
  s32 (get32 0 d) = Z.of_nat (length L).
Proof.
  intros [-> _] HL. apply s32_small. plia.
Qed.

(** ** The cache laws, under the log's state *)

Section log_proofs.
Context {St : Type} `{BlockCacheSpec St}.
Implicit Types (s : St) (l : log) (c : cstate).

Lemma cache_bread s l c d n b Q :
  crep s c → d = ROOTDEV → n = Z.of_nat b → b < length (c_disk c) →
  (∀ h, c_held c !! h ≠ Some b) → c_room b c →
  (∀ h s', c_held c !! h = None → crep s' (c_acquire h b c) → Q h (LState s' l)) →
  wp (cache (bread d n)) Q (LState s l).
Proof.
  intros Hr -> -> Hb Hh Hroom HQ. apply wp_zoom. simpl.
  eapply wp_mono; [by eapply bread_law|]. simpl. naive_solver.
Qed.

Lemma cache_bdata s l c h b d Q :
  crep s c → c_held c !! h = Some b → c_view c !! b = Some d → Q d (LState s l) →
  wp (cache (bdata h)) Q (LState s l).
Proof.
  intros Hr Hh Hv HQ. apply wp_zoom. simpl.
  eapply wp_mono; [by eapply bdata_law|]. simpl. intros d' s' [-> ?]. by simplify_eq.
Qed.

Lemma cache_bstore s l c h b d Q :
  crep s c → c_held c !! h = Some b → blk_ok d →
  (∀ s', crep s' (c_store b d c) → Q tt (LState s' l)) →
  wp (cache (bstore h d)) Q (LState s l).
Proof.
  intros Hr Hh Hd HQ. apply wp_zoom. simpl.
  eapply wp_mono; [by eapply bstore_law|]. intros [] s'. apply HQ.
Qed.

Lemma cache_bwrite s l c h b d Q :
  crep s c → c_held c !! h = Some b → c_view c !! b = Some d →
  (∀ s', crep s' (c_write b d c) → Q tt (LState s' l)) →
  wp (cache (bwrite h)) Q (LState s l).
Proof.
  intros Hr Hh Hd HQ. apply wp_zoom. simpl.
  eapply wp_mono; [by eapply bwrite_law|]. intros [] s'. apply HQ.
Qed.

Lemma cache_brelse s l c h b Q :
  crep s c → c_held c !! h = Some b → c_clean b c →
  (∀ s', crep s' (c_release h c) → Q tt (LState s' l)) →
  wp (cache (brelse h)) Q (LState s l).
Proof.
  intros Hr Hh Hd HQ. apply wp_zoom. simpl.
  eapply wp_mono; [by eapply brelse_law|]. intros [] s'. apply HQ.
Qed.

Lemma view_ok s c b d : crep s c → c_view c !! b = Some d → blk_ok d ∧ b < length (c_disk c).
Proof.
  intros (Hl & Hv & _)%crep_wf Hb. split; [by eapply Forall_lookup_1|].
  apply lookup_lt_Some in Hb. lia.
Qed.

Lemma view_some s c b : crep s c → b < length (c_disk c) → ∃ d, c_view c !! b = Some d.
Proof. intros (Hl & _)%crep_wf Hb. apply lookup_lt_is_Some. lia. Qed.

(** Reading block [a], reading block [b], overwriting and writing one of them
    and releasing both is a single [c_put] for a client. *)
Lemma copy_cancel c h1 h2 a b k x :
  c_held c !! h1 = None → c_held (c_acquire h1 a c) !! h2 = None →
  c_release h2 (c_release h1 (c_put k x (c_acquire h2 b (c_acquire h1 a c)))) = c_put k x c.
Proof.
  intros H1 H2. unfold c_release, c_put, c_write, c_store, c_acquire in *. simpl in *.
  f_equal. destruct (decide (h1 = h2)) as [->|Hne].
  { by rewrite lookup_insert_eq in H2. }
  rewrite lookup_insert_ne in H2 by done.
  apply map_eq. intros i. rewrite !lookup_delete, !lookup_insert.
  repeat case_decide; congruence.
Qed.

Lemma copy_cancel' c h1 h2 a b k x :
  c_held c !! h1 = None → c_held (c_acquire h1 a c) !! h2 = None →
  c_release h1 (c_release h2 (c_put k x (c_acquire h2 b (c_acquire h1 a c)))) = c_put k x c.
Proof.
  intros H1 H2. rewrite <-(copy_cancel c h1 h2 a b k x) by done.
  unfold c_release. simpl. f_equal. apply delete_delete.
Qed.

Lemma room_free c b : size (c_dirty c) + size (c_held c) < NBUF → c_room b c.
Proof. by right. Qed.

(** ** Geometry and the list of logged blocks *)

Record geom (l : log) (start sz D : nat) : Prop := {
  g_dev : l_dev l = ROOTDEV;
  g_start : l_start l = Z.of_nat start;
  g_size : l_size l = Z.of_nat sz;
  g_fits : start + sz ≤ D;
  g_pos : 0 < sz;
  g_32 : (Z.of_nat D < 2 ^ 31)%Z
}.

(** The in-memory header lists [L]. *)
Record logged (l : log) (L : list nat) : Prop := {
  lg_n : lh_n (l_lh l) = Z.of_nat (length L);
  lg_len : length (lh_block (l_lh l)) = Z.to_nat LOGSIZE;
  lg_block i b : L !! i = Some b → lh_block (l_lh l) !! i = Some (Z.of_nat b)
}.

(** A block outside the log area. *)
Definition home (start sz b : nat) : Prop := b < start ∨ start + sz ≤ b.

Record log_list (start sz D : nat) (L : list nat) : Prop := {
  ll_nodup : NoDup L;
  ll_home : Forall (λ b, b < D ∧ home start sz b) L;
  ll_size : length L < sz;
  ll_max : length L ≤ Z.to_nat LOGSIZE
}.

Lemma logged_lookup l L i b : logged l L → L !! i = Some b →
  lh_block (l_lh l) !!! i = Z.of_nat b.
Proof. intros [_ _ Hb] Hi. apply list_lookup_total_correct. by apply Hb. Qed.

Lemma geom_slot l start sz D i :
  geom l start sz D → i < sz →
  u32 (l_start l + Z.of_nat i + 1) = Z.of_nat (start + 1 + i).
Proof. intros [_ -> _ Hf _ H32] Hi. rewrite u32_small; plia. Qed.

Lemma geom_head l start sz D : geom l start sz D → u32 (l_start l) = Z.of_nat start.
Proof. intros [_ -> _ Hf Hp H32]. rewrite u32_small; plia. Qed.

Lemma held_empty c b : c_held c = ∅ → ∀ h, c_held c !! h ≠ Some b.
Proof. intros -> h. by rewrite lookup_empty. Qed.

Lemma held_acquired c h a b : c_held c = ∅ → a ≠ b → ∀ h', c_held (c_acquire h a c) !! h' ≠ Some b.
Proof.
  intros He Hne h'. simpl. rewrite He, lookup_insert. case_decide; [congruence|].
  by rewrite lookup_empty.
Qed.

(** One step of [write_log]: home block [b] is copied to log block [i]. *)
Lemma write_log_block_spec s l c start sz D L i b x :
  geom l start sz D → logged l L → crep s c → D = length (c_disk c) →
  c_held c = ∅ → L !! i = Some b → i < sz - 1 → home start sz b →
  b ∈ c_dirty c → size (c_dirty c) < NBUF → c_view c !! b = Some x →
  wp (write_log_block i)
    (λ _ t, ∃ s', t = LState s' l ∧ crep s' (c_put (start + 1 + i) x c)) (LState s l).
Proof.
  intros Hg Hl Hr HD Hh Hib Hi Hhome Hdirty Hroom Hx. pose proof (view_ok _ _ _ _ Hr Hx) as [Hxok Hxlt].
  assert (Hk : start + 1 + i < length (c_disk c)) by (pose proof (g_fits _ _ _ _ Hg); lia).
  assert (Hne : start + 1 + i ≠ b) by (unfold home in Hhome; lia).
  unfold write_log_block. wp_pure. apply wp_bind.
  eapply cache_bread; [exact Hr|apply (g_dev _ _ _ _ Hg)|eapply geom_slot; [exact Hg|lia]|done|..].
  { by apply held_empty. } { apply room_free. rewrite Hh, map_size_empty. lia. }
  intros to s1 Hto Hr1. apply wp_bind.
  eapply cache_bread; [exact Hr1|apply (g_dev _ _ _ _ Hg)|by eapply logged_lookup|done|..].
  { by apply held_acquired. } { by left. }
  intros from s2 Hfrom Hr2. apply wp_bind.
  assert (Hne' : to ≠ from).
  { intros ->. simpl in Hfrom. by rewrite lookup_insert_eq in Hfrom. }
  eapply cache_bdata; [exact Hr2|apply lookup_insert_eq|exact Hx|]. apply wp_bind.
  eapply cache_bstore; [exact Hr2| |exact Hxok|].
  { simpl. rewrite lookup_insert_ne by done. apply lookup_insert_eq. }
  intros s3 Hr3. apply wp_bind.
  eapply cache_bwrite; [exact Hr3| | |].
  { simpl. rewrite lookup_insert_ne by done. apply lookup_insert_eq. }
  { simpl. apply list_lookup_insert_eq. pose proof (crep_wf _ _ Hr) as [-> _]. done. }
  intros s4 Hr4. apply wp_bind.
  eapply cache_brelse; [exact Hr4|apply lookup_insert_eq| |].
  { left. simpl. set_solver. }
  intros s5 Hr5. eapply cache_brelse; [exact Hr5| | |].
  { simpl. rewrite lookup_delete_ne by done. rewrite lookup_insert_ne by done.
    apply lookup_insert_eq. }
  { right. simpl. rewrite !list_lookup_insert_eq; [done|done|].
    pose proof (crep_wf _ _ Hr) as [-> _]. done. }
  intros s6 Hr6. exists s6. split; [done|].
  by rewrite <-(copy_cancel' c to from (start + 1 + i) b).
Qed.

(** One step of [install_trans]: log block [i] is copied home to [b]. *)
Lemma install_block_spec s l c start sz D L i b x :
  geom l start sz D → logged l L → crep s c → D = length (c_disk c) →
  c_held c = ∅ → L !! i = Some b → b < D → i < sz - 1 → home start sz b →
  c_clean (start + 1 + i) c → size (c_dirty c) < NBUF →
  (b ∈ c_dirty c ∨ size (c_dirty c) + 1 < NBUF) → c_view c !! (start + 1 + i) = Some x →
  wp (install_block i) (λ _ t, ∃ s', t = LState s' l ∧ crep s' (c_put b x c)) (LState s l).
Proof.
  intros Hg Hl Hr HD Hh Hib Hb Hi Hhome Hclean Hroom Hroom2 Hx.
  pose proof (view_ok _ _ _ _ Hr Hx) as [Hxok Hxlt].
  assert (Hne : start + 1 + i ≠ b) by (unfold home in Hhome; lia).
  pose proof (crep_wf _ _ Hr) as [Hvl _].
  unfold install_block. wp_pure. apply wp_bind.
  eapply cache_bread; [exact Hr|apply (g_dev _ _ _ _ Hg)|eapply geom_slot; [exact Hg|lia]|done|..].
  { by apply held_empty. } { apply room_free. rewrite Hh, map_size_empty. lia. }
  intros lb s1 Hlb Hr1. apply wp_bind.
  eapply cache_bread; [exact Hr1|apply (g_dev _ _ _ _ Hg)|by eapply logged_lookup|simpl; lia|..].
  { by apply held_acquired. }
  { destruct Hroom2; [by left|right]. simpl.
    rewrite Hh, map_size_insert, lookup_empty, map_size_empty. lia. }
  intros db s2 Hdb Hr2. apply wp_bind.
  assert (Hne' : lb ≠ db).
  { intros ->. simpl in Hdb. by rewrite lookup_insert_eq in Hdb. }
  eapply cache_bdata; [exact Hr2| |exact Hx|].
  { simpl. rewrite lookup_insert_ne by done. apply lookup_insert_eq. }
  apply wp_bind. eapply cache_bstore; [exact Hr2|apply lookup_insert_eq|exact Hxok|].
  intros s3 Hr3. apply wp_bind.
  eapply cache_bwrite; [exact Hr3|apply lookup_insert_eq| |].
  { simpl. apply list_lookup_insert_eq. lia. }
  intros s4 Hr4. apply wp_bind.
  eapply cache_brelse; [exact Hr4| | |].
  { simpl. rewrite lookup_insert_ne by done. apply lookup_insert_eq. }
  { destruct Hclean as [?|Heq]; [left; simpl; set_solver|right].
    simpl. by rewrite !list_lookup_insert_ne by done. }
  intros s5 Hr5. eapply cache_brelse; [exact Hr5| | |].
  { simpl. rewrite lookup_delete_ne by done. apply lookup_insert_eq. }
  { right. simpl. by rewrite !list_lookup_insert_eq by lia. }
  intros s6 Hr6. exists s6. split; [done|].
  by rewrite <-(copy_cancel c lb db (start + 1 + i) b).
Qed.

(** ** The loops *)

Lemma size_puts_dirty ws c : size (c_dirty (puts ws c)) ≤ size (c_dirty c).
Proof. rewrite puts_dirty. apply subseteq_size. set_solver. Qed.

(** The contents of the logged blocks. *)
Definition contents (v : list block) (L : list nat) (vals : list block) : Prop :=
  Forall2 (λ b x, v !! b = Some x) L vals.

Definition log_writes (start : nat) (vals : list block) : list (nat * block) :=
  zip (seq (start + 1) (length vals)) vals.

Lemma log_writes_take start vals i :
  i ≤ length vals → log_writes start (take i vals) = zip (take i (seq (start + 1) (length vals))) (take i vals).
Proof. intros. unfold log_writes. by rewrite length_take, take_seq. Qed.

Lemma log_writes_S start vals i x :
  vals !! i = Some x →
  log_writes start (take (S i) vals) = log_writes start (take i vals) ++ [(start + 1 + i, x)].
Proof.
  intros Hx. pose proof (lookup_lt_Some _ _ _ Hx). rewrite !log_writes_take by lia.
  apply zip_take_S; [|done]. by apply lookup_seq_lt.
Qed.

Lemma log_writes_fst start vals : (log_writes start vals).*1 = seq (start + 1) (length vals).
Proof. unfold log_writes. apply fst_zip. by rewrite length_seq. Qed.

Lemma home_not_logged start sz vals b :
  home start sz b → length vals < sz → b ∉ (log_writes start vals).*1.
Proof. intros Hh Hl. rewrite log_writes_fst, elem_of_seq. unfold home in Hh. lia. Qed.

Lemma write_log_spec s l c start sz D L vals :
  geom l start sz D → logged l L → log_list start sz D L → crep s c →
  D = length (c_disk c) → c_held c = ∅ → (∀ b, b ∈ L → b ∈ c_dirty c) →
  size (c_dirty c) < NBUF → contents (c_view c) L vals →
  wp write_log (λ _ t, ∃ s', t = LState s' l ∧ crep s' (puts (log_writes start vals) c)) (LState s l).
Proof.
  intros Hg Hl [Hnd Hhome Hsz Hmax] Hr HD Hh Hdirty Hroom Hvals.
  pose proof (Forall2_length _ _ _ Hvals) as Hlen.
  unfold write_log. wp_pure. rewrite (lg_n _ _ Hl), Nat2Z.id.
  apply (wp_mfor_seq (λ i t, ∃ s', t = LState s' l ∧
    crep s' (puts (log_writes start (take i vals)) c))).
  - exists s. by rewrite take_0.
  - intros i t Hi (s' & -> & Hr').
    destruct (lookup_lt_is_Some_2 L i Hi) as [b Hb].
    destruct (lookup_lt_is_Some_2 vals i) as [x Hx]; [lia|].
    rewrite Forall_lookup in Hhome. destruct (Hhome _ _ Hb) as [HbD Hbh].
    assert (Hnl : b ∉ (log_writes start (take i vals)).*1).
    { eapply home_not_logged; [done|]. rewrite length_take. lia. }
    eapply wp_mono; [eapply write_log_block_spec; [done|done|exact Hr'|..]|].
    + by rewrite puts_disk, replay_length.
    + by rewrite puts_held.
    + done.
    + lia.
    + done.
    + rewrite puts_dirty. apply elem_of_difference. split.
      * apply Hdirty. by eapply list_elem_of_lookup_2.
      * by rewrite elem_of_list_to_set.
    + pose proof (size_puts_dirty (log_writes start (take i vals)) c). lia.
    + rewrite puts_view, replay_lookup_other by done.
      by eapply (Forall2_lookup_lr _ _ _ _ _ _ Hvals).
    + intros _ t (s'' & -> & Hr''). exists s''. split; [done|].
      by rewrite (log_writes_S _ _ _ _ Hx), puts_app.
  - intros t Ht. by rewrite Hlen, firstn_all in Ht.
Qed.

(** Reading the header is [hdr_is]; the in-memory header then lists [L]. *)
Lemma read_head_spec s l c start sz D L d :
  geom l start sz D → crep s c → D = length (c_disk c) → c_held c = ∅ →
  size (c_dirty c) < NBUF → c_view c !! start = Some d → c_clean start c →
  hdr_is d L → length L ≤ Z.to_nat LOGSIZE → length (lh_block (l_lh l)) = Z.to_nat LOGSIZE →
  wp read_head (λ _ t, ∃ s' l', t = LState s' l' ∧ crep s' c ∧ geom l' start sz D ∧ logged l' L ∧
    l_outstanding l' = l_outstanding l ∧ l_committing l' = l_committing l) (LState s l).
Proof.
  intros Hg Hr HD Hh Hroom Hd Hclean Hhdr HL Hlb. pose proof (hdr_is_n _ _ Hhdr HL) as Hn.
  pose proof Hg as [Hg1 Hg2 Hg3 Hg4 Hg5 Hg6].
  unfold read_head. wp_pure. apply wp_bind.
  eapply cache_bread; [exact Hr|done|by eapply geom_head|lia|by apply held_empty|..].
  { apply room_free. rewrite Hh, map_size_empty. lia. }
  intros h s1 Hf Hr1. apply wp_bind.
  eapply cache_bdata; [exact Hr1|apply lookup_insert_eq|exact Hd|]. rewrite Hn.
  wp_pure. apply wp_bind. rewrite Nat2Z.id.
  apply (wp_mfor_seq (λ i t, ∃ l', t = LState s1 l' ∧ geom l' start sz D ∧
    lh_n (l_lh l') = Z.of_nat (length L) ∧ length (lh_block (l_lh l')) = Z.to_nat LOGSIZE ∧
    (∀ j b, j < i → L !! j = Some b → lh_block (l_lh l') !! j = Some (Z.of_nat b)) ∧
    l_outstanding l' = l_outstanding l ∧ l_committing l' = l_committing l)).
  - eexists. split_and!; [done|by constructor|done|done|lia|done|done].
  - intros i t Hi (l' & -> & Hg' & Hn' & Hlen' & Hb' & ? & ?). apply wp_modify. simpl.
    eexists. destruct Hg'. split_and!; [done|by constructor|done|by simpl; rewrite length_insert| |done|done].
    intros j b Hj HLj. simpl. destruct (decide (j = i)) as [->|].
    + rewrite list_lookup_insert_eq by lia. f_equal. by apply (proj2 Hhdr).
    + rewrite list_lookup_insert_ne by done. apply Hb'; [lia|done].
  - intros t (l' & -> & Hg' & Hn' & Hlen' & Hb' & ? & ?).
    eapply cache_brelse; [exact Hr1|apply lookup_insert_eq|exact Hclean|].
    intros s2 Hr2. exists s2, l'. split_and!; [done| |done| |done|done].
    + assert (c_release h (c_acquire h start c) = c) as <-; [|done].
      destruct c; unfold c_release, c_acquire; simpl in *. f_equal.
      rewrite delete_insert_eq. by rewrite delete_id.
    + constructor; [done|done|]. intros i b Hi. apply Hb'; [|done].
      by apply lookup_lt_Some in Hi.
Qed.

Lemma c_store_store b d d' c : c_store b d (c_store b d' c) = c_store b d c.
Proof. unfold c_store. simpl. by rewrite list_insert_insert_eq. Qed.

Lemma head_cancel c h b d :
  c_held c !! h = None → c_release h (c_write b d (c_store b d (c_acquire h b c))) = c_put b d c.
Proof.
  intros Hh. destruct c. unfold c_release, c_put, c_write, c_store, c_acquire. simpl in *.
  f_equal. by rewrite delete_insert_eq, delete_id.
Qed.

Lemma hdr_enc_S L d n :
  foldl (λ d i, put32 (off_block i) (Z.of_nat (L !!! i)) d)
    (put32 0 (Z.of_nat (length L)) d) (seq 0 (S n)) =
  put32 (off_block n) (Z.of_nat (L !!! n)) (foldl (λ d i, put32 (off_block i) (Z.of_nat (L !!! i)) d)
    (put32 0 (Z.of_nat (length L)) d) (seq 0 n)).
Proof. by rewrite seq_S, foldl_app. Qed.

Lemma list_u32 start sz D L : log_list start sz D L → (Z.of_nat D < 2 ^ 31)%Z →
  Forall (λ b, is_u32 (Z.of_nat b)) L.
Proof.
  intros [_ Hh _ _] HD. eapply Forall_impl; [exact Hh|]. intros b [? _]. plia.
Qed.

Lemma write_head_spec s l c start sz D L d :
  geom l start sz D → logged l L → log_list start sz D L → crep s c → D = length (c_disk c) →
  c_held c = ∅ → size (c_dirty c) < NBUF → c_view c !! start = Some d →
  wp write_head (λ _ t, ∃ s', t = LState s' l ∧ crep s' (c_put start (hdr_enc L d) c)) (LState s l).
Proof.
  intros Hg Hl HL Hr HD Hh Hroom Hd. pose proof Hg as [Hg1 Hg2 Hg3 Hg4 Hg5 Hg6].
  pose proof (view_ok _ _ _ _ Hr Hd) as [Hdok Hdlt]. pose proof (crep_wf _ _ Hr) as [Hvl _].
  assert (Hpart : ∀ n, n ≤ length L → blk_ok (foldl (λ d i, put32 (off_block i) (Z.of_nat (L !!! i)) d)
    (put32 0 (Z.of_nat (length L)) d) (seq 0 n))).
  { intros n Hn. apply hdr_enc_partial; [done|done|apply HL|by eapply list_u32]. }
  unfold write_head. wp_pure. apply wp_bind.
  eapply cache_bread; [exact Hr|done|by eapply geom_head|lia|by apply held_empty|..].
  { apply room_free. rewrite Hh, map_size_empty. lia. }
  intros h s1 Hf Hr1. apply wp_bind.
  eapply cache_bdata; [exact Hr1|apply lookup_insert_eq|exact Hd|].
  apply wp_bind. rewrite (lg_n _ _ Hl), Nat2Z.id.
  eapply cache_bstore; [exact Hr1|apply lookup_insert_eq|apply (Hpart 0); lia|].
  intros s2 Hr2. apply wp_bind.
  apply (wp_mfor_seq (λ i t, ∃ s', t = LState s' l ∧ crep s' (c_store start
    (foldl (λ d i, put32 (off_block i) (Z.of_nat (L !!! i)) d) (put32 0 (Z.of_nat (length L)) d) (seq 0 i))
    (c_acquire h start c)))).
  - exists s2. done.
  - intros i t Hi (s' & -> & Hr'). apply wp_bind.
    eapply cache_bdata; [exact Hr'|apply lookup_insert_eq|apply list_lookup_insert_eq; simpl; lia|].
    destruct (lookup_lt_is_Some_2 L i Hi) as [b Hb].
    rewrite (logged_lookup _ _ _ _ Hl Hb), <-(list_lookup_total_correct _ _ _ Hb).
    eapply cache_bstore; [exact Hr'|apply lookup_insert_eq|rewrite <-hdr_enc_S; apply Hpart; lia|].
    intros s'' Hr''. exists s''. split; [done|]. rewrite c_store_store, <-hdr_enc_S in Hr''. done.
  - intros t (s' & -> & Hr'). apply wp_bind.
    eapply cache_bwrite; [exact Hr'|apply lookup_insert_eq|apply list_lookup_insert_eq; simpl; lia|].
    intros s3 Hr3. eapply cache_brelse; [exact Hr3|apply lookup_insert_eq| |].
    { right. simpl. by rewrite !list_lookup_insert_eq by lia. }
    intros s4 Hr4. exists s4. split; [done|]. by rewrite <-(head_cancel c h).
Qed.

Lemma home_writes_take (L : list nat) (vals : list block) i :
  length L = length vals → i ≤ length L → (zip (take i L) (take i vals)).*1 = take i L.
Proof. intros. apply fst_zip. rewrite !length_take. lia. Qed.

Lemma install_trans_spec s l c start sz D L vals :
  geom l start sz D → logged l L → log_list start sz D L → crep s c → D = length (c_disk c) →
  c_held c = ∅ → size (c_dirty c) < NBUF →
  (∀ b, b ∈ L → b ∈ c_dirty c) ∨ size (c_dirty c) + 1 < NBUF →
  length vals = length L →
  (∀ i x, vals !! i = Some x → c_view c !! (start + 1 + i) = Some x ∧
     c_disk c !! (start + 1 + i) = Some x) →
  wp install_trans (λ _ t, ∃ s', t = LState s' l ∧ crep s' (puts (zip L vals) c)) (LState s l).
Proof.
  intros Hg Hl [Hnd Hhome Hsz Hmax] Hr HD Hh Hroom Hroom2 Hlen Hvals.
  unfold install_trans. wp_pure. rewrite (lg_n _ _ Hl), Nat2Z.id.
  apply (wp_mfor_seq (λ i t, ∃ s', t = LState s' l ∧
    crep s' (puts (zip (take i L) (take i vals)) c))).
  - by exists s.
  - intros i t Hi (s' & -> & Hr').
    destruct (lookup_lt_is_Some_2 L i Hi) as [b Hb].
    destruct (lookup_lt_is_Some_2 vals i) as [x Hx]; [lia|]. destruct (Hvals _ _ Hx) as [Hv Hdk].
    rewrite Forall_lookup in Hhome. destruct (Hhome _ _ Hb) as [HbD Hbh].
    pose proof (size_puts_dirty (zip (take i L) (take i vals)) c) as Hsd.
    assert (Hslot : start + 1 + i ∉ (zip (take i L) (take i vals)).*1).
    { rewrite home_writes_take by lia. intros (j & Hj)%list_elem_of_lookup.
      apply lookup_take_Some in Hj as [Hj _]. destruct (Hhome _ _ Hj) as [_ Hjh].
      unfold home in Hjh. lia. }
    eapply wp_mono; [eapply install_block_spec; [done|done|exact Hr'|..]|].
    + by rewrite puts_disk, replay_length.
    + by rewrite puts_held.
    + done.
    + done.
    + lia.
    + done.
    + right. rewrite puts_view, puts_disk, !replay_lookup_other by done. congruence.
    + lia.
    + destruct Hroom2 as [Hd|]; [left|right; lia]. rewrite puts_dirty.
      apply elem_of_difference. split; [apply Hd; by eapply list_elem_of_lookup_2|].
      rewrite elem_of_list_to_set, home_writes_take by lia.
      intros (j & Hj)%list_elem_of_lookup. apply lookup_take_Some in Hj as [Hj Hji].
      assert (i = j) by (by eapply NoDup_lookup). lia.
    + by rewrite puts_view, replay_lookup_other by done.
    + intros _ t (s'' & -> & Hr''). exists s''. split; [done|].
      by rewrite (zip_take_S _ _ _ _ _ Hb Hx), puts_app.
  - intros t (s' & -> & Hr'). exists s'. split; [done|].
    rewrite firstn_all, <-Hlen, firstn_all in Hr'. done.
Qed.

(** ** Commit *)

(** The state in which [end_op] calls [commit]: no buffer is held, the logged
    blocks are the pinned ones, every other block is on disk, and the header
    on disk is empty. *)
Record quiet (l : log) (c : cstate) (start sz : nat) (L : list nat) : Prop := {
  q_geom : geom l start sz (length (c_disk c));
  q_logged : logged l L;
  q_list : log_list start sz (length (c_disk c)) L;
  q_held : c_held c = ∅;
  q_dirty : c_dirty c = list_to_set L;
  q_buf : length L < NBUF;
  q_clean b : b ∉ L → c_view c !! b = c_disk c !! b;
  q_hdr : ∃ d, c_disk c !! start = Some d ∧ hdr_is d []
}.

Definition commit_writes (start : nat) (L : list nat) (vals : list block) (d0 : block) :
    list (nat * block) :=
  log_writes start vals ++ (start, hdr_enc L d0) :: zip L vals ++
  [(start, hdr_enc [] (hdr_enc L d0))].

Lemma geom_set_n l start sz D n : geom l start sz D → geom (set_n n l) start sz D.
Proof. intros []. by constructor. Qed.

Lemma logged_reset l L : logged l L → logged (set_n 0 l) [].
Proof. intros []. by constructor. Qed.

Lemma log_list_nil start sz D : 0 < sz → log_list start sz D [].
Proof. intros. constructor; [constructor|constructor|done|simpl; lia]. Qed.

Lemma start_not_home start sz : 0 < sz → ¬ home start sz start.
Proof. unfold home. lia. Qed.

Lemma start_notin_list start sz D L : log_list start sz D L → 0 < sz → start ∉ L.
Proof.
  intros [_ Hh _ _] Hs Hin. rewrite Forall_forall in Hh. destruct (Hh _ Hin) as [_ Hx].
  by apply start_not_home in Hx.
Qed.

Lemma contents_exist s c L start sz :
  crep s c → log_list start sz (length (c_disk c)) L → ∃ vals, contents (c_view c) L vals.
Proof.
  intros Hr [_ Hh _ _]. induction Hh as [|b L [Hb _] _ [vals IH]].
  - exists []. constructor.
  - destruct (view_some _ _ _ Hr Hb) as [d Hd]. exists (d :: vals). by constructor.
Qed.

Lemma log_slot_lookup (d : list block) start vals i x :
  vals !! i = Some x → start + 1 + i < length d →
  replay d (log_writes start vals) !! (start + 1 + i) = Some x.
Proof.
  intros Hx Hlt. apply replay_lookup; [| |done].
  - rewrite log_writes_fst. apply NoDup_seq.
  - unfold log_writes. apply list_elem_of_lookup. exists i. apply lookup_zip_with_Some.
    exists (start + 1 + i), x. split; [done|]. split; [|done].
    apply lookup_seq_lt. by apply lookup_lt_Some in Hx.
Qed.

Lemma commit_spec s l c start sz L vals d0 :
  quiet l c start sz L → crep s c → L ≠ [] → contents (c_view c) L vals →
  c_disk c !! start = Some d0 →
  wp commit (λ _ t, ∃ s', t = LState s' (set_n 0 l) ∧
    crep s' (puts (commit_writes start L vals d0) c)) (LState s l).
Proof.
  intros [Hg Hl HL Hh Hd Hbuf Hclean _] Hr HnL Hvals Hd0. set (D := length (c_disk c)) in *.
  pose proof (Forall2_length _ _ _ Hvals) as Hlen. pose proof (g_pos _ _ _ _ Hg) as Hpos.
  pose proof (g_fits _ _ _ _ Hg) as Hfit. pose proof (ll_size _ _ _ _ HL) as Hsz.
  pose proof (crep_wf _ _ Hr) as [Hvl _]. pose proof (start_notin_list _ _ _ _ HL Hpos) as HsL.
  assert (Hdsz : size (c_dirty c) < NBUF).
  { rewrite Hd, size_list_to_set; [done|apply HL]. }
  assert (Hslog : start ∉ (log_writes start vals).*1).
  { rewrite log_writes_fst, elem_of_seq. lia. }
  unfold commit. wp_pure. rewrite decide_True by (rewrite (lg_n _ _ Hl); destruct L; simpl; [done|lia]).
  wp_bind_with write_log_spec; try done; [by rewrite Hd; set_solver|].
  intros _ t (s1 & -> & Hr1).
  pose proof (size_puts_dirty (log_writes start vals) c) as Hsd1.
  wp_bind_with write_head_spec; [done|done|done|exact Hr1| |by rewrite puts_held|lia| |].
  { by rewrite puts_disk, replay_length. }
  { rewrite puts_view, replay_lookup_other by done. rewrite Hclean by done. exact Hd0. }
  intros _ t (s2 & -> & Hr2).
  change (c_put start (hdr_enc L d0) (puts (log_writes start vals) c))
    with (puts [(start, hdr_enc L d0)] (puts (log_writes start vals) c)) in Hr2.
  rewrite <-puts_app in Hr2. set (ws := log_writes start vals ++ [(start, hdr_enc L d0)]) in *.
  pose proof (size_puts_dirty ws c) as Hsd2.
  assert (Hslots : ∀ (v : list block) i x, length v = D → vals !! i = Some x →
    replay v ws !! (start + 1 + i) = Some x).
  { intros v i x Hv Hx. unfold ws. rewrite replay_app, replay_lookup_other by (simpl; set_solver by lia).
    apply log_slot_lookup; [done|]. apply lookup_lt_Some in Hx. lia. }
  wp_bind_with install_trans_spec; [done|done|done|exact Hr2| |by rewrite puts_held|lia| |done| |].
  { by rewrite puts_disk, replay_length. }
  { left. intros b Hb. rewrite puts_dirty, Hd. unfold ws. rewrite fmap_app, log_writes_fst. simpl.
    assert (home start sz b) as Hbh.
    { pose proof (ll_home _ _ _ _ HL) as Hhome. rewrite Forall_forall in Hhome. by apply Hhome. }
    apply elem_of_difference. split; [by apply elem_of_list_to_set|].
    rewrite elem_of_list_to_set, elem_of_app, elem_of_seq, list_elem_of_singleton.
    unfold home in Hbh. lia. }
  { intros i x Hx. rewrite puts_view, puts_disk. split; by apply Hslots. }
  intros _ t (s3 & -> & Hr3). rewrite <-puts_app in Hr3. wp_pure.
  eapply wp_mono; [eapply write_head_spec; [by apply geom_set_n|by eapply logged_reset|
    by apply (log_list_nil _ sz)|exact Hr3| | | |]|].
  { by rewrite puts_disk, replay_length. }
  { by rewrite puts_held. }
  { pose proof (size_puts_dirty (ws ++ zip L vals) c). lia. }
  { rewrite puts_view, replay_app, replay_lookup_other.
    - unfold ws. rewrite replay_app. apply list_lookup_insert_eq. rewrite replay_length. lia.
    - by rewrite fst_zip by lia. }
  intros _ t (s4 & -> & Hr4). exists s4. split; [done|].
  unfold commit_writes. rewrite cons_middle, !app_assoc, puts_app. exact Hr4.
Qed.

(** ** Recovery *)

(** What recovery finds on disk: the header lists [L] and the log blocks hold
    [vals]. *)
Record on_disk (d : list block) (start sz : nat) (L : list nat) (vals : list block) : Prop := {
  od_hdr : ∃ h, d !! start = Some h ∧ hdr_is h L;
  od_list : log_list start sz (length d) L;
  od_len : length vals = length L;
  od_vals i x : vals !! i = Some x → d !! (start + 1 + i) = Some x
}.

(** The state of a cache that has just been initialised over disk [d]. *)
Definition fresh (d : list block) : cstate := CState d [] d ∅ ∅.

Lemma fresh_room d : size (c_dirty (fresh d)) + 1 < NBUF.
Proof. unfold fresh. cbn [c_dirty]. rewrite size_empty. plia. Qed.

Definition recover_writes (start : nat) (L : list nat) (vals : list block) (h : block) :
    list (nat * block) :=
  zip L vals ++ [(start, hdr_enc [] h)].

Lemma recover_spec s l d start sz L vals h :
  geom l start sz (length d) → crep s (fresh d) → on_disk d start sz L vals →
  d !! start = Some h → length (lh_block (l_lh l)) = Z.to_nat LOGSIZE →
  wp recover_from_log (λ _ t, ∃ s' l', t = LState s' l' ∧
    crep s' (puts (recover_writes start L vals h) (fresh d)) ∧
    geom l' start sz (length d) ∧ logged l' [] ∧
    l_outstanding l' = l_outstanding l ∧ l_committing l' = l_committing l) (LState s l).
Proof.
  intros Hg Hr [Hh HL Hlen Hvals] Hs Hlb. pose proof (g_pos _ _ _ _ Hg) as Hpos.
  destruct Hh as (h' & Hs' & Hhdr). assert (h' = h) as -> by congruence.
  pose proof (start_notin_list _ _ _ _ HL Hpos) as HsL.
  pose proof (fresh_room d) as H1.
  unfold recover_from_log.
  wp_bind_with read_head_spec; [done|exact Hr|done|done|lia|exact Hs|by right|done|apply HL|done|].
  intros _ t (s1 & l1 & -> & Hr1 & Hg1 & Hl1 & Ho1 & Hc1).
  wp_bind_with install_trans_spec; [done|done|exact HL|exact Hr1|done|done|lia|by right|done| |].
  { intros i x Hx. simpl. split; by apply Hvals. }
  intros _ t (s2 & -> & Hr2). wp_pure.
  eapply wp_mono; [eapply write_head_spec; [by apply geom_set_n|by eapply logged_reset|
    by apply (log_list_nil _ sz)|exact Hr2| | | |]|].
  { by rewrite puts_disk, replay_length. }
  { by rewrite puts_held. }
  { pose proof (size_puts_dirty (zip L vals) (fresh d)). lia. }
  { rewrite puts_view, replay_lookup_other; [exact Hs|]. by rewrite fst_zip by lia. }
  intros _ t (s3 & -> & Hr3). exists s3, (set_n 0 l1).
  split_and!; [done| |by apply geom_set_n|by eapply logged_reset|done|done].
  unfold recover_writes. by rewrite puts_app.
Qed.

(** The disk says where the log is. *)
Definition sb_says (d : list block) (start sz : nat) : Prop :=
  ∃ b, d !! 1 = Some b ∧ get32 16 b = Z.of_nat start ∧ get32 12 b = Z.of_nat sz.

Lemma readsb_spec s l c b Q :
  crep s c → c_held c = ∅ → size (c_dirty c) < NBUF → c_view c !! 1 = Some b → c_clean 1 c →
  (∀ s', crep s' c → Q (sb_of_bytes b) (LState s' l)) →
  wp (cache (readsb ROOTDEV)) Q (LState s l).
Proof.
  intros Hr Hh Hsz Hb Hcl HQ. pose proof (view_ok _ _ _ _ Hr Hb) as [_ Hlt].
  apply wp_zoom. unfold readsb. simpl. apply wp_bind. change 1%Z with (Z.of_nat 1).
  eapply wp_mono; [eapply bread_law; [exact Hr|done|by apply held_empty|]|].
  { apply room_free. rewrite Hh, map_size_empty. lia. }
  simpl. intros h s1 [Hf Hr1]. apply wp_bind.
  eapply wp_mono; [eapply bdata_law; [exact Hr1|apply lookup_insert_eq]|].
  simpl. intros d s2 [-> Hd]. apply wp_bind.
  eapply wp_mono; [eapply brelse_law; [exact Hr1|apply lookup_insert_eq|exact Hcl]|].
  simpl. intros _ s3 Hr3. simplify_eq. apply wp_ret, HQ.
  assert (c_release h (c_acquire h 1 c) = c) as <-; [|done].
  destruct c; unfold c_release, c_acquire; simpl in *. f_equal.
  rewrite delete_insert_eq. by rewrite delete_id.
Qed.

Lemma initlog_spec s d start sz L vals h :
  sb_says d start sz → start + sz ≤ length d → 0 < sz → (Z.of_nat (length d) < 2 ^ 31)%Z →
  crep s (fresh d) → on_disk d start sz L vals → d !! start = Some h →
  wp (initlog ROOTDEV) (λ _ t, ∃ s' l', t = LState s' l' ∧
    crep s' (puts (recover_writes start L vals h) (fresh d)) ∧
    geom l' start sz (length d) ∧ logged l' [] ∧
    l_outstanding l' = 0%Z ∧ l_committing l' = 0%Z) (LState s zero_log).
Proof.
  intros (b & Hb & Hst & Hsz) Hfit Hpos H32 Hr Hod Hs.
  pose proof (fresh_room d) as H1.
  unfold initlog. apply wp_bind, wp_assert; [done|]. apply wp_bind.
  eapply readsb_spec; [exact Hr|done|lia|exact Hb|by right|].
  intros s1 Hr1. wp_pure. rewrite Hst, Hsz, !s32_small by lia.
  eapply wp_mono; [eapply (recover_spec _ _ _ start sz)|]; [by constructor|done|done|done|done|].
  naive_solver.
Qed.

(** ** Crash safety

    A disk is recoverable to [v] when what it holds in its log, installed,
    gives [v] outside the log area. *)
Record layout (d : list block) (start sz : nat) : Prop := {
  ly_sb : sb_says d start sz;
  ly_fits : start + sz ≤ length d;
  ly_pos : 0 < sz;
  ly_32 : (Z.of_nat (length d) < 2 ^ 31)%Z;
  ly_home : home start sz 1;
  ly_blk : Forall blk_ok d
}.

Definition recoverable (d : list block) (start sz : nat) (v : list block) : Prop :=
  layout d start sz ∧ ∃ L vals, on_disk d start sz L vals ∧ (1 ∉ L) ∧
  ∀ b, home start sz b → replay d (zip L vals) !! b = v !! b.

Lemma replay_ok d ws : Forall blk_ok d → Forall blk_ok (ws.*2) → Forall blk_ok (replay d ws).
Proof.
  revert d. induction ws as [|[b x] ws IH]; intros d Hd Hw; [done|].
  apply Forall_cons in Hw as [Hx Hw]. apply IH; [|done]. by apply Forall_insert.
Qed.

Lemma layout_replay d start sz ws :
  layout d start sz → 1 ∉ ws.*1 → Forall blk_ok (ws.*2) → layout (replay d ws) start sz.
Proof.
  intros [(b & Hb & ?) ? ? ? ? ?] Hone Hw. constructor; rewrite ?replay_length; [|done..|].
  - exists b. by rewrite replay_lookup_other.
  - by apply replay_ok.
Qed.

Lemma on_disk_nil d start sz h :
  0 < sz → d !! start = Some h → hdr_is h [] → on_disk d start sz [] [].
Proof. intros. constructor; [eauto|by apply log_list_nil|done|done]. Qed.

(** Writes that leave the header and the log blocks alone keep what the log
    holds. *)
Lemma on_disk_replay d start sz L vals ws :
  on_disk d start sz L vals → Forall (home start sz) (ws.*1) →
  on_disk (replay d ws) start sz L vals.
Proof.
  intros [(h & Hh & Hi) HL Hlen Hv] Hw. pose proof (ll_size _ _ _ _ HL).
  assert (Hout : ∀ b, start ≤ b < start + sz → b ∉ ws.*1).
  { intros b Hb Hin. rewrite Forall_forall in Hw. apply Hw in Hin. unfold home in Hin. lia. }
  constructor; [|by rewrite replay_length|done|].
  - exists h. rewrite replay_lookup_other; [done|]. apply Hout. lia.
  - intros i x Hx. pose proof (lookup_lt_Some _ _ _ Hx).
    rewrite replay_lookup_other; [by apply Hv|]. apply Hout. lia.
Qed.

Lemma list_home start sz D L : log_list start sz D L → Forall (home start sz) L.
Proof. intros [_ Hh _ _]. eapply Forall_impl; [exact Hh|]. naive_solver. Qed.

Lemma on_disk_vals_ok d start sz L vals :
  Forall blk_ok d → on_disk d start sz L vals → Forall blk_ok vals.
Proof.
  intros Hd [_ _ _ Hv]. apply Forall_lookup. intros i x Hx. apply Hv in Hx.
  by eapply Forall_lookup_1.
Qed.

Lemma blk_ok_at (d : list block) b x : Forall blk_ok d → d !! b = Some x → blk_ok x.
Proof. intros. by eapply Forall_lookup_1. Qed.

Lemma hdr_empty h : blk_ok h → blk_ok (hdr_enc [] h) ∧ hdr_is (hdr_enc [] h) [].
Proof. intros. apply hdr_enc_ok; [done|simpl; lia|done]. Qed.

(** After all home writes and the clearing of the header, the log is empty and
    the home blocks are those of the view. *)
Lemma recoverable_done d start sz L vals h v :
  layout d start sz → on_disk d start sz L vals → 1 ∉ L → d !! start = Some h →
  (∀ b, home start sz b → replay d (zip L vals) !! b = v !! b) →
  recoverable (replay d (recover_writes start L vals h)) start sz v.
Proof.
  intros Hly Hod Hone Hh Hv. pose proof (ly_pos _ _ _ Hly) as Hpos.
  pose proof Hod as [_ HL Hlen _]. pose proof (ly_blk _ _ _ Hly) as Hblk.
  assert (Hfst : (zip L vals).*1 = L) by (apply fst_zip; lia).
  assert (Hsnd : (zip L vals).*2 = vals) by (apply snd_zip; lia).
  destruct (hdr_empty h) as [Hhok Hhi]; [by eapply blk_ok_at|].
  assert (Hs1 : 1 ≠ start) by (intros <-; by apply (start_not_home 1 sz), (ly_home _ _ _ Hly)).
  split.
  - apply layout_replay; [done|..]; unfold recover_writes; rewrite fmap_app.
    + rewrite Hfst. simpl. set_solver.
    + rewrite Hsnd. apply Forall_app. split; [by eapply on_disk_vals_ok|by apply Forall_singleton].
  - exists [], []. split_and!; [|set_solver|].
    + eapply on_disk_nil; [done| |exact Hhi]. unfold recover_writes. rewrite replay_app.
      simpl. apply list_lookup_insert_eq. rewrite replay_length. by apply lookup_lt_Some in Hh.
    + intros b Hb. rewrite <-Hv by done. unfold recover_writes. rewrite replay_app. simpl.
      apply list_lookup_insert_ne. intros <-. by apply (start_not_home start sz).
Qed.

Lemma take_zip (L : list nat) (vals : list block) k :
  take k (zip L vals) = zip (take k L) (take k vals).
Proof. revert L vals. induction k; intros [|??] [|??]; simpl; congruence. Qed.

Lemma recoverable_prefix d start sz L vals v k :
  layout d start sz → on_disk d start sz L vals → 1 ∉ L →
  (∀ b, home start sz b → replay d (zip L vals) !! b = v !! b) →
  recoverable (replay d (take k (zip L vals))) start sz v.
Proof.
  intros Hly Hod Hone Hv. pose proof Hod as [_ HL Hlen _].
  assert (Hfst : (take k (zip L vals)).*1 = take k L).
  { rewrite fmap_take, fst_zip; [done|lia]. }
  split.
  - apply layout_replay; [done| |].
    + rewrite Hfst. intros Hin. apply Hone. by eapply elem_of_take in Hin as (? & ? & _); eapply list_elem_of_lookup_2.
    + rewrite fmap_take, snd_zip by lia. apply Forall_take.
      by eapply on_disk_vals_ok, Hod; apply Hly.
  - exists L, vals. split_and!; [|done|].
    + apply on_disk_replay; [done|]. rewrite Hfst. apply Forall_take. by eapply list_home.
    + intros b Hb. rewrite <-Hv by done. apply replay_absorb'; [rewrite fst_zip by lia; apply HL|].
      intros p Hp. by eapply elem_of_take in Hp as (? & ? & _); eapply list_elem_of_lookup_2.
Qed.

(** A crash in the middle of recovery leaves a disk that recovers to the same
    contents. *)
Lemma recoverable_crash d start sz L vals h v k :
  layout d start sz → on_disk d start sz L vals → 1 ∉ L → d !! start = Some h →
  (∀ b, home start sz b → replay d (zip L vals) !! b = v !! b) →
  recoverable (replay d (take k (recover_writes start L vals h))) start sz v.
Proof.
  intros Hly Hod Hone Hh Hv. destruct (decide (k ≤ length (zip L vals))).
  - unfold recover_writes. rewrite take_app_le by done. by eapply recoverable_prefix.
  - rewrite take_ge; [by eapply recoverable_done|].
    unfold recover_writes. rewrite length_app. simpl. lia.
Qed.

Lemma layout_geom l d start sz : geom l start sz (length d) → sb_says d start sz →
  home start sz 1 → Forall blk_ok d → layout d start sz.
Proof. intros []. by constructor. Qed.

Lemma contents_replay v d L vals b x :
  NoDup L → contents v L vals → length d = length v → b ∈ L → v !! b = Some x →
  replay d (zip L vals) !! b = Some x.
Proof.
  intros Hnd Hc Hlen Hin Hb. pose proof (Forall2_length _ _ _ Hc).
  apply list_elem_of_lookup in Hin as [i Hi].
  destruct (lookup_lt_is_Some_2 vals i) as [y Hy].
  { apply lookup_lt_Some in Hi. lia. }
  assert (v !! b = Some y) by (by eapply (Forall2_lookup_lr _ _ _ _ _ _ Hc)). simplify_eq.
  apply replay_lookup; [by rewrite fst_zip by lia| |rewrite Hlen; by eapply lookup_lt_Some].
  apply list_elem_of_lookup. exists i. apply lookup_zip_with_Some. naive_solver.
Qed.

(** The log area after the commit point holds the transaction. *)
Lemma commit_point s l c start sz L vals d0 :
  quiet l c start sz L → crep s c → contents (c_view c) L vals → c_disk c !! start = Some d0 →
  on_disk (replay (c_disk c) (log_writes start vals ++ [(start, hdr_enc L d0)])) start sz L vals.
Proof.
  intros [Hg Hl HL Hh Hdirty Hbuf Hclean _] Hr Hc Hd0. pose proof (Forall2_length _ _ _ Hc).
  pose proof (crep_wf _ _ Hr) as (_ & _ & Hblk). pose proof Hg as [_ _ _ Hfit Hpos H32].
  destruct (hdr_enc_ok L d0) as [_ Hhi]; [by eapply blk_ok_at|apply HL|by eapply list_u32|].
  rewrite replay_app. simpl. constructor.
  - exists (hdr_enc L d0). split; [|done]. apply list_lookup_insert_eq. rewrite replay_length. lia.
  - by rewrite length_insert, replay_length.
  - done.
  - intros i x Hx. rewrite list_lookup_insert_ne by lia. apply log_slot_lookup; [done|].
    pose proof (ll_size _ _ _ _ HL). apply lookup_lt_Some in Hx. lia.
Qed.

Lemma committed_view s l c start sz L vals d0 b :
  quiet l c start sz L → crep s c → contents (c_view c) L vals → home start sz b →
  replay (replay (c_disk c) (log_writes start vals ++ [(start, hdr_enc L d0)])) (zip L vals) !! b =
  c_view c !! b.
Proof.
  intros Hq Hr Hc Hb. pose proof (Forall2_length _ _ _ Hc).
  pose proof (q_list _ _ _ _ _ Hq) as HL. pose proof (ll_size _ _ _ _ HL).
  destruct (decide (b ∈ L)) as [Hin|Hni].
  - destruct (view_some _ _ b Hr) as [x Hx].
    { apply (proj1 (Forall_forall _ _) (ll_home _ _ _ _ HL) _ Hin). }
    rewrite Hx. eapply contents_replay; [apply HL|done| |done|done].
    rewrite replay_length. symmetry. by apply crep_wf with s.
  - rewrite !replay_lookup_other; [by rewrite (q_clean _ _ _ _ _ Hq)| |by rewrite fst_zip by lia].
    rewrite fmap_app. simpl. apply not_elem_of_app. split; [eapply home_not_logged; [done|lia]|].
    intros ->%list_elem_of_singleton. eapply start_not_home, Hb. apply (q_geom _ _ _ _ _ Hq).
Qed.

Lemma take_log_writes start vals k :
  take k (log_writes start vals) = log_writes start (take k vals).
Proof.
  unfold log_writes. rewrite take_zip, length_take. f_equal. apply take_seq.
Qed.

(** The disk at every crash point of a commit: before the header write it
    recovers to the old contents, from there on to the committed ones. *)
Lemma commit_crash s l c start sz L vals d0 k :
  quiet l c start sz L → crep s c → contents (c_view c) L vals → c_disk c !! start = Some d0 →
  sb_says (c_disk c) start sz → home start sz 1 → 1 ∉ L →
  recoverable (replay (c_disk c) (take k (commit_writes start L vals d0))) start sz
    (if decide (k ≤ length L) then c_disk c else c_view c).
Proof.
  intros Hq Hr Hc Hd0 Hsb Hhome Hone. pose proof (Forall2_length _ _ _ Hc) as Hlen.
  pose proof (q_geom _ _ _ _ _ Hq) as Hg. pose proof (q_list _ _ _ _ _ Hq) as HL.
  pose proof (ll_size _ _ _ _ HL). pose proof (crep_wf _ _ Hr) as (Hvl & Hvok & Hdok).
  assert (Hly : layout (c_disk c) start sz) by (by eapply layout_geom).
  assert (Hvals : Forall blk_ok vals).
  { eapply Forall2_Forall_r; [exact Hc|]. apply Forall_true. intros b x Hx. exact (blk_ok_at _ _ _ Hvok Hx). }
  unfold commit_writes.
  assert (HA : length (log_writes start vals) = length L).
  { unfold log_writes. rewrite length_zip, length_seq. lia. }
  case_decide as Hk.
  - rewrite take_app_le, take_log_writes by lia.
    pose proof (q_hdr _ _ _ _ _ Hq) as (d1 & Hd1 & Hhdr).
    assert (Hni : ∀ b, home start sz b → b ∉ (log_writes start (take k vals)).*1).
    { intros b Hb. eapply home_not_logged; [done|]. rewrite length_take. lia. }
    split; [apply layout_replay; [done|by apply Hni|]|].
    { unfold log_writes. rewrite snd_zip by (rewrite length_seq; lia). by apply Forall_take. }
    exists [], []. split_and!; [|set_solver|intros b Hb; simpl; by rewrite replay_lookup_other by auto].
    eapply on_disk_nil; [apply Hg| |exact Hhdr]. rewrite replay_lookup_other; [done|].
    rewrite log_writes_fst, elem_of_seq. lia.
  - rewrite take_app_ge, HA by lia. replace (k - length L) with (S (k - length L - 1)) by lia.
    cbn [take]. rewrite cons_middle, app_assoc, replay_app. fold (recover_writes start L vals (hdr_enc L d0)).
    eapply recoverable_crash; [|by eapply commit_point|done| |intros; by eapply committed_view].
    + apply layout_replay; [done|..]; rewrite fmap_app; simpl.
      * apply not_elem_of_app. split; [eapply home_not_logged; [done|lia]|].
        intros <-%list_elem_of_singleton. by eapply start_not_home, Hhome; apply Hg.
      * apply Forall_app. split; [unfold log_writes; by rewrite snd_zip by (rewrite length_seq; lia)|].
        apply Forall_singleton. apply hdr_enc_ok; [exact (blk_ok_at _ _ _ Hdok Hd0)|apply HL|].
        eapply list_u32; [exact HL|apply Hg].
    + rewrite replay_app. simpl. apply list_lookup_insert_eq. rewrite replay_length.
      by apply lookup_lt_Some in Hd0.
Qed.

(** Recovery of a recoverable disk: it returns, leaves the log empty, the home
    blocks are the promised ones, and a crash at any of its own writes leaves
    a disk that recovers to the same contents. *)
Lemma initlog_recovers s d start sz v :
  recoverable d start sz v → crep s (fresh d) →
  wp (initlog ROOTDEV) (λ _ t, ∃ s' l' ws, t = LState s' l' ∧ crep s' (puts ws (fresh d)) ∧
    quiet l' (puts ws (fresh d)) start sz [] ∧ l_outstanding l' = 0%Z ∧ l_committing l' = 0%Z ∧
    (∀ b, home start sz b → replay d ws !! b = v !! b) ∧
    ∀ k, recoverable (replay d (take k ws)) start sz v) (LState s zero_log).
Proof.
  intros (Hly & L & vals & Hod & Hone & Hv) Hr. pose proof Hly as [Hsb Hfit Hpos H32 Hhome Hblk].
  pose proof (od_hdr _ _ _ _ _ Hod) as (h & Hh & _). pose proof (od_list _ _ _ _ _ Hod) as HL.
  pose proof (od_len _ _ _ _ _ Hod) as Hlen.
  eapply wp_mono; [by eapply initlog_spec|]. intros _ t (s' & l' & -> & Hr' & Hg & Hl & Ho & Hc).
  exists s', l', (recover_writes start L vals h).
  split_and!; [done|done| |done|done| |intros; by eapply recoverable_crash].
  - constructor; rewrite ?puts_disk, ?replay_length; simpl; [done|done|by apply log_list_nil| | | | |].
    + by rewrite puts_held.
    + rewrite puts_dirty. simpl. set_solver.
    + plia.
    + intros b _. by rewrite puts_view.
    + exists (hdr_enc [] h). split; [|by eapply hdr_empty, blk_ok_at].
      unfold recover_writes. rewrite replay_app. simpl. apply list_lookup_insert_eq.
      rewrite replay_length. lia.
  - intros b Hb. rewrite <-Hv by done. unfold recover_writes. rewrite replay_app. simpl.
    apply list_lookup_insert_ne. intros <-. by apply (start_not_home start sz).
Qed.

(** ** Inside a transaction *)

(** The invariant between [begin_op] and [end_op]: like [quiet], with buffers
    held and possibly changed; a changed block that is not held is logged. *)
Record txn (l : log) (c : cstate) (start sz : nat) (L : list nat) : Prop := {
  t_geom : geom l start sz (length (c_disk c));
  t_logged : logged l L;
  t_list : log_list start sz (length (c_disk c)) L;
  t_dirty : c_dirty c = list_to_set L;
  t_buf : length L < NBUF;
  t_clean b : b ∉ L → (∀ h, c_held c !! h ≠ Some b) → c_view c !! b = c_disk c !! b;
  t_hdr : ∃ d, c_disk c !! start = Some d ∧ hdr_is d []
}.

Lemma txn_quiet l c start sz L : txn l c start sz L → c_held c = ∅ → quiet l c start sz L.
Proof.
  intros [] Hh. constructor; [done..| |done]. intros b Hb.
  apply t_clean0; [done|]. by apply held_empty.
Qed.

Lemma quiet_txn l c start sz L : quiet l c start sz L → txn l c start sz L.
Proof. intros []. constructor; auto. Qed.

(** The slot [log_write] uses is the position of the block in the list, or the
    first free one. *)
Lemma log_slot_spec bs L b i :
  (∀ j x, L !! j = Some x → bs !! j = Some (Z.of_nat x)) → length L ≤ length bs →
  match list_find (b =.) L with
  | Some (j, _) => log_slot (Z.of_nat b) bs (length L) i = i + j
  | None => log_slot (Z.of_nat b) bs (length L) i = i + length L
  end.
Proof.
  revert bs i. induction L as [|x L IH]; intros bs i Hbs Hlen; [destruct bs; simpl; lia|simpl].
  destruct bs as [|y bs]; simpl in Hlen; [lia|].
  pose proof (Hbs 0 x eq_refl) as Hy. simpl in Hy. simplify_eq. simpl.
  destruct (decide (b = x)) as [->|Hne]; [rewrite decide_True by done; lia|].
  rewrite decide_False by lia.
  specialize (IH bs (S i) (λ j z Hj, Hbs (S j) z Hj) ltac:(lia)).
  destruct (list_find (b =.) L) as [[j y]|]; simpl; lia.
Qed.

(** The list after logging [b]: blocks are logged once. *)
Definition absorb (b : nat) (L : list nat) : list nat := if decide (b ∈ L) then L else L ++ [b].

Lemma logged_absorb l L b :
  logged l L → length L < Z.to_nat LOGSIZE →
  let i := log_slot (Z.of_nat b) (lh_block (l_lh l)) (Z.to_nat (lh_n (l_lh l))) 0 in
  logged (if decide (Z.of_nat i = lh_n (l_lh l))
          then set_n (lh_n (l_lh l) + 1) (set_block i (Z.of_nat b) l)
          else set_block i (Z.of_nat b) l) (absorb b L).
Proof.
  intros [Hn Hlen Hb] HL. cbv zeta. rewrite Hn, Nat2Z.id. unfold absorb.
  pose proof (log_slot_spec (lh_block (l_lh l)) L b 0 Hb ltac:(lia)) as Hs.
  destruct (list_find (b =.) L) as [[j y]|] eqn:Hf.
  - apply list_find_Some in Hf as (Hj & <- & _). pose proof (lookup_lt_Some _ _ _ Hj).
    rewrite Hs, decide_False by lia. rewrite decide_True by (by eapply list_elem_of_lookup_2).
    constructor; [done|simpl; by rewrite length_insert|]. intros k x Hk. simpl.
    destruct (decide (k = j)) as [->|]; [|rewrite list_lookup_insert_ne by done; by apply Hb].
    rewrite list_lookup_insert_eq by lia. congruence.
  - apply list_find_None in Hf. rewrite Hs, decide_True by done.
    rewrite decide_False by (intros Hin; by eapply Forall_forall in Hf).
    constructor; [simpl; rewrite length_app; simpl; lia|simpl; by rewrite length_insert|].
    intros k x [Hk|[Hk Hx]]%lookup_app_Some; simpl.
    + pose proof (lookup_lt_Some _ _ _ Hk). rewrite list_lookup_insert_ne by lia. by apply Hb.
    + apply list_lookup_singleton_Some in Hx as [Hk0 <-].
      replace k with (length L) by lia. apply list_lookup_insert_eq. lia.
Qed.

Lemma length_absorb b L : length (absorb b L) ≤ S (length L).
Proof. unfold absorb. case_decide; [lia|]. rewrite length_app. simpl. lia. Qed.

Lemma elem_of_absorb x b L : x ∈ absorb b L ↔ x = b ∨ x ∈ L.
Proof. unfold absorb. case_decide; set_solver. Qed.

Lemma log_list_absorb start sz D b L :
  log_list start sz D L → b < D → home start sz b →
  length L < Z.to_nat LOGSIZE → length L < sz - 1 → log_list start sz D (absorb b L).
Proof.
  intros [Hnd Hh Hs Hm] Hb Hhome Hlt Hlt'. pose proof (length_absorb b L).
  constructor; [| |lia|lia]; unfold absorb; case_decide; [done| |done|].
  - apply NoDup_app. split_and!; [done|set_solver|apply NoDup_singleton].
  - apply Forall_app. split; [done|by apply Forall_singleton].
Qed.

Lemma txn_absorb l l' c start sz L b :
  txn l c start sz L → geom l' start sz (length (c_disk c)) → logged l' (absorb b L) →
  b < length (c_disk c) → home start sz b → length L < Z.to_nat LOGSIZE → length L < sz - 1 →
  sz ≤ NBUF → txn l' (c_pin b c) start sz (absorb b L).
Proof.
  intros [_ _ HL Hdirty Hbuf Hclean Hhdr] Hg Hl Hb Hhome Hlt Hlt' HN.
  pose proof (length_absorb b L).
  constructor; simpl; [done|done|by apply log_list_absorb| |lia| |done].
  - rewrite Hdirty. apply set_eq. intros x.
    rewrite elem_of_union, elem_of_singleton, !elem_of_list_to_set, elem_of_absorb. done.
  - intros x Hx. rewrite elem_of_absorb in Hx. apply Hclean. naive_solver.
Qed.

Lemma geom_set_block l start sz D i b : geom l start sz D → geom (set_block i b l) start sz D.
Proof. intros []. by constructor. Qed.

(** [log_write] pins the block and logs it, once per transaction. *)
Lemma log_write_spec s l c start sz L h b :
  txn l c start sz L → crep s c → c_held c !! h = Some b → b < length (c_disk c) →
  home start sz b → length L < Z.to_nat LOGSIZE → length L < sz - 1 → sz ≤ NBUF →
  (1 ≤ l_outstanding l)%Z →
  wp (log_write h) (λ _ t, ∃ s' l', t = LState s' l' ∧ crep s' (c_pin b c) ∧
    txn l' (c_pin b c) start sz (absorb b L) ∧
    l_outstanding l' = l_outstanding l ∧ l_committing l' = l_committing l) (LState s l).
Proof.
  intros Ht Hr Hh Hb Hhome Hlt Hlt' HN Ho. pose proof Ht as [Hg Hl _ _ _ _ _].
  pose proof (lg_n _ _ Hl) as Hn. pose proof (g_size _ _ _ _ Hg) as Hsz.
  unfold log_write. wp_pure. apply wp_bind, wp_assert.
  { rewrite Hn, Hsz. plia. }
  apply wp_bind, wp_assert; [lia|]. apply wp_bind, wp_zoom. simpl.
  eapply wp_mono; [by eapply bblockno_law|]. simpl. intros bn s0 [-> ->].
  wp_pure. apply wp_bind. pose proof (logged_absorb l L b Hl Hlt) as Hl'. cbv zeta in Hl'.
  set (i := log_slot _ _ _ _) in *.
  assert (Hfin : ∀ l', geom l' start sz (length (c_disk c)) → logged l' (absorb b L) →
    l_outstanding l' = l_outstanding l → l_committing l' = l_committing l →
    wp (cache (bpin h)) (λ _ t, ∃ s' l', t = LState s' l' ∧ crep s' (c_pin b c) ∧
      txn l' (c_pin b c) start sz (absorb b L) ∧
      l_outstanding l' = l_outstanding l ∧ l_committing l' = l_committing l) (LState s l')).
  { intros l' Hg' Hlg' Ho' Hc'. apply wp_zoom. simpl. eapply wp_mono; [by eapply bpin_law|].
    simpl. intros _ s' Hr'. exists s', l'. split_and!; [done|done|by eapply txn_absorb|done|done]. }
  case_decide.
  - apply wp_modify. simpl. apply Hfin; [by apply geom_set_n, geom_set_block|done..].
  - apply wp_ret. simpl. apply Hfin; [by apply geom_set_block|done..].
Qed.

(** The size check comes before the absorption check: at the limit even a
    block that is already logged is refused. *)
Lemma log_write_full s l h :
  (LOGSIZE ≤ lh_n (l_lh l) ∨ l_size l - 1 ≤ lh_n (l_lh l))%Z →
  log_write h (LState s l) = Panic "too big a transaction".
Proof.
  intros Hf. unfold log_write, mbind, M_bind, getlog, assert_or_panic. simpl.
  destruct (negb _) eqn:E; [|done]. apply negb_true_iff, orb_false_iff in E as [E1 E2].
  exfalso. revert Hf E1 E2. rewrite !Z.geb_leb, !Z.leb_gt. lia.
Qed.

(** ** The transaction calls *)

Lemma commit_dirty l c start sz L vals d0 :
  quiet l c start sz L → length vals = length L →
  c_dirty (puts (commit_writes start L vals d0) c) = ∅.
Proof.
  intros Hq Hlen. rewrite puts_dirty, (q_dirty _ _ _ _ _ Hq). unfold commit_writes.
  rewrite fmap_app, fmap_cons, fmap_app, fst_zip by lia. set_solver.
Qed.

Lemma commit_final (d : list block) start L vals d0 :
  replay d (commit_writes start L vals d0) =
  <[start := hdr_enc [] (hdr_enc L d0)]>
    (replay (replay d (log_writes start vals ++ [(start, hdr_enc L d0)])) (zip L vals)).
Proof.
  unfold commit_writes. rewrite cons_middle, app_assoc, (replay_app _ (_ ++ _)).
  by rewrite (replay_app _ (zip L vals)).
Qed.

(** Two disks that differ only where they are overwritten become equal. *)
Lemma replay_agree (v d : list block) ws :
  length v = length d → (∀ b, b ∉ ws.*1 → v !! b = d !! b) → replay v ws = replay d ws.
Proof.
  revert v d. induction ws as [|[b x] ws IH]; intros v d Hlen Hag; simpl.
  - apply list_eq. intros i. apply Hag. set_solver.
  - apply IH; [by rewrite !length_insert|]. intros b' Hb'.
    destruct (decide (b = b')) as [->|].
    + destruct (decide (b' < length v)); [by rewrite !list_lookup_insert_eq by lia|].
      rewrite !lookup_ge_None_2; [done|..]; rewrite length_insert; lia.
    + rewrite !list_lookup_insert_ne by done. apply Hag. set_solver.
Qed.

Lemma commit_agree s l c start sz L vals d0 :
  quiet l c start sz L → crep s c → length vals = length L →
  replay (c_view c) (commit_writes start L vals d0) =
  replay (c_disk c) (commit_writes start L vals d0).
Proof.
  intros Hq Hr Hlen. apply replay_agree; [by apply crep_wf with s|]. intros b Hb.
  apply (q_clean _ _ _ _ _ Hq). intros Hin. apply Hb. unfold commit_writes.
  rewrite fmap_app, fmap_cons, fmap_app, fst_zip by lia. set_solver.
Qed.

(** Every home block on disk after a commit. *)
Lemma commit_home s l c start sz L vals d0 b :
  quiet l c start sz L → crep s c → contents (c_view c) L vals → home start sz b →
  replay (c_disk c) (commit_writes start L vals d0) !! b = c_view c !! b.
Proof.
  intros Hq Hr Hc Hb. rewrite commit_final.
  assert (start ≠ b).
  { intros <-. eapply start_not_home, Hb. apply (q_geom _ _ _ _ _ Hq). }
  rewrite list_lookup_insert_ne by done. by eapply committed_view.
Qed.

Lemma commit_quiet s l c start sz L vals d0 :
  quiet l c start sz L → crep s c → contents (c_view c) L vals → c_disk c !! start = Some d0 →
  quiet (set_n 0 l) (puts (commit_writes start L vals d0) c) start sz [].
Proof.
  intros Hq Hr Hc Hd0. pose proof (Forall2_length _ _ _ Hc) as Hlen.
  pose proof (crep_wf _ _ Hr) as (_ & _ & Hblk). pose proof (q_geom _ _ _ _ _ Hq) as Hg.
  pose proof (q_list _ _ _ _ _ Hq) as HL.
  constructor; rewrite ?puts_disk, ?replay_length.
  - by apply geom_set_n.
  - eapply logged_reset, Hq.
  - apply log_list_nil, Hg.
  - rewrite puts_held. apply Hq.
  - by erewrite commit_dirty.
  - simpl. plia.
  - intros b _. rewrite puts_view. by erewrite commit_agree.
  - rewrite commit_final. exists (hdr_enc [] (hdr_enc L d0)). split.
    + apply list_lookup_insert_eq. rewrite !replay_length. by apply lookup_lt_Some in Hd0.
    + apply hdr_empty, hdr_enc_ok; [exact (blk_ok_at _ _ _ Hblk Hd0)|apply HL|].
      eapply list_u32; [exact HL|apply Hg].
Qed.

(** What a commit must achieve, whatever the number of logged blocks: there is
    a commit point [p], the contents after a crash are the old ones before it
    and the new ones from it on. *)
Definition commits (start sz : nat) (c : cstate) (ws : list (nat * block)) : Prop :=
  (∀ b, home start sz b → replay (c_disk c) ws !! b = c_view c !! b) ∧
  ∃ p, p ≤ length ws ∧
    ∀ k, recoverable (replay (c_disk c) (take k ws)) start sz
           (if decide (k < p) then c_disk c else c_view c).

Lemma commit_commits s l c start sz L :
  quiet l c start sz L → crep s c → sb_says (c_disk c) start sz → home start sz 1 → 1 ∉ L →
  wp commit (λ _ t, ∃ s' l' ws, t = LState s' l' ∧ crep s' (puts ws c) ∧
    quiet l' (puts ws c) start sz [] ∧ commits start sz c ws ∧
    l_outstanding l' = l_outstanding l ∧ l_committing l' = l_committing l) (LState s l).
Proof.
  intros Hq Hr Hsb Hhome Hone. destruct (q_hdr _ _ _ _ _ Hq) as (d0 & Hd0 & _).
  destruct (contents_exist _ _ _ _ _ Hr (q_list _ _ _ _ _ Hq)) as [vals Hc].
  destruct (decide (L = [])) as [->|Hne].
  - unfold commit. wp_pure. rewrite (lg_n _ _ (q_logged _ _ _ _ _ Hq)).
    rewrite decide_False by (simpl; lia). apply wp_ret. exists s, l, [].
    split_and!; [done|done|done| |done|done].
    assert (Hv : c_view c = c_disk c).
    { apply list_eq. intros b. apply (q_clean _ _ _ _ _ Hq). set_solver. }
    split; [intros b _; by rewrite Hv|]. exists 0. split; [done|]. intros k.
    pose proof (commit_crash _ _ _ _ _ _ vals d0 0 Hq Hr Hc Hd0 Hsb Hhome Hone) as Hk.
    rewrite take_0 in Hk. by rewrite take_nil, decide_False, Hv by lia.
  - eapply wp_mono; [by eapply commit_spec|]. intros _ t (s' & -> & Hr').
    exists s', (set_n 0 l), (commit_writes start L vals d0).
    split_and!; [done|done|by eapply commit_quiet| |done|done].
    split; [intros; by eapply commit_home|]. exists (S (length L)). split.
    { unfold commit_writes, log_writes. rewrite length_app, length_zip, length_seq. simpl.
      pose proof (Forall2_length _ _ _ Hc). lia. }
    intros k. pose proof (commit_crash _ _ _ _ _ _ vals d0 k Hq Hr Hc Hd0 Hsb Hhome Hone) as Hk.
    repeat case_decide; [done|lia|lia|done].
Qed.

Lemma quiet_counters l c start sz L n m :
  quiet l c start sz L → quiet (set_committing m (set_outstanding n l)) c start sz L.
Proof. intros [[] [] ? ? ? ? ? ?]. constructor; [by constructor|by constructor|done..]. Qed.

(** The last [end_op] of a group commits, and the commit is crash safe. *)
Lemma end_op_last s l c start sz L :
  quiet l c start sz L → crep s c → sb_says (c_disk c) start sz → home start sz 1 → 1 ∉ L →
  l_outstanding l = 1%Z → l_committing l = 0%Z →
  wp end_op (λ _ t, ∃ s' l' ws, t = LState s' l' ∧ crep s' (puts ws c) ∧
    quiet l' (puts ws c) start sz [] ∧ commits start sz c ws ∧
    l_outstanding l' = 0%Z ∧ l_committing l' = 0%Z) (LState s l).
Proof.
  intros Hq Hr Hsb Hhome Hone Ho Hcm. unfold end_op. do 3 wp_pure. apply wp_bind, wp_assert; [simpl; lia|].
  rewrite Ho. simpl. wp_pure.
  wp_bind_with commit_commits; [|exact Hr|done|done|done|].
  { apply (quiet_counters _ _ _ _ _ 0 1 Hq). }
  intros _ t (s' & l' & ws & -> & Hr' & Hq' & Hws & Ho' & Hc'). apply wp_modify.
  exists s', (set_committing 0 l'), ws. split_and!; [done|done| |done|done|done].
  by apply (quiet_counters _ _ _ _ _ (l_outstanding l') 0) in Hq'; destruct l'.
Qed.

(** Any other [end_op] only gives its reservation up. *)
Lemma end_op_more s l :
  l_outstanding l ≠ 1%Z → l_committing l = 0%Z →
  end_op (LState s l) = Done tt (LState s (set_outstanding (l_outstanding l - 1) l)).
Proof.
  intros Ho Hc. unfold end_op, mbind, M_bind, getlog, updlog, mmodify, assert_or_panic. simpl.
  rewrite Hc. simpl. by rewrite decide_False by lia.
Qed.

(** [begin_op] reserves room or waits. *)
Lemma begin_op_spec s l :
  begin_op (LState s l) =
    if decide (l_committing l = 0 ∧ lh_n (l_lh l) + (l_outstanding l + 1) * MAXOPBLOCKS ≤ LOGSIZE)%Z
    then Done tt (LState s (set_outstanding (l_outstanding l + 1) l)) else Wait (LState s l).
Proof.
  unfold begin_op. simpl. repeat case_decide; (done || lia).
Qed.

Lemma txn_outstanding l c start sz L n :
  txn l c start sz L → txn (set_outstanding n l) c start sz L.
Proof. intros [[] [] ? ? ? ? ?]. constructor; [by constructor|by constructor|done..]. Qed.

Lemma txn_acquire l c start sz L h b :
  txn l c start sz L → c_held c !! h = None → txn l (c_acquire h b c) start sz L.
Proof.
  intros [? ? ? ? ? Hcl ?] Hn. constructor; [done..| |done]. intros x Hx Hh. apply Hcl; [done|].
  intros h' Hh'. apply (Hh h'). simpl. rewrite lookup_insert_ne; [done|]. congruence.
Qed.

Lemma txn_store l c start sz L h b d :
  txn l c start sz L → c_held c !! h = Some b → txn l (c_store b d c) start sz L.
Proof.
  intros [? ? ? ? ? Hcl ?] Hb. constructor; [done..| |done]. intros x Hx Hh. simpl in *.
  rewrite list_lookup_insert_ne; [by apply Hcl|]. intros ->. by apply (Hh h).
Qed.

Lemma txn_release l c start sz L h b :
  txn l c start sz L → c_held c !! h = Some b → c_clean b c → txn l (c_release h c) start sz L.
Proof.
  intros [? ? ? Hd ? Hcl ?] Hb Hclean. constructor; [done..| |done]. intros x Hx Hh. simpl in *.
  destruct (decide (x = b)) as [->|].
  - destruct Hclean as [Hin|]; [|done]. rewrite Hd, elem_of_list_to_set in Hin. done.
  - apply Hcl; [done|]. intros h' Hh'. apply (Hh h'). rewrite lookup_delete_ne; [done|]. congruence.
Qed.

End log_proofs.
