(* ===== verification/Journal.v ===== *)
(** * The interface of the log

    What log.c promises the file system: between [begin_op] and [end_op] the
    disk is a list of blocks read through locked buffers; a changed block must
    be passed to [log_write] before its buffer is released, and no more blocks
    may be logged than the log holds. fs.c is translated and proved against
    this interface; the log over any lawful block cache discharges it. *)

From S2P Require Import Prelude Params Cache Super Log LogProof.

Class Journal (T : Type) := {
  jread : Z → Z → M T nat;
  jrelse : nat → M T unit;
  jdata : nat → M T block;
  jstore : nat → block → M T unit;
  jlog : nat → M T unit              (* log_write *)
}.

(** [j_base] is the disk before the transaction, [j_view] the disk it sees,
    [j_log] the logged blocks, [j_held] the locked buffers; [j_start] and
    [j_size] delimit the log area. *)
Record jstate := JState {
  j_base : list block;
  j_view : list block;
  j_log : gset nat;
  j_held : gmap nat nat;
  j_start : nat;
  j_size : nat
}.

Definition j_acquire (h b : nat) (j : jstate) : jstate :=
  JState (j_base j) (j_view j) (j_log j) (<[h := b]> (j_held j)) (j_start j) (j_size j).
Definition j_release (h : nat) (j : jstate) : jstate :=
  JState (j_base j) (j_view j) (j_log j) (delete h (j_held j)) (j_start j) (j_size j).
Definition j_store (b : nat) (d : block) (j : jstate) : jstate :=
  JState (j_base j) (<[b := d]> (j_view j)) (j_log j) (j_held j) (j_start j) (j_size j).
Definition j_logged (b : nat) (j : jstate) : jstate :=
  JState (j_base j) (j_view j) ({[b]} ∪ j_log j) (j_held j) (j_start j) (j_size j).

(** How many blocks a transaction can log. *)
Definition j_cap (j : jstate) : nat := Nat.min (Z.to_nat LOGSIZE) (j_size j - 1).
Arguments j_cap : simpl never.

Definition j_room (b : nat) (j : jstate) : Prop :=
  b ∈ j_log j ∨ size (j_log j) + size (j_held j) < NBUF.
Definition j_clean (b : nat) (j : jstate) : Prop :=
  b ∈ j_log j ∨ j_view j !! b = j_base j !! b.

Class JournalSpec (T : Type) `{Journal T} := {
  jrep : T → jstate → Prop;
  jrep_wf t j : jrep t j → length (j_base j) = length (j_view j) ∧ Forall blk_ok (j_view j) ∧
    (Z.of_nat (length (j_view j)) < 2 ^ 31)%Z;
  jrep_clean t j b : jrep t j → (∀ h, j_held j !! h ≠ Some b) → j_clean b j;
  jread_law t j b : jrep t j → b < length (j_view j) →
    (∀ h, j_held j !! h ≠ Some b) → j_room b j →
    wp (jread ROOTDEV (Z.of_nat b))
      (λ h t', j_held j !! h = None ∧ jrep t' (j_acquire h b j)) t;
  jdata_law t j h b : jrep t j → j_held j !! h = Some b →
    wp (jdata h) (λ d t', t' = t ∧ j_view j !! b = Some d) t;
  jstore_law t j h b d : jrep t j → j_held j !! h = Some b → blk_ok d →
    wp (jstore h d) (λ _ t', jrep t' (j_store b d j)) t;
  jlog_law t j h b : jrep t j → j_held j !! h = Some b → b < length (j_view j) →
    home (j_start j) (j_size j) b → size (j_log j) < j_cap j →
    wp (jlog h) (λ _ t', jrep t' (j_logged b j)) t;
  jrelse_law t j h b : jrep t j → j_held j !! h = Some b → j_clean b j →
    wp (jrelse h) (λ _ t', jrep t' (j_release h j)) t
}.

(** ** The log is a journal *)

#[export] Instance log_journal {St} `{BlockCache St} : Journal (lstate St) := {|
  jread d n := cache (bread d n);
  jrelse h := cache (brelse h);
  jdata h := cache (bdata h);
  jstore h d := cache (bstore h d);
  jlog h := log_write h
|}.

Section log_is_journal.
Context {St : Type} `{BlockCacheSpec St}.

Definition jview (c : cstate) (start sz : nat) : jstate :=
  JState (c_disk c) (c_view c) (c_dirty c) (c_held c) start sz.

Definition log_jrep (t : lstate St) (j : jstate) : Prop :=
  ∃ c L start sz, crep (ls_cache t) c ∧ txn (ls_log t) c start sz L ∧
    (1 ≤ l_outstanding (ls_log t))%Z ∧ sz ≤ NBUF ∧ j = jview c start sz.

Lemma size_dirty l c start sz L : txn l c start sz L → size (c_dirty c) = length L.
Proof.
  intros [_ _ HL -> _ _ _]. apply size_list_to_set, HL.
Qed.

#[export] Instance log_journal_spec : JournalSpec (lstate St).
Proof.
  refine {| jrep := log_jrep |}.
  - intros t j (c & L & start & sz & Hr & Ht & _ & _ & ->). simpl.
    destruct (crep_wf _ _ Hr) as (Hl & Hv & _). split_and!; [done|done|].
    rewrite Hl. apply (g_32 _ _ _ _ (t_geom _ _ _ _ _ Ht)).
  - intros t j b (c & L & start & sz & Hr & Ht & _ & _ & ->) Hh. unfold j_clean. simpl in *.
    rewrite (t_dirty _ _ _ _ _ Ht), elem_of_list_to_set.
    destruct (decide (b ∈ L)); [by left|right]. by apply (t_clean _ _ _ _ _ Ht).
  - intros [s l] j b (c & L & start & sz & Hr & Ht & Ho & HN & ->) Hb Hh Hroom. simpl in *.
    pose proof (crep_wf _ _ Hr) as (Hl & _). apply wp_zoom. simpl.
    eapply wp_mono; [eapply bread_law; [exact Hr|lia|done|done]|]. simpl.
    intros h s' [Hn Hr']. split; [done|]. exists (c_acquire h b c), L, start, sz.
    split_and!; [done|by apply txn_acquire|done|done|done].
  - intros [s l] j h b (c & L & start & sz & Hr & Ht & Ho & HN & ->) Hh. apply wp_zoom. simpl in *.
    eapply wp_mono; [by eapply bdata_law|]. simpl. by intros d s' [-> ?].
  - intros [s l] j h b d (c & L & start & sz & Hr & Ht & Ho & HN & ->) Hh Hd. apply wp_zoom. simpl in *.
    eapply wp_mono; [by eapply bstore_law|]. simpl. intros _ s' Hr'.
    exists (c_store b d c), L, start, sz. split_and!; [done|by eapply txn_store|done|done|done].
  - intros [s l] j h b (c & L & start & sz & Hr & Ht & Ho & HN & ->) Hh Hb Hhome Hcap. simpl in *.
    pose proof (crep_wf _ _ Hr) as (Hl & _). unfold j_cap, jview in Hcap. cbn [j_size] in Hcap.
    rewrite (size_dirty _ _ _ _ _ Ht) in Hcap.
    eapply wp_mono; [eapply log_write_spec; [exact Ht|exact Hr|exact Hh|lia|done|lia|lia|done|done]|].
    intros _ t' (s' & l' & -> & Hr' & Ht' & Ho' & _).
    exists (c_pin b c), (absorb b L), start, sz. simpl. split_and!; [done|done|lia|done|done].
  - intros [s l] j h b (c & L & start & sz & Hr & Ht & Ho & HN & ->) Hh Hclean. apply wp_zoom. simpl in *.
    eapply wp_mono; [by eapply brelse_law|]. simpl. intros _ s' Hr'.
    exists (c_release h c), L, start, sz. split_and!; [done|by eapply txn_release|done|done|done].
Defined.

End log_is_journal.
