(* ===== verification/BioSpec.v ===== *)
(** * The buffer cache's contract (bio.c)

    The claims on the cache: what a read returns, which buffer it recycles
    and where a released buffer goes in the LRU list. *)

From S2P Require Import Prelude Params Sleeplock Cache Bio.

(** [bread] of a block that no buffer holds locked returns, without
    touching the disk, a locked buffer with the block's current contents
    (those in memory when the block is cached, those on disk otherwise), and
    keeps every invariant of the cache: the LRU list, one buffer per block,
    and the pinned blocks stay in memory. *)
Lemma bread_current pid s c b :
  brep s c → b < length (memdisk s) → (∀ h, c_held c !! h ≠ Some b) → c_room b c →
  ∃ h s', bread pid ROOTDEV (Z.of_nat b) s = Done h s' ∧ c_held c !! h = None ∧
    brep s' (c_acquire h b c) ∧ c_view c !! b = Some (data (bufs s' !!! h)) ∧
    holdingsleep (lock (bufs s' !!! h)) = true ∧
    memdisk s' = memdisk s ∧ wtrace s' = wtrace s.
Proof.
  intros Hrep Hb Hh Hroom. rewrite <-(br_disk _ _ Hrep) in Hb.
  pose proof (@bread_law bstate _ (bio_cache_spec pid) _ _ _ Hrep Hb Hh Hroom) as Hwp.
  apply wp_inv in Hwp as (h & s' & Hrun & Hn & Hrep'). exists h, s'.
  destruct (held_lt _ _ h b Hrep') as (_ & _ & Hl & _ & _ & _ & _ & Hv & _);
    [apply lookup_insert_eq|].
  split_and!; [exact Hrun|done|exact Hrep'|exact Hv| | |].
  - unfold holdingsleep. by apply negb_true_iff, Z.eqb_neq.
  - by rewrite <-(br_disk _ _ Hrep'), <-(br_disk _ _ Hrep).
  - by rewrite <-(br_trace _ _ Hrep'), <-(br_trace _ _ Hrep).
Qed.

Definition two_blocks : list block := [zero_block; splice 0 [7%Z] zero_block].

Lemma two_blocks_ok : Forall blk_ok two_blocks.
Proof.
  apply Forall_cons. split; [exact zero_block_ok|]. apply Forall_singleton.
  apply blk_ok_splice; [exact zero_block_ok| |vm_compute; lia]. repeat constructor; lia.
Qed.

Lemma room_fresh b d : c_room b (CState d [] d ∅ ∅).
Proof. right. cbn [c_dirty c_held]. rewrite size_empty, map_size_empty. vm_compute. lia. Qed.

(** [brelse] unlocks the buffer and makes it the most recently used one:
    it moves to the front of the list and the others keep their order. *)
Lemma brelse_front s c h b l1 l2 :
  brep s c → c_held c !! h = Some b → c_clean b c → lru (bufs s) (l1 ++ h :: l2) →
  ∃ s', brelse h s = Done tt s' ∧ lru (bufs s') (h :: l1 ++ l2) ∧
    brep s' (c_release h c) ∧ memdisk s' = memdisk s.
Proof.
  intros Hrep Hh Hc Hlru. pose proof (brelse_spec _ _ _ _ _ _ Hrep Hh Hc Hlru) as Hwp.
  apply wp_inv in Hwp as ([] & s' & Hrun & Hrep' & Hlru'). exists s'.
  split_and!; [exact Hrun|done|done|]. by rewrite <-(br_disk _ _ Hrep'), <-(br_disk _ _ Hrep).
Qed.

(** C4. The buffer cache, on a circular list in the order [order]. [bget]
    terminates and implements the documented policy: the first buffer of the
    LRU order that caches the block, else the least recently used buffer that
    is neither referenced nor dirty, and the "no buffers" panic only when
    there is none. [bread] of a block that no buffer holds locked returns,
    without touching the disk, a locked buffer with the block's current
    contents (those in memory when the block is cached, those on disk
    otherwise) and keeps the invariants of the cache. [brelse] unlocks the
    buffer and makes it the most recently used one, the others keep their
    order. *)
Theorem buffer_cache_correct pid s c order : brep s c → lru (bufs s) order →
  (∀ d n, bget pid d n s =
    match find (hits (bufs s) d n) order with
    | Some i => take_hit pid i s
    | None =>
      match find (idle (bufs s)) (reverse order) with
      | Some i => take_idle pid d n i s
      | None => Panic "bget: no buffers"
      end
    end) ∧
  (∀ b, b < length (memdisk s) → (∀ h, c_held c !! h ≠ Some b) → c_room b c →
    ∃ h s', bread pid ROOTDEV (Z.of_nat b) s = Done h s' ∧ c_held c !! h = None ∧
      brep s' (c_acquire h b c) ∧ c_view c !! b = Some (data (bufs s' !!! h)) ∧
      holdingsleep (lock (bufs s' !!! h)) = true ∧
      memdisk s' = memdisk s ∧ wtrace s' = wtrace s) ∧
  (∀ h b l1 l2, c_held c !! h = Some b → c_clean b c → order = l1 ++ h :: l2 →
    ∃ s', brelse h s = Done tt s' ∧ lru (bufs s') (h :: l1 ++ l2) ∧
      brep s' (c_release h c) ∧ memdisk s' = memdisk s).
Proof.
  intros Hrep Hlru. split_and!.
  - intros d n. by apply bget_eq.
  - intros b. by apply bread_current.
  - intros h b l1 l2 Hh Hc ->. by apply (brelse_front s c h b).
Qed.

Lemma buffer_cache_correct_witness : let s := BState boot_bufs two_blocks [] in
  bget 3 ROOTDEV 9 s = take_idle 3 ROOTDEV 9 0 s ∧
  ∃ h s', bread 3 ROOTDEV (Z.of_nat 1) s = Done h s' ∧ Some (splice 0 [7%Z] zero_block) = Some (data (bufs s' !!! h)).
Proof.
  intros s. destruct (buffer_cache_correct 3 s (CState two_blocks [] two_blocks ∅ ∅) _ (boot_rep _ two_blocks_ok) boot_lru) as (Hget & Hread & _). split.
  - rewrite Hget. unfold s. cbn [bufs].
    assert (find (hits boot_bufs ROOTDEV 9) (reverse (seq 0 NBUF)) = None) as -> by (vm_compute; reflexivity). rewrite reverse_involutive.
    assert (find (idle boot_bufs) (seq 0 NBUF) = Some 0) as -> by (vm_compute; reflexivity). reflexivity.
  - destruct (Hread 1) as (h & s' & Hrun & _ & _ & Hv & _).
    + apply Nat.ltb_lt. reflexivity.
    + intros h. cbn [c_held]. by rewrite lookup_empty.
    + apply room_fresh.
    + exists h, s'. split; [exact Hrun|exact Hv].
Defined.

Lemma brelse_front_witness : ∃ s s' h l,
  bread 3 ROOTDEV 1 (BState boot_bufs two_blocks []) = Done h s ∧
  brelse h s = Done tt s' ∧ lru (bufs s') (h :: l).
Proof.
  set (c := CState two_blocks [] two_blocks ∅ ∅).
  assert (Hrep : brep (BState boot_bufs two_blocks []) c) by apply boot_rep, two_blocks_ok.
  assert (Hwp : wp (bread 3 ROOTDEV (Z.of_nat 1))
    (λ h s, c_held c !! h = None ∧ brep s (c_acquire h 1 c)) (BState boot_bufs two_blocks [])).
  { apply (@bread_law bstate _ (bio_cache_spec 3) _ c); [exact Hrep|apply Nat.ltb_lt; reflexivity| |].
    - intros h. unfold c. cbn [c_held]. by rewrite lookup_empty.
    - apply room_fresh. }
  apply wp_inv in Hwp as (h & s & Hrun & _ & Hrep').
  destruct (br_lru _ _ Hrep') as [order Hlru].
  assert (Hheld : c_held (c_acquire h 1 c) !! h = Some 1) by apply lookup_insert_eq.
  destruct (held_lt _ _ _ _ Hrep' Hheld) as (Hlt & _).
  assert (Hin : h ∈ order) by (by apply (lru_elem _ _ (proj1 Hlru))).
  apply list_elem_of_split in Hin as (l1 & l2 & ->).
  destruct (brelse_front s _ h 1 l1 l2 Hrep' Hheld (or_intror eq_refl) Hlru) as (s' & Hrel & Hl & _).
  exists s, s', h, (l1 ++ l2). split_and!; [exact Hrun|exact Hrel|exact Hl].
Defined.
