(* ===== verification/Crash.v ===== *)
(** * Crash safety of the kernel's storage stack (log.c over bio.c)

    The theorems of LogProof.v at the real block cache: the log runs on
    Bio.v's buffers, whose memory disk records the order of its block writes.
    A crash keeps a prefix of those writes and loses all memory; the next
    boot runs [binit] and [initlog]. *)

From S2P Require Import Prelude Params Sleeplock Cache Bio Super Log LogProof.

Section crash.
Variable pid : Z.

(** The kernel's boot path to a mounted disk: [main] calls [binit], the first
    process calls [initlog]. *)
Definition boot_log (d : list block) : outcome (lstate bstate) unit :=
  (cache binit;; @initlog bstate (bio_cache pid) ROOTDEV) (LState (bio_boot d) zero_log).

(** [crashes d d']: starting from disk [d], any number of boots crash during
    recovery, each after some of its block writes; [d'] is what is left. *)
Inductive crashes : list block → list block → Prop :=
| crashes_stop d : crashes d d
| crashes_again d t k d' :
    boot_log d = Done tt t →
    crashes (replay d (take k (wtrace (ls_cache t)))) d' →
    crashes d d'.

Lemma boot_log_wp d start sz v :
  recoverable d start sz v →
  wp (cache binit;; @initlog bstate (bio_cache pid) ROOTDEV) (λ _ t, ∃ s' l' ws,
    t = LState s' l' ∧ brep s' (puts ws (fresh d)) ∧ quiet l' (puts ws (fresh d)) start sz [] ∧
    l_outstanding l' = 0%Z ∧ l_committing l' = 0%Z ∧ (∀ b, home start sz b → replay d ws !! b = v !! b) ∧
    ∀ k, recoverable (replay d (take k ws)) start sz v) (LState (bio_boot d) zero_log).
Proof.
  intros Hrec. apply wp_bind, wp_zoom. cbn [ls_cache ls_log]. eapply wp_done; [apply binit_eq|].
  eapply wp_mono; [eapply (@initlog_recovers bstate (bio_cache pid) (bio_cache_spec pid)); [exact Hrec|]|].
  - apply boot_rep, Hrec.
  - intros _ t (s' & l' & ws & -> & Hr & Hq & Ho & Hc & Hv & Hk). by exists s', l', ws.
Qed.

Lemma boot_log_recovers d start sz v :
  recoverable d start sz v →
  ∃ t c, boot_log d = Done tt t ∧ brep (ls_cache t) c ∧ quiet (ls_log t) c start sz [] ∧
    l_outstanding (ls_log t) = 0%Z ∧ l_committing (ls_log t) = 0%Z ∧
    (∀ b, home start sz b → memdisk (ls_cache t) !! b = v !! b) ∧
    memdisk (ls_cache t) = replay d (wtrace (ls_cache t)) ∧
    ∀ k, recoverable (replay d (take k (wtrace (ls_cache t)))) start sz v.
Proof.
  intros Hrec. pose proof (boot_log_wp _ _ _ _ Hrec) as Hwp.
  apply wp_inv in Hwp as ([] & t & Hrun & s' & l' & ws & -> & Hr & Hq & Ho & Hc & Hv & Hk).
  assert (Hd := br_disk _ _ Hr). assert (Ht := br_trace _ _ Hr).
  rewrite puts_disk in Hd. rewrite puts_trace in Ht. cbn [c_disk c_trace fresh app] in Hd, Ht.
  exists (LState s' l'), (puts ws (fresh d)). cbn [ls_cache ls_log]. rewrite <-Hd, <-Ht.
  split_and!; [exact Hrun|done..].
Qed.

Lemma crashes_recoverable d d' start sz v :
  crashes d d' → recoverable d start sz v → recoverable d' start sz v.
Proof.
  induction 1 as [|d t k d' Hrun _ IH]; [done|]. intros Hrec. apply IH.
  destruct (boot_log_recovers _ _ _ _ Hrec) as (t' & c & Hrun' & _ & _ & _ & _ & _ & _ & Hk).
  rewrite Hrun in Hrun'. injection Hrun' as <-. apply Hk.
Qed.

(** C1. A transaction is atomic and durable across crashes. Let the last
    outstanding [end_op] run in a state whose logged blocks are [L]. It
    returns, and among its block writes [ws] there is a commit point [p]: if
    the machine crashes after any [k] of them, and then crashes any number of
    times while recovering, the next boot still succeeds and every block
    outside the log holds the contents from before the transaction if [k] is
    before the commit point, and the contents of the transaction otherwise. A
    crash after [end_op] returned always shows the transaction. *)
Theorem end_op_crash_safe b l c start sz L :
  quiet l c start sz L → brep b c → sb_says (c_disk c) start sz → home start sz 1 → 1 ∉ L →
  l_outstanding l = 1%Z → l_committing l = 0%Z →
  ∃ t ws p, @end_op bstate (bio_cache pid) (LState b l) = Done tt t ∧
    wtrace (ls_cache t) = wtrace b ++ ws ∧ p ≤ length ws ∧
    ∀ k d', crashes (replay (memdisk b) (take k ws)) d' →
      ∃ t', boot_log d' = Done tt t' ∧
        ∀ n, home start sz n → memdisk (ls_cache t') !! n =
          (if decide (k < p) then memdisk b else c_view c) !! n.
Proof.
  intros Hq Hr Hsb Hhome Hone Ho Hc.
  pose proof (@end_op_last bstate (bio_cache pid) (bio_cache_spec pid)
    _ _ _ _ _ _ Hq Hr Hsb Hhome Hone Ho Hc) as Hwp.
  apply wp_inv in Hwp as ([] & t & Hrun & s' & l' & ws & -> & Hr' & _ & [_ (p & Hp & Hk)] & _ & _).
  exists (LState s' l'), ws, p. split_and!; [exact Hrun| |done|].
  { cbn [ls_cache]. by rewrite <-(br_trace _ _ Hr'), puts_trace, (br_trace _ _ Hr). }
  intros k d' Hcr. rewrite <-(br_disk _ _ Hr) in Hcr |- *.
  pose proof (crashes_recoverable _ _ _ _ _ Hcr (Hk k)) as Hrec.
  destruct (boot_log_recovers _ _ _ _ Hrec) as (t' & c' & Hboot & _ & _ & _ & _ & Hv & _).
  exists t'. split; [exact Hboot|exact Hv].
Qed.

End crash.

(** ** A concrete disk

    Forty blocks: boot block, superblock, a log of thirty blocks from block 2,
    then data. *)

Definition demo_sb : superblock := Superblock 40 8 8 30 2 32 33.
Definition demo_disk : list block :=
  zero_block :: splice 0 (sb_to_bytes demo_sb) zero_block :: replicate 38 zero_block.

Lemma demo_disk_ok : Forall blk_ok demo_disk.
Proof.
  apply Forall_cons. split; [exact zero_block_ok|]. apply Forall_cons. split.
  - apply blk_ok_splice; [exact zero_block_ok| |vm_compute; lia].
    unfold sb_to_bytes. repeat (apply Forall_app; split); apply le_enc_byte.
  - apply Forall_replicate. exact zero_block_ok.
Qed.

Lemma demo_sb_says : sb_says demo_disk 2 30.
Proof. eexists. split; [reflexivity|]. split; vm_compute; reflexivity. Qed.

Lemma demo_recoverable : recoverable demo_disk 2 30 demo_disk.
Proof.
  split.
  - constructor; [exact demo_sb_says| | | |left; lia|exact demo_disk_ok].
    + change (length demo_disk) with 40. lia.
    + lia.
    + change (length demo_disk) with 40. lia.
  - exists [], []. split_and!; [|set_solver|done].
    eapply on_disk_nil; [lia|reflexivity|]. split; [vm_compute; reflexivity|done].
Qed.

(** A system call that overwrites one block. *)
Section overwrite.
Context {St : Type} `{BlockCacheSpec St}.

Definition overwrite (b : nat) (x : block) : M (lstate St) unit :=
  begin_op;;
  h ← cache (Cache.bread ROOTDEV (Z.of_nat b));
  cache (Cache.bstore h x);;
  log_write h;;
  cache (Cache.brelse h).

Lemma overwrite_spec s l c start sz b x :
  quiet l c start sz [] → crep s c → b < length (c_disk c) → home start sz b → 1 < sz ≤ NBUF →
  blk_ok x → l_outstanding l = 0%Z → l_committing l = 0%Z →
  wp (overwrite b x) (λ _ t, ∃ c', crep (ls_cache t) c' ∧ quiet (ls_log t) c' start sz [b] ∧
    c_disk c' = c_disk c ∧ c_view c' !! b = Some x ∧
    l_outstanding (ls_log t) = 1%Z ∧ l_committing (ls_log t) = 0%Z) (LState s l).
Proof.
  intros Hq Hr Hb Hhome Hsz Hx Ho Hc. pose proof (quiet_txn _ _ _ _ _ Hq) as Ht.
  pose proof (q_held _ _ _ _ _ Hq) as Hh. pose proof (q_dirty _ _ _ _ _ Hq) as Hd.
  pose proof (lg_n _ _ (q_logged _ _ _ _ _ Hq)) as Hn. simpl in Hn.
  unfold overwrite. apply wp_bind. eapply wp_done.
  { rewrite begin_op_spec, decide_True; [done|]. rewrite Hn, Ho. done. }
  apply (txn_outstanding _ _ _ _ _ (l_outstanding l + 1)) in Ht. rewrite Ho in Ht |- *.
  apply wp_bind. eapply cache_bread; [exact Hr|done|done|lia|by apply held_empty|..].
  { right. rewrite Hd, Hh, map_size_empty, list_to_set_nil, size_empty. lia. }
  intros h s1 Hf Hr1. eapply txn_acquire in Ht; [|exact Hf].
  apply wp_bind. eapply cache_bstore; [exact Hr1|apply lookup_insert_eq|exact Hx|].
  intros s2 Hr2. eapply txn_store in Ht; [|apply lookup_insert_eq]. apply wp_bind.
  eapply wp_mono; [eapply log_write_spec; [exact Ht|exact Hr2|apply lookup_insert_eq|done|done|..]|].
  { simpl. plia. } { simpl. lia. } { lia. } { done. }
  intros _ t (s3 & l3 & -> & Hr3 & Ht3 & Ho3 & Hc3).
  eapply cache_brelse; [exact Hr3|apply lookup_insert_eq|left; simpl; set_solver|].
  intros s4 Hr4. eapply txn_release in Ht3; [|apply lookup_insert_eq|left; simpl; set_solver].
  eexists. split_and!; [exact Hr4| |done| |done|by rewrite <-Hc].
  - apply txn_quiet; [exact Ht3|]. simpl. by rewrite Hh, insert_empty, delete_singleton_eq.
  - simpl. apply list_lookup_insert_eq. pose proof (crep_wf _ _ Hr) as [-> _]. lia.
Qed.
End overwrite.

Definition demo_block : block := splice 0 [42%Z] zero_block.

Lemma demo_block_ok : blk_ok demo_block.
Proof. apply blk_ok_splice; [exact zero_block_ok| |vm_compute; lia]. repeat constructor; lia. Qed.

(** Boot the disk and overwrite block 35: a state ready for [end_op]. *)
Lemma demo_state : ∃ b l c,
  quiet l c 2 30 [35] ∧ brep b c ∧ sb_says (c_disk c) 2 30 ∧ l_outstanding l = 1%Z ∧
  l_committing l = 0%Z ∧ c_disk c !! 35 = Some zero_block ∧ c_view c !! 35 = Some demo_block.
Proof.
  destruct (boot_log_recovers 1 _ _ _ _ demo_recoverable)
    as ([s l] & c & _ & Hr & Hq & Ho & Hc & Hv & Hd & _). cbn [ls_cache ls_log] in *.
  assert (Hlen : length (c_disk c) = 40).
  { rewrite (br_disk _ _ Hr), Hd, replay_length. reflexivity. }
  assert (Hsz : 1 < 30 ≤ NBUF) by (vm_compute; lia).
  pose proof (overwrite_spec (H := bio_cache 1) (H0 := bio_cache_spec 1) s l c 2 30 35 demo_block Hq Hr
    ltac:(lia) ltac:(right; lia) Hsz demo_block_ok Ho Hc) as Hwp.
  apply wp_inv in Hwp as (_ & [b' l'] & _ & c' & Hr' & Hq' & Hd' & Hv' & Ho' & Hc').
  exists b', l', c'. rewrite Hd', (br_disk _ _ Hr). split_and!; [exact Hq'|exact Hr'| |done|done| |done].
  - destruct demo_sb_says as (x & Hx & Hsb). exists x. split; [|done]. rewrite Hv by (left; lia). done.
  - rewrite Hv by (right; lia). reflexivity.
Qed.

Lemma end_op_crash_safe_witness : ∃ b l c t ws p,
  c_view c !! 35 = Some demo_block ∧ memdisk b !! 35 = Some zero_block ∧
  @end_op bstate (bio_cache 1) (LState b l) = Done tt t ∧ p ≤ length ws ∧
  ∀ k d', crashes 1 (replay (memdisk b) (take k ws)) d' →
    ∃ t', boot_log 1 d' = Done tt t' ∧
      memdisk (ls_cache t') !! 35 = Some (if decide (k < p) then zero_block else demo_block).
Proof.
  destruct demo_state as (b & l & c & Hq & Hr & Hsb & Ho & Hc & Hd & Hv).
  assert (Hhome : home 2 30 1) by (left; lia).
  assert (Hone : 1 ∉ [35]) by set_solver.
  destruct (end_op_crash_safe 1 b l c 2 30 [35] Hq Hr Hsb Hhome Hone Ho Hc)
    as (t & ws & p & Hrun & _ & Hp & Hk).
  rewrite (br_disk _ _ Hr) in Hd. exists b, l, c, t, ws, p. split_and!; [done|done|done|done|].
  intros k d' Hcr. destruct (Hk k d' Hcr) as (t' & Hb & Hn). exists t'. split; [exact Hb|].
  rewrite (Hn 35) by (right; lia). by destruct (decide (k < p)).
Defined.
