(* ===== verification/Reserve.v ===== *)
(** * Admission to the log (log.c [begin_op], [log_write], [end_op])

    Concurrent system calls share one transaction. Each reserves
    [MAXOPBLOCKS] blocks in [begin_op] and logs at most that many. The calls
    of several processes interleave: a step of the system is one call of one
    process, run to completion, as [log.lock] makes it. *)

From S2P Require Import Prelude Params Sleeplock Cache Bio Super Log LogProof Crash.

Section reserve.
Context {St : Type} `{BlockCache St}.
Implicit Types (t : lstate St).

(** ** Code that leaves the in-memory log alone *)

Definition keeps_log {A} (m : M (lstate St) A) : Prop :=
  ∀ t a t', m t = Done a t' → ls_log t' = ls_log t.

Lemma keeps_cache {A} (m : M St A) : keeps_log (cache m).
Proof. intros t a t' Hm. unfold cache, zoom in Hm. by destruct (m (ls_cache t)); simplify_eq. Qed.

Lemma keeps_getlog : keeps_log getlog.
Proof. intros t a t' Hm. unfold getlog in Hm. by simplify_eq. Qed.

Lemma keeps_bind {A B} (m : M (lstate St) A) (k : A → M (lstate St) B) :
  keeps_log m → (∀ a, keeps_log (k a)) → keeps_log (m ≫= k).
Proof.
  intros Hm Hk t b t' Hr. unfold mbind, M_bind in Hr. destruct (m t) as [a t1| | |] eqn:E; simplify_eq.
  apply Hm in E. apply Hk in Hr. congruence.
Qed.

Lemma keeps_mfor {A} (l : list A) (f : A → M (lstate St) unit) :
  (∀ x, keeps_log (f x)) → keeps_log (mfor l f).
Proof.
  intros Hf. induction l as [|x l IH]; simpl; [|by apply keeps_bind].
  intros t a t' Hr. unfold mret, M_ret in Hr. by simplify_eq.
Qed.

Create HintDb keeps.
#[local] Hint Resolve keeps_cache keeps_getlog keeps_bind keeps_mfor : keeps.

Lemma keeps_write_log : keeps_log write_log.
Proof. unfold write_log, write_log_block. auto 20 with keeps. Qed.

Lemma keeps_write_head : keeps_log write_head.
Proof. unfold write_head. auto 20 with keeps. Qed.

Lemma keeps_install_trans : keeps_log install_trans.
Proof. unfold install_trans, install_block. auto 20 with keeps. Qed.

(** ** What each call does to the header count and the reservation count *)

Lemma commit_resets t a t' :
  (0 ≤ lh_n (l_lh (ls_log t)))%Z → commit t = Done a t' → ls_log t' = set_n 0 (ls_log t).
Proof.
  unfold commit. intros Hn (l & t0 & Hl & Hr)%bind_done. unfold getlog in Hl. simplify_eq.
  case_decide as Hd.
  - apply bind_done in Hr as ([] & t1 & H1%keeps_write_log & Hr).
    apply bind_done in Hr as ([] & t2 & H2%keeps_write_head & Hr).
    apply bind_done in Hr as ([] & t3 & H3%keeps_install_trans & Hr).
    apply bind_done in Hr as ([] & t4 & H4 & H5%keeps_write_head).
    unfold updlog, mmodify in H4. simplify_eq. simpl in *. congruence.
  - unfold mret, M_ret in Hr. simplify_eq. destruct (ls_log t') as [? ? ? ? ? [n bs]].
    unfold set_n. simpl in *. repeat f_equal. lia.
Qed.

Lemma end_op_log t a t' :
  (0 ≤ lh_n (l_lh (ls_log t)))%Z → end_op t = Done a t' →
  l_committing (ls_log t) = 0%Z ∧ ls_log t' =
    if decide (l_outstanding (ls_log t) = 1%Z)
    then set_n 0 (set_outstanding 0 (ls_log t))
    else set_outstanding (l_outstanding (ls_log t) - 1) (ls_log t).
Proof.
  destruct t as [s l]. unfold end_op, mbind, M_bind, getlog, updlog, mmodify, assert_or_panic. simpl.
  intros Hn Hr. destruct (Z.eqb_spec (l_committing l) 0) as [Hc|]; [|done]. split; [done|].
  destruct (decide (l_outstanding l = 1%Z)) as [Ho|Ho].
  - rewrite decide_True in Hr by lia. unfold mret, M_ret in Hr. simpl in Hr.
    match type of Hr with context [commit ?x] => destruct (commit x) as [u t1| | |] eqn:E end; simplify_eq.
    apply commit_resets in E; [|done]. simpl. rewrite E, Ho. by destruct l; simpl in *; subst.
  - rewrite decide_False in Hr by lia. unfold mret, M_ret in Hr. by simplify_eq.
Qed.

Lemma log_write_log h t a t' :
  log_write h t = Done a t' →
  l_outstanding (ls_log t') = l_outstanding (ls_log t) ∧
  l_committing (ls_log t') = l_committing (ls_log t) ∧
  (lh_n (l_lh (ls_log t)) ≤ lh_n (l_lh (ls_log t')) ≤ lh_n (l_lh (ls_log t)) + 1)%Z.
Proof.
  unfold log_write. intros (l & t0 & Hl & Hr)%bind_done. unfold getlog in Hl. simplify_eq.
  apply bind_done in Hr as ([] & t1 & H1 & Hr).
  apply bind_done in Hr as ([] & t2 & H2 & Hr).
  apply bind_done in Hr as (bn & t3 & H3%keeps_cache & Hr).
  apply bind_done in Hr as ([] & t4 & H4 & Hr).
  apply bind_done in Hr as ([] & t5 & H5 & H6%keeps_cache).
  apply assert_done in H1 as [_ ->]. apply assert_done in H2 as [_ ->].
  unfold updlog, mmodify in H4. simplify_eq. simpl in *.
  case_decide; unfold updlog, mmodify, mret, M_ret in H5; simplify_eq; simpl in *;
    rewrite H6, H3; simpl; lia.
Qed.

Lemma begin_op_log t a t' :
  begin_op t = Done a t' →
  l_committing (ls_log t) = 0%Z ∧
  (lh_n (l_lh (ls_log t)) + (l_outstanding (ls_log t) + 1) * MAXOPBLOCKS ≤ LOGSIZE)%Z ∧
  ls_log t' = set_outstanding (l_outstanding (ls_log t) + 1) (ls_log t).
Proof.
  destruct t as [s l]. rewrite begin_op_spec. case_decide as Hd; [|done]. intros. simplify_eq.
  simpl. naive_solver.
Qed.

(** ** The interleaved calls

    [u] counts, for each process inside a system call, the [log_write]s it has
    made. *)
Definition admission : Type := lstate St * gmap nat nat.

Inductive call : admission → admission → Prop :=
| call_begin t u p t' :
    u !! p = None → begin_op t = Done tt t' → call (t, u) (t', <[p := 0]> u)
| call_write t u p k h t' :
    u !! p = Some k → k < Z.to_nat MAXOPBLOCKS → log_write h t = Done tt t' →
    call (t, u) (t', <[p := S k]> u)
| call_end t u p k t' :
    u !! p = Some k → end_op t = Done tt t' → call (t, u) (t', delete p u).

(** What the processes inside a system call may still log. *)
Definition reserved (u : gmap nat nat) : nat :=
  map_fold (λ _ k r, (Z.to_nat MAXOPBLOCKS - k) + r) 0 u.

Lemma reserved_insert u p k : u !! p = None →
  reserved (<[p := k]> u) = (Z.to_nat MAXOPBLOCKS - k) + reserved u.
Proof. intros. unfold reserved. rewrite map_fold_insert_L; [done|lia|done]. Qed.

Lemma reserved_delete u p k : u !! p = Some k →
  reserved u = (Z.to_nat MAXOPBLOCKS - k) + reserved (delete p u).
Proof.
  intros Hp. rewrite <-(reserved_insert (delete p u) p k) by apply lookup_delete_eq.
  by rewrite insert_delete_id.
Qed.

Lemma reserved_le u : reserved u ≤ size u * Z.to_nat MAXOPBLOCKS.
Proof.
  induction u as [|p k u Hp IH] using map_ind; [unfold reserved; rewrite map_fold_empty; lia|].
  rewrite reserved_insert, map_size_insert_None by done. lia.
Qed.

Record admitted_ok (s : admission) : Prop := {
  ad_n : (0 ≤ lh_n (l_lh (ls_log s.1)))%Z;
  ad_count : l_outstanding (ls_log s.1) = Z.of_nat (size s.2);
  ad_room : (lh_n (l_lh (ls_log s.1)) + Z.of_nat (reserved s.2) ≤ LOGSIZE)%Z
}.

Lemma call_ok s s' : admitted_ok s → call s s' → admitted_ok s'.
Proof.
  intros [Hn Hc Hr] Hs. destruct Hs as [t u p t' Hp Hb|t u p k h t' Hp Hk Hw|t u p k t' Hp He]; simpl in *.
  - apply begin_op_log in Hb as (_ & Hroom & Hl). pose proof (reserved_le u).
    constructor; simpl; rewrite Hl; simpl; [done| |].
    + rewrite map_size_insert_None by done. lia.
    + rewrite reserved_insert by done. plia.
  - apply log_write_log in Hw as (Ho & _ & Hn').
    rewrite (reserved_delete u p k Hp) in Hr.
    constructor; simpl; [lia| |].
    + rewrite Ho, Hc. by rewrite map_size_insert, Hp.
    + rewrite <-insert_delete_eq, reserved_insert by apply lookup_delete_eq. lia.
  - apply end_op_log in He as [_ Hl]; [|done]. rewrite (reserved_delete u p k Hp) in Hr.
    assert (size u ≠ 0) by (by eapply map_size_ne_0_lookup_2).
    constructor; simpl; rewrite Hl; clear Hl; case_decide as Ho; simpl; try lia.
    + rewrite map_size_delete, Hp. lia.
    + rewrite map_size_delete, Hp. lia.
Qed.

(** C2. The reservation made by [begin_op] is enough. However the calls of
    concurrent system calls interleave from an empty log, a process inside a
    system call that has logged fewer than [MAXOPBLOCKS] blocks finds a free
    slot in the log header: the number of logged blocks is below [LOGSIZE], so
    the header array never overflows and the [LOGSIZE] part of the "too big a
    transaction" check never fires. *)
Theorem log_admission t0 t u p k :
  lh_n (l_lh (ls_log t0)) = 0%Z → l_outstanding (ls_log t0) = 0%Z →
  rtc call (t0, ∅) (t, u) → u !! p = Some k → k < Z.to_nat MAXOPBLOCKS →
  (0 ≤ lh_n (l_lh (ls_log t)) < LOGSIZE)%Z.
Proof.
  intros Hn Ho Hs Hp Hk.
  assert (H0 : admitted_ok (t0, ∅)).
  { constructor; simpl; rewrite ?Hn, ?Ho; [done|done|]. unfold reserved. by rewrite map_fold_empty. }
  assert (Hok : admitted_ok (t, u)).
  { revert H0. induction Hs as [|s s' s'' Hc _ IH]; [done|]. eauto using call_ok. }
  destruct Hok as [Hn' _ Hr]. simpl in *. rewrite (reserved_delete u p k Hp) in Hr. lia.
Qed.
End reserve.

(** Two system calls enter an empty log. *)
Lemma log_admission_witness :
  let t := LState (bio_boot []) (set_outstanding 2 zero_log) in
  rtc (@call bstate (bio_cache 1)) (LState (bio_boot []) zero_log, ∅) (t, {[2 := 0; 1 := 0]}) ∧
  (0 ≤ lh_n (l_lh (ls_log t)) < LOGSIZE)%Z.
Proof.
  assert (Hrun : rtc (@call bstate (bio_cache 1)) (LState (bio_boot []) zero_log, ∅)
    (LState (bio_boot []) (set_outstanding 2 zero_log), {[2 := 0; 1 := 0]})).
  { eapply rtc_l; [apply (call_begin _ _ 1); [apply lookup_empty|reflexivity]|].
    eapply rtc_l; [apply (call_begin _ _ 2); [reflexivity|reflexivity]|]. apply rtc_refl. }
  split; [exact Hrun|].
  apply (@log_admission bstate (bio_cache 1) (LState (bio_boot []) zero_log)
    (LState (bio_boot []) (set_outstanding 2 zero_log)) {[2 := 0; 1 := 0]} 1 0 eq_refl eq_refl Hrun).
  - reflexivity.
  - apply Nat.ltb_lt. reflexivity.
Defined.

(** ** Logs that are too small

    mkfs.c gives the log [LOGSIZE] blocks, header included, so it holds one
    block less than [begin_op] hands out. *)

Section small_log.
Context {St : Type} `{BlockCacheSpec St}.

(** A block is read, logged and released, as fs.c does it. *)
Definition log_block (b : nat) : M (lstate St) unit :=
  h ← cache (Cache.bread ROOTDEV (Z.of_nat b));
  log_write h;;
  cache (Cache.brelse h).

(** Three system calls are admitted and log the blocks [bs] between them. *)
Definition three_calls (bs : list nat) : M (lstate St) unit := begin_op;; begin_op;; begin_op;; mfor bs log_block.

Lemma log_blocks_spec start sz bs : ∀ s l c L, txn l c start sz L → c_held c = ∅ → crep s c → (1 ≤ l_outstanding l)%Z → sz ≤ Z.to_nat LOGSIZE →
  NoDup (L ++ bs) → Forall (λ b, b < length (c_disk c) ∧ home start sz b) bs → length L < sz →
  if decide (length L + length bs < sz) then ∃ s' l' c', mfor bs log_block (LState s l) = Done tt (LState s' l') ∧ txn l' c' start sz (L ++ bs)
  else mfor bs log_block (LState s l) = Panic "too big a transaction".
Proof.
  induction bs as [|b bs IH]; intros s l c L Ht Hh Hr Ho Hsz Hnd Hbs HL; cbn [length mfor].
  { rewrite decide_True by lia. exists s, l, c. by rewrite app_nil_r. }
  apply Forall_cons in Hbs as [[Hb Hhome] Hbs]. pose proof (t_dirty _ _ _ _ _ Ht) as Hd. pose proof (t_buf _ _ _ _ _ Ht) as Hbuf.
  assert (HN : Z.to_nat LOGSIZE ≤ NBUF) by plia. assert (HbL : b ∉ L) by (apply NoDup_app in Hnd as (_ & Hdis & _); intros Hin; apply (Hdis b Hin); set_solver).
  assert (Hroom : c_room b c). { right. rewrite Hd, Hh, map_size_empty, size_list_to_set by apply (ll_nodup _ _ _ _ (t_list _ _ _ _ _ Ht)). lia. }
  pose proof (bread_law s c b Hr Hb (held_empty c b Hh) Hroom) as Hrd. apply wp_inv in Hrd as (h & s1 & Hrd & Hf & Hr1).
  assert (Hrun1 : cache (Cache.bread ROOTDEV (Z.of_nat b)) (LState s l) = Done h (LState s1 l)) by (unfold cache, zoom; cbn [ls_cache ls_log]; by rewrite Hrd).
  pose proof (txn_acquire _ _ _ _ _ h b Ht Hf) as Ht1. destruct (decide (S (length L) = sz)) as [Hfull|Hroom2].
  - rewrite decide_False by lia. apply run_panic. unfold log_block. rewrite (run_bind _ _ _ _ _ Hrun1). apply run_panic, log_write_full. right.
    rewrite (g_size _ _ _ _ (t_geom _ _ _ _ _ Ht)), (lg_n _ _ (t_logged _ _ _ _ _ Ht)). lia.
  - pose proof (log_write_spec s1 l _ start sz L h b Ht1 Hr1 ltac:(apply lookup_insert_eq) Hb Hhome ltac:(lia) ltac:(lia) ltac:(lia) Ho) as Hw.
    apply wp_inv in Hw as ([] & t2 & Hw & s2 & l2 & -> & Hr2 & Ht2 & Ho2 & _).
    assert (Hcl : c_clean b (c_pin b (c_acquire h b c))) by (left; cbn [c_pin c_dirty]; set_solver).
    pose proof (brelse_law s2 _ h b Hr2 ltac:(apply lookup_insert_eq) Hcl) as Hrel. apply wp_inv in Hrel as ([] & s3 & Hrel & Hr3).
    assert (Hrun3 : cache (Cache.brelse h) (LState s2 l2) = Done tt (LState s3 l2)) by (unfold cache, zoom; cbn [ls_cache ls_log]; by rewrite Hrel).
    pose proof (txn_release _ _ _ _ _ h b Ht2 ltac:(apply lookup_insert_eq) Hcl) as Ht3.
    assert (Habs : absorb b L = L ++ [b]) by (unfold absorb; by rewrite decide_False). rewrite Habs in Ht3.
    specialize (IH s3 l2 _ (L ++ [b]) Ht3). rewrite length_app in IH. cbn [length] in IH. rewrite <-!app_assoc in IH. cbn [app] in IH.
    rewrite (run_bind (log_block b) _ _ tt (LState s3 l2)) by (unfold log_block; rewrite (run_bind _ _ _ _ _ Hrun1), (run_bind _ _ _ _ _ Hw); exact Hrun3).
    replace (length L + S (length bs)) with (length L + 1 + length bs) by lia.
    apply IH; [|done|by rewrite Ho2|done|done|done|lia]. cbn [c_release c_pin c_acquire c_held]. rewrite Hh. by rewrite insert_empty, delete_singleton_eq.
Qed.

(** C3. In a log of at most [LOGSIZE] blocks, header included, the check of
    [begin_op] admits three system calls at once, which together may log
    [3 * MAXOPBLOCKS] different blocks; whatever these blocks are and however the
    calls share and order them, the kernel panics in [log_write] exactly if they
    are as many as the log has blocks, although each call stays within
    [MAXOPBLOCKS]. *)
Theorem admitted_calls_panic s l c start sz bs :
  quiet l c start sz [] → crep s c → l_outstanding l = 0%Z → l_committing l = 0%Z → sz ≤ Z.to_nat LOGSIZE →
  NoDup bs → Forall (λ b, b < length (c_disk c) ∧ home start sz b) bs → length bs ≤ 3 * Z.to_nat MAXOPBLOCKS →
  if decide (length bs < sz) then ∃ t, three_calls bs (LState s l) = Done tt t ∧ lh_n (l_lh (ls_log t)) = Z.of_nat (length bs)
  else three_calls bs (LState s l) = Panic "too big a transaction".
Proof.
  intros Hq Hr Ho Hc Hsz Hnd Hbs _. pose proof (lg_n _ _ (q_logged _ _ _ _ _ Hq)) as Hn. cbn [length] in Hn.
  set (l3 := set_outstanding 3 l). assert (Hb : three_calls bs (LState s l) = mfor bs log_block (LState s l3)).
  { unfold three_calls. rewrite (run_bind _ _ _ tt (LState s (set_outstanding 1 l))) by (rewrite begin_op_spec, decide_True by (rewrite Hn, Ho, Hc; done); by rewrite Ho).
    rewrite (run_bind _ _ _ tt (LState s (set_outstanding 2 l))) by (rewrite begin_op_spec, decide_True by (cbn; rewrite Hn, Hc; done); done).
    by rewrite (run_bind _ _ _ tt (LState s l3)) by (rewrite begin_op_spec, decide_True by (cbn; rewrite Hn, Hc; done); done). }
  pose proof (txn_outstanding _ _ _ _ _ 3 (quiet_txn _ _ _ _ _ Hq)) as Ht. fold l3 in Ht.
  pose proof (log_blocks_spec start sz bs s l3 c [] Ht (q_held _ _ _ _ _ Hq) Hr ltac:(done) Hsz Hnd Hbs (ll_size _ _ _ _ (q_list _ _ _ _ _ Hq))) as Hspec.
  cbn [length plus app] in Hspec. rewrite Hb. case_decide; [|exact Hspec]. destruct Hspec as (s' & l' & c' & Hrun & Ht'). exists (LState s' l'). split; [done|].
  cbn [ls_log]. by rewrite (lg_n _ _ (t_logged _ _ _ _ _ Ht')).
Qed.
End small_log.

(** A disk with the log that mkfs.c lays out, at its first boot. *)
Definition mkfs_disk : list block :=
  zero_block :: splice 0 (sb_to_bytes (Superblock 80 20 8 LOGSIZE 2 32 33)) zero_block :: replicate 78 zero_block.

Lemma mkfs_disk_recoverable : recoverable mkfs_disk 2 30 mkfs_disk.
Proof.
  assert (Hsb : sb_says mkfs_disk 2 30) by (eexists; split; [reflexivity|]; split; vm_compute; reflexivity).
  split.
  - constructor; [exact Hsb| | | |left; lia|].
    + change (length mkfs_disk) with 80. lia.
    + lia.
    + change (length mkfs_disk) with 80. lia.
    + apply Forall_cons. split; [exact zero_block_ok|]. apply Forall_cons. split; [|apply Forall_replicate; exact zero_block_ok].
      apply blk_ok_splice; [exact zero_block_ok| |vm_compute; lia]. unfold sb_to_bytes. repeat (apply Forall_app; split); apply le_enc_byte.
  - exists [], []. split_and!; [|set_solver|done]. eapply on_disk_nil; [lia|reflexivity|]. split; [vm_compute; reflexivity|done].
Qed.

Lemma admitted_calls_panic_witness : ∃ t, boot_log 1 mkfs_disk = Done tt t ∧
  @three_calls bstate (bio_cache 1) (seq 40 (3 * Z.to_nat MAXOPBLOCKS)) t = Panic "too big a transaction".
Proof.
  destruct (boot_log_recovers 1 _ _ _ _ mkfs_disk_recoverable) as ([s l] & c & Hb & Hr & Hq & Ho & Hc & _ & Hd & _). cbn [ls_cache ls_log] in *.
  exists (LState s l). split; [exact Hb|]. assert (Hlen : length (c_disk c) = 80) by (rewrite (br_disk _ _ Hr), Hd, replay_length; reflexivity).
  pose proof (admitted_calls_panic (H := bio_cache 1) (H0 := bio_cache_spec 1) s l c 2 30 (seq 40 (3 * Z.to_nat MAXOPBLOCKS)) Hq Hr Ho Hc) as Hall.
  rewrite length_seq in Hall. change (3 * Z.to_nat MAXOPBLOCKS) with 30 in Hall. apply Hall; [vm_compute; lia|apply NoDup_seq| |lia].
  apply Forall_forall. intros b Hin%elem_of_seq. rewrite Hlen. split; [lia|right; lia].
Defined.
