(* ===== verification/Ide.v ===== *)
(** * The IDE disk driver (ide.c)

    The queue of buffers through [qnext], the programming of the controller and
    the interrupt handler. The controller is the device at the other end of the
    ports: the interface [Ata] has its ports and what can be observed of it,
    [AtaLaws] what ATA says of them for commands of one sector with programmed
    transfers (a drive may be busy for a number of status reads before it is
    ready), and [AtaPrompt] what the driver relies on beyond that: [idestart]
    sends the data of a write without waiting until the drive asks for it. The
    part of [iderw] after its request is queued is a loop of checks and sleeps.
    The theorem is that the driver, on every such controller, is a queue of
    requests. *)

From S2P Require Import Prelude Params.

Local Open Scope Z_scope.

Definition SECTOR_SIZE : Z := 512.
Definition IDE_BSY : Z := 0x80.
Definition IDE_DRDY : Z := 0x40.
Definition IDE_DF : Z := 0x20.
Definition IDE_ERR : Z := 0x01.
Definition IDE_CMD_READ : Z := 0x20.
Definition IDE_CMD_WRITE : Z := 0x30.
Definition IDE_CMD_RDMUL : Z := 0xc4.
Definition IDE_CMD_WRMUL : Z := 0xc5.

(** ** The controller *)

(** A sector of one of the two drives, and the data to write to it. *)
Record request := Request { rq_drive : Z; rq_sector : Z; rq_data : option block }.

Inductive command :=
| Idle
| NeedData (drive sector : Z)             (* a write command, before its data *)
| Busy (r : request)                      (* the drive works on the request *)
| Finished (r : request) (failed : bool). (* the interrupt is raised *)

(** The ports, the event that the drive has done its work, and what there is to
    observe: the last byte written to each register, the command in progress,
    the sectors of the two drives, which of the drives are there, and for how
    many more reads of its status (at most [polls]) the drive that is selected
    says that it is busy. *)
Class Ata (H : Type) := {
  inb : Z → M H Z;
  outb : Z → Z → M H unit;
  outsl : Z → block → M H unit;
  insl : Z → nat → M H block;
  finish : bool → H → option H;
  latched : H → Z → Z;
  command_of : H → command;
  sectors : H → Z → Z → block;
  present : H → Z → bool;
  lag : H → nat;
  polls : nat
}.

(** The sector and the drive that the registers select (28-bit LBA). *)
Definition lba_of (r3 r4 r5 r6 : Z) : Z :=
  Z.lor (Z.lor (Z.lor r3 (Z.shiftl r4 8)) (Z.shiftl r5 16)) (Z.shiftl (Z.land r6 0x0f) 24).
Definition drive_of (r6 : Z) : Z := Z.land (Z.shiftr r6 4) 1.

Section controller.
  Context {H : Type} `{Ata H}.

Definition lba (h : H) : Z := lba_of (latched h 0x1f3) (latched h 0x1f4) (latched h 0x1f5) (latched h 0x1f6).
Definition drive (h : H) : Z := drive_of (latched h 0x1f6).

Definition quiet (h : H) : Prop := match command_of h with Idle | Finished _ _ => True | _ => False end.
Definition ready (h : H) : Prop := quiet h ∧ present h (drive h) = true.
Definition errored (h : H) : bool := match command_of h with Finished _ failed => failed | _ => false end.
(** One sector, with the interrupt enabled. *)
Definition one_sector (h : H) : Prop := latched h 0x1f2 = 1 ∧ latched h 0x3f6 = 0.
(** Only the command changes. *)
Definition kept (h h' : H) : Prop :=
  latched h' 0x1f6 = latched h 0x1f6 ∧ sectors h' = sectors h ∧ present h' = present h.
(** Only the time that has passed changes. *)
Definition same (h h' : H) : Prop :=
  latched h' = latched h ∧ command_of h' = command_of h ∧ sectors h' = sectors h ∧ present h' = present h.
End controller.

(** A sector after a request. *)
Definition written (failed : bool) (r : request) (disk : Z → Z → block) : Z → Z → block :=
  match rq_data r with
  | Some bs => if failed then disk else λ d s, if decide (d = rq_drive r ∧ s = rq_sector r) then bs else disk d s
  | None => disk
  end.

(** ATA: a drive that is not there reads as 0; one that has no command to do is
    ready, with the error bits of its last command, after it has been busy for
    a while; the registers, which are written when the drive is not busy, hold
    what is written to them; a read command, or a write command once the drive
    has asked for its data and got them, is in progress until the drive is
    finished. *)
Class AtaLaws (H : Type) `{Ata H} : Prop := {
  lag_polls h : (lag h ≤ polls)%nat;
  status_absent h : present h (drive h) = false → inb 0x1f7 h = Done 0 h;
  status_busy h : ready h → lag h ≠ O → ∃ r h', inb 0x1f7 h = Done r h' ∧ Z.land r IDE_BSY = IDE_BSY ∧ (lag h' < lag h)%nat ∧ same h h';
  status_ready h : ready h → lag h = O → ∃ r, inb 0x1f7 h = Done r h ∧ Z.land r (Z.lor IDE_BSY IDE_DRDY) = IDE_DRDY ∧
    (Z.land r (Z.lor IDE_DF IDE_ERR) =? 0) = negb (errored h);
  outb_latch p v h : quiet h → lag h = O → p ∈ [0x3f6; 0x1f2; 0x1f3; 0x1f4; 0x1f5; 0x1f6] → ∃ h', outb p v h = Done tt h' ∧
    (∀ q, latched h' q = if decide (p = q) then u8 v else latched h q) ∧
    command_of h' = command_of h ∧ sectors h' = sectors h ∧ present h' = present h ∧ lag h' = O;
  outb_read h : ready h → lag h = O → one_sector h → ∃ h', outb 0x1f7 IDE_CMD_READ h = Done tt h' ∧
    command_of h' = Busy (Request (drive h) (lba h) None) ∧ kept h h';
  outb_write h : ready h → lag h = O → one_sector h → ∃ h', outb 0x1f7 IDE_CMD_WRITE h = Done tt h' ∧
    command_of h' = NeedData (drive h) (lba h) ∧ kept h h';
  outsl_write bs d s h : command_of h = NeedData d s → lag h = O → length bs = Z.to_nat SECTOR_SIZE → ∃ h', outsl 0x1f0 bs h = Done tt h' ∧
    command_of h' = Busy (Request d s (Some bs)) ∧ kept h h';
  insl_read d s h : command_of h = Finished (Request d s None) false → lag h = O → ∃ h',
    insl 0x1f0 (Z.to_nat SECTOR_SIZE) h = Done (sectors h d s) h' ∧ command_of h' = command_of h ∧ kept h h';
  finish_busy failed r h : command_of h = Busy r → ∃ h', finish failed h = Some h' ∧ command_of h' = Finished r failed ∧
    latched h' 0x1f6 = latched h 0x1f6 ∧ sectors h' = written failed r (sectors h) ∧ present h' = present h;
  finish_quiet failed h : quiet h → finish failed h = None
}.

(** Not a promise of ATA, where the host has to wait until the drive is no
    longer busy and asks for the data of a write: the drive asks for them at
    once. [idestart] does not wait. *)
Class AtaPrompt (H : Type) `{Ata H} : Prop := {
  write_prompt h h' : ready h → lag h = O → one_sector h → outb 0x1f7 IDE_CMD_WRITE h = Done tt h' → lag h' = O
}.

(** ** The driver *)

Record buf := Buf {
  b_flags : Z;
  b_dev : Z;
  b_blockno : Z;
  b_data : block;
  b_qnext : option nat;       (* disk queue *)
  b_locked : bool             (* [holdingsleep] of the caller *)
}.
#[export] Instance buf_inhabited : Inhabited buf := populate (Buf 0 0 0 [] None false).
Definition set_flags (v : Z) (b : buf) : buf := Buf v (b_dev b) (b_blockno b) (b_data b) (b_qnext b) (b_locked b).
Definition set_data (v : block) (b : buf) : buf := Buf (b_flags b) (b_dev b) (b_blockno b) v (b_qnext b) (b_locked b).
Definition set_qnext (v : option nat) (b : buf) : buf := Buf (b_flags b) (b_dev b) (b_blockno b) (b_data b) v (b_locked b).

Section driver.
  Context {H : Type} `{Ata H}.

(** [i_woken] are the buffers on whose address [wakeup] was called. *)
Record ide := Ide {
  i_bufs : list buf;
  i_queue : option nat;
  i_havedisk1 : Z;
  i_hw : H;
  i_woken : list nat
}.

Definition hw {A} (m : M H A) : M ide A :=
  zoom i_hw (λ h s, Ide (i_bufs s) (i_queue s) (i_havedisk1 s) h (i_woken s)) m.
Definition getb (b : nat) : M ide buf := λ s, Done (i_bufs s !!! b) s.
Definition updb (b : nat) (f : buf → buf) : M ide unit :=
  mmodify (λ s, Ide (alter f b (i_bufs s)) (i_queue s) (i_havedisk1 s) (i_hw s) (i_woken s)).
Definition set_queue (q : option nat) : M ide unit :=
  mmodify (λ s, Ide (i_bufs s) q (i_havedisk1 s) (i_hw s) (i_woken s)).
Definition wakeup (b : nat) : M ide unit :=
  mmodify (λ s, Ide (i_bufs s) (i_queue s) (i_havedisk1 s) (i_hw s) (i_woken s ++ [b])).

(** Wait for IDE disk to become ready: [fuel] polls. *)
Fixpoint idewait (fuel : nat) (checkerr : bool) : M ide Z :=
  match fuel with
  | O => λ _, Diverge
  | S fuel =>
    r ← hw (inb 0x1f7);
    if decide (Z.land r (Z.lor IDE_BSY IDE_DRDY) ≠ IDE_DRDY) then idewait fuel checkerr else
    mret (if checkerr && negb (Z.land r (Z.lor IDE_DF IDE_ERR) =? 0) then -1 else 0)
  end.

(** Is disk 1 present? *)
Fixpoint probe (n : nat) : M ide unit :=
  match n with
  | O => mret tt
  | S n =>
    r ← hw (inb 0x1f7);
    if decide (r ≠ 0) then mmodify (λ s, Ide (i_bufs s) (i_queue s) 1 (i_hw s) (i_woken s)) else probe n
  end.
Definition ideinit (fuel : nat) : M ide unit :=
  idewait fuel false;;
  hw (outb 0x1f6 (Z.lor 0xe0 (Z.shiftl 1 4)));;
  probe 1000;;
  hw (outb 0x1f6 (Z.lor 0xe0 (Z.shiftl 0 4))).

(** Start the request for b. *)
Definition idestart (fuel : nat) (b : nat) : M ide unit :=
  x ← getb b;
  assert_or_panic (b_blockno x <? FSSIZE) "incorrect blockno";;
  let sector_per_block := BSIZE / SECTOR_SIZE in
  let sector := b_blockno x * sector_per_block in
  let read_cmd := if decide (sector_per_block = 1) then IDE_CMD_READ else IDE_CMD_RDMUL in
  let write_cmd := if decide (sector_per_block = 1) then IDE_CMD_WRITE else IDE_CMD_WRMUL in
  assert_or_panic (sector_per_block <=? 7) "idestart";;
  idewait fuel false;;
  hw (outb 0x3f6 0);;
  hw (outb 0x1f2 sector_per_block);;
  hw (outb 0x1f3 (Z.land sector 0xff));;
  hw (outb 0x1f4 (Z.land (Z.shiftr sector 8) 0xff));;
  hw (outb 0x1f5 (Z.land (Z.shiftr sector 16) 0xff));;
  hw (outb 0x1f6 (Z.lor (Z.lor 0xe0 (Z.shiftl (Z.land (b_dev x) 1) 4)) (Z.land (Z.shiftr sector 24) 0x0f)));;
  if decide (Z.land (b_flags x) B_DIRTY ≠ 0) then
    hw (outb 0x1f7 write_cmd);;
    hw (outsl 0x1f0 (b_data x))
  else hw (outb 0x1f7 read_cmd).

(** Interrupt handler. *)
Definition ideintr (fuel : nat) : M ide unit :=
  s ← mget;
  match i_queue s with
  | None => mret tt
  | Some b =>
    x ← getb b;
    set_queue (b_qnext x);;
    (if decide (Z.land (b_flags x) B_DIRTY = 0) then
      r ← idewait fuel true;
      if decide (0 ≤ r) then bs ← hw (insl 0x1f0 (Z.to_nat BSIZE)); updb b (set_data bs) else mret tt
    else mret tt);;
    updb b (λ x, set_flags (Z.land (Z.lor (b_flags x) B_VALID) (Z.lnot B_DIRTY)) x);;
    wakeup b;;
    match b_qnext x with
    | Some n => idestart fuel n
    | None => mret tt
    end
  end.

(** The loop that finds the end of the queue: the buffer whose [qnext] is null,
    or nothing if the queue is empty. *)
Fixpoint queue_end (fuel : nat) (pp : option nat) (q : option nat) : M ide (option nat) :=
  match q with
  | None => mret pp
  | Some b =>
    match fuel with
    | O => λ _, Diverge
    | S fuel => x ← getb b; queue_end fuel (Some b) (b_qnext x)
    end
  end.

(** Sync buf with disk: the request is queued, and started if it is the first. *)
Definition iderw_start (fuel : nat) (b : nat) : M ide unit :=
  x ← getb b;
  assert_or_panic (b_locked x) "iderw: buf not locked";;
  assert_or_panic (negb (Z.land (b_flags x) (Z.lor B_VALID B_DIRTY) =? B_VALID)) "iderw: nothing to do";;
  s ← mget;
  assert_or_panic (negb (negb (b_dev x =? 0) && (i_havedisk1 s =? 0))) "iderw: ide disk 1 not present";;
  updb b (set_qnext None);;
  s ← mget;
  pp ← queue_end (length (i_bufs s)) None (i_queue s);
  match pp with
  | None => set_queue (Some b)
  | Some l => updb l (set_qnext (Some b))
  end;;
  s ← mget;
  if decide (i_queue s = Some b) then idestart fuel b else mret tt.

(** Wait for request to finish: [iderw] returns, or sleeps until it is woken. *)
Definition iderw_done (b : nat) : M ide bool :=
  x ← getb b;
  mret (bool_decide (Z.land (b_flags x) (Z.lor B_VALID B_DIRTY) = B_VALID)).
End driver.

(** ** The ports *)

(** The request that a buffer asks for. *)
Definition dirty (x : buf) : bool := negb (Z.land (b_flags x) B_DIRTY =? 0).
Definition asked (x : buf) : request :=
  Request (Z.land (b_dev x) 1) (b_blockno x) (if dirty x then Some (b_data x) else None).

(** A buffer that has to be read or written, of a block of a disk that is
    there. *)
Definition wants (havedisk1 : Z) (x : buf) : Prop :=
  Z.land (b_flags x) (Z.lor B_VALID B_DIRTY) ≠ B_VALID ∧ (0 ≤ b_blockno x < FSSIZE) ∧
  length (b_data x) = Z.to_nat BSIZE ∧ (b_dev x = 0 ∨ havedisk1 ≠ 0).
#[export] Instance wants_dec havedisk1 x : Decision (wants havedisk1 x).
Proof. unfold wants. apply _. Defined.

(** What the address registers say after [idestart] has written them. *)
Definition addressed (sector d : Z) : bool :=
  let r6 := u8 (Z.lor (Z.lor 0xe0 (Z.shiftl d 4)) (Z.land (Z.shiftr sector 24) 0x0f)) in
  bool_decide (lba_of (u8 (Z.land sector 0xff)) (u8 (Z.land (Z.shiftr sector 8) 0xff)) (u8 (Z.land (Z.shiftr sector 16) 0xff)) r6 = sector)
  && bool_decide (drive_of r6 = d).

Lemma addressed_all : forallb (λ s, forallb (addressed s) [0; 1]) (seqZ 0 FSSIZE) = true.
Proof. vm_compute. reflexivity. Qed.

Lemma addressed_ok sector d : 0 ≤ sector < FSSIZE → d = 0 ∨ d = 1 → addressed sector d = true.
Proof.
  intros Hs Hd. pose proof addressed_all as Hall. rewrite forallb_forall in Hall.
  specialize (Hall sector (proj1 (list_elem_of_In _ _) (proj2 (elem_of_seqZ 0 FSSIZE sector) ltac:(lia)))). rewrite forallb_forall in Hall.
  apply Hall. destruct Hd as [->| ->]; simpl; auto.
Qed.

Lemma land_1 d : Z.land d 1 = 0 ∨ Z.land d 1 = 1.
Proof. change (Z.land d 1) with (Z.land d (Z.ones 1)). rewrite Z.land_ones by lia. pose proof (Z.mod_pos_bound d (2 ^ 1) ltac:(lia)). lia. Qed.

Lemma busy_not_ready r : Z.land r IDE_BSY = IDE_BSY → Z.land r (Z.lor IDE_BSY IDE_DRDY) ≠ IDE_DRDY.
Proof.
  intros Hst Hd. apply (f_equal (λ x, Z.land x IDE_BSY)) in Hd. rewrite <-Z.land_assoc in Hd.
  change (Z.land (Z.lor IDE_BSY IDE_DRDY) IDE_BSY) with IDE_BSY in Hd. by rewrite Hst in Hd.
Qed.

Section ports.
  Context {H : Type} `{HA : Ata H} `{HL : !AtaLaws H} `{HP : !AtaPrompt H}.
  Implicit Types (s : ide (H := H)) (h : H).

Definition with_hw h s : ide := Ide (i_bufs s) (i_queue s) (i_havedisk1 s) h (i_woken s).

Lemma hw_run {A} (m : M H A) s a h : m (i_hw s) = Done a h → hw m s = Done a (with_hw h s).
Proof. intros Hm. unfold hw, zoom. by rewrite Hm. Qed.

Lemma hw_same {A} (m : M H A) s a : m (i_hw s) = Done a (i_hw s) → hw m s = Done a s.
Proof. intros Hm. rewrite (hw_run _ _ _ _ Hm). by destruct s. Qed.

Lemma same_refl h : same h h.
Proof. done. Qed.

Lemma same_trans h1 h2 h3 : same h1 h2 → same h2 h3 → same h1 h3.
Proof. unfold same. intros (? & ? & ? & ?) (? & ? & ? & ?). split_and!; congruence. Qed.

Lemma same_ready h h' : same h h' → ready h → ready h'.
Proof. unfold same, ready, quiet, drive. intros (-> & -> & _ & ->). done. Qed.

Lemma same_errored h h' : same h h' → errored h' = errored h.
Proof. unfold same, errored. by intros (_ & -> & _). Qed.

(** The loop ends when the drive is no longer busy. *)
Lemma idewait_ready fuel checkerr s : (lag (i_hw s) < fuel)%nat → ready (i_hw s) →
  ∃ h, idewait fuel checkerr s = Done (if checkerr && errored (i_hw s) then -1 else 0) (with_hw h s) ∧ same (i_hw s) h ∧ lag h = O.
Proof.
  revert s. induction fuel as [|fuel IH]; intros s Hf Hr; [lia|]. cbn [idewait]. destruct (decide (lag (i_hw s) = O)) as [Hz|Hz].
  - destruct (status_ready _ Hr Hz) as (r & Hin & Hst & Herr). rewrite (run_bind _ _ _ _ _ (hw_run _ _ _ _ Hin)).
    rewrite decide_False by (rewrite Hst; tauto). exists (i_hw s). by rewrite Herr, negb_involutive.
  - destruct (status_busy _ Hr Hz) as (r & h1 & Hin & Hst & Hlag & Hsame). rewrite (run_bind _ _ _ _ _ (hw_run _ _ _ _ Hin)).
    rewrite decide_True by exact (busy_not_ready _ Hst).
    destruct (IH (with_hw h1 s)) as (h & Hrun & Hs & Hl); [simpl; lia|exact (same_ready _ _ Hsame Hr)|]. exists h. rewrite Hrun. cbn [i_hw with_hw].
    rewrite (same_errored _ _ Hsame). split; [done|]. split; [exact (same_trans _ _ _ Hsame Hs)|done].
Qed.

(** A run of register writes. *)
Lemma latch_bind {A} p v (k : unit → M ide A) s : quiet (i_hw s) → lag (i_hw s) = O → p ∈ [0x3f6; 0x1f2; 0x1f3; 0x1f4; 0x1f5; 0x1f6] →
  ∃ h, (hw (outb p v) ≫= k) s = k tt (with_hw h s) ∧ (∀ q, latched h q = if decide (p = q) then u8 v else latched (i_hw s) q) ∧
    command_of h = command_of (i_hw s) ∧ sectors h = sectors (i_hw s) ∧ present h = present (i_hw s) ∧ lag h = O.
Proof.
  intros Hq Hl Hp. destruct (outb_latch p v _ Hq Hl Hp) as (h & Hout & Hh). exists h. split; [|done].
  by rewrite (run_bind _ _ _ _ _ (hw_run _ _ _ _ Hout)).
Qed.

(** The address registers are programmed. *)
Lemma address_run {A} (k : M ide A) sector d s : quiet (i_hw s) → lag (i_hw s) = O → 0 ≤ sector < FSSIZE → d = 0 ∨ d = 1 →
  ∃ h, (hw (outb 0x3f6 0);; hw (outb 0x1f2 1);; hw (outb 0x1f3 (Z.land sector 0xff));; hw (outb 0x1f4 (Z.land (Z.shiftr sector 8) 0xff));;
      hw (outb 0x1f5 (Z.land (Z.shiftr sector 16) 0xff));;
      hw (outb 0x1f6 (Z.lor (Z.lor 0xe0 (Z.shiftl d 4)) (Z.land (Z.shiftr sector 24) 0x0f)));; k) s = k (with_hw h s) ∧
    quiet h ∧ one_sector h ∧ lba h = sector ∧ drive h = d ∧ sectors h = sectors (i_hw s) ∧ present h = present (i_hw s) ∧ lag h = O.
Proof.
  intros Hq Hl0 Hs Hd. pose proof (addressed_ok sector d Hs Hd) as [Hl Hr]%andb_true_iff. apply bool_decide_eq_true in Hl, Hr.
  do 6 (match goal with |- context [(hw (outb ?p ?v) ≫= ?k) ?s0] =>
    let h := fresh "h" in let L := fresh "HL" in let C := fresh "HC" in let E := fresh "HE" in
    destruct (latch_bind p v k s0 Hq Hl0 ltac:(set_solver)) as (h & E & L & C & ? & ? & ?); rewrite E; clear E; simpl in L, C;
    assert (quiet h) by (revert Hq; unfold quiet; simpl; by rewrite C); clear Hq C Hl0; rename select (quiet h) into Hq; rename select (lag h = O) into Hl0 end).
  simpl in *. eexists. split; [reflexivity|]. unfold one_sector, lba, drive. split; [done|].
  repeat match goal with L : ∀ q, latched ?h q = _ |- context [latched ?h ?p] => rewrite !L; repeat (rewrite decide_False by done) end.
  split_and!; try congruence; by repeat case_decide.
Qed.

(** The command that [idestart] gives. *)
Lemma command_run x s : ready (i_hw s) → lag (i_hw s) = O → one_sector (i_hw s) → length (b_data x) = Z.to_nat BSIZE →
  ∃ h, (if decide (Z.land (b_flags x) B_DIRTY ≠ 0) then hw (outb 0x1f7 IDE_CMD_WRITE);; hw (outsl 0x1f0 (b_data x))
        else hw (outb 0x1f7 IDE_CMD_READ)) s = Done tt (with_hw h s) ∧
    command_of h = Busy (Request (drive (i_hw s)) (lba (i_hw s)) (if dirty x then Some (b_data x) else None)) ∧ kept (i_hw s) h.
Proof.
  intros Hr Hl H1 Hlen. unfold dirty. destruct (Z.eqb_spec (Z.land (b_flags x) B_DIRTY) 0) as [Hz|Hz].
  - rewrite decide_False by tauto. destruct (outb_read _ Hr Hl H1) as (h & Hout & Hc & Hk). exists h. split; [by apply hw_run|done].
  - rewrite decide_True by done. destruct (outb_write _ Hr Hl H1) as (h & Hout & Hc & Hk).
    rewrite (run_bind _ _ _ _ _ (hw_run _ _ _ _ Hout)). destruct (outsl_write _ _ _ _ Hc (write_prompt _ _ Hr Hl H1 Hout) Hlen) as (h' & Hout' & Hc' & Hk').
    exists h'. split; [exact (hw_run _ (with_hw h s) _ _ Hout')|]. split; [done|]. unfold kept in *. destruct_and!. split_and!; congruence.
Qed.

(** [idestart] sends the request of the buffer to an idle controller. *)
Lemma idestart_run fuel b x s : (polls < fuel)%nat → ready (i_hw s) → present (i_hw s) (Z.land (b_dev x) 1) = true →
  i_bufs s !! b = Some x → 0 ≤ b_blockno x < FSSIZE → length (b_data x) = Z.to_nat BSIZE →
  ∃ h, idestart fuel b s = Done tt (with_hw h s) ∧ command_of h = Busy (asked x) ∧ drive h = Z.land (b_dev x) 1 ∧
    sectors h = sectors (i_hw s) ∧ present h = present (i_hw s).
Proof.
  intros Hf Hr Hpr Hx Hb Hlen. unfold idestart. rewrite (run_bind (getb b) _ _ x s) by (unfold getb; by rewrite (list_lookup_total_correct _ _ _ Hx)).
  rewrite (run_bind _ _ _ tt s) by (by rewrite (proj2 (Z.ltb_lt _ _) (proj2 Hb))). cbv zeta.
  change (BSIZE / SECTOR_SIZE) with 1. rewrite !(decide_True (P := 1 = 1)) by done. rewrite Z.mul_1_r. rewrite (run_bind _ _ _ tt s) by done.
  destruct (idewait_ready fuel false s) as (h0 & Hwait & Hsame & Hl0); [pose proof (lag_polls (i_hw s)); lia|done|].
  rewrite (run_bind _ _ _ _ _ Hwait). destruct (same_ready _ _ Hsame Hr) as [Hq _]. destruct Hsame as (_ & _ & Hsec0 & Hpr0).
  destruct (address_run (if decide (Z.land (b_flags x) B_DIRTY ≠ 0) then hw (outb 0x1f7 IDE_CMD_WRITE);; hw (outsl 0x1f0 (b_data x))
    else hw (outb 0x1f7 IDE_CMD_READ)) (b_blockno x) (Z.land (b_dev x) 1) (with_hw h0 s) Hq Hl0 Hb (land_1 _)) as (h & Hrun & Hqh & H1 & Hl & Hd & Hs & Hp & Hlag).
  cbn [i_hw with_hw] in Hs, Hp. rewrite Hsec0 in Hs. rewrite Hpr0 in Hp. rewrite Hrun. change (with_hw h (with_hw h0 s)) with (with_hw h s). destruct (command_run x (with_hw h s)) as (h' & Hc & Hcmd & Hk1 & Hk2 & Hk3); [|done..|].
  { split; [done|]. simpl. by rewrite Hd, Hp. }
  exists h'. rewrite Hc. split; [done|]. simpl in *. rewrite Hcmd, Hl, Hd. split; [done|]. unfold drive in *. rewrite Hk1. split_and!; congruence.
Qed.

(** ** Probing for disk 1 *)

Lemma probe_run n s : quiet (i_hw s) → lag (i_hw s) = O → drive (i_hw s) = 1 →
  probe n s = Done tt (Ide (i_bufs s) (i_queue s) (if present (i_hw s) 1 && negb (n =? 0)%nat then 1 else i_havedisk1 s) (i_hw s) (i_woken s)).
Proof.
  intros Hq Hl Hd. induction n as [|n IH]; [rewrite andb_false_r; by destruct s|]. cbn [probe]. destruct (present (i_hw s) 1) eqn:Hp.
  - destruct (status_ready (i_hw s)) as (r & Hin & Hst & _); [split; [done|by rewrite Hd]|done|]. rewrite (run_bind _ _ _ _ _ (hw_same _ _ _ Hin)).
    rewrite decide_True; [done|]. intros ->. done.
  - assert (Hin : inb 0x1f7 (i_hw s) = Done 0 (i_hw s)) by (apply status_absent; by rewrite Hd).
    rewrite (run_bind _ _ _ _ _ (hw_same _ _ _ Hin)). rewrite decide_False by tauto. rewrite IH. by destruct s.
Qed.

(** [ideinit] finds out whether there is a disk 1, and selects disk 0. *)
Lemma ideinit_run fuel s : (polls < fuel)%nat → ready (i_hw s) → present (i_hw s) 0 = true →
  ∃ h, ideinit fuel s = Done tt (Ide (i_bufs s) (i_queue s) (if present (i_hw s) 1 then 1 else i_havedisk1 s) h (i_woken s)) ∧
    ready h ∧ sectors h = sectors (i_hw s) ∧ present h = present (i_hw s).
Proof.
  intros Hf Hr H0. unfold ideinit. destruct (idewait_ready fuel false s) as (h0 & Hwait & Hsame & Hl0); [pose proof (lag_polls (i_hw s)); lia|done|].
  rewrite (run_bind _ _ _ _ _ Hwait). destruct (same_ready _ _ Hsame Hr) as [Hq _]. destruct Hsame as (_ & _ & Hsec0 & Hpr0).
  match goal with |- context [(hw (outb ?p ?v) ≫= ?k) ?s0] => destruct (latch_bind p v k s0 Hq Hl0 ltac:(set_solver)) as (h & E & L & C & Hs & Hp & Hlh) end.
  cbn [i_hw with_hw] in Hs, Hp, C. rewrite Hsec0 in Hs. rewrite Hpr0 in Hp. rewrite E. clear E. assert (Hqh : quiet h) by (revert Hq; unfold quiet; by rewrite C).
  rewrite (run_bind _ _ _ _ _ (probe_run 1000 (with_hw h s) Hqh Hlh ltac:(unfold drive; cbn [i_hw with_hw]; by rewrite L))).
  cbn [i_hw with_hw]. match goal with |- context [hw (outb ?p ?v) ?s0] => destruct (outb_latch p v h Hqh Hlh ltac:(set_solver)) as (h' & E & L' & C' & Hs' & Hp' & _);
    exists h'; rewrite (hw_run _ s0 _ _ E) end.
  change (negb (1000 =? 0)%nat) with true. rewrite andb_true_r. split; [by rewrite Hp|]. split; [|split; congruence].
  split; [revert Hqh; unfold quiet; by rewrite C'|]. unfold drive. rewrite L'. rewrite decide_True by done. by rewrite Hp', Hp.
Qed.
End ports.

(** ** The queue *)

Fixpoint linked (bs : list buf) (q : option nat) (l : list nat) : Prop :=
  match l with
  | [] => q = None
  | b :: l => q = Some b ∧ ∃ x, bs !! b = Some x ∧ linked bs (b_qnext x) l
  end.

Lemma linked_lt bs q l b : linked bs q l → b ∈ l → (b < length bs)%nat.
Proof.
  revert q. induction l as [|a l IH]; intros q Hl Hb; [by apply elem_of_nil in Hb|]. destruct Hl as (_ & x & Hx & Hl).
  apply elem_of_cons in Hb as [->|Hb]; [by eapply lookup_lt_Some|by eapply IH].
Qed.

Lemma linked_alter bs q l b f : b ∉ l → linked bs q l → linked (alter f b bs) q l.
Proof.
  revert q. induction l as [|a l IH]; intros q Hb Hl; [done|]. destruct Hl as (-> & x & Hx & Hl). split; [done|]. exists x.
  split; [|apply IH; [set_solver|done]]. rewrite list_lookup_alter, decide_False; [done|]. set_solver.
Qed.

Lemma queue_length bs q l : linked bs q l → NoDup l → (length l ≤ length bs)%nat.
Proof.
  intros Hl Hn. rewrite <-(length_seq (length bs) 0). apply submseteq_length, NoDup_submseteq; [done|].
  intros b Hb. apply elem_of_seq. pose proof (linked_lt _ _ _ _ Hl Hb). lia.
Qed.

(** A buffer is linked at the end. *)
Lemma linked_snoc bs q l a b : NoDup (l ++ [a]) → b ∉ l ++ [a] → linked bs q (l ++ [a]) →
  (∃ y, bs !! b = Some y ∧ b_qnext y = None) → linked (alter (set_qnext (Some b)) a bs) q ((l ++ [a]) ++ [b]).
Proof.
  revert q. induction l as [|c l IH]; intros q Hn Hb Hl (y & Hy & Hnone); simpl in *.
  - destruct Hl as (-> & x & Hx & _). split; [done|]. exists (set_qnext (Some b) x). rewrite list_lookup_alter, decide_True by done.
    rewrite Hx. split; [done|]. split; [done|]. exists y. rewrite list_lookup_alter, decide_False by set_solver. by split.
  - destruct Hl as (-> & x & Hx & Hl). split; [done|]. exists x. apply NoDup_cons in Hn as [Hc Hn].
    rewrite list_lookup_alter, decide_False by set_solver. split; [done|]. apply IH; [done|set_solver|done|by exists y].
Qed.

(** The buffers but for their links. *)
Definition unlinked (bs : list buf) : list buf := set_qnext None <$> bs.

Lemma unlinked_alter bs b v : unlinked (alter (set_qnext v) b bs) = unlinked bs.
Proof.
  unfold unlinked. apply list_eq. intros i. rewrite !list_lookup_fmap, list_lookup_alter. case_decide; [|done]. subst.
  by destruct (bs !! i).
Qed.

Lemma unlinked_wants bs bs' b x : unlinked bs' = unlinked bs → bs !! b = Some x → ∃ x', bs' !! b = Some x' ∧ (∀ h1, wants h1 x' ↔ wants h1 x) ∧ asked x' = asked x.
Proof.
  intros Hu Hx. assert (Hl : unlinked bs' !! b = Some (set_qnext None x)) by (rewrite Hu; unfold unlinked; by rewrite list_lookup_fmap, Hx).
  unfold unlinked in Hl. rewrite list_lookup_fmap in Hl. destruct (bs' !! b) as [x'|]; [|done]. exists x'. split; [done|].
  injection Hl as H1 H2 H3 H4 H5. unfold wants, asked, dirty. by rewrite H1, H2, H3, H4.
Qed.

(** *** Completion *)

(** The first request is done: a write has changed its sector, a read the
    buffer's data, unless the drive failed. The buffer is marked as if it had
    not. *)
Definition synced (failed : bool) (disk : Z → Z → block) (x : buf) : buf :=
  set_flags (Z.land (Z.lor (b_flags x) B_VALID) (Z.lnot B_DIRTY))
    (if dirty x || failed then x else set_data (disk (Z.land (b_dev x) 1) (b_blockno x)) x).
Definition stored (failed : bool) (x : buf) (disk : Z → Z → block) : Z → Z → block :=
  written failed (asked x) disk.

Lemma synced_done failed disk x : Z.land (b_flags (synced failed disk x)) (Z.lor B_VALID B_DIRTY) = B_VALID.
Proof.
  unfold synced. cbn [b_flags set_flags]. apply Z.bits_inj'. intros i Hi. rewrite !Z.land_spec, !Z.lor_spec, Z.lnot_spec by lia.
  destruct (Z.testbit B_VALID i) eqn:Hv, (Z.testbit B_DIRTY i) eqn:Hd; rewrite ?orb_true_r, ?andb_false_r, ?andb_true_r, ?orb_false_r; try done.
  exfalso. assert (Hi1 : i = 1) by (destruct (Z.eq_dec i 1) as [->|Hne]; [done|]; change B_VALID with (2 ^ 1) in Hv; by rewrite Z.pow2_bits_false in Hv by lia).
  by subst.
Qed.

Lemma synced_stored failed disk x : synced failed (stored failed x disk) x = synced failed disk x.
Proof. unfold synced, stored, written, asked. simpl. by destruct (dirty x), failed. Qed.

Section queue.
  Context {H : Type} `{HA : Ata H} `{HL : !AtaLaws H} `{HP : !AtaPrompt H}.
  Implicit Types (s : ide (H := H)) (h : H).

(** The driver's invariant: the queue holds distinct requests, the controller
    works for the first of them, and [havedisk1] is right. *)
Record ide_inv (s : ide) (q : list nat) : Prop := {
  iv_link : linked (i_bufs s) (i_queue s) q;
  iv_nodup : NoDup q;
  iv_wants : ∀ b x, b ∈ q → i_bufs s !! b = Some x → wants (i_havedisk1 s) x;
  iv_hw : match q with
    | [] => quiet (i_hw s)
    | b :: _ => ∃ x, i_bufs s !! b = Some x ∧ command_of (i_hw s) = Busy (asked x)
    end;
  iv_drive : present (i_hw s) (drive (i_hw s)) = true;
  iv_disks : present (i_hw s) 0 = true ∧ (i_havedisk1 s ≠ 0 → present (i_hw s) 1 = true)
}.

Lemma queue_end_run fuel pp q l s : linked (i_bufs s) q l → (length l ≤ fuel)%nat →
  queue_end fuel pp q s = Done (match last l with Some b => Some b | None => pp end) s.
Proof.
  revert fuel pp q. induction l as [|b l IH]; intros fuel pp q Hl Hf; [simpl in Hl; subst q; by destruct fuel|].
  destruct Hl as (-> & x & Hx & Hl). destruct fuel as [|fuel]; [simpl in Hf; lia|]. cbn [queue_end].
  rewrite (run_bind (getb b) _ _ x s) by (unfold getb; by rewrite (list_lookup_total_correct _ _ _ Hx)).
  rewrite (IH fuel (Some b)) by (done || simpl in Hf; lia). rewrite last_cons. by destruct (last l).
Qed.

Lemma wants_present s q x : ide_inv s q → wants (i_havedisk1 s) x → present (i_hw s) (Z.land (b_dev x) 1) = true.
Proof.
  intros Hinv (_ & _ & _ & Hd). destruct (iv_disks _ _ Hinv) as [H0 H1]. destruct Hd as [->|Hd]; [done|].
  destruct (land_1 (b_dev x)) as [->| ->]; [done|by apply H1].
Qed.

(** A request is queued; it is started if the controller is idle. *)
Lemma iderw_start_spec fuel s q b x : (polls < fuel)%nat → ide_inv s q → b ∉ q → i_bufs s !! b = Some x → b_locked x = true →
  wants (i_havedisk1 s) x →
  ∃ s', iderw_start fuel b s = Done tt s' ∧ ide_inv s' (q ++ [b]) ∧ unlinked (i_bufs s') = unlinked (i_bufs s) ∧
    sectors (i_hw s') = sectors (i_hw s) ∧ i_woken s' = i_woken s ∧ i_havedisk1 s' = i_havedisk1 s.
Proof.
  intros Hf Hinv Hb Hx Hlock Hw. pose proof Hinv as [Hlink Hnd Hwants Hhw Hdr Hds]. unfold iderw_start.
  rewrite (run_bind (getb b) _ _ x s) by (unfold getb; by rewrite (list_lookup_total_correct _ _ _ Hx)).
  rewrite (run_bind _ _ _ tt s) by (by rewrite Hlock).
  rewrite (run_bind _ _ _ tt s) by (by rewrite (proj2 (Z.eqb_neq _ _) (proj1 Hw))).
  rewrite (run_bind mget _ _ s s) by done.
  rewrite (run_bind _ _ _ tt s).
  2:{ destruct Hw as (_ & _ & _ & [->|Hd]); [done|]. rewrite (proj2 (Z.eqb_neq _ _) Hd). by rewrite andb_false_r. }
  set (bs1 := alter (set_qnext None) b (i_bufs s)). set (s1 := Ide bs1 (i_queue s) (i_havedisk1 s) (i_hw s) (i_woken s)).
  rewrite (run_bind (updb b (set_qnext None)) _ _ tt s1) by done. rewrite (run_bind mget _ _ s1 s1) by done.
  assert (Hlink1 : linked bs1 (i_queue s) q) by by apply linked_alter.
  rewrite (run_bind _ _ _ _ _ (queue_end_run _ None _ q s1 Hlink1 (queue_length _ _ _ Hlink1 Hnd))).
  assert (Hx1 : ∃ y, bs1 !! b = Some y ∧ b_qnext y = None).
  { exists (set_qnext None x). unfold bs1. by rewrite list_lookup_alter, decide_True, Hx by done. }
  assert (Hu1 : unlinked bs1 = unlinked (i_bufs s)) by apply unlinked_alter.
  assert (Hnd' : NoDup (q ++ [b])) by (apply NoDup_app; split_and!; [done|set_solver|apply NoDup_singleton]).
  assert (Hkeep : ∀ bs, unlinked bs = unlinked (i_bufs s) → ∀ c y, c ∈ q ++ [b] → bs !! c = Some y → wants (i_havedisk1 s) y).
  { intros bs Hu c y Hc Hy. destruct (unlinked_wants _ _ c y (eq_sym Hu) Hy) as (y' & Hy' & Hwy & _). apply Hwy.
    apply elem_of_app in Hc as [Hc| ->%list_elem_of_singleton]; [by eapply Hwants|congruence]. }
  destruct q as [|a0 q0] using rev_ind; [|clear IHq0].
  - set (s2 := Ide bs1 (Some b) (i_havedisk1 s) (i_hw s) (i_woken s)). rewrite (run_bind _ _ s1 tt s2) by done.
    rewrite (run_bind mget _ _ s2 s2) by done. rewrite decide_True by done. destruct Hx1 as (y & Hy & Hyn).
    assert (Hwy : wants (i_havedisk1 s) y) by (apply (Hkeep bs1 Hu1 b y); [by left|done]). pose proof Hwy as (_ & Hbn & Hdl & _).
    pose proof (wants_present _ _ _ Hinv Hwy) as Hp.
    destruct (idestart_run fuel b y s2 Hf (conj Hhw Hdr) Hp Hy Hbn Hdl) as (h & Hr & Hc & Hd & Hs & Hpr).
    eexists. split; [exact Hr|]. split_and!; [|done..]. constructor; simpl; [|done|exact (Hkeep bs1 Hu1)|by exists y|by rewrite Hd, Hpr|by rewrite Hpr].
    split; [done|]. exists y. split; [done|]. by rewrite Hyn.
  - rewrite last_snoc. set (s2 := Ide (alter (set_qnext (Some b)) a0 bs1) (i_queue s) (i_havedisk1 s) (i_hw s) (i_woken s)).
    rewrite (run_bind _ _ s1 tt s2) by done. rewrite (run_bind mget _ _ s2 s2) by done.
    assert (Hu2 : unlinked (i_bufs s2) = unlinked (i_bufs s)) by (simpl; by rewrite unlinked_alter).
    rewrite decide_False. 2:{ simpl. intros Hq. destruct q0 as [|c q0]; simpl in Hlink; destruct Hlink as [Hq' _]; set_solver. }
    exists s2. split; [done|]. split_and!; [|done..]. constructor; simpl; [by apply linked_snoc|done|exact (Hkeep _ Hu2)| |done..].
    destruct q0 as [|c q0]; simpl in Hhw |- *; destruct Hhw as (z & Hz & Hc); destruct (unlinked_wants _ _ _ z Hu2 Hz) as (z' & Hz' & _ & Ha);
      exists z'; (split; [exact Hz'|by rewrite Ha]).
Qed.

(** The handler up to the start of the next request. *)
Lemma ideintr_first fuel failed s b x h : (polls < fuel)%nat → i_queue s = Some b → i_bufs s !! b = Some x →
  command_of h = Finished (asked x) failed → present h (drive h) = true →
  ∃ h', ideintr fuel (with_hw h s) =
      (match b_qnext x with Some n => idestart fuel n | None => mret tt end : M ide unit)
        (Ide (<[b := synced failed (sectors h) x]> (i_bufs s)) (b_qnext x) (i_havedisk1 s) h' (i_woken s ++ [b])) ∧
    command_of h' = command_of h ∧ kept h h'.
Proof.
  intros Hf Hq Hx Hcmd Hp. assert (Hrdy : ready h) by (split; [unfold quiet; by rewrite Hcmd|done]).
  unfold ideintr. rewrite (run_bind mget _ _ (with_hw h s) (with_hw h s)) by done. cbn [with_hw i_queue]. rewrite Hq.
  rewrite (run_bind (getb b) _ _ x (with_hw h s)) by (unfold getb; simpl; by rewrite (list_lookup_total_correct _ _ _ Hx)).
  set (s1 := Ide (i_bufs s) (b_qnext x) (i_havedisk1 s) h (i_woken s)). rewrite (run_bind (set_queue _) _ _ tt s1) by done.
  set (z := if dirty x || failed then x else set_data (sectors h (Z.land (b_dev x) 1) (b_blockno x)) x).
  match goal with |- context [(?m ≫= _) s1] => assert (Hm : ∃ h', m s1 = Done tt (Ide (<[b := z]> (i_bufs s)) (b_qnext x) (i_havedisk1 s) h' (i_woken s))
    ∧ command_of h' = command_of h ∧ kept h h') end.
  { destruct (dirty x) eqn:Hd; unfold dirty in Hd.
    - exists h. apply negb_true_iff, Z.eqb_neq in Hd. rewrite decide_False by done. unfold z. simpl. by rewrite list_insert_id.
    - pose proof Hd as Hz. apply negb_false_iff, Z.eqb_eq in Hz. rewrite decide_True by done.
      destruct (idewait_ready fuel true s1) as (h0 & Hwait & (Hl0 & Hc0 & Hs0 & Hp0) & Hlag); [pose proof (lag_polls (i_hw s1)); lia|done|].
      rewrite (run_bind _ _ _ _ _ Hwait). unfold z, errored. cbn [i_hw s1] in *. rewrite Hcmd. assert (Hk0 : kept h h0) by (unfold kept; by rewrite Hl0).
      destruct failed; cbn [andb].
      + rewrite decide_False by lia. exists h0. cbn [orb]. rewrite list_insert_id by done. split; [done|]. split; [congruence|done].
      + rewrite decide_True by lia. assert (Hask : asked x = Request (Z.land (b_dev x) 1) (b_blockno x) None) by (unfold asked, dirty; by rewrite Hd).
        rewrite Hask in Hcmd. rewrite Hcmd in Hc0. destruct (insl_read _ _ _ Hc0 Hlag) as (h' & Hin & Hc' & Hk).
        exists h'. change BSIZE with SECTOR_SIZE. rewrite (run_bind _ _ _ _ _ (hw_run _ (with_hw h0 s1) _ _ Hin)). unfold updb, mmodify. cbn [i_bufs with_hw s1].
        rewrite (list_alter_Some _ _ _ _ Hx), Hs0. split; [done|]. split; [by rewrite Hc', Hc0, Hask|]. unfold kept in *. destruct_and!. split_and!; congruence. }
  destruct Hm as (h' & Hm & Hc' & Hk'). rewrite (run_bind _ _ _ _ _ Hm). exists h'. split; [|done].
  set (s2 := Ide (<[b := z]> (i_bufs s)) (b_qnext x) (i_havedisk1 s) h' (i_woken s)).
  assert (Hz2 : i_bufs s2 !! b = Some z) by (apply list_lookup_insert_eq; by eapply lookup_lt_Some).
  rewrite (run_bind (updb _ _) _ s2 tt (Ide (<[b := synced failed (sectors h) x]> (i_bufs s)) (b_qnext x) (i_havedisk1 s) h' (i_woken s))).
  2:{ unfold updb, mmodify. rewrite (list_alter_Some _ _ _ _ Hz2). cbn [i_bufs s2]. rewrite list_insert_insert_eq. unfold synced. fold z.
      do 3 f_equal. unfold z. by destruct (dirty x || failed). }
  by rewrite (run_bind (wakeup b) _ _ tt (Ide (<[b := synced failed (sectors h) x]> (i_bufs s)) (b_qnext x) (i_havedisk1 s) h' (i_woken s ++ [b]))) by done.
Qed.

(** The drive interrupts: the first request of the queue is completed, the next
    one is started. *)
Lemma ideintr_spec fuel failed s b q : (polls < fuel)%nat → ide_inv s (b :: q) →
  ∃ h x s', finish failed (i_hw s) = Some h ∧ i_bufs s !! b = Some x ∧ ideintr fuel (with_hw h s) = Done tt s' ∧ ide_inv s' q ∧
    i_bufs s' = <[b := synced failed (sectors (i_hw s)) x]> (i_bufs s) ∧ sectors (i_hw s') = stored failed x (sectors (i_hw s)) ∧
    i_woken s' = i_woken s ++ [b] ∧ i_havedisk1 s' = i_havedisk1 s.
Proof.
  intros Hf Hinv. pose proof Hinv as [Hlink Hnd Hwants Hhw Hdr Hds]. destruct Hhw as (x & Hx & Hcmd). destruct Hlink as (Hq & x0 & Hx0 & Hlink).
  assert (x0 = x) as -> by congruence. destruct (finish_busy failed _ _ Hcmd) as (h & Hfin & Hch & Hr6 & Hsec & Hpr).
  apply NoDup_cons in Hnd as [Hbq Hnd]. assert (Hdh : drive h = drive (i_hw s)) by (unfold drive; by rewrite Hr6).
  destruct (ideintr_first fuel failed s b x h Hf Hq Hx Hch) as (h' & Hrun & Hch' & Hk1 & Hk2 & Hk3); [by rewrite Hpr, Hdh|].
  change (written failed (asked x) (sectors (i_hw s))) with (stored failed x (sectors (i_hw s))) in Hsec.
  rewrite Hsec, synced_stored in Hrun. rewrite Hsec in Hk2. rewrite Hpr in Hk3. rewrite Hch in Hch'.
  assert (Hdh' : drive h' = drive (i_hw s)) by (unfold drive; by rewrite Hk1, Hr6).
  set (y := synced failed (sectors (i_hw s)) x) in *. exists h, x.
  assert (Hlink' : linked (<[b := y]> (i_bufs s)) (b_qnext x) q) by (rewrite <-(list_alter_Some (λ _, y) _ _ _ Hx); by apply linked_alter).
  assert (Hw' : ∀ c z, c ∈ q → <[b := y]> (i_bufs s) !! c = Some z → wants (i_havedisk1 s) z).
  { intros c z Hc Hz. rewrite list_lookup_insert_ne in Hz by set_solver. apply (Hwants c); [by right|done]. }
  destruct q as [|n q].
  - simpl in Hlink'. rewrite Hlink' in Hrun. eexists. split; [done|]. split; [done|]. split; [exact Hrun|]. split_and!; [|done..].
    constructor; simpl; [done..| |by rewrite Hdh', Hk3|by rewrite Hk3]. unfold quiet. by rewrite Hch'.
  - pose proof Hlink' as (Hn & z & Hz & _). rewrite Hn in Hrun, Hlink'. assert (Hwz : wants (i_havedisk1 s) z) by (apply (Hw' n); [by left|done]).
    pose proof (wants_present _ _ _ Hinv Hwz) as Hpz. pose proof Hwz as (_ & Hbn & Hdl & _).
    match type of Hrun with _ = idestart _ _ ?s1 => destruct (idestart_run fuel n z s1 Hf) as (h2 & Hr & Hc2 & Hd2 & Hs2 & Hp2) end; try done.
    { split; simpl; [unfold quiet; by rewrite Hch'|by rewrite Hdh', Hk3]. }
    { simpl. by rewrite Hk3. }
    simpl in Hs2, Hp2. rewrite Hr in Hrun. eexists. split; [done|]. split; [done|]. split; [exact Hrun|]. split_and!; [|done|simpl; congruence|done..].
    constructor; [exact Hlink'|done|done|by exists z|simpl; by rewrite Hd2, Hp2, Hk3|simpl; by rewrite Hp2, Hk3].
Qed.
End queue.

(** ** The driver as its clients see it *)

(** What may happen: a process calls [iderw], the drive interrupts after doing
    its work with or without an error, a process changes a buffer that it holds
    (but not the link, which is the driver's). *)
Inductive event := Rw (b : nat) | Intr (failed : bool) | Client (b : nat) (y : buf).

(** The contract: a queue of requests, completed in their order. *)
Record disk_queue := DiskQueue {
  q_bufs : list buf;
  q_waiting : list nat;
  q_disk : Z → Z → block;
  q_woken : list nat
}.

(** What [iderw] asks of its caller: the lock, something to do, a block of the
    disk, a disk that is there; and the buffer is not being transferred. *)
Definition may_rw (havedisk1 : Z) (a : disk_queue) (b : nat) : bool :=
  match q_bufs a !! b with
  | Some x => bool_decide ((b ∉ q_waiting a) ∧ b_locked x = true ∧ wants havedisk1 x)
  | None => false
  end.

Definition queue_event (havedisk1 : Z) (e : event) (a : disk_queue) : option disk_queue :=
  match e with
  | Rw b => if may_rw havedisk1 a b then Some (DiskQueue (q_bufs a) (q_waiting a ++ [b]) (q_disk a) (q_woken a)) else None
  | Intr failed =>
    match q_waiting a with
    | [] => Some a
    | b :: q =>
      x ← q_bufs a !! b;
      Some (DiskQueue (<[b := synced failed (q_disk a) x]> (q_bufs a)) q (stored failed x (q_disk a)) (q_woken a ++ [b]))
    end
  | Client b y => if bool_decide (b ∉ q_waiting a) then Some (DiskQueue (<[b := set_qnext None y]> (q_bufs a)) (q_waiting a) (q_disk a) (q_woken a)) else None
  end.
Fixpoint queue_events (havedisk1 : Z) (es : list event) (a : disk_queue) : option disk_queue :=
  match es with
  | [] => Some a
  | e :: es => a1 ← queue_event havedisk1 e a; queue_events havedisk1 es a1
  end.

Lemma unlinked_lookup bs b x : unlinked bs !! b = Some x → ∃ y, bs !! b = Some y ∧ x = set_qnext None y.
Proof. unfold unlinked. rewrite list_lookup_fmap. destruct (bs !! b) as [y|]; [|done]. intros [= <-]. by exists y. Qed.

Lemma unlinked_insert bs b y : unlinked (<[b := y]> bs) = <[b := set_qnext None y]> (unlinked bs).
Proof. apply list_fmap_insert. Qed.

Lemma synced_unlinked failed disk x : set_qnext None (synced failed disk x) = synced failed disk (set_qnext None x).
Proof. unfold synced, dirty. cbn [b_flags set_qnext]. by destruct (negb _ || failed). Qed.

(** The interrupts that the requests cause complete all of them. *)
Lemma drain havedisk1 fs a : length fs = length (q_waiting a) → NoDup (q_waiting a) → (∀ b, b ∈ q_waiting a → (b < length (q_bufs a))%nat) →
  ∃ a', queue_events havedisk1 (Intr <$> fs) a = Some a' ∧ q_waiting a' = [] ∧ q_woken a' = q_woken a ++ q_waiting a ∧
    (∀ b, b ∉ q_waiting a → q_bufs a' !! b = q_bufs a !! b) ∧
    ∀ b, b ∈ q_waiting a → ∃ x, q_bufs a' !! b = Some x ∧ Z.land (b_flags x) (Z.lor B_VALID B_DIRTY) = B_VALID.
Proof.
  revert a. induction fs as [|f fs IH]; intros [bs q disk w]; simpl; intros Hlen Hnd Hlt; destruct q as [|b q]; try done.
  { eexists. split; [done|]. rewrite app_nil_r. split_and!; [done..|]. intros b Hb. by apply elem_of_nil in Hb. }
  apply NoDup_cons in Hnd as [Hbq Hnd]. destruct (lookup_lt_is_Some_2 bs b) as [x Hx]; [apply Hlt; by left|]. rewrite Hx. simpl.
  destruct (IH (DiskQueue (<[b := synced f disk x]> bs) q (stored f x disk) (w ++ [b]))) as (a' & Hrun & Hq & Hw & Hkeep & Hdone); simpl in *.
  { lia. } { done. } { intros c Hc. rewrite length_insert. apply Hlt. by right. }
  exists a'. split; [done|]. split; [done|]. split; [by rewrite Hw, <-app_assoc|]. split.
  - intros c Hc. rewrite Hkeep by set_solver. apply list_lookup_insert_ne. set_solver.
  - intros c Hc. apply elem_of_cons in Hc as [->|Hc]; [|by apply Hdone]. exists (synced f disk x). rewrite Hkeep by done.
    split; [|apply synced_done]. apply list_lookup_insert_eq. by eapply lookup_lt_Some.
Qed.

Section clients.
  Context {H : Type} `{HA : Ata H} `{HL : !AtaLaws H} `{HP : !AtaPrompt H}.
  Implicit Types (s : ide (H := H)).

Definition ide_event (fuel : nat) (e : event) : M ide unit :=
  match e with
  | Rw b => iderw_start fuel b
  | Intr failed => λ s, ideintr fuel (match finish failed (i_hw s) with Some h => with_hw h s | None => s end)
  | Client b y => updb b (λ x, set_qnext (b_qnext x) y)
  end.
Fixpoint ide_events (fuel : nat) (es : list event) : M ide unit :=
  match es with
  | [] => mret tt
  | e :: es => ide_event fuel e;; ide_events fuel es
  end.

(** The driver's state stands for a queue. *)
Record stands_for (s : ide) (a : disk_queue) : Prop := {
  sf_inv : ide_inv s (q_waiting a);
  sf_bufs : unlinked (i_bufs s) = q_bufs a;
  sf_disk : sectors (i_hw s) = q_disk a;
  sf_woken : i_woken s = q_woken a
}.

Lemma rw_refines fuel s a b a' : (polls < fuel)%nat → stands_for s a → queue_event (i_havedisk1 s) (Rw b) a = Some a' →
  ∃ s', ide_event fuel (Rw b) s = Done tt s' ∧ stands_for s' a' ∧ i_havedisk1 s' = i_havedisk1 s.
Proof.
  intros Hf [Hinv Hb Hd Hw]. simpl. unfold may_rw. destruct (q_bufs a !! b) as [x|] eqn:Hx; [|done].
  case_bool_decide as Hok; [|done]. intros [= <-]. destruct Hok as (Hq & Hl & Hwant). rewrite <-Hb in Hx.
  apply unlinked_lookup in Hx as (y & Hy & ->).
  destruct (iderw_start_spec fuel s (q_waiting a) b y Hf Hinv Hq Hy Hl Hwant) as (s' & Hrun & Hinv' & Hu & Hd' & Hw' & Hh).
  exists s'. split; [done|]. split; [|done]. constructor; simpl; congruence.
Qed.

Lemma intr_refines fuel s a failed a' : (polls < fuel)%nat → stands_for s a → queue_event (i_havedisk1 s) (Intr failed) a = Some a' →
  ∃ s', ide_event fuel (Intr failed) s = Done tt s' ∧ stands_for s' a' ∧ i_havedisk1 s' = i_havedisk1 s.
Proof.
  intros Hf [Hinv Hb Hd Hw]. simpl. destruct (q_waiting a) as [|b q] eqn:Hwait.
  - intros [= <-]. destruct Hinv as [Hlink Hn Hwants Hr Hdr Hds]. pose proof (finish_quiet failed _ Hr) as Hfin.
    rewrite Hfin. simpl in Hlink. exists s. unfold ideintr. rewrite (run_bind mget _ _ s s) by done. rewrite Hlink.
    split; [done|]. split; [|done]. constructor; [|done..]. rewrite Hwait. by constructor.
  - destruct (ideintr_spec fuel failed s b q Hf Hinv) as (h & x & s' & Hfin & Hx & Hrun & Hinv' & Hbs & Hd' & Hw' & Hh).
    assert (Hx' : q_bufs a !! b = Some (set_qnext None x)) by (rewrite <-Hb; unfold unlinked; by rewrite list_lookup_fmap, Hx).
    rewrite Hx'. intros [= <-]. rewrite Hfin. exists s'. split; [done|]. split; [|done].
    constructor; simpl; [done| | |by rewrite Hw', Hw].
    + by rewrite Hbs, unlinked_insert, synced_unlinked, Hd, Hb.
    + rewrite Hd', Hd. done.
Qed.

Lemma client_refines fuel s a b y a' : stands_for s a → queue_event (i_havedisk1 s) (Client b y) a = Some a' →
  ∃ s', ide_event fuel (Client b y) s = Done tt s' ∧ stands_for s' a' ∧ i_havedisk1 s' = i_havedisk1 s.
Proof.
  intros [[Hlink Hn Hwants Hr Hdr Hds] Hb Hd Hw]. simpl. case_bool_decide as Hq; [|done]. intros [= <-]. eexists. split; [reflexivity|]. split; [|done].
  assert (Hsame : ∀ c, c ∈ q_waiting a → alter (λ x, set_qnext (b_qnext x) y) b (i_bufs s) !! c = i_bufs s !! c).
  { intros c Hc. rewrite list_lookup_alter, decide_False; [done|]. set_solver. }
  constructor; simpl; [|rewrite <-Hb|done..].
  - constructor; simpl; [by apply linked_alter|done| | |done..].
    + intros c x Hc. rewrite Hsame by done. by apply Hwants.
    + destruct (q_waiting a) as [|c q]; [done|]. destruct Hr as (x & Hx & Hcmd). exists x. rewrite Hsame; [done|by left].
  - apply list_eq. intros c. unfold unlinked. rewrite list_lookup_fmap, list_lookup_alter. case_decide as Hbc.
    + subst c. destruct (i_bufs s !! b) as [x|] eqn:Hx; simpl.
      * rewrite list_lookup_insert_eq; [done|]. rewrite length_fmap. by eapply lookup_lt_Some.
      * symmetry. apply lookup_ge_None. rewrite length_insert, length_fmap. by apply lookup_ge_None.
    + rewrite list_lookup_insert_ne by done. by rewrite list_lookup_fmap.
Qed.

Lemma event_refines fuel s a e a' : (polls < fuel)%nat → stands_for s a → queue_event (i_havedisk1 s) e a = Some a' →
  ∃ s', ide_event fuel e s = Done tt s' ∧ stands_for s' a' ∧ i_havedisk1 s' = i_havedisk1 s.
Proof. destruct e; [apply rw_refines|apply intr_refines|intros _; apply client_refines]. Qed.

Lemma events_refine fuel s a es a' : (polls < fuel)%nat → stands_for s a → queue_events (i_havedisk1 s) es a = Some a' →
  ∃ s', ide_events fuel es s = Done tt s' ∧ stands_for s' a' ∧ i_havedisk1 s' = i_havedisk1 s.
Proof.
  intros Hf. revert s a. induction es as [|e es IH]; intros s a Hs He; [simpl in He; injection He as <-; by exists s|].
  simpl in He. destruct (queue_event (i_havedisk1 s) e a) as [a1|] eqn:Ha; [|done].
  destruct (event_refines fuel s a e a1 Hf Hs Ha) as (s1 & H1 & Hs1 & Hh1). simpl in He. rewrite <-Hh1 in He.
  destruct (IH s1 a1 Hs1 He) as (s' & H2 & Hs' & Hh'). exists s'. cbn [ide_events]. rewrite (run_bind _ _ _ _ _ H1). split; [done|]. split; [done|].
  by rewrite Hh', Hh1.
Qed.

(** C5. The IDE driver implements a queue of disk requests, on every controller
    that follows [AtaLaws] and is prompt: it takes the data of a write as soon
    as it has the command, which ATA does not promise and [idestart] does not
    wait for. The loop of [idewait] may find the drive busy up to [polls] times.
    [ideinit] finds out whether disk 1 is there; then, for every sequence of
    requests, interrupts (with and without errors) and changes by processes to
    the buffers they hold, the driver returns without a panic and its state
    stands for the queue: requests are completed in order, a write puts the
    buffer's data into its sector and a read the sector's data into the buffer.
    One interrupt for each waiting request wakes
    all their processes, in order, and each finds its request done. *)
Theorem ide_correct fuel s es a fs :
  (polls < fuel)%nat → i_queue s = None → i_havedisk1 s = 0 → ready (i_hw s) → present (i_hw s) 0 = true →
  queue_events (if present (i_hw s) 1 then 1 else 0) es (DiskQueue (unlinked (i_bufs s)) [] (sectors (i_hw s)) (i_woken s)) = Some a →
  length fs = length (q_waiting a) →
  ∃ s' s'', (ideinit fuel;; ide_events fuel es) s = Done tt s' ∧ stands_for s' a ∧
    ide_events fuel (Intr <$> fs) s' = Done tt s'' ∧ i_queue s'' = None ∧ i_woken s'' = i_woken s' ++ q_waiting a ∧
    ∀ b, b ∈ q_waiting a → iderw_done b s'' = Done true s''.
Proof.
  intros Hf Hq Hd Hr H0 Hes Hfs. destruct (ideinit_run fuel s Hf Hr H0) as (h & Hinit & [Hqh Hph] & Hsec & Hpr). rewrite Hd in Hinit.
  set (s0 := Ide _ _ _ _ _) in Hinit. rewrite (run_bind _ _ _ _ _ Hinit). clear Hinit.
  assert (Hs0 : stands_for s0 (DiskQueue (unlinked (i_bufs s)) [] (sectors (i_hw s)) (i_woken s))).
  { constructor; simpl; try done. constructor; simpl; [done|constructor| |done..|].
    - intros b x Hb. by apply elem_of_nil in Hb.
    - rewrite Hpr. split; [done|]. by destruct (present (i_hw s) 1). }
  destruct (events_refine fuel s0 _ es a Hf Hs0 Hes) as (s' & Hrun & Hs' & Hh'). exists s'.
  pose proof Hs' as [Hinv Hb Hdisk Hw]. destruct (drain (i_havedisk1 s') fs a Hfs (iv_nodup _ _ Hinv)) as (a2 & Ha2 & Hq2 & Hw2 & _ & Hdone).
  { intros b Hbq. rewrite <-Hb. unfold unlinked. rewrite length_fmap. by eapply linked_lt; [apply Hinv|]. }
  destruct (events_refine fuel s' _ _ a2 Hf Hs' Ha2) as (s2 & Hrun2 & [Hinv2 Hb2 _ Hwk2] & _). exists s2. split; [done|]. split; [done|]. split; [done|].
  split; [|split].
  - destruct Hinv2 as [Hl _ _ _ _ _]. by rewrite Hq2 in Hl.
  - by rewrite Hwk2, Hw2, Hw.
  - intros b Hbq. destruct (Hdone b Hbq) as (x & Hx & Hfl). rewrite <-Hb2 in Hx. apply unlinked_lookup in Hx as (y & Hy & ->).
    unfold iderw_done, mbind, M_bind, getb. rewrite (list_lookup_total_correct _ _ _ Hy). simpl. simpl in Hfl. by rewrite bool_decide_true.
Qed.
End clients.

(** ** A controller that follows the laws *)

(** [ct_slow]: the drive says once more that it is busy, as it does after it has
    finished a request. *)
Record controller := Controller {
  ct_regs : gmap Z Z;
  ct_command : command;
  ct_disk : Z → Z → block;
  ct_present : Z → bool;
  ct_slow : bool
}.
Definition ct_reg (h : controller) (p : Z) : Z := default 0 (ct_regs h !! p).
Definition set_command (c : command) (slow : bool) (h : controller) : controller := Controller (ct_regs h) c (ct_disk h) (ct_present h) slow.

#[export] Instance controller_ata : Ata controller := {
  inb p h :=
    if decide (p = 0x1f7) then
      if ct_present h (drive_of (ct_reg h 0x1f6)) then
        if ct_slow h then Done IDE_BSY (set_command (ct_command h) false h)
        else Done match ct_command h with Busy _ => IDE_BSY | Finished _ true => Z.lor IDE_DRDY IDE_ERR | _ => IDE_DRDY end h
      else Done 0 h
    else Done (ct_reg h p) h;
  outb p v h := Done tt (
    if decide (p = 0x1f7) then
      let d := drive_of (ct_reg h 0x1f6) in
      let n := lba_of (ct_reg h 0x1f3) (ct_reg h 0x1f4) (ct_reg h 0x1f5) (ct_reg h 0x1f6) in
      if decide (v = IDE_CMD_READ) then set_command (Busy (Request d n None)) true h
      else if decide (v = IDE_CMD_WRITE) then set_command (NeedData d n) false h else h
    else Controller (<[p := u8 v]> (ct_regs h)) (ct_command h) (ct_disk h) (ct_present h) (ct_slow h));
  outsl _ bs h := Done tt match ct_command h with NeedData d n => set_command (Busy (Request d n (Some bs))) true h | _ => h end;
  insl _ _ h := Done match ct_command h with Finished r _ => ct_disk h (rq_drive r) (rq_sector r) | _ => [] end h;
  finish failed h := match ct_command h with
    | Busy r => Some (Controller (ct_regs h) (Finished r failed) (written failed r (ct_disk h)) (ct_present h) true)
    | _ => None
    end;
  latched := ct_reg;
  command_of := ct_command;
  sectors := ct_disk;
  present := ct_present;
  lag h := if ct_slow h then 1%nat else 0%nat;
  polls := 1
}.

#[export] Instance controller_laws : AtaLaws controller.
Proof.
  constructor; unfold ready, quiet, errored, kept, same, drive, lba; simpl.
  - intros h. destruct (ct_slow h); lia.
  - intros h Hp. by rewrite Hp.
  - intros h [_ Hp] Hl. rewrite Hp. destruct (ct_slow h); [|done]. eexists _, _. split; [done|]. simpl. split; [done|]. split; [lia|done].
  - intros h [Hq Hp] Hl. rewrite Hp. destruct (ct_slow h); [done|]. destruct (ct_command h) as [|? ?|?|? []]; try done; by eexists.
  - intros p v h _ Hl Hp. rewrite decide_False by (intros ->; set_solver). eexists. split; [done|]. split; [|done].
    intros q. unfold ct_reg. simpl. case_decide; [subst; by rewrite lookup_insert_eq|by rewrite lookup_insert_ne].
  - intros h _ _ _. by eexists.
  - intros h _ _ _. by eexists.
  - intros bs d n h Hc _ _. rewrite Hc. by eexists.
  - intros d n h Hc _. rewrite Hc. by eexists.
  - intros failed r h Hc. rewrite Hc. by eexists.
  - intros failed h Hq. by destruct (ct_command h).
Qed.

#[export] Instance controller_prompt : AtaPrompt controller.
Proof. constructor. intros h h' _ _ _. by intros [= <-]. Qed.

(** Two drives: a buffer is written, and another one with the same block read
    behind it; the second request waits for the first. *)
Definition demo_block (v : Z) : block := replicate (Z.to_nat BSIZE) v.
Definition demo_ide : ide (H := controller) :=
  Ide [Buf B_DIRTY 1 7 (demo_block 65) None true; Buf 0 1 7 (demo_block 0) None true] None 0
    (Controller ∅ Idle (λ _ _, demo_block 0) (λ d, bool_decide (d = 0 ∨ d = 1)) true) [].
Definition demo_run : option disk_queue :=
  queue_events 1 [Rw 0; Rw 1; Intr false] (DiskQueue (unlinked (i_bufs demo_ide)) [] (sectors (i_hw demo_ide)) []).

Lemma demo_run_result : (λ a, (q_waiting a, q_woken a, q_disk a 1 7)) <$> demo_run = Some ([1%nat], [0%nat], demo_block 65).
Proof. vm_compute. reflexivity. Qed.

Lemma ide_correct_witness : ∃ s' s'' a, (ideinit 2;; ide_events 2 [Rw 0; Rw 1; Intr false]) demo_ide = Done tt s' ∧ stands_for s' a ∧
  q_waiting a = [1%nat] ∧ q_disk a 1 7 = demo_block 65 ∧ ide_events 2 [Intr false] s' = Done tt s'' ∧ i_woken s'' = [0; 1]%nat ∧
  iderw_done 1 s'' = Done true s''.
Proof.
  pose proof demo_run_result as Hres. destruct demo_run as [a|] eqn:Ha; [|discriminate Hres].
  cbn [fmap option_fmap option_map] in Hres. apply (inj Some) in Hres. apply pair_equal_spec in Hres as [[Hq Hw]%pair_equal_spec Hdisk].
  destruct (ide_correct 2 demo_ide [Rw 0; Rw 1; Intr false] a [false]) as (s' & s'' & H1 & H2 & H3 & _ & H5 & H6);
    [vm_compute; exact (le_n _)|exact eq_refl|exact eq_refl|split; [exact I|vm_compute; exact eq_refl]|vm_compute; exact eq_refl|exact Ha|rewrite Hq; exact eq_refl|].
  exists s', s'', a. rewrite Hq in H5, H6. rewrite (sf_woken _ _ H2), Hw in H5.
  split; [exact H1|]. split; [exact H2|]. split; [exact Hq|]. split; [exact Hdisk|]. split; [exact H3|]. split; [exact H5|]. apply H6. by left.
Defined.
