(* ===== verification/Boot.v ===== *)
(** * The boot loader (bootmain.c)

    It reads the kernel, an ELF file that starts at sector 1 of the disk, into
    physical memory and calls its entry point. The disk is a controller of the
    interface [Ata] that is polled: a drive that works on a command is ready
    after finitely many reads of its status. *)

From S2P Require Import Prelude Params Ide.

Local Open Scope Z_scope.

Definition SECTSIZE : Z := 512.
Definition ELF_MAGIC : Z := 0x464C457F.
Definition ELFADDR : Z := 0x10000.     (* scratch space for the file header *)
Definition PROGHDRSZ : Z := 32.

(** A drive that works on a read request answers that it is busy, at most
    [polls] times, and then has read the sector. The loader does not look at
    the error bits, so what it does with a drive that fails is not stated. *)
Class AtaPollLaws (H : Type) `{Ata H} : Prop := {
  poll_busy r h : command_of h = Busy r → rq_data r = None → present h (drive h) = true → ∃ v h', inb 0x1f7 h = Done v h' ∧ latched h' = latched h ∧ sectors h' = sectors h ∧
    present h' = present h ∧
    (Z.land v 0xC0 ≠ 0x40 ∧ command_of h' = Busy r ∧ (lag h' < lag h)%nat ∨ Z.land v 0xC0 = 0x40 ∧ command_of h' = Finished r false ∧ lag h' = O);
  control_read h h' : outb 0x1f7 IDE_CMD_READ h = Done tt h' → latched h' 0x3f6 = latched h 0x3f6;
  control_insl n bs h h' : insl 0x1f0 n h = Done bs h' → latched h' 0x3f6 = latched h 0x3f6
}.

Section boot_code.
  Context {H : Type} `{Ata H}.

(** Physical memory, byte by byte. *)
Record boot := Boot { bt_hw : H; bt_mem : Z → Z }.
Definition hw {A} (m : M H A) : M boot A := zoom bt_hw (λ h s, Boot h (bt_mem s)) m.

Definition put (a : Z) (bs : list Z) (m : Z → Z) (x : Z) : Z :=
  if decide (a ≤ x < a + Z.of_nat (length bs)) then bs !!! Z.to_nat (x - a) else m x.
Definition wr (a : Z) (bs : list Z) : M boot unit := mmodify (λ s, Boot (bt_hw s) (put a bs (bt_mem s))).

Definition mem16 (m : Z → Z) (a : Z) : Z := m a + 256 * m (a + 1).
Definition mem32 (m : Z → Z) (a : Z) : Z := mem16 m a + 65536 * mem16 m (a + 2).

(** The loop of [waitdisk] ends within [polls] reads of the status. *)
Fixpoint waitdisk_loop (fuel : nat) : M boot unit :=
  match fuel with
  | O => λ _, Diverge
  | S fuel =>
    r ← hw (inb 0x1F7);
    if decide (Z.land r 0xC0 ≠ 0x40) then waitdisk_loop fuel else mret tt
  end.
Definition waitdisk : M boot unit := waitdisk_loop (S polls).

Definition readsect (dst offset : Z) : M boot unit :=
  waitdisk;;
  hw (outb 0x1F2 1);;
  hw (outb 0x1F3 offset);;
  hw (outb 0x1F4 (Z.shiftr offset 8));;
  hw (outb 0x1F5 (Z.shiftr offset 16));;
  hw (outb 0x1F6 (Z.lor (Z.shiftr offset 24) 0xE0));;
  hw (outb 0x1F7 0x20);;
  waitdisk;;
  bs ← hw (insl 0x1F0 (Z.to_nat SECTSIZE));
  wr dst bs.

Fixpoint readseg_loop (fuel : nat) (pa epa offset : Z) : M boot unit :=
  match fuel with
  | O => λ _, Diverge
  | S fuel =>
    if decide (pa < epa) then readsect pa offset;; readseg_loop fuel (u32 (pa + SECTSIZE)) epa (u32 (offset + 1))
    else mret tt
  end.

(** The number of rounds follows from [count]. *)
Definition readseg (pa count offset : Z) : M boot unit :=
  let epa := u32 (pa + count) in
  let pa := u32 (pa - offset `mod` SECTSIZE) in
  let offset := offset / SECTSIZE + 1 in
  readseg_loop (Z.to_nat (count / SECTSIZE) + 3) pa epa offset.

(** Load each program segment, with the headers from [ph] to [eph]. *)
Fixpoint load_segments (fuel : nat) (ph eph : Z) : M boot unit :=
  match fuel with
  | O => λ _, Diverge
  | S fuel =>
    if decide (ph < eph) then
      s ← mget;
      let off := mem32 (bt_mem s) (ph + 4) in
      let pa := mem32 (bt_mem s) (ph + 12) in
      let filesz := mem32 (bt_mem s) (ph + 16) in
      readseg pa filesz off;;
      s ← mget;
      let filesz := mem32 (bt_mem s) (ph + 16) in
      let memsz := mem32 (bt_mem s) (ph + 20) in
      (if decide (filesz < memsz) then wr (u32 (pa + filesz)) (replicate (Z.to_nat (memsz - filesz)) 0) else mret tt);;
      load_segments fuel (u32 (ph + PROGHDRSZ)) eph
    else mret tt
  end.

(** The entry point that is called, or [None] if [bootmain] returns. *)
Definition bootmain : M boot (option Z) :=
  readseg ELFADDR 4096 0;;
  s ← mget;
  if decide (mem32 (bt_mem s) ELFADDR ≠ ELF_MAGIC) then mret None else
  let ph := u32 (ELFADDR + mem32 (bt_mem s) (ELFADDR + 28)) in
  let phnum := mem16 (bt_mem s) (ELFADDR + 44) in
  load_segments (Z.to_nat phnum + 1) ph (u32 (ph + PROGHDRSZ * phnum));;
  s ← mget;
  mret (Some (mem32 (bt_mem s) (ELFADDR + 24))).
End boot_code.

(** ** Sectors *)

Lemma drive_bits : forallb (λ e, (Z.land (u8 (Z.lor e 0xE0)) 0x0f =? e) && (drive_of (u8 (Z.lor e 0xE0)) =? 0)) (seqZ 0 16) = true.
Proof. vm_compute. reflexivity. Qed.

(** The address registers select the sector, on drive 0. *)
Lemma lba_sector o : 0 ≤ o < 2 ^ 28 → let r6 := u8 (Z.lor (Z.shiftr o 24) 0xE0) in
  lba_of (u8 o) (u8 (Z.shiftr o 8)) (u8 (Z.shiftr o 16)) r6 = o ∧ drive_of r6 = 0.
Proof.
  intros Ho r6. change (2 ^ 28) with 268435456 in Ho. set (e := Z.shiftr o 24). assert (He : 0 ≤ e < 16).
  { unfold e. rewrite Z.shiftr_div_pow2 by lia. change (2 ^ 24) with 16777216. Z.to_euclidean_division_equations. lia. }
  pose proof drive_bits as Hall. rewrite forallb_forall in Hall.
  specialize (Hall e (proj1 (list_elem_of_In _ _) (proj2 (elem_of_seqZ 0 16 e) ltac:(lia)))). apply andb_true_iff in Hall as [H1%Z.eqb_eq H2%Z.eqb_eq].
  split; [|exact H2]. unfold lba_of. unfold r6. fold e. rewrite H1. unfold u8, e. rewrite !Z.shiftr_div_pow2 by lia.
  change (2 ^ 8) with 256. change (2 ^ 16) with 65536. change (2 ^ 24) with 16777216.
  rewrite (Z.lor_comm (o `mod` 256)), lor_shiftl by (change (2 ^ 8) with 256; Z.to_euclidean_division_equations; lia).
  rewrite Z.lor_comm, (Z.lor_comm _ (Z.shiftl _ 16)). rewrite (lor_shiftl ((o / 65536) `mod` 256) _ 16) by (change (2 ^ 8) with 256; change (2 ^ 16) with 65536; Z.to_euclidean_division_equations; lia).
  rewrite lor_shiftl by (change (2 ^ 8) with 256; change (2 ^ 16) with 65536; change (2 ^ 24) with 16777216; Z.to_euclidean_division_equations; lia).
  change (2 ^ 8) with 256. change (2 ^ 16) with 65536. change (2 ^ 24) with 16777216. Z.to_euclidean_division_equations. lia.
Qed.

Section boot_proof.
  Context {H : Type} `{HA : Ata H} `{HL : !AtaLaws H} `{HPL : !AtaPollLaws H}.
  Implicit Types (h : H) (s : boot (H := H)).

(** A controller as the BIOS leaves it. *)
Definition booted h : Prop := ready h ∧ present h 0 = true ∧ latched h 0x3f6 = 0.

Lemma port_run {A} (m : M H A) s a h : m (bt_hw s) = Done a h → hw m s = Done a (Boot h (bt_mem s)).
Proof. intros Hm. unfold hw, zoom. by rewrite Hm. Qed.

Lemma waitdisk_ready : ∀ fuel s, ready (bt_hw s) → (lag (bt_hw s) < fuel)%nat →
  ∃ h, waitdisk_loop fuel s = Done tt (Boot h (bt_mem s)) ∧ same (bt_hw s) h ∧ lag h = O.
Proof.
  induction fuel as [|fuel IH]; intros s Hr Hlag; [lia|]. cbn [waitdisk_loop]. change 0xC0 with (Z.lor IDE_BSY IDE_DRDY). change 0x40 with IDE_DRDY.
  destruct (decide (lag (bt_hw s) = O)) as [Hz|Hz].
  - destruct (status_ready _ Hr Hz) as (r & Hin & Hst & _). rewrite (run_bind _ _ _ _ _ (port_run _ s _ _ Hin)).
    rewrite decide_False by tauto. by exists (bt_hw s).
  - destruct (status_busy _ Hr Hz) as (r & h1 & Hin & Hst & Hl & Hsame). rewrite (run_bind _ _ _ _ _ (port_run _ s _ _ Hin)).
    rewrite decide_True by exact (busy_not_ready _ Hst).
    destruct (IH (Boot h1 (bt_mem s))) as (h & Hrun & Hs & Hl1); [exact (same_ready _ _ Hsame Hr)|simpl; lia|]. exists h. split; [exact Hrun|].
    split; [exact (same_trans _ _ _ Hsame Hs)|done].
Qed.

Lemma waitdisk_busy r : ∀ fuel s, command_of (bt_hw s) = Busy r → rq_data r = None → present (bt_hw s) (drive (bt_hw s)) = true → (lag (bt_hw s) < fuel)%nat →
  ∃ h, waitdisk_loop fuel s = Done tt (Boot h (bt_mem s)) ∧ command_of h = Finished r false ∧ latched h = latched (bt_hw s) ∧
    sectors h = sectors (bt_hw s) ∧ present h = present (bt_hw s) ∧ lag h = O.
Proof.
  induction fuel as [|fuel IH]; intros s Hc Hrd Hp Hlag; [lia|]. destruct (poll_busy _ _ Hc Hrd Hp) as (v & h1 & Hin & H1 & H2 & H3 & Hcase).
  cbn [waitdisk_loop]. rewrite (run_bind _ _ _ _ _ (port_run _ s _ _ Hin)). destruct Hcase as [(Hv & Hc1 & Hl)|(Hv & Hc1 & Hl)].
  - rewrite decide_True by done. destruct (IH (Boot h1 (bt_mem s))) as (h & Hrun & G1 & G2 & G3 & G4 & G5); [done|done| |simpl; lia|].
    + simpl. unfold drive. by rewrite H1, H3.
    + exists h. split; [done|]. simpl in *. split_and!; congruence.
  - rewrite decide_False by tauto. exists h1. done.
Qed.

(** A run of register writes. *)
Lemma latch_run {A} p v (k : unit → M boot A) s : quiet (bt_hw s) → lag (bt_hw s) = O → p ∈ [0x3f6; 0x1f2; 0x1f3; 0x1f4; 0x1f5; 0x1f6] →
  ∃ h, (hw (outb p v) ≫= k) s = k tt (Boot h (bt_mem s)) ∧ (∀ q, latched h q = if decide (p = q) then u8 v else latched (bt_hw s) q) ∧
    quiet h ∧ sectors h = sectors (bt_hw s) ∧ present h = present (bt_hw s) ∧ lag h = O.
Proof.
  intros Hq Hl0 Hp. destruct (outb_latch p v _ Hq Hl0 Hp) as (h & Hout & Hl & Hc & Hs & Hpr & Hlag). exists h. split; [by rewrite (run_bind _ _ _ _ _ (port_run _ s _ _ Hout))|].
  split; [done|]. split; [|done]. unfold quiet in *. by rewrite Hc.
Qed.

Lemma readsect_spec dst o s : booted (bt_hw s) → 0 ≤ o < 2 ^ 28 →
  ∃ h, readsect dst o s = Done tt (Boot h (put dst (sectors (bt_hw s) 0 o) (bt_mem s))) ∧ booted h ∧ sectors h = sectors (bt_hw s).
Proof.
  intros (Hr & Hp & Hctl) Ho. destruct (lba_sector o Ho) as [Hlba Hdr]. unfold readsect.
  destruct (waitdisk_ready (S polls) s Hr) as (hq & Hwait & Hsame & Hl0); [pose proof (lag_polls (bt_hw s)); lia|]. rewrite (run_bind waitdisk _ _ _ _ Hwait).
  destruct (same_ready _ _ Hsame Hr) as [Hq _]. destruct Hsame as (Hlat0 & _ & Hsec0 & Hpr0).
  do 5 (match goal with |- context [(hw (outb ?p ?v) ≫= ?k) ?s0] =>
    let h := fresh "h" in let L := fresh "L" in let E := fresh "E" in
    destruct (latch_run p v k s0 Hq Hl0 ltac:(set_solver)) as (h & E & L & ? & ? & ? & ?); rewrite E; clear E; simpl in L; clear Hq Hl0;
    rename select (quiet h) into Hq; rename select (lag h = O) into Hl0 end).
  cbn [bt_hw bt_mem] in *. rename select (quiet _) into Hq3. match type of Hq3 with quiet ?x => rename x into h3 end.
  assert (Hs3 : sectors h3 = sectors (bt_hw s)) by congruence. assert (Hp3 : present h3 = present (bt_hw s)) by congruence.
  assert (Hl3 : lba h3 = o ∧ drive h3 = 0 ∧ latched h3 0x1f2 = 1 ∧ latched h3 0x3f6 = 0).
  { unfold lba, drive. repeat match goal with L : ∀ q, latched ?h q = _ |- context [latched ?h ?p] => rewrite !L; repeat (rewrite decide_False by done); repeat (rewrite decide_True by done) end.
    by rewrite Hlat0. }
  clear -Hp Hs3 Hp3 Hl3 Hq3 Hl0 HL HPL. destruct Hl3 as (Hlba & Hdr & Hcnt & Hctl).
  assert (Hr3 : ready h3) by (split; [done|]; by rewrite Hdr, Hp3). destruct (outb_read h3 Hr3 Hl0 (conj Hcnt Hctl)) as (h4 & Hout & Hc4 & Hk1 & Hk2 & Hk3).
  rewrite (run_bind _ _ _ _ _ (port_run _ (Boot h3 (bt_mem s)) _ _ Hout)). pose proof (control_read _ _ Hout) as Hctl4. rewrite Hlba, Hdr in Hc4.
  assert (Hd4 : drive h4 = 0) by (unfold drive in *; by rewrite Hk1).
  destruct (waitdisk_busy _ (S polls) (Boot h4 (bt_mem s)) Hc4 eq_refl) as (h5 & Hw & Hc5 & Hl5 & Hs5 & Hp5 & Hlag5);
    [cbn [bt_hw]; by rewrite Hd4, Hk3, Hp3|pose proof (lag_polls h4); cbn [bt_hw]; lia|]. cbn [bt_hw bt_mem] in *.
  rewrite (run_bind waitdisk _ _ _ _ Hw). destruct (insl_read _ _ _ Hc5 Hlag5) as (h6 & Hin & Hc6 & Hk61 & Hk62 & Hk63). pose proof (control_insl _ _ _ _ Hin) as Hctl6.
  rewrite (run_bind _ _ _ _ _ (port_run _ (Boot h5 (bt_mem s)) _ _ Hin)). exists h6. cbn [bt_mem]. split.
  - unfold wr, mmodify. cbn [bt_hw bt_mem]. by rewrite Hs5, Hk2, Hs3.
  - split; [|congruence]. assert (Hd6 : drive h6 = 0) by (unfold drive in *; by rewrite Hk61, Hl5). split; [split|split].
    + unfold quiet. by rewrite Hc6, Hc5.
    + rewrite Hd6. congruence.
    + congruence.
    + rewrite Hctl6, Hl5. congruence.
Qed.

(** ** Segments *)

(** Byte [k] of the kernel's file, which starts at sector 1. *)
Definition file_byte (disk : Z → Z → block) (k : Z) : Z := disk 0 (k / SECTSIZE + 1) !!! Z.to_nat (k `mod` SECTSIZE).
Definition disk_ok (disk : Z → Z → block) : Prop := ∀ o, length (disk 0 o) = Z.to_nat SECTSIZE.

Lemma put_sector disk o a m x : disk_ok disk → put a (disk 0 o) m x = if decide (a ≤ x < a + SECTSIZE) then disk 0 o !!! Z.to_nat (x - a) else m x.
Proof. intros Hd. unfold put. rewrite Hd. change (Z.of_nat (Z.to_nat SECTSIZE)) with SECTSIZE. done. Qed.

Lemma readseg_loop_spec disk epa : disk_ok disk → epa + SECTSIZE ≤ 2 ^ 32 → ∀ fuel pa o s, booted (bt_hw s) → sectors (bt_hw s) = disk → 0 ≤ pa ≤ epa + SECTSIZE → 1 ≤ o →
  o + Z.of_nat fuel < 2 ^ 28 → epa - pa ≤ SECTSIZE * (Z.of_nat fuel - 1) → (1 ≤ fuel)%nat →
  ∃ h m n, readseg_loop fuel pa epa o s = Done tt (Boot h m) ∧ booted h ∧ sectors h = disk ∧ 0 ≤ n ∧ epa ≤ pa + SECTSIZE * n ∧ (n = 0 ∨ pa + SECTSIZE * n < epa + SECTSIZE) ∧
    ∀ x, m x = if decide (pa ≤ x < pa + SECTSIZE * n) then file_byte disk ((o - 1) * SECTSIZE + (x - pa)) else bt_mem s x.
Proof.
  unfold SECTSIZE. intros Hd He. induction fuel as [|fuel IH]; intros pa o s Hb Hs Hpa Ho Hof Hfuel Hf1; [lia|]. cbn [readseg_loop]. case_decide as Hlt.
  2:{ exists (bt_hw s), (bt_mem s), 0. split; [by destruct s|]. split_and!; [done|done|lia|lia|by left|]. intros x. by rewrite decide_False by lia. }
  destruct (readsect_spec pa o s Hb ltac:(lia)) as (h1 & Hrun1 & Hb1 & Hs1). rewrite (run_bind _ _ _ _ _ Hrun1).
  unfold SECTSIZE. rewrite (u32_small (pa + 512)), (u32_small (o + 1)) by (unfold is_u32; lia). set (s1 := Boot h1 _).
  destruct (IH (pa + 512) (o + 1) s1 Hb1 ltac:(simpl; congruence) ltac:(lia) ltac:(lia) ltac:(lia) ltac:(lia)) as (h & m & n & Hrun & Hb' & Hs' & Hn & Hcov & Hend & Hm); [destruct fuel; lia|].
  exists h, m, (n + 1). split; [done|]. split_and!; [done|done|lia|lia|right; lia|]. intros x. rewrite Hm. unfold s1. cbn [bt_mem]. rewrite Hs, (put_sector disk o) by done. unfold SECTSIZE.
  repeat case_decide; try lia; try done.
  - f_equal. lia.
  - unfold file_byte, SECTSIZE. replace ((o - 1) * 512 + (x - pa)) with (x - pa + (o - 1) * 512) by lia. rewrite Z.div_add, Z.mod_add by lia.
    rewrite Z.div_small, Z.mod_small by lia. by replace (0 + (o - 1) + 1) with o by lia.
Qed.

Lemma readseg_spec disk pa count off s : disk_ok disk → booted (bt_hw s) → sectors (bt_hw s) = disk → is_u32 off → 0 ≤ count → off `mod` SECTSIZE ≤ pa →
  pa + count + SECTSIZE ≤ 2 ^ 32 →
  ∃ h m stop, readseg pa count off s = Done tt (Boot h m) ∧ booted h ∧ sectors h = disk ∧ pa + count ≤ stop ≤ pa + count + SECTSIZE ∧
    ∀ x, m x = if decide (pa - off `mod` SECTSIZE ≤ x < stop) then file_byte disk (off + (x - pa)) else bt_mem s x.
Proof.
  unfold SECTSIZE. intros Hd Hb Hs Ho Hc Hpa He. unfold readseg, SECTSIZE. unfold is_u32 in Ho. change (2 ^ 32) with 4294967296 in *.
  pose proof (Z.mod_pos_bound off 512 ltac:(lia)) as Hm. pose proof (Z.div_mod off 512 ltac:(lia)) as Hdm.
  rewrite (u32_small (pa + count)), (u32_small (pa - off `mod` 512)) by (unfold is_u32; change (2 ^ 32) with 4294967296; lia).
  destruct (readseg_loop_spec disk (pa + count) Hd ltac:(unfold SECTSIZE; change (2 ^ 32) with 4294967296; lia) (Z.to_nat (count / 512) + 3) (pa - off `mod` 512) (off / 512 + 1) s Hb Hs)
    as (h & m & n & Hrun & Hb' & Hs' & Hn & Hcov & Hend & Hmm); unfold SECTSIZE in *; try (change (2 ^ 28) with 268435456; Z.to_euclidean_division_equations; lia).
  exists h, m, (pa - off `mod` 512 + 512 * n). split; [done|]. split_and!; [done|done|lia| |].
  - destruct Hend as [->|Hend]; lia.
  - intros x. rewrite Hmm. case_decide; [|done]. f_equal. lia.
Qed.

(** The program segments that the file's headers describe. *)
Record seg := Seg { sg_off : Z; sg_pa : Z; sg_filesz : Z; sg_memsz : Z }.
Definition phoff (disk : Z → Z → block) : Z := mem32 (file_byte disk) 28.
Definition phnum (disk : Z → Z → block) : Z := mem16 (file_byte disk) 44.
Definition seg_at (disk : Z → Z → block) (i : Z) : seg :=
  let ph := phoff disk + PROGHDRSZ * i in let f := file_byte disk in
  Seg (mem32 f (ph + 4)) (mem32 f (ph + 12)) (mem32 f (ph + 16)) (mem32 f (ph + 20)).

(** The bytes of the segment in memory, and all that may be written for it:
    whole sectors are read. *)
Definition seg_len (g : seg) : Z := Z.max (sg_filesz g) (sg_memsz g).
Definition seg_lo (g : seg) : Z := sg_pa g - sg_off g `mod` SECTSIZE.
Definition seg_hi (g : seg) : Z := sg_pa g + Z.max (sg_filesz g + SECTSIZE) (sg_memsz g).

(** A segment is loaded: the bytes of the file, then zeros. *)
Definition loaded (disk : Z → Z → block) (m : Z → Z) (g : seg) : Prop :=
  ∀ k, 0 ≤ k < seg_len g → m (sg_pa g + k) = if decide (k < sg_filesz g) then file_byte disk (sg_off g + k) else 0.

(** A kernel image that can be loaded: the headers are in the first page of the
    file; no segment is loaded over the scratch space, and none over a part of
    an earlier one. *)
Record image_ok (disk : Z → Z → block) : Prop := {
  im_disk : disk_ok disk;
  im_byte : ∀ k, 0 ≤ file_byte disk k < 256;
  im_headers : phoff disk + PROGHDRSZ * phnum disk ≤ 4096;
  im_range : ∀ i, 0 ≤ i < phnum disk → 0 ≤ seg_lo (seg_at disk i) ∧ seg_hi (seg_at disk i) ≤ 2 ^ 32;
  im_scratch : ∀ i, 0 ≤ i < phnum disk → seg_hi (seg_at disk i) ≤ ELFADDR ∨ ELFADDR + 4096 ≤ seg_lo (seg_at disk i);
  im_apart : ∀ i j, 0 ≤ i < j → j < phnum disk → let a := seg_at disk i in let b := seg_at disk j in
    seg_hi b ≤ sg_pa a ∨ sg_pa a + seg_len a ≤ seg_lo b
}.

Definition header_in (disk : Z → Z → block) (m : Z → Z) : Prop := ∀ x, ELFADDR ≤ x < ELFADDR + 4096 → m x = file_byte disk (x - ELFADDR).

Lemma mem32_range f a : (∀ k, 0 ≤ f k < 256) → is_u32 (mem32 f a).
Proof. intros Hf. unfold mem32, mem16, is_u32. pose proof (Hf a). pose proof (Hf (a + 1)). pose proof (Hf (a + 2)). pose proof (Hf (a + 2 + 1)). lia. Qed.

Lemma header32 disk m a : header_in disk m → 0 ≤ a → a + 4 ≤ 4096 → mem32 m (ELFADDR + a) = mem32 (file_byte disk) a.
Proof.
  intros Hh Ha Hb. unfold mem32, mem16. rewrite !Hh by lia.
  replace (ELFADDR + a - ELFADDR) with a by lia. replace (ELFADDR + a + 1 - ELFADDR) with (a + 1) by lia.
  replace (ELFADDR + a + 2 - ELFADDR) with (a + 2) by lia. by replace (ELFADDR + a + 2 + 1 - ELFADDR) with (a + 2 + 1) by lia.
Qed.

(** One segment. *)
Lemma load_one disk i s : image_ok disk → booted (bt_hw s) → sectors (bt_hw s) = disk → 0 ≤ i < phnum disk → header_in disk (bt_mem s) →
  let g := seg_at disk i in
  ∃ s', (readseg (sg_pa g) (sg_filesz g) (sg_off g);;
      (s ← mget;
       let filesz := mem32 (bt_mem s) (ELFADDR + (phoff disk + PROGHDRSZ * i) + 16) in let memsz := mem32 (bt_mem s) (ELFADDR + (phoff disk + PROGHDRSZ * i) + 20) in
       if decide (filesz < memsz) then wr (u32 (sg_pa g + filesz)) (replicate (Z.to_nat (memsz - filesz)) 0) else mret tt)) s = Done tt s' ∧
    booted (bt_hw s') ∧ sectors (bt_hw s') = disk ∧ loaded disk (bt_mem s') g ∧ ∀ x, ¬ (seg_lo g ≤ x < seg_hi g) → bt_mem s' x = bt_mem s x.
Proof.
  intros Him Hb Hs Hi Hh g. destruct (im_range _ Him i Hi) as [Hlo Hhi]. pose proof (im_scratch _ Him i Hi) as Hsc. fold g in Hlo, Hhi, Hsc.
  pose proof (im_headers _ Him) as Hhd. unfold PROGHDRSZ in *.
  assert (Hu : is_u32 (sg_off g) ∧ is_u32 (sg_filesz g) ∧ is_u32 (sg_memsz g)) by (unfold g, seg_at; split_and!; apply mem32_range, (im_byte _ Him)).
  destruct Hu as (Hu1 & Hu2 & Hu3). unfold seg_lo, seg_hi in Hlo, Hhi, Hsc. unfold is_u32 in Hu2, Hu3.
  destruct (readseg_spec disk (sg_pa g) (sg_filesz g) (sg_off g) s (im_disk _ Him) Hb Hs Hu1 ltac:(lia) ltac:(lia) ltac:(lia)) as (h & m & stop & Hrun & Hb1 & Hs1 & Hst & Hm).
  rewrite (run_bind _ _ _ _ _ Hrun). pose proof (Z.mod_pos_bound (sg_off g) SECTSIZE ltac:(done)) as Hmod.
  assert (Hh1 : header_in disk m) by (intros x Hx; rewrite Hm, decide_False by lia; by apply Hh).
  pose proof (mem32_range (file_byte disk) 28 (im_byte _ Him)) as Hpo. unfold is_u32, phoff in *. cbv [mbind M_bind mget].
  cbn [bt_mem]. rewrite <-!Z.add_assoc. rewrite !(header32 disk m) by (done || lia). rewrite !Z.add_assoc. fold (phoff disk). fold (sg_filesz g).
  change (mem32 (file_byte disk) (phoff disk + 32 * i + 16)) with (sg_filesz g). change (mem32 (file_byte disk) (phoff disk + 32 * i + 20)) with (sg_memsz g).
  case_decide as Hz.
  - rewrite u32_small by (unfold is_u32; lia). eexists. split; [reflexivity|]. cbn [bt_hw bt_mem]. split; [done|]. split; [done|]. split.
    + intros k Hk. unfold put. rewrite length_replicate, Z2Nat.id by lia. unfold seg_len in Hk. destruct (decide (k < sg_filesz g)).
      * rewrite decide_False by lia. rewrite Hm, decide_True by lia. f_equal. lia.
      * rewrite decide_True by lia. apply lookup_total_replicate_2. lia.
    + intros x Hx. unfold seg_lo, seg_hi in Hx. unfold put. rewrite length_replicate, Z2Nat.id by lia. rewrite decide_False by lia. by rewrite Hm, decide_False by lia.
  - eexists. split; [reflexivity|]. cbn [bt_hw bt_mem]. split; [done|]. split; [done|]. split.
    + intros k Hk. unfold seg_len in Hk. rewrite Hm, decide_True by lia. rewrite decide_True by lia. f_equal. lia.
    + intros x Hx. unfold seg_lo, seg_hi in Hx. by rewrite Hm, decide_False by lia.
Qed.

Lemma load_segments_spec disk n : image_ok disk → ∀ i s, 0 ≤ i → i + Z.of_nat n = phnum disk → booted (bt_hw s) → sectors (bt_hw s) = disk → header_in disk (bt_mem s) →
  (∀ j, 0 ≤ j < i → loaded disk (bt_mem s) (seg_at disk j)) →
  ∃ s', load_segments (S n) (ELFADDR + (phoff disk + PROGHDRSZ * i)) (ELFADDR + (phoff disk + PROGHDRSZ * phnum disk)) s = Done tt s' ∧ header_in disk (bt_mem s') ∧
    (∀ j, 0 ≤ j < phnum disk → loaded disk (bt_mem s') (seg_at disk j)) ∧
    ∀ x, (∀ j, 0 ≤ j < phnum disk → ¬ (seg_lo (seg_at disk j) ≤ x < seg_hi (seg_at disk j))) → bt_mem s' x = bt_mem s x.
Proof.
  intros Him. pose proof (im_headers _ Him) as Hhd. pose proof (mem32_range (file_byte disk) 28 (im_byte _ Him)) as Hpo. fold (phoff disk) in Hpo. unfold is_u32 in Hpo.
  induction n as [|n IH]; intros i s Hi Hn Hb Hs Hh Hold.
  { exists s. unfold PROGHDRSZ. cbn [load_segments]. rewrite decide_False by lia. split; [done|]. split; [done|]. split; [|done]. intros j Hj. apply Hold. lia. }
  change (load_segments (S (S n))) with (λ ph eph, if decide (ph < eph) then
      s ← mget; let off := mem32 (bt_mem s) (ph + 4) in let pa := mem32 (bt_mem s) (ph + 12) in let filesz := mem32 (bt_mem s) (ph + 16) in
      readseg pa filesz off;; s ← mget; let filesz := mem32 (bt_mem s) (ph + 16) in let memsz := mem32 (bt_mem s) (ph + 20) in
      (if decide (filesz < memsz) then wr (u32 (pa + filesz)) (replicate (Z.to_nat (memsz - filesz)) 0) else mret tt);;
      load_segments (S n) (u32 (ph + PROGHDRSZ)) eph else mret tt). cbv beta.
  rewrite decide_True by (unfold PROGHDRSZ; lia). unfold PROGHDRSZ in Hhd.
  rewrite (run_bind _ _ _ s s) by done. cbv zeta. destruct (load_one disk i s Him Hb Hs ltac:(lia) Hh) as (s1 & Hrun & Hb1 & Hs1 & Hl1 & Hm1). set (g := seg_at disk i) in *.
  assert (Hf : ∀ k, k ∈ [4; 12; 16; 20] → mem32 (bt_mem s) (ELFADDR + (phoff disk + PROGHDRSZ * i) + k) = mem32 (file_byte disk) (phoff disk + PROGHDRSZ * i + k)).
  { intros k Hk. assert (4 ≤ k ≤ 20) by (repeat (apply elem_of_cons in Hk as [->|Hk]; [lia|]); by apply elem_of_nil in Hk).
    rewrite <-Z.add_assoc. apply header32; [done|unfold PROGHDRSZ; lia..]. }
  rewrite (Hf 4), (Hf 12), (Hf 16) by set_solver. clear Hf. fold (sg_off g) (sg_pa g) (sg_filesz g).
  pose proof (run_bind _ (λ _, load_segments (S n) (u32 (ELFADDR + (phoff disk + PROGHDRSZ * i) + PROGHDRSZ)) (ELFADDR + (phoff disk + PROGHDRSZ * phnum disk))) _ _ _ Hrun) as Hall.
  rewrite bind_assoc in Hall.
  assert (Hnext : u32 (ELFADDR + (phoff disk + PROGHDRSZ * i) + PROGHDRSZ) = ELFADDR + (phoff disk + PROGHDRSZ * (i + 1))) by (unfold PROGHDRSZ, ELFADDR; rewrite u32_small by (unfold is_u32; lia); lia).
  rewrite Hnext in *.
  pose proof (im_scratch _ Him i ltac:(lia)) as Hsc. fold g in Hsc.
  destruct (IH (i + 1) s1) as (s' & Hrest & Hh' & Hend & Hfr); [lia|lia|done|done| | |].
  { intros x Hx. rewrite Hm1 by lia. by apply Hh. }
  { intros j Hj. destruct (decide (j = i)) as [->|]; [done|]. intros k Hk. pose proof (im_apart _ Him j i ltac:(lia) ltac:(lia)) as Hap. fold g in Hap. cbv zeta in Hap.
    rewrite Hm1 by lia. apply Hold; [lia|done]. }
  exists s'. split; [rewrite <-Hrest, <-Hall; reflexivity|]. split; [done|]. split; [done|].
  intros x Hx. rewrite Hfr by done. apply Hm1, Hx. lia.
Qed.

(** C32. The boot loader loads the kernel: it returns if the disk has no ELF file
    at sector 1. Otherwise every program segment the file's headers describe
    is in memory at its physical address, the bytes of the file followed by
    zeros up to [memsz], nothing was written but the scratch page and the
    sectors of the segments, and the entry point of the header is called.
    The loops of [waitdisk] and [readseg] end. *)
Theorem bootmain_correct disk s : disk_ok disk → booted (bt_hw s) → sectors (bt_hw s) = disk →
  (mem32 (file_byte disk) 0 ≠ ELF_MAGIC → ∃ s', bootmain s = Done None s') ∧
  (mem32 (file_byte disk) 0 = ELF_MAGIC → image_ok disk → ∃ s', bootmain s = Done (Some (mem32 (file_byte disk) 24)) s' ∧
    (∀ j, 0 ≤ j < phnum disk → loaded disk (bt_mem s') (seg_at disk j)) ∧
    ∀ x, ¬ (ELFADDR ≤ x < ELFADDR + 4096 + SECTSIZE) → (∀ j, 0 ≤ j < phnum disk → ¬ (seg_lo (seg_at disk j) ≤ x < seg_hi (seg_at disk j))) →
      bt_mem s' x = bt_mem s x).
Proof.
  intros Hd Hb Hs. destruct (readseg_spec disk ELFADDR 4096 0 s Hd Hb Hs) as (h & m & stop & Hrun & Hb1 & Hs1 & Hst & Hm); [done..|].
  change (0 `mod` SECTSIZE) with 0 in Hm. assert (Hh : header_in disk m) by (intros x Hx; rewrite Hm, decide_True by lia; f_equal; lia).
  pose proof (header32 disk m 0 Hh ltac:(lia) ltac:(lia)) as Hmagic. rewrite Z.add_0_r in Hmagic.
  unfold bootmain. rewrite (run_bind _ _ _ _ _ Hrun), (run_bind mget _ _ (Boot h m) (Boot h m)) by done. cbn [bt_mem]. rewrite Hmagic. split.
  { intros Hne. rewrite decide_True by done. by eexists. }
  intros Heq Him. rewrite decide_False by tauto. cbv zeta. pose proof (im_headers _ Him) as Hhd. unfold PROGHDRSZ in Hhd.
  rewrite (header32 disk m 28 Hh) by lia. fold (phoff disk).
  assert (Hnum : mem16 m (ELFADDR + 44) = phnum disk) by (unfold phnum, mem16; by rewrite !Hh by (unfold ELFADDR; lia)). rewrite Hnum.
  pose proof (mem32_range (file_byte disk) 28 (im_byte _ Him)) as Hpo. fold (phoff disk) in Hpo. unfold is_u32 in Hpo.
  assert (Hn0 : 0 ≤ phnum disk) by (unfold phnum, mem16; pose proof (im_byte _ Him 44); pose proof (im_byte _ Him (44 + 1)); lia).
  rewrite (u32_small (ELFADDR + phoff disk)), u32_small by (unfold is_u32, ELFADDR, PROGHDRSZ; lia).
  destruct (load_segments_spec disk (Z.to_nat (phnum disk)) Him 0 (Boot h m)) as (s' & Hload & Hh' & Hl & Hfr); [lia|lia|done|done|done|lia|].
  replace (ELFADDR + (phoff disk + PROGHDRSZ * 0)) with (ELFADDR + phoff disk) in Hload by lia. rewrite Z.add_assoc in Hload. rewrite Nat.add_1_r.
  exists s'. split; [|split; [done|]].
  - rewrite (run_bind _ _ _ _ _ Hload), (run_bind mget _ _ s' s') by done. unfold mret, M_ret. by rewrite (header32 disk _ 24 Hh') by lia.
  - intros x Hx Hj. rewrite Hfr by done. cbn [bt_mem]. rewrite Hm. by rewrite decide_False by lia.
Qed.

End boot_proof.

(** ** A controller that is polled *)

(** The controller of [Ide], which has done its work when its status is read for
    the second time. *)
Record polled := Polled { pl_ct : controller }.

#[export] Instance polled_ata : Ata polled := {
  inb p h :=
    match ct_command (pl_ct h) with
    | Busy r =>
      if decide (p = 0x1f7 ∧ ct_present (pl_ct h) (drive_of (ct_reg (pl_ct h) 0x1f6)) = true ∧ ct_slow (pl_ct h) = false) then
        Done IDE_DRDY (Polled (Controller (ct_regs (pl_ct h)) (Finished r false) (written false r (ct_disk (pl_ct h))) (ct_present (pl_ct h)) false))
      else zoom pl_ct (λ c _, Polled c) (inb p) h
    | _ => zoom pl_ct (λ c _, Polled c) (inb p) h
    end;
  outb p v := zoom pl_ct (λ c _, Polled c) (outb p v);
  outsl p bs := zoom pl_ct (λ c _, Polled c) (outsl p bs);
  insl p n := zoom pl_ct (λ c _, Polled c) (insl p n);
  finish failed h := Polled <$> finish failed (pl_ct h);
  latched h := latched (pl_ct h);
  command_of h := command_of (pl_ct h);
  sectors h := sectors (pl_ct h);
  present h := present (pl_ct h);
  lag h := lag (pl_ct h);
  polls := 1
}.

#[export] Instance polled_laws : AtaLaws polled.
Proof.
  constructor; unfold ready, quiet, errored, kept, same, drive, lba; simpl; unfold zoom; simpl.
  - intros [c]. simpl. destruct (ct_slow c); lia.
  - intros [c] Hp. simpl in *. destruct (ct_command c); try rewrite decide_False by (rewrite Hp; by intros (? & ? & ?)); simpl; by rewrite Hp.
  - intros [c] [Hq Hp] Hl. simpl in *. rewrite Hp. destruct (ct_slow c); [|done]. destruct (ct_command c); try done;
      (eexists _, _; split; [done|]; simpl; split; [done|]; split; [lia|done]).
  - intros [c] [Hq Hp] Hl. simpl in *. rewrite Hp. destruct (ct_slow c); [done|]. destruct (ct_command c) as [|? ?|?|? []]; try done; by eexists.
  - intros p v [c] _ Hl Hp. simpl in *. rewrite decide_False by (intros ->; set_solver). eexists. split; [done|]. split; [|done].
    intros q. unfold ct_reg. simpl. case_decide; [subst; by rewrite lookup_insert_eq|by rewrite lookup_insert_ne].
  - intros h _ _ _. by eexists.
  - intros h _ _ _. by eexists.
  - intros bs d n h Hc _ _. rewrite Hc. by eexists.
  - intros d n h Hc _. rewrite Hc. by eexists.
  - intros failed r h Hc. rewrite Hc. by eexists.
  - intros failed h Hq. by destruct (ct_command (pl_ct h)).
Qed.

#[export] Instance polled_poll_laws : AtaPollLaws polled.
Proof.
  constructor; unfold drive; simpl; unfold zoom; simpl.
  - intros r [c] Hc Hrd Hp. simpl in *. rewrite Hc. destruct (ct_slow c) eqn:Hs.
    + rewrite decide_False by (by intros (? & ? & ?)). simpl. rewrite Hp. eexists _, _. split; [done|]. simpl. split_and!; [done..|]. left.
      split_and!; [done|done|lia].
    + rewrite decide_True by done. eexists _, _. split; [done|]. simpl. unfold written. rewrite Hrd. split_and!; [done..|]. by right.
  - intros [c] h'. by intros [= <-].
  - intros n bs [c] h'. by intros [= <- <-].
Qed.

(** A kernel of one segment: five bytes at byte 600 of the file, for physical
    address 1M, and four bytes of zeros. *)
Definition demo_elf : block :=
  [0x7f; 0x45; 0x4c; 0x46] ++ replicate 20 0 ++ [0x0c; 0; 0x10; 0] ++ [52; 0; 0; 0] ++ replicate 12 0 ++ [1; 0] ++ replicate 6 0 ++
  [1; 0; 0; 0] ++ [0x58; 2; 0; 0] ++ [0; 0; 0x10; 0x80] ++ [0; 0; 0x10; 0] ++ [5; 0; 0; 0] ++ [9; 0; 0; 0] ++ replicate 436 0.
Definition demo_kernel : Z → Z → block := λ _ o, if decide (o = 1) then demo_elf else (λ k, k `mod` 256) <$> seqZ o 512.
Definition demo_boot : boot (H := polled) := Boot (Polled (Controller ∅ Idle demo_kernel (λ d, bool_decide (d = 0)) true)) (λ _, 77).

Lemma demo_elf_disk_ok : disk_ok demo_kernel.
Proof. intros o. unfold demo_kernel. case_decide; [vm_compute; reflexivity|]. by rewrite length_fmap, length_seqZ. Qed.

Lemma demo_byte k : 0 ≤ file_byte demo_kernel k < 256.
Proof.
  unfold file_byte. set (o := k / SECTSIZE + 1). assert (Hall : Forall (λ b, 0 ≤ b < 256) (demo_kernel 0 o)).
  { unfold demo_kernel. case_decide.
    - apply Forall_forall. intros x Hx. assert (Hb : forallb (λ b, (0 <=? b) && (b <? 256)) demo_elf = true) by (vm_compute; reflexivity).
      rewrite forallb_forall in Hb. specialize (Hb x (proj1 (list_elem_of_In _ _) Hx)). lia.
    - apply Forall_fmap, Forall_true. intros x. apply Z.mod_pos_bound. lia. }
  apply (Forall_lookup_total_1 _ _ _ Hall). rewrite demo_elf_disk_ok. pose proof (Z.mod_pos_bound k SECTSIZE ltac:(done)). apply Z2Nat.inj_lt; [lia|done|lia].
Qed.

Lemma demo_header : mem32 (file_byte demo_kernel) 0 = ELF_MAGIC ∧ mem32 (file_byte demo_kernel) 24 = 0x10000c ∧ phoff demo_kernel = 52 ∧ phnum demo_kernel = 1 ∧
  seg_at demo_kernel 0 = Seg 600 0x100000 5 9.
Proof. vm_compute. split_and!; reflexivity. Qed.

Lemma demo_kernel_ok : image_ok demo_kernel.
Proof.
  destruct demo_header as (_ & _ & Ho & Hn & Hg). split; [exact demo_elf_disk_ok|exact demo_byte|rewrite Ho, Hn; done|rewrite Hn..].
  - intros i Hi. replace i with 0 by lia. rewrite Hg. vm_compute. split; intros ?; discriminate.
  - intros i Hi. replace i with 0 by lia. rewrite Hg. right. vm_compute. intros ?; discriminate.
  - lia.
Qed.

Lemma bootmain_correct_witness : ∃ s', bootmain demo_boot = Done (Some 0x10000c) s' ∧ bt_mem s' 0x100000 = 90 ∧ bt_mem s' 0x100008 = 0 ∧ bt_mem s' 0x7c00 = 77.
Proof.
  destruct demo_header as (Hmagic & Hentry & _ & Hn & Hg).
  destruct (bootmain_correct demo_kernel demo_boot demo_elf_disk_ok) as [_ Hrun]; [by vm_compute|done|].
  destruct (Hrun Hmagic demo_kernel_ok) as (s' & Hdone & Hl & Hfr). exists s'. rewrite Hentry in Hdone. split; [exact Hdone|].
  specialize (Hl 0 ltac:(rewrite Hn; lia)). rewrite Hg in Hl. split; [|split].
  - rewrite <-(Z.add_0_r 0x100000). etrans; [exact (Hl 0 ltac:(vm_compute; split; congruence))|vm_compute; reflexivity].
  - change 0x100008 with (0x100000 + 8). etrans; [exact (Hl 8 ltac:(vm_compute; split; congruence))|vm_compute; reflexivity].
  - rewrite Hfr; [done|unfold ELFADDR, SECTSIZE; lia|]. intros j Hj. rewrite Hn in Hj. replace j with 0 by lia. rewrite Hg. change (seg_lo _) with 0xfffa8. lia.
Defined.
