(* ===== verification/CString.v ===== *)
(** * The kernel's memory and string routines (string.c)

    Memory is a list of bytes, a pointer an index into it. The copy loops run
    byte by byte in the code's direction, so that overlapping regions behave
    as in the code; the theorems say that the result is nevertheless the
    simultaneous copy. *)

From S2P Require Import Prelude.

Abbreviation mem := (list Z).

(** ** memset, with the word-at-a-time branch *)

Fixpoint stosb (addr : nat) (data : Z) (cnt : nat) (m : mem) : mem :=
  match cnt with
  | O => m
  | S cnt => stosb (addr + 1) data cnt (<[addr := u8 data]> m)
  end.

Fixpoint stosl (addr : nat) (data : Z) (cnt : nat) (m : mem) : mem :=
  match cnt with
  | O => m
  | S cnt => stosl (addr + 4) data cnt (put32 addr data m)
  end.

Definition memset (dst : nat) (c : Z) (n : nat) (m : mem) : mem :=
  if decide (dst `mod` 4 = 0 ∧ n `mod` 4 = 0) then
    let c := Z.land c 255 in
    stosl dst (Z.lor (Z.lor (Z.lor (Z.shiftl c 24) (Z.shiftl c 16)) (Z.shiftl c 8)) c) (n `div` 4) m
  else stosb dst c n m.

(** ** memcmp, memmove *)

Fixpoint memcmp (s1 s2 n : nat) (m : mem) : Z :=
  match n with
  | O => 0
  | S n =>
    if decide (m !!! s1 ≠ m !!! s2) then (m !!! s1 - m !!! s2)%Z
    else memcmp (s1 + 1) (s2 + 1) n m
  end.

Fixpoint copy_up (d s n : nat) (m : mem) : mem :=
  match n with
  | O => m
  | S n => copy_up (d + 1) (s + 1) n (<[d := m !!! s]> m)
  end.

(** [*--d = *--s], from [d + n] and [s + n] down. *)
Fixpoint copy_down (d s n : nat) (m : mem) : mem :=
  match n with
  | O => m
  | S n => copy_down d s n (<[d + n := m !!! (s + n)]> m)
  end.

Definition memmove (dst src n : nat) (m : mem) : mem :=
  if decide (src < dst ∧ dst < src + n) then copy_down dst src n m else copy_up dst src n m.

Definition memcpy (dst src n : nat) (m : mem) : mem := memmove dst src n m.

(** ** Strings *)

Fixpoint strncmp (p q n : nat) (m : mem) : Z :=
  match n with
  | O => 0
  | S n =>
    if decide (m !!! p ≠ 0%Z ∧ m !!! p = m !!! q) then strncmp (p + 1) (q + 1) n m
    else (m !!! p - m !!! q)%Z
  end.

(** The first loop of [strncpy] and [safestrcpy]: copies up to [n] bytes, a
    NUL included; returns what is left of [n] and [s]. *)
Fixpoint copy_str (s t n : nat) (m : mem) : nat * nat * mem :=
  match n with
  | O => (0, s, m)
  | S n =>
    let m := <[s := m !!! t]> m in
    if decide (m !!! s = 0%Z) then (n, s + 1, m) else copy_str (s + 1) (t + 1) n m
  end.

Definition strncpy (s t : nat) (n : Z) (m : mem) : mem :=
  let '(n, s, m) := copy_str s t (Z.to_nat n) m in
  stosb s 0 n m.

Fixpoint copy_safe (s t n : nat) (m : mem) : nat * mem :=
  match n with
  | O => (s, m)
  | S n =>
    let m := <[s := m !!! t]> m in
    if decide (m !!! s = 0%Z) then (s + 1, m) else copy_safe (s + 1) (t + 1) n m
  end.

Definition safestrcpy (s t : nat) (n : Z) (m : mem) : mem :=
  if decide (n ≤ 0)%Z then m else
  let '(s, m) := copy_safe s t (Z.to_nat n - 1) m in
  <[s := 0%Z]> m.

(** The length of the string at [s]; [fuel] bounds the scan by the end of
    memory. *)
Fixpoint strlen_from (fuel s n : nat) (m : mem) : option nat :=
  match fuel with
  | O => None
  | S fuel => if decide (m !!! (s + n) = 0%Z) then Some n else strlen_from fuel s (n + 1) m
  end.

Definition strlen (s : nat) (m : mem) : option nat := strlen_from (length m) s 0 m.

(** ** The routines as functions on byte strings

    [cstr m p str]: a NUL-terminated [str] is at [p]. *)

Definition cstr (m : mem) (p : nat) (str : list Z) : Prop :=
  bytes_at p (length str) m = str ∧ m !! (p + length str) = Some 0%Z ∧ Forall (λ c, c ≠ 0%Z) str.

(** The string before the first NUL. *)
Fixpoint until_nul (n : list Z) : list Z :=
  match n with
  | [] => []
  | c :: n => if decide (c = 0%Z) then [] else c :: until_nul n
  end.

(** [safestrcpy] on byte strings: [dst] after the copy of [str]. *)
Definition safe_name (n : nat) (str dst : list Z) : list Z :=
  splice 0 (take (n - 1) (until_nul str ++ [0%Z]) ++ [0%Z]) dst.

(** What [strncpy] leaves in an [n]-byte field. *)
Definition pad_name (n : nat) (str : list Z) : list Z :=
  take n str ++ replicate (n - length str) 0%Z.

Lemma insert_as_splice (m : mem) i x : i < length m → <[i := x]> m = splice i [x] m.
Proof. intros. unfold splice. rewrite insert_take_drop by done. simpl. by rewrite Nat.add_1_r. Qed.

Lemma splice_splice_app off a b (m : mem) :
  off + length a + length b ≤ length m →
  splice (off + length a) b (splice off a m) = splice off (a ++ b) m.
Proof.
  intros Hl. apply list_eq. intros i.
  rewrite !lookup_splice; rewrite ?splice_length, ?length_app by (rewrite ?length_app; lia); [|lia..].
  repeat case_decide; try lia; [rewrite lookup_app_r by lia; f_equal; lia|by rewrite lookup_app_l by lia|done].
Qed.

Lemma splice_nil off (m : mem) : splice off [] m = m.
Proof. unfold splice. simpl. rewrite Nat.add_0_r. apply take_drop. Qed.

Lemma stosb_spec addr c n m :
  addr + n ≤ length m → stosb addr c n m = splice addr (replicate n (u8 c)) m.
Proof.
  revert addr m. induction n as [|n IH]; intros addr m Hl; simpl; [by rewrite splice_nil|].
  rewrite IH by (rewrite length_insert; lia).
  rewrite insert_as_splice by lia. apply (splice_splice_app addr [u8 c]).
  rewrite length_replicate. simpl. lia.
Qed.

Lemma stosl_spec addr v c n m :
  le_enc 4 v = replicate 4 c → addr + 4 * n ≤ length m →
  stosl addr v n m = splice addr (replicate (4 * n) c) m.
Proof.
  intros Hv. revert addr m. induction n as [|n IH]; intros addr m Hl; [by rewrite splice_nil|].
  cbn [stosl]. rewrite IH by (unfold put32; rewrite splice_length; rewrite ?le_enc_length; lia).
  unfold put32. rewrite Hv. replace (4 * S n) with (4 + 4 * n) by lia. rewrite replicate_add.
  apply (splice_splice_app addr (replicate 4 c)). rewrite !length_replicate. lia.
Qed.

(** The word [stosl] stores is four copies of the byte. *)
Lemma fill_word c :
  is_byte c →
  le_enc 4 (Z.lor (Z.lor (Z.lor (Z.shiftl c 24) (Z.shiftl c 16)) (Z.shiftl c 8)) c) = replicate 4 c.
Proof.
  intros Hc. unfold is_byte in Hc. apply (bool_decide_eq_true_1 (_ = _)).
  assert (Hall : forallb (λ c, bool_decide (le_enc 4 (Z.lor (Z.lor (Z.lor (Z.shiftl c 24)
    (Z.shiftl c 16)) (Z.shiftl c 8)) c) = replicate 4 c)) (seqZ 0 256) = true)
    by (vm_compute; reflexivity).
  rewrite forallb_forall in Hall. apply Hall, list_elem_of_In, elem_of_seqZ. lia.
Qed.

Lemma land_255 c : Z.land c 255 = u8 c.
Proof. apply (Z.land_ones c 8). lia. Qed.

Lemma memset_splice dst c n m :
  dst + n ≤ length m → memset dst c n m = splice dst (replicate n (u8 c)) m.
Proof.
  intros Hl. unfold memset. case_decide as Ha; [|by apply stosb_spec].
  destruct Ha as [_ Hn]. rewrite land_255.
  assert (n = 4 * (n `div` 4)) as Hn4 by (pose proof (Nat.div_mod_eq n 4); lia).
  rewrite (stosl_spec _ _ (u8 c)); [by rewrite <-Hn4| |lia].
  apply fill_word. by apply Z.mod_pos_bound.
Qed.

(** Copying up is right unless the source starts below an overlapping
    destination. *)
Lemma copy_up_spec d s n m :
  s + n ≤ length m → d + n ≤ length m → d ≤ s ∨ s + n ≤ d →
  copy_up d s n m = splice d (bytes_at s n m) m.
Proof.
  revert d s m. induction n as [|n IH]; intros d s m Hs Hd Hov; simpl; [by rewrite splice_nil|].
  rewrite IH by (rewrite ?length_insert; lia). rewrite insert_as_splice by lia.
  destruct (lookup_lt_is_Some_2 m s) as [x Hx]; [lia|].
  rewrite (list_lookup_total_correct _ _ _ Hx).
  rewrite bytes_at_splice_ne by (simpl; lia).
  rewrite (splice_splice_app d [x]) by (rewrite bytes_at_length; simpl; lia).
  f_equal. unfold bytes_at. rewrite (drop_S _ _ _ Hx). simpl. by rewrite Nat.add_1_r.
Qed.

Lemma copy_down_spec d s n m :
  s + n ≤ length m → d + n ≤ length m → s ≤ d →
  copy_down d s n m = splice d (bytes_at s n m) m.
Proof.
  revert m. induction n as [|n IH]; intros m Hs Hd Hov; simpl; [by rewrite splice_nil|].
  rewrite IH by (rewrite ?length_insert; lia).
  destruct (lookup_lt_is_Some_2 m (s + n)) as [x Hx]; [lia|].
  rewrite (list_lookup_total_correct _ _ _ Hx).
  apply list_eq. intros i.
  rewrite !lookup_splice; rewrite ?bytes_at_length, ?length_insert by (rewrite ?length_insert; lia); [|lia..].
  rewrite !lookup_bytes_at. repeat case_decide; try lia.
  - by rewrite list_lookup_insert_ne by lia.
  - replace i with (d + n) by lia. rewrite list_lookup_insert_eq by lia.
    rewrite <-Hx. f_equal. lia.
  - by rewrite list_lookup_insert_ne by lia.
Qed.

Lemma memmove_splice dst src n m :
  src + n ≤ length m → dst + n ≤ length m →
  memmove dst src n m = splice dst (bytes_at src n m) m.
Proof.
  intros. unfold memmove. case_decide; [apply copy_down_spec; lia|apply copy_up_spec; lia].
Qed.

Lemma cstr_cons m p c str : cstr m p (c :: str) ↔ m !! p = Some c ∧ c ≠ 0%Z ∧ cstr m (p + 1) str.
Proof.
  unfold cstr, bytes_at. rewrite Forall_cons, Nat.add_1_r. simpl length.
  replace (p + S (length str)) with (S p + length str) by lia. split.
  - intros (Hb & Hz & Hc & Hf). destruct (m !! p) as [x|] eqn:Hx.
    + rewrite (drop_S _ _ _ Hx) in Hb. simpl in Hb. by simplify_eq.
    + rewrite drop_ge in Hb by (by apply lookup_ge_None_1). done.
  - intros (Hx & Hc & Hb & Hz & Hf). rewrite (drop_S _ _ _ Hx). simpl. by rewrite Hb.
Qed.

Lemma cstr_nil m p : cstr m p [] ↔ m !! p = Some 0%Z.
Proof. unfold cstr. simpl. rewrite Nat.add_0_r. unfold bytes_at. simpl. naive_solver. Qed.

(** A store outside the string leaves it alone. *)
Lemma cstr_insert m p str i x : cstr m p str → (i < p ∨ p + length str < i) → cstr (<[i := x]> m) p str.
Proof.
  intros (Hb & Hz & Hf) Hi. split_and!; [|by rewrite list_lookup_insert_ne by lia|done].
  rewrite <-Hb at 2. apply list_eq. intros j. rewrite !lookup_bytes_at. case_decide; [|done].
  apply list_lookup_insert_ne. lia.
Qed.

(** What the copy loop does: [str] and its NUL, cut at [n]. *)
Lemma copy_str_spec s t n m str :
  cstr m t str → s + n ≤ length m → s + n ≤ t ∨ t + length str < s →
  copy_str s t n m =
    (n - S (length str), s + Nat.min n (S (length str)), splice s (take n (str ++ [0%Z])) m).
Proof.
  revert s t m str. induction n as [|n IH]; intros s t m str Hc Hl Hd; cbn [copy_str].
  { rewrite splice_nil. f_equal. f_equal. lia. }
  destruct str as [|c str].
  - apply cstr_nil in Hc. rewrite (list_lookup_total_correct _ _ _ Hc).
    rewrite list_lookup_total_insert_eq by lia. rewrite decide_True by done.
    rewrite insert_as_splice by lia. simpl. rewrite take_nil.
    f_equal; f_equal; lia.
  - apply cstr_cons in Hc as (Hx & Hnz & Hc). rewrite (list_lookup_total_correct _ _ _ Hx).
    rewrite list_lookup_total_insert_eq by lia. rewrite decide_False by done.
    simpl in Hd. rewrite (IH _ _ _ str); [|apply cstr_insert; [done|lia]|rewrite length_insert; lia|lia].
    rewrite insert_as_splice by lia. simpl.
    rewrite (splice_splice_app s [c]).
    + f_equal. f_equal. lia.
    + rewrite length_take. simpl. lia.
Qed.

Lemma take_pad n str :
  take n (str ++ [0%Z]) ++ replicate (n - S (length str)) 0%Z = pad_name n str.
Proof.
  unfold pad_name. destruct (decide (n ≤ length str)).
  - rewrite take_app_le by done. by replace (n - S (length str)) with (n - length str) by lia.
  - rewrite !take_ge by (rewrite ?length_app; simpl; lia).
    replace (n - length str) with (S (n - S (length str))) by lia. simpl. by rewrite <-app_assoc.
Qed.

Lemma strncpy_splice s t n m str :
  (0 ≤ n)%Z → cstr m t str → s + Z.to_nat n ≤ length m →
  s + Z.to_nat n ≤ t ∨ t + length str < s →
  strncpy s t n m = splice s (pad_name (Z.to_nat n) str) m.
Proof.
  intros Hn Hc Hl Hd. unfold strncpy. rewrite (copy_str_spec _ _ _ _ _ Hc Hl Hd).
  set (k := Z.to_nat n) in *.
  assert (Hlen : length (take k (str ++ [0%Z])) = Nat.min k (S (length str))).
  { rewrite length_take, length_app. simpl. lia. }
  rewrite stosb_spec by (rewrite splice_length; lia).
  rewrite <-Hlen, splice_splice_app by (rewrite length_replicate; lia).
  by rewrite <-take_pad.
Qed.

Lemma copy_safe_spec s t n m str :
  cstr m t str → s + n ≤ length m → s + n ≤ t ∨ t + length str < s →
  copy_safe s t n m =
    (s + Nat.min n (S (length str)), splice s (take n (str ++ [0%Z])) m).
Proof.
  intros Hc Hl Hd. pose proof (copy_str_spec _ _ _ _ _ Hc Hl Hd) as Hs.
  assert (Heq : ∀ s t n m, copy_safe s t n m = let '(_, s, m) := copy_str s t n m in (s, m)).
  { clear. intros s t n. revert s t. induction n as [|n IH]; intros s t m; simpl; [done|].
    case_decide; [done|apply IH]. }
  by rewrite Heq, Hs.
Qed.

Lemma safestrcpy_splice s t n m str :
  (0 < n)%Z → cstr m t str → s + Z.to_nat n ≤ length m →
  s + Z.to_nat n ≤ t ∨ t + length str < s →
  safestrcpy s t n m = splice s (take (Z.to_nat n - 1) (str ++ [0%Z]) ++ [0%Z]) m.
Proof.
  intros Hn Hc Hl Hd. unfold safestrcpy. rewrite decide_False by lia.
  rewrite (copy_safe_spec _ _ _ _ _ Hc) by lia. set (k := Z.to_nat n) in *.
  assert (Hlen : length (take (k - 1) (str ++ [0%Z])) = Nat.min (k - 1) (S (length str))).
  { rewrite length_take, length_app. simpl. lia. }
  rewrite insert_as_splice by (rewrite splice_length; lia).
  rewrite <-Hlen. apply splice_splice_app. simpl. lia.
Qed.

(** [strncmp] on byte strings: reading past the end gives the NUL. *)
Fixpoint strncmp_l (a b : list Z) (n : nat) : Z :=
  match n with
  | O => 0
  | S n =>
    if decide (hd 0%Z a ≠ 0%Z ∧ hd 0%Z a = hd 0%Z b) then strncmp_l (tail a) (tail b) n
    else (hd 0%Z a - hd 0%Z b)%Z
  end.

Lemma lookup_total_hd (m : mem) p : p < length m → m !!! p = hd 0%Z (drop p m).
Proof.
  intros Hp. destruct (lookup_lt_is_Some_2 m p Hp) as [x Hx].
  by rewrite (list_lookup_total_correct _ _ _ Hx), (drop_S _ _ _ Hx).
Qed.

Lemma tail_drop_1 (m : mem) p : tail (drop p m) = drop (p + 1) m.
Proof. rewrite <-drop_drop. by destruct (drop p m). Qed.

Lemma strncmp_drop p q n m :
  p + n ≤ length m → q + n ≤ length m →
  strncmp p q n m = strncmp_l (drop p m) (drop q m) n.
Proof.
  revert p q. induction n as [|n IH]; intros p q Hp Hq; simpl; [done|].
  by rewrite !lookup_total_hd, IH, !tail_drop_1 by lia.
Qed.

(** ** Claims *)

(** C6. The copying routines. [memmove] is right for every overlap of source and
    destination: the destination ends up with the bytes the source had. [memset]
    fills [n] bytes with the low byte of [c] whichever branch it takes: the word
    stores of the aligned case are equivalent to byte stores. [strncpy] fills a
    field of [n] bytes with the string cut at [n] and padded with NULs (no
    terminator when the string is longer), and [safestrcpy] always leaves a
    terminator inside the field. None changes a byte outside the destination. *)
Theorem copies_correct m dst :
  (∀ src n, src + n ≤ length m → dst + n ≤ length m → memmove dst src n m = splice dst (bytes_at src n m) m) ∧
  (∀ c n, dst + n ≤ length m →
    memset dst c n m = splice dst (replicate n (u8 c)) m ∧ memset dst c n m = stosb dst c n m) ∧
  ∀ t n str, (0 < n)%Z → cstr m t str → dst + Z.to_nat n ≤ length m →
    dst + Z.to_nat n ≤ t ∨ t + length str < dst →
    strncpy dst t n m = splice dst (pad_name (Z.to_nat n) str) m ∧
    safestrcpy dst t n m = splice dst (take (Z.to_nat n - 1) (str ++ [0%Z]) ++ [0%Z]) m.
Proof.
  split; [|split].
  - intros. by apply memmove_splice.
  - intros. rewrite memset_splice, stosb_spec; done.
  - intros. split; [apply strncpy_splice; [lia|done..]|by apply safestrcpy_splice].
Qed.

Lemma copies_correct_witness :
  memmove 1 0 3 [10; 20; 30; 40; 50]%Z = [10; 10; 20; 30; 50]%Z ∧
  memset 4 511 4 [0; 1; 2; 3; 4; 5; 6; 7; 8]%Z = [0; 1; 2; 3; 255; 255; 255; 255; 8]%Z ∧
  strncpy 4 0 3 [97; 98; 0; 7; 1; 1; 1; 1]%Z = [97; 98; 0; 7; 97; 98; 0; 1]%Z ∧
  safestrcpy 4 0 2 [97; 98; 0; 7; 1; 1; 1; 1]%Z = [97; 98; 0; 7; 97; 0; 1; 1]%Z.
Proof.
  assert (Hc : cstr [97; 98; 0; 7; 1; 1; 1; 1]%Z 0 [97; 98]%Z).
  { split_and!; [reflexivity|reflexivity|]. repeat constructor; lia. }
  split; [|split; [|split]].
  - rewrite (proj1 (copies_correct [10; 20; 30; 40; 50]%Z 1)) by (simpl; lia). reflexivity.
  - rewrite (proj1 (proj1 (proj2 (copies_correct [0; 1; 2; 3; 4; 5; 6; 7; 8]%Z 4)) 511%Z 4 ltac:(simpl; lia))). reflexivity.
  - rewrite (proj1 (proj2 (proj2 (copies_correct _ 4)) 0 3%Z _ ltac:(lia) Hc ltac:(simpl; lia) ltac:(simpl; lia))). reflexivity.
  - rewrite (proj2 (proj2 (proj2 (copies_correct _ 4)) 0 2%Z _ ltac:(lia) Hc ltac:(simpl; lia) ltac:(simpl; lia))). reflexivity.
Defined.
