(* ===== verification/Fs.v ===== *)
(** * The file system (fs.c, fs.h, the inode of file.h)

    fs.c over the log's interface (Journal.v): the block allocator, inodes and
    the inode cache, file contents, directories and path names. A [struct
    inode*] is an index into [icache.inode], the null pointer is [NULLINODE].
    A buffer that the code passes by address ([dst], [src], [poff], [name]) is
    a byte list passed or returned. Devices are reached through the function
    table [devsw]: its entries are arguments of the model. *)

From S2P Require Import Prelude Params Sleeplock Super CString Journal.

(** ** Data *)

Record inode := Inode {
  i_dev : Z;
  i_inum : Z;
  i_ref : Z;
  i_lock : sleeplock;
  i_valid : Z;
  i_type : Z;            (* copy of disk inode *)
  i_major : Z;
  i_minor : Z;
  i_nlink : Z;
  i_size : Z;
  i_addrs : list Z
}.

Record dinode := Dinode {
  d_type : Z;
  d_major : Z;
  d_minor : Z;
  d_nlink : Z;
  d_size : Z;
  d_addrs : list Z
}.

Record stat := Stat { st_dev : Z; st_ino : Z; st_type : Z; st_nlink : Z; st_size : Z }.

Record fstate (T : Type) := FState {
  fs_disk : T;
  fs_sb : superblock;
  fs_icache : list inode
}.
Arguments FState {T} _ _ _.
Arguments fs_disk {T} _.
Arguments fs_sb {T} _.
Arguments fs_icache {T} _.

Definition NULLINODE : nat := NINODE.
Definition NADDRS : nat := Z.to_nat (NDIRECT + 1).
Definition zero_inode : inode := Inode 0 0 0 (Sleeplock 0 0) 0 0 0 0 0 0 (replicate NADDRS 0%Z).
#[export] Instance inode_inhabited : Inhabited inode := populate zero_inode.

Definition set_iref (v : Z) (ip : inode) : inode :=
  Inode (i_dev ip) (i_inum ip) v (i_lock ip) (i_valid ip) (i_type ip) (i_major ip) (i_minor ip)
    (i_nlink ip) (i_size ip) (i_addrs ip).
Definition set_ilock (v : sleeplock) (ip : inode) : inode :=
  Inode (i_dev ip) (i_inum ip) (i_ref ip) v (i_valid ip) (i_type ip) (i_major ip) (i_minor ip)
    (i_nlink ip) (i_size ip) (i_addrs ip).
Definition set_ivalid (v : Z) (ip : inode) : inode :=
  Inode (i_dev ip) (i_inum ip) (i_ref ip) (i_lock ip) v (i_type ip) (i_major ip) (i_minor ip)
    (i_nlink ip) (i_size ip) (i_addrs ip).
Definition set_itype (v : Z) (ip : inode) : inode :=
  Inode (i_dev ip) (i_inum ip) (i_ref ip) (i_lock ip) (i_valid ip) v (i_major ip) (i_minor ip)
    (i_nlink ip) (i_size ip) (i_addrs ip).
Definition set_imajor (v : Z) (ip : inode) : inode :=
  Inode (i_dev ip) (i_inum ip) (i_ref ip) (i_lock ip) (i_valid ip) (i_type ip) v (i_minor ip)
    (i_nlink ip) (i_size ip) (i_addrs ip).
Definition set_iminor (v : Z) (ip : inode) : inode :=
  Inode (i_dev ip) (i_inum ip) (i_ref ip) (i_lock ip) (i_valid ip) (i_type ip) (i_major ip) v
    (i_nlink ip) (i_size ip) (i_addrs ip).
Definition set_inlink (v : Z) (ip : inode) : inode :=
  Inode (i_dev ip) (i_inum ip) (i_ref ip) (i_lock ip) (i_valid ip) (i_type ip) (i_major ip)
    (i_minor ip) v (i_size ip) (i_addrs ip).
Definition set_isize (v : Z) (ip : inode) : inode :=
  Inode (i_dev ip) (i_inum ip) (i_ref ip) (i_lock ip) (i_valid ip) (i_type ip) (i_major ip)
    (i_minor ip) (i_nlink ip) v (i_addrs ip).
Definition set_iaddr (k : nat) (v : Z) (ip : inode) : inode :=
  Inode (i_dev ip) (i_inum ip) (i_ref ip) (i_lock ip) (i_valid ip) (i_type ip) (i_major ip)
    (i_minor ip) (i_nlink ip) (i_size ip) (<[k := v]> (i_addrs ip)).
Definition set_iname (dev inum : Z) (ip : inode) : inode :=
  Inode dev inum 1 (i_lock ip) 0 (i_type ip) (i_major ip) (i_minor ip) (i_nlink ip) (i_size ip)
    (i_addrs ip).

(** ** The disk layout *)

Definition DINODESZ : nat := 64.
Definition IPB : Z := BSIZE / Z.of_nat DINODESZ.
Definition IBLOCK (i : Z) (sb : superblock) : Z := u32 (i / IPB + sb_inodestart sb).
Definition BBLOCK (b : Z) (sb : superblock) : Z := u32 (b / BPB + sb_bmapstart sb).

(** The bytes of a [struct dinode]: four shorts, the size, the addresses. *)
Definition dinode_enc (di : dinode) : list Z :=
  le_enc 2 (d_type di) ++ le_enc 2 (d_major di) ++ le_enc 2 (d_minor di) ++
  le_enc 2 (d_nlink di) ++ le_enc 4 (d_size di) ++ mjoin (le_enc 4 <$> d_addrs di).

Definition dinode_dec (bs : list Z) : dinode :=
  Dinode (s16 (get16 0 bs)) (s16 (get16 2 bs)) (s16 (get16 4 bs)) (s16 (get16 6 bs)) (get32 8 bs)
    ((λ k, get32 (12 + 4 * k) bs) <$> seq 0 NADDRS).

(** [(struct dinode* )bp->data + inum%IPB] *)
Definition dinode_off (inum : Z) : nat := DINODESZ * Z.to_nat (inum `mod` IPB).
Definition dinode_at (inum : Z) (d : block) : dinode :=
  dinode_dec (bytes_at (dinode_off inum) DINODESZ d).
Definition dinode_put (inum : Z) (di : dinode) (d : block) : block :=
  splice (dinode_off inum) (dinode_enc di) d.

Definition inode_dinode (ip : inode) : dinode :=
  Dinode (i_type ip) (i_major ip) (i_minor ip) (i_nlink ip) (i_size ip) (i_addrs ip).
Definition load_dinode (di : dinode) (ip : inode) : inode :=
  Inode (i_dev ip) (i_inum ip) (i_ref ip) (i_lock ip) (i_valid ip) (d_type di) (d_major di)
    (d_minor di) (d_nlink di) (d_size di) (d_addrs di).

(** Bits of a bitmap block. *)
Definition bit_mask (bi : nat) : Z := Z.shiftl 1 (Z.of_nat (bi `mod` 8)).
Definition bit_clear (d : block) (bi : nat) : bool :=
  (Z.land (d !!! (bi `div` 8)%nat) (bit_mask bi) =? 0)%Z.
Definition set_bit (bi : nat) (d : block) : block :=
  <[bi `div` 8 := u8 (Z.lor (d !!! (bi `div` 8)) (bit_mask bi))]> d.
Definition unset_bit (bi : nat) (d : block) : block :=
  <[bi `div` 8 := u8 (Z.land (d !!! (bi `div` 8)) (Z.lnot (bit_mask bi)))]> d.

(** A [struct dirent]: a ushort and [DIRSIZ] characters. *)
Definition DIRENTSZ : Z := 16.
Definition de_inum (de : list Z) : Z := get16 0 de.
Definition de_name (de : list Z) : list Z := bytes_at 2 DIRSIZ de.
Definition dirent_enc (inum : Z) (name : list Z) : list Z :=
  le_enc 2 inum ++ pad_name DIRSIZ name.

Definition namecmp (s t : list Z) : Z := strncmp_l s t DIRSIZ.

(** ** Paths *)

Definition slash : Z := 47.

Fixpoint skip_slashes (path : list Z) : list Z :=
  match path with
  | c :: rest => if decide (c = slash) then skip_slashes rest else path
  | [] => []
  end.

(** The prefix of [path] up to a slash or the end, and the rest. *)
Fixpoint take_elem (path : list Z) : list Z * list Z :=
  match path with
  | c :: rest =>
    if decide (c = slash) then ([], path)
    else let '(s, rest) := take_elem rest in (c :: s, rest)
  | [] => ([], [])
  end.

(** [name] is the caller's buffer of [DIRSIZ] bytes. *)
Definition skipelem (path name : list Z) : option (list Z * list Z) :=
  let path := skip_slashes path in
  match path with
  | [] => None
  | _ =>
    let '(s, rest) := take_elem path in
    let len := length s in
    let name :=
      if decide (DIRSIZ ≤ len) then splice 0 (take DIRSIZ s) name
      else splice len [0%Z] (splice 0 s name) in
    Some (skip_slashes rest, name)
  end.

(** ** The operations *)

Section fs_code.
Context {T : Type} `{Journal T}.

(** The current process and the device table. A device read returns the
    count and the bytes, a write the count. *)
Variable pid : Z.
Variable devsw_read : Z → option (nat → Z → M (fstate T) (Z * list Z)).
Variable devsw_write : Z → option (nat → list Z → Z → M (fstate T) Z).

Definition disk {A} (m : M T A) : M (fstate T) A :=
  zoom fs_disk (λ t s, FState t (fs_sb s) (fs_icache s)) m.
Definition getsb : M (fstate T) superblock := λ s, Done (fs_sb s) s.
Definition setsb (sb : superblock) : M (fstate T) unit :=
  mmodify (λ s, FState (fs_disk s) sb (fs_icache s)).
Definition geti (ip : nat) : M (fstate T) inode := λ s, Done (fs_icache s !!! ip) s.
Definition updi (ip : nat) (f : inode → inode) : M (fstate T) unit :=
  mmodify (λ s, FState (fs_disk s) (fs_sb s) (alter f ip (fs_icache s))).
Definition on_ilock {A} (ip : nat) (m : M sleeplock A) : M (fstate T) A :=
  zoom (λ s, i_lock (fs_icache s !!! ip))
       (λ lk s, FState (fs_disk s) (fs_sb s) (alter (set_ilock lk) ip (fs_icache s))) m.

(** Read the super block (here through a transaction). *)
Definition readsb_txn (dev : Z) : M (fstate T) superblock :=
  bp ← disk (jread dev 1);
  d ← disk (jdata bp);
  disk (jrelse bp);;
  mret (sb_of_bytes d).

(** Store a changed block, log it and release its buffer. *)
Definition log_release (bp : nat) (d : block) : M (fstate T) unit :=
  disk (jstore bp d);;
  disk (jlog bp);;
  disk (jrelse bp).

(** Zero a block. *)
Definition bzero (dev bno : Z) : M (fstate T) unit :=
  bp ← disk (jread dev (u32 bno));
  log_release bp zero_block.

(** One bitmap block of [balloc]'s outer loop. *)
Definition balloc_in (dev : Z) (sb : superblock) (b : Z) : M (fstate T) (option Z) :=
  bp ← disk (jread dev (BBLOCK b sb));
  d ← disk (jdata bp);
  match find (bit_clear d) (seq 0 (Z.to_nat (Z.min BPB (sb_size sb - b)))) with
  | Some bi =>
    log_release bp (set_bit bi d);;
    bzero dev (b + Z.of_nat bi);;
    mret (Some (b + Z.of_nat bi)%Z)
  | None => disk (jrelse bp);; mret None
  end.

(** Allocate a zeroed disk block. *)
Definition balloc (dev : Z) : M (fstate T) Z :=
  sb ← getsb;
  r ← msearch ((λ k, Z.of_nat k * BPB)%Z <$> seq 0 (Z.to_nat ((sb_size sb + BPB - 1) / BPB)))
        (balloc_in dev sb);
  match r with
  | Some b => mret b
  | None => panic "balloc: out of blocks"
  end.

(** Free a disk block. *)
Definition bfree (dev b : Z) : M (fstate T) unit :=
  sb ← readsb_txn dev;
  setsb sb;;
  bp ← disk (jread dev (BBLOCK b sb));
  d ← disk (jdata bp);
  let bi := Z.to_nat (b `mod` BPB) in
  if bit_clear d bi then panic "freeing free block" else
  log_release bp (unset_bit bi d).

Definition iinit (dev : Z) : M (fstate T) unit :=
  mfor (seq 0 NINODE) (λ i, updi i (set_ilock initsleeplock));;
  sb ← readsb_txn dev;
  setsb sb.

(** [iget]'s loop: a cached entry, or the first empty slot. *)
Fixpoint iget_scan (dev inum : Z) (l : list inode) (ip : nat) (empty : option nat) :
    nat + option nat :=
  match l with
  | [] => inr empty
  | x :: l =>
    if decide (i_ref x > 0 ∧ i_dev x = dev ∧ i_inum x = inum)%Z then inl ip
    else iget_scan dev inum l (S ip)
           (match empty with
            | Some _ => empty
            | None => if decide (i_ref x = 0%Z) then Some ip else None
            end)
  end.

(** Find the inode with number inum on device dev and return the in-memory
    copy. Does not lock the inode and does not read it from disk. *)
Definition iget (dev inum : Z) : M (fstate T) nat :=
  s ← mget;
  match iget_scan dev inum (fs_icache s) 0 None with
  | inl ip => updi ip (λ x, set_iref (i_ref x + 1) x);; mret ip
  | inr None => panic "iget: no inodes"
  | inr (Some ip) => updi ip (set_iname dev inum);; mret ip
  end.

(** One inode of [ialloc]'s loop. *)
Definition ialloc_try (dev type : Z) (inum : Z) : M (fstate T) (option nat) :=
  sb ← getsb;
  bp ← disk (jread dev (IBLOCK inum sb));
  d ← disk (jdata bp);
  if decide (d_type (dinode_at inum d) = 0%Z) then
    log_release bp (dinode_put inum (Dinode type 0 0 0 0 (replicate NADDRS 0%Z)) d);;
    ip ← iget dev inum;
    mret (Some ip)
  else disk (jrelse bp);; mret None.

(** Allocate an inode on device dev. *)
Definition ialloc (dev type : Z) : M (fstate T) nat :=
  sb ← getsb;
  r ← msearch (seqZ 1 (sb_ninodes sb - 1)) (ialloc_try dev type);
  match r with
  | Some ip => mret ip
  | None => panic "ialloc: no inodes"
  end.

(** Copy a modified in-memory inode to disk. *)
Definition iupdate (ip : nat) : M (fstate T) unit :=
  x ← geti ip;
  sb ← getsb;
  bp ← disk (jread (i_dev x) (IBLOCK (i_inum x) sb));
  d ← disk (jdata bp);
  log_release bp (dinode_put (i_inum x) (inode_dinode x) d).

Definition idup (ip : nat) : M (fstate T) nat :=
  updi ip (λ x, set_iref (i_ref x + 1) x);;
  mret ip.

(** Lock the given inode. Reads the inode from disk if necessary. *)
Definition ilock (ip : nat) : M (fstate T) unit :=
  x ← geti ip;
  assert_or_panic (negb (bool_decide (ip = NULLINODE) || (i_ref x <? 1)%Z)) "ilock";;
  on_ilock ip (acquiresleep pid);;
  x ← geti ip;
  if decide (i_valid x = 0%Z) then
    sb ← getsb;
    bp ← disk (jread (i_dev x) (IBLOCK (i_inum x) sb));
    d ← disk (jdata bp);
    updi ip (load_dinode (dinode_at (i_inum x) d));;
    disk (jrelse bp);;
    updi ip (set_ivalid 1);;
    x ← geti ip;
    assert_or_panic (negb (i_type x =? 0)%Z) "ilock: no type"
  else mret tt.

Definition iunlock (ip : nat) : M (fstate T) unit :=
  x ← geti ip;
  assert_or_panic (negb (bool_decide (ip = NULLINODE) || negb (holdingsleep (i_lock x)) ||
    (i_ref x <? 1)%Z)) "iunlock";;
  on_ilock ip releasesleep.

(** Free the blocks of the indirect block. *)
Definition itrunc_indirect (dev : Z) (bp : nat) : M (fstate T) unit :=
  mfor (seq 0 (Z.to_nat NINDIRECT)) (λ j,
    d ← disk (jdata bp);
    if decide (get32 (4 * j) d ≠ 0%Z) then bfree dev (get32 (4 * j) d) else mret tt).

(** Truncate inode (discard contents). *)
Definition itrunc (ip : nat) : M (fstate T) unit :=
  mfor (seq 0 (Z.to_nat NDIRECT)) (λ i,
    x ← geti ip;
    if decide (i_addrs x !!! i ≠ 0%Z) then
      bfree (i_dev x) (i_addrs x !!! i);;
      updi ip (set_iaddr i 0)
    else mret tt);;
  x ← geti ip;
  let ind := Z.to_nat NDIRECT in
  (if decide (i_addrs x !!! ind ≠ 0%Z) then
    bp ← disk (jread (i_dev x) (i_addrs x !!! ind));
    itrunc_indirect (i_dev x) bp;;
    disk (jrelse bp);;
    bfree (i_dev x) (i_addrs x !!! ind);;
    updi ip (set_iaddr ind 0)
  else mret tt);;
  updi ip (set_isize 0);;
  iupdate ip.

(** Drop a reference to an in-memory inode. *)
Definition iput (ip : nat) : M (fstate T) unit :=
  on_ilock ip (acquiresleep pid);;
  x ← geti ip;
  (if decide (i_valid x ≠ 0%Z ∧ i_nlink x = 0%Z ∧ i_ref x = 1%Z) then
    itrunc ip;;
    updi ip (set_itype 0);;
    iupdate ip;;
    updi ip (set_ivalid 0)
  else mret tt);;
  on_ilock ip releasesleep;;
  updi ip (λ x, set_iref (i_ref x - 1) x).

Definition iunlockput (ip : nat) : M (fstate T) unit := iunlock ip;; iput ip.

(** Return the disk block address of the nth block in inode ip. If there is
    no such block, bmap allocates one. *)
Definition bmap (ip : nat) (bn : Z) : M (fstate T) Z :=
  x ← geti ip;
  if decide (bn < NDIRECT)%Z then
    let addr := i_addrs x !!! Z.to_nat bn in
    if decide (addr = 0%Z) then
      addr ← balloc (i_dev x);
      updi ip (set_iaddr (Z.to_nat bn) addr);;
      mret addr
    else mret addr
  else
  let bn := (bn - NDIRECT)%Z in
  if decide (bn < NINDIRECT)%Z then
    let ind := Z.to_nat NDIRECT in
    addr ← (if decide (i_addrs x !!! ind = 0%Z) then
              addr ← balloc (i_dev x);
              updi ip (set_iaddr ind addr);;
              mret addr
            else mret (i_addrs x !!! ind));
    bp ← disk (jread (i_dev x) addr);
    d ← disk (jdata bp);
    addr ← (if decide (get32 (4 * Z.to_nat bn) d = 0%Z) then
              addr ← balloc (i_dev x);
              d ← disk (jdata bp);
              disk (jstore bp (put32 (4 * Z.to_nat bn) addr d));;
              disk (jlog bp);;
              mret addr
            else mret (get32 (4 * Z.to_nat bn) d));
    disk (jrelse bp);;
    mret addr
  else panic "bmap: out of range".

Definition stati (ip : nat) : M (fstate T) stat :=
  x ← geti ip;
  mret (Stat (i_dev x) (i_inum x) (i_type x) (i_nlink x) (i_size x)).

(** The copy loop of [readi]; each round moves at least one byte, so
    [n / BSIZE + 2] rounds are enough. *)
Fixpoint readi_loop (fuel : nat) (ip : nat) (off n tot : Z) (dst : list Z) : M (fstate T) (list Z) :=
  match fuel with
  | O => λ _, Diverge
  | S fuel =>
    if decide (tot < n)%Z then
      x ← geti ip;
      addr ← bmap ip (off / BSIZE)%Z;
      bp ← disk (jread (i_dev x) addr);
      let m := Z.min (n - tot) (BSIZE - off `mod` BSIZE) in
      d ← disk (jdata bp);
      disk (jrelse bp);;
      readi_loop fuel ip (off + m) n (tot + m)
        (dst ++ bytes_at (Z.to_nat (off `mod` BSIZE)) (Z.to_nat m) d)
    else mret dst
  end.

Definition io_fuel (n : Z) : nat := Z.to_nat (n / BSIZE) + 3.

(** Read data from inode. Returns the count (or -1) and the bytes. *)
Definition readi (ip : nat) (off n : Z) : M (fstate T) (Z * list Z) :=
  x ← geti ip;
  if decide (i_type x = T_DEV) then
    if decide (i_major x < 0 ∨ NDEV ≤ i_major x)%Z then mret ((-1)%Z, []) else
    match devsw_read (i_major x) with
    | None => mret ((-1)%Z, [])
    | Some f => f ip n
    end
  else
  if decide (i_size x < off ∨ u32 (off + n) < off)%Z then mret ((-1)%Z, []) else
  let n := if decide (i_size x < u32 (off + n))%Z then (i_size x - off)%Z else n in
  dst ← readi_loop (io_fuel n) ip off n 0 [];
  mret (n, dst).

(** The body of [writei]'s loop: copy [m] bytes into one block. *)
Definition writei_block (ip : nat) (src : list Z) (off tot m : Z) : M (fstate T) unit :=
  x ← geti ip;
  addr ← bmap ip (off / BSIZE)%Z;
  bp ← disk (jread (i_dev x) addr);
  d ← disk (jdata bp);
  log_release bp (splice (Z.to_nat (off `mod` BSIZE)) (bytes_at (Z.to_nat tot) (Z.to_nat m) src) d).

(** The copy loop of [writei]; returns the final offset. *)
Fixpoint writei_loop (fuel : nat) (ip : nat) (src : list Z) (off n tot : Z) : M (fstate T) Z :=
  match fuel with
  | O => λ _, Diverge
  | S fuel =>
    if decide (tot < n)%Z then
      let m := Z.min (n - tot) (BSIZE - off `mod` BSIZE) in
      writei_block ip src off tot m;;
      writei_loop fuel ip src (off + m) n (tot + m)
    else mret off
  end.

(** Write data to inode. *)
Definition writei (ip : nat) (src : list Z) (off n : Z) : M (fstate T) Z :=
  x ← geti ip;
  if decide (i_type x = T_DEV) then
    if decide (i_major x < 0 ∨ NDEV ≤ i_major x)%Z then mret (-1)%Z else
    match devsw_write (i_major x) with
    | None => mret (-1)%Z
    | Some f => f ip src n
    end
  else
  if decide (i_size x < off ∨ u32 (off + n) < off)%Z then mret (-1)%Z else
  if decide (MAXFILE * BSIZE < u32 (off + n))%Z then mret (-1)%Z else
  off ← writei_loop (io_fuel n) ip src off n 0;
  x ← geti ip;
  (if decide (0 < n ∧ i_size x < off)%Z then
     updi ip (set_isize off);;
     iupdate ip
   else mret tt);;
  mret n.

(** ** Directories *)

(** [dirlookup]'s loop: the offset and inode number of the first live entry
    called [name]. *)
Fixpoint dirlookup_loop (fuel : nat) (dp : nat) (name : list Z) (off : Z) :
    M (fstate T) (option (Z * Z)) :=
  match fuel with
  | O => λ _, Diverge
  | S fuel =>
    x ← geti dp;
    if decide (off < i_size x)%Z then
      r ← readi dp off DIRENTSZ;
      let '(cnt, de) := r in
      assert_or_panic (cnt =? DIRENTSZ)%Z "dirlookup read";;
      if decide (de_inum de = 0%Z) then dirlookup_loop fuel dp name (off + DIRENTSZ)
      else if decide (namecmp name (de_name de) = 0%Z) then mret (Some (off, de_inum de))
      else dirlookup_loop fuel dp name (off + DIRENTSZ)
    else mret None
  end.

Definition dir_fuel (size : Z) : nat := Z.to_nat (size / DIRENTSZ) + 2.

(** Look for a directory entry in a directory: the inode and the byte offset
    of the entry. *)
Definition dirlookup (dp : nat) (name : list Z) : M (fstate T) (option (nat * Z)) :=
  x ← geti dp;
  assert_or_panic (i_type x =? T_DIR)%Z "dirlookup not DIR";;
  r ← dirlookup_loop (dir_fuel (i_size x)) dp name 0;
  match r with
  | None => mret None
  | Some (off, inum) => ip ← iget (i_dev x) inum; mret (Some (ip, off))
  end.

(** [dirlink]'s loop: the offset of an empty entry, or the end. *)
Fixpoint dirlink_loop (fuel : nat) (dp : nat) (off : Z) : M (fstate T) Z :=
  match fuel with
  | O => λ _, Diverge
  | S fuel =>
    x ← geti dp;
    if decide (off < i_size x)%Z then
      r ← readi dp off DIRENTSZ;
      let '(cnt, de) := r in
      assert_or_panic (cnt =? DIRENTSZ)%Z "dirlink read";;
      if decide (de_inum de = 0%Z) then mret off else dirlink_loop fuel dp (off + DIRENTSZ)
    else mret off
  end.

(** Write a new directory entry (name, inum) into the directory dp. *)
Definition dirlink (dp : nat) (name : list Z) (inum : Z) : M (fstate T) Z :=
  r ← dirlookup dp name;
  match r with
  | Some (ip, _) => iput ip;; mret (-1)%Z
  | None =>
    x ← geti dp;
    off ← dirlink_loop (dir_fuel (i_size x)) dp 0;
    cnt ← writei dp (dirent_enc inum name) off DIRENTSZ;
    assert_or_panic (cnt =? DIRENTSZ)%Z "dirlink";;
    mret 0%Z
  end.

(** ** Path names *)

(** The loop of [namex]; the path gets shorter in every round. *)
Fixpoint namex_loop (fuel : nat) (parent : bool) (ip : nat) (path name : list Z) :
    M (fstate T) (option nat * list Z) :=
  match fuel with
  | O => λ _, Diverge
  | S fuel =>
    match skipelem path name with
    | None => if parent then iput ip;; mret (None, name) else mret (Some ip, name)
    | Some (path, name) =>
      ilock ip;;
      x ← geti ip;
      if decide (i_type x ≠ T_DIR) then iunlockput ip;; mret (None, name) else
      if decide (parent = true ∧ path = []) then iunlock ip;; mret (Some ip, name) else
      r ← dirlookup ip name;
      match r with
      | None => iunlockput ip;; mret (None, name)
      | Some (next, _) => iunlockput ip;; namex_loop fuel parent next path name
      end
    end
  end.

(** Look up and return the inode for a path name; [cwd] is the process's
    current directory, [name] the caller's buffer. *)
Definition namex (cwd : nat) (path : list Z) (parent : bool) (name : list Z) :
    M (fstate T) (option nat * list Z) :=
  ip ← (if decide (hd 0%Z path = slash) then iget ROOTDEV ROOTINO else idup cwd);
  namex_loop (S (length path)) parent ip path name.

Definition namei (cwd : nat) (path : list Z) : M (fstate T) (option nat) :=
  r ← namex cwd path false (replicate DIRSIZ 0%Z);
  mret r.1.

Definition nameiparent (cwd : nat) (path name : list Z) : M (fstate T) (option nat * list Z) :=
  namex cwd path true name.

End fs_code.
