(* ===== verification/FsDemo.v ===== *)
(** * A small file system image, for the witnesses

    Forty-eight blocks: boot block, superblock, a log of thirty blocks, two
    inode blocks, the bitmap and data blocks. Inode 1 is the root directory
    (block 35), inode 2 a file of 600 bytes (blocks 36 and 37). The blocks from
    38 on are free. *)

From S2P Require Import Prelude Params Sleeplock Cache Bio Super Log LogProof Journal CString Fs.

Definition demo_sb : superblock := Superblock 48 13 8 30 2 32 34.

Definition dir_name (c : Z) : list Z := [c].
Definition demo_dir : block :=
  splice 0 (dirent_enc 1 [46%Z] ++ dirent_enc 1 [46%Z; 46%Z] ++ dirent_enc 2 (dir_name 102)) zero_block.
Definition demo_root : dinode := Dinode T_DIR 0 0 1 48 (35%Z :: replicate 12 0%Z).
Definition demo_file : dinode := Dinode T_FILE 0 0 1 600 (36%Z :: 37%Z :: replicate 11 0%Z).
Definition demo_inodes : block := dinode_put 2 demo_file (dinode_put 1 demo_root zero_block).
Definition demo_bitmap : block := splice 0 [255; 255; 255; 255; 63]%Z zero_block.
Definition demo_data (c : Z) : block := replicate (Z.to_nat BSIZE) c.

Definition demo_image : list block :=
  [zero_block; splice 0 (sb_to_bytes demo_sb) zero_block] ++ replicate 30 zero_block ++
  [demo_inodes; zero_block; demo_bitmap; demo_dir; demo_data 65; demo_data 66] ++ replicate 10 zero_block.

Definition blk_okb (d : block) : bool :=
  (length d =? Z.to_nat BSIZE) && forallb (λ b, (0 <=? b)%Z && (b <? 256)%Z) d.

Lemma blk_okb_ok d : blk_okb d = true → blk_ok d.
Proof.
  unfold blk_okb, blk_ok. intros [Hl Hb]%andb_true_iff. split; [by apply Nat.eqb_eq|].
  apply Forall_forall. intros x Hx%list_elem_of_In. rewrite forallb_forall in Hb.
  specialize (Hb _ Hx). unfold is_byte. lia.
Qed.

Lemma demo_image_ok : Forall blk_ok demo_image.
Proof.
  apply Forall_forall. intros d Hd%list_elem_of_In. apply blk_okb_ok.
  assert (Hall : forallb blk_okb demo_image = true) by (vm_compute; reflexivity).
  rewrite forallb_forall in Hall. by apply Hall.
Qed.

(** The image after boot, with one system call admitted. *)
Definition demo_log : log := Log 2 30 1 0 ROOTDEV (LogHeader 0 (replicate (Z.to_nat LOGSIZE) 0%Z)).
Definition demo_t : lstate bstate := LState (BState boot_bufs demo_image []) demo_log.
Definition demo_j : jstate := JState demo_image demo_image ∅ ∅ 2 30.

Lemma demo_length : length demo_image = 48.
Proof. reflexivity. Qed.

Lemma demo_txn : txn demo_log (fresh demo_image) 2 30 [].
Proof.
  constructor; cbn [fresh c_disk c_dirty c_held c_view].
  - constructor; [done|done|done|rewrite demo_length; lia|lia|rewrite demo_length; lia].
  - constructor; [done|done|done].
  - apply log_list_nil. lia.
  - done.
  - simpl. plia.
  - done.
  - exists zero_block. split; [reflexivity|]. split; [vm_compute; reflexivity|done].
Qed.

#[export] Instance demo_cache : BlockCache bstate := bio_cache 1.
#[export] Instance demo_cache_spec : BlockCacheSpec bstate := bio_cache_spec 1.

Lemma demo_jrep : jrep demo_t demo_j.
Proof.
  exists (fresh demo_image), [], 2, 30. split_and!; [|exact demo_txn|done|vm_compute; lia|done].
  apply boot_rep, demo_image_ok.
Qed.

#[global] Opaque demo_image demo_t.
