(* ===== verification/FsBlocks.v ===== *)
(** * The block allocator (fs.c [bzero], [balloc], [bfree])

    The bitmap on disk read as a set of used blocks; allocation returns the
    first free block, zeroed, and changes nothing else. *)

From S2P Require Import Prelude Params Sleeplock Bio Super CString Log LogProof Journal Fs FsDemo.

(** ** Bits *)

Lemma testbit_mask x k : (0 ≤ k)%Z → (Z.land x (Z.shiftl 1 k) =? 0)%Z = negb (Z.testbit x k).
Proof.
  intros Hk. rewrite Z.shiftl_1_l. destruct (Z.testbit x k) eqn:Hb; simpl.
  - apply Z.eqb_neq. intros Hz. assert (Z.testbit (Z.land x (2 ^ k)) k = true).
    { by rewrite Z.land_spec, Hb, Z.pow2_bits_true. }
    by rewrite Hz, Z.bits_0 in *.
  - apply Z.eqb_eq, Z.bits_inj'. intros n Hn. rewrite Z.bits_0, Z.land_spec.
    destruct (decide (n = k)) as [->|]; [by rewrite Hb|].
    by rewrite (Z.pow2_bits_false k n), andb_false_r.
Qed.

Lemma testbit_u8 x k : (0 ≤ k < 8)%Z → Z.testbit (u8 x) k = Z.testbit x k.
Proof. intros. unfold u8. by rewrite Z.mod_pow2_bits_low by lia. Qed.

Lemma bit_clear_spec d bi :
  bit_clear d bi = negb (Z.testbit (d !!! (bi `div` 8)) (Z.of_nat (bi `mod` 8))).
Proof. unfold bit_clear, bit_mask. apply testbit_mask. lia. Qed.

Lemma byte_index bi bj : bi `div` 8 = bj `div` 8 → bi `mod` 8 = bj `mod` 8 → bi = bj.
Proof. intros. rewrite (Nat.div_mod_eq bi 8), (Nat.div_mod_eq bj 8). congruence. Qed.

Lemma bit_range bi : (0 ≤ Z.of_nat (bi `mod` 8) < 8)%Z.
Proof. pose proof (Nat.mod_upper_bound bi 8 ltac:(lia)). lia. Qed.

Lemma bit_clear_set d bi bj :
  bi `div` 8 < length d →
  bit_clear (set_bit bi d) bj = if decide (bi = bj) then false else bit_clear d bj.
Proof.
  intros Hlt. rewrite !bit_clear_spec. unfold set_bit.
  pose proof (bit_range bi). pose proof (bit_range bj).
  destruct (decide (bi `div` 8 = bj `div` 8)) as [He|Hne].
  - rewrite <-He, list_lookup_total_insert_eq, testbit_u8 by done.
    rewrite Z.lor_spec. unfold bit_mask. rewrite Z.shiftl_1_l.
    case_decide as Hb; [subst; rewrite Z.pow2_bits_true by lia; by rewrite orb_true_r|].
    rewrite Z.pow2_bits_false, orb_false_r; [done|]. intros Hm. apply Hb, byte_index; [done|lia].
  - rewrite list_lookup_total_insert_ne by done. by rewrite decide_False by (by intros ->).
Qed.

Lemma bit_clear_unset d bi bj :
  bi `div` 8 < length d →
  bit_clear (unset_bit bi d) bj = if decide (bi = bj) then true else bit_clear d bj.
Proof.
  intros Hlt. rewrite !bit_clear_spec. unfold unset_bit.
  pose proof (bit_range bi). pose proof (bit_range bj).
  destruct (decide (bi `div` 8 = bj `div` 8)) as [He|Hne].
  - rewrite <-He, list_lookup_total_insert_eq, testbit_u8 by done.
    rewrite Z.land_spec, Z.lnot_spec by lia. unfold bit_mask. rewrite Z.shiftl_1_l.
    case_decide as Hb; [subst; rewrite Z.pow2_bits_true by lia; by rewrite andb_false_r|].
    rewrite Z.pow2_bits_false, andb_true_r; [done|]. intros Hm. apply Hb, byte_index; [done|lia].
  - rewrite list_lookup_total_insert_ne by done. by rewrite decide_False by (by intros ->).
Qed.

Lemma blk_ok_insert_u8 d i x : blk_ok d → blk_ok (<[i := u8 x]> d).
Proof.
  intros [Hl Hb]. split; [by rewrite length_insert|].
  apply Forall_insert; [done|]. by apply Z.mod_pos_bound.
Qed.

(** ** The bitmap as a predicate on blocks *)

Definition BPBn : nat := Z.to_nat BPB.
Lemma BPBn_Z : Z.of_nat BPBn = BPB.
Proof. reflexivity. Qed.
#[global] Opaque BPBn.
Definition nblk (sb : superblock) : nat := Z.to_nat (sb_size sb).
Definition bmblk (sb : superblock) (b : nat) : nat := Z.to_nat (sb_bmapstart sb) + b `div` BPBn.
Definition isfree (v : list block) (sb : superblock) (b : nat) : bool :=
  bit_clear (v !!! bmblk sb b) (b `mod` BPBn).

(** Blocks that hold file system structure. *)
Definition iblk (sb : superblock) (inum : Z) : nat :=
  Z.to_nat (sb_inodestart sb) + Z.to_nat (inum / IPB).
Definition is_meta (sb : superblock) (start sz b : nat) : Prop :=
  b < 2 ∨ ¬ home start sz b ∨
  (Z.to_nat (sb_inodestart sb) ≤ b < Z.to_nat (sb_inodestart sb) + Z.to_nat (sb_ninodes sb / IPB) + 1) ∨
  (Z.to_nat (sb_bmapstart sb) ≤ b ≤ bmblk sb (nblk sb - 1)).

(** The layout mkfs.c gives the disk: boot block, superblock, log, inodes,
    bitmap, data, in this order, and every structural block marked used. *)
Record fs_geo (sb : superblock) (j : jstate) : Prop := {
  fg_size : 0 < nblk sb ≤ length (j_view j);
  fg_pos : (0 ≤ sb_size sb ∧ 0 ≤ sb_bmapstart sb ∧ 0 ≤ sb_inodestart sb ∧ 0 ≤ sb_ninodes sb)%Z;
  fg_sb : ∃ d, j_view j !! 1 = Some d ∧ sb_of_bytes d = sb;
  fg_one : 1 < nblk sb ∧ home (j_start j) (j_size j) 1;
  fg_ino : 1 < Z.to_nat (sb_inodestart sb) ∧
    Z.to_nat (sb_inodestart sb) + Z.to_nat (sb_ninodes sb / IPB) + 1 ≤ Z.to_nat (sb_bmapstart sb) ∧
    ∀ b, Z.to_nat (sb_inodestart sb) ≤ b ≤ bmblk sb (nblk sb - 1) → home (j_start j) (j_size j) b;
  fg_bm : bmblk sb (nblk sb - 1) < nblk sb;
  fg_used b : b < nblk sb → is_meta sb (j_start j) (j_size j) b → isfree (j_view j) sb b = false
}.

(** ** The journal laws under the file system's state *)

(** A block overwritten and logged. *)
Definition j_put (b : nat) (d : block) (j : jstate) : jstate := j_logged b (j_store b d j).

Section fs_rules.
Context {T : Type} `{JournalSpec T}.
Implicit Types (t : T) (j : jstate) (sb : superblock) (ic : list inode).

Lemma disk_jread t j sb ic dev n b Q :
  jrep t j → dev = ROOTDEV → n = Z.of_nat b → b < length (j_view j) →
  (∀ h, j_held j !! h ≠ Some b) → j_room b j →
  (∀ h t', j_held j !! h = None → jrep t' (j_acquire h b j) → Q h (FState t' sb ic)) →
  wp (disk (jread dev n)) Q (FState t sb ic).
Proof.
  intros Hr -> -> Hb Hh Hroom HQ. apply wp_zoom. simpl.
  eapply wp_mono; [by eapply jread_law|]. simpl. naive_solver.
Qed.

Lemma disk_jdata t j sb ic h b d Q :
  jrep t j → j_held j !! h = Some b → j_view j !! b = Some d → Q d (FState t sb ic) →
  wp (disk (jdata h)) Q (FState t sb ic).
Proof.
  intros Hr Hh Hv HQ. apply wp_zoom. simpl.
  eapply wp_mono; [by eapply jdata_law|]. simpl. intros d' t' [-> ?]. by simplify_eq.
Qed.

Lemma disk_jstore t j sb ic h b d Q :
  jrep t j → j_held j !! h = Some b → blk_ok d →
  (∀ t', jrep t' (j_store b d j) → Q tt (FState t' sb ic)) →
  wp (disk (jstore h d)) Q (FState t sb ic).
Proof.
  intros Hr Hh Hd HQ. apply wp_zoom. simpl.
  eapply wp_mono; [by eapply jstore_law|]. intros [] t'. apply HQ.
Qed.

Lemma disk_jlog t j sb ic h b Q :
  jrep t j → j_held j !! h = Some b → b < length (j_view j) → home (j_start j) (j_size j) b →
  size (j_log j) < j_cap j →
  (∀ t', jrep t' (j_logged b j) → Q tt (FState t' sb ic)) →
  wp (disk (jlog h)) Q (FState t sb ic).
Proof.
  intros Hr Hh Hb Hhome Hcap HQ. apply wp_zoom. simpl.
  eapply wp_mono; [by eapply jlog_law|]. intros [] t'. apply HQ.
Qed.

Lemma disk_jrelse t j sb ic h b Q :
  jrep t j → j_held j !! h = Some b → j_clean b j →
  (∀ t', jrep t' (j_release h j) → Q tt (FState t' sb ic)) →
  wp (disk (jrelse h)) Q (FState t sb ic).
Proof.
  intros Hr Hh Hc HQ. apply wp_zoom. simpl.
  eapply wp_mono; [by eapply jrelse_law|]. intros [] t'. apply HQ.
Qed.

(** Acquiring and releasing a buffer is invisible. *)
Lemma acquire_release h b j : j_held j !! h = None → j_release h (j_acquire h b j) = j.
Proof.
  intros Hn. destruct j. unfold j_release, j_acquire. simpl in *. f_equal.
  by rewrite delete_insert_eq, delete_id.
Qed.

Lemma release_put h b d j : j_held j !! h = None →
  j_release h (j_logged b (j_store b d (j_acquire h b j))) = j_put b d j.
Proof.
  intros Hn. destruct j. unfold j_put, j_release, j_logged, j_store, j_acquire. simpl in *. f_equal.
  by rewrite delete_insert_eq, delete_id.
Qed.

(** Releasing a buffer that was only read. *)
Lemma disk_release_read t j sb ic h b Q :
  jrep t (j_acquire h b j) → j_held j !! h = None → j_clean b j →
  (∀ t', jrep t' j → Q tt (FState t' sb ic)) →
  wp (disk (jrelse h)) Q (FState t sb ic).
Proof.
  intros Hr Hn Hc HQ. eapply disk_jrelse; [exact Hr|apply lookup_insert_eq|exact Hc|].
  intros t'. rewrite acquire_release by done. apply HQ.
Qed.

Lemma log_release_spec t j sb ic h b d Q :
  jrep t (j_acquire h b j) → j_held j !! h = None → blk_ok d → b < length (j_view j) →
  home (j_start j) (j_size j) b → size (j_log j) < j_cap j →
  (∀ t', jrep t' (j_put b d j) → Q tt (FState t' sb ic)) →
  wp (log_release h d) Q (FState t sb ic).
Proof.
  intros Hr Hn Hd Hb Hhome Hcap HQ. unfold log_release. apply wp_bind.
  eapply disk_jstore; [exact Hr|apply lookup_insert_eq|done|]. intros t1 Hr1. apply wp_bind.
  eapply disk_jlog; [exact Hr1|apply lookup_insert_eq|simpl; by rewrite length_insert|done|done|].
  intros t2 Hr2. eapply disk_jrelse; [exact Hr2|apply lookup_insert_eq|left; simpl; set_solver|].
  intros t3 Hr3. apply HQ. by rewrite release_put in Hr3.
Qed.

Lemma jview_some t j b : jrep t j → b < length (j_view j) → ∃ d, j_view j !! b = Some d ∧ blk_ok d.
Proof.
  intros (_ & Hv & _)%jrep_wf Hb. destruct (lookup_lt_is_Some_2 _ _ Hb) as [d Hd].
  exists d. split; [done|]. by eapply Forall_lookup_1.
Qed.

Lemma room_le b j k : size (j_log j) + size (j_held j) < k → k ≤ NBUF → j_room b j.
Proof. intros. right. lia. Qed.

Lemma size_j_put b d j : size (j_log (j_put b d j)) ≤ S (size (j_log j)).
Proof.
  unfold j_put. simpl. rewrite size_union_alt, size_singleton.
  assert (size (j_log j ∖ {[b]}) ≤ size (j_log j)) by (apply subseteq_size; set_solver). lia.
Qed.

Lemma j_held_put b d j : j_held (j_put b d j) = j_held j.
Proof. done. Qed.

Lemma j_cap_put b d j : j_cap (j_put b d j) = j_cap j.
Proof. done. Qed.

(** ** bzero *)

Lemma bzero_spec t j sb ic b Q :
  jrep t j → b < length (j_view j) → (∀ h, j_held j !! h ≠ Some b) →
  home (j_start j) (j_size j) b → size (j_log j) + size (j_held j) < NBUF →
  size (j_log j) < j_cap j →
  (∀ t', jrep t' (j_put b zero_block j) → Q tt (FState t' sb ic)) →
  wp (bzero ROOTDEV (Z.of_nat b)) Q (FState t sb ic).
Proof.
  intros Hr Hb Hh Hhome Hroom Hcap HQ. pose proof (jrep_wf _ _ Hr) as (_ & _ & H32).
  unfold bzero. apply wp_bind.
  eapply disk_jread; [exact Hr|done|rewrite u32_small; [done|plia]|done|done|by right|].
  intros h t1 Hn Hr1. by eapply log_release_spec; [exact Hr1|done|exact zero_block_ok|..].
Qed.

(** ** balloc *)

Lemma bmblk_le sb b : b < nblk sb → bmblk sb b ≤ bmblk sb (nblk sb - 1).
Proof. intros. unfold bmblk. apply Nat.add_le_mono_l, Nat.Div0.div_le_mono. lia. Qed.

Lemma bmblk_facts sb j b : fs_geo sb j → b < nblk sb →
  bmblk sb b < length (j_view j) ∧ home (j_start j) (j_size j) (bmblk sb b) ∧
  is_meta sb (j_start j) (j_size j) (bmblk sb b).
Proof.
  intros [Hsz Hpos _ _ Hino Hbm _] Hb. pose proof (bmblk_le sb b Hb) as Hle.
  destruct Hino as (H1 & H2 & Hhome).
  assert (Z.to_nat (sb_bmapstart sb) ≤ bmblk sb b) by (unfold bmblk; lia).
  split_and!; [lia|apply Hhome; lia|right; right; right; lia].
Qed.

Lemma BBLOCK_eq t sb j b : jrep t j → fs_geo sb j → b < nblk sb →
  BBLOCK (Z.of_nat b) sb = Z.of_nat (bmblk sb b).
Proof.
  intros (_ & _ & H32)%jrep_wf Hg Hb. pose proof (bmblk_facts _ _ _ Hg Hb) as (Hlt & _).
  unfold BBLOCK. destruct Hg as [_ Hpos _ _ _ _ _].
  assert (Heq : (Z.of_nat b `div` BPB + sb_bmapstart sb)%Z = Z.of_nat (bmblk sb b)).
  { unfold bmblk. rewrite Nat2Z.inj_add, Nat2Z.inj_div, BPBn_Z, Z2Nat.id by plia. lia. }
  rewrite Heq. apply u32_small. plia.
Qed.

(** Buffers held across an allocation are of used data blocks. *)
Definition held_ok (sb : superblock) (j : jstate) : Prop :=
  ∀ h b, j_held j !! h = Some b →
    isfree (j_view j) sb b = false ∧ ¬ is_meta sb (j_start j) (j_size j) b.

(** The state after allocating block [b]. *)
Definition j_alloc (sb : superblock) (b : nat) (j : jstate) : jstate :=
  j_put b zero_block
    (j_put (bmblk sb b) (set_bit (b `mod` BPBn) (j_view j !!! bmblk sb b)) j).

Lemma held_not_meta sb j b : held_ok sb j → is_meta sb (j_start j) (j_size j) b →
  ∀ h, j_held j !! h ≠ Some b.
Proof. intros Hh Hm h Hb. by destruct (Hh _ _ Hb). Qed.

Lemma free_home sb j b : fs_geo sb j → b < nblk sb → isfree (j_view j) sb b = true →
  home (j_start j) (j_size j) b ∧ ¬ is_meta sb (j_start j) (j_size j) b.
Proof.
  intros Hg Hb Hf.
  assert (Hm : ¬ is_meta sb (j_start j) (j_size j) b).
  { intros Hm. pose proof (fg_used _ _ Hg b Hb Hm). congruence. }
  split; [|done]. unfold home. destruct (decide (b < j_start j ∨ j_start j + j_size j ≤ b)); [done|].
  exfalso. apply Hm. right. left. done.
Qed.

Lemma BPBn_pos : BPBn ≠ 0.
Proof. pose proof BPBn_Z. plia. Qed.

Lemma block_split k bi : bi < BPBn → (k * BPBn + bi) `div` BPBn = k ∧ (k * BPBn + bi) `mod` BPBn = bi.
Proof.
  intros Hb. pose proof BPBn_pos. split.
  - rewrite Nat.div_add_l by done. rewrite Nat.div_small by done. lia.
  - rewrite Nat.add_comm, Nat.Div0.mod_add. by apply Nat.mod_small.
Qed.

Lemma clean_read t j b : jrep t j → (∀ h, j_held j !! h ≠ Some b) → j_clean b j.
Proof. apply jrep_clean. Qed.

Lemma balloc_in_spec t j sb ic k Q :
  jrep t j → fs_geo sb j → held_ok sb j → k * BPBn < nblk sb →
  size (j_log j) + size (j_held j) + 1 < NBUF → size (j_log j) + 1 < j_cap j →
  (∀ b t', b `div` BPBn = k → b < nblk sb → isfree (j_view j) sb b = true →
    (∀ b', b' `div` BPBn = k → b' < b → isfree (j_view j) sb b' = false) →
    jrep t' (j_alloc sb b j) → Q (Some (Z.of_nat b)) (FState t' sb ic)) →
  (∀ t', (∀ b', b' `div` BPBn = k → b' < nblk sb → isfree (j_view j) sb b' = false) →
    jrep t' j → Q None (FState t' sb ic)) →
  wp (balloc_in ROOTDEV sb (Z.of_nat k * BPB)) Q (FState t sb ic).
Proof.
  intros Hr Hg Hh Hk Hroom Hcap HS HN. pose proof (fg_pos _ _ Hg) as (Hs0 & _).
  pose proof (bmblk_facts _ _ _ Hg Hk) as (Hlt & Hhome & Hmeta).
  assert (Hkd : (k * BPBn) `div` BPBn = k) by apply Nat.div_mul, BPBn_pos.
  pose proof (held_not_meta _ _ _ Hh Hmeta) as Hnh.
  destruct (jview_some _ _ _ Hr Hlt) as (d & Hd & Hdok).
  assert (Hkz : (Z.of_nat k * BPB)%Z = Z.of_nat (k * BPBn)) by (pose proof BPBn_Z; plia).
  assert (Hfree : ∀ bi, bi < BPBn → isfree (j_view j) sb (k * BPBn + bi) = bit_clear d bi).
  { intros bi Hbi. unfold isfree, bmblk. destruct (block_split k bi Hbi) as [-> ->].
    unfold bmblk in Hd. rewrite Hkd in Hd. by rewrite (list_lookup_total_correct _ _ _ Hd). }
  unfold balloc_in. apply wp_bind. rewrite Hkz.
  eapply disk_jread; [exact Hr|done|by eapply BBLOCK_eq|done|done|right; lia|].
  intros h t1 Hn Hr1. apply wp_bind.
  eapply disk_jdata; [exact Hr1|apply lookup_insert_eq|exact Hd|].
  set (n := Z.to_nat (Z.min BPB (sb_size sb - Z.of_nat (k * BPBn)))).
  assert (Hn' : n = Nat.min BPBn (nblk sb - k * BPBn)) by (unfold n, nblk; pose proof BPBn_Z; plia).
  destruct (find (bit_clear d) (seq 0 n)) as [bi|] eqn:Hf.
  - apply find_seq_Some in Hf as ([_ Hbi] & Hclr & Hmin). simpl in Hbi.
    assert (HbiB : bi < BPBn) by lia.
    assert (Hb : k * BPBn + bi < nblk sb) by lia.
    destruct (free_home sb j (k * BPBn + bi) Hg Hb) as [Hbh Hbm]; [by rewrite Hfree|].
    destruct (block_split k bi HbiB) as [Hdiv Hmod].
    apply wp_bind. eapply log_release_spec; [exact Hr1|done| |done|done|lia|].
    { by apply blk_ok_insert_u8. }
    intros t2 Hr2. apply wp_bind. rewrite <-Nat2Z.inj_add.
    pose proof (size_j_put (bmblk sb (k * BPBn)) (set_bit bi d) j) as Hsz.
    eapply bzero_spec; [exact Hr2| | |done|rewrite j_held_put; lia|rewrite j_cap_put; lia|].
    { simpl. rewrite length_insert. pose proof (fg_size _ _ Hg). lia. }
    { simpl. intros h' Hh'. destruct (Hh _ _ Hh') as [Hx _]. rewrite Hfree in Hx by done. congruence. }
    intros t3 Hr3. apply wp_ret. eapply HS; [exact Hdiv|done|by rewrite Hfree| |].
    + intros b' Hb' Hlt'. pose proof (Nat.div_mod_eq b' BPBn) as Hdm. rewrite Hb' in Hdm.
      pose proof (Nat.mod_upper_bound b' BPBn BPBn_pos). rewrite Hdm.
      replace (BPBn * k + b' `mod` BPBn) with (k * BPBn + b' `mod` BPBn) by lia.
      rewrite Hfree by done. apply Hmin; lia.
    + unfold j_alloc. rewrite Hmod.
      assert (bmblk sb (k * BPBn + bi) = bmblk sb (k * BPBn)) as -> by (unfold bmblk; by rewrite Hdiv, Hkd).
      by rewrite (list_lookup_total_correct _ _ _ Hd).
  - apply wp_bind. eapply disk_release_read; [exact Hr1|done|by eapply clean_read|].
    intros t2 Hr2. apply wp_ret. eapply HN; [|done].
    intros b' Hb' Hlt'. pose proof (Nat.div_mod_eq b' BPBn) as Hdm. rewrite Hb' in Hdm.
    pose proof (Nat.mod_upper_bound b' BPBn BPBn_pos). rewrite Hdm.
    replace (BPBn * k + b' `mod` BPBn) with (k * BPBn + b' `mod` BPBn) by lia.
    rewrite Hfree by done. eapply find_seq_None; [exact Hf|]. lia.
Qed.

(** Every outer iteration up to the one with the first free block finds
    nothing. *)
Lemma balloc_loop t j sb ic Q n k :
  jrep t j → fs_geo sb j → held_ok sb j →
  size (j_log j) + size (j_held j) + 1 < NBUF → size (j_log j) + 1 < j_cap j →
  (k + n) * BPBn < nblk sb + BPBn →
  (∀ b, b < k * BPBn → b < nblk sb → isfree (j_view j) sb b = false) →
  (∃ b, b < nblk sb ∧ b < (k + n) * BPBn ∧ isfree (j_view j) sb b = true) →
  (∀ b t', b < nblk sb → isfree (j_view j) sb b = true →
    (∀ b', b' < b → isfree (j_view j) sb b' = false) →
    jrep t' (j_alloc sb b j) → Q (Some (Z.of_nat b)) (FState t' sb ic)) →
  wp (msearch ((λ k, Z.of_nat k * BPB)%Z <$> seq k n) (balloc_in ROOTDEV sb)) Q (FState t sb ic).
Proof.
  intros Hr Hg Hh Hroom Hcap. pose proof BPBn_pos as HB.
  revert t k Hr. induction n as [|n IH]; intros t k Hr Hkn Hlow Hex HQ.
  { destruct Hex as (b & Hbn & Hb & Hf). rewrite Hlow in Hf; [done| |done]. by rewrite Nat.add_0_r in Hb. }
  cbn [seq fmap list_fmap msearch].
  assert (Hk : k * BPBn < nblk sb) by nia.
  apply wp_bind, (balloc_in_spec t j sb ic k); [done..| |].
  - intros b t' Hdiv Hb Hf Hmin Hr'. apply wp_ret, HQ; [done|done| |done].
    intros b' Hb'. destruct (decide (b' `div` BPBn = k)) as [He|Hne]; [by apply Hmin|].
    apply Hlow; [|lia]. pose proof (Nat.div_mod_eq b BPBn). pose proof (Nat.div_mod_eq b' BPBn).
    pose proof (Nat.mod_upper_bound b' BPBn HB). pose proof (Nat.mod_upper_bound b BPBn HB).
    assert (b' `div` BPBn ≤ b `div` BPBn) by (apply Nat.Div0.div_le_mono; lia). nia.
  - intros t' Hnone Hr'. apply IH; [done|lia| |by rewrite Nat.add_succ_comm|done].
    intros b Hb Hbn. destruct (decide (b < k * BPBn)); [by apply Hlow|].
    apply Hnone; [|done]. symmetry. apply (Nat.div_unique _ _ _ (b - k * BPBn)); lia.
Qed.

Lemma balloc_spec t j sb ic Q :
  jrep t j → fs_geo sb j → held_ok sb j →
  size (j_log j) + size (j_held j) + 1 < NBUF → size (j_log j) + 1 < j_cap j →
  (∃ b, b < nblk sb ∧ isfree (j_view j) sb b = true) →
  (∀ b t', b < nblk sb → isfree (j_view j) sb b = true →
    (∀ b', b' < b → isfree (j_view j) sb b' = false) →
    jrep t' (j_alloc sb b j) → Q (Z.of_nat b) (FState t' sb ic)) →
  wp (balloc ROOTDEV) Q (FState t sb ic).
Proof.
  intros Hr Hg Hh Hroom Hcap (b0 & Hb0 & Hf0) HQ. pose proof (fg_pos _ _ Hg) as (Hs0 & _).
  pose proof BPBn_pos as HB.
  set (n := Z.to_nat ((sb_size sb + BPB - 1) `div` BPB)).
  assert (Hn : nblk sb ≤ n * BPBn ∧ n * BPBn < nblk sb + BPBn).
  { unfold n, nblk. pose proof BPBn_Z. pose proof (Z.div_mod (sb_size sb + BPB - 1) BPB ltac:(plia)).
    pose proof (Z.mod_pos_bound (sb_size sb + BPB - 1) BPB ltac:(plia)). 
    assert (0 ≤ (sb_size sb + BPB - 1) `div` BPB)%Z by (apply Z.div_pos; plia). plia. }
  unfold balloc. apply wp_bind, wp_done with (a := sb) (s' := FState t sb ic); [done|].
  fold n. apply wp_bind, (balloc_loop t j); simpl; [done..|lia|lia| |].
  - exists b0. split_and!; [done|lia|done].
  - intros b t' Hb Hf Hmin Hr'. apply wp_ret. by apply HQ.
Qed.

(** With every block in use the allocator panics. *)
Lemma balloc_full t j sb ic :
  jrep t j → fs_geo sb j → held_ok sb j →
  size (j_log j) + size (j_held j) + 1 < NBUF → size (j_log j) + 1 < j_cap j →
  (∀ b, b < nblk sb → isfree (j_view j) sb b = false) →
  balloc ROOTDEV (FState t sb ic) = Panic "balloc: out of blocks".
Proof.
  intros Hr Hg Hh Hroom Hcap Hall. pose proof (fg_pos _ _ Hg) as (Hs0 & _).
  pose proof BPBn_pos as HB. unfold balloc. apply panic_bind, wp_done with (a := sb) (s' := FState t sb ic); [done|].
  apply panic_bind.
  assert (Hl : Forall (λ k, k * BPBn < nblk sb) (seq 0 (Z.to_nat ((sb_size sb + BPB - 1) `div` BPB)))).
  { apply Forall_forall. intros k Hk%elem_of_seq. unfold nblk. pose proof BPBn_Z.
    pose proof (Z.div_mod (sb_size sb + BPB - 1) BPB ltac:(plia)).
    pose proof (Z.mod_pos_bound (sb_size sb + BPB - 1) BPB ltac:(plia)).
    assert (0 ≤ (sb_size sb + BPB - 1) `div` BPB)%Z by (apply Z.div_pos; plia). plia. }
  revert t Hr. induction Hl as [|k l Hk _ IH]; intros t Hr; [by apply wp_ret|].
  cbn [fmap list_fmap msearch]. apply wp_bind, (balloc_in_spec t j sb ic k); [done..| |].
  - intros b t' _ Hb Hf. by rewrite Hall in Hf.
  - intros t' _ Hr'. by apply IH.
Qed.

(** ** What an update does to the bitmap *)

Lemma isfree_put sb j b d b' :
  bmblk sb b' ≠ b → isfree (j_view (j_put b d j)) sb b' = isfree (j_view j) sb b'.
Proof. intros Hne. unfold isfree. simpl. by rewrite list_lookup_total_insert_ne. Qed.

Lemma bit_index b : (b `mod` BPBn) `div` 8 < Z.to_nat BSIZE.
Proof.
  pose proof (Nat.mod_upper_bound b BPBn BPBn_pos).
  apply Nat.Div0.div_lt_upper_bound. pose proof BPBn_Z. plia.
Qed.

Lemma same_bit b b' : b `div` BPBn = b' `div` BPBn → b `mod` BPBn = b' `mod` BPBn → b = b'.
Proof. intros. rewrite (Nat.div_mod_eq b BPBn), (Nat.div_mod_eq b' BPBn). congruence. Qed.

Lemma isfree_bm sb j b b' f (c : bool) :
  bmblk sb b < length (j_view j) → blk_ok (j_view j !!! bmblk sb b) →
  (∀ d bi bj, bi `div` 8 < length d → bit_clear (f bi d) bj = if decide (bi = bj) then c else bit_clear d bj) →
  isfree (j_view (j_put (bmblk sb b) (f (b `mod` BPBn) (j_view j !!! bmblk sb b)) j)) sb b' =
    if decide (b = b') then c else isfree (j_view j) sb b'.
Proof.
  intros Hlt [Hlen _] Hf. unfold isfree. simpl.
  destruct (decide (bmblk sb b = bmblk sb b')) as [He|Hne].
  - rewrite <-He, list_lookup_total_insert_eq by done.
    rewrite Hf by (rewrite Hlen; apply bit_index).
    assert (Hd : b `div` BPBn = b' `div` BPBn) by (unfold bmblk in He; lia).
    destruct (decide (b = b')) as [->|Hb]; [by rewrite decide_True|].
    rewrite decide_False; [done|]. intros Hm. by apply Hb, same_bit.
  - rewrite list_lookup_total_insert_ne by done. by rewrite decide_False by (by intros ->).
Qed.

Lemma isfree_alloc t sb j b b' :
  jrep t j → fs_geo sb j → b < nblk sb → b' < nblk sb → isfree (j_view j) sb b = true →
  isfree (j_view (j_alloc sb b j)) sb b' = if decide (b = b') then false else isfree (j_view j) sb b'.
Proof.
  intros Hr Hg Hb Hb' Hf. pose proof (bmblk_facts _ _ _ Hg Hb) as (Hlt & _).
  destruct (free_home _ _ _ Hg Hb Hf) as [_ Hnm]. unfold j_alloc.
  rewrite isfree_put.
  - apply isfree_bm; [done| |intros; by apply bit_clear_set].
    destruct (jview_some _ _ _ Hr Hlt) as (d & Hd & Hok). by rewrite (list_lookup_total_correct _ _ _ Hd).
  - intros <-. apply Hnm. by apply bmblk_facts.
Qed.

(** Any write outside the superblock and the bitmap keeps the geometry. *)
Lemma fs_geo_ext sb j j' :
  fs_geo sb j → j_start j' = j_start j → j_size j' = j_size j →
  length (j_view j') = length (j_view j) → j_view j' !! 1 = j_view j !! 1 →
  (∀ b, b < nblk sb → is_meta sb (j_start j) (j_size j) b → isfree (j_view j') sb b = false) →
  fs_geo sb j'.
Proof.
  intros [] Hs Hz Hl H1 Hu. constructor; rewrite ?Hs, ?Hz, ?Hl, ?H1; done.
Qed.

Lemma bmblk_not_1 sb j b : fs_geo sb j → bmblk sb b ≠ 1.
Proof. intros [_ _ _ _ (H1 & H2 & _) _ _]. unfold bmblk. lia. Qed.

Lemma fs_geo_alloc t sb j b :
  jrep t j → fs_geo sb j → b < nblk sb → isfree (j_view j) sb b = true →
  fs_geo sb (j_alloc sb b j).
Proof.
  intros Hr Hg Hb Hf. destruct (free_home _ _ _ Hg Hb Hf) as [_ Hnm].
  eapply fs_geo_ext; [exact Hg|done|done| | |].
  - simpl. by rewrite !length_insert.
  - simpl. rewrite !list_lookup_insert_ne; [done|by eapply bmblk_not_1|].
    intros ->. apply Hnm. left. lia.
  - intros b' Hb' Hm. erewrite isfree_alloc by done. case_decide; [done|]. by apply (fg_used _ _ Hg).
Qed.

(** The blocks an allocation leaves alone. *)
Lemma view_alloc sb j b b' :
  b' ≠ b → b' ≠ bmblk sb b → j_view (j_alloc sb b j) !! b' = j_view j !! b'.
Proof. intros. simpl. by rewrite !list_lookup_insert_ne. Qed.

Lemma view_alloc_eq t sb j b :
  jrep t j → fs_geo sb j → b < nblk sb → j_view (j_alloc sb b j) !! b = Some zero_block.
Proof.
  intros Hr Hg Hb. simpl. apply list_lookup_insert_eq. rewrite length_insert.
  pose proof (fg_size _ _ Hg). lia.
Qed.

(** ** bfree *)

Lemma readsb_txn_spec t j sb ic sb0 Q :
  jrep t j → fs_geo sb j → (∀ h, j_held j !! h ≠ Some 1) →
  size (j_log j) + size (j_held j) < NBUF →
  (∀ t', jrep t' j → Q sb (FState t' sb0 ic)) →
  wp (readsb_txn ROOTDEV) Q (FState t sb0 ic).
Proof.
  intros Hr Hg Hh Hroom HQ. destruct (fg_sb _ _ Hg) as (d & Hd & Hsb).
  unfold readsb_txn. apply wp_bind.
  eapply (disk_jread _ _ _ _ _ _ 1); [exact Hr|done|done| |done|by right|].
  { by apply lookup_lt_Some in Hd. }
  intros h t1 Hn Hr1. apply wp_bind.
  eapply disk_jdata; [exact Hr1|apply lookup_insert_eq|exact Hd|]. apply wp_bind.
  eapply disk_release_read; [exact Hr1|done|by eapply clean_read|].
  intros t2 Hr2. apply wp_ret. rewrite Hsb. by apply HQ.
Qed.

(** The state after freeing block [b]. *)
Definition j_free (sb : superblock) (b : nat) (j : jstate) : jstate :=
  j_put (bmblk sb b) (unset_bit (b `mod` BPBn) (j_view j !!! bmblk sb b)) j.

Lemma free_bit t j sb b : jrep t j → fs_geo sb j → b < nblk sb →
  ∃ d, j_view j !! bmblk sb b = Some d ∧ blk_ok d ∧
    isfree (j_view j) sb b = bit_clear d (Z.to_nat (Z.of_nat b `mod` BPB)).
Proof.
  intros Hr Hg Hb. pose proof (bmblk_facts _ _ _ Hg Hb) as (Hlt & _).
  destruct (jview_some _ _ _ Hr Hlt) as (d & Hd & Hdok). exists d. split_and!; [done|done|].
  rewrite <-BPBn_Z, <-Nat2Z.inj_mod, Nat2Z.id. unfold isfree.
  by rewrite (list_lookup_total_correct _ _ _ Hd).
Qed.

Lemma bfree_spec t j sb ic b Q :
  jrep t j → fs_geo sb j → held_ok sb j → b < nblk sb →
  size (j_log j) + size (j_held j) < NBUF → size (j_log j) < j_cap j →
  isfree (j_view j) sb b = false →
  (∀ t', jrep t' (j_free sb b j) → Q tt (FState t' sb ic)) →
  wp (bfree ROOTDEV (Z.of_nat b)) Q (FState t sb ic).
Proof.
  intros Hr Hg Hh Hb Hroom Hcap Hf HQ. pose proof (bmblk_facts _ _ _ Hg Hb) as (Hlt & Hhome & Hmeta).
  destruct (free_bit _ _ _ _ Hr Hg Hb) as (d & Hd & Hdok & Hfree).
  unfold bfree. apply wp_bind.
  eapply readsb_txn_spec; [exact Hr|exact Hg|eapply held_not_meta; [done|left; lia]|done|].
  intros t1 Hr1. wp_pure. apply wp_bind.
  eapply disk_jread; [exact Hr1|done|by eapply BBLOCK_eq|done|by eapply held_not_meta|by right|].
  intros h t2 Hn Hr2. apply wp_bind.
  eapply disk_jdata; [exact Hr2|apply lookup_insert_eq|exact Hd|].
  cbv zeta. rewrite <-Hfree, Hf.
  eapply log_release_spec; [exact Hr2|done|by apply blk_ok_insert_u8|done|done|done|].
  intros t3 Hr3. apply HQ. unfold j_free. rewrite (list_lookup_total_correct _ _ _ Hd).
  rewrite <-BPBn_Z, <-Nat2Z.inj_mod, Nat2Z.id in Hr3. exact Hr3.
Qed.

(** A double free is detected. *)
Lemma bfree_free t j sb ic b :
  jrep t j → fs_geo sb j → held_ok sb j → b < nblk sb →
  size (j_log j) + size (j_held j) < NBUF → isfree (j_view j) sb b = true →
  bfree ROOTDEV (Z.of_nat b) (FState t sb ic) = Panic "freeing free block".
Proof.
  intros Hr Hg Hh Hb Hroom Hf. pose proof (bmblk_facts _ _ _ Hg Hb) as (Hlt & Hhome & Hmeta).
  destruct (free_bit _ _ _ _ Hr Hg Hb) as (d & Hd & Hdok & Hfree).
  unfold bfree. apply panic_bind.
  eapply readsb_txn_spec; [exact Hr|exact Hg|eapply held_not_meta; [done|left; lia]|done|].
  intros t1 Hr1. apply panic_bind, wp_modify. simpl. apply panic_bind.
  eapply disk_jread; [exact Hr1|done|by eapply BBLOCK_eq|done|by eapply held_not_meta|by right|].
  intros h t2 Hn Hr2. apply panic_bind.
  eapply disk_jdata; [exact Hr2|apply lookup_insert_eq|exact Hd|].
  cbv zeta. by rewrite <-Hfree, Hf.
Qed.

Lemma isfree_free t sb j b b' :
  jrep t j → fs_geo sb j → b < nblk sb →
  isfree (j_view (j_free sb b j)) sb b' = if decide (b = b') then true else isfree (j_view j) sb b'.
Proof.
  intros Hr Hg Hb. pose proof (bmblk_facts _ _ _ Hg Hb) as (Hlt & _).
  apply isfree_bm; [done| |intros; by apply bit_clear_unset].
  destruct (jview_some _ _ _ Hr Hlt) as (d & Hd & Hok). by rewrite (list_lookup_total_correct _ _ _ Hd).
Qed.

Lemma fs_geo_free t sb j b :
  jrep t j → fs_geo sb j → b < nblk sb → ¬ is_meta sb (j_start j) (j_size j) b →
  fs_geo sb (j_free sb b j).
Proof.
  intros Hr Hg Hb Hnm. eapply fs_geo_ext; [exact Hg|done|done| | |].
  - simpl. by rewrite length_insert.
  - simpl. rewrite list_lookup_insert_ne; [done|by eapply bmblk_not_1].
  - intros b' Hb' Hm. erewrite isfree_free by done. case_decide; [by subst|]. by apply (fg_used _ _ Hg).
Qed.

(** ** The allocator *)

Lemma balloc_result t j sb ic :
  jrep t j → fs_geo sb j → held_ok sb j →
  size (j_log j) + size (j_held j) + 1 < NBUF → size (j_log j) + 1 < j_cap j →
  if decide (Exists (λ b, isfree (j_view j) sb b = true) (seq 0 (nblk sb))) then
    ∃ b t' j', balloc ROOTDEV (FState t sb ic) = Done (Z.of_nat b) (FState t' sb ic) ∧
      jrep t' j' ∧ fs_geo sb j' ∧ b < nblk sb ∧ isfree (j_view j) sb b = true ∧
      (∀ b', b' < b → isfree (j_view j) sb b' = false) ∧
      j_view j' !! b = Some zero_block ∧
      (∀ b', b' < nblk sb →
        isfree (j_view j') sb b' = if decide (b = b') then false else isfree (j_view j) sb b') ∧
      (∀ b', b' ≠ b → b' ≠ bmblk sb b → j_view j' !! b' = j_view j !! b') ∧
      j_held j' = j_held j
  else balloc ROOTDEV (FState t sb ic) = Panic "balloc: out of blocks".
Proof.
  intros Hr Hg Hh Hroom Hcap. case_decide as Hex.
  - assert (Hex' : ∃ b, b < nblk sb ∧ isfree (j_view j) sb b = true).
    { apply Exists_exists in Hex as (b & Hb%elem_of_seq & Hf). exists b. split; [lia|done]. }
    pose proof (balloc_spec t j sb ic (λ r s, ∃ b t', r = Z.of_nat b ∧ s = FState t' sb ic ∧
      b < nblk sb ∧ isfree (j_view j) sb b = true ∧
      (∀ b', b' < b → isfree (j_view j) sb b' = false) ∧ jrep t' (j_alloc sb b j)) Hr Hg Hh Hroom Hcap Hex')
      as Hwp.
    apply wp_inv in Hwp as (r & s & Hrun & b & t' & -> & -> & Hb & Hf & Hmin & Hr').
    + exists b, t', (j_alloc sb b j). split_and!; [exact Hrun|done|by eapply fs_geo_alloc|done|done|done| | | |done].
      * by eapply view_alloc_eq.
      * intros. by eapply isfree_alloc.
      * apply view_alloc.
    + intros b t' Hb Hf Hmin Hr'. by exists b, t'.
  - eapply balloc_full; try done. intros b Hb. apply not_true_iff_false. intros Hf.
    apply Hex, Exists_exists. exists b. rewrite elem_of_seq. split; [lia|done].
Qed.

Lemma bfree_result t j sb ic b :
  jrep t j → fs_geo sb j → held_ok sb j → b < nblk sb → ¬ is_meta sb (j_start j) (j_size j) b →
  size (j_log j) + size (j_held j) < NBUF → size (j_log j) < j_cap j →
  if isfree (j_view j) sb b then
    bfree ROOTDEV (Z.of_nat b) (FState t sb ic) = Panic "freeing free block"
  else ∃ t' j', bfree ROOTDEV (Z.of_nat b) (FState t sb ic) = Done tt (FState t' sb ic) ∧
    jrep t' j' ∧ fs_geo sb j' ∧
    (∀ b', isfree (j_view j') sb b' = if decide (b = b') then true else isfree (j_view j) sb b') ∧
    (∀ b', b' ≠ bmblk sb b → j_view j' !! b' = j_view j !! b') ∧ j_held j' = j_held j.
Proof.
  intros Hr Hg Hh Hb Hnm Hroom Hcap. destruct (isfree (j_view j) sb b) eqn:Hf; [by eapply bfree_free|].
  pose proof (bfree_spec t j sb ic b (λ _ s, ∃ t', s = FState t' sb ic ∧ jrep t' (j_free sb b j))
    Hr Hg Hh Hb Hroom Hcap Hf) as Hwp.
  apply wp_inv in Hwp as ([] & s & Hrun & t' & -> & Hr'); [|intros t' Hr'; by exists t'].
  exists t', (j_free sb b j). split_and!; [exact Hrun|done|by eapply fs_geo_free| | |done].
  - intros b'. by eapply isfree_free.
  - intros b' Hb'. simpl. by rewrite list_lookup_insert_ne.
Qed.

(** C7. The block allocator, inside a transaction with room for two more blocks.
    [balloc] returns the lowest free block when there is one: the block is zeroed
    and marked used, every other block and every other bit is unchanged, and the
    layout invariant is kept; otherwise it panics. [bfree] of a used block clears
    exactly its bit and changes nothing else; freeing a block that is already
    free panics. *)
Theorem bitmap_correct t j sb ic :
  jrep t j → fs_geo sb j → held_ok sb j →
  size (j_log j) + size (j_held j) + 1 < NBUF → size (j_log j) + 1 < j_cap j →
  (if decide (Exists (λ b, isfree (j_view j) sb b = true) (seq 0 (nblk sb))) then
    ∃ b t' j', balloc ROOTDEV (FState t sb ic) = Done (Z.of_nat b) (FState t' sb ic) ∧
      jrep t' j' ∧ fs_geo sb j' ∧ b < nblk sb ∧ isfree (j_view j) sb b = true ∧
      (∀ b', b' < b → isfree (j_view j) sb b' = false) ∧
      j_view j' !! b = Some zero_block ∧
      (∀ b', b' < nblk sb →
        isfree (j_view j') sb b' = if decide (b = b') then false else isfree (j_view j) sb b') ∧
      (∀ b', b' ≠ b → b' ≠ bmblk sb b → j_view j' !! b' = j_view j !! b') ∧
      j_held j' = j_held j
  else balloc ROOTDEV (FState t sb ic) = Panic "balloc: out of blocks") ∧
  ∀ b, b < nblk sb → ¬ is_meta sb (j_start j) (j_size j) b →
    if isfree (j_view j) sb b then
      bfree ROOTDEV (Z.of_nat b) (FState t sb ic) = Panic "freeing free block"
    else ∃ t' j', bfree ROOTDEV (Z.of_nat b) (FState t sb ic) = Done tt (FState t' sb ic) ∧
      jrep t' j' ∧ fs_geo sb j' ∧
      (∀ b', isfree (j_view j') sb b' = if decide (b = b') then true else isfree (j_view j) sb b') ∧
      (∀ b', b' ≠ bmblk sb b → j_view j' !! b' = j_view j !! b') ∧ j_held j' = j_held j.
Proof.
  intros Hr Hg Hh Hroom Hcap. split.
  - apply balloc_result; done.
  - intros b Hb Hnm. apply bfree_result; (done || lia).
Qed.

End fs_rules.

(** ** Witnesses *)

Lemma demo_isfree b : b < 48 → isfree demo_image demo_sb b = (37 <? b).
Proof.
  intros Hb.
  assert (Hall : forallb (λ b, eqb (isfree demo_image demo_sb b) (37 <? b)) (seq 0 48) = true)
    by (vm_compute; reflexivity).
  rewrite forallb_forall in Hall. apply eqb_prop, Hall, in_seq. lia.
Qed.

Lemma demo_meta b : is_meta demo_sb 2 30 b → b < 35.
Proof.
  unfold is_meta. assert (bmblk demo_sb (nblk demo_sb - 1) = 34) as -> by reflexivity.
  change (Z.to_nat (sb_inodestart demo_sb)) with 32. change (Z.to_nat (sb_bmapstart demo_sb)) with 34.
  change (Z.to_nat (sb_ninodes demo_sb / IPB)) with 1. unfold home. lia.
Qed.

Lemma demo_geo : fs_geo demo_sb demo_j.
Proof.
  assert (Hbm : bmblk demo_sb (nblk demo_sb - 1) = 34) by reflexivity.
  constructor; unfold demo_j; cbn [j_view j_start j_size]; rewrite ?demo_length, ?Hbm;
    change (nblk demo_sb) with 48; change (Z.to_nat (sb_inodestart demo_sb)) with 32;
    change (Z.to_nat (sb_bmapstart demo_sb)) with 34; change (Z.to_nat (sb_ninodes demo_sb / IPB)) with 1.
  - lia.
  - simpl. lia.
  - eexists. split; [vm_compute; reflexivity|vm_compute; reflexivity].
  - split; [lia|left; lia].
  - split_and!; [lia|lia|intros; right; lia].
  - lia.
  - intros b Hb Hm%demo_meta. rewrite demo_isfree by done. apply Nat.ltb_ge. lia.
Qed.

Lemma demo_held_ok : held_ok demo_sb demo_j.
Proof. intros h b. unfold demo_j. cbn [j_held]. by rewrite lookup_empty. Qed.

Lemma demo_sizes : size (j_log demo_j) = 0 ∧ size (j_held demo_j) = 0 ∧ j_cap demo_j = 29 ∧ NBUF = 30.
Proof. unfold demo_j. cbn [j_log j_held]. rewrite size_empty, map_size_empty. done. Qed.

Lemma bitmap_correct_witness :
  (∃ t', balloc ROOTDEV (FState demo_t demo_sb []) = Done 38%Z (FState t' demo_sb [])) ∧
  ∃ t' j', bfree ROOTDEV 36 (FState demo_t demo_sb []) = Done tt (FState t' demo_sb []) ∧
    isfree (j_view j') demo_sb 36 = true.
Proof.
  destruct demo_sizes as (Hl & Hh & Hc & HN).
  destruct (bitmap_correct demo_t demo_j demo_sb [] demo_jrep demo_geo demo_held_ok
    ltac:(rewrite Hl, Hh, HN; lia) ltac:(rewrite Hl, Hc; lia)) as [Ha Hf]. split.
  - destruct (decide _) as [_|Hno] in Ha.
    + destruct Ha as (b & t' & j' & Hrun & _ & _ & Hlt & Hfr & Hmin & _).
      change (nblk demo_sb) with 48 in Hlt. change (j_view demo_j) with demo_image in Hfr, Hmin.
      assert (b = 38) as ->.
      { rewrite demo_isfree in Hfr by done. apply Nat.ltb_lt in Hfr.
        destruct (decide (b = 38)) as [He|]; [exact He|].
        specialize (Hmin 38 ltac:(lia)). rewrite demo_isfree in Hmin by lia. discriminate Hmin. }
      exists t'. exact Hrun.
    + exfalso. apply Hno, Exists_exists. exists 38. split; [apply elem_of_seq; change (nblk demo_sb) with 48; lia|].
      change (j_view demo_j) with demo_image. rewrite demo_isfree by lia. reflexivity.
  - specialize (Hf 36 ltac:(change (nblk demo_sb) with 48; lia) ltac:(intros Hm%demo_meta; lia)).
    change (j_view demo_j) with demo_image in Hf. rewrite demo_isfree in Hf by lia. simpl in Hf.
    destruct Hf as (t' & j' & Hrun & _ & _ & Hfr & _). exists t', j'. split; [exact Hrun|]. rewrite Hfr. reflexivity.
Defined.
