(* ===== verification/FsInode.v ===== *)
(** * Inodes (fs.c [iget], [idup], [ilock], [iunlock], [iupdate], [ialloc])

    The layout of inodes on disk, the inode cache's invariant (one entry per
    live inode), and loading and storing inodes through the log. *)

From S2P Require Import Prelude Params Sleeplock Bio Super CString Log LogProof Journal Fs FsDemo FsBlocks.

(** ** The on-disk inode *)

Definition is_s16 (x : Z) : Prop := (- 2 ^ 15 ≤ x < 2 ^ 15)%Z.

Record dinode_ok (di : dinode) : Prop := {
  do_type : is_s16 (d_type di);
  do_major : is_s16 (d_major di);
  do_minor : is_s16 (d_minor di);
  do_nlink : is_s16 (d_nlink di);
  do_size : is_u32 (d_size di);
  do_addrs : length (d_addrs di) = NADDRS ∧ Forall is_u32 (d_addrs di)
}.

Lemma s16_dec x : is_s16 x → s16 (le_dec (le_enc 2 x)) = x.
Proof.
  unfold is_s16, s16, u16. intros Hx. rewrite le_dec_enc. change (256 ^ Z.of_nat 2)%Z with (2 ^ 16)%Z.
  rewrite Z.mod_mod by lia. destruct (decide (0 ≤ x)%Z).
  - rewrite Z.mod_small by lia. case_match; lia.
  - rewrite <-(Z_mod_plus_full _ 1), Z.mod_small by lia. case_match; lia.
Qed.

Lemma u32_dec x : is_u32 x → le_dec (le_enc 4 x) = x.
Proof. intros. rewrite le_dec_enc32. by apply u32_small. Qed.

Lemma bytes_at_skip a l k n : bytes_at (length a + k) n (a ++ l) = bytes_at k n l.
Proof. unfold bytes_at. by rewrite <-drop_drop, drop_app_length. Qed.

Lemma bytes_at_head (a l : list Z) : bytes_at 0 (length a) (a ++ l) = a.
Proof. unfold bytes_at. by rewrite drop_0, take_app_length. Qed.

Lemma words_cons (x : Z) l : mjoin (le_enc 4 <$> x :: l) = le_enc 4 x ++ mjoin (le_enc 4 <$> l).
Proof. done. Qed.

Lemma bytes_at_words (l : list Z) k x rest :
  l !! k = Some x → bytes_at (4 * k) 4 (mjoin (le_enc 4 <$> l) ++ rest) = le_enc 4 x.
Proof.
  revert k. induction l as [|y l IH]; intros k Hk; [done|].
  rewrite words_cons, <-app_assoc. destruct k as [|k]; simpl in Hk.
  - simplify_eq. apply (bytes_at_head (le_enc 4 x)).
  - replace (4 * S k) with (length (le_enc 4 y) + 4 * k) by (rewrite le_enc_length; lia).
    rewrite bytes_at_skip. by apply IH.
Qed.

Lemma words_length (l : list Z) : length (mjoin (le_enc 4 <$> l)) = 4 * length l.
Proof.
  induction l as [|x l IH]; [done|]. rewrite words_cons, length_app, IH, le_enc_length. simpl. lia.
Qed.

Lemma dinode_enc_length di : length (d_addrs di) = NADDRS → length (dinode_enc di) = DINODESZ.
Proof.
  intros Ha. unfold dinode_enc. rewrite !length_app, !le_enc_length, words_length, Ha. reflexivity.
Qed.

Lemma dinode_enc_byte di : Forall is_byte (dinode_enc di).
Proof.
  unfold dinode_enc. rewrite !Forall_app. split_and!; try apply le_enc_byte.
  induction (d_addrs di) as [|x l IH]; [constructor|]. rewrite words_cons.
  apply Forall_app. split; [apply le_enc_byte|done].
Qed.

Lemma dinode_dec_enc di : dinode_ok di → dinode_dec (dinode_enc di) = di.
Proof.
  destruct di as [ty ma mi nl sz ad]. intros [Ht Hma Hmi Hnl Hsz [Hal Had]]. simpl in *.
  unfold dinode_dec, get16, get32, dinode_enc. cbn [d_type d_major d_minor d_nlink d_size d_addrs].
  f_equal.
  - rewrite (bytes_at_head (le_enc 2 ty)). by apply s16_dec.
  - rewrite (bytes_at_skip (le_enc 2 ty) _ 0), (bytes_at_head (le_enc 2 ma)). by apply s16_dec.
  - rewrite (bytes_at_skip (le_enc 2 ty) _ 2), (bytes_at_skip (le_enc 2 ma) _ 0),
      (bytes_at_head (le_enc 2 mi)). by apply s16_dec.
  - rewrite (bytes_at_skip (le_enc 2 ty) _ 4), (bytes_at_skip (le_enc 2 ma) _ 2),
      (bytes_at_skip (le_enc 2 mi) _ 0), (bytes_at_head (le_enc 2 nl)). by apply s16_dec.
  - rewrite (bytes_at_skip (le_enc 2 ty) _ 6), (bytes_at_skip (le_enc 2 ma) _ 4),
      (bytes_at_skip (le_enc 2 mi) _ 2), (bytes_at_skip (le_enc 2 nl) _ 0),
      (bytes_at_head (le_enc 4 sz)). by apply u32_dec.
  - apply list_eq. intros k. rewrite list_lookup_fmap. destruct (decide (k < NADDRS)) as [Hk|Hk].
    + rewrite lookup_seq_lt by done. destruct (lookup_lt_is_Some_2 ad k) as [x Hx]; [lia|].
      rewrite Hx. cbn [fmap option_fmap option_map]. f_equal. rewrite Nat.add_0_l.
      rewrite !app_assoc. set (pre := _ ++ le_enc 4 sz).
      replace (12 + 4 * k) with (length pre + 4 * k) by (unfold pre; rewrite !length_app, !le_enc_length; lia).
      rewrite bytes_at_skip.
      rewrite <-(app_nil_r (mjoin _)), (bytes_at_words _ _ _ _ Hx). apply u32_dec.
      by eapply (Forall_lookup_1 _ _ _ _ Had).
    + rewrite lookup_seq_ge by lia. simpl. symmetry. apply lookup_ge_None_2. lia.
Qed.

Lemma dinode_off_bound inum : dinode_off inum + DINODESZ ≤ Z.to_nat BSIZE.
Proof.
  unfold dinode_off. pose proof (Z.mod_pos_bound inum IPB ltac:(reflexivity)) as Hm.
  change IPB with 8%Z in *. unfold DINODESZ. plia.
Qed.

Lemma dinode_put_ok inum di d : length (d_addrs di) = NADDRS → blk_ok d → blk_ok (dinode_put inum di d).
Proof.
  intros Ha Hd. apply blk_ok_splice; [done|apply dinode_enc_byte|].
  rewrite dinode_enc_length by done. apply dinode_off_bound.
Qed.

(** What is stored is read back, and the block's other inodes are untouched. *)
Lemma dinode_at_put inum inum' di d :
  dinode_ok di → blk_ok d →
  dinode_at inum' (dinode_put inum di d) =
    if decide (inum `mod` IPB = inum' `mod` IPB)%Z then di else dinode_at inum' d.
Proof.
  intros Hdi [Hlen _]. pose proof (dinode_enc_length di (proj1 (do_addrs _ Hdi))) as Hel.
  pose proof (dinode_off_bound inum) as Hb. unfold dinode_at, dinode_put. case_decide as Hm.
  - unfold dinode_off. rewrite <-Hm. rewrite bytes_at_splice_eq; [by apply dinode_dec_enc|done|].
    unfold dinode_off in Hb. lia.
  - f_equal. apply bytes_at_splice_ne; [lia|]. rewrite Hel. unfold dinode_off.
    pose proof (Z.mod_pos_bound inum IPB ltac:(reflexivity)).
    pose proof (Z.mod_pos_bound inum' IPB ltac:(reflexivity)).
    assert (Z.to_nat (inum `mod` IPB) ≠ Z.to_nat (inum' `mod` IPB)) by lia. unfold DINODESZ. nia.
Qed.

(** ** The inode cache *)

(** Live entries are for different inodes, and counts are not negative. *)
Record icache_ok (ic : list inode) : Prop := {
  ico_len : length ic = NINODE;
  ico_ref i x : ic !! i = Some x → (0 ≤ i_ref x)%Z;
  ico_uniq i j x y : ic !! i = Some x → ic !! j = Some y → (0 < i_ref x)%Z → (0 < i_ref y)%Z →
    i_dev x = i_dev y → i_inum x = i_inum y → i = j
}.

Definition caches (dev inum : Z) (x : inode) : Prop :=
  (i_ref x > 0)%Z ∧ i_dev x = dev ∧ i_inum x = inum.
#[export] Instance caches_dec dev inum x : Decision (caches dev inum x).
Proof. unfold caches. apply _. Defined.

Lemma iget_scan_spec dev inum l k e :
  iget_scan dev inum l k e =
    match list_find (caches dev inum) l with
    | Some (i, _) => inl (k + i)
    | None => inr (match e with
                   | Some _ => e
                   | None => (λ p, k + p.1) <$> list_find (λ x, i_ref x = 0%Z) l
                   end)
    end.
Proof.
  revert k e. induction l as [|x l IH]; intros k e; cbn [iget_scan list_find]; [by destruct e|].
  unfold caches at 1. destruct (decide (i_ref x > 0 ∧ i_dev x = dev ∧ i_inum x = inum)%Z) as [Hc|Hc].
  { by rewrite Nat.add_0_r. }
  rewrite IH. destruct (list_find (caches dev inum) l) as [[i y]|]; simpl; [f_equal; lia|].
  f_equal. destruct e; [done|]. case_decide; simpl; [f_equal; lia|].
  destruct (list_find _ l) as [[i y]|]; simpl; [f_equal; lia|done].
Qed.

Lemma icache_ok_alter ic i f x :
  icache_ok ic → ic !! i = Some x → (0 ≤ i_ref (f x))%Z →
  (∀ j y, ic !! j = Some y → j ≠ i → (0 < i_ref y)%Z → (0 < i_ref (f x))%Z →
    i_dev y = i_dev (f x) → i_inum y = i_inum (f x) → False) →
  icache_ok (alter f i ic).
Proof.
  intros [Hl Hr Hu] Hi Hf Hne. constructor; [by rewrite length_alter| |].
  - intros j y. rewrite list_lookup_alter. case_decide; [subst; rewrite Hi; simpl; naive_solver|naive_solver].
  - intros j k y z. rewrite !list_lookup_alter. repeat case_decide; subst; rewrite ?Hi; simpl;
      intros; simplify_eq; [done|exfalso; by eapply (Hne k z)|exfalso; by eapply (Hne j y)|by eapply Hu].
Qed.

Section inode_ops.
Context {T : Type} `{JournalSpec T}.
Implicit Types (t : T) (s : fstate T).

(** What [iget] finds before the call: the references of a cached entry. *)
Definition cached_ref (dev inum : Z) (ic : list inode) : Z :=
  match list_find (caches dev inum) ic with Some (_, x) => i_ref x | None => 0 end.

(** [iget] keeps the inode cache free of duplicates. It returns an entry
    for the inode asked for and adds one reference to those the inode had; an
    entry for an inode that was not cached is taken from the unreferenced ones
    and marked invalid; all other entries and the disk are unchanged. It
    panics only if the inode is not cached and every entry is in use. *)
Lemma iget_cases dev inum s :
  icache_ok (fs_icache s) →
  match iget dev inum s with
  | Done ip s' =>
    icache_ok (fs_icache s') ∧ fs_disk s' = fs_disk s ∧ fs_sb s' = fs_sb s ∧
    (∃ x, fs_icache s' !! ip = Some x ∧ i_dev x = dev ∧ i_inum x = inum ∧
      i_ref x = (cached_ref dev inum (fs_icache s) + 1)%Z ∧
      (cached_ref dev inum (fs_icache s) = 0%Z → i_valid x = 0%Z)) ∧
    (∀ i, i ≠ ip → fs_icache s' !! i = fs_icache s !! i)
  | Panic e => e = "iget: no inodes" ∧ cached_ref dev inum (fs_icache s) = 0%Z ∧
    ∀ i x, fs_icache s !! i = Some x → i_ref x ≠ 0%Z
  | _ => False
  end.
Proof.
  intros Hok. destruct s as [t sb ic]. simpl in *.
  unfold iget, mbind, M_bind, mget, updi, mmodify, panic. simpl.
  rewrite iget_scan_spec. unfold cached_ref.
  destruct (list_find (caches dev inum) ic) as [[i x]|] eqn:Hc; simpl.
  - apply list_find_Some in Hc as (Hi & (Href & Hd & Hn) & _).
    split_and!; [|done|done| |].
    + eapply icache_ok_alter; [done|exact Hi|simpl; lia|]. simpl. intros j y Hj Hne Hy _ He1 He2.
      apply Hne. by eapply (ico_uniq _ Hok); [exact Hj|exact Hi|lia|lia|..].
    + exists (set_iref (i_ref x + 1) x). rewrite list_lookup_alter_eq, Hi. simpl.
      split_and!; [done|done|done|done|lia].
    + intros j Hj. by rewrite list_lookup_alter_ne.
  - apply list_find_None in Hc. rewrite Forall_lookup in Hc.
    destruct (list_find (λ x, i_ref x = 0%Z) ic) as [[i x]|] eqn:He; simpl.
    + apply list_find_Some in He as (Hi & Href & _). split_and!; [|done|done| |].
      * eapply icache_ok_alter; [done|exact Hi|simpl; lia|]. simpl. intros j y Hj _ Hy _ He1 He2.
        apply (Hc _ _ Hj). split_and!; [lia|done|done].
      * exists (set_iname dev inum x). rewrite list_lookup_alter_eq, Hi. done.
      * intros j Hj. by rewrite list_lookup_alter_ne.
    + apply list_find_None in He. rewrite Forall_lookup in He. split_and!; [done|done|]. exact He.
Qed.

(** ** Loading and storing *)

Lemma iblk_facts sb j inum : fs_geo sb j → (0 ≤ inum < sb_ninodes sb)%Z →
  iblk sb inum < length (j_view j) ∧ home (j_start j) (j_size j) (iblk sb inum) ∧
  is_meta sb (j_start j) (j_size j) (iblk sb inum) ∧ iblk sb inum < Z.to_nat (sb_bmapstart sb) ∧
  1 < iblk sb inum.
Proof.
  intros [Hsz Hpos _ _ (H1 & H2 & Hhome) Hbm _] Hi.
  assert (Hd : Z.to_nat (inum / IPB) ≤ Z.to_nat (sb_ninodes sb / IPB)).
  { apply Z2Nat.inj_le; [apply Z.div_pos; [lia|reflexivity]|apply Z.div_pos; [lia|reflexivity]|].
    apply Z.div_le_mono; [reflexivity|lia]. }
  assert (Z.to_nat (sb_bmapstart sb) ≤ bmblk sb (nblk sb - 1)) by (unfold bmblk; lia).
  unfold iblk. split_and!; [lia|apply Hhome; lia|right; right; left; lia|lia|lia].
Qed.

Lemma IBLOCK_eq t sb j inum : jrep t j → fs_geo sb j → (0 ≤ inum < sb_ninodes sb)%Z →
  IBLOCK inum sb = Z.of_nat (iblk sb inum).
Proof.
  intros (_ & _ & H32)%jrep_wf Hg Hi. pose proof (iblk_facts _ _ _ Hg Hi) as (Hlt & _).
  pose proof (fg_pos _ _ Hg) as (_ & _ & Hp & _). unfold IBLOCK.
  assert (Heq : (inum / IPB + sb_inodestart sb)%Z = Z.of_nat (iblk sb inum)).
  { unfold iblk. rewrite Nat2Z.inj_add, !Z2Nat.id; [lia| |lia]. apply Z.div_pos; [lia|reflexivity]. }
  rewrite Heq. apply u32_small. plia.
Qed.

(** The inode [inum] as the disk has it. *)
Definition disk_inode (v : list block) (sb : superblock) (inum : Z) : dinode :=
  dinode_at inum (v !!! iblk sb inum).

Definition j_iput (sb : superblock) (inum : Z) (di : dinode) (j : jstate) : jstate :=
  j_put (iblk sb inum) (dinode_put inum di (j_view j !!! iblk sb inum)) j.

Lemma fs_geo_iput sb j inum di : fs_geo sb j → (0 ≤ inum < sb_ninodes sb)%Z → fs_geo sb (j_iput sb inum di j).
Proof.
  intros Hg Hi. pose proof (iblk_facts _ _ _ Hg Hi) as (Hlt & _ & _ & Hbm & H1).
  eapply fs_geo_ext; [exact Hg|done|done| | |].
  - simpl. by rewrite length_insert.
  - simpl. rewrite list_lookup_insert_ne by lia. done.
  - intros b Hb Hm. unfold j_iput. rewrite isfree_put; [by apply (fg_used _ _ Hg)|unfold bmblk; lia].
Qed.

Lemma iblk_neq inum inum' sb : (0 ≤ inum)%Z → (0 ≤ inum')%Z → iblk sb inum = iblk sb inum' →
  (inum `mod` IPB = inum' `mod` IPB)%Z → inum = inum'.
Proof.
  unfold iblk. intros Hi Hi' Hb Hm.
  pose proof (Z.div_pos inum IPB Hi ltac:(reflexivity)).
  pose proof (Z.div_pos inum' IPB Hi' ltac:(reflexivity)).
  rewrite (Z.div_mod inum IPB), (Z.div_mod inum' IPB) by done. f_equal; [f_equal; lia|done].
Qed.

Lemma disk_inode_iput t sb j inum inum' di :
  jrep t j → fs_geo sb j → (0 ≤ inum < sb_ninodes sb)%Z → (0 ≤ inum')%Z → dinode_ok di →
  disk_inode (j_view (j_iput sb inum di j)) sb inum' =
    if decide (inum = inum') then di else disk_inode (j_view j) sb inum'.
Proof.
  intros Hr Hg Hi Hi' Hdi. pose proof (iblk_facts _ _ _ Hg Hi) as (Hlt & _).
  destruct (jview_some _ _ _ Hr Hlt) as (d & Hd & Hok).
  unfold disk_inode, j_iput. simpl. destruct (decide (iblk sb inum = iblk sb inum')) as [He|Hne].
  - rewrite <-He, list_lookup_total_insert_eq by done.
    rewrite (list_lookup_total_correct _ _ _ Hd), dinode_at_put by done.
    destruct (decide (inum = inum')) as [->|Hne']; [by rewrite decide_True|].
    rewrite decide_False; [done|]. intros Hm. apply Hne', (iblk_neq _ _ sb); [lia|done..].
  - rewrite list_lookup_total_insert_ne by done. by rewrite decide_False by (by intros ->).
Qed.

Lemma iupdate_spec t j sb ic ip x Q :
  jrep t j → fs_geo sb j → held_ok sb j → ic !! ip = Some x → i_dev x = ROOTDEV →
  (0 ≤ i_inum x < sb_ninodes sb)%Z → length (i_addrs x) = NADDRS →
  size (j_log j) + size (j_held j) < NBUF → size (j_log j) < j_cap j →
  (∀ t', jrep t' (j_iput sb (i_inum x) (inode_dinode x) j) → Q tt (FState t' sb ic)) →
  wp (iupdate ip) Q (FState t sb ic).
Proof.
  intros Hr Hg Hh Hip Hdev Hi Hal Hroom Hcap HQ.
  pose proof (iblk_facts _ _ _ Hg Hi) as (Hlt & Hhome & Hmeta & _).
  destruct (jview_some _ _ _ Hr Hlt) as (d & Hd & Hok). unfold iupdate.
  apply wp_bind, wp_done with (a := x) (s' := FState t sb ic).
  { unfold geti. simpl. by rewrite (list_lookup_total_correct _ _ _ Hip). }
  apply wp_bind, wp_done with (a := sb) (s' := FState t sb ic); [done|]. apply wp_bind.
  eapply disk_jread; [exact Hr|done|by eapply IBLOCK_eq|done|by eapply held_not_meta|by right|].
  intros h t1 Hn Hr1. apply wp_bind.
  eapply disk_jdata; [exact Hr1|apply lookup_insert_eq|exact Hd|].
  eapply log_release_spec; [exact Hr1|done|by apply dinode_put_ok|done|done|done|].
  intros t2 Hr2. apply HQ. unfold j_iput. by rewrite (list_lookup_total_correct _ _ _ Hd).
Qed.

(** [iupdate] stores the in-memory inode. *)
Lemma iupdate_stores t j sb ic ip x :
  jrep t j → fs_geo sb j → held_ok sb j → ic !! ip = Some x → i_dev x = ROOTDEV →
  (0 ≤ i_inum x < sb_ninodes sb)%Z → dinode_ok (inode_dinode x) →
  size (j_log j) + size (j_held j) < NBUF → size (j_log j) < j_cap j →
  ∃ t' j', iupdate ip (FState t sb ic) = Done tt (FState t' sb ic) ∧ jrep t' j' ∧ fs_geo sb j' ∧
    (∀ inum, (0 ≤ inum)%Z → disk_inode (j_view j') sb inum =
      if decide (i_inum x = inum) then inode_dinode x else disk_inode (j_view j) sb inum) ∧
    (∀ b, b ≠ iblk sb (i_inum x) → j_view j' !! b = j_view j !! b).
Proof.
  intros Hr Hg Hh Hip Hdev Hi Hok Hroom Hcap.
  pose proof (iupdate_spec t j sb ic ip x (λ _ s, ∃ t', s = FState t' sb ic ∧
    jrep t' (j_iput sb (i_inum x) (inode_dinode x) j)) Hr Hg Hh Hip Hdev Hi
    (proj1 (do_addrs _ Hok)) Hroom Hcap) as Hwp.
  apply wp_inv in Hwp as ([] & s & Hrun & t' & -> & Hr'); [|intros t' Hr'; by exists t'].
  exists t', (j_iput sb (i_inum x) (inode_dinode x) j).
  split_and!; [exact Hrun|done|by apply fs_geo_iput| |].
  - intros inum Hinum. by eapply disk_inode_iput.
  - intros b Hb. simpl. by rewrite list_lookup_insert_ne.
Qed.

Variable pid : Z.

(** An inode locked by the current process. *)
Definition locked (x : inode) : inode := set_ilock (Sleeplock 1 pid) x.

Lemma geti_done ip x t sb ic : ic !! ip = Some x →
  geti ip (FState t sb ic) = Done x (FState t sb ic).
Proof. intros Hx. unfold geti. simpl. by rewrite (list_lookup_total_correct _ _ _ Hx). Qed.

Lemma acquire_done ip x t sb ic : ic !! ip = Some x → sl_locked (i_lock x) = 0%Z →
  on_ilock ip (acquiresleep pid) (FState t sb ic) = Done tt (FState t sb (<[ip := locked x]> ic)).
Proof.
  intros Hx Hl. unfold on_ilock, zoom. simpl. rewrite (list_lookup_total_correct _ _ _ Hx).
  unfold acquiresleep. rewrite decide_True by done. simpl. by rewrite (list_alter_Some _ _ _ _ Hx).
Qed.

Lemma updi_done ip x f t sb ic : ic !! ip = Some x →
  updi ip f (FState t sb ic) = Done tt (FState t sb (<[ip := f x]> ic)).
Proof. intros Hx. unfold updi, mmodify. simpl. by rewrite (list_alter_Some _ _ _ _ Hx). Qed.

(** What [ilock] makes of an entry: locked, and loaded if it was invalid. *)
Definition ilocked (di : dinode) (x : inode) : inode :=
  if decide (i_valid x = 0%Z) then set_ivalid 1 (load_dinode di (locked x)) else locked x.

Lemma ilock_spec t j sb ic ip x :
  jrep t j → fs_geo sb j → held_ok sb j → ic !! ip = Some x → ip < NINODE → (1 ≤ i_ref x)%Z →
  sl_locked (i_lock x) = 0%Z → i_dev x = ROOTDEV → (0 ≤ i_inum x < sb_ninodes sb)%Z →
  size (j_log j) + size (j_held j) < NBUF →
  wpe (ilock pid ip)
    (λ _ s, ∃ t', s = FState t' sb (<[ip := ilocked (disk_inode (j_view j) sb (i_inum x)) x]> ic) ∧
      jrep t' j)
    (λ e, e = "ilock: no type" ∧ i_valid x = 0%Z ∧ d_type (disk_inode (j_view j) sb (i_inum x)) = 0%Z)
    (FState t sb ic).
Proof.
  intros Hr Hg Hh Hip Hlt Href Hl Hdev Hi Hroom.
  pose proof (iblk_facts _ _ _ Hg Hi) as (Hblt & Hhome & Hmeta & _).
  destruct (jview_some _ _ _ Hr Hblt) as (d & Hd & Hok).
  set (di := disk_inode (j_view j) sb (i_inum x)).
  assert (Hdi : dinode_at (i_inum x) d = di).
  { unfold di, disk_inode. by rewrite (list_lookup_total_correct _ _ _ Hd). }
  pose proof (lookup_lt_Some _ _ _ Hip) as Hlen.
  assert (Hic : ∀ y, <[ip := y]> ic !! ip = Some y) by (intros; by apply list_lookup_insert_eq).
  unfold ilock. eapply wpe_bind_wp, wp_done; [by apply geti_done|].
  apply wpe_bind_wp, wp_assert.
  { rewrite bool_decide_eq_false_2 by (unfold NULLINODE; lia). simpl. by apply negb_true_iff, Z.ltb_ge. }
  eapply wpe_bind_wp, wp_done; [by apply acquire_done|].
  eapply wpe_bind_wp, wp_done; [by apply geti_done|]. simpl. unfold ilocked.
  case_decide as Hv; [|by apply wp_wpe, wp_ret; exists t].
  eapply wpe_bind_wp, wp_done; [done|]. simpl. apply wpe_bind_wp.
  eapply disk_jread; [exact Hr|done|by eapply IBLOCK_eq|done|by eapply held_not_meta|by right|].
  intros h t1 Hn Hr1. apply wpe_bind_wp.
  eapply disk_jdata; [exact Hr1|apply lookup_insert_eq|exact Hd|]. rewrite Hdi.
  eapply wpe_bind_wp, wp_done; [by apply updi_done|]. rewrite list_insert_insert_eq. apply wpe_bind_wp.
  eapply disk_release_read; [exact Hr1|done|by eapply jrep_clean, held_not_meta|]. intros t2 Hr2.
  eapply wpe_bind_wp, wp_done; [by apply updi_done|]. rewrite list_insert_insert_eq.
  eapply wpe_bind_wp, wp_done; [by apply geti_done|].
  apply wpe_assert; simpl.
  - intros _. by exists t2.
  - intros Ht%negb_false_iff%Z.eqb_eq. done.
Qed.

(** C8. The inode cache and the inodes on disk. [iget] keeps the cache free of
    duplicates: it returns an entry for the inode asked for and adds one
    reference to those the inode had; an entry for an inode that was not cached
    is taken from the unreferenced ones and marked invalid; all other entries and
    the disk are unchanged; it panics only if the inode is not cached and every
    entry is in use. [ilock] of a referenced, unlocked inode
    locks it and, if the entry was invalid, loads exactly the inode that the disk
    holds; the disk is not changed; it panics only on loading an inode that is
    free on disk. [iupdate] stores the in-memory inode so that it reads back
    unchanged, field by field, and leaves every other inode of the disk as it
    was; the layout invariant is kept. *)
Theorem inodes_correct t j sb ic ip x :
  jrep t j → fs_geo sb j → held_ok sb j → ic !! ip = Some x → i_dev x = ROOTDEV →
  (0 ≤ i_inum x < sb_ninodes sb)%Z → size (j_log j) + size (j_held j) < NBUF →
  (∀ dev inum, icache_ok ic →
    match iget dev inum (FState t sb ic) with
    | Done ip s' =>
      icache_ok (fs_icache s') ∧ fs_disk s' = t ∧ fs_sb s' = sb ∧
      (∃ x, fs_icache s' !! ip = Some x ∧ i_dev x = dev ∧ i_inum x = inum ∧
        i_ref x = (cached_ref dev inum ic + 1)%Z ∧ (cached_ref dev inum ic = 0%Z → i_valid x = 0%Z)) ∧
      (∀ i, i ≠ ip → fs_icache s' !! i = ic !! i)
    | Panic e => e = "iget: no inodes" ∧ cached_ref dev inum ic = 0%Z ∧ ∀ i x, ic !! i = Some x → i_ref x ≠ 0%Z
    | _ => False
    end) ∧
  (ip < NINODE → (1 ≤ i_ref x)%Z → sl_locked (i_lock x) = 0%Z →
    wpe (ilock pid ip)
      (λ _ s, ∃ t', s = FState t' sb (<[ip := ilocked (disk_inode (j_view j) sb (i_inum x)) x]> ic) ∧
        jrep t' j)
      (λ e, e = "ilock: no type" ∧ i_valid x = 0%Z ∧ d_type (disk_inode (j_view j) sb (i_inum x)) = 0%Z)
      (FState t sb ic)) ∧
  (dinode_ok (inode_dinode x) → size (j_log j) < j_cap j →
    ∃ t' j', iupdate ip (FState t sb ic) = Done tt (FState t' sb ic) ∧ jrep t' j' ∧ fs_geo sb j' ∧
      (∀ inum, (0 ≤ inum)%Z → disk_inode (j_view j') sb inum =
        if decide (i_inum x = inum) then inode_dinode x else disk_inode (j_view j) sb inum) ∧
      (∀ b, b ≠ iblk sb (i_inum x) → j_view j' !! b = j_view j !! b)).
Proof. intros. split_and!; intros; [by apply (iget_cases _ _ (FState t sb ic))|by apply ilock_spec|by apply iupdate_stores]. Qed.

End inode_ops.

(** ** Witnesses *)

Definition demo_entry : inode := Inode ROOTDEV 2 1 (Sleeplock 0 0) 0 0 0 0 0 0 (replicate NADDRS 0%Z).
Definition demo_icache : list inode := demo_entry :: replicate (NINODE - 1) zero_inode.

Lemma demo_icache_ok : icache_ok demo_icache.
Proof.
  assert (Hz : ∀ i x, demo_icache !! S i = Some x → i_ref x = 0%Z).
  { intros i x Hx. simpl in Hx. change (replicate (NINODE - 1) zero_inode !! i = Some x) in Hx.
    by apply lookup_replicate_1 in Hx as [-> _]. }
  constructor; [reflexivity| |].
  - intros [|i] x Hx; [simpl in Hx; by simplify_eq|]. by rewrite (Hz _ _ Hx).
  - intros [|i] [|j] x y Hx Hy Hrx Hry; [done|rewrite (Hz _ _ Hy) in Hry; lia|rewrite (Hz _ _ Hx) in Hrx; lia..].
Qed.

Definition demo_loaded : inode := load_dinode demo_file demo_entry.

Lemma demo_loaded_ok : dinode_ok (inode_dinode demo_loaded).
Proof.
  constructor; simpl; unfold is_s16, is_u32, T_FILE; [lia..|].
  split; [reflexivity|]. repeat constructor; unfold is_u32; lia.
Qed.

Lemma inodes_correct_witness :
  (∃ s', iget ROOTDEV 2 (FState demo_t demo_sb demo_icache) = Done 0 s' ∧ icache_ok (fs_icache s')) ∧
  (∃ t', ilock 7 0 (FState demo_t demo_sb demo_icache) =
    Done tt (FState t' demo_sb (<[0 := ilocked 7 demo_file demo_entry]> demo_icache))) ∧
  (∃ t' j', iupdate 0 (FState demo_t demo_sb [set_inlink 2 demo_loaded]) =
      Done tt (FState t' demo_sb [set_inlink 2 demo_loaded]) ∧
    d_nlink (disk_inode (j_view j') demo_sb 2) = 2%Z).
Proof.
  destruct demo_sizes as (Hl & Hh & Hc & HN). split_and!.
  - destruct (inodes_correct 7 demo_t demo_j demo_sb demo_icache 0 demo_entry
      demo_jrep demo_geo demo_held_ok eq_refl eq_refl ltac:(simpl; lia) ltac:(rewrite Hl, Hh, HN; lia)) as [Hi _].
    specialize (Hi ROOTDEV 2%Z demo_icache_ok). destruct (iget ROOTDEV 2 (FState demo_t demo_sb demo_icache)) as [ip s'| | |] eqn:E.
    + destruct Hi as (Hok & _). exists s'. split; [|exact Hok]. f_equal. unfold iget, mbind, M_bind, mget in E. rewrite iget_scan_spec in E.
      change (list_find (caches ROOTDEV 2) _) with (Some (0, demo_entry)) in E. injection E as <- _. reflexivity.
    + destruct Hi as (_ & Hi & _). discriminate Hi.
    + destruct Hi.
    + destruct Hi.
  - assert (Hdi : disk_inode (j_view demo_j) demo_sb 2 = demo_file) by (vm_compute; reflexivity).
    assert (H50 : 0 < NINODE) by (unfold NINODE; lia).
    destruct (inodes_correct 7 demo_t demo_j demo_sb demo_icache 0 demo_entry
      demo_jrep demo_geo demo_held_ok eq_refl eq_refl ltac:(simpl; lia) ltac:(rewrite Hl, Hh, HN; lia)) as (_ & Hw & _).
    specialize (Hw H50 ltac:(simpl; lia) eq_refl).
    unfold wpe in Hw. destruct (ilock 7 0 _) as [[] s|e| |] eqn:E; [|exfalso..].
    + destruct Hw as (t' & -> & _). exists t'. change (i_inum demo_entry) with 2%Z. by rewrite Hdi.
    + destruct Hw as (_ & _ & Ht). change (i_inum demo_entry) with 2%Z in Ht. rewrite Hdi in Ht. discriminate Ht.
    + exact Hw.
    + exact Hw.
  - assert (Hok : dinode_ok (inode_dinode (set_inlink 2 demo_loaded))).
    { destruct demo_loaded_ok. constructor; simpl in *; done. }
    destruct (inodes_correct 7 demo_t demo_j demo_sb [set_inlink 2 demo_loaded] 0 (set_inlink 2 demo_loaded)
      demo_jrep demo_geo demo_held_ok eq_refl eq_refl ltac:(simpl; lia) ltac:(rewrite Hl, Hh, HN; lia)) as (_ & _ & Hu).
    destruct (Hu Hok ltac:(rewrite Hl, Hc; lia)) as (t' & j' & Hrun & _ & _ & Hd & _).
    exists t', j'. split; [exact Hrun|]. rewrite Hd by lia. reflexivity.
Defined.
