(* ===== verification/FsFile.v ===== *)
(** * File contents (fs.c [bmap], [readi], [writei])

    A file is its inode's block map: [faddr] gives the address of the n-th
    block, [fbyte] the i-th byte. *)

From S2P Require Import Prelude Params Sleeplock Bio Super CString Log LogProof Journal Fs FsDemo FsBlocks FsInode.

(** ** The block map *)

Definition BSn : nat := Z.to_nat BSIZE.
Lemma BSn_Z : Z.of_nat BSn = BSIZE.
Proof. reflexivity. Qed.
Definition NDn : nat := Z.to_nat NDIRECT.
Lemma NDn_Z : Z.of_nat NDn = NDIRECT.
Proof. reflexivity. Qed.
Definition MAXFn : nat := Z.to_nat MAXFILE.
Lemma MAXFn_Z : Z.of_nat MAXFn = MAXFILE.
Proof. reflexivity. Qed.
#[global] Opaque BSn NDn MAXFn.

Lemma BSn_pos : BSn ≠ 0.
Proof. pose proof BSn_Z. plia. Qed.

Definition ind_addr (x : inode) : Z := i_addrs x !!! NDn.

Definition faddr (v : list block) (x : inode) (bn : nat) : Z :=
  if decide (bn < NDn) then i_addrs x !!! bn
  else if decide (ind_addr x = 0%Z) then 0%Z
  else get32 (4 * (bn - NDn)) (v !!! Z.to_nat (ind_addr x)).

Definition fbyte (v : list block) (x : inode) (i : nat) : Z :=
  (v !!! Z.to_nat (faddr v x (i `div` BSn))) !!! (i `mod` BSn).

(** The bytes [off, off + n) of the file. *)
Definition fbytes (v : list block) (x : inode) (off n : nat) : list Z :=
  (λ k, fbyte v x (off + k)) <$> seq 0 n.

(** A block in use that is not file system structure. *)
Definition data_block (sb : superblock) (j : jstate) (a : Z) : Prop :=
  (0 ≤ a)%Z ∧ Z.to_nat a < nblk sb ∧ isfree (j_view j) sb (Z.to_nat a) = false ∧
  ¬ is_meta sb (j_start j) (j_size j) (Z.to_nat a).

(** A block map [f] with indirect block [ind], without holes below [size],
    whose blocks are all its own. *)
Record map_ok (sb : superblock) (j : jstate) (f : nat → Z) (ind size : Z) : Prop := {
  m_data bn : bn < MAXFn → f bn ≠ 0%Z → data_block sb j (f bn);
  m_ind : ind ≠ 0%Z → data_block sb j ind;
  m_ind_sep bn : bn < MAXFn → ind ≠ 0%Z → f bn ≠ ind;
  m_inj bn bn' : bn < MAXFn → bn' < MAXFn → f bn ≠ 0%Z → f bn = f bn' → bn = bn';
  m_alloc bn : bn < MAXFn → (Z.of_nat bn * BSIZE < size)%Z → f bn ≠ 0%Z
}.

(** The inode of such a file. *)
Record file_ok (sb : superblock) (j : jstate) (x : inode) : Prop := {
  f_dev : i_dev x = ROOTDEV;
  f_addrs : length (i_addrs x) = NADDRS ∧ Forall is_u32 (i_addrs x);
  f_size : (0 ≤ i_size x ≤ MAXFILE * BSIZE)%Z;
  f_map : map_ok sb j (faddr (j_view j) x) (ind_addr x) (i_size x)
}.

Section file_ops.
Context {T : Type} `{JournalSpec T}.
Implicit Types (t : T) (j : jstate) (x : inode).

Lemma data_lt sb j a : fs_geo sb j → data_block sb j a → Z.to_nat a < length (j_view j).
Proof. intros Hg (_ & Hlt & _). pose proof (fg_size _ _ Hg). lia. Qed.

Lemma data_home sb j a : data_block sb j a → home (j_start j) (j_size j) (Z.to_nat a).
Proof.
  intros (_ & _ & _ & Hm). unfold home.
  destruct (decide (Z.to_nat a < j_start j ∨ j_start j + j_size j ≤ Z.to_nat a)); [done|].
  exfalso. apply Hm. right. by left.
Qed.

Lemma held_none j b : j_held j = ∅ → ∀ h, j_held j !! h ≠ Some b.
Proof. intros -> h. by rewrite lookup_empty. Qed.

Lemma room_one j b : j_held j = ∅ → size (j_log j) < NBUF → j_room b j.
Proof. intros Hh Hs. right. rewrite Hh, map_size_empty. lia. Qed.

(** A block that is mapped: [bmap] finds it and changes nothing. *)
Lemma bmap_found t j sb ic ip x bn Q :
  jrep t j → fs_geo sb j → file_ok sb j x → ic !! ip = Some x → j_held j = ∅ →
  size (j_log j) < NBUF → bn < MAXFn → faddr (j_view j) x bn ≠ 0%Z →
  (∀ t', jrep t' j → Q (faddr (j_view j) x bn) (FState t' sb ic)) →
  wp (bmap ip (Z.of_nat bn)) Q (FState t sb ic).
Proof.
  intros Hr Hg Hf Hip Hh Hroom Hbn Ha HQ. pose proof NDn_Z as HN. pose proof MAXFn_Z as HM.
  unfold bmap. eapply wp_bind, wp_done; [by apply geti_done|].
  unfold faddr in Ha, HQ. destruct (decide (bn < NDn)) as [Hlt|Hge].
  - rewrite decide_True by lia. cbv zeta. rewrite Nat2Z.id, decide_False by done.
    by apply wp_ret, HQ.
  - destruct (decide (ind_addr x = 0%Z)) as [|Hind]; [done|].
    rewrite decide_False by lia. cbv zeta. rewrite decide_True by plia.
    change (Z.to_nat NDIRECT) with NDn. fold (ind_addr x). rewrite decide_False by done.
    pose proof (m_ind _ _ _ _ _ (f_map _ _ _ Hf) Hind) as Hdb. pose proof (data_lt _ _ _ Hg Hdb) as Hil.
    destruct (jview_some _ _ _ Hr Hil) as (d & Hd & Hdok).
    rewrite (list_lookup_total_correct _ _ _ Hd) in Ha, HQ.
    assert (Hoff : Z.to_nat (Z.of_nat bn - NDIRECT) = bn - NDn) by lia. rewrite Hoff.
    apply wp_bind, wp_ret, wp_bind.
    eapply disk_jread; [exact Hr|apply (f_dev _ _ _ Hf)| |exact Hil|by apply held_none|by apply room_one|].
    { rewrite Z2Nat.id; [done|apply Hdb]. }
    intros h t1 Hn Hr1. apply wp_bind.
    eapply disk_jdata; [exact Hr1|apply lookup_insert_eq|exact Hd|].
    rewrite decide_False by done. apply wp_bind, wp_ret, wp_bind.
    eapply disk_release_read; [exact Hr1|done|by eapply jrep_clean, held_none|].
    intros t2 Hr2. by apply wp_ret, HQ.
Qed.

(** ** readi *)

Lemma div_same off k : off `mod` BSn + k < BSn →
  (off + k) `div` BSn = off `div` BSn ∧ (off + k) `mod` BSn = off `mod` BSn + k.
Proof.
  intros Hk. pose proof (Nat.div_mod_eq off BSn) as Hd.
  assert (Heq : off + k = (off `mod` BSn + k) + off `div` BSn * BSn) by lia.
  rewrite Heq. split.
  - rewrite Nat.div_add by apply BSn_pos. rewrite Nat.div_small by done. lia.
  - rewrite Nat.Div0.mod_add. by apply Nat.mod_small.
Qed.

Lemma fbytes_block v x off m d :
  v !! Z.to_nat (faddr v x (off `div` BSn)) = Some d → length d = BSn → off `mod` BSn + m ≤ BSn →
  bytes_at (off `mod` BSn) m d = fbytes v x off m.
Proof.
  intros Hd Hl Hm. apply list_eq. intros k. rewrite lookup_bytes_at. unfold fbytes.
  rewrite list_lookup_fmap. case_decide as Hk.
  - rewrite lookup_seq_lt by done. cbn [fmap option_fmap option_map]. rewrite Nat.add_0_l. unfold fbyte.
    destruct (div_same off k) as [-> ->]; [lia|].
    rewrite (list_lookup_total_correct _ _ _ Hd).
    destruct (lookup_lt_is_Some_2 d (off `mod` BSn + k)) as [y Hy]; [lia|].
    by rewrite Hy, (list_lookup_total_correct _ _ _ Hy).
  - by rewrite lookup_seq_ge by lia.
Qed.

Lemma fbytes_app v x off n m : fbytes v x off (n + m) = fbytes v x off n ++ fbytes v x (off + n) m.
Proof.
  unfold fbytes. rewrite seq_app, fmap_app. f_equal. rewrite Nat.add_0_l.
  apply list_eq. intros k. rewrite !list_lookup_fmap. destruct (decide (k < m)).
  - rewrite !lookup_seq_lt by done. cbn [fmap option_fmap option_map]. do 2 f_equal. lia.
  - by rewrite !lookup_seq_ge by lia.
Qed.

(** The offsets of one round, as naturals. *)
Lemma round_eqs off n tot :
  tot < n →
  (Z.of_nat off / BSIZE)%Z = Z.of_nat (off `div` BSn) ∧
  Z.to_nat (Z.of_nat off `mod` BSIZE) = off `mod` BSn ∧
  Z.min (Z.of_nat n - Z.of_nat tot) (BSIZE - Z.of_nat off `mod` BSIZE) =
    Z.of_nat (Nat.min (n - tot) (BSn - off `mod` BSn)).
Proof.
  intros Ht. rewrite <-BSn_Z, <-Nat2Z.inj_div, <-Nat2Z.inj_mod, Nat2Z.id.
  pose proof (Nat.mod_upper_bound off BSn BSn_pos). lia.
Qed.

Lemma readi_loop_spec t j sb ic ip x Q fuel off n tot dst :
  jrep t j → fs_geo sb j → file_ok sb j x → ic !! ip = Some x → j_held j = ∅ →
  size (j_log j) < NBUF → tot ≤ n → (Z.of_nat (off + (n - tot)) ≤ i_size x)%Z →
  0 < fuel → n - tot = 0 ∨ off `mod` BSn + (n - tot) ≤ BSn * (fuel - 1) →
  (∀ t', jrep t' j → Q (dst ++ fbytes (j_view j) x off (n - tot)) (FState t' sb ic)) →
  wp (readi_loop fuel ip (Z.of_nat off) (Z.of_nat n) (Z.of_nat tot) dst) Q (FState t sb ic).
Proof.
  intros Hr Hg Hf Hip Hh Hroom. revert t off tot dst Hr.
  induction fuel as [|fuel IH]; intros t off tot dst Hr Ht Hsz Hfu Hmeas HQ; [lia|].
  cbn [readi_loop]. destruct (decide (tot < n)) as [Hlt|Hge].
  2:{ rewrite decide_False by lia. replace (n - tot) with 0 in HQ by lia.
      rewrite app_nil_r in HQ. by apply wp_ret, HQ. }
  rewrite decide_True by lia. destruct (round_eqs off n tot Hlt) as (-> & -> & ->). cbv zeta.
  set (m := Nat.min (n - tot) (BSn - off `mod` BSn)).
  pose proof (Nat.mod_upper_bound off BSn BSn_pos) as Hmod.
  pose proof (f_size _ _ _ Hf) as Hfs. pose proof BSn_Z as HB. pose proof MAXFn_Z as HM.
  pose proof (Nat.div_mod_eq off BSn) as Hdm.
  assert (Hbn : off `div` BSn < MAXFn) by (apply Nat.Div0.div_lt_upper_bound; nia).
  assert (Ha : faddr (j_view j) x (off `div` BSn) ≠ 0%Z).
  { apply (m_alloc _ _ _ _ _ (f_map _ _ _ Hf)); [done|nia]. }
  pose proof (m_data _ _ _ _ _ (f_map _ _ _ Hf) _ Hbn Ha) as Hdb. pose proof (data_lt _ _ _ Hg Hdb) as Hl.
  destruct (jview_some _ _ _ Hr Hl) as (d & Hd & Hdok).
  eapply wp_bind, wp_done; [by apply geti_done|]. apply wp_bind.
  eapply bmap_found; [exact Hr|done..|]. intros t1 Hr1. apply wp_bind.
  eapply disk_jread; [exact Hr1|apply (f_dev _ _ _ Hf)|rewrite Z2Nat.id; [done|apply Hdb]|exact Hl|
    by apply held_none|by apply room_one|].
  intros h t2 Hn Hr2. apply wp_bind.
  eapply disk_jdata; [exact Hr2|apply lookup_insert_eq|exact Hd|]. apply wp_bind.
  eapply disk_release_read; [exact Hr2|done|by eapply jrep_clean, held_none|]. intros t3 Hr3.
  rewrite <-!Nat2Z.inj_add, Nat2Z.id.
  assert (Hm : m ≤ n - tot ∧ 0 < m) by lia. destruct Hmeas as [|Hmeas]; [lia|].
  rewrite Nat.sub_succ, Nat.sub_0_r in Hmeas. apply IH; [done|lia|lia|nia| |].
  - destruct (decide (m = n - tot)) as [Hmn|Hmn]; [left; lia|right].
    assert (Hmb : m = BSn - off `mod` BSn) by lia.
    assert ((off + m) `mod` BSn = 0) as ->.
    { replace (off + m) with ((off `div` BSn + 1) * BSn) by lia. apply Nat.Div0.mod_mul. }
    destruct fuel as [|fuel]; [lia|]. rewrite Nat.sub_succ, Nat.sub_0_r. nia.
  - intros t' Hr'. rewrite <-app_assoc, (fbytes_block _ _ _ _ _ Hd); [|destruct Hdok as [Hdl _]; lia|lia].
    rewrite <-fbytes_app. replace (m + (n - (tot + m))) with (n - tot) by lia. by apply HQ.
Qed.

Lemma io_fuel_enough off n : off `mod` BSn + n ≤ BSn * (io_fuel (Z.of_nat n) - 1).
Proof.
  unfold io_fuel. rewrite <-BSn_Z, <-Nat2Z.inj_div, Nat2Z.id.
  pose proof (Nat.mod_upper_bound off BSn BSn_pos). pose proof (Nat.div_mod_eq n BSn).
  pose proof (Nat.mod_upper_bound n BSn BSn_pos). nia.
Qed.

Lemma readi_spec (devsw_read : Z → option (nat → Z → M (fstate T) (Z * list Z))) t j sb ic ip x off n :
  jrep t j → fs_geo sb j → file_ok sb j x → ic !! ip = Some x → i_type x ≠ T_DEV →
  j_held j = ∅ → size (j_log j) < NBUF → is_u32 off → is_u32 n →
  wp (readi devsw_read ip off n) (λ r s, ∃ t', s = FState t' sb ic ∧ jrep t' j ∧
    r = if decide (i_size x < off ∨ 2 ^ 32 ≤ off + n)%Z then ((-1)%Z, [])
        else let cnt := Z.min n (i_size x - off) in
             (cnt, fbytes (j_view j) x (Z.to_nat off) (Z.to_nat cnt))) (FState t sb ic).
Proof.
  intros Hr Hg Hf Hip Hty Hh Hroom Ho Hn. unfold is_u32 in Ho, Hn.
  unfold readi. eapply wp_bind, wp_done; [by apply geti_done|]. rewrite decide_False by done.
  assert (Hov : (u32 (off + n) < off)%Z ↔ (2 ^ 32 ≤ off + n)%Z).
  { unfold u32. destruct (decide (off + n < 2 ^ 32)%Z); [rewrite Z.mod_small by lia; lia|].
    rewrite <-(Z_mod_plus_full _ (-1)), Z.mod_small by lia. lia. }
  destruct (decide (i_size x < off ∨ u32 (off + n) < off)%Z) as [Hbad|Hgood].
  { apply wp_ret. exists t. split_and!; [done|done|]. by rewrite decide_True by lia. }
  assert (Hsum : u32 (off + n) = (off + n)%Z) by (apply u32_small; unfold is_u32; lia).
  rewrite Hsum, (decide_False (P := (_ ∨ 2 ^ 32 ≤ off + n)%Z)) by lia. cbv zeta.
  set (cnt := if decide (i_size x < off + n)%Z then (i_size x - off)%Z else n).
  assert (Hcnt : cnt = Z.min n (i_size x - off)) by (unfold cnt; case_decide; lia).
  rewrite <-Hcnt. assert (Hcn : cnt = Z.of_nat (Z.to_nat cnt)) by lia.
  rewrite <-(Z2Nat.id off) at 1 by lia. rewrite Hcn at 2. rewrite Hcn at 1. apply wp_bind.
  change 0%Z with (Z.of_nat 0).
  eapply (readi_loop_spec t j sb ic ip x _ _ (Z.to_nat off)); [done..|lia|lia|unfold io_fuel; lia| |].
  - right. rewrite Nat.sub_0_r. apply io_fuel_enough.
  - intros t' Hr'. apply wp_ret. exists t'. split_and!; [done|done|]. by rewrite Nat.sub_0_r.
Qed.

(** ** Growing the block map *)

Lemma map_ok_ext sb j j' f f' ind sz :
  map_ok sb j f ind sz → (∀ bn, bn < MAXFn → f' bn = f bn) →
  (∀ a, data_block sb j a → data_block sb j' a) → map_ok sb j' f' ind sz.
Proof.
  intros [Hd Hi Hs Hj Ha] Hf Hm. constructor.
  - intros bn Hbn. rewrite Hf by done. auto.
  - auto.
  - intros bn Hbn. rewrite Hf by done. auto.
  - intros bn bn' Hbn Hbn'. rewrite !Hf by done. auto.
  - intros bn Hbn. rewrite Hf by done. auto.
Qed.

Lemma map_ok_add sb j f ind sz bn b :
  map_ok sb j f ind sz → data_block sb j b → b ≠ 0%Z → ind ≠ b → (∀ k, k < MAXFn → f k ≠ b) →
  map_ok sb j (λ k, if decide (k = bn) then b else f k) ind sz.
Proof.
  intros [Hd Hi Hs Hj Ha] Hb Hz Hni Hnf. constructor.
  - intros k Hk. case_decide; auto.
  - auto.
  - intros k Hk. case_decide; auto.
  - intros k k' Hk Hk'. repeat case_decide; subst; auto.
    + intros _ He. by destruct (Hnf k').
    + intros _ He. by destruct (Hnf k).
  - intros k Hk. case_decide; auto.
Qed.

Lemma map_ok_ind sb j f sz b :
  map_ok sb j f 0 sz → data_block sb j b → (∀ k, k < MAXFn → f k ≠ b) → map_ok sb j f b sz.
Proof. intros [Hd Hi Hs Hj Ha] Hb Hnf. constructor; auto. Qed.

(** A fresh block belongs to no file. *)
Lemma map_fresh sb j f ind sz b :
  map_ok sb j f ind sz → isfree (j_view j) sb b = true → b ≠ 0 →
  ind ≠ Z.of_nat b ∧ ∀ k, k < MAXFn → f k ≠ Z.of_nat b.
Proof.
  intros Hm Hf Hz. split.
  - intros He. destruct (m_ind _ _ _ _ _ Hm) as (_ & _ & Hu & _); [lia|].
    rewrite He, Nat2Z.id in Hu. congruence.
  - intros k Hk He. destruct (m_data _ _ _ _ _ Hm k Hk) as (_ & _ & Hu & _); [lia|].
    rewrite He, Nat2Z.id in Hu. congruence.
Qed.

Lemma data_block_alloc t sb j b a :
  jrep t j → fs_geo sb j → b < nblk sb → isfree (j_view j) sb b = true →
  data_block sb j a ∨ a = Z.of_nat b → data_block sb (j_alloc sb b j) a.
Proof.
  intros Hr Hg Hb Hf Ha. destruct (free_home _ _ _ Hg Hb Hf) as [_ Hnm].
  assert (Hlt : Z.to_nat a < nblk sb) by (destruct Ha as [(_ & ? & _)|]; lia).
  unfold data_block. rewrite (isfree_alloc t) by done. split_and!; [|done| |].
  - destruct Ha as [(? & _)|]; lia.
  - case_decide as He; [done|]. destruct Ha as [(_ & _ & ? & _)|]; [done|lia].
  - destruct Ha as [(_ & _ & _ & ?)| ->]; [done|by rewrite Nat2Z.id].
Qed.

Lemma data_block_view sb j b a :
  fs_geo sb j → b < nblk sb → isfree (j_view j) sb b = true → data_block sb j a →
  j_view (j_alloc sb b j) !! Z.to_nat a = j_view j !! Z.to_nat a.
Proof.
  intros Hg Hb Hf (_ & Hlt & Hu & Hnm). apply view_alloc; [congruence|].
  intros He. apply Hnm. rewrite He. by apply bmblk_facts.
Qed.

Lemma faddr_ext v v' x bn :
  (ind_addr x ≠ 0%Z → v' !! Z.to_nat (ind_addr x) = v !! Z.to_nat (ind_addr x)) →
  faddr v' x bn = faddr v x bn.
Proof.
  intros Hv. unfold faddr. repeat case_decide; [done|done|].
  by rewrite !list_lookup_total_alt, Hv.
Qed.

Lemma file_ok_alloc t sb j x b :
  jrep t j → fs_geo sb j → file_ok sb j x → b < nblk sb → isfree (j_view j) sb b = true →
  file_ok sb (j_alloc sb b j) x ∧
  ∀ bn, faddr (j_view (j_alloc sb b j)) x bn = faddr (j_view j) x bn.
Proof.
  intros Hr Hg [Hdev Had Hsz Hm] Hb Hf.
  assert (Heq : ∀ bn, faddr (j_view (j_alloc sb b j)) x bn = faddr (j_view j) x bn).
  { intros bn. apply faddr_ext. intros Hi. apply data_block_view; [done..|]. by apply (m_ind _ _ _ _ _ Hm). }
  split; [|done]. constructor; [done|done|done|].
  eapply map_ok_ext; [exact Hm|auto|]. intros a Ha. eapply data_block_alloc; eauto.
Qed.

Definition nfree (v : list block) (sb : superblock) : nat :=
  length (filter (λ b, isfree v sb b = true) (seq 0 (nblk sb))).

Lemma nfree_exists v sb : 0 < nfree v sb → ∃ b, b < nblk sb ∧ isfree v sb b = true.
Proof.
  unfold nfree. destruct (filter _ _) as [|b l] eqn:Hf; simpl; [lia|]. intros _.
  assert (Hb : b ∈ filter (λ b, isfree v sb b = true) (seq 0 (nblk sb))) by (rewrite Hf; left).
  apply list_elem_of_filter in Hb as [Hb Hin%elem_of_seq]. exists b. split; [lia|done].
Qed.

Lemma nfree_none v sb : nfree v sb = 0 → ∀ b, b < nblk sb → isfree v sb b = false.
Proof.
  unfold nfree. intros Hz%nil_length_inv b Hb. destruct (isfree v sb b) eqn:Hf; [|done]. exfalso.
  assert (Hin : b ∈ filter (λ b, isfree v sb b = true) (seq 0 (nblk sb))) by (apply list_elem_of_filter; split; [done|apply elem_of_seq; lia]).
  rewrite Hz in Hin. by apply elem_of_nil in Hin.
Qed.

Lemma nfree_less v v' sb b :
  (∀ b', b' < nblk sb → isfree v sb b' = true → b' = b ∨ isfree v' sb b' = true) →
  nfree v sb ≤ S (nfree v' sb).
Proof.
  intros Hb. unfold nfree.
  cut (filter (λ b, isfree v sb b = true) (seq 0 (nblk sb)) ⊆+
       b :: filter (λ b, isfree v' sb b = true) (seq 0 (nblk sb))).
  { intros Hs%submseteq_length. done. }
  apply NoDup_submseteq; [apply NoDup_filter, NoDup_seq|].
  intros b' [Hf Hin]%list_elem_of_filter. rewrite elem_of_cons, list_elem_of_filter.
  destruct (Hb b'); [apply elem_of_seq in Hin; lia|done|by left|by right].
Qed.

Lemma nfree_mono v v' sb :
  (∀ b, b < nblk sb → isfree v sb b = true → isfree v' sb b = true) → nfree v sb ≤ nfree v' sb.
Proof.
  intros Hb. unfold nfree. apply submseteq_length, NoDup_submseteq; [apply NoDup_filter, NoDup_seq|].
  intros b' [Hf Hin]%list_elem_of_filter. rewrite list_elem_of_filter.
  split; [|done]. apply Hb; [apply elem_of_seq in Hin; lia|done].
Qed.

Definition set_addrs (l : list Z) (x : inode) : inode :=
  Inode (i_dev x) (i_inum x) (i_ref x) (i_lock x) (i_valid x) (i_type x) (i_major x) (i_minor x)
    (i_nlink x) (i_size x) l.

(** The blocks of the bitmap. *)
Definition nbm (sb : superblock) : nat := S ((nblk sb - 1) `div` BPBn).
Definition bm_set (sb : superblock) : gset nat := set_seq (Z.to_nat (sb_bmapstart sb)) (nbm sb).

Lemma bmblk_bm sb b : b < nblk sb → bmblk sb b ∈ bm_set sb.
Proof.
  intros Hb. unfold bm_set, nbm, bmblk. rewrite elem_of_set_seq. pose proof (Nat.Div0.div_le_mono b (nblk sb - 1) BPBn ltac:(lia)). lia.
Qed.

Lemma size_bm_set sb : size (bm_set sb) = nbm sb.
Proof. apply size_set_seq. Qed.

(** *** The blocks that a write logs *)

(** The log counts a block once. [load P j x] is the size of the log with the
    blocks [P] and the indirect block of the file; a file without one may get
    it. When [P] has the blocks of the bitmap an allocation adds no block for
    its bit, otherwise ([c = 1]) it may add one. *)
Definition ind_set (x : inode) : gset nat := if decide (ind_addr x = 0%Z) then ∅ else {[Z.to_nat (ind_addr x)]}.
Definition load (P : gset nat) (j : jstate) (x : inode) : nat :=
  size (j_log j ∪ P ∪ ind_set x) + (if decide (ind_addr x = 0%Z) then 1 else 0).
Definition priced (sb : superblock) (P : gset nat) (c : nat) : Prop := c = 0 → bm_set sb ⊆ P.

Lemma load_sub P P' j j' x : j_log j ∪ P ⊆ j_log j' ∪ P' → load P j x ≤ load P' j' x.
Proof. intros Hs. unfold load. apply Nat.add_le_mono_r, subseteq_size. set_solver. Qed.

Lemma load_log P j x : size (j_log j) ≤ load P j x.
Proof. unfold load. pose proof (subseteq_size (j_log j) (j_log j ∪ P ∪ ind_set x) ltac:(set_solver)). lia. Qed.

Lemma load_add b P j x : load ({[b]} ∪ P) j x ≤ load P j x + 1.
Proof.
  unfold load. replace (j_log j ∪ ({[b]} ∪ P) ∪ ind_set x) with ((j_log j ∪ P ∪ ind_set x) ∪ {[b]}) by set_solver.
  rewrite size_union_alt. pose proof (subseteq_size ({[b]} ∖ (j_log j ∪ P ∪ ind_set x)) {[b]} ltac:(set_solver)). rewrite size_singleton in *. lia.
Qed.

Lemma load_bm sb b P c j x : priced sb P c → b < nblk sb → load ({[bmblk sb b]} ∪ P) j x ≤ load P j x + c.
Proof.
  intros Hp Hb. destruct c as [|c]; [|pose proof (load_add (bmblk sb b) P j x); lia].
  specialize (Hp eq_refl). pose proof (bmblk_bm _ _ Hb). rewrite Nat.add_0_r. apply load_sub. set_solver.
Qed.

Lemma priced_add sb P c b : priced sb P c → priced sb ({[b]} ∪ P) c.
Proof. intros Hp Hc. specialize (Hp Hc). set_solver. Qed.

Lemma load_ind P j x : ind_addr x ≠ 0%Z → load ({[Z.to_nat (ind_addr x)]} ∪ P) j x = load P j x.
Proof. intros Hi. unfold load, ind_set. rewrite !(decide_False (P := ind_addr x = 0%Z)) by done. do 2 f_equal. set_solver. Qed.

Lemma load_same P j x x' : ind_addr x' = ind_addr x → load P j x' = load P j x.
Proof. intros Hi. unfold load, ind_set. by rewrite Hi. Qed.

Lemma load_attach b P j x x' : ind_addr x = 0%Z → ind_addr x' = Z.of_nat b → b ≠ 0 → load P j x' + 1 = load ({[b]} ∪ P) j x.
Proof.
  intros Hi Hi' Hb. unfold load, ind_set. rewrite Hi'. rewrite !(decide_True (P := ind_addr x = 0%Z)) by done. rewrite !decide_False by lia.
  rewrite Nat2Z.id, Nat.add_0_r. do 2 f_equal. set_solver.
Qed.

Lemma load_put b d P j x : load P (j_put b d j) x ≤ load ({[b]} ∪ P) j x.
Proof. apply load_sub. simpl. set_solver. Qed.

(** An allocation logs the block, which is then free to log, and its bit. *)
Lemma load_alloc sb b P c j x : priced sb P c → b < nblk sb → load ({[b]} ∪ P) (j_alloc sb b j) x ≤ load P j x + 1 + c.
Proof.
  intros Hp Hb. pose proof (load_add b P j x). pose proof (load_bm sb b ({[b]} ∪ P) c j x (priced_add _ _ _ _ Hp) Hb).
  enough (load ({[b]} ∪ P) (j_alloc sb b j) x ≤ load ({[bmblk sb b]} ∪ ({[b]} ∪ P)) j x) by lia. apply load_sub. simpl. set_solver.
Qed.

(** How mapping blocks changes a file and the disk: at most [k] more blocks
    are logged and [f] allocated, what was mapped stays mapped, and no block
    in use changes except the file's indirect block. *)
Record grown (sb : superblock) (k f : nat) (j j' : jstate) (x x' : inode) : Prop := {
  gr_geo : fs_geo sb j';
  gr_file : file_ok sb j' x';
  gr_same : x' = set_addrs (i_addrs x') x;
  gr_faddr bn : bn < MAXFn → faddr (j_view j) x bn ≠ 0%Z →
    faddr (j_view j') x' bn = faddr (j_view j) x bn;
  gr_new bn : bn < MAXFn → faddr (j_view j') x' bn = faddr (j_view j) x bn ∨
    (isfree (j_view j) sb (Z.to_nat (faddr (j_view j') x' bn)) = true ∧
     Z.to_nat (faddr (j_view j') x' bn) < nblk sb);
  gr_ind : ind_addr x' = ind_addr x ∨
    (isfree (j_view j) sb (Z.to_nat (ind_addr x')) = true ∧ Z.to_nat (ind_addr x') < nblk sb ∧
     (0 ≤ ind_addr x')%Z);
  gr_keep b : b < nblk sb → isfree (j_view j) sb b = false → ¬ is_meta sb (j_start j) (j_size j) b →
    Z.of_nat b ≠ ind_addr x → j_view j' !! b = j_view j !! b;
  gr_used b : b < nblk sb → isfree (j_view j) sb b = false → isfree (j_view j') sb b = false;
  gr_held : j_held j' = j_held j;
  gr_area : j_start j' = j_start j ∧ j_size j' = j_size j;
  gr_log P c : priced sb P c → load P j' x' ≤ load P j x + k + f * c;
  gr_nfree : nfree (j_view j) sb ≤ nfree (j_view j') sb + f
}.

Lemma grown_refl sb j x : fs_geo sb j → file_ok sb j x → grown sb 0 0 j j x x.
Proof. intros. constructor; auto; [by destruct x|intros; lia|lia]. Qed.

Lemma grown_trans sb k1 f1 k2 f2 j j1 j2 x x1 x2 :
  grown sb k1 f1 j j1 x x1 → grown sb k2 f2 j1 j2 x1 x2 → grown sb (k1 + k2) (f1 + f2) j j2 x x2.
Proof.
  intros G1 G2. destruct (gr_area _ _ _ _ _ _ _ G1) as [Hs1 Hz1], (gr_area _ _ _ _ _ _ _ G2) as [Hs2 Hz2].
  constructor.
  - apply G2.
  - apply G2.
  - rewrite (gr_same _ _ _ _ _ _ _ G2) at 1. rewrite (gr_same _ _ _ _ _ _ _ G1) at 1. done.
  - intros bn Hbn Ha. rewrite (gr_faddr _ _ _ _ _ _ _ G2), (gr_faddr _ _ _ _ _ _ _ G1); try done.
    by rewrite (gr_faddr _ _ _ _ _ _ _ G1).
  - intros bn Hbn. destruct (gr_new _ _ _ _ _ _ _ G2 bn Hbn) as [-> | (Hf & Hlt)]; [by apply G1|].
    right. split; [|done].
    destruct (isfree (j_view j) sb (Z.to_nat (faddr (j_view j2) x2 bn))) eqn:Hu; [done|].
    rewrite (gr_used _ _ _ _ _ _ _ G1) in Hf; done.
  - destruct (gr_ind _ _ _ _ _ _ _ G2) as [-> | (Hf & Hlt & Hp)]; [apply G1|]. right. split_and!; [|done|done].
    destruct (isfree (j_view j) sb (Z.to_nat (ind_addr x2))) eqn:Hu; [done|].
    rewrite (gr_used _ _ _ _ _ _ _ G1) in Hf; done.
  - intros b Hb Hu Hm Hi. rewrite (gr_keep _ _ _ _ _ _ _ G2), (gr_keep _ _ _ _ _ _ _ G1); try done.
    + by apply (gr_used _ _ _ _ _ _ _ G1).
    + by rewrite Hs1, Hz1.
    + destruct (gr_ind _ _ _ _ _ _ _ G1) as [-> | (Hf & _)]; [done|].
      intros He. rewrite <-He, Nat2Z.id in Hf. congruence.
  - intros b Hb Hu. by apply (gr_used _ _ _ _ _ _ _ G2), (gr_used _ _ _ _ _ _ _ G1).
  - rewrite (gr_held _ _ _ _ _ _ _ G2). apply G1.
  - by rewrite Hs2, Hz2.
  - intros P c Hp. pose proof (gr_log _ _ _ _ _ _ _ G1 P c Hp). pose proof (gr_log _ _ _ _ _ _ _ G2 P c Hp). lia.
  - pose proof (gr_nfree _ _ _ _ _ _ _ G1). pose proof (gr_nfree _ _ _ _ _ _ _ G2). lia.
Qed.

Lemma grown_weaken sb k f k' f' j j' x x' :
  grown sb k f j j' x x' → k ≤ k' → f ≤ f' → grown sb k' f' j j' x x'.
Proof. intros [] ? ?. constructor; auto; [|lia]. intros P c Hp. specialize (gr_log0 P c Hp). nia. Qed.

Lemma size_j_alloc sb b j : size (j_log (j_alloc sb b j)) ≤ size (j_log j) + 2.
Proof.
  unfold j_alloc. pose proof (size_j_put b zero_block (j_put (bmblk sb b)
    (set_bit (b `mod` BPBn) (j_view j !!! bmblk sb b)) j)).
  pose proof (size_j_put (bmblk sb b) (set_bit (b `mod` BPBn) (j_view j !!! bmblk sb b)) j). lia.
Qed.

(** An allocation alone. *)
Lemma grown_alloc t sb j x b :
  jrep t j → fs_geo sb j → file_ok sb j x → b < nblk sb → isfree (j_view j) sb b = true →
  grown sb 1 1 j (j_alloc sb b j) x x.
Proof.
  intros Hr Hg Hf Hb Hfr. destruct (file_ok_alloc _ _ _ _ _ Hr Hg Hf Hb Hfr) as [Hf' Hfa].
  constructor; [by eapply fs_geo_alloc|done|by destruct x|auto|auto|by left| | |done|done| |].
  - intros b' Hb' Hu Hm _. apply view_alloc; [congruence|]. intros ->. by apply Hm, bmblk_facts.
  - intros b' Hb' Hu. rewrite (isfree_alloc t) by done. by case_decide.
  - intros P c Hp. pose proof (load_alloc sb b P c j x Hp Hb). pose proof (load_sub P ({[b]} ∪ P) (j_alloc sb b j) (j_alloc sb b j) x ltac:(set_solver)). lia.
  - rewrite Nat.add_1_r. apply (nfree_less _ _ _ b). intros b' Hb' Hu.
    rewrite (isfree_alloc t) by done. case_decide; [by left|by right].
Qed.

Lemma grown_attach sb k k' f j j' x x' :
  grown sb k f j j' x x → file_ok sb j' x' → x' = set_addrs (i_addrs x') x →
  (∀ bn, bn < MAXFn → faddr (j_view j) x bn ≠ 0%Z → faddr (j_view j') x' bn = faddr (j_view j) x bn) →
  (∀ bn, bn < MAXFn → faddr (j_view j') x' bn = faddr (j_view j) x bn ∨
    (isfree (j_view j) sb (Z.to_nat (faddr (j_view j') x' bn)) = true ∧
     Z.to_nat (faddr (j_view j') x' bn) < nblk sb)) →
  (ind_addr x' = ind_addr x ∨ isfree (j_view j) sb (Z.to_nat (ind_addr x')) = true ∧
    Z.to_nat (ind_addr x') < nblk sb ∧ (0 ≤ ind_addr x')%Z) →
  (∀ P c, priced sb P c → load P j' x' ≤ load P j x + k' + f * c) →
  grown sb k' f j j' x x'.
Proof. intros [] ? ? ? ? ? ?. by constructor. Qed.

Lemma NADDRS_eq : NADDRS = S NDn.
Proof. reflexivity. Qed.

Lemma addrs_insert x k b : length (i_addrs x) = NADDRS ∧ Forall is_u32 (i_addrs x) → is_u32 b →
  length (i_addrs (set_iaddr k b x)) = NADDRS ∧ Forall is_u32 (i_addrs (set_iaddr k b x)).
Proof. intros [Hl Hf] Hb. simpl. rewrite length_insert. split; [done|]. by apply Forall_insert. Qed.

Lemma faddr_direct v x k b bn : length (i_addrs x) = NADDRS → k < NDn →
  faddr v (set_iaddr k b x) bn = if decide (bn = k) then b else faddr v x bn.
Proof.
  intros Hl Hk. pose proof NADDRS_eq. unfold faddr, ind_addr. simpl.
  rewrite !(list_lookup_total_insert_ne _ k NDn) by lia.
  destruct (decide (bn = k)) as [->|].
  - rewrite decide_True by done. apply list_lookup_total_insert_eq. lia.
  - by rewrite list_lookup_total_insert_ne.
Qed.

(** Filling a direct entry with a freshly allocated block. *)
Lemma grown_direct t sb j x bn b :
  jrep t j → fs_geo sb j → file_ok sb j x → bn < NDn → i_addrs x !!! bn = 0%Z →
  b < nblk sb → isfree (j_view j) sb b = true →
  let x' := set_iaddr bn (Z.of_nat b) x in
  grown sb 1 1 j (j_alloc sb b j) x x' ∧ ind_addr x' = ind_addr x ∧ faddr (j_view (j_alloc sb b j)) x' bn = Z.of_nat b ∧ b ≠ 0.
Proof.
  intros Hr Hg Hf Hbn Hz Hb Hfr x'. pose proof (grown_alloc _ _ _ _ _ Hr Hg Hf Hb Hfr) as G.
  destruct (free_home _ _ _ Hg Hb Hfr) as [_ Hnm].
  assert (Hb0 : b ≠ 0) by (intros ->; apply Hnm; left; lia).
  destruct (file_ok_alloc _ _ _ _ _ Hr Hg Hf Hb Hfr) as [[Hdev Had Hsz Hm] Hfa].
  destruct (map_fresh _ _ _ _ _ _ (f_map _ _ _ Hf) Hfr Hb0) as [Hni Hnf].
  assert (Hfa' : ∀ k, faddr (j_view (j_alloc sb b j)) x' k =
    if decide (k = bn) then Z.of_nat b else faddr (j_view (j_alloc sb b j)) x k).
  { intros k. apply faddr_direct; [apply Had|done]. }
  assert (Hind : ind_addr x' = ind_addr x).
  { unfold ind_addr. simpl. rewrite list_lookup_total_insert_ne; [done|lia]. }
  pose proof (jrep_wf _ _ Hr) as (_ & _ & H32). pose proof (fg_size _ _ Hg).
  split_and!; [|done|by rewrite Hfa', decide_True|done].
  apply (grown_attach _ 1); [done| |done| | |by left|].
  - constructor; [done|apply addrs_insert; [done|plia]|done|]. rewrite Hind.
    eapply map_ok_ext; [eapply (map_ok_add _ _ _ _ _ bn (Z.of_nat b)); [exact Hm| |lia|done|]|auto|auto].
    + eapply data_block_alloc; eauto.
    + intros k Hk. rewrite Hfa. by apply Hnf.
  - intros k Hk Hka. rewrite Hfa', Hfa. rewrite decide_False; [done|].
    intros ->. apply Hka. unfold faddr. by rewrite decide_True.
  - intros k Hk. rewrite Hfa', Hfa. case_decide; [right; by rewrite Nat2Z.id|by left].
  - intros P c Hp. rewrite (load_same _ _ _ _ Hind). by apply (gr_log _ _ _ _ _ _ _ G).
Qed.

Lemma get32_zero off : get32 off zero_block = 0%Z.
Proof.
  unfold get32, bytes_at, zero_block. rewrite drop_replicate, take_replicate.
  induction (Nat.min 4 _) as [|n IH]; [done|]. cbn [replicate le_dec]. rewrite IH. done.
Qed.

(** Allocating the indirect block: it maps nothing yet. *)
Lemma grown_indirect t sb j x b :
  jrep t j → fs_geo sb j → file_ok sb j x → ind_addr x = 0%Z →
  b < nblk sb → isfree (j_view j) sb b = true →
  let x' := set_iaddr NDn (Z.of_nat b) x in
  grown sb 0 1 j (j_alloc sb b j) x x' ∧ ind_addr x' = Z.of_nat b ∧ b ≠ 0 ∧
  (∀ bn, faddr (j_view (j_alloc sb b j)) x' bn = faddr (j_view j) x bn).
Proof.
  intros Hr Hg Hf Hz Hb Hfr x'. pose proof (grown_alloc _ _ _ _ _ Hr Hg Hf Hb Hfr) as G.
  destruct (free_home _ _ _ Hg Hb Hfr) as [_ Hnm].
  assert (Hb0 : b ≠ 0) by (intros ->; apply Hnm; left; lia).
  destruct (file_ok_alloc _ _ _ _ _ Hr Hg Hf Hb Hfr) as [[Hdev Had Hsz Hm] Hfa].
  destruct (map_fresh _ _ _ _ _ _ (f_map _ _ _ Hf) Hfr Hb0) as [_ Hnf].
  pose proof NADDRS_eq as HNA.
  assert (Hind : ind_addr x' = Z.of_nat b).
  { unfold ind_addr. simpl. apply list_lookup_total_insert_eq. lia. }
  assert (Hfa' : ∀ k, faddr (j_view (j_alloc sb b j)) x' k = faddr (j_view j) x k).
  { intros k. unfold faddr. rewrite Hind, Hz. case_decide as Hk.
    - simpl. by rewrite list_lookup_total_insert_ne by lia.
    - rewrite decide_False by lia. rewrite decide_True by done. rewrite Nat2Z.id.
      rewrite (list_lookup_total_correct _ _ _ (view_alloc_eq _ _ _ _ Hr Hg Hb)). apply get32_zero. }
  pose proof (jrep_wf _ _ Hr) as (_ & _ & H32). pose proof (fg_size _ _ Hg).
  split_and!; [|done|done|done]. apply (grown_attach _ 1); [done| |done|auto|auto| |].
  - constructor; [done|apply addrs_insert; [done|plia]|done|]. rewrite Hind.
    eapply map_ok_ext; [eapply (map_ok_ind _ _ _ _ (Z.of_nat b)); [by rewrite <-Hz| |]| |auto].
    + eapply data_block_alloc; eauto.
    + intros k Hk. rewrite Hfa. by apply Hnf.
    + intros k Hk. by rewrite Hfa', Hfa.
  - right. rewrite Hind, Nat2Z.id. split_and!; [done|done|lia].
  - intros P c Hp. pose proof (load_alloc sb b P c j x Hp Hb). pose proof (load_attach b P (j_alloc sb b j) x x' Hz Hind Hb0). lia.
Qed.

(** Overwriting a data block. *)
Lemma isfree_put_data sb j a d b :
  fs_geo sb j → data_block sb j a → b < nblk sb →
  isfree (j_view (j_put (Z.to_nat a) d j)) sb b = isfree (j_view j) sb b.
Proof.
  intros Hg (_ & _ & _ & Hnm) Hb. apply isfree_put. intros He. apply Hnm. rewrite <-He.
  by apply bmblk_facts.
Qed.

Lemma fs_geo_put_data sb j a d :
  fs_geo sb j → data_block sb j a → fs_geo sb (j_put (Z.to_nat a) d j).
Proof.
  intros Hg Ha. eapply fs_geo_ext; [exact Hg|done|done| | |].
  - simpl. by rewrite length_insert.
  - simpl. rewrite list_lookup_insert_ne; [done|]. intros He. destruct Ha as (_ & _ & _ & Hnm).
    apply Hnm. left. lia.
  - intros b Hb Hm. rewrite isfree_put_data by done. by apply (fg_used _ _ Hg).
Qed.

Lemma data_block_put sb j a d a' :
  fs_geo sb j → data_block sb j a → data_block sb j a' → data_block sb (j_put (Z.to_nat a) d j) a'.
Proof.
  intros Hg Ha (H1 & H2 & H3 & H4). unfold data_block. rewrite isfree_put_data by done. done.
Qed.


Lemma faddr_entry sb j x bn b d :
  fs_geo sb j → file_ok sb j x → ind_addr x ≠ 0%Z → NDn ≤ bn < MAXFn → is_u32 b →
  j_view j !! Z.to_nat (ind_addr x) = Some d → blk_ok d →
  ∀ k, k < MAXFn →
    faddr (j_view (j_put (Z.to_nat (ind_addr x)) (put32 (4 * (bn - NDn)) b d) j)) x k =
    if decide (k = bn) then b else faddr (j_view j) x k.
Proof.
  intros Hg Hf Hi Hbn Hb Hd [Hdl _] k Hk. pose proof NDn_Z. pose proof MAXFn_Z.
  assert (Hoff : ∀ k, NDn ≤ k < MAXFn → 4 * (k - NDn) + 4 ≤ length d).
  { intros k' [Hk1 Hk2]. rewrite Hdl. change MAXFILE with 140%Z in *. plia. }
  unfold faddr. destruct (decide (k < NDn)); [by rewrite decide_False by lia|].
  rewrite !(decide_False (P := ind_addr x = 0%Z)) by done. cbn [j_put j_logged j_store j_view].
  rewrite list_lookup_total_insert_eq by (by apply lookup_lt_Some in Hd).
  rewrite (list_lookup_total_correct _ _ _ Hd). case_decide as Hkb.
  - subst. pose proof (Hoff bn ltac:(lia)). apply get32_put32_eq; [lia|done].
  - apply get32_put32_ne; [apply Hoff; lia|lia].
Qed.

(** Filling an entry of the indirect block with a freshly allocated block. *)
Lemma grown_entry t sb j x bn b d :
  jrep t j → fs_geo sb j → file_ok sb j x → ind_addr x ≠ 0%Z → NDn ≤ bn < MAXFn →
  faddr (j_view j) x bn = 0%Z → b < nblk sb → isfree (j_view j) sb b = true →
  j_view j !! Z.to_nat (ind_addr x) = Some d →
  let j' := j_put (Z.to_nat (ind_addr x)) (put32 (4 * (bn - NDn)) (Z.of_nat b) d) (j_alloc sb b j) in
  grown sb 1 1 j j' x x ∧ (∀ P c, priced sb P c → load ({[b]} ∪ P) j' x ≤ load P j x + 1 + c) ∧
  faddr (j_view j') x bn = Z.of_nat b ∧ b ≠ 0.
Proof.
  intros Hr Hg Hf Hi Hbn Hz Hb Hfr Hd j'. pose proof (grown_alloc _ _ _ _ _ Hr Hg Hf Hb Hfr) as G.
  destruct (free_home _ _ _ Hg Hb Hfr) as [_ Hnm].
  assert (Hb0 : b ≠ 0) by (intros ->; apply Hnm; left; lia).
  destruct (file_ok_alloc _ _ _ _ _ Hr Hg Hf Hb Hfr) as [Hf1 Hfa].
  pose proof Hf1 as [Hdev Had Hsz Hm].
  destruct (map_fresh _ _ _ _ _ _ (f_map _ _ _ Hf) Hfr Hb0) as [Hni Hnf].
  pose proof (m_ind _ _ _ _ _ (f_map _ _ _ Hf) Hi) as Hid. pose proof (m_ind _ _ _ _ _ Hm Hi) as Hid1.
  pose proof (gr_geo _ _ _ _ _ _ _ G) as Hg1.
  assert (Hdok : blk_ok d) by (pose proof (jrep_wf _ _ Hr) as (_ & Hv & _); by eapply Forall_lookup_1).
  assert (Hd1 : j_view (j_alloc sb b j) !! Z.to_nat (ind_addr x) = Some d).
  { rewrite <-Hd. by apply data_block_view. }
  pose proof (jrep_wf _ _ Hr) as (_ & _ & H32). pose proof (fg_size _ _ Hg).
  assert (Hbu : is_u32 (Z.of_nat b)) by plia.
  pose proof (faddr_entry _ _ _ bn (Z.of_nat b) d Hg1 Hf1 Hi Hbn Hbu Hd1 Hdok) as Hfa'. fold j' in Hfa'.
  pose proof (fs_geo_put_data sb _ _ (put32 (4 * (bn - NDn)) (Z.of_nat b) d) Hg1 Hid1) as Hg'.
  fold j' in Hg'.
  assert (Hload : ∀ P c, priced sb P c → load ({[b]} ∪ P) j' x ≤ load P j x + 1 + c).
  { intros P c Hp. pose proof (load_put (Z.to_nat (ind_addr x)) (put32 (4 * (bn - NDn)) (Z.of_nat b) d) ({[b]} ∪ P) (j_alloc sb b j) x) as Hput.
    rewrite load_ind in Hput by done. pose proof (load_alloc sb b P c j x Hp Hb). unfold j'. lia. }
  split_and!; [|done|rewrite Hfa' by lia; by rewrite decide_True|done]. constructor.
  - done.
  - constructor; [done|done|done|].
    eapply map_ok_ext; [eapply (map_ok_add _ _ _ _ _ bn (Z.of_nat b)); [exact Hm| |lia|done|]|done|].
    + eapply data_block_alloc; eauto.
    + intros k Hk. rewrite Hfa. by apply Hnf.
    + intros a Ha. by apply data_block_put.
  - by destruct x.
  - intros k Hk Hka. rewrite Hfa', Hfa by done. rewrite decide_False; [done|]. by intros ->.
  - intros k Hk. rewrite Hfa', Hfa by done. case_decide; [right; by rewrite Nat2Z.id|by left].
  - by left.
  - intros b' Hb' Hu Hm' Hne. pose proof (proj1 Hid). unfold j'. simpl.
    rewrite list_lookup_insert_ne by lia. by apply (gr_keep _ _ _ _ _ _ _ G).
  - intros b' Hb' Hu. unfold j'. rewrite isfree_put_data by done. by apply (gr_used _ _ _ _ _ _ _ G).
  - done.
  - done.
  - intros P c Hp. specialize (Hload P c Hp). pose proof (load_sub P ({[b]} ∪ P) j' j' x ltac:(set_solver)). lia.
  - rewrite Nat.add_1_r. apply (nfree_less _ _ _ b). intros b' Hb' Hu. unfold j'.
    rewrite isfree_put_data, (isfree_alloc t) by done. case_decide; [by left|by right].
Qed.

Lemma fs_geo_acquire sb j h b : fs_geo sb j → fs_geo sb (j_acquire h b j).
Proof. intros Hg. eapply fs_geo_ext; [exact Hg|done..|]. apply (fg_used _ _ Hg). Qed.

Lemma alloc_release sb b h i d j :
  j_held j !! h = None →
  j_release h (j_logged i (j_store i d (j_alloc sb b (j_acquire h i j)))) = j_put i d (j_alloc sb b j).
Proof.
  intros Hn. destruct j. unfold j_release, j_put, j_alloc, j_logged, j_store, j_acquire. simpl in *.
  f_equal. by rewrite delete_insert_eq, delete_id.
Qed.

Lemma held_ok_empty sb j : j_held j = ∅ → held_ok sb j.
Proof. intros Hh h b. by rewrite Hh, lookup_empty. Qed.

Lemma j_cap_le j : j_cap j ≤ NBUF.
Proof. unfold j_cap. change (Z.to_nat LOGSIZE) with NBUF. lia. Qed.

(** The disk is full. *)
Definition oom : string := "balloc: out of blocks".

Lemma balloc_wpe t j sb ic Q (E : string → Prop) :
  jrep t j → fs_geo sb j → held_ok sb j → size (j_log j) + size (j_held j) + 1 < NBUF → size (j_log j) + 1 < j_cap j →
  (∀ b t', b < nblk sb → isfree (j_view j) sb b = true → jrep t' (j_alloc sb b j) → Q (Z.of_nat b) (FState t' sb ic)) →
  (nfree (j_view j) sb = 0 → E oom) → wpe (balloc ROOTDEV) Q E (FState t sb ic).
Proof.
  intros Hr Hg Hh Hroom Hcap HQ HE. destruct (decide (nfree (j_view j) sb = 0)) as [Hz|Hnz].
  - unfold wpe. rewrite (balloc_full t j) by (try done; by apply nfree_none). by apply HE.
  - apply wp_wpe. eapply balloc_spec; [done..|apply nfree_exists; lia|]. intros b t' Hb Hf _. by apply HQ.
Qed.

(** What [bmap] leaves to log for the block it returns. *)
Definition loads (sb : superblock) (f : nat) (a : Z) (j j' : jstate) (x x' : inode) : Prop :=
  ∀ P c, priced sb P c → load ({[Z.to_nat a]} ∪ P) j' x' ≤ load P j x + 1 + f * c.

Lemma loads_refl sb f a j x : loads sb f a j j x x.
Proof. intros P c _. pose proof (load_add (Z.to_nat a) P j x). lia. Qed.

(** The part of [bmap] below the indirect block: map entry [bn]. *)
Lemma bmap_entry t j sb ic ip x bn P c Q (E : string → Prop) :
  jrep t j → fs_geo sb j → file_ok sb j x → ic !! ip = Some x → j_held j = ∅ →
  ind_addr x ≠ 0%Z → NDn ≤ bn < MAXFn → priced sb P c → load P j x + c + 3 ≤ j_cap j →
  (∀ t' j', jrep t' j' → grown sb 1 1 j j' x x → faddr (j_view j') x bn ≠ 0%Z → loads sb 1 (faddr (j_view j') x bn) j j' x x →
    Q (faddr (j_view j') x bn) (FState t' sb ic)) →
  (nfree (j_view j) sb = 0 → E oom) →
  wpe (bp ← disk (jread (i_dev x) (ind_addr x));
      d ← disk (jdata bp);
      addr ← (if decide (get32 (4 * (bn - NDn)) d = 0%Z) then
                addr ← balloc (i_dev x);
                d ← disk (jdata bp);
                disk (jstore bp (put32 (4 * (bn - NDn)) addr d));;
                disk (jlog bp);;
                mret addr
              else mret (get32 (4 * (bn - NDn)) d));
      disk (jrelse bp);;
      mret addr) Q E (FState t sb ic).
Proof.
  intros Hr Hg Hf Hip Hh Hi Hbn Hpr Hcap HQ HE. pose proof (j_cap_le j) as Hcl. pose proof (load_log P j x) as Hll.
  pose proof (m_ind _ _ _ _ _ (f_map _ _ _ Hf) Hi) as Hid. pose proof (data_lt _ _ _ Hg Hid) as Hil.
  pose proof Hid as (Hi0 & Hinb & Hiu & Him). pose proof (f_dev _ _ _ Hf) as Hdev.
  destruct (jview_some _ _ _ Hr Hil) as (d & Hd & Hdok).
  assert (Hfa : faddr (j_view j) x bn = get32 (4 * (bn - NDn)) d).
  { unfold faddr. rewrite decide_False by lia. rewrite decide_False by done.
    by rewrite (list_lookup_total_correct _ _ _ Hd). }
  assert (Hhl : size (j_held j) = 0) by (by rewrite Hh, map_size_empty).
  apply wpe_bind_wp. eapply (disk_jread _ _ _ _ _ _ (Z.to_nat (ind_addr x))); [exact Hr|done|by rewrite Z2Nat.id|done|
    by apply held_none|right; lia|].
  intros h t1 Hn Hr1. apply wpe_bind_wp.
  eapply disk_jdata; [exact Hr1|apply lookup_insert_eq|exact Hd|]. rewrite <-Hfa. apply wpe_bind.
  destruct (decide (faddr (j_view j) x bn = 0%Z)) as [Hz|Hnz].
  2:{ apply wp_wpe, wp_ret, wpe_bind_wp. eapply disk_release_read; [exact Hr1|done|by eapply jrep_clean, held_none|].
      intros t2 Hr2. apply wp_wpe, wp_ret. apply HQ; [done| |done|apply loads_refl].
      eapply grown_weaken; [by apply grown_refl|lia|lia]. }
  apply wpe_bind. rewrite Hdev.
  assert (Hsz1 : size (j_held (j_acquire h (Z.to_nat (ind_addr x)) j)) = 1).
  { simpl. by rewrite map_size_insert_None, Hhl by done. }
  eapply (balloc_wpe _ (j_acquire h (Z.to_nat (ind_addr x)) j)); [exact Hr1|by apply fs_geo_acquire| |rewrite Hsz1; simpl; lia|
    change (size (j_log j) + 1 < j_cap j); lia| |exact HE].
  { intros h' b'. simpl. rewrite Hh, insert_empty, lookup_singleton_Some. by intros [_ <-]. }
  intros b t2 Hb Hfr Hr2. change (isfree (j_view j) sb b = true) in Hfr. apply wp_wpe.
  destruct (grown_entry _ _ _ _ bn b d Hr Hg Hf Hi Hbn Hz Hb Hfr Hd) as (G & HL & Hfb & Hb0).
  apply wp_bind. eapply disk_jdata; [exact Hr2|apply lookup_insert_eq| |].
  { rewrite <-Hd. by apply (data_block_view sb j). }
  apply wp_bind. eapply disk_jstore; [exact Hr2|apply lookup_insert_eq| |].
  { apply put32_ok; [done|]. pose proof NDn_Z. pose proof MAXFn_Z. change MAXFILE with 140%Z in *. plia. }
  intros t3 Hr3. apply wp_bind. eapply disk_jlog; [exact Hr3|apply lookup_insert_eq| | | |].
  { simpl. by rewrite !length_insert. }
  { by apply (data_home sb j). }
  { pose proof (size_j_alloc sb b (j_acquire h (Z.to_nat (ind_addr x)) j)) as Hs.
    change (j_log (j_acquire h (Z.to_nat (ind_addr x)) j)) with (j_log j) in Hs.
    change (size (j_log (j_alloc sb b (j_acquire h (Z.to_nat (ind_addr x)) j))) < j_cap j). lia. }
  intros t4 Hr4. apply wp_ret, wpe_bind_wp.
  eapply disk_jrelse; [exact Hr4|apply lookup_insert_eq|left; simpl; set_solver|].
  intros t5 Hr5. rewrite alloc_release in Hr5 by done. apply wp_wpe, wp_ret. rewrite <-Hfb.
  eapply HQ; [exact Hr5|exact G|rewrite Hfb; lia|]. rewrite Hfb. intros P' c' Hp'. rewrite Nat2Z.id, Nat.mul_1_l. by apply HL.
Qed.

Lemma bmap_direct t j sb ic ip x bn P c Q (E : string → Prop) :
  jrep t j → fs_geo sb j → file_ok sb j x → ic !! ip = Some x → j_held j = ∅ →
  bn < NDn → priced sb P c → load P j x + c + 3 ≤ j_cap j →
  (∀ t' j' x', jrep t' j' → grown sb 1 1 j j' x x' → faddr (j_view j') x' bn ≠ 0%Z → loads sb 1 (faddr (j_view j') x' bn) j j' x x' →
    Q (faddr (j_view j') x' bn) (FState t' sb (<[ip := x']> ic))) →
  (nfree (j_view j) sb = 0 → E oom) →
  wpe (bmap ip (Z.of_nat bn)) Q E (FState t sb ic).
Proof.
  intros Hr Hg Hf Hip Hh Hbn Hpr Hcap HQ HE. pose proof NDn_Z as HN. pose proof (j_cap_le j) as Hcl. pose proof (load_log P j x) as Hll.
  unfold bmap. eapply wpe_bind_wp, wp_done; [by apply geti_done|].
  rewrite decide_True by lia. cbv zeta. rewrite Nat2Z.id.
  assert (Hfa : ∀ v, faddr v x bn = i_addrs x !!! bn) by (intros v; unfold faddr; by rewrite decide_True).
  destruct (decide (i_addrs x !!! bn = 0%Z)) as [Hz|Hnz].
  - apply wpe_bind. rewrite (f_dev _ _ _ Hf).
    eapply balloc_wpe; [exact Hr|done|by apply held_ok_empty|rewrite Hh, map_size_empty; lia|lia| |exact HE].
    intros b t1 Hb Hfr Hr1. apply wp_wpe.
    destruct (grown_direct _ _ _ _ bn b Hr Hg Hf Hbn Hz Hb Hfr) as (G & Hind & Hfb & Hb0).
    eapply wp_bind, wp_done; [by apply updi_done|]. apply wp_ret.
    specialize (HQ _ _ _ Hr1 G). rewrite Hfb in HQ. apply HQ; [lia|]. intros P' c' Hp'.
    rewrite Nat2Z.id, (load_same _ _ _ _ Hind), Nat.mul_1_l. by apply load_alloc.
  - apply wp_wpe, wp_ret. rewrite <-(list_insert_id _ _ _ Hip), <-(Hfa (j_view j)).
    apply HQ; [done|eapply grown_weaken; [by apply grown_refl|lia|lia]|by rewrite Hfa|apply loads_refl].
Qed.

(** [bmap] in general: it allocates at most two blocks, or the disk is full. *)
Lemma bmap_spec t j sb ic ip x bn P c Q (E : string → Prop) :
  jrep t j → fs_geo sb j → file_ok sb j x → ic !! ip = Some x → j_held j = ∅ →
  bn < MAXFn → priced sb P c → load P j x + 2 * c + 3 ≤ j_cap j →
  (∀ t' j' x', jrep t' j' → grown sb 1 2 j j' x x' → faddr (j_view j') x' bn ≠ 0%Z → loads sb 2 (faddr (j_view j') x' bn) j j' x x' →
    Q (faddr (j_view j') x' bn) (FState t' sb (<[ip := x']> ic))) →
  (nfree (j_view j) sb < 2 → E oom) →
  wpe (bmap ip (Z.of_nat bn)) Q E (FState t sb ic).
Proof.
  intros Hr Hg Hf Hip Hh Hbn Hpr Hcap HQ HE. pose proof NDn_Z as HN. pose proof MAXFn_Z as HM.
  pose proof (j_cap_le j) as Hcl. pose proof (load_log P j x) as Hll.
  assert (Hweak : ∀ a j' x', loads sb 1 a j j' x x' → loads sb 2 a j j' x x') by (intros a j' x' HL P' c' Hp'; specialize (HL P' c' Hp'); lia).
  destruct (decide (bn < NDn)) as [Hlt|Hge].
  { eapply bmap_direct; [exact Hr|done|done|done|done|done|exact Hpr|lia| |intros; apply HE; lia].
    intros t' j' x' Hr' G Ha HL. eapply HQ; [done|eapply grown_weaken; [exact G|lia|lia]|done|auto]. }
  unfold bmap. eapply wpe_bind_wp, wp_done; [by apply geti_done|].
  rewrite decide_False by lia. cbv zeta. rewrite decide_True by plia.
  change (Z.to_nat NDIRECT) with NDn. fold (ind_addr x).
  assert (Z.to_nat (Z.of_nat bn - NDIRECT) = bn - NDn) as -> by lia. apply wpe_bind.
  destruct (decide (ind_addr x = 0%Z)) as [Hz|Hnz].
  - apply wpe_bind. rewrite (f_dev _ _ _ Hf).
    eapply balloc_wpe; [exact Hr|done|by apply held_ok_empty|rewrite Hh, map_size_empty; lia|lia| |intros; apply HE; lia].
    intros b t1 Hb Hfr Hr1.
    destruct (grown_indirect _ _ _ _ b Hr Hg Hf Hz Hb Hfr) as (G & Hib & Hb0 & _).
    eapply wpe_bind_wp, wp_done; [by apply updi_done|]. apply wp_wpe, wp_ret.
    pose proof (gr_nfree _ _ _ _ _ _ _ G). pose proof (gr_log _ _ _ _ _ _ _ G P c Hpr).
    set (x1 := set_iaddr NDn (Z.of_nat b) x) in *.
    assert (Hip1 : <[ip := x1]> ic !! ip = Some x1).
    { apply list_lookup_insert_eq. by apply lookup_lt_Some in Hip. }
    pose proof (bmap_entry t1 (j_alloc sb b j) sb _ ip x1 bn P c Q E Hr1 (gr_geo _ _ _ _ _ _ _ G)
      (gr_file _ _ _ _ _ _ _ G) Hip1 Hh) as HEn.
    rewrite Hib in HEn. change (i_dev x1) with (i_dev x) in HEn. rewrite (f_dev _ _ _ Hf) in HEn.
    apply HEn; [lia|lia|exact Hpr|change (j_cap (j_alloc sb b j)) with (j_cap j); lia| |intros; apply HE; lia].
    intros t' j' Hr' G' Ha HL.
    eapply HQ; [exact Hr'|exact (grown_trans _ _ _ _ _ _ _ _ _ _ _ G G')|done|].
    intros P' c' Hp'. specialize (HL P' c' Hp'). pose proof (gr_log _ _ _ _ _ _ _ G P' c' Hp'). lia.
  - apply wp_wpe, wp_ret. eapply bmap_entry; [exact Hr|done|done|done|done|done|lia|exact Hpr|lia| |intros; apply HE; lia].
    intros t' j' Hr' G' Ha HL. rewrite <-(list_insert_id _ _ _ Hip).
    eapply HQ; [exact Hr'|eapply grown_weaken; [exact G'|lia|lia]|done|auto].
Qed.

(** ** writei *)

(** A write: the file grew, the bytes of [F] were overwritten, and no block in
    use outside the file changed. *)
Record wrote (sb : superblock) (k f : nat) (F : nat → option Z) (j j' : jstate) (x x' : inode) : Prop := {
  w_geo : fs_geo sb j';
  w_file : file_ok sb j' x';
  w_same : x' = set_addrs (i_addrs x') x;
  w_new bn : bn < MAXFn → faddr (j_view j') x' bn = faddr (j_view j) x bn ∨
    (faddr (j_view j) x bn = 0%Z ∧
     isfree (j_view j) sb (Z.to_nat (faddr (j_view j') x' bn)) = true ∧
     Z.to_nat (faddr (j_view j') x' bn) < nblk sb);
  w_ind : ind_addr x' = ind_addr x ∨
    (isfree (j_view j) sb (Z.to_nat (ind_addr x')) = true ∧ Z.to_nat (ind_addr x') < nblk sb ∧
     (0 ≤ ind_addr x')%Z);
  w_keep b : b < nblk sb → isfree (j_view j) sb b = false → ¬ is_meta sb (j_start j) (j_size j) b →
    Z.of_nat b ≠ ind_addr x → (∀ bn, bn < MAXFn → faddr (j_view j) x bn ≠ Z.of_nat b) →
    j_view j' !! b = j_view j !! b;
  w_used b : b < nblk sb → isfree (j_view j) sb b = false → isfree (j_view j') sb b = false;
  w_held : j_held j' = j_held j;
  w_area : j_start j' = j_start j ∧ j_size j' = j_size j;
  w_log P c : priced sb P c → load P j' x' ≤ load P j x + k + f * c;
  w_nfree : nfree (j_view j) sb ≤ nfree (j_view j') sb + f;
  w_bytes i : i `div` BSn < MAXFn → faddr (j_view j) x (i `div` BSn) ≠ 0%Z ∨ F i ≠ None →
    faddr (j_view j') x' (i `div` BSn) ≠ 0%Z ∧
    fbyte (j_view j') x' i = default (fbyte (j_view j) x i) (F i)
}.

Lemma wrote_ext sb k f F F' j j' x x' :
  wrote sb k f F j j' x x' → (∀ i, F' i = F i) → wrote sb k f F' j j' x x'.
Proof. intros [] HF. constructor; try done. intros i. rewrite HF. auto. Qed.

Lemma grown_wrote sb k f j j' x x' :
  file_ok sb j x → grown sb k f j j' x x' → wrote sb k f (λ _, None) j j' x x'.
Proof.
  intros Hf G. pose proof (f_map _ _ _ Hf) as Hm. destruct G as [Hg' Hf' Hs Hfa Hnew Hind Hkeep Hu Hh Hz Hl Hn].
  constructor; try done.
  - intros bn Hbn. destruct (decide (faddr (j_view j) x bn = 0%Z)) as [H0'|Hne]; [|left; auto].
    destruct (Hnew bn Hbn) as [|[? ?]]; [by left|by right].
  - intros. by apply Hkeep.
  - intros i Hi [Hne|]; [|done]. rewrite Hfa by done. split; [done|]. simpl. unfold fbyte.
    rewrite Hfa by done. destruct (m_data _ _ _ _ _ Hm _ Hi Hne) as (Hp & Hlt & Hu' & Hnm).
    rewrite !list_lookup_total_alt. rewrite Hkeep; [done..|]. rewrite Z2Nat.id by done.
    destruct (decide (ind_addr x = 0%Z)) as [->|Hi0]; [done|]. by apply (m_ind_sep _ _ _ _ _ Hm).
Qed.

Lemma wrote_trans sb k1 f1 k2 f2 F1 F2 j j1 j2 x x1 x2 :
  wrote sb k1 f1 F1 j j1 x x1 → wrote sb k2 f2 F2 j1 j2 x1 x2 →
  wrote sb (k1 + k2) (f1 + f2) (λ i, F2 i ∪ F1 i) j j2 x x2.
Proof.
  intros G1 G2. destruct (w_area _ _ _ _ _ _ _ _ G1) as [Hs1 Hz1], (w_area _ _ _ _ _ _ _ _ G2) as [Hs2 Hz2].
  assert (Hfree : ∀ b, b < nblk sb → isfree (j_view j1) sb b = true → isfree (j_view j) sb b = true).
  { intros b Hb Hf. destruct (isfree (j_view j) sb b) eqn:Hu; [done|].
    rewrite (w_used _ _ _ _ _ _ _ _ G1) in Hf; done. }
  constructor.
  - apply G2.
  - apply G2.
  - rewrite (w_same _ _ _ _ _ _ _ _ G2) at 1. rewrite (w_same _ _ _ _ _ _ _ _ G1) at 1. done.
  - intros bn Hbn. destruct (w_new _ _ _ _ _ _ _ _ G2 bn Hbn) as [-> | (Hz & Hf & Hlt)]; [by apply G1|].
    right. split_and!; [|by apply Hfree|done].
    destruct (w_new _ _ _ _ _ _ _ _ G1 bn Hbn) as [<-|(? & _)]; done.
  - destruct (w_ind _ _ _ _ _ _ _ _ G2) as [-> | (Hf & Hlt & Hp)]; [apply G1|]. right. split_and!; auto.
  - intros b Hb Hu Hm Hi Hfa.
    rewrite (w_keep _ _ _ _ _ _ _ _ G2), (w_keep _ _ _ _ _ _ _ _ G1); try done.
    + by apply (w_used _ _ _ _ _ _ _ _ G1).
    + by rewrite Hs1, Hz1.
    + destruct (w_ind _ _ _ _ _ _ _ _ G1) as [-> | (Hf & _)]; [done|].
      intros He. rewrite <-He, Nat2Z.id in Hf. congruence.
    + intros bn Hbn He. destruct (w_new _ _ _ _ _ _ _ _ G1 bn Hbn) as [Heq|(_ & Hf & _)].
      * rewrite Heq in He. by apply (Hfa bn).
      * rewrite He, Nat2Z.id in Hf. congruence.
  - intros b Hb Hu. by apply (w_used _ _ _ _ _ _ _ _ G2), (w_used _ _ _ _ _ _ _ _ G1).
  - rewrite (w_held _ _ _ _ _ _ _ _ G2). apply G1.
  - by rewrite Hs2, Hz2.
  - intros P c Hp. pose proof (w_log _ _ _ _ _ _ _ _ G1 P c Hp). pose proof (w_log _ _ _ _ _ _ _ _ G2 P c Hp). lia.
  - pose proof (w_nfree _ _ _ _ _ _ _ _ G1). pose proof (w_nfree _ _ _ _ _ _ _ _ G2). lia.
  - intros i Hi Hor.
    destruct (decide (faddr (j_view j) x (i `div` BSn) ≠ 0%Z ∨ F1 i ≠ None)) as [Hd1|Hd1].
    + destruct (w_bytes _ _ _ _ _ _ _ _ G1 i Hi Hd1) as [Hne1 Hb1].
      destruct (w_bytes _ _ _ _ _ _ _ _ G2 i Hi (or_introl Hne1)) as [Hne2 Hb2].
      split; [done|]. rewrite Hb2, Hb1. by destruct (F2 i), (F1 i).
    + assert (HF1 : F1 i = None) by (destruct (F1 i); [exfalso; apply Hd1; by right|done]).
      assert (HF2 : F2 i ≠ None).
      { rewrite HF1 in Hor. destruct Hor as [|Hor]; [exfalso; apply Hd1; by left|]. by destruct (F2 i). }
      destruct (w_bytes _ _ _ _ _ _ _ _ G2 i Hi (or_intror HF2)) as [Hne2 Hb2].
      split; [done|]. rewrite Hb2, HF1. by destruct (F2 i).
Qed.

(** The bytes [bs] at offset [off]. *)
Definition overlay (off : nat) (bs : list Z) (i : nat) : option Z :=
  if decide (off ≤ i) then bs !! (i - off) else None.

Lemma overlay_app off a b i : overlay (off + length a) b i ∪ overlay off a i = overlay off (a ++ b) i.
Proof.
  unfold overlay. destruct (decide (off ≤ i)) as [Hle|]; [|rewrite decide_False by lia; done].
  destruct (decide (off + length a ≤ i)).
  - rewrite (lookup_ge_None_2 a) by lia. rewrite lookup_app_r by lia.
    replace (i - (off + length a)) with (i - off - length a) by lia.
    by rewrite (right_id_L None (∪)).
  - rewrite lookup_app_l by lia. by rewrite (left_id_L None (∪)).
Qed.

Lemma same_block off i m : off `mod` BSn + m ≤ BSn → off ≤ i < off + m →
  i `div` BSn = off `div` BSn ∧ i `mod` BSn = off `mod` BSn + (i - off).
Proof. intros Hm Hi. replace i with (off + (i - off)) at 1 2 by lia. apply div_same. lia. Qed.

Lemma faddr_put sb j x a d bn :
  file_ok sb j x → bn < MAXFn → faddr (j_view j) x bn = a → a ≠ 0%Z →
  ∀ k, faddr (j_view (j_put (Z.to_nat a) d j)) x k = faddr (j_view j) x k.
Proof.
  intros Hf Hbn Ha Hz k. apply faddr_ext. intros Hi. simpl. apply list_lookup_insert_ne.
  pose proof (f_map _ _ _ Hf) as Hm. pose proof (m_ind_sep _ _ _ _ _ Hm bn Hbn Hi) as Hs.
  destruct (m_ind _ _ _ _ _ Hm Hi) as (Hp & _).
  destruct (m_data _ _ _ _ _ Hm bn Hbn) as (Hp' & _); [by rewrite Ha|]. rewrite Ha in *. lia.
Qed.

(** Overwriting part of one mapped block. *)
Lemma wrote_put sb j x off bs d :
  fs_geo sb j → file_ok sb j x → off `div` BSn < MAXFn →
  faddr (j_view j) x (off `div` BSn) ≠ 0%Z →
  j_view j !! Z.to_nat (faddr (j_view j) x (off `div` BSn)) = Some d → blk_ok d →
  off `mod` BSn + length bs ≤ BSn →
  wrote sb 1 0 (overlay off bs) j
    (j_put (Z.to_nat (faddr (j_view j) x (off `div` BSn))) (splice (off `mod` BSn) bs d) j) x x.
Proof.
  intros Hg Hf Hbn Hz Hd [Hdl _] Hlen. set (a := faddr (j_view j) x (off `div` BSn)) in *.
  pose proof (f_map _ _ _ Hf) as Hm. pose proof (m_data _ _ _ _ _ Hm _ Hbn Hz) as Hdb.
  fold a in Hdb. pose proof (proj1 Hdb) as Hp.
  pose proof (faddr_put sb j x a (splice (off `mod` BSn) bs d) _ Hf Hbn eq_refl Hz) as Hfa.
  constructor.
  - by apply fs_geo_put_data.
  - destruct Hf as [? ? ? ?]. constructor; [done|done|done|].
    eapply map_ok_ext; [exact Hm|auto|]. intros a' Ha'. by apply data_block_put.
  - by destruct x.
  - intros bn _. left. apply Hfa.
  - by left.
  - intros b Hb Hu Hnm Hi Hfn. simpl. apply list_lookup_insert_ne.
    intros He. apply (Hfn _ Hbn). fold a. lia.
  - intros b Hb Hu. by rewrite isfree_put_data.
  - done.
  - done.
  - intros P c _. pose proof (load_put (Z.to_nat a) (splice (off `mod` BSn) bs d) P j x). pose proof (load_add (Z.to_nat a) P j x). lia.
  - rewrite Nat.add_0_r. apply nfree_mono. intros b Hb Hu. by rewrite isfree_put_data.
  - intros i Hi Hor. unfold fbyte. rewrite !Hfa. unfold overlay in *. simpl.
    destruct (decide (off ≤ i < off + length bs)) as [Hr|Hr].
    + destruct (same_block _ _ _ Hlen Hr) as [-> ->]. fold a. rewrite decide_True by lia.
      split; [done|]. rewrite list_lookup_total_insert_eq by (by apply lookup_lt_Some in Hd).
      destruct (lookup_lt_is_Some_2 bs (i - off)) as [c Hc]; [lia|]. rewrite Hc. simpl.
      apply list_lookup_total_correct. rewrite lookup_splice by (rewrite Hdl; pose proof BSn_Z; lia).
      rewrite decide_True by lia. rewrite <-Hc. f_equal. lia.
    + assert (HF : (if decide (off ≤ i) then bs !! (i - off) else None) = None).
      { case_decide; [|done]. apply lookup_ge_None_2. lia. }
      rewrite HF in *. destruct Hor as [Hne|]; [|done]. split; [done|]. simpl.
      destruct (decide (i `div` BSn = off `div` BSn)) as [He|He].
      * rewrite He. fold a. rewrite list_lookup_total_insert_eq by (by apply lookup_lt_Some in Hd).
        rewrite (list_lookup_total_correct _ _ _ Hd), !list_lookup_total_alt. f_equal.
        rewrite lookup_splice by (rewrite Hdl; pose proof BSn_Z; lia). rewrite decide_False; [done|].
        pose proof (Nat.div_mod_eq i BSn). pose proof (Nat.div_mod_eq off BSn). rewrite He in *. lia.
      * rewrite list_lookup_total_insert_ne; [done|]. intros Heq. apply He. symmetry.
        apply (m_inj _ _ _ _ _ Hm); [done|done|done|]. fold a.
        destruct (m_data _ _ _ _ _ Hm _ Hi Hne) as (? & _). lia.
Qed.

Lemma wrote_weaken sb k f k' f' F j j' x x' :
  wrote sb k f F j j' x x' → k ≤ k' → f ≤ f' → wrote sb k' f' F j j' x x'.
Proof. intros [] ? ?. constructor; auto; [|lia]. intros P c Hp. specialize (w_log0 P c Hp). nia. Qed.

Lemma wrote_logs sb k f k' F j j' x x' :
  wrote sb k f F j j' x x' → (∀ P c, priced sb P c → load P j' x' ≤ load P j x + k' + f * c) → wrote sb k' f F j j' x x'.
Proof. intros [] ?. by constructor. Qed.

Lemma bytes_at_app off n m (l : list Z) :
  bytes_at off (n + m) l = bytes_at off n l ++ bytes_at (off + n) m l.
Proof. unfold bytes_at. by rewrite <-drop_drop, take_take_drop. Qed.

Lemma wrote_cap sb k f F j j' x x' : wrote sb k f F j j' x x' → j_cap j' = j_cap j.
Proof. intros G. unfold j_cap. by rewrite (proj2 (w_area _ _ _ _ _ _ _ _ G)). Qed.

(** One round: map the block and overwrite a part of it. *)
Lemma writei_round t j sb ic ip x P c Q (E : string → Prop) src off m tot :
  jrep t j → fs_geo sb j → file_ok sb j x → ic !! ip = Some x → j_held j = ∅ →
  tot + m ≤ length src → Forall is_byte src → off `mod` BSn + m ≤ BSn → off `div` BSn < MAXFn →
  priced sb P c → load P j x + 2 * c + 3 ≤ j_cap j →
  (∀ t' j' x', jrep t' j' → wrote sb 1 2 (overlay off (bytes_at tot m src)) j j' x x' →
    Q tt (FState t' sb (<[ip := x']> ic))) →
  (nfree (j_view j) sb < 2 → E oom) →
  wpe (writei_block ip src (Z.of_nat off) (Z.of_nat tot) (Z.of_nat m)) Q E (FState t sb ic).
Proof.
  intros Hr Hg Hf Hip Hh Hsrc Hby Hm Hbn Hpr Hcap HQ HE. pose proof (j_cap_le j).
  unfold writei_block. rewrite <-BSn_Z, <-Nat2Z.inj_div, <-Nat2Z.inj_mod, !Nat2Z.id.
  eapply wpe_bind_wp, wp_done; [by apply geti_done|].
  apply wpe_bind. eapply bmap_spec; [exact Hr|done|done|done|done|done|exact Hpr|lia| |exact HE].
  intros t1 j1 x1 Hr1 G Ha HL. apply wp_wpe. pose proof (grown_wrote _ _ _ _ _ _ _ Hf G) as W1.
  pose proof (gr_file _ _ _ _ _ _ _ G) as Hf1. pose proof (gr_geo _ _ _ _ _ _ _ G) as Hg1.
  pose proof (m_data _ _ _ _ _ (f_map _ _ _ Hf1) _ Hbn Ha) as Hdb.
  pose proof (data_lt _ _ _ Hg1 Hdb) as Hl. destruct (jview_some _ _ _ Hr1 Hl) as (d & Hd & Hdok).
  assert (Hh1 : j_held j1 = ∅) by (by rewrite (gr_held _ _ _ _ _ _ _ G)).
  pose proof (gr_log _ _ _ _ _ _ _ G P c Hpr) as Hlog. pose proof (load_log P j1 x1). pose proof (wrote_cap _ _ _ _ _ _ _ _ W1) as Hc1.
  apply wp_bind. eapply (disk_jread _ _ _ _ _ _ (Z.to_nat (faddr (j_view j1) x1 (off `div` BSn))));
    [exact Hr1|apply (f_dev _ _ _ Hf)|rewrite Z2Nat.id; [done|apply Hdb]|exact Hl|by apply held_none|
     apply room_one; [done|lia]|].
  intros h t2 Hn Hr2. apply wp_bind.
  eapply disk_jdata; [exact Hr2|apply lookup_insert_eq|exact Hd|].
  eapply log_release_spec; [exact Hr2|done| |exact Hl|by eapply data_home|lia|].
  { apply blk_ok_splice; [done|by apply Forall_take, Forall_drop|]. rewrite bytes_at_length by done.
    pose proof BSn_Z. lia. }
  intros t3 Hr3. eapply HQ; [exact Hr3|]. eapply wrote_logs; [eapply wrote_ext|].
  - eapply (wrote_trans _ 1 2 1 0); [exact W1|apply wrote_put; [done|done|done|done|exact Hd|done|]].
    by rewrite bytes_at_length by done.
  - intros i. cbv beta. by rewrite (right_id_L None (∪)).
  - intros P' c' Hp'. etrans; [apply load_put|]. by apply HL.
Qed.

Lemma writei_loop_spec sb ip P c Q (E : string → Prop) src n rounds fuel :
  n ≤ length src → Forall is_byte src → priced sb P c →
  ∀ t j ic x off tot,
  jrep t j → fs_geo sb j → file_ok sb j x → ic !! ip = Some x → j_held j = ∅ →
  tot ≤ n → off + (n - tot) ≤ MAXFn * BSn →
  rounds < fuel → n - tot = 0 ∨ off `mod` BSn + (n - tot) ≤ BSn * rounds →
  load P j x + rounds * (1 + 2 * c) + 2 ≤ j_cap j →
  (∀ t' j' x', jrep t' j' →
    wrote sb rounds (2 * rounds) (overlay off (bytes_at tot (n - tot) src)) j j' x x' →
    Q (Z.of_nat (off + (n - tot))) (FState t' sb (<[ip := x']> ic))) →
  (nfree (j_view j) sb < 2 * rounds → E oom) →
  wpe (writei_loop fuel ip src (Z.of_nat off) (Z.of_nat n) (Z.of_nat tot)) Q E (FState t sb ic).
Proof.
  intros Hsrc Hby Hpr. revert rounds.
  induction fuel as [|fuel IH]; intros rounds t j ic x off tot Hr Hg Hf Hip Hh Ht Hmax Hfu Hmeas Hcap HQ HE; [lia|].
  cbn [writei_loop]. destruct (decide (tot < n)) as [Hlt|Hge].
  2:{ rewrite decide_False by lia. apply wp_wpe, wp_ret. replace (n - tot) with 0 in HQ by lia.
      rewrite Nat.add_0_r in HQ. rewrite <-(list_insert_id _ _ _ Hip). apply (HQ t j x Hr).
      eapply wrote_weaken; [eapply wrote_ext; [apply grown_wrote; [done|by apply grown_refl]|]|lia|lia].
      intros i. unfold overlay, bytes_at. rewrite take_0. by case_decide. }
  rewrite decide_True by lia. destruct (round_eqs off n tot Hlt) as (_ & _ & ->). cbv zeta.
  set (m := Nat.min (n - tot) (BSn - off `mod` BSn)).
  pose proof (Nat.mod_upper_bound off BSn BSn_pos) as Hmod. pose proof (Nat.div_mod_eq off BSn) as Hdm.
  destruct Hmeas as [|Hmeas]; [lia|]. destruct rounds as [|rounds]; [lia|].
  assert (Hbn : off `div` BSn < MAXFn) by (apply Nat.Div0.div_lt_upper_bound; nia).
  apply wpe_bind. eapply writei_round; [exact Hr|done|done|done|done|lia|done|lia|done|exact Hpr|lia| |intros; apply HE; lia].
  intros t1 j1 x1 Hr1 W1. rewrite <-!Nat2Z.inj_add.
  pose proof (wrote_cap _ _ _ _ _ _ _ _ W1) as Hc1. pose proof (w_log _ _ _ _ _ _ _ _ W1 P c Hpr).
  pose proof (w_nfree _ _ _ _ _ _ _ _ W1).
  eapply (IH rounds t1 j1 _ x1); [exact Hr1|apply W1|apply W1| | |lia|lia|lia| |lia| |intros; apply HE; lia].
  - apply list_lookup_insert_eq. by apply lookup_lt_Some in Hip.
  - by rewrite (w_held _ _ _ _ _ _ _ _ W1).
  - destruct (decide (m = n - tot)) as [Hmn|Hmn]; [left; lia|right].
    assert (Hmb : m = BSn - off `mod` BSn) by lia.
    assert ((off + m) `mod` BSn = 0) as ->.
    { replace (off + m) with ((off `div` BSn + 1) * BSn) by lia. apply Nat.Div0.mod_mul. }
    nia.
  - intros t2 j2 x2 Hr2 W2. rewrite list_insert_insert_eq.
    replace (off + m + (n - (tot + m))) with (off + (n - tot)) by lia. eapply HQ; [exact Hr2|].
    eapply wrote_ext; [eapply wrote_weaken; [exact (wrote_trans _ _ _ _ _ _ _ _ _ _ _ _ _ W1 W2)|lia|lia]|].
    intros i. cbv beta. assert (Hm : length (bytes_at tot m src) = m) by (apply bytes_at_length; lia).
    pose proof (overlay_app off (bytes_at tot m src) (bytes_at (tot + m) (n - (tot + m)) src) i) as HO.
    rewrite Hm in HO. rewrite HO, <-bytes_at_app. do 2 f_equal. lia.
Qed.

(** Storing an inode leaves file contents alone. *)
Lemma data_not_iblk sb j a inum : fs_geo sb j → (0 ≤ inum < sb_ninodes sb)%Z → data_block sb j a →
  Z.to_nat a ≠ iblk sb inum.
Proof. intros Hg Hi (_ & _ & _ & Hnm) He. apply Hnm. rewrite He. by apply iblk_facts. Qed.

Lemma iput_view sb j a inum di : fs_geo sb j → (0 ≤ inum < sb_ninodes sb)%Z → data_block sb j a →
  j_view (j_iput sb inum di j) !! Z.to_nat a = j_view j !! Z.to_nat a.
Proof.
  intros Hg Hi Ha. simpl. apply list_lookup_insert_ne. intros He. by eapply data_not_iblk, eq_sym.
Qed.

Lemma data_block_iput sb j a inum di : fs_geo sb j → (0 ≤ inum < sb_ninodes sb)%Z →
  data_block sb j a → data_block sb (j_iput sb inum di j) a.
Proof.
  intros Hg Hi (H1 & H2 & H3 & H4). pose proof (iblk_facts _ _ _ Hg Hi) as (_ & _ & _ & Hbm & _).
  split_and!; [done|done| |done]. unfold j_iput. rewrite isfree_put; [done|]. unfold bmblk. lia.
Qed.

Lemma file_iput sb j x inum di : fs_geo sb j → file_ok sb j x → (0 ≤ inum < sb_ninodes sb)%Z →
  file_ok sb (j_iput sb inum di j) x ∧
  (∀ bn, faddr (j_view (j_iput sb inum di j)) x bn = faddr (j_view j) x bn) ∧
  (∀ i, i `div` BSn < MAXFn → faddr (j_view j) x (i `div` BSn) ≠ 0%Z →
    fbyte (j_view (j_iput sb inum di j)) x i = fbyte (j_view j) x i).
Proof.
  intros Hg [Hdev Had Hsz Hm] Hi.
  assert (Hfa : ∀ bn, faddr (j_view (j_iput sb inum di j)) x bn = faddr (j_view j) x bn).
  { intros bn. apply faddr_ext. intros Hind. apply iput_view; [done|done|]. by apply (m_ind _ _ _ _ _ Hm). }
  split_and!; [|done|].
  - constructor; [done..|]. eapply map_ok_ext; [exact Hm|auto|]. intros. by apply data_block_iput.
  - intros i Hb Hne. unfold fbyte. rewrite Hfa, !list_lookup_total_alt, iput_view; [done..|].
    by apply (m_data _ _ _ _ _ Hm).
Qed.

(** Every block below the end of a write is mapped. *)
Lemma wrote_alloc sb k f off bs j j' x x' bn :
  file_ok sb j x → wrote sb k f (overlay off bs) j j' x x' → (Z.of_nat off ≤ i_size x)%Z →
  bn < MAXFn → bn * BSn < off + length bs → faddr (j_view j') x' bn ≠ 0%Z.
Proof.
  intros Hf W Hoff Hbn Hlt. pose proof BSn_Z.
  assert (Hdiv : (bn * BSn) `div` BSn = bn) by apply Nat.div_mul, BSn_pos.
  rewrite <-Hdiv. apply (w_bytes _ _ _ _ _ _ _ _ W); [by rewrite Hdiv|]. rewrite Hdiv.
  destruct (decide (bn * BSn < off)).
  - left. apply (m_alloc _ _ _ _ _ (f_map _ _ _ Hf)); [done|lia].
  - right. unfold overlay. rewrite decide_True by lia.
    destruct (lookup_lt_is_Some_2 bs (bn * BSn - off)) as [c ->]; [lia|done].
Qed.

(** Growing the size of a file whose blocks are mapped. *)
Lemma file_ok_resize sb j x sz :
  file_ok sb j x → (0 ≤ sz ≤ MAXFILE * BSIZE)%Z →
  (∀ bn, bn < MAXFn → (Z.of_nat bn * BSIZE < sz)%Z → faddr (j_view j) x bn ≠ 0%Z) →
  file_ok sb j (set_isize sz x).
Proof.
  intros [Hdev Had Hsz [Hd Hi Hs Hj Ha]] Hsz' Hall. constructor; [done|done|done|]. by constructor.
Qed.

(** The number of blocks a write of [n] bytes may touch. *)
Definition io_blocks (n : Z) : nat := Z.to_nat (n / BSIZE) + 2.

(** The blocks that it may log: those, one bitmap block for each of its
    allocations (but there are only [nbm sb] of them), the indirect block and the
    inode's; and the log must not be full before the last of them. *)
Definition write_room (sb : superblock) (n : Z) : nat := io_blocks n + Nat.min (2 * io_blocks n) (nbm sb) + 3.

(** The effect of writing the first [n] bytes of [src] at [off]. *)
Record written (sb : superblock) (j j' : jstate) (x x' : inode) (off n : nat) (src : list Z) : Prop := {
  wr_geo : fs_geo sb j';
  wr_file : file_ok sb j' x';
  wr_same : x' = set_isize (i_size x') (set_addrs (i_addrs x') x);
  wr_size : i_size x' = Z.max (i_size x) (Z.of_nat (off + n));
  wr_bytes i : (Z.of_nat i < i_size x')%Z → fbyte (j_view j') x' i =
    if decide (off ≤ i < off + n) then src !!! (i - off) else fbyte (j_view j) x i;
  wr_others b : b < nblk sb → isfree (j_view j) sb b = false → ¬ is_meta sb (j_start j) (j_size j) b →
    Z.of_nat b ≠ ind_addr x → (∀ bn, bn < MAXFn → faddr (j_view j) x bn ≠ Z.of_nat b) →
    j_view j' !! b = j_view j !! b;
  wr_disk : i_size x' ≠ i_size x → disk_inode (j_view j') sb (i_inum x) = inode_dinode x';
  wr_held : j_held j' = j_held j;
  wr_log : size (j_log j') ≤ size (j_log j) + write_room sb (Z.of_nat n)
}.

Lemma overlay_src off n src i : n ≤ length src → off ≤ i < off + n →
  overlay off (bytes_at 0 n src) i = Some (src !!! (i - off)).
Proof.
  intros Hn Hi. unfold overlay. rewrite decide_True by lia. rewrite lookup_bytes_at, decide_True by lia.
  destruct (lookup_lt_is_Some_2 src (i - off)) as [c Hc]; [lia|].
  by rewrite Nat.add_0_l, (list_lookup_total_correct _ _ _ Hc).
Qed.

Lemma overlay_out off n src i : n ≤ length src → ¬ off ≤ i < off + n →
  overlay off (bytes_at 0 n src) i = None.
Proof.
  intros Hn Hi. unfold overlay. case_decide; [|done]. rewrite lookup_bytes_at, decide_False; [done|lia].
Qed.

(** The bytes of the file after the loop. *)
Lemma wrote_content sb k f j j' x x' off n src i :
  file_ok sb j x → n ≤ length src → (Z.of_nat off ≤ i_size x)%Z → off + n ≤ MAXFn * BSn →
  wrote sb k f (overlay off (bytes_at 0 n src)) j j' x x' →
  (Z.of_nat i < Z.max (i_size x) (Z.of_nat (off + n)))%Z →
  i `div` BSn < MAXFn ∧ faddr (j_view j') x' (i `div` BSn) ≠ 0%Z ∧ fbyte (j_view j') x' i =
    if decide (off ≤ i < off + n) then src !!! (i - off) else fbyte (j_view j) x i.
Proof.
  intros Hf Hn Hoff Hmax W Hi. pose proof BSn_Z as HB. pose proof MAXFn_Z as HM.
  pose proof (f_size _ _ _ Hf) as Hsz. pose proof (Nat.div_mod_eq i BSn) as Hdm.
  assert (Hb : i `div` BSn < MAXFn) by (apply Nat.Div0.div_lt_upper_bound; nia). split; [done|].
  case_decide as Hr.
  - pose proof (overlay_src _ _ _ _ Hn Hr) as Ho.
    destruct (w_bytes _ _ _ _ _ _ _ _ W i Hb) as [Hne ->]; [right; by rewrite Ho|]. by rewrite Ho.
  - pose proof (overlay_out _ _ _ _ Hn Hr) as Ho.
    destruct (w_bytes _ _ _ _ _ _ _ _ W i Hb) as [Hne ->]; [left|by rewrite Ho].
    apply (m_alloc _ _ _ _ _ (f_map _ _ _ Hf)); [done|]. nia.
Qed.

Lemma written_same sb k f j j' x x' off n src :
  file_ok sb j x → n ≤ length src → (Z.of_nat (off + n) ≤ i_size x)%Z → off + n ≤ MAXFn * BSn →
  size (j_log j') ≤ size (j_log j) + write_room sb (Z.of_nat n) →
  wrote sb k f (overlay off (bytes_at 0 n src)) j j' x x' → written sb j j' x x' off n src.
Proof.
  intros Hf Hn Hsz Hmax Hlog W. assert (Hsame := w_same _ _ _ _ _ _ _ _ W).
  assert (Hi : i_size x' = i_size x) by (by rewrite Hsame).
  constructor; [apply W|apply W| |lia| |apply (w_keep _ _ _ _ _ _ _ _ W)|done|apply W|lia].
  - rewrite Hi. rewrite Hsame at 1. by destruct x.
  - intros i Hlt. rewrite Hi in Hlt. eapply wrote_content; [exact Hf|exact Hn|lia|exact Hmax|exact W|lia].
Qed.

(** The write that grows the file: its inode is stored. *)
Lemma written_grow t sb k f j j' x x' off n src :
  jrep t j' → file_ok sb j x → n ≤ length src → (Z.of_nat off ≤ i_size x < Z.of_nat (off + n))%Z →
  off + n ≤ MAXFn * BSn → (0 ≤ i_inum x < sb_ninodes sb)%Z → dinode_ok (inode_dinode x) →
  fs_geo sb j → size (j_log j') < size (j_log j) + write_room sb (Z.of_nat n) →
  wrote sb k f (overlay off (bytes_at 0 n src)) j j' x x' →
  let x2 := set_isize (Z.of_nat (off + n)) x' in
  written sb j (j_iput sb (i_inum x) (inode_dinode x2) j') x x2 off n src.
Proof.
  intros Hr Hf Hn Hsz Hmax Hi Hdok Hg Hlog W x2. pose proof BSn_Z as HB. pose proof MAXFn_Z as HM.
  pose proof (w_geo _ _ _ _ _ _ _ _ W) as Hg'. pose proof (w_file _ _ _ _ _ _ _ _ W) as Hf'.
  assert (Hsame := w_same _ _ _ _ _ _ _ _ W).
  assert (Hlen : length (bytes_at 0 n src) = n) by (apply bytes_at_length; lia).
  assert (Hf2 : file_ok sb j' x2).
  { apply file_ok_resize; [done|nia|]. intros bn Hbn Hlt.
    eapply wrote_alloc; [exact Hf|exact W|lia|done|]. rewrite Hlen. nia. }
  destruct (file_iput sb j' x2 (i_inum x) (inode_dinode x2) Hg' Hf2 Hi) as (Hf3 & Hfa3 & Hfb3).
  assert (Hd2 : dinode_ok (inode_dinode x2)).
  { destruct Hdok as [? ? ? ? _ _]. pose proof (f_addrs _ _ _ Hf') as Had.
    assert (Heq : inode_dinode x2 = Dinode (i_type x) (i_major x) (i_minor x) (i_nlink x)
      (Z.of_nat (off + n)) (i_addrs x')) by (unfold x2, inode_dinode; by rewrite Hsame).
    rewrite Heq. constructor; simpl; [done..| |done]. unfold is_u32. change MAXFILE with 140%Z in *. plia. }
  constructor.
  - by apply fs_geo_iput.
  - done.
  - unfold x2. rewrite Hsame at 1. by destruct x.
  - simpl. lia.
  - intros i Hlt. simpl in Hlt.
    destruct (wrote_content sb k f j j' x x' off n src i) as (Hb & Hne & Heq); [done|done|lia|done|done|lia|].
    rewrite Hfb3 by done. exact Heq.
  - intros b Hb Hu Hnm Hib Hfn. simpl. rewrite list_lookup_insert_ne.
    + by apply (w_keep _ _ _ _ _ _ _ _ W).
    + intros He. apply Hnm. rewrite <-He. by apply iblk_facts.
  - intros _. erewrite disk_inode_iput by (done || lia). by rewrite decide_True.
  - apply W.
  - unfold j_iput.
    match goal with |- size (j_log (j_put ?b ?d _)) ≤ _ => pose proof (size_j_put b d j') end. lia.
Qed.

Lemma overflow_iff off n : is_u32 off → is_u32 n → (u32 (off + n) < off)%Z ↔ (2 ^ 32 ≤ off + n)%Z.
Proof.
  unfold is_u32, u32. intros Ho Hn. destruct (decide (off + n < 2 ^ 32)%Z); [rewrite Z.mod_small by lia; lia|].
  rewrite <-(Z_mod_plus_full _ (-1)), Z.mod_small by lia. lia.
Qed.

Lemma write_room_load sb j x n : ∃ P c, priced sb P c ∧ load P j x + io_blocks n * (1 + 2 * c) + 2 ≤ size (j_log j) + write_room sb n.
Proof.
  assert (Hl : ∀ P, load P j x ≤ size (j_log j) + size P + 1).
  { intros P. unfold load. pose proof (subseteq_size (P ∖ j_log j) P ltac:(set_solver)).
    pose proof (subseteq_size (ind_set x ∖ (j_log j ∪ P)) (ind_set x) ltac:(set_solver)). rewrite !size_union_alt.
    unfold ind_set in *. case_decide; rewrite ?size_empty, ?size_singleton in *; lia. }
  unfold write_room. destruct (Nat.min_spec (2 * io_blocks n) (nbm sb)) as [[_ ->]|[_ ->]].
  - exists ∅, 1. split; [by intros ?|]. specialize (Hl ∅). rewrite size_empty in Hl. lia.
  - exists (bm_set sb), 0. split; [by intros _|]. specialize (Hl (bm_set sb)). rewrite size_bm_set in Hl. lia.
Qed.

Lemma writei_spec (devsw_write : Z → option (nat → list Z → Z → M (fstate T) Z)) t j sb ic ip x src off n :
  jrep t j → fs_geo sb j → file_ok sb j x → ic !! ip = Some x → i_type x ≠ T_DEV →
  j_held j = ∅ → is_u32 off → is_u32 n → Z.to_nat n ≤ length src → Forall is_byte src →
  (0 ≤ i_inum x < sb_ninodes sb)%Z → dinode_ok (inode_dinode x) →
  size (j_log j) + write_room sb n ≤ j_cap j →
  wpe (writei devsw_write ip src off n) (λ r s,
    if decide (i_size x < off ∨ 2 ^ 32 ≤ off + n ∨ MAXFILE * BSIZE < off + n)%Z
    then r = (-1)%Z ∧ s = FState t sb ic
    else r = n ∧ ∃ t' j' x', s = FState t' sb (<[ip := x']> ic) ∧ jrep t' j' ∧
      written sb j j' x x' (Z.to_nat off) (Z.to_nat n) src)
    (λ e, e = oom ∧ nfree (j_view j) sb < 2 * io_blocks n) (FState t sb ic).
Proof.
  intros Hr Hg Hf Hip Hty Hh Ho Hn Hsrc Hby Hi Hdok Hcap. pose proof (overflow_iff off n Ho Hn) as Hov.
  unfold is_u32 in Ho, Hn. unfold writei. eapply wpe_bind_wp, wp_done; [by apply geti_done|].
  rewrite decide_False by done.
  destruct (decide (i_size x < off ∨ u32 (off + n) < off)%Z) as [Hbad|Hgood].
  { apply wp_wpe, wp_ret. by rewrite decide_True by lia. }
  assert (Hsum : u32 (off + n) = (off + n)%Z) by (apply u32_small; unfold is_u32; lia).
  rewrite Hsum. destruct (decide (MAXFILE * BSIZE < off + n)%Z) as [Hbig|Hfit].
  { apply wp_wpe, wp_ret. by rewrite decide_True by lia. }
  eapply wpe_mono; [|intros r s Hp; rewrite decide_False by lia; exact Hp|intros e He; exact He].
  set (o := Z.to_nat off) in *. set (k := Z.to_nat n) in *.
  assert (Hoz : off = Z.of_nat o) by lia. assert (Hkz : n = Z.of_nat k) by lia.
  pose proof BSn_Z as HB. pose proof MAXFn_Z as HM.
  assert (Hmax : o + k ≤ MAXFn * BSn) by nia. rewrite Hoz, Hkz in *. apply wpe_bind.
  destruct (write_room_load sb j x (Z.of_nat k)) as (P & c & Hpr & Hload).
  change 0%Z with (Z.of_nat 0) at 1.
  eapply (writei_loop_spec _ _ P c _ _ _ _ (io_blocks (Z.of_nat k))); [exact Hsrc|exact Hby|exact Hpr|exact Hr|done|done|
    done|done|lia|lia|unfold io_fuel, io_blocks; lia| |lia| |done].
  { right. pose proof (io_fuel_enough o k) as He. unfold io_fuel in He. unfold io_blocks.
    rewrite Nat.sub_0_r. replace (_ + 3 - 1) with (Z.to_nat (Z.of_nat k / BSIZE) + 2) in He by lia. done. }
  intros t1 j1 x1 Hr1 W. apply wp_wpe. rewrite Nat.sub_0_r in W |- *.
  pose proof (w_log _ _ _ _ _ _ _ _ W P c Hpr) as Hlog. pose proof (load_log P j1 x1) as Hl1. pose proof (wrote_cap _ _ _ _ _ _ _ _ W) as Hc1.
  assert (Hip1 : <[ip := x1]> ic !! ip = Some x1).
  { apply list_lookup_insert_eq. by apply lookup_lt_Some in Hip. }
  assert (Hsame := w_same _ _ _ _ _ _ _ _ W).
  assert (Hsz1 : i_size x1 = i_size x) by (by rewrite Hsame).
  assert (Hin1 : i_inum x1 = i_inum x) by (by rewrite Hsame).
  eapply wp_bind, wp_done; [by apply geti_done|]. rewrite Hsz1.
  destruct (decide (0 < Z.of_nat k ∧ i_size x < Z.of_nat (o + k))%Z) as [Hgrow|Hno].
  - apply wp_bind. eapply wp_bind, wp_done; [by apply updi_done|]. rewrite list_insert_insert_eq.
    set (x2 := set_isize (Z.of_nat (o + k)) x1).
    pose proof (j_cap_le j) as Hcl.
    assert (Hh1 : j_held j1 = ∅) by (by rewrite (w_held _ _ _ _ _ _ _ _ W)).
    eapply (iupdate_spec _ _ _ _ _ x2); [exact Hr1|apply W|by apply held_ok_empty| | | | | | |].
    { apply list_lookup_insert_eq. by apply lookup_lt_Some in Hip. }
    { simpl. apply (f_dev _ _ _ (w_file _ _ _ _ _ _ _ _ W)). }
    { simpl. by rewrite Hin1. }
    { simpl. apply (f_addrs _ _ _ (w_file _ _ _ _ _ _ _ _ W)). }
    { rewrite Hh1, map_size_empty. lia. }
    { lia. }
    intros t2 Hr2. apply wp_ret. split; [done|].
    exists t2, (j_iput sb (i_inum x2) (inode_dinode x2) j1), x2. split_and!; [done|done|].
    change (i_inum x2) with (i_inum x1). rewrite Hin1. eapply written_grow; [exact Hr1|exact Hf|done|lia|done|done|done|done| |exact W]. lia.
  - apply wp_bind, wp_ret, wp_ret. split; [done|]. exists t1, j1, x1. split_and!; [done|done|].
    eapply written_same; [done|done|lia|done| |exact W]. lia.
Qed.

(** A piece of [filewrite]. *)
Lemma write_room_chunk sb n : (0 ≤ n ≤ (MAXOPBLOCKS - 1 - 1 - 2) / 2 * BSIZE)%Z → (sb_size sb ≤ BPB)%Z → write_room sb n ≤ Z.to_nat MAXOPBLOCKS.
Proof.
  intros Hn Hsz. assert (Hb : nbm sb = 1).
  { unfold nbm, nblk. rewrite Nat.div_small; [done|]. pose proof BPBn_Z. pose proof BPBn_pos. lia. }
  unfold write_room. rewrite Hb. change ((MAXOPBLOCKS - 1 - 1 - 2) / 2 * BSIZE)%Z with 1536%Z in Hn. change (Z.to_nat MAXOPBLOCKS) with 10.
  assert (io_blocks n ≤ 5); [|lia]. unfold io_blocks. assert (n / BSIZE ≤ 3)%Z; [|lia].
  change BSIZE with 512%Z. apply Z.lt_succ_r, Z.div_lt_upper_bound; lia.
Qed.

(** The driver of a device: an entry of the table [devsw]. *)
Definition driver {A} (devsw : Z → option A) (x : inode) : option A :=
  if decide (0 ≤ i_major x < NDEV)%Z then devsw (i_major x) else None.

Lemma device_io (devsw_read : Z → option (nat → Z → M (fstate T) (Z * list Z)))
    (devsw_write : Z → option (nat → list Z → Z → M (fstate T) Z)) ip x src off n s :
  fs_icache s !! ip = Some x → i_type x = T_DEV →
  readi devsw_read ip off n s = match driver devsw_read x with Some f => f ip n s | None => Done ((-1)%Z, []) s end ∧
  writei devsw_write ip src off n s = match driver devsw_write x with Some f => f ip src n s | None => Done (-1)%Z s end.
Proof.
  intros Hip Hty. destruct s as [t sb ic]. unfold readi, writei, driver. split; rewrite (run_bind _ _ _ _ _ (geti_done _ _ _ _ _ Hip)), decide_True by done.
  - destruct (decide (0 ≤ i_major x < NDEV)%Z); [rewrite decide_False by lia|rewrite decide_True by lia; done]. by destruct (devsw_read (i_major x)).
  - destruct (decide (0 ≤ i_major x < NDEV)%Z); [rewrite decide_False by lia|rewrite decide_True by lia; done]. by destruct (devsw_write (i_major x)).
Qed.


End file_ops.

(** ** Witnesses *)

Definition demo_inode : inode :=
  load_dinode demo_file (Inode ROOTDEV 2 1 (Sleeplock 1 1) 1 0 0 0 0 0 []).

Lemma demo_faddr bn : bn < MAXFn →
  faddr demo_image demo_inode bn = if decide (bn = 0) then 36%Z else if decide (bn = 1) then 37%Z else 0%Z.
Proof.
  intros Hbn. unfold faddr, ind_addr. simpl i_addrs. pose proof NDn_Z as HN. change NDIRECT with 12%Z in HN.
  assert (NDn = 12) as -> by lia. rewrite (decide_True (P := _ = 0%Z)) by reflexivity.
  do 2 (destruct bn as [|bn]; [reflexivity|]). rewrite !(decide_False (P := S (S bn) = _)) by lia.
  case_decide as Hlt; [|done]. do 10 (destruct bn as [|bn]; [reflexivity|]). lia.
Qed.

Lemma demo_data_block a : (35 ≤ a ≤ 37)%Z → data_block demo_sb demo_j a.
Proof.
  intros Ha. change (j_view demo_j) with demo_image. split_and!; [lia| | |].
  - change (nblk demo_sb) with 48. lia.
  - change (j_view demo_j) with demo_image. rewrite demo_isfree by lia. apply Nat.ltb_ge. lia.
  - intros Hm%demo_meta. lia.
Qed.

Lemma demo_file_ok : file_ok demo_sb demo_j demo_inode.
Proof.
  constructor.
  - reflexivity.
  - split; [reflexivity|]. simpl i_addrs. repeat constructor; unfold is_u32; lia.
  - simpl i_size. change (MAXFILE * BSIZE)%Z with 71680%Z. lia.
  - change (j_view demo_j) with demo_image. simpl i_size.
    assert (Hind : ind_addr demo_inode = 0%Z) by (vm_compute; reflexivity). rewrite Hind.
    constructor; [|done|done| |].
    + intros bn Hbn. change (j_view demo_j) with demo_image. rewrite demo_faddr by done.
      repeat case_decide; intros; [apply demo_data_block; lia..|done].
    + intros bn bn' Hbn Hbn'. rewrite !demo_faddr by done. repeat case_decide; intros; lia.
    + intros bn Hbn Hlt. rewrite demo_faddr by done. repeat case_decide; [done|done|].
      change BSIZE with 512%Z in Hlt. simpl in Hlt. lia.
Qed.

Lemma demo_dinode_ok : dinode_ok (inode_dinode demo_inode).
Proof.
  constructor; simpl; unfold is_s16, is_u32, T_FILE; [lia..|].
  split; [reflexivity|]. repeat constructor; unfold is_u32; lia.
Qed.

