(* ===== verification/FsDir.v ===== *)
(** * Directories and path names (fs.c [skipelem], [namecmp], [dirlookup], [dirlink])

    A directory is a file of 16-byte entries; a path is split at slashes. *)

From S2P Require Import Prelude Params Sleeplock Bio Super CString Log LogProof Journal Fs FsDemo FsBlocks FsInode FsFile.

(** ** Path elements *)

Fixpoint split_slash (p : list Z) : list (list Z) :=
  match p with
  | [] => [[]]
  | c :: p =>
    if decide (c = slash) then [] :: split_slash p
    else match split_slash p with
         | s :: ss => (c :: s) :: ss
         | [] => [[c]]
         end
  end.

(** The elements of a path: what is between slashes, without empty ones. *)
Definition elems (p : list Z) : list (list Z) := filter (λ s, s ≠ []) (split_slash p).

(** The C string in a [DIRSIZ]-byte name field. *)
Definition cname (n : list Z) : list Z := until_nul (take DIRSIZ n).

Lemma split_slash_ne p : split_slash p ≠ [].
Proof. induction p as [|c p IH]; simpl; [done|]. case_decide; [done|]. by destruct (split_slash p). Qed.

Lemma elems_skip p : elems (skip_slashes p) = elems p.
Proof.
  induction p as [|c p IH]; [done|]. simpl. case_decide as Hc; [|done].
  rewrite IH. unfold elems. simpl. by rewrite decide_True by done.
Qed.

Lemma skip_head p : hd 0%Z (skip_slashes p) ≠ slash.
Proof. induction p as [|c p IH]; simpl; [done|]. by case_decide. Qed.

Lemma skip_length p : length (skip_slashes p) ≤ length p.
Proof. induction p as [|c p IH]; simpl; [done|]. case_decide; simpl; lia. Qed.

Lemma take_elem_spec p s rest :
  take_elem p = (s, rest) →
  p = s ++ rest ∧ (slash ∉ s) ∧ (rest = [] ∨ hd 0%Z rest = slash) ∧
  split_slash p = s :: (if decide (rest = []) then [] else split_slash (tail rest)).
Proof.
  revert s rest. induction p as [|c p IH]; intros s rest; simpl.
  - intros ?; simplify_eq. split_and!; [done|set_solver|by left|done].
  - case_decide as Hc.
    + intros ?; simplify_eq. split_and!; [done|set_solver|by right|]. by rewrite decide_False.
    + destruct (take_elem p) as [s' r'] eqn:He. intros ?; simplify_eq.
      destruct (IH _ _ eq_refl) as (-> & Hns & Hr & Hsp). split_and!; [done|set_solver|done|].
      by rewrite Hsp.
Qed.

Lemma elems_elem p s rest :
  take_elem p = (s, rest) → s ≠ [] → elems p = s :: elems rest.
Proof.
  intros He Hs. destruct (take_elem_spec _ _ _ He) as (_ & _ & Hr & Hsp). unfold elems.
  rewrite Hsp. rewrite filter_cons_True by done. f_equal. case_decide as Hn; [by subst|].
  destruct rest as [|c rest]; [done|]. simpl in *. destruct Hr as [|Hr]; [done|]. subst c.
  rewrite decide_True by done. by rewrite filter_cons_False by (intros Hx; by apply Hx).
Qed.

Lemma until_nul_id s : 0%Z ∉ s → until_nul s = s.
Proof.
  induction s as [|c s IH]; [done|]. simpl. intros Hn. rewrite decide_False by set_solver.
  f_equal. apply IH. set_solver.
Qed.

Lemma until_nul_app s r : 0%Z ∉ s → until_nul (s ++ 0%Z :: r) = s.
Proof.
  induction s as [|c s IH]; intros Hn; simpl; [done|]. rewrite decide_False by set_solver.
  f_equal. apply IH. set_solver.
Qed.

Lemma skipelem_spec path name :
  0%Z ∉ path → length name = DIRSIZ →
  match skipelem path name with
  | None => elems path = []
  | Some (rest, name') => ∃ e, elems path = e :: elems rest ∧ cname name' = take DIRSIZ e ∧
      length name' = DIRSIZ ∧ hd 0%Z rest ≠ slash ∧ length rest < length path
  end.
Proof.
  intros H0 Hname. unfold skipelem. rewrite <-(elems_skip path). pose proof (skip_head path) as Hhd.
  pose proof (skip_length path) as Hlen.
  assert (Hsub : 0%Z ∉ skip_slashes path).
  { intros Hin. apply H0. clear -Hin. induction path as [|c p IH]; [done|]. simpl in Hin.
    case_decide; [right; auto|done]. }
  destruct (skip_slashes path) as [|c p] eqn:Hp; [done|].
  destruct (take_elem (c :: p)) as [s rest] eqn:He.
  destruct (take_elem_spec _ _ _ He) as (Heq & Hns & Hr & _).
  assert (Hs : s ≠ []).
  { intros ->. simpl in Heq. subst rest. destruct Hr as [|Hr]; [done|]. simpl in *. done. }
  assert (Hs0 : 0%Z ∉ s) by (rewrite Heq in Hsub; set_solver).
  exists s. rewrite elems_skip. split_and!.
  - by apply elems_elem.
  - unfold cname. case_decide as Hl.
    + unfold splice. rewrite take_0, length_take. simpl.
      rewrite (take_app_le (take DIRSIZ s)) by (rewrite length_take; lia). rewrite take_take, Nat.min_id.
      apply until_nul_id. intros Hin. apply Hs0. apply elem_of_take in Hin as (i & Hi & _). by eapply list_elem_of_lookup_2.
    + unfold splice. rewrite take_0. simpl. rewrite take_app_length. 
      rewrite take_app_ge by lia. replace (DIRSIZ - length s) with (S (DIRSIZ - length s - 1)) by lia.
      simpl. rewrite until_nul_app by done. by rewrite take_ge by lia.
  - case_decide; [by rewrite splice_length by (rewrite length_take; lia)|].
    assert (length (splice 0 s name) = DIRSIZ) by (rewrite splice_length; lia).
    rewrite splice_length; simpl; lia.
  - apply skip_head.
  - pose proof (skip_length rest). apply (f_equal length) in Heq. rewrite length_app in Heq.
    assert (length s ≠ 0) by (by destruct s). simpl in *. lia.
Qed.

(** ** Directory contents *)

(** The entries of a directory, in order. *)
Definition DEn : nat := 16.
Definition dirents (v : list block) (x : inode) : list (list Z) :=
  (λ k, fbytes v x (DEn * k) DEn) <$> seq 0 (Z.to_nat (i_size x) `div` DEn).

(** An entry in use with this name. *)
Definition dir_match (name de : list Z) : Prop := de_inum de ≠ 0%Z ∧ namecmp name (de_name de) = 0%Z.
#[export] Instance dir_match_dec name de : Decision (dir_match name de).
Proof. unfold dir_match. apply _. Defined.

Record dir_ok (sb : superblock) (j : jstate) (x : inode) : Prop := {
  dir_file : file_ok sb j x;
  dir_type : i_type x = T_DIR;
  dir_size : (i_size x `mod` DIRENTSZ = 0)%Z
}.

Lemma dirents_length v x : length (dirents v x) = Z.to_nat (i_size x) `div` DEn.
Proof. unfold dirents. by rewrite length_fmap, length_seq. Qed.

Lemma dirents_lookup v x k :
  dirents v x !! k = if decide (k < Z.to_nat (i_size x) `div` DEn) then Some (fbytes v x (DEn * k) DEn) else None.
Proof.
  unfold dirents. rewrite list_lookup_fmap. case_decide as Hk.
  - by rewrite lookup_seq_lt by done.
  - by rewrite lookup_seq_ge by lia.
Qed.

Lemma dirents_drop sb j x k : dir_ok sb j x → (Z.of_nat (DEn * k) < i_size x)%Z →
  drop k (dirents (j_view j) x) = fbytes (j_view j) x (DEn * k) DEn :: drop (S k) (dirents (j_view j) x) ∧
  (Z.of_nat (DEn * k) + DIRENTSZ ≤ i_size x)%Z.
Proof.
  intros [Hf _ Hs] Hk. unfold DIRENTSZ, DEn in *. pose proof (f_size _ _ _ Hf) as Hsz.
  assert (Hle : (Z.of_nat (16 * k) + 16 ≤ i_size x)%Z).
  { apply Z_div_exact_full_2 in Hs; lia. }
  split; [|lia]. apply drop_S. rewrite dirents_lookup. rewrite decide_True; [done|].
  apply Nat.div_le_lower_bound; unfold DEn; lia.
Qed.

(** The first free entry, or the end. *)
Definition free_slot (des : list (list Z)) : nat :=
  match list_find (λ de, de_inum de = 0%Z) des with Some (k, _) => k | None => length des end.

(** The entries after one is written to slot [k]. *)
Definition link_at (k : nat) (de : list Z) (des : list (list Z)) : list (list Z) :=
  take k des ++ de :: drop (S k) des.

Lemma link_at_lookup k de des i : k ≤ length des →
  link_at k de des !! i = if decide (i = k) then Some de else des !! i.
Proof.
  intros Hk. unfold link_at. case_decide as Hi.
  - subst i. rewrite lookup_app_r by (rewrite length_take; lia). rewrite length_take.
    by replace (k - k `min` length des) with 0 by lia.
  - destruct (decide (i < k)).
    + rewrite lookup_app_l by (rewrite length_take; lia). by rewrite lookup_take_lt by lia.
    + rewrite lookup_app_r by (rewrite length_take; lia). rewrite length_take, lookup_cons_ne_0 by lia.
      rewrite lookup_drop. f_equal. lia.
Qed.

Lemma list_find_link (P : list Z → Prop) `{∀ x, Decision (P x)} k de des :
  k ≤ length des → (∀ d, des !! k = Some d → ¬ P d) →
  (¬ P de → list_find P (link_at k de des) = list_find P des) ∧
  (P de → list_find P des = None → list_find P (link_at k de des) = Some (k, de)).
Proof.
  intros Hk Hno. split.
  - intros Hde. destruct (list_find P des) as [[i d]|] eqn:Hf.
    + apply list_find_Some in Hf as (Hi & Hd & Hm). apply list_find_Some.
      assert (i ≠ k) by (intros ->; by eapply Hno).
      split_and!; [by rewrite link_at_lookup, decide_False by done|done|].
      intros l y. rewrite link_at_lookup by done. case_decide; naive_solver.
    + apply list_find_None. rewrite list_find_None, Forall_lookup in Hf. apply Forall_lookup.
      intros l y. rewrite link_at_lookup by done. case_decide; naive_solver.
  - intros Hde Hf. rewrite list_find_None, Forall_lookup in Hf. apply list_find_Some.
    split_and!; [by rewrite link_at_lookup, decide_True by done|done|].
    intros l y Hl ?. rewrite link_at_lookup, decide_False in Hl by lia. eauto.
Qed.

Lemma free_slot_spec des :
  free_slot des ≤ length des ∧ ∀ d, des !! free_slot des = Some d → de_inum d = 0%Z.
Proof.
  unfold free_slot. destruct (list_find _ des) as [[k d]|] eqn:Hf.
  - apply list_find_Some in Hf as (Hk & Hd & _). split; [by apply Nat.lt_le_incl; eapply lookup_lt_Some|].
    naive_solver.
  - split; [done|]. intros d Hd%lookup_lt_Some. lia.
Qed.

(** ** New entries *)

Lemma strncmp_pad name n : 0%Z ∉ name →
  strncmp_l name (take n name ++ replicate (n - length name) 0%Z) n = 0%Z.
Proof.
  revert name. induction n as [|n IH]; intros name Hz; [done|]. destruct name as [|c name]; simpl; [done|].
  rewrite decide_True by (split; [set_solver|done]). apply IH. set_solver.
Qed.

Lemma dirent_enc_length inum name : length (dirent_enc inum name) = DEn.
Proof.
  unfold dirent_enc, pad_name. rewrite !length_app, le_enc_length, length_take, length_replicate.
  unfold DEn, DIRSIZ. lia.
Qed.

Lemma dirent_enc_byte inum name : Forall is_byte name → Forall is_byte (dirent_enc inum name).
Proof.
  intros Hn. unfold dirent_enc, pad_name. rewrite !Forall_app. split_and!.
  - apply le_enc_byte.
  - by apply Forall_take.
  - apply Forall_replicate. done.
Qed.

Lemma de_inum_enc inum name : (0 ≤ inum < 2 ^ 16)%Z → de_inum (dirent_enc inum name) = inum.
Proof.
  intros Hi. unfold de_inum, get16, dirent_enc. unfold bytes_at. rewrite drop_0, take_app_length' by done.
  rewrite le_dec_enc. apply Z.mod_small. done.
Qed.

Lemma de_name_enc inum name : de_name (dirent_enc inum name) = pad_name DIRSIZ name.
Proof.
  unfold de_name, dirent_enc, bytes_at. rewrite drop_app_length' by done.
  apply take_ge. unfold pad_name. rewrite length_app, length_take, length_replicate. lia.
Qed.

Lemma dir_match_enc inum name : (0 < inum < 2 ^ 16)%Z → 0%Z ∉ name →
  dir_match name (dirent_enc inum name).
Proof.
  intros Hi Hz. split; [by rewrite de_inum_enc by lia; lia|].
  unfold namecmp. rewrite de_name_enc. by apply strncmp_pad.
Qed.

Section dir_ops.
Context {T : Type} `{JournalSpec T}.
Implicit Types (t : T) (j : jstate) (sb : superblock) (ic : list inode).

(** Reading one entry. *)
Lemma readi_dirent (dr : Z → option (nat → Z → M (fstate T) (Z * list Z))) t j sb ic dp x k Q :
  jrep t j → fs_geo sb j → dir_ok sb j x → ic !! dp = Some x → j_held j = ∅ →
  size (j_log j) < NBUF → (Z.of_nat (DEn * k) < i_size x)%Z →
  (∀ t', jrep t' j → Q (DIRENTSZ, fbytes (j_view j) x (DEn * k) DEn) (FState t' sb ic)) →
  wp (readi dr dp (Z.of_nat (DEn * k)) DIRENTSZ) Q (FState t sb ic).
Proof.
  intros Hr Hg Hd Hip Hh Hroom Hk HQ. destruct (dirents_drop _ _ _ _ Hd Hk) as [_ Hle].
  pose proof (f_size _ _ _ (dir_file _ _ _ Hd)) as Hsz. change (MAXFILE * BSIZE)%Z with 71680%Z in Hsz.
  eapply wp_mono; [apply (readi_spec dr t j sb ic dp x); try done|].
  - exact (dir_file _ _ _ Hd).
  - by rewrite (dir_type _ _ _ Hd).
  - unfold is_u32. lia.
  - intros r s (t' & -> & Hr' & ->). unfold DIRENTSZ in *. rewrite decide_False by lia.
    cbv zeta. rewrite Z.min_l by lia. rewrite Nat2Z.id. by apply HQ.
Qed.

(** The two loops over the entries, from entry [k] on. *)
Lemma dirlookup_loop_spec dr t j sb ic dp x name fuel k Q :
  jrep t j → fs_geo sb j → dir_ok sb j x → ic !! dp = Some x → j_held j = ∅ →
  size (j_log j) < NBUF → length (dirents (j_view j) x) - k < fuel →
  (∀ t', jrep t' j → Q ((λ p, (Z.of_nat (DEn * (k + p.1)), de_inum p.2)) <$>
      list_find (dir_match name) (drop k (dirents (j_view j) x))) (FState t' sb ic)) →
  wp (dirlookup_loop dr fuel dp name (Z.of_nat (DEn * k))) Q (FState t sb ic).
Proof.
  intros Hr Hg Hd Hip Hh Hroom. revert t k Hr Q. induction fuel as [|fuel IH]; intros t k Hr Q Hfu HQ; [lia|].
  cbn [dirlookup_loop]. eapply wp_bind, wp_done; [by apply geti_done|].
  destruct (decide (Z.of_nat (DEn * k) < i_size x)%Z) as [Hlt|Hge].
  2:{ apply wp_ret. rewrite drop_ge in HQ; [by apply HQ|]. rewrite dirents_length.
      apply Nat.Div0.div_le_upper_bound. lia. }
  destruct (dirents_drop _ _ _ _ Hd Hlt) as [Hdrop Hle].
  apply wp_bind. eapply readi_dirent; [done..|]. intros t1 Hr1.
  apply wp_bind, wp_assert; [done|]. rewrite Hdrop in HQ. cbn [list_find] in HQ.
  set (de := fbytes _ x (DEn * k) DEn) in *. set (dl := drop (S k) _) in *.
  assert (Hnext : ¬ dir_match name de →
    wp (dirlookup_loop dr fuel dp name (Z.of_nat (DEn * k) + DIRENTSZ)) Q (FState t1 sb ic)).
  { intros Hno. replace (Z.of_nat (DEn * k) + DIRENTSZ)%Z with (Z.of_nat (DEn * S k))
      by (unfold DEn, DIRENTSZ; lia).
    apply IH; [done|apply (f_equal length) in Hdrop; rewrite length_drop in Hdrop; simpl in Hdrop; lia|].
    intros t' Hr'. specialize (HQ t' Hr'). rewrite decide_False in HQ by done.
    rewrite <-option_fmap_compose in HQ. fold dl.
    erewrite option_fmap_ext; [exact HQ|]. intros [i e]. simpl. do 3 f_equal. lia. }
  destruct (decide (de_inum de = 0%Z)) as [Hz|Hnz]; [apply Hnext; by intros [? _]|].
  destruct (decide (namecmp name (de_name de) = 0%Z)) as [Hm|Hm]; [|apply Hnext; by intros [_ ?]].
  apply wp_ret. specialize (HQ t1 Hr1). rewrite decide_True in HQ by done. simpl in HQ.
  by rewrite Nat.add_0_r in HQ.
Qed.

Lemma dirlink_loop_spec dr t j sb ic dp x fuel k Q :
  jrep t j → fs_geo sb j → dir_ok sb j x → ic !! dp = Some x → j_held j = ∅ →
  size (j_log j) < NBUF → k ≤ length (dirents (j_view j) x) → length (dirents (j_view j) x) - k < fuel →
  (∀ t', jrep t' j → Q (Z.of_nat (DEn * (k + free_slot (drop k (dirents (j_view j) x))))) (FState t' sb ic)) →
  wp (dirlink_loop dr fuel dp (Z.of_nat (DEn * k))) Q (FState t sb ic).
Proof.
  intros Hr Hg Hd Hip Hh Hroom. revert t k Hr Q. induction fuel as [|fuel IH]; intros t k Hr Q Hk Hfu HQ; [lia|].
  cbn [dirlink_loop]. eapply wp_bind, wp_done; [by apply geti_done|].
  destruct (decide (Z.of_nat (DEn * k) < i_size x)%Z) as [Hlt|Hge].
  2:{ apply wp_ret. rewrite drop_ge in HQ; [cbn [free_slot list_find length] in HQ; rewrite Nat.add_0_r in HQ; by apply HQ|].
      rewrite dirents_length. apply Nat.Div0.div_le_upper_bound. lia. }
  destruct (dirents_drop _ _ _ _ Hd Hlt) as [Hdrop Hle].
  apply wp_bind. eapply readi_dirent; [done..|]. intros t1 Hr1.
  apply wp_bind, wp_assert; [done|]. rewrite Hdrop in HQ. unfold free_slot in HQ. cbn [list_find] in HQ.
  set (de := fbytes _ x (DEn * k) DEn) in *. set (dl := drop (S k) _) in *.
  destruct (decide (de_inum de = 0%Z)) as [Hz|Hnz].
  { apply wp_ret. specialize (HQ t1 Hr1). simpl in HQ. by rewrite Nat.add_0_r in HQ. }
  replace (Z.of_nat (DEn * k) + DIRENTSZ)%Z with (Z.of_nat (DEn * S k)) by (unfold DEn, DIRENTSZ; lia).
  assert (Hlen : S (length dl) = length (dirents (j_view j) x) - k).
  { apply (f_equal length) in Hdrop. rewrite length_drop in Hdrop. simpl in Hdrop. lia. }
  apply IH; [done|lia|lia|]. intros t' Hr'. specialize (HQ t' Hr'). fold dl. unfold free_slot.
  destruct (list_find _ dl) as [[i e]|]; simpl in HQ |- *; by rewrite Nat.add_succ_r in HQ.
Qed.

Lemma dir_fuel_enough v x : (0 ≤ i_size x)%Z → length (dirents v x) - 0 < dir_fuel (i_size x).
Proof.
  intros Hs. rewrite dirents_length. unfold dir_fuel, DEn, DIRENTSZ.
  rewrite (Z2Nat.inj_div _ 16) by lia. change (Z.to_nat 16) with 16. lia.
Qed.

(** What a lookup does: nothing is found and nothing changes, or the entry
    is handed to [iget]. *)
Lemma dirlookup_spec dr t j sb ic dp x name :
  jrep t j → fs_geo sb j → dir_ok sb j x → ic !! dp = Some x → j_held j = ∅ → size (j_log j) < NBUF →
  ∃ t', jrep t' j ∧ dirlookup dr dp name (FState t sb ic) =
    match list_find (dir_match name) (dirents (j_view j) x) with
    | None => Done None (FState t' sb ic)
    | Some (k, de) =>
      (ip ← iget ROOTDEV (de_inum de); mret (Some (ip, Z.of_nat (DEn * k)))) (FState t' sb ic)
    end.
Proof.
  intros Hr Hg Hd Hip Hh Hroom. pose proof (dir_file _ _ _ Hd) as Hf.
  assert (Hwp : wp (dirlookup_loop dr (dir_fuel (i_size x)) dp name (Z.of_nat (DEn * 0)))
    (λ r s, ∃ t', jrep t' j ∧ s = FState t' sb ic ∧
       r = (λ p, (Z.of_nat (DEn * p.1), de_inum p.2)) <$> list_find (dir_match name) (dirents (j_view j) x))
    (FState t sb ic)).
  { eapply dirlookup_loop_spec; [done..| |by eauto].
    apply dir_fuel_enough, (f_size _ _ _ Hf). }
  apply wp_inv in Hwp as (r & s & Hrun & t' & Hr' & -> & ->). exists t'. split; [done|].
  unfold dirlookup. rewrite (run_bind _ _ _ _ _ (geti_done _ _ _ _ _ Hip)).
  rewrite (dir_type _ _ _ Hd), (f_dev _ _ _ Hf). rewrite (run_bind _ _ _ tt (FState t sb ic)) by done.
  rewrite (run_bind _ _ _ _ _ Hrun). by destruct (list_find _ _) as [[k de]|].
Qed.

(** The entry of the inode cache that [iget] uses. *)
Definition iget_slot (dev inum : Z) (ic : list inode) : option (nat * inode) :=
  match list_find (caches dev inum) ic with
  | Some p => Some p
  | None => prod_map id (set_iname dev inum) <$> list_find (λ x, i_ref x = 0%Z) ic
  end.

Lemma iget_run dev inum t sb ic :
  iget dev inum (FState t sb ic) =
    match iget_slot dev inum ic with
    | None => Panic "iget: no inodes"
    | Some (i, y) => Done i (FState t sb (<[i := set_iref (cached_ref dev inum ic + 1) y]> ic))
    end.
Proof.
  unfold iget, mbind, M_bind, mget, updi, mmodify, panic. simpl. rewrite iget_scan_spec.
  unfold iget_slot, cached_ref. destruct (list_find (caches dev inum) ic) as [[i y]|] eqn:Hc; simpl.
  - apply list_find_Some in Hc as (Hi & _ & _). by rewrite (list_alter_Some _ _ _ _ Hi).
  - destruct (list_find (λ x, i_ref x = 0%Z) ic) as [[i y]|] eqn:He; simpl; [|done].
    apply list_find_Some in He as (Hi & _ & _). by rewrite (list_alter_Some _ _ _ _ Hi).
Qed.

(** [iput] of a reference that is not the last one, or of an entry that is not
    loaded: it waits for the lock, then drops the reference. *)
Lemma iput_run pid t sb ic i y :
  ic !! i = Some y → i_valid y = 0%Z ∨ i_ref y ≠ 1%Z ∨ i_nlink y ≠ 0%Z →
  iput pid i (FState t sb ic) =
    if decide (sl_locked (i_lock y) = 0%Z)
    then Done tt (FState t sb (<[i := set_iref (i_ref y - 1) (set_ilock initsleeplock y)]> ic))
    else Wait (FState t sb ic).
Proof.
  intros Hi Hv. unfold iput. pose proof (lookup_lt_Some _ _ _ Hi) as Hlt. case_decide as Hl.
  - rewrite (run_bind _ _ _ _ _ (acquire_done pid _ _ _ _ _ Hi Hl)).
    assert (Hi2 : <[i := locked pid y]> ic !! i = Some (locked pid y)) by (by apply list_lookup_insert_eq).
    rewrite (run_bind _ _ _ _ _ (geti_done _ _ _ _ _ Hi2)).
    rewrite decide_False by (simpl; naive_solver).
    rewrite (run_bind (mret tt) _ _ tt (FState t sb (<[i := locked pid y]> ic))) by done.
    assert (Hrel : on_ilock i releasesleep (FState t sb (<[i := locked pid y]> ic)) =
      Done tt (FState t sb (<[i := set_ilock initsleeplock y]> ic))).
    { unfold on_ilock, zoom. simpl. rewrite (list_alter_Some _ _ _ _ Hi2), list_insert_insert_eq. by destruct y. }
    rewrite (run_bind _ _ _ _ _ Hrel).
    rewrite (updi_done i (set_ilock initsleeplock y)) by (by apply list_lookup_insert_eq).
    by rewrite list_insert_insert_eq.
  - apply run_wait. unfold on_ilock, zoom. simpl. rewrite (list_lookup_total_correct _ _ _ Hi).
    unfold acquiresleep. rewrite decide_False by done. simpl. rewrite (list_alter_Some _ _ _ _ Hi).
    do 2 f_equal. apply list_insert_id. rewrite Hi. by destruct y.
Qed.

Lemma iget_slot_ref dev inum ic i y : iget_slot dev inum ic = Some (i, y) →
  i < length ic ∧ (cached_ref dev inum ic = 0%Z ∧ i_valid y = 0%Z ∨ (0 < cached_ref dev inum ic)%Z).
Proof.
  unfold iget_slot, cached_ref. destruct (list_find (caches dev inum) ic) as [[k z]|] eqn:Hc.
  - intros ?; simplify_eq. apply list_find_Some in Hc as (Hi & Hr & _). unfold caches in Hr.
    split; [by eapply lookup_lt_Some|]. right. lia.
  - destruct (list_find (λ x, i_ref x = 0%Z) ic) as [[k z]|] eqn:He; simpl; intros ?; simplify_eq.
    apply list_find_Some in He as (Hi & _). split; [by eapply lookup_lt_Some|]. by left.
Qed.

(** A name that the directory already has. *)
Lemma dirlink_existing_spec (devsw_read : Z → option (nat → Z → M (fstate T) (Z * list Z)))
    (devsw_write : Z → option (nat → list Z → Z → M (fstate T) Z)) pid t j sb ic dp x name inum k de :
  jrep t j → fs_geo sb j → dir_ok sb j x → ic !! dp = Some x → j_held j = ∅ → size (j_log j) < NBUF →
  list_find (dir_match name) (dirents (j_view j) x) = Some (k, de) →
  ∃ t', jrep t' j ∧ dirlink pid devsw_read devsw_write dp name inum (FState t sb ic) =
    match iget_slot ROOTDEV (de_inum de) ic with
    | None => Panic "iget: no inodes"
    | Some (i, y) =>
      let n := cached_ref ROOTDEV (de_inum de) ic in
      if decide (sl_locked (i_lock y) = 0%Z)
      then Done (-1)%Z (FState t' sb (<[i := set_iref n (set_ilock initsleeplock y)]> ic))
      else Wait (FState t' sb (<[i := set_iref (n + 1) y]> ic))
    end.
Proof.
  intros Hr Hg Hd Hip Hh Hroom Hfind.
  destruct (dirlookup_spec devsw_read t j sb ic dp x name) as (t' & Hr' & Hrun); [done..|].
  rewrite Hfind in Hrun. exists t'. split; [done|]. unfold dirlink.
  destruct (iget_slot ROOTDEV (de_inum de) ic) as [[i y]|] eqn:Hslot.
  2:{ apply run_panic. rewrite Hrun. apply run_panic. by rewrite iget_run, Hslot. }
  destruct (iget_slot_ref _ _ _ _ _ Hslot) as [Hi Hn]. set (n := cached_ref ROOTDEV (de_inum de) ic) in *.
  set (y1 := set_iref (n + 1) y).
  assert (Hi1 : <[i := y1]> ic !! i = Some y1) by (by apply list_lookup_insert_eq).
  assert (Hget : iget ROOTDEV (de_inum de) (FState t' sb ic) = Done i (FState t' sb (<[i := y1]> ic))).
  { by rewrite iget_run, Hslot. }
  rewrite (run_bind _ _ _ _ _ Hget) in Hrun. rewrite (run_bind _ _ _ _ _ Hrun).
  assert (Hv1 : i_valid y1 = 0%Z ∨ i_ref y1 ≠ 1%Z ∨ i_nlink y1 ≠ 0%Z).
  { simpl. destruct Hn as [[-> ?]|?]; [by left|right; lia]. }
  pose proof (iput_run pid t' sb _ i y1 Hi1 Hv1) as Hput. change (i_lock y1) with (i_lock y) in Hput.
  cbv zeta. case_decide as Hl.
  - rewrite (run_bind _ _ _ _ _ Hput).
    unfold mret, M_ret. rewrite list_insert_insert_eq. do 3 f_equal. unfold y1, set_iref. simpl. f_equal. lia.
  - by apply run_wait.
Qed.

(** The entries after [writei] wrote one of them. *)
Lemma written_dirents sb j j' x x' k de :
  dir_ok sb j x → k ≤ length (dirents (j_view j) x) → length de = DEn →
  written sb j j' x x' (DEn * k) DEn de →
  dir_ok sb j' x' ∧ dirents (j_view j') x' = link_at k de (dirents (j_view j) x).
Proof.
  intros Hd Hk Hde W. pose proof (f_size _ _ _ (dir_file _ _ _ Hd)) as Hsz.
  pose proof (dir_size _ _ _ Hd) as Hmod. pose proof (wr_size _ _ _ _ _ _ _ _ W) as Hs'.
  rewrite dirents_length in Hk.
  set (m := Z.to_nat (i_size x) `div` DEn) in *.
  assert (Hm : i_size x = Z.of_nat (DEn * m)).
  { unfold m, DEn, DIRENTSZ in *. pose proof (Nat.div_mod (Z.to_nat (i_size x)) 16 ltac:(lia)).
    assert (Z.to_nat (i_size x) `mod` 16 = 0); [|lia].
    apply Nat2Z.inj. rewrite Nat2Z.inj_mod, Z2Nat.id by lia. exact Hmod. }
  assert (Hm' : i_size x' = Z.of_nat (DEn * Nat.max m (S k))) by (unfold DEn in *; lia).
  split.
  - constructor; [apply W| |].
    + rewrite (wr_same _ _ _ _ _ _ _ _ W). apply Hd.
    + rewrite Hm'. unfold DIRENTSZ, DEn. rewrite Nat2Z.inj_mul, Z.mul_comm. apply Z_mod_mult.
  - apply list_eq. intros i. rewrite link_at_lookup by (by rewrite dirents_length).
    rewrite !dirents_lookup. fold m.
    assert (Hq : Z.to_nat (i_size x') `div` DEn = Nat.max m (S k)).
    { rewrite Hm', Nat2Z.id, Nat.mul_comm. by apply Nat.div_mul. }
    rewrite Hq. destruct (decide (i < Nat.max m (S k))) as [Hi|Hi].
    2:{ rewrite !decide_False by lia. done. }
    assert (Hb : ∀ n, n < DEn → fbyte (j_view j') x' (DEn * i + n) =
      if decide (i = k) then de !!! n else fbyte (j_view j) x (DEn * i + n)).
    { intros n Hn. rewrite (wr_bytes _ _ _ _ _ _ _ _ W) by (unfold DEn in *; lia).
      destruct (decide (i = k)) as [->|Hne].
      - rewrite decide_True by lia. f_equal. lia.
      - rewrite decide_False; [done|]. unfold DEn in *. lia. }
    case_decide as Hik.
    + f_equal. subst i. apply list_eq_same_length with DEn; [done|by unfold fbytes; rewrite length_fmap, length_seq|].
      intros n y z Hn Hy Hz. unfold fbytes in Hy. rewrite list_lookup_fmap, lookup_seq_lt in Hy by done.
      simpl in Hy. rewrite Hb in Hy by done. simplify_eq. by rewrite (list_lookup_total_correct _ _ _ Hz).
    + rewrite decide_True by lia. f_equal. unfold fbytes. apply list_fmap_ext.
      intros n y Hy%lookup_seq. by apply Hb; lia.
Qed.

(** A new name. *)
Lemma dirlink_new_spec (devsw_read : Z → option (nat → Z → M (fstate T) (Z * list Z)))
    (devsw_write : Z → option (nat → list Z → Z → M (fstate T) Z)) pid t j sb ic dp x name inum :
  jrep t j → fs_geo sb j → dir_ok sb j x → ic !! dp = Some x → j_held j = ∅ →
  list_find (dir_match name) (dirents (j_view j) x) = None →
  (0 < inum < 2 ^ 16)%Z → Forall is_byte name → 0%Z ∉ name →
  (0 ≤ i_inum x < sb_ninodes sb)%Z → dinode_ok (inode_dinode x) →
  (i_size x + DIRENTSZ ≤ MAXFILE * BSIZE)%Z →
  4 ≤ nfree (j_view j) sb → size (j_log j) + 13 ≤ j_cap j →
  wp (dirlink pid devsw_read devsw_write dp name inum) (λ r s, r = 0%Z ∧ ∃ t' j' x',
    s = FState t' sb (<[dp := x']> ic) ∧ jrep t' j' ∧ dir_ok sb j' x' ∧
    let des := dirents (j_view j) x in let k := free_slot des in
    let de := dirent_enc inum name in
    written sb j j' x x' (DEn * k) DEn de ∧
    dirents (j_view j') x' = link_at k de des ∧ de_inum de = inum ∧
    list_find (dir_match name) (dirents (j_view j') x') = Some (k, de) ∧
    (∀ other, namecmp other (de_name de) ≠ 0%Z →
      list_find (dir_match other) (dirents (j_view j') x') = list_find (dir_match other) des))
    (FState t sb ic).
Proof.
  intros Hr Hg Hd Hip Hh Hfind Hinum Hby Hz Hi Hdok Hmax Hnf Hcap. pose proof (j_cap_le j) as Hcl.
  set (des := dirents (j_view j) x) in *. set (k := free_slot des). set (de := dirent_enc inum name).
  assert (Hroom : size (j_log j) < NBUF) by lia.
  destruct (free_slot_spec des) as [Hk Hfree]. fold k in Hk, Hfree.
  pose proof (f_size _ _ _ (dir_file _ _ _ Hd)) as Hsz.
  assert (Hoff : (Z.of_nat (DEn * k) ≤ i_size x)%Z).
  { unfold des in Hk. rewrite dirents_length in Hk. pose proof (Nat.Div0.mul_div_le (Z.to_nat (i_size x)) DEn).
    apply (Nat.mul_le_mono_l _ _ DEn) in Hk. lia. }
  destruct (dirlookup_spec devsw_read t j sb ic dp x name) as (t1 & Hr1 & Hrun); [done..|].
  fold des in Hrun. rewrite Hfind in Hrun. unfold dirlink. eapply wp_bind, wp_done; [exact Hrun|].
  eapply wp_bind, wp_done; [by apply geti_done|]. apply wp_bind. change 0%Z with (Z.of_nat (DEn * 0)) at 1.
  eapply dirlink_loop_spec; [exact Hr1|done|done|done|done|done|lia|apply dir_fuel_enough; lia|].
  intros t2 Hr2. rewrite drop_0. fold des k. simpl (0 + k). apply wp_bind.
  change (MAXFILE * BSIZE)%Z with 71680%Z in *. unfold DIRENTSZ in *.
  eapply wp_mono; [eapply wpe_wp; [apply (writei_spec devsw_write t2 j sb ic dp x); try done|]|].
  - exact (dir_file _ _ _ Hd).
  - by rewrite (dir_type _ _ _ Hd).
  - unfold is_u32. lia.
  - by rewrite dirent_enc_length.
  - by apply dirent_enc_byte.
  - unfold write_room. change (io_blocks 16) with 2. lia.
  - intros e [_ He]. change (io_blocks 16) with 2 in He. lia.
  - intros r s. cbv beta. rewrite decide_False by (change (MAXFILE * BSIZE)%Z with 71680%Z; lia).
    rewrite Nat2Z.id. intros (-> & t3 & j3 & x3 & -> & Hr3 & W). apply wp_bind, wp_assert; [done|].
    apply wp_ret. split; [done|]. exists t3, j3, x3. split_and!; [done|done|..].
    all: destruct (written_dirents sb j j3 x x3 k de) as [Hd3 Hde3];
      [done|done|apply dirent_enc_length|exact W|]; try done; rewrite ?Hde3.
    + apply de_inum_enc. lia.
    + apply list_find_link; [done| |by apply dir_match_enc|done]. intros d Hd0 [Hn _]. by apply Hn, Hfree.
    + intros other Hne. apply list_find_link; [done| |by intros [_ ?]]. intros d Hd0 [Hn _]. by apply Hn, Hfree.
Qed.

(** C10. Directories. [dirlookup] finds the first entry in use whose name agrees
    with [name] in [DIRSIZ] characters, and returns its byte offset and a
    reference to its inode from [iget]; without such an entry it returns 0. The
    search terminates, and the disk and the directory are unchanged.
    [dirlink], in a transaction with room for it. A new name: it returns 0
    and the directory has one entry more, in its first free slot or at its end; a
    lookup of the name now finds the inode number, lookups of other names find
    what they found before, and no block of another file changes. A name that
    the directory already has: it adds no entry, leaves the disk unchanged, and
    returns -1 with the references of the inode as before; it has to lock that
    inode to drop its reference, and waits if the inode is locked. If the name is
    an entry of the directory for itself, the inode is the one that the caller
    has locked: the process sleeps forever. *)
Theorem directory_correct (devsw_read : Z → option (nat → Z → M (fstate T) (Z * list Z)))
    (devsw_write : Z → option (nat → list Z → Z → M (fstate T) Z)) pid t j sb ic dp x name inum :
  jrep t j → fs_geo sb j → dir_ok sb j x → ic !! dp = Some x → j_held j = ∅ → size (j_log j) < NBUF →
  (∃ t', jrep t' j ∧ dirlookup devsw_read dp name (FState t sb ic) =
    match list_find (dir_match name) (dirents (j_view j) x) with
    | None => Done None (FState t' sb ic)
    | Some (k, de) => (ip ← iget ROOTDEV (de_inum de); mret (Some (ip, Z.of_nat (DEn * k)))) (FState t' sb ic)
    end) ∧
  match list_find (dir_match name) (dirents (j_view j) x) with
  | Some (k, de) =>
    ∃ t', jrep t' j ∧ dirlink pid devsw_read devsw_write dp name inum (FState t sb ic) =
      match iget_slot ROOTDEV (de_inum de) ic with
      | None => Panic "iget: no inodes"
      | Some (i, y) =>
        let n := cached_ref ROOTDEV (de_inum de) ic in
        if decide (sl_locked (i_lock y) = 0%Z)
        then Done (-1)%Z (FState t' sb (<[i := set_iref n (set_ilock initsleeplock y)]> ic))
        else Wait (FState t' sb (<[i := set_iref (n + 1) y]> ic))
      end
  | None =>
    (0 < inum < 2 ^ 16)%Z → Forall is_byte name → 0%Z ∉ name →
    (0 ≤ i_inum x < sb_ninodes sb)%Z → dinode_ok (inode_dinode x) →
    (i_size x + DIRENTSZ ≤ MAXFILE * BSIZE)%Z →
    4 ≤ nfree (j_view j) sb → size (j_log j) + 13 ≤ j_cap j →
    wp (dirlink pid devsw_read devsw_write dp name inum) (λ r s, r = 0%Z ∧ ∃ t' j' x',
      s = FState t' sb (<[dp := x']> ic) ∧ jrep t' j' ∧ dir_ok sb j' x' ∧
      let des := dirents (j_view j) x in let k := free_slot des in
      let de := dirent_enc inum name in
      written sb j j' x x' (DEn * k) DEn de ∧
      dirents (j_view j') x' = link_at k de des ∧ de_inum de = inum ∧
      list_find (dir_match name) (dirents (j_view j') x') = Some (k, de) ∧
      (∀ other, namecmp other (de_name de) ≠ 0%Z →
        list_find (dir_match other) (dirents (j_view j') x') = list_find (dir_match other) des))
      (FState t sb ic)
  end.
Proof.
  intros Hr Hg Hd Hip Hh Hroom. split; [by apply dirlookup_spec|]. destruct (list_find _ _) as [[k de]|] eqn:Hf.
  - by eapply dirlink_existing_spec.
  - intros. by apply dirlink_new_spec.
Qed.

End dir_ops.

(** ** Witnesses *)

Definition demo_dirnode : inode :=
  load_dinode demo_root (Inode ROOTDEV 1 1 (Sleeplock 1 1) 1 0 0 0 0 0 []).

Lemma demo_dir_faddr bn : bn < MAXFn →
  faddr demo_image demo_dirnode bn = if decide (bn = 0) then 35%Z else 0%Z.
Proof.
  intros Hbn. unfold faddr, ind_addr. simpl i_addrs. pose proof NDn_Z as HN. change NDIRECT with 12%Z in HN.
  assert (NDn = 12) as -> by lia. rewrite (decide_True (P := _ = 0%Z)) by reflexivity.
  destruct bn as [|bn]; [reflexivity|]. rewrite (decide_False (P := S bn = _)) by lia.
  case_decide as Hlt; [|done]. do 11 (destruct bn as [|bn]; [reflexivity|]). lia.
Qed.

Lemma demo_dir_ok : dir_ok demo_sb demo_j demo_dirnode.
Proof.
  constructor; [|reflexivity|reflexivity]. constructor.
  - reflexivity.
  - split; [reflexivity|]. simpl i_addrs. repeat constructor; unfold is_u32; lia.
  - simpl i_size. change (MAXFILE * BSIZE)%Z with 71680%Z. lia.
  - change (j_view demo_j) with demo_image. simpl i_size.
    assert (Hind : ind_addr demo_dirnode = 0%Z) by (vm_compute; reflexivity). rewrite Hind.
    constructor; [|done|done| |].
    + intros bn Hbn. change (j_view demo_j) with demo_image. rewrite demo_dir_faddr by done.
      case_decide; intros; [apply demo_data_block; lia|done].
    + intros bn bn' Hbn Hbn'. rewrite !demo_dir_faddr by done. repeat case_decide; intros; lia.
    + intros bn Hbn Hlt. rewrite demo_dir_faddr by done. case_decide; [done|].
      change BSIZE with 512%Z in Hlt. simpl in Hlt. lia.
Qed.

Lemma demo_room : size (j_log demo_j) < NBUF.
Proof. destruct demo_sizes as (Hl & Hh & Hc & HN). rewrite Hl, HN. lia. Qed.

Lemma demo_root_ok : dinode_ok (inode_dinode demo_dirnode).
Proof.
  constructor; simpl; unfold is_s16, is_u32, T_DIR; [lia..|].
  split; [reflexivity|]. repeat constructor; unfold is_u32; lia.
Qed.

(** The name [f] is found at offset 32, as inode 2; a new name [g] for inode 2; and a name for [.] in the locked root directory:
    the process waits for the lock that it holds. *)
Lemma directory_correct_witness :
  (∃ t', dirlookup (λ _, None) 0 [102%Z] (FState demo_t demo_sb [demo_dirnode; demo_inode]) =
    Done (Some (1, 32%Z)) (FState t' demo_sb [demo_dirnode; set_iref 2 demo_inode])) ∧
  (∃ t' j' x', dirlink 1 (λ _, None) (λ _, None) 0 [103%Z] 2 (FState demo_t demo_sb [demo_dirnode]) =
      Done 0%Z (FState t' demo_sb [x']) ∧ i_size x' = 64%Z ∧
    list_find (dir_match [103%Z]) (dirents (j_view j') x') = Some (3, dirent_enc 2 [103%Z])) ∧
  (∃ s', dirlink 1 (λ _, None) (λ _, None) 0 [46%Z] 2 (FState demo_t demo_sb [demo_dirnode; demo_inode]) = Wait s' ∧
    (i_lock <$> fs_icache s' !! 0) = Some (Sleeplock 1 1)).
Proof.
  split_and!.
  - destruct (directory_correct (λ _, None) (λ _, None) 1 demo_t demo_j demo_sb [demo_dirnode; demo_inode] 0 demo_dirnode
      [102%Z] 2 demo_jrep demo_geo demo_dir_ok eq_refl eq_refl demo_room) as [(t' & _ & Hrun) _]. exists t'. rewrite Hrun.
    assert (list_find (dir_match [102%Z]) (dirents (j_view demo_j) demo_dirnode) = Some (2, dirent_enc 2 [102%Z])) as -> by (vm_compute; reflexivity).
    reflexivity.
  - assert (Hz : 0%Z ∉ [103%Z]) by set_solver. assert (Hi : (0 < 2 < 2 ^ 16)%Z) by lia.
    assert (Hr : (0 ≤ i_inum demo_dirnode < sb_ninodes demo_sb)%Z) by (simpl; lia). destruct demo_sizes as (Hl & Hh & Hc & HN).
    assert (Hnf : 4 ≤ nfree (j_view demo_j) demo_sb).
    { assert (nfree (j_view demo_j) demo_sb = 10) as -> by (vm_compute; reflexivity). lia. }
    assert (Hcap : size (j_log demo_j) + 13 ≤ j_cap demo_j) by (rewrite Hl, Hc; lia).
    assert (Hby : Forall is_byte [103]%Z) by (repeat constructor; lia).
    assert (Hmax : (i_size demo_dirnode + DIRENTSZ ≤ MAXFILE * BSIZE)%Z).
    { change (MAXFILE * BSIZE)%Z with 71680%Z. unfold DIRENTSZ. simpl. lia. }
    pose proof (directory_correct (λ _, None) (λ _, None) 1 demo_t demo_j demo_sb [demo_dirnode] 0 demo_dirnode
      [103%Z] 2 demo_jrep demo_geo demo_dir_ok eq_refl eq_refl demo_room) as [_ Hwp].
    assert (Hf : list_find (dir_match [103%Z]) (dirents (j_view demo_j) demo_dirnode) = None) by (vm_compute; reflexivity). rewrite Hf in Hwp.
    specialize (Hwp Hi Hby Hz Hr demo_root_ok Hmax Hnf Hcap).
    apply wp_inv in Hwp as (r & s & Hrun & -> & t' & j' & x' & -> & _ & _ & Hpost).
    assert (Hk : free_slot (dirents (j_view demo_j) demo_dirnode) = 3) by (vm_compute; reflexivity).
    cbv zeta in Hpost. rewrite Hk in Hpost. destruct Hpost as (W & _ & _ & Hf' & _).
    exists t', j', x'. split_and!; [exact Hrun| |exact Hf'].
    rewrite (wr_size _ _ _ _ _ _ _ _ W). reflexivity.
  - pose proof (directory_correct (λ _, None) (λ _, None) 1 demo_t demo_j demo_sb [demo_dirnode; demo_inode]
      0 demo_dirnode [46%Z] 2 demo_jrep demo_geo demo_dir_ok eq_refl eq_refl demo_room) as [_ Hwp].
    assert (Hf : list_find (dir_match [46%Z]) (dirents (j_view demo_j) demo_dirnode) = Some (0, dirent_enc 1 [46%Z])) by (vm_compute; reflexivity).
    rewrite Hf in Hwp. destruct Hwp as (t' & _ & Hrun). eexists. split; [exact Hrun|reflexivity].
Defined.
