(* ===== verification/FsTrunc.v ===== *)
(** * Freeing and allocating inodes (fs.c [itrunc], [iput], [ialloc])

    The blocks of a file are its mapped blocks and the indirect block. [itrunc]
    frees them, [iput] drops a reference and with the last one an inode without
    links, [ialloc] takes a free inode. *)

From S2P Require Import Prelude Params Sleeplock Bio Super CString Log LogProof Journal Fs FsDemo FsBlocks FsInode FsFile FsDir.

(** ** The blocks of a file *)

Definition nonzero (l : list Z) : list nat := Z.to_nat <$> filter (λ a, a ≠ 0%Z) l.
Definition file_blocks (v : list block) (x : inode) : list nat :=
  nonzero (faddr v x <$> seq 0 MAXFn) ++ nonzero [ind_addr x].
Definition uses (v : list block) (x : inode) (a : Z) : Prop :=
  a ≠ 0%Z ∧ ((∃ bn, bn < MAXFn ∧ faddr v x bn = a) ∨ ind_addr x = a).

Lemma nonzero_snoc l a : nonzero (l ++ [a]) = nonzero l ++ nonzero [a].
Proof. unfold nonzero. by rewrite filter_app, fmap_app. Qed.

Lemma nonzero_single a : nonzero [a] = if decide (a = 0%Z) then [] else [Z.to_nat a].
Proof. unfold nonzero. rewrite filter_cons, filter_nil. repeat case_decide; done. Qed.

Lemma elem_of_nonzero b l : b ∈ nonzero l ↔ ∃ a, a ∈ l ∧ a ≠ 0%Z ∧ b = Z.to_nat a.
Proof. unfold nonzero. rewrite list_elem_of_fmap. setoid_rewrite list_elem_of_filter. naive_solver. Qed.

Lemma elem_of_file_blocks sb j x b : file_ok sb j x → b ∈ file_blocks (j_view j) x ↔ uses (j_view j) x (Z.of_nat b).
Proof.
  intros Hf. unfold file_blocks, uses. rewrite elem_of_app, !elem_of_nonzero.
  setoid_rewrite list_elem_of_fmap. setoid_rewrite elem_of_seq. setoid_rewrite list_elem_of_singleton. split.
  - intros [(a & (bn & -> & Hbn) & Hne & ->)|(a & -> & Hne & ->)].
    + destruct (m_data _ _ _ _ _ (f_map _ _ _ Hf) bn ltac:(lia) Hne) as [Hp _]. rewrite Z2Nat.id by done. split; [done|]. left. exists bn. split; [lia|done].
    + destruct (m_ind _ _ _ _ _ (f_map _ _ _ Hf) Hne) as [Hp _]. rewrite Z2Nat.id by done. split; [done|by right].
  - intros [Hne [(bn & Hbn & Ha)|Ha]]; [left; exists (faddr (j_view j) x bn)|right; exists (ind_addr x)]; rewrite Ha, Nat2Z.id; [|done].
    split; [|done]. exists bn. split; [done|lia].
Qed.

Lemma file_block_data sb j x b : file_ok sb j x → b ∈ file_blocks (j_view j) x → data_block sb j (Z.of_nat b).
Proof.
  intros Hf. rewrite (elem_of_file_blocks sb) by done. intros [Hne [(bn & Hbn & Ha)|Ha]]; rewrite <-Ha in *; [by apply (m_data _ _ _ _ _ (f_map _ _ _ Hf))|by apply (m_ind _ _ _ _ _ (f_map _ _ _ Hf))].
Qed.

Lemma mapped_NoDup sb j x n : file_ok sb j x → n ≤ MAXFn → NoDup (nonzero (faddr (j_view j) x <$> seq 0 n)).
Proof.
  intros Hf. pose proof (f_map _ _ _ Hf) as Hm. induction n as [|n IH]; intros Hn; [constructor|].
  rewrite seq_S, fmap_app. change (faddr (j_view j) x <$> [0 + n]) with [faddr (j_view j) x n]. rewrite nonzero_snoc, nonzero_single.
  case_decide as Hz; [rewrite app_nil_r; apply IH; lia|]. apply NoDup_app. split; [apply IH; lia|]. split; [|apply NoDup_singleton].
  intros b (a & Ha & Hne & ->)%elem_of_nonzero He%list_elem_of_singleton. apply list_elem_of_fmap in Ha as (k & -> & Hk%elem_of_seq).
  destruct (m_data _ _ _ _ _ Hm k ltac:(lia) Hne) as [Hp _]. destruct (m_data _ _ _ _ _ Hm n ltac:(lia) Hz) as [Hp' _].
  assert (k = n); [|lia]. apply (m_inj _ _ _ _ _ Hm); [lia|lia|done|]. by apply Z2Nat.inj.
Qed.

Lemma file_blocks_NoDup sb j x : file_ok sb j x → NoDup (file_blocks (j_view j) x).
Proof.
  intros Hf. pose proof (f_map _ _ _ Hf) as Hm. unfold file_blocks. rewrite nonzero_single. apply NoDup_app. split; [by eapply mapped_NoDup|].
  case_decide as Hz; [split; [intros ? _ ?%elem_of_nil; done|constructor]|]. split; [|apply NoDup_singleton].
  intros b (a & Ha & Hne & ->)%elem_of_nonzero He%list_elem_of_singleton. apply list_elem_of_fmap in Ha as (k & -> & Hk%elem_of_seq).
  destruct (m_data _ _ _ _ _ Hm k ltac:(lia) Hne) as [Hp _]. destruct (m_ind _ _ _ _ _ Hm Hz) as [Hp' _].
  apply (m_ind_sep _ _ _ _ _ Hm k ltac:(lia) Hz). by apply Z2Nat.inj.
Qed.

(** ** Freeing blocks *)

Lemma bm_meta sb start sz b : b ∈ bm_set sb → is_meta sb start sz b.
Proof. unfold bm_set, nbm. rewrite elem_of_set_seq. intros Hb. right. right. right. unfold bmblk. lia. Qed.

(** The disk after the blocks [bs] were freed. *)
Record freed (sb : superblock) (bs : list nat) (j j' : jstate) : Prop := {
  fr_geo : fs_geo sb j';
  fr_free b : isfree (j_view j') sb b = isfree (j_view j) sb b || bool_decide (b ∈ bs);
  fr_view b : b ∉ bm_set sb → j_view j' !! b = j_view j !! b;
  fr_log : j_log j ⊆ j_log j' ∧ j_log j' ⊆ j_log j ∪ bm_set sb;
  fr_held : j_held j' = j_held j;
  fr_base : j_base j' = j_base j;
  fr_area : j_start j' = j_start j ∧ j_size j' = j_size j
}.

Lemma freed_nil sb j : fs_geo sb j → freed sb [] j j.
Proof.
  intros Hg. constructor; try done; [|set_solver]. intros b. rewrite bool_decide_false by apply not_elem_of_nil. by rewrite orb_false_r.
Qed.

Lemma freed_size sb bs j j' : freed sb bs j j' → size (j_log j') ≤ size (j_log j) + nbm sb.
Proof.
  intros [_ _ _ [_ Hl] _ _ _]. apply subseteq_size in Hl. rewrite <-(size_set_seq (C := gset nat) (Z.to_nat (sb_bmapstart sb)) (nbm sb)).
  fold (bm_set sb). pose proof (size_union_alt (j_log j) (bm_set sb)). pose proof (subseteq_size (bm_set sb ∖ j_log j) (bm_set sb) ltac:(set_solver)). lia.
Qed.

Lemma freed_cap sb bs j j' : freed sb bs j j' → j_cap j' = j_cap j.
Proof. intros H. unfold j_cap. by rewrite (proj2 (fr_area _ _ _ _ H)). Qed.

Lemma freed_meta sb bs j j' b : freed sb bs j j' → is_meta sb (j_start j') (j_size j') b ↔ is_meta sb (j_start j) (j_size j) b.
Proof. intros H. by destruct (fr_area _ _ _ _ H) as [-> ->]. Qed.

Lemma freed_held_ok sb bs j j' : freed sb bs j j' → (∀ h b, j_held j !! h = Some b → b ∉ bs) → held_ok sb j → held_ok sb j'.
Proof.
  intros H Hn Hh h b. destruct (fr_area _ _ _ _ H) as [-> ->]. rewrite (fr_held _ _ _ _ H), (fr_free _ _ _ _ H). intros Hb.
  destruct (Hh h b Hb) as [-> Hm]. split; [|done]. by rewrite bool_decide_false by by eapply Hn.
Qed.

Section trunc.
Context {T : Type} `{JournalSpec T}.
Implicit Types (t : T).

Lemma freed_step t sb bs j j' b : jrep t j' → freed sb bs j j' → b < nblk sb → ¬ is_meta sb (j_start j) (j_size j) b →
  freed sb (bs ++ [b]) j (j_free sb b j').
Proof.
  intros Hr Hf Hb Hm. pose proof Hf as [Hg Hfr Hv [Hl Hl'] Hh Hba Har]. pose proof (bmblk_bm _ _ Hb) as Hbm. constructor; try done.
  - eapply fs_geo_free; [done..|]. by rewrite (freed_meta _ _ _ _ _ Hf).
  - intros c. erewrite isfree_free by done. rewrite Hfr. destruct (decide (b = c)) as [->|Hne].
    + rewrite (bool_decide_true (c ∈ bs ++ [c])) by set_solver. by rewrite orb_true_r.
    + f_equal. apply bool_decide_ext. rewrite elem_of_app, list_elem_of_singleton. naive_solver.
  - intros c Hc. simpl. rewrite list_lookup_insert_ne by (by intros <-). by apply Hv.
  - simpl. set_solver.
Qed.

(** One call of [bfree] on a block of the file. *)
Lemma bfree_step t sb ic bs j j' b Q :
  jrep t j' → freed sb bs j j' → held_ok sb j → (∀ h c, j_held j !! h = Some c → c ∉ bs) →
  size (j_log j) + nbm sb + size (j_held j) < j_cap j → data_block sb j (Z.of_nat b) → b ∉ bs →
  (∀ t', jrep t' (j_free sb b j') → freed sb (bs ++ [b]) j (j_free sb b j') → Q tt (FState t' sb ic)) →
  wp (bfree ROOTDEV (Z.of_nat b)) Q (FState t sb ic).
Proof.
  intros Hr Hf Hh Hn Hcap (_ & Hlt & Hfr & Hm) Hb HQ. rewrite Nat2Z.id in *. pose proof (freed_size _ _ _ _ Hf).
  pose proof (freed_cap _ _ _ _ Hf). pose proof (j_cap_le j').
  eapply bfree_spec; [exact Hr|apply Hf|by eapply freed_held_ok|done| |lia| |].
  - rewrite (fr_held _ _ _ _ Hf). lia.
  - rewrite (fr_free _ _ _ _ Hf), Hfr, bool_decide_false by done. done.
  - intros t' Hr'. apply HQ; [done|]. by eapply freed_step.
Qed.

(** A buffer that is read and released during the frees. *)
Lemma freed_release sb bs j j' h b : j_held j !! h = None → freed sb bs (j_acquire h b j) j' → freed sb bs j (j_release h j').
Proof.
  intros Hn [Hg Hfr Hv Hl Hh Hba Har]. constructor; try done; [by destruct Hg|]. simpl in *. rewrite Hh. by rewrite delete_insert_id.
Qed.

Lemma freed_clean sb bs j j' b : freed sb bs j j' → b ∉ bm_set sb → j_clean b j → j_clean b j'.
Proof.
  intros [_ _ Hv [Hl _] _ Hba _] Hb [Hc|Hc]; [left; set_solver|right]. rewrite Hba, Hv by done. done.
Qed.

(** *** The loops of [itrunc] *)

Section loops.
Context (sb : superblock) (j : jstate) (ic : list inode) (ip : nat) (x : inode).
Hypothesis Hgeo : fs_geo sb j.
Hypothesis Hfile : file_ok sb j x.
Hypothesis Hx : ic !! ip = Some x.
Hypothesis Hheld : j_held j = ∅.
Hypothesis Hcap : size (j_log j) + nbm sb + 1 < j_cap j.

Definition cut (k : nat) : inode := set_addrs (replicate k 0%Z ++ drop k (i_addrs x)) x.
Definition front (n : nat) : list nat := nonzero (faddr (j_view j) x <$> seq 0 n).

Lemma front_S n : front (S n) = front n ++ nonzero [faddr (j_view j) x n].
Proof. unfold front. rewrite seq_S, fmap_app. apply nonzero_snoc. Qed.

Lemma front_next n a : n < MAXFn → faddr (j_view j) x n = a → a ≠ 0%Z →
  front (S n) = front n ++ [Z.to_nat a] ∧ (Z.to_nat a ∉ front n) ∧ data_block sb j a.
Proof.
  intros Hn Ha Hz. pose proof (mapped_NoDup sb j x (S n) Hfile ltac:(lia)) as Hnd. fold (front (S n)) in Hnd.
  rewrite front_S, Ha, nonzero_single, decide_False in * by done. split; [done|]. apply NoDup_app in Hnd as (_ & Hs & _).
  split; [intros Hin; by eapply Hs, list_elem_of_singleton|]. rewrite <-Ha in *. by apply (m_data _ _ _ _ _ (f_map _ _ _ Hfile)).
Qed.

Lemma front_zero n : faddr (j_view j) x n = 0%Z → front (S n) = front n.
Proof. intros Ha. by rewrite front_S, Ha, nonzero_single, decide_True, app_nil_r. Qed.

Lemma cut_addr k : k < NADDRS → i_addrs (cut k) !!! k = i_addrs x !!! k ∧ set_iaddr k 0 (cut k) = cut (S k).
Proof.
  intros Hk. pose proof (f_addrs _ _ _ Hfile) as [Hl _]. unfold cut. cbn [i_addrs set_addrs]. split.
  - rewrite list_lookup_total_alt, lookup_app_r by (rewrite length_replicate; lia). rewrite length_replicate, Nat.sub_diag, lookup_drop, Nat.add_0_r.
    by rewrite <-list_lookup_total_alt.
  - unfold set_iaddr, set_addrs. cbn. f_equal. rewrite insert_app_r_alt by (rewrite length_replicate; lia). rewrite length_replicate, Nat.sub_diag.
    destruct (lookup_lt_is_Some_2 (i_addrs x) k ltac:(lia)) as [a Ha]. rewrite (drop_S _ _ _ Ha). cbn [insert list_insert].
    change (0%Z :: replicate k 0%Z ++ ?l) with (replicate (S k) 0%Z ++ l). by rewrite replicate_S_end, <-app_assoc.
Qed.

Lemma cut_same k : k < NADDRS → i_addrs x !!! k = 0%Z → cut k = cut (S k).
Proof.
  intros Hk Hz. destruct (cut_addr k Hk) as [Ha <-]. unfold set_iaddr, cut, set_addrs in *. cbn in *. f_equal. symmetry. apply list_insert_id.
  rewrite Hz in Ha. rewrite <-Ha at 2. apply list_lookup_lookup_total_lt. pose proof (f_addrs _ _ _ Hfile) as [Hl _]. rewrite length_app, length_replicate, length_drop. lia.
Qed.

Lemma itrunc_direct t : jrep t j → ∀ Q : unit → fstate T → Prop,
  (∀ t' j', jrep t' j' → freed sb (front NDn) j j' → Q tt (FState t' sb (<[ip := cut NDn]> ic))) →
  wp (mfor (seq 0 (Z.to_nat NDIRECT)) (λ i,
    x ← geti ip;
    if decide (i_addrs x !!! i ≠ 0%Z) then
      bfree (i_dev x) (i_addrs x !!! i);;
      updi ip (set_iaddr i 0)
    else mret tt)) Q (FState t sb ic).
Proof.
  intros Hr Q HQ. pose proof (lookup_lt_Some _ _ _ Hx) as Hlt. change (Z.to_nat NDIRECT) with NDn.
  eapply (wp_mfor_seq (λ k s, ∃ t' j', s = FState t' sb (<[ip := cut k]> ic) ∧ jrep t' j' ∧ freed sb (front k) j j')).
  - exists t, j. split; [|split; [done|by apply freed_nil]]. f_equal. symmetry. apply list_insert_id. rewrite Hx. unfold cut, set_addrs. simpl. by destruct x.
  - intros k s Hk (t' & j' & -> & Hr' & Hf). assert (Hk' : k < NADDRS) by (rewrite NADDRS_eq; lia). destruct (cut_addr k Hk') as [Ha Hset].
    assert (Hip : <[ip := cut k]> ic !! ip = Some (cut k)) by by apply list_lookup_insert_eq.
    apply wp_bind. eapply wp_done; [apply geti_done, Hip|]. rewrite Ha. assert (HM : NDn < MAXFn) by (apply Nat2Z.inj_lt; by rewrite NDn_Z, MAXFn_Z).
    assert (Hfa : faddr (j_view j) x k = i_addrs x !!! k) by (unfold faddr; by rewrite decide_True). case_decide as Hz.
    + destruct (front_next k _ ltac:(lia) Hfa Hz) as (Hfr & Hnin & Hdat). change (i_dev (cut k)) with (i_dev x). rewrite (f_dev _ _ _ Hfile).
      rewrite <-(Z2Nat.id (i_addrs x !!! k)) by apply Hdat. apply wp_bind. eapply (bfree_step _ _ _ (front k) j j'); [done|done|by apply held_ok_empty| | | |done|].
      * intros h c. by rewrite Hheld, lookup_empty.
      * rewrite Hheld, map_size_empty. lia.
      * by rewrite Z2Nat.id by apply Hdat.
      * intros t1 Hr1 Hf1. eapply wp_done; [apply updi_done, Hip|]. rewrite list_insert_insert_eq, Hset. exists t1. eexists. split; [done|]. split; [exact Hr1|]. by rewrite Hfr.
    + apply wp_ret. exists t', j'. rewrite <-cut_same by done. rewrite front_zero; [done|]. by rewrite Hfa.
  - intros s (t' & j' & -> & Hr' & Hf). by eapply HQ.
Qed.

Lemma freed_acquire bs j' h b : freed sb bs j j' → freed sb bs (j_acquire h b j) (j_acquire h b j').
Proof.
  intros [Hg Hfr Hv Hl Hh Hba Har]. constructor; try done; [by apply fs_geo_acquire|]. simpl. by rewrite Hh.
Qed.

Lemma itrunc_entries t j1 h (Q : unit → fstate T → Prop) :
  let a := ind_addr x in let b := Z.to_nat a in
  a ≠ 0%Z → j_held j !! h = None → jrep t (j_acquire h b j1) → freed sb (front NDn) j j1 →
  (∀ t' j', jrep t' j' → freed sb (front MAXFn) (j_acquire h b j) j' → Q tt (FState t' sb (<[ip := cut NDn]> ic))) →
  wp (itrunc_indirect ROOTDEV h) Q (FState t sb (<[ip := cut NDn]> ic)).
Proof.
  intros a b Hz Hnone Hr Hf HQ. pose proof (f_map _ _ _ Hfile) as Hm. pose proof (m_ind _ _ _ _ _ Hm Hz) as Hdat.
  assert (HM : MAXFn = NDn + Z.to_nat NINDIRECT) by done. set (jA := j_acquire h b j).
  assert (HheldA : ∀ h' c, j_held jA !! h' = Some c → c = b).
  { intros h' c. simpl. rewrite Hheld. intros [[_ <-]|[_ ?]]%lookup_insert_Some; [done|by rewrite lookup_empty in *]. }
  assert (HbA : ∀ n, n ≤ MAXFn → b ∉ front n).
  { intros n Hn (c & Hc & Hne & He)%elem_of_nonzero. apply list_elem_of_fmap in Hc as (k & -> & Hk%elem_of_seq).
    destruct (m_data _ _ _ _ _ Hm k ltac:(lia) Hne) as [Hp _]. apply (m_ind_sep _ _ _ _ _ Hm k ltac:(lia) Hz). apply Z2Nat.inj; [done|apply Hdat|done]. }
  assert (Hbm : b ∉ bm_set sb) by (intros Hb; by apply Hdat, bm_meta). unfold itrunc_indirect.
  eapply (wp_mfor_seq (λ k s, ∃ t' j', s = FState t' sb (<[ip := cut NDn]> ic) ∧ jrep t' j' ∧ freed sb (front (NDn + k)) jA j')).
  - exists t, (j_acquire h b j1). rewrite Nat.add_0_r. split; [done|]. split; [done|]. by apply freed_acquire.
  - intros k s Hk (t' & j' & -> & Hr' & Hf'). apply wp_bind.
    destruct (jview_some _ _ b Hr') as (d & Hd & _). { pose proof (fg_size _ _ (fr_geo _ _ _ _ Hf')). pose proof (proj1 (proj2 Hdat)) as Hlt. fold b in Hlt. lia. }
    eapply disk_jdata; [exact Hr'|rewrite (fr_held _ _ _ _ Hf'); apply lookup_insert_eq|exact Hd|].
    assert (Hfa : faddr (j_view j) x (NDn + k) = get32 (4 * k) d).
    { rewrite (fr_view _ _ _ _ Hf') in Hd by done. simpl in Hd. unfold faddr. rewrite decide_False by lia. fold a. rewrite decide_False by done.
      rewrite (list_lookup_total_correct _ _ _ Hd). do 2 f_equal. lia. }
    replace (NDn + S k) with (S (NDn + k)) by lia. case_decide as Hne.
    + destruct (front_next (NDn + k) _ ltac:(lia) Hfa Hne) as (Hfr & Hnin & Hd'). rewrite <-(Z2Nat.id (get32 (4 * k) d)) by apply Hd'.
      eapply (bfree_step _ _ _ (front (NDn + k)) jA j'); [done|done| | | | |done|].
      * intros h' c ->%HheldA. split; apply Hdat.
      * intros h' c ->%HheldA. apply HbA. lia.
      * simpl. rewrite Hheld, insert_empty, map_size_singleton. exact Hcap.
      * by rewrite Z2Nat.id by apply Hd'.
      * intros t1 Hr1 Hf1. exists t1. eexists. split; [done|]. split; [exact Hr1|]. by rewrite Hfr.
    + apply wp_ret. exists t', j'. rewrite front_zero; [done|]. by rewrite Hfa.
  - intros s (t' & j' & -> & Hr' & Hf'). rewrite <-HM in Hf'. by eapply HQ.
Qed.

Lemma front_direct k : ind_addr x = 0%Z → front (NDn + k) = front NDn.
Proof.
  intros Hz. induction k as [|k IH]; [by rewrite Nat.add_0_r|]. rewrite Nat.add_succ_r, front_zero; [done|].
  unfold faddr. by rewrite decide_False, decide_True by (done || lia).
Qed.

(** The in-memory inode of the empty file. *)
Definition emptied : inode := set_isize 0 (set_addrs (replicate NADDRS 0%Z) x).

Lemma cut_all : cut (S NDn) = set_addrs (replicate NADDRS 0%Z) x.
Proof. unfold cut. rewrite <-NADDRS_eq, drop_ge by (rewrite (proj1 (f_addrs _ _ _ Hfile)); lia). by rewrite app_nil_r. Qed.

Lemma itrunc_indirect_block t j1 (Q : unit → fstate T → Prop) : let a := ind_addr x in
  a ≠ 0%Z → jrep t j1 → freed sb (front NDn) j j1 →
  (∀ t' j', jrep t' j' → freed sb (file_blocks (j_view j) x) j j' → Q tt (FState t' sb (<[ip := cut (S NDn)]> ic))) →
  wp (bp ← disk (jread ROOTDEV a); itrunc_indirect ROOTDEV bp;; disk (jrelse bp);; bfree ROOTDEV a;; updi ip (set_iaddr NDn 0))
    Q (FState t sb (<[ip := cut NDn]> ic)).
Proof.
  intros a Hz Hr Hf HQ. pose proof (f_map _ _ _ Hfile) as Hm. pose proof (m_ind _ _ _ _ _ Hm Hz) as Hdat. set (b := Z.to_nat a).
  assert (Hab : a = Z.of_nat b) by (symmetry; apply Z2Nat.id, Hdat). assert (Hbm : b ∉ bm_set sb) by (intros Hb; by apply Hdat, bm_meta).
  assert (Hfb : file_blocks (j_view j) x = front MAXFn ++ [b]) by (unfold file_blocks; by rewrite nonzero_single, decide_False).
  assert (Hip : <[ip := cut NDn]> ic !! ip = Some (cut NDn)) by (apply list_lookup_insert_eq; by eapply lookup_lt_Some).
  pose proof (fr_held _ _ _ _ Hf) as Hh1. rewrite Hheld in Hh1. pose proof (freed_size _ _ _ _ Hf). pose proof (j_cap_le j).
  apply wp_bind. eapply (disk_jread _ _ _ _ _ _ b); [exact Hr|done|exact Hab| |by apply held_none|apply room_one; [done|lia]|].
  { pose proof (fg_size _ _ (fr_geo _ _ _ _ Hf)). pose proof (proj1 (proj2 Hdat)) as Hlt. fold a b in Hlt. lia. }
  intros h t1 _ Hr1. apply wp_bind. assert (Hn : j_held j !! h = None) by by rewrite Hheld, lookup_empty.
  eapply itrunc_entries; [done|done|exact Hr1|done|]. intros t2 j2 Hr2 Hf2. apply wp_bind. fold b in Hf2.
  eapply disk_jrelse; [exact Hr2|rewrite (fr_held _ _ _ _ Hf2); apply lookup_insert_eq| |].
  { eapply freed_clean; [exact Hf2|done|]. assert (Hc : j_clean b j1) by (apply (jrep_clean _ _ _ Hr), held_none; done).
    destruct Hc as [Hc|Hc]; [|right]. { apply (fr_log _ _ _ _ Hf), elem_of_union in Hc as [Hc|Hc]; [by left|done]. }
    by rewrite (fr_view _ _ _ _ Hf), (fr_base _ _ _ _ Hf) in Hc by done. }
  intros t3 Hr3. pose proof (freed_release _ _ _ _ _ _ Hn Hf2) as Hf3. apply wp_bind. rewrite Hab.
  eapply (bfree_step _ _ _ (front MAXFn) j); [exact Hr3|exact Hf3|by apply held_ok_empty| | |by rewrite <-Hab| |].
  - intros h' c. by rewrite Hheld, lookup_empty.
  - rewrite Hheld, map_size_empty. lia.
  - pose proof (file_blocks_NoDup _ _ _ Hfile) as Hnd. rewrite Hfb in Hnd. apply NoDup_app in Hnd as (_ & Hs & _).
    intros Hin. by eapply Hs, list_elem_of_singleton.
  - intros t4 Hr4 Hf4. eapply wp_done; [apply updi_done, Hip|]. rewrite list_insert_insert_eq. rewrite (proj2 (cut_addr NDn ltac:(rewrite NADDRS_eq; lia))).
    eapply HQ; [exact Hr4|]. by rewrite Hfb.
Qed.

Lemma itrunc_spec t (Q : unit → fstate T → Prop) : jrep t j → (0 ≤ i_inum x < sb_ninodes sb)%Z →
  (∀ t1 t' j1, jrep t1 j1 → freed sb (file_blocks (j_view j) x) j j1 →
    jrep t' (j_iput sb (i_inum x) (inode_dinode emptied) j1) → Q tt (FState t' sb (<[ip := emptied]> ic))) →
  wp (itrunc ip) Q (FState t sb ic).
Proof.
  intros Hr Hi HQ. unfold itrunc. apply wp_bind. apply (itrunc_direct t Hr). intros t1 j1 Hr1 Hf1. pose proof (lookup_lt_Some _ _ _ Hx) as Hlt.
  assert (Hip : ∀ y, <[ip := y]> ic !! ip = Some y) by (intros; by apply list_lookup_insert_eq).
  apply wp_bind. eapply wp_done; [apply geti_done, Hip|]. cbv zeta. change (Z.to_nat NDIRECT) with NDn. assert (HN : NDn < NADDRS) by (rewrite NADDRS_eq; lia).
  destruct (cut_addr NDn HN) as [Ha _]. rewrite Ha. change (i_dev (cut NDn)) with (i_dev x). rewrite (f_dev _ _ _ Hfile). fold (ind_addr x). apply wp_bind.
  assert (Hend : ∀ t' j', jrep t' j' → freed sb (file_blocks (j_view j) x) j j' →
    wp (updi ip (set_isize 0);; iupdate ip) Q (FState t' sb (<[ip := cut (S NDn)]> ic))).
  { intros t' j' Hr' Hf'. apply wp_bind. eapply wp_done; [apply updi_done, Hip|]. rewrite list_insert_insert_eq, cut_all. fold emptied.
    pose proof (fr_held _ _ _ _ Hf') as Hh'. rewrite Hheld in Hh'. pose proof (freed_size _ _ _ _ Hf'). pose proof (j_cap_le j). pose proof (freed_cap _ _ _ _ Hf').
    eapply (iupdate_spec _ _ _ _ _ emptied); [exact Hr'|apply Hf'|by apply held_ok_empty|apply Hip|apply Hfile|done|apply length_replicate|rewrite Hh', map_size_empty; lia|lia|].
    intros t2 Hr2. exact (HQ _ _ _ Hr' Hf' Hr2). }
  case_decide as Hz.
  - eapply itrunc_indirect_block; [done|done|done|exact Hend].
  - apply wp_ret. rewrite cut_same by done. eapply Hend; [exact Hr1|]. unfold file_blocks. rewrite nonzero_single, decide_True by done.
    rewrite app_nil_r. fold (front MAXFn). replace MAXFn with (NDn + Z.to_nat NINDIRECT) by done. by rewrite front_direct.
Qed.

End loops.

(** ** Files that are not touched *)

(** The file of the inode [y] is well formed and has the same contents. *)
Definition kept (sb : superblock) (j j' : jstate) (y : inode) : Prop :=
  file_ok sb j' y ∧ ∀ i, (Z.of_nat i < i_size y)%Z → fbyte (j_view j') y i = fbyte (j_view j) y i.

Lemma kept_ext sb j j' y : file_ok sb j y →
  (∀ a, uses (j_view j) y a → data_block sb j a → data_block sb j' a ∧ j_view j' !! Z.to_nat a = j_view j !! Z.to_nat a) → kept sb j j' y.
Proof.
  intros [Hdev Had Hsz Hm] Hu. pose proof Hm as [Hd Hi Hs Hinj Hal].
  assert (Hui : ind_addr y ≠ 0%Z → uses (j_view j) y (ind_addr y)) by (intros; split; [done|by right]).
  assert (Hub : ∀ bn, bn < MAXFn → faddr (j_view j) y bn ≠ 0%Z → uses (j_view j) y (faddr (j_view j) y bn)) by (intros bn ??; split; [done|left; by exists bn]).
  assert (Hfa : ∀ bn, faddr (j_view j') y bn = faddr (j_view j) y bn) by (intros bn; apply faddr_ext; intros Hz; apply Hu; [by apply Hui|by apply Hi]).
  split.
  - constructor; [done..|]. constructor.
    + intros bn Hbn. rewrite Hfa. intros Hz. apply Hu; [by apply Hub|by apply Hd].
    + intros Hz. apply Hu; [by apply Hui|by apply Hi].
    + intros bn Hbn. rewrite Hfa. auto.
    + intros bn bn' Hbn Hbn'. rewrite !Hfa. auto.
    + intros bn Hbn. rewrite Hfa. auto.
  - intros i Hlt. pose proof BSn_pos. pose proof (Nat.div_mod_eq i BSn) as Hdm. assert (Hbn : i `div` BSn < MAXFn).
    { apply Nat.Div0.div_lt_upper_bound. apply Nat2Z.inj_lt. rewrite Nat2Z.inj_mul, BSn_Z, MAXFn_Z. lia. }
    assert (Hz : faddr (j_view j) y (i `div` BSn) ≠ 0%Z). { apply Hal; [done|]. rewrite <-BSn_Z. nia. }
    unfold fbyte. rewrite Hfa, !list_lookup_total_alt. destruct (Hu _ (Hub _ Hbn Hz) (Hd _ Hbn Hz)) as [_ ->]. done.
Qed.

Lemma kept_freed sb bs j j' y : freed sb bs j j' → file_ok sb j y → (∀ a, uses (j_view j) y a → Z.to_nat a ∉ bs) → kept sb j j' y.
Proof.
  intros Hf Hy Hdis. apply kept_ext; [done|]. intros a Hu (H1 & H2 & H3 & H4). split; [split_and!; [done|done| |]|].
  - rewrite (fr_free _ _ _ _ Hf), H3, bool_decide_false by by apply Hdis. done.
  - by rewrite (freed_meta _ _ _ _ _ Hf).
  - apply (fr_view _ _ _ _ Hf). intros Hb. by apply H4, bm_meta.
Qed.

Lemma kept_iput sb j y inum di : fs_geo sb j → file_ok sb j y → (0 ≤ inum < sb_ninodes sb)%Z → kept sb j (j_iput sb inum di j) y.
Proof. intros Hg Hy Hi. apply kept_ext; [done|]. intros a _ Ha. split; [by apply data_block_iput|by apply iput_view]. Qed.

Lemma kept_trans sb j1 j2 j3 y : kept sb j1 j2 y → kept sb j2 j3 y → kept sb j1 j3 y.
Proof. intros [_ H1] [H2 H3]. split; [done|]. intros i Hi. by rewrite H3, H1. Qed.

(** ** The disk after a truncation *)

(** The blocks of [x] are free, its inode on the disk is [di], and all other
    blocks, inodes and files are as before. *)
Record truncated (sb : superblock) (x : inode) (di : dinode) (j j' : jstate) : Prop := {
  tr_geo : fs_geo sb j';
  tr_free b : isfree (j_view j') sb b = true ↔ isfree (j_view j) sb b = true ∨ uses (j_view j) x (Z.of_nat b);
  tr_inode n : (0 ≤ n < sb_ninodes sb)%Z → disk_inode (j_view j') sb n = if decide (i_inum x = n) then di else disk_inode (j_view j) sb n;
  tr_others y : file_ok sb j y → (∀ a, uses (j_view j) x a → ¬ uses (j_view j) y a) → kept sb j j' y;
  tr_held : j_held j' = j_held j;
  tr_logged : iblk sb (i_inum x) ∈ j_log j';
  tr_cap : j_cap j' = j_cap j ∧ size (j_log j') ≤ size (j_log j) + nbm sb + 1
}.

Lemma isfree_iput sb j inum di b : fs_geo sb j → (0 ≤ inum < sb_ninodes sb)%Z → isfree (j_view (j_iput sb inum di j)) sb b = isfree (j_view j) sb b.
Proof. intros Hg Hi. pose proof (iblk_facts _ _ _ Hg Hi) as (_ & _ & _ & Hbm & _). apply isfree_put. unfold bmblk. lia. Qed.

Lemma disk_inode_freed sb bs j j' n : fs_geo sb j → freed sb bs j j' → (0 ≤ n < sb_ninodes sb)%Z → disk_inode (j_view j') sb n = disk_inode (j_view j) sb n.
Proof.
  intros Hg Hf Hn. unfold disk_inode. rewrite !list_lookup_total_alt, (fr_view _ _ _ _ Hf); [done|]. pose proof (iblk_facts _ _ _ Hg Hn) as (_ & _ & _ & Hbm & _).
  unfold bm_set. rewrite elem_of_set_seq. lia.
Qed.

Lemma truncated_freed t sb j j1 x di : jrep t j1 → fs_geo sb j → file_ok sb j x → (0 ≤ i_inum x < sb_ninodes sb)%Z → dinode_ok di →
  freed sb (file_blocks (j_view j) x) j j1 → truncated sb x di j (j_iput sb (i_inum x) di j1).
Proof.
  intros Hr Hg Hx Hi Hdi Hf. pose proof (fr_geo _ _ _ _ Hf) as Hg1. constructor.
  - by apply fs_geo_iput.
  - intros b. rewrite isfree_iput, (fr_free _ _ _ _ Hf), orb_true_iff, bool_decide_eq_true by done. by rewrite (elem_of_file_blocks sb).
  - intros n Hn. rewrite (disk_inode_iput t) by (done || lia). case_decide; [done|]. by eapply disk_inode_freed.
  - intros y Hy Hdis. assert (Hk : kept sb j j1 y).
    { eapply kept_freed; [exact Hf|done|]. intros a Ha. rewrite (elem_of_file_blocks sb) by done. intros Hxa. apply (Hdis a); [|done].
      destruct Ha as [Hz [(bn & Hbn & <-)|<-]]; rewrite Z2Nat.id in Hxa; try done;
        [by apply (m_data _ _ _ _ _ (f_map _ _ _ Hy))|by apply (m_ind _ _ _ _ _ (f_map _ _ _ Hy))]. }
    eapply kept_trans; [exact Hk|]. apply kept_iput; [done|apply Hk|done].
  - apply Hf.
  - simpl. set_solver.
  - split; [apply (freed_cap _ _ _ _ Hf)|]. pose proof (freed_size _ _ _ _ Hf). pose proof (size_j_put (iblk sb (i_inum x)) (dinode_put (i_inum x) di (j_view j1 !!! iblk sb (i_inum x))) j1).
    unfold j_iput. lia.
Qed.

(** The inode is stored once more. *)
Lemma truncated_again t sb j j' x di di' : jrep t j' → (0 ≤ i_inum x < sb_ninodes sb)%Z → dinode_ok di' →
  truncated sb x di j j' → truncated sb x di' j (j_iput sb (i_inum x) di' j').
Proof.
  intros Hr Hi Hdi [Hg Hfr Hin Ho Hh Hlg [Hc Hsz]]. constructor; try done.
  - by apply fs_geo_iput.
  - intros b. by rewrite isfree_iput.
  - intros n Hn. rewrite (disk_inode_iput t) by (done || lia). case_decide as He; [done|]. rewrite Hin by done. by rewrite decide_False.
  - intros y Hy Hdis. pose proof (Ho y Hy Hdis) as Hk. eapply kept_trans; [exact Hk|]. apply kept_iput; [done|apply Hk|done].
  - simpl. set_solver.
  - split; [done|]. simpl. by rewrite subseteq_union_1_L by set_solver.
Qed.

Lemma truncated_same sb x x' di j j' : i_inum x' = i_inum x → i_addrs x' = i_addrs x → truncated sb x di j j' → truncated sb x' di j j'.
Proof.
  intros Hn Ha [Hg Hfr Hin Ho Hh Hlg Hc].
  assert (Hu : ∀ v a, uses v x' a ↔ uses v x a) by (intros v a; unfold uses, faddr, ind_addr; by rewrite Ha).
  constructor; try done; [..|by rewrite Hn].
  - intros b. by rewrite Hfr, Hu.
  - by rewrite Hn.
  - intros y Hy Hdis. apply Ho; [done|]. intros a. rewrite <-Hu. apply Hdis.
Qed.

Lemma file_ok_same sb j x x' : i_dev x' = i_dev x → i_size x' = i_size x → i_addrs x' = i_addrs x → file_ok sb j x → file_ok sb j x'.
Proof.
  intros Hd Hs Ha [Hdev Had Hsz Hm]. constructor; rewrite ?Hd, ?Hs, ?Ha; try done. unfold ind_addr. rewrite Ha.
  eapply map_ok_ext; [exact Hm| |done]. intros bn _. unfold faddr, ind_addr. by rewrite Ha.
Qed.

Lemma emptied_ok x : dinode_ok (inode_dinode x) → dinode_ok (inode_dinode (emptied x)).
Proof.
  intros [H1 H2 H3 H4 _ _]. constructor; try done. split; [apply length_replicate|]. by apply Forall_replicate.
Qed.

Variable pid : Z.

(** The entry of an inode that was freed. *)
Definition gone (x : inode) : inode := set_iref (i_ref x - 1) (set_ilock initsleeplock (set_ivalid 0 (set_itype 0 (emptied x)))).

Lemma iput_free t sb j ic ip x :
  jrep t j → fs_geo sb j → file_ok sb j x → ic !! ip = Some x → j_held j = ∅ → size (j_log j) + nbm sb + 1 < j_cap j →
  (0 ≤ i_inum x < sb_ninodes sb)%Z → dinode_ok (inode_dinode x) → sl_locked (i_lock x) = 0%Z →
  i_valid x ≠ 0%Z → i_nlink x = 0%Z → i_ref x = 1%Z →
  ∃ t' j', iput pid ip (FState t sb ic) = Done tt (FState t' sb (<[ip := gone x]> ic)) ∧ jrep t' j' ∧
    truncated sb x (inode_dinode (gone x)) j j'.
Proof.
  intros Hr Hg Hf Hx Hh Hcap Hi Hdi Hl Hv Hn Href. pose proof (lookup_lt_Some _ _ _ Hx) as Hlt. set (x1 := locked pid x).
  assert (Hf1 : file_ok sb j x1) by by apply (file_ok_same sb j x).
  assert (Hip : ∀ y, <[ip := y]> ic !! ip = Some y) by (intros; by apply list_lookup_insert_eq).
  assert (Hwp : wp (iput pid ip) (λ _ s, ∃ t' j', s = FState t' sb (<[ip := gone x]> ic) ∧ jrep t' j' ∧
    truncated sb x (inode_dinode (gone x)) j j') (FState t sb ic)).
  { unfold iput. apply wp_bind. eapply wp_done; [by apply acquire_done|]. apply wp_bind. eapply wp_done; [apply geti_done, Hip|].
    rewrite decide_True by done. apply wp_bind, wp_bind. eapply (itrunc_spec sb j _ ip x1); [done|done|apply Hip|done|done|done|done|].
    intros t1 t2 j1 Hr1 Hfr Hr2. pose proof (truncated_freed _ _ _ _ x1 _ Hr1 Hg Hf1 Hi (emptied_ok _ Hdi) Hfr) as Htr. set (j2 := j_iput _ _ _ j1) in *.
    rewrite list_insert_insert_eq. apply wp_bind. eapply wp_done; [apply updi_done, Hip|]. rewrite list_insert_insert_eq.
    pose proof Htr as [Hg2 _ _ _ Hh2 _ [Hc2 Hs2]]. rewrite Hh in Hh2. pose proof (j_cap_le j).
    assert (Hok : dinode_ok (inode_dinode (set_itype 0 (emptied x1)))) by (destruct (emptied_ok _ Hdi); by constructor).
    apply wp_bind. eapply (iupdate_spec _ _ _ _ _ (set_itype 0 (emptied x1))); [exact Hr2|done|by apply held_ok_empty|apply Hip|apply Hf|done|apply length_replicate|rewrite Hh2, map_size_empty; lia|lia|].
    intros t3 Hr3. eapply wp_done; [apply updi_done, Hip|]. rewrite list_insert_insert_eq. apply wp_bind. eapply wp_done; [unfold on_ilock, zoom; simpl; reflexivity|].
    rewrite (list_alter_Some _ _ _ _ (Hip _)), list_insert_insert_eq. eapply wp_done; [apply updi_done, Hip|]. rewrite list_insert_insert_eq.
    exists t3. eexists. split; [done|]. split; [exact Hr3|]. apply (truncated_same _ x1); [done|done|]. exact (truncated_again t2 sb j j2 x1 _ _ Hr2 Hi Hok Htr). }
  apply wp_inv in Hwp as ([] & s & Hrun & t' & j' & -> & Hr' & Htr). by exists t', j'.
Qed.

(** ** Claims *)

(** C11. [iput] on every branch. If the inode is locked it waits. If the entry
    is loaded, has no links and this is the last reference, [iput] frees the
    file: all its blocks, direct, indirect and the indirect block itself, become
    free and no others, its inode on the disk gets type 0, size 0 and no
    addresses, every other inode and every file that shares no block with it
    keeps its contents, no free is doubled, and at most the bitmap and one inode
    block are logged. Otherwise only the count changes; the entry stays marked as
    loaded even when its last reference goes (the comment at the head of
    the inode code says that [valid] is cleared then; it is [iget] that clears it,
    when it takes the entry for an inode). *)
Theorem iput_correct t sb j ic ip x :
  jrep t j → fs_geo sb j → file_ok sb j x → ic !! ip = Some x → j_held j = ∅ → size (j_log j) + nbm sb + 1 < j_cap j →
  (0 ≤ i_inum x < sb_ninodes sb)%Z → dinode_ok (inode_dinode x) →
  if decide (sl_locked (i_lock x) ≠ 0%Z) then iput pid ip (FState t sb ic) = Wait (FState t sb ic)
  else if decide (i_valid x ≠ 0%Z ∧ i_nlink x = 0%Z ∧ i_ref x = 1%Z) then
    ∃ t' j', iput pid ip (FState t sb ic) = Done tt (FState t' sb (<[ip := gone x]> ic)) ∧ jrep t' j' ∧
      truncated sb x (Dinode 0 (i_major x) (i_minor x) 0 0 (replicate NADDRS 0%Z)) j j'
  else iput pid ip (FState t sb ic) = Done tt (FState t sb (<[ip := set_iref (i_ref x - 1) (set_ilock initsleeplock x)]> ic)).
Proof.
  intros Hr Hg Hf Hx Hh Hcap Hi Hdi.
  destruct (decide (i_valid x ≠ 0%Z ∧ i_nlink x = 0%Z ∧ i_ref x = 1%Z)) as [(Hv & Hn & Href)|Hno]; case_decide as Hl;
    try assert (Hno' : i_valid x = 0%Z ∨ i_ref x ≠ 1%Z ∨ i_nlink x ≠ 0%Z) by lia.
  - apply run_wait. unfold on_ilock, zoom. simpl. rewrite (list_lookup_total_correct _ _ _ Hx). unfold acquiresleep.
    rewrite decide_False by done. simpl. rewrite (list_alter_Some _ _ _ _ Hx). do 2 f_equal. apply list_insert_id. rewrite Hx. by destruct x.
  - destruct (iput_free t sb j ic ip x) as (t' & j' & Hrun & Hr' & Htr); try done. exists t', j'. split; [done|]. split; [done|].
    unfold inode_dinode, gone in Htr. cbn in Htr. by rewrite Hn in Htr.
  - rewrite (iput_run pid _ _ _ _ _ Hx), decide_False by done. done.
  - rewrite (iput_run pid _ _ _ _ _ Hx), decide_True by done. done.
Qed.

Lemma wp_cont {S A B} (G : outcome S B → Prop) (m : M S A) (k : A → M S B) s Q :
  wp m Q s → (∀ a s', Q a s' → G (k a s')) → G ((m ≫= k) s).
Proof. intros (a & s' & Hrun & HQ)%wp_inv Hk. rewrite (run_bind _ _ _ _ _ Hrun). by apply Hk. Qed.

Definition new_dinode (type : Z) : dinode := Dinode type 0 0 0 0 (replicate NADDRS 0%Z).
Definition unused (v : list block) (sb : superblock) (n : Z) : Prop := d_type (disk_inode v sb n) = 0%Z.
#[export] Instance unused_dec v sb n : Decision (unused v sb n).
Proof. unfold unused. apply _. Defined.

(** What a step of [ialloc]'s loop does. *)
Definition tried (sb : superblock) (j : jstate) (ic : list inode) (ty n : Z) (o : outcome (fstate T) (option nat)) : Prop :=
  if decide (unused (j_view j) sb n) then
    ∃ t', jrep t' (j_iput sb n (new_dinode ty) j) ∧ o = (ip ← iget ROOTDEV n; mret (Some ip)) (FState t' sb ic)
  else ∃ t', jrep t' j ∧ o = Done None (FState t' sb ic).

Lemma ialloc_try_run t sb j ic ty n : jrep t j → fs_geo sb j → j_held j = ∅ → size (j_log j) < j_cap j → (0 ≤ n < sb_ninodes sb)%Z →
  tried sb j ic ty n (ialloc_try ROOTDEV ty n (FState t sb ic)).
Proof.
  intros Hr Hg Hh Hcap Hn. pose proof (iblk_facts _ _ _ Hg Hn) as (Hlt & Hhome & Hmeta & _). pose proof (j_cap_le j).
  destruct (jview_some _ _ _ Hr Hlt) as (d & Hd & Hok). unfold ialloc_try. rewrite (run_bind getsb _ _ sb (FState t sb ic)) by done.
  eapply (wp_cont _ _ _ _ (λ h s, ∃ t1, s = FState t1 sb ic ∧ j_held j !! h = None ∧ jrep t1 (j_acquire h (iblk sb n) j))).
  { eapply disk_jread; [exact Hr|done|by eapply IBLOCK_eq|done|by apply held_none|apply room_one; [done|lia]|]. intros h t1 ? ?. by exists t1. }
  intros h s (t1 & -> & Hn1 & Hr1). eapply (wp_cont _ _ _ _ (λ d' s, d' = d ∧ s = FState t1 sb ic)).
  { eapply disk_jdata; [exact Hr1|apply lookup_insert_eq|exact Hd|done]. }
  intros ? ? [-> ->]. assert (Hu : unused (j_view j) sb n ↔ d_type (dinode_at n d) = 0%Z) by (unfold unused, disk_inode; by rewrite (list_lookup_total_correct _ _ _ Hd)).
  unfold tried. destruct (decide (unused (j_view j) sb n)) as [Hty|Hty]; rewrite Hu in Hty; [rewrite (decide_True (P := d_type (dinode_at n d) = 0%Z)) by done|rewrite (decide_False (P := d_type (dinode_at n d) = 0%Z)) by done].
  - eapply (wp_cont (λ o, ∃ t', _ ∧ o = _) _ _ _ (λ _ s, ∃ t', s = FState t' sb ic ∧ jrep t' (j_iput sb n (new_dinode ty) j))).
    + eapply log_release_spec; [exact Hr1|done|apply dinode_put_ok; [apply length_replicate|done]|done|done|done|].
      intros t3 Hr3. exists t3. split; [done|]. unfold j_iput. by rewrite (list_lookup_total_correct _ _ _ Hd).
    + intros _ ? (t' & -> & Hr'). by exists t'.
  - eapply (wp_cont (λ o, ∃ t', _ ∧ o = _) _ _ _ (λ _ s, ∃ t', s = FState t' sb ic ∧ jrep t' j)).
    + eapply disk_release_read; [exact Hr1|done|by eapply clean_read, held_none|]. intros t' Hr'. by exists t'.
    + intros _ ? (t' & -> & Hr'). by exists t'.
Qed.

Lemma ialloc_loop sb j ic ty l : fs_geo sb j → j_held j = ∅ → size (j_log j) < j_cap j → Forall (λ n, 0 ≤ n < sb_ninodes sb)%Z l →
  ∀ t, jrep t j →
  match list_find (unused (j_view j) sb) l with
  | Some (_, n) => ∃ t', jrep t' (j_iput sb n (new_dinode ty) j) ∧
      msearch l (ialloc_try ROOTDEV ty) (FState t sb ic) = (ip ← iget ROOTDEV n; mret (Some ip)) (FState t' sb ic)
  | None => ∃ t', jrep t' j ∧ msearch l (ialloc_try ROOTDEV ty) (FState t sb ic) = Done None (FState t' sb ic)
  end.
Proof.
  intros Hg Hh Hcap Hl. induction Hl as [|n l Hn _ IH]; intros t Hr; [by exists t|]. cbn [msearch list_find].
  pose proof (ialloc_try_run t sb j ic ty n Hr Hg Hh Hcap Hn) as Htry. unfold tried in Htry. destruct (decide (unused (j_view j) sb n)) as [Hu|Hu].
  - destruct Htry as (t' & Hr' & Hrun). exists t'. split; [done|]. unfold mbind, M_bind in *. rewrite Hrun. by destruct (iget ROOTDEV n _).
  - destruct Htry as (t' & Hr' & Hrun). rewrite (run_bind _ _ _ _ _ Hrun). specialize (IH t' Hr'). by destruct (list_find _ l) as [[i m]|].
Qed.

Lemma iget_slot_entry dev n ic i y : iget_slot dev n ic = Some (i, y) → i_dev y = dev ∧ i_inum y = n.
Proof.
  unfold iget_slot. destruct (list_find (caches dev n) ic) as [[k z]|] eqn:Hc.
  - intros [= <- <-]. by apply list_find_Some in Hc as (_ & (_ & ? & ?) & _).
  - by destruct (list_find (λ x, i_ref x = 0%Z) ic) as [[k z]|]; intros; simplify_eq/=.
Qed.

(** C12. [ialloc] takes the first inode from 1 on whose type on the disk is 0. It
    writes the new type with everything else 0, changes no other inode and no
    file, and returns a reference to the inode in the cache, without a lock.
    If all inodes are in use, or no cache entry is free, it panics. *)
Theorem ialloc_correct t sb j ic ty :
  jrep t j → fs_geo sb j → j_held j = ∅ → size (j_log j) < j_cap j → is_s16 ty →
  match list_find (unused (j_view j) sb) (seqZ 1 (sb_ninodes sb - 1)) with
  | None => ialloc ROOTDEV ty (FState t sb ic) = Panic "ialloc: no inodes"
  | Some (_, n) =>
    match iget_slot ROOTDEV n ic with
    | None => ialloc ROOTDEV ty (FState t sb ic) = Panic "iget: no inodes"
    | Some (ip, y) => ∃ t' j', i_inum y = n ∧ i_dev y = ROOTDEV ∧
        ialloc ROOTDEV ty (FState t sb ic) = Done ip (FState t' sb (<[ip := set_iref (cached_ref ROOTDEV n ic + 1) y]> ic)) ∧
        jrep t' j' ∧ fs_geo sb j' ∧ j_held j' = ∅ ∧ size (j_log j') ≤ size (j_log j) + 1 ∧
        (∀ m, (0 ≤ m)%Z → disk_inode (j_view j') sb m = if decide (n = m) then new_dinode ty else disk_inode (j_view j) sb m) ∧
        (∀ b, isfree (j_view j') sb b = isfree (j_view j) sb b) ∧ ∀ x, file_ok sb j x → kept sb j j' x
    end
  end.
Proof.
  intros Hr Hg Hh Hcap Hty. assert (Hl : Forall (λ n, 0 ≤ n < sb_ninodes sb)%Z (seqZ 1 (sb_ninodes sb - 1))).
  { apply Forall_forall. intros n Hn%elem_of_seqZ. lia. }
  pose proof (ialloc_loop sb j ic ty _ Hg Hh Hcap Hl t Hr) as Hloop.
  assert (Hall : ∀ m, m = ialloc ROOTDEV ty (FState t sb ic) → m = (r ← msearch (seqZ 1 (sb_ninodes sb - 1)) (ialloc_try ROOTDEV ty);
    match r with Some ip => mret ip | None => panic "ialloc: no inodes" end) (FState t sb ic)) by (by intros m ->).
  specialize (Hall _ eq_refl). unfold mbind at 1, M_bind at 1 in Hall. rewrite Hall. clear Hall.
  destruct (list_find _ _) as [[i n]|] eqn:Hfind; destruct Hloop as (t' & Hr' & Hrun); rewrite Hrun; [|done].
  apply list_find_Some in Hfind as (Hi & Hu & _). pose proof (list_elem_of_lookup_2 _ _ _ Hi) as Hin. rewrite Forall_forall in Hl. pose proof (Hl _ Hin) as Hn.
  unfold mbind, M_bind. rewrite iget_run. destruct (iget_slot ROOTDEV n ic) as [[ip y]|] eqn:Hs; [|done]. eexists t', _. split; [|split; [|split; [done|split; [exact Hr'|]]]].
  - by apply iget_slot_entry in Hs as [_ ?].
  - by apply iget_slot_entry in Hs as [? _].
  - split_and!; [by apply fs_geo_iput|done| | | |].
    + pose proof (size_j_put (iblk sb n) (dinode_put n (new_dinode ty) (j_view j !!! iblk sb n)) j). unfold j_iput. lia.
    + intros m Hm. eapply disk_inode_iput; try done. constructor; try done. split; [apply length_replicate|by apply Forall_replicate].
    + intros b. by apply isfree_iput.
    + intros x Hx. by apply kept_iput.
Qed.

End trunc.

(** ** Witnesses *)

(** The file of the small image after its last link is gone. *)
Definition demo_unlinked : inode := Inode ROOTDEV 2 1 (Sleeplock 0 0) 1 T_FILE 0 0 0 600 (36%Z :: 37%Z :: replicate 11 0%Z).

Lemma demo_nbm : nbm demo_sb = 1.
Proof. unfold nbm. rewrite Nat.div_small; [done|]. apply Nat2Z.inj_lt. by rewrite BPBn_Z. Qed.

Lemma iput_correct_witness : ∃ t' j',
  iput 1 0 (FState demo_t demo_sb [demo_unlinked]) = Done tt (FState t' demo_sb [gone demo_unlinked]) ∧
  isfree (j_view j') demo_sb 36 = true ∧ isfree (j_view j') demo_sb 37 = true ∧ d_type (disk_inode (j_view j') demo_sb 2) = 0%Z ∧
  d_size (disk_inode (j_view j') demo_sb 1) = 48%Z.
Proof.
  destruct demo_sizes as (Hl & Hh & Hc & HN). assert (Hfile : file_ok demo_sb demo_j demo_unlinked) by exact (file_ok_same _ _ demo_inode demo_unlinked eq_refl eq_refl eq_refl demo_file_ok).
  assert (Hdi : dinode_ok (inode_dinode demo_unlinked)) by (destruct demo_dinode_ok; by constructor).
  pose proof (iput_correct 1 demo_t demo_sb demo_j [demo_unlinked] 0 demo_unlinked demo_jrep demo_geo Hfile eq_refl eq_refl
    ltac:(rewrite Hl, Hc, demo_nbm; lia) ltac:(simpl; lia) Hdi) as Hput.
  rewrite decide_False, decide_True in Hput by (by repeat split || by intros []). destruct Hput as (t' & j' & Hrun & _ & Htr). exists t', j'. split; [exact Hrun|].
  assert (Hbn : 1 < MAXFn) by (apply Nat2Z.inj_lt; by rewrite MAXFn_Z).
  split; [|split; [|split]].
  - apply (tr_free _ _ _ _ _ Htr). right. split; [done|]. left. exists 0. split; [lia|]. apply (demo_faddr 0). lia.
  - apply (tr_free _ _ _ _ _ Htr). right. split; [done|]. left. exists 1. split; [lia|]. apply (demo_faddr 1). lia.
  - by rewrite (tr_inode _ _ _ _ _ Htr 2%Z) by (simpl; lia).
  - rewrite (tr_inode _ _ _ _ _ Htr 1%Z) by (simpl; lia). vm_compute. reflexivity.
Defined.

Lemma ialloc_correct_witness : ∃ t' j',
  ialloc ROOTDEV T_FILE (FState demo_t demo_sb [zero_inode]) = Done 0 (FState t' demo_sb [set_iref 1 (set_iname ROOTDEV 3 zero_inode)]) ∧
  disk_inode (j_view j') demo_sb 3 = new_dinode T_FILE ∧ kept demo_sb demo_j j' demo_inode.
Proof.
  destruct demo_sizes as (Hl & Hh & Hc & HN).
  pose proof (ialloc_correct demo_t demo_sb demo_j [zero_inode] T_FILE demo_jrep demo_geo eq_refl ltac:(rewrite Hl, Hc; lia) ltac:(done)) as Hal.
  assert (Hfind : list_find (unused (j_view demo_j) demo_sb) (seqZ 1 (sb_ninodes demo_sb - 1)) = Some (2, 3%Z)) by (vm_compute; reflexivity).
  rewrite Hfind in Hal. destruct Hal as (t' & j' & _ & _ & Hrun & _ & _ & _ & _ & Hd & _ & Hk). exists t', j'. split; [exact Hrun|]. split.
  - by rewrite Hd.
  - apply Hk, demo_file_ok.
Defined.
