(* ===== verification/FsPath.v ===== *)
(** * Path names (fs.c [namex], [namei], [nameiparent])

    A path is resolved over the directory tree on the disk: [walk] follows the
    elements of the path from directory to directory, [namex] does the same with
    locks, cached inodes and references. *)

From S2P Require Import Prelude Params Sleeplock Bio Super CString Log LogProof Journal Fs FsDemo FsBlocks FsInode FsFile FsDir.

(** ** The tree on the disk *)

(** A loaded inode with the number [inum]. *)
Definition on_disk (inum : Z) (di : dinode) : inode := load_dinode di (Inode ROOTDEV inum 1 (Sleeplock 0 0) 1 0 0 0 0 0 []).
Definition node (v : list block) (sb : superblock) (n : Z) : inode := on_disk n (disk_inode v sb n).

(** An entry in use for the path element [e], of which [DIRSIZ] characters
    count. *)
Definition entry_match (e de : list Z) : Prop := de_inum de ≠ 0%Z ∧ cname (de_name de) = take DIRSIZ e.
#[export] Instance entry_match_dec e de : Decision (entry_match e de).
Proof. unfold entry_match. apply _. Defined.

(** The inode that a path leads to from inode [n]; for [parent], the directory of
    its last element, with that element. *)
Fixpoint walk (v : list block) (sb : superblock) (parent : bool) (n : Z) (es : list (list Z)) : option (Z * list Z) :=
  match es with
  | [] => if parent then None else Some (n, [])
  | e :: es =>
    if decide (i_type (node v sb n) = T_DIR) then
      if decide (parent = true ∧ es = []) then Some (n, e) else
      '(_, de) ← list_find (entry_match e) (dirents v (node v sb n));
      walk v sb parent (de_inum de) es
    else None
  end.

(** A tree: the entries of its directories are allocated inodes with a link.
    Inodes outside it, such as files that are open but have no name, may have
    none. *)
Definition alive (v : list block) (sb : superblock) (n : Z) : Prop :=
  (0 ≤ n < sb_ninodes sb)%Z ∧ i_type (node v sb n) ≠ 0%Z ∧ i_nlink (node v sb n) ≠ 0%Z.
Record tree_ok (sb : superblock) (j : jstate) : Prop := {
  tk_dir n : alive (j_view j) sb n → i_type (node (j_view j) sb n) = T_DIR → dir_ok sb j (node (j_view j) sb n);
  tk_entry n de : alive (j_view j) sb n → i_type (node (j_view j) sb n) = T_DIR → de ∈ dirents (j_view j) (node (j_view j) sb n) →
    de_inum de ≠ 0%Z → alive (j_view j) sb (de_inum de)
}.

(** A file is its inode's address list and size. *)
Lemma same_faddr v x y bn : i_addrs x = i_addrs y → faddr v x bn = faddr v y bn.
Proof. intros Ha. unfold faddr, ind_addr. by rewrite Ha. Qed.

Lemma same_dirents v x y : i_size x = i_size y → i_addrs x = i_addrs y → dirents v x = dirents v y.
Proof.
  intros Hs Ha. unfold dirents. rewrite <-Hs. apply list_fmap_ext. intros i k _. unfold fbytes. apply list_fmap_ext. intros i' k' _.
  unfold fbyte. by rewrite (same_faddr _ x y).
Qed.

Lemma same_dir_ok sb j x y : i_dev x = i_dev y → i_type x = i_type y → i_size x = i_size y → i_addrs x = i_addrs y → dir_ok sb j y → dir_ok sb j x.
Proof.
  intros Ed Et Es Ea [[Hd Hal Hsz [H1 H2 H3 H4 H5]] Hty Hmod]. pose proof (λ bn, same_faddr (j_view j) x y bn Ea) as Hf.
  assert (Hi : ind_addr x = ind_addr y) by (unfold ind_addr; by rewrite Ea).
  constructor; [constructor|..]; rewrite ?Ed, ?Et, ?Es, ?Ea, ?Hi; try done. constructor; try setoid_rewrite Hf; done.
Qed.

(** *** Names *)

Lemma until_nul_take_hd a n : until_nul (take (S n) a) = if decide (hd 0%Z a = 0%Z) then [] else hd 0%Z a :: until_nul (take n (tail a)).
Proof. by destruct a as [|x a]. Qed.

Lemma strncmp_nul a b n : strncmp_l a b n = 0%Z ↔ until_nul (take n a) = until_nul (take n b).
Proof.
  revert a b. induction n as [|n IH]; intros a b; [done|]. cbn [strncmp_l].
  rewrite (until_nul_take_hd a), (until_nul_take_hd b). destruct (decide (hd 0%Z a ≠ 0%Z ∧ hd 0%Z a = hd 0%Z b)) as [[Hne He]|Hd].
  - rewrite <-He, !decide_False by done. rewrite IH. split; congruence.
  - destruct (decide (hd 0%Z a = hd 0%Z b)) as [He|Hne].
    + rewrite <-He. destruct (decide (hd 0%Z a = 0%Z)) as [Hz|Hz]; [split; [done|lia]|by exfalso; apply Hd].
    + split; [lia|]. intros Heq. exfalso. repeat case_decide; congruence.
Qed.

Lemma name_match name e de : cname name = take DIRSIZ e → dir_match name de ↔ entry_match e de.
Proof.
  intros Hn. unfold dir_match, entry_match, namecmp. rewrite strncmp_nul. fold (cname name) (cname (de_name de)). rewrite Hn. naive_solver.
Qed.

Lemma find_match name e des : cname name = take DIRSIZ e → list_find (dir_match name) des = list_find (entry_match e) des.
Proof. intros Hn. apply list_find_ext. intros de. by apply name_match. Qed.

(** What is left of a path after an element does not start with a slash. *)
Lemma elems_nil path : hd 0%Z path ≠ slash → elems path = [] ↔ path = [].
Proof.
  intros Hs. split; [|by intros ->]. destruct path as [|c p]; [done|]. simpl in Hs. unfold elems. simpl. rewrite decide_False by done.
  destruct (split_slash p); rewrite filter_cons_True by done; done.
Qed.

Lemma skip_slashes_suffix p : ∃ l, p = l ++ skip_slashes p.
Proof.
  induction p as [|c p [l IH]]; [by exists []|]. simpl. case_decide; [|by exists []]. exists (c :: l). simpl. by f_equal.
Qed.

Lemma skipelem_suffix path name rest name' : skipelem path name = Some (rest, name') → ∃ l, path = l ++ rest.
Proof.
  unfold skipelem. destruct (skip_slashes_suffix path) as [l1 Hl1]. destruct (skip_slashes path) as [|c p] eqn:Hp; [done|].
  destruct (take_elem (c :: p)) as [s r] eqn:He. destruct (take_elem_spec _ _ _ He) as (Heq & _). intros [= <- _].
  destruct (skip_slashes_suffix r) as [l2 Hl2]. exists (l1 ++ s ++ l2). rewrite Hl1, Heq, Hl2 at 1. by rewrite <-!app_assoc, <-Hl2.
Qed.

(** ** The inode cache between system calls *)

(** Every live entry is for an inode of the disk, and says what the disk says if
    it is loaded. *)
Definition entry_ok (v : list block) (sb : superblock) (x : inode) : Prop :=
  (0 < i_ref x)%Z → i_dev x = ROOTDEV ∧ (0 ≤ i_inum x < sb_ninodes sb)%Z ∧
    (i_valid x ≠ 0%Z → inode_dinode x = disk_inode v sb (i_inum x)).
(** At most the entry [l] is locked. *)
Record cache_ok (v : list block) (sb : superblock) (l : option nat) (ic : list inode) : Prop := {
  ca_ok : icache_ok ic;
  ca_entry i x : ic !! i = Some x → entry_ok v sb x;
  ca_unlocked i x : ic !! i = Some x → l ≠ Some i → i_lock x = Sleeplock 0 0
}.

(** The cache at boot. *)
Lemma zero_icache_ok v sb : cache_ok v sb None (replicate NINODE zero_inode).
Proof.
  constructor; [constructor|..]; try (intros i x [-> _]%lookup_replicate; done); [by rewrite length_replicate|].
  intros i j x y [-> _]%lookup_replicate _ Hr. simpl in Hr. lia.
Qed.

(** References to an inode, and entries without one. *)
Definition refs (ic : list inode) (n : Z) : Z := cached_ref ROOTDEV n ic.
Definition slots (ic : list inode) : nat := length (filter (λ x, i_ref x = 0%Z) ic).

Lemma refs_live ic i x : icache_ok ic → ic !! i = Some x → (0 < i_ref x)%Z → i_dev x = ROOTDEV → refs ic (i_inum x) = i_ref x.
Proof.
  intros Hok Hi Hr Hd. unfold refs, cached_ref. destruct (list_find (caches ROOTDEV (i_inum x)) ic) as [[k y]|] eqn:Hf.
  - apply list_find_Some in Hf as (Hk & (Hry & Hdy & Hny) & _). assert (k = i) as -> by (eapply (ico_uniq _ Hok); eauto; [lia|congruence]). congruence.
  - apply list_find_None in Hf. rewrite Forall_lookup in Hf. exfalso. apply (Hf _ _ Hi). split_and!; [lia|done|done].
Qed.

Lemma refs_none ic n : (∀ i x, ic !! i = Some x → ¬ caches ROOTDEV n x) → refs ic n = 0%Z.
Proof.
  intros Hn. unfold refs, cached_ref. destruct (list_find (caches ROOTDEV n) ic) as [[k y]|] eqn:Hf; [|done].
  apply list_find_Some in Hf as (Hk & Hc & _). by destruct (Hn _ _ Hk).
Qed.

Lemma refs_cases ic n : icache_ok ic →
  (∃ i x, ic !! i = Some x ∧ caches ROOTDEV n x ∧ refs ic n = i_ref x) ∨ ((∀ i x, ic !! i = Some x → ¬ caches ROOTDEV n x) ∧ refs ic n = 0%Z).
Proof.
  intros Hok. unfold refs, cached_ref. destruct (list_find (caches ROOTDEV n) ic) as [[k y]|] eqn:Hf.
  - apply list_find_Some in Hf as (Hk & Hc & _). left. by exists k, y.
  - apply list_find_None in Hf. rewrite Forall_lookup in Hf. right. by split.
Qed.

(** An entry is replaced: a live one keeps its inode, a free one gets an inode
    that has no entry. *)
Definition may_replace (ic : list inode) (x y : inode) : Prop :=
  (0 ≤ i_ref y)%Z ∧ i_dev y = ROOTDEV ∧
  (if decide (i_ref x = 0%Z) then refs ic (i_inum y) = 0%Z else i_dev x = ROOTDEV ∧ i_inum y = i_inum x).

Lemma icache_ok_insert ic i x y : icache_ok ic → ic !! i = Some x → may_replace ic x y → icache_ok (<[i := y]> ic).
Proof.
  intros Hok Hi (Hr & Hd & Hm). rewrite <-(list_alter_Some (λ _, y) _ _ _ Hi). eapply icache_ok_alter; [done|done|done|].
  intros k z Hk Hne Hrz Hry Hdz Hnz. pose proof (ico_ref _ Hok _ _ Hi). destruct (decide (i_ref x = 0%Z)) as [Hz|Hz].
  - pose proof (refs_live _ _ _ Hok Hk Hrz ltac:(congruence)) as Hlive. rewrite Hnz in Hlive. lia.
  - apply Hne. eapply (ico_uniq _ Hok); eauto; [lia|by rewrite Hdz, Hd, (proj1 Hm)|by rewrite Hnz, (proj2 Hm)].
Qed.

Lemma refs_insert ic i x y n : icache_ok ic → ic !! i = Some x → may_replace ic x y →
  refs (<[i := y]> ic) n = if decide (n = i_inum y) then i_ref y else refs ic n.
Proof.
  intros Hok Hi Hm. pose proof (icache_ok_insert _ _ _ _ Hok Hi Hm) as Hok'. destruct Hm as (Hr & Hd & Hm). pose proof (ico_ref _ Hok _ _ Hi).
  assert (Hil : i < length ic) by by eapply lookup_lt_Some. assert (Hiy : <[i := y]> ic !! i = Some y) by by apply list_lookup_insert_eq.
  destruct (decide (n = i_inum y)) as [Hn|Hn].
  - subst n. destruct (decide (i_ref y = 0%Z)) as [Hz|Hz]; [|by eapply refs_live; [done|exact Hiy|lia|done]]. rewrite Hz. apply refs_none.
    intros k z Hk (Hrz & Hdz & Hnz). destruct (decide (i = k)) as [<-|Hne]; [rewrite Hiy in Hk; injection Hk as <-; lia|].
    rewrite list_lookup_insert_ne in Hk by done. case_decide as Hx.
    + pose proof (refs_live _ _ _ Hok Hk ltac:(lia) Hdz) as Hlive. rewrite Hnz in Hlive. lia.
    + apply Hne. eapply (ico_uniq _ Hok); eauto; [lia|lia|by rewrite Hdz, (proj1 Hm)|by rewrite Hnz, (proj2 Hm)].
  - destruct (refs_cases ic n Hok) as [(k & z & Hk & (Hrz & Hdz & Hnz) & ->)|[Hnone ->]].
    + rewrite <-Hnz. eapply refs_live; [done| |lia|done]. rewrite list_lookup_insert_ne; [exact Hk|]. intros <-.
      rewrite Hi in Hk. injection Hk as <-. rewrite decide_False in Hm by lia. by apply Hn; rewrite (proj2 Hm).
    + apply refs_none. intros k z Hk Hc. destruct (decide (i = k)) as [<-|Hne].
      * rewrite Hiy in Hk. injection Hk as <-. destruct Hc as (_ & _ & Hc). by apply Hn.
      * rewrite list_lookup_insert_ne in Hk by done. by eapply Hnone.
Qed.

Lemma slots_insert ic i x y : ic !! i = Some x →
  slots (<[i := y]> ic) + (if decide (i_ref x = 0%Z) then 1 else 0) = slots ic + (if decide (i_ref y = 0%Z) then 1 else 0).
Proof.
  intros Hi. unfold slots. rewrite insert_take_drop by (by eapply lookup_lt_Some). rewrite <-(take_drop_middle _ _ _ Hi) at 3.
  rewrite !filter_app, !length_app, !filter_cons. repeat case_decide; simpl; lia.
Qed.

Lemma cache_ok_insert v sb l l' ic i x y : cache_ok v sb l ic → ic !! i = Some x → may_replace ic x y → entry_ok v sb y →
  l' = Some i ∨ (i_lock y = Sleeplock 0 0 ∧ l' = None) ∨ (i_lock y = i_lock x ∧ l' = l) → l = Some i ∨ l = None ∨ l' = l → cache_ok v sb l' (<[i := y]> ic).
Proof.
  intros [Hok He Hu] Hi Hm Hey Hl Hl'. constructor; [by eapply icache_ok_insert| |]; intros k z [(-> & -> & _)|[Hne Hk]]%list_lookup_insert_Some; eauto.
  - intros Hne. destruct Hl as [->|[[? ->]|[-> ->]]]; [done|done|by eapply Hu].
  - intros Hn. apply (Hu _ _ Hk). destruct Hl' as [->|[->| <-]]; [congruence|done|done].
Qed.

Section path_ops.
Context {T : Type} `{JournalSpec T}.
Implicit Types (t : T) (j : jstate) (sb : superblock) (ic : list inode).
Variable pid : Z.
Variable devsw_read : Z → option (nat → Z → M (fstate T) (Z * list Z)).

Lemma refs_nonneg ic n : icache_ok ic → (0 ≤ refs ic n)%Z.
Proof. intros Hok. destruct (refs_cases ic n Hok) as [(i & x & Hi & _ & ->)|[_ ->]]; [by eapply (ico_ref _ Hok)|done]. Qed.

Lemma iget_step v sb l ic n t : cache_ok v sb l ic → (0 ≤ n < sb_ninodes sb)%Z → 0 < slots ic ∨ (0 < refs ic n)%Z →
  ∃ ip x y, iget ROOTDEV n (FState t sb ic) = Done ip (FState t sb (<[ip := y]> ic)) ∧ ic !! ip = Some x ∧ may_replace ic x y ∧
    i_inum y = n ∧ i_ref y = (refs ic n + 1)%Z ∧ cache_ok v sb l (<[ip := y]> ic) ∧ i_lock y = i_lock x ∧
    (i_ref x ≠ 0%Z → y = set_iref (i_ref x + 1) x) ∧ i_ref x = refs ic n.
Proof.
  intros Hca Hn Hroom. pose proof (ca_ok _ _ _ _ Hca) as Hok. rewrite iget_run. unfold iget_slot. fold (refs ic n).
  destruct (list_find (caches ROOTDEV n) ic) as [[i x]|] eqn:Hf.
  - apply list_find_Some in Hf as (Hi & (Hr & Hd & Hnx) & _). assert (Hrefs : refs ic n = i_ref x) by (rewrite <-Hnx; apply (refs_live _ _ _ Hok Hi); [lia|done]).
    assert (Hm : may_replace ic x (set_iref (refs ic n + 1) x)).
    { split; [simpl; lia|]. split; [done|]. rewrite decide_False by lia. done. }
    exists i, x, (set_iref (refs ic n + 1) x). split; [done|]. split_and!; try done.
    + eapply cache_ok_insert; eauto. intros _. apply (ca_entry _ _ _ _ Hca _ _ Hi). lia.
    + by rewrite Hrefs.
  - assert (Hz : refs ic n = 0%Z) by (unfold refs, cached_ref; by rewrite Hf). destruct Hroom as [Hs|]; [|lia].
    destruct (list_find (λ x, i_ref x = 0%Z) ic) as [[i x]|] eqn:He; simpl.
    + apply list_find_Some in He as (Hi & Hr & _). exists i, x, (set_iref (refs ic n + 1) (set_iname ROOTDEV n x)). split; [done|].
      assert (Hm : may_replace ic x (set_iref (refs ic n + 1) (set_iname ROOTDEV n x))).
      { split; [simpl; lia|]. split; [done|]. by rewrite decide_True. }
      split_and!; try done; [|by rewrite Hr, Hz]. eapply cache_ok_insert; eauto. intros _. split_and!; [done|simpl; lia..|done].
    + exfalso. apply list_find_None in He. rewrite Forall_forall in He. unfold slots in Hs.
      destruct (filter (λ x, i_ref x = 0%Z) ic) as [|x l'] eqn:Hfl; [simpl in Hs; lia|]. assert (Hx : x ∈ filter (λ x, i_ref x = 0%Z) ic) by (rewrite Hfl; by left).
      apply list_elem_of_filter in Hx as [Hr Hx]. by eapply He.
Qed.

Lemma iput_step ip x t sb ic : ic !! ip = Some x → i_lock x = Sleeplock 0 0 → i_valid x = 0%Z ∨ i_nlink x ≠ 0%Z →
  iput pid ip (FState t sb ic) = Done tt (FState t sb (<[ip := set_iref (i_ref x - 1) x]> ic)).
Proof.
  intros Hx Hl Hv. rewrite (iput_run pid _ _ _ _ _ Hx) by tauto. rewrite Hl, decide_True by done. do 3 f_equal. destruct x. simpl in Hl. by subst.
Qed.

Lemma iunlock_step ip x t sb ic : ic !! ip = Some x → ip < NINODE → sl_locked (i_lock x) = 1%Z → (0 < i_ref x)%Z →
  iunlock ip (FState t sb ic) = Done tt (FState t sb (<[ip := set_ilock (Sleeplock 0 0) x]> ic)).
Proof.
  intros Hx Hip Hl Hr. unfold iunlock. rewrite (run_bind _ _ _ _ _ (geti_done _ _ _ _ _ Hx)).
  rewrite (run_bind _ _ _ tt (FState t sb ic)).
  - unfold on_ilock, zoom. simpl. by rewrite (list_alter_Some _ _ _ _ Hx).
  - unfold holdingsleep. rewrite Hl, bool_decide_false by (unfold NULLINODE; lia). simpl. by rewrite (proj2 (Z.ltb_ge _ _)) by lia.
Qed.

Lemma iunlockput_step ip x t sb ic : ic !! ip = Some x → ip < NINODE → sl_locked (i_lock x) = 1%Z → (0 < i_ref x)%Z → i_nlink x ≠ 0%Z →
  iunlockput pid ip (FState t sb ic) = Done tt (FState t sb (<[ip := set_iref (i_ref x - 1) (set_ilock (Sleeplock 0 0) x)]> ic)).
Proof.
  intros Hx Hip Hl Hr Hn. unfold iunlockput. rewrite (run_bind _ _ _ _ _ (iunlock_step _ _ _ _ _ Hx Hip Hl Hr)).
  assert (Hil : ip < length ic) by by eapply lookup_lt_Some. rewrite (iput_step ip (set_ilock (Sleeplock 0 0) x)); [|by apply list_lookup_insert_eq|done|by right].
  by rewrite list_insert_insert_eq.
Qed.

(** ** One directory *)

(** A loaded entry is the node of the tree. *)
Record loaded (v : list block) (sb : superblock) (x : inode) : Prop := {
  lo_dev : i_dev x = ROOTDEV;
  lo_valid : i_valid x ≠ 0%Z;
  lo_disk : inode_dinode x = disk_inode v sb (i_inum x)
}.

Lemma loaded_fields v sb x : loaded v sb x → let y := node v sb (i_inum x) in
  i_dev x = i_dev y ∧ i_type x = i_type y ∧ i_nlink x = i_nlink y ∧ i_size x = i_size y ∧ i_addrs x = i_addrs y.
Proof. intros [Hd _ Hx]. cbv zeta. unfold node. rewrite <-Hx. by split_and!. Qed.

Lemma loaded_dirents v sb x : loaded v sb x → dirents v x = dirents v (node v sb (i_inum x)).
Proof. intros Hl. pose proof (loaded_fields _ _ _ Hl) as (_ & _ & _ & Hs & Ha). by apply same_dirents. Qed.

Lemma loaded_dir_ok sb j x : loaded (j_view j) sb x → dir_ok sb j (node (j_view j) sb (i_inum x)) → dir_ok sb j x.
Proof. intros Hl. pose proof (loaded_fields _ _ _ Hl) as (Ed & Et & _ & Es & Ea). by apply same_dir_ok. Qed.

Context (j : jstate) (sb : superblock).
Hypothesis Hgeo : fs_geo sb j.
Hypothesis Htree : tree_ok sb j.
Hypothesis Hheld : j_held j = ∅.
Hypothesis Hlog : size (j_log j) < NBUF.

Lemma ilock_step t ic ip x : jrep t j → cache_ok (j_view j) sb None ic → ic !! ip = Some x → (0 < i_ref x)%Z → alive (j_view j) sb (i_inum x) →
  ∃ t' y, ilock pid ip (FState t sb ic) = Done tt (FState t' sb (<[ip := y]> ic)) ∧ jrep t' j ∧ loaded (j_view j) sb y ∧
    i_inum y = i_inum x ∧ i_ref y = i_ref x ∧ sl_locked (i_lock y) = 1%Z ∧ may_replace ic x y ∧ cache_ok (j_view j) sb (Some ip) (<[ip := y]> ic).
Proof.
  intros Hr Hca Hx Href (Hn & Hty & _). destruct (ca_entry _ _ _ _ Hca _ _ Hx Href) as (Hd & _ & Hv). pose proof (ca_ok _ _ _ _ Hca) as Hok.
  assert (Hip : ip < NINODE) by (rewrite <-(ico_len _ Hok); by eapply lookup_lt_Some).
  assert (Hwpe := ilock_spec pid t j sb ic ip x Hr Hgeo). specialize (Hwpe ltac:(intros h b; by rewrite Hheld, lookup_empty) Hx Hip ltac:(lia)).
  rewrite (ca_unlocked _ _ _ _ Hca _ _ Hx) in Hwpe by done. specialize (Hwpe eq_refl Hd Hn ltac:(rewrite Hheld, map_size_empty; lia)).
  set (y := ilocked pid (disk_inode (j_view j) sb (i_inum x)) x) in *. unfold wpe in Hwpe. destruct (ilock pid ip _) as [[] s|e| |] eqn:Hrun; [|by destruct Hwpe as (_ & _ & ?)|done|done].
  destruct Hwpe as (t' & -> & Hr'). exists t', y. assert (Hy : loaded (j_view j) sb y ∧ i_inum y = i_inum x ∧ i_ref y = i_ref x ∧ sl_locked (i_lock y) = 1%Z).
  { unfold y, ilocked. destruct (decide (i_valid x = 0%Z)) as [Hv0|Hv0]; [by split_and!|]. split_and!; [|done..]. constructor; [done|done|exact (Hv Hv0)]. }
  destruct Hy as (Hlo & Hin & Hre & Hlk). assert (Hm : may_replace ic x y).
  { split; [lia|]. split; [apply Hlo|]. rewrite decide_False by lia. done. }
  split_and!; try done. eapply cache_ok_insert; [done|done|done| |by left|by right; left]. intros _. rewrite Hin. split_and!; [apply Hlo|lia..|]. intros _. rewrite <-Hin. apply Hlo.
Qed.

Definition one (P : Prop) `{Decision P} : Z := if decide P then 1%Z else 0%Z.

(** An inode is locked and loaded. *)
Record inside (ic : list inode) (ip : nat) (x : inode) : Prop := {
  in_cache : cache_ok (j_view j) sb (Some ip) ic;
  in_entry : ic !! ip = Some x;
  in_loaded : loaded (j_view j) sb x;
  in_locked : sl_locked (i_lock x) = 1%Z;
  in_ref : (0 < i_ref x)%Z;
  in_alive : alive (j_view j) sb (i_inum x)
}.

(** It is unlocked and the reference dropped. *)
Lemma leave_step t ic ip x : inside ic ip x → ∃ ic', iunlockput pid ip (FState t sb ic) = Done tt (FState t sb ic') ∧
  cache_ok (j_view j) sb None ic' ∧ (∀ i, i ≠ ip → ic' !! i = ic !! i) ∧ (∃ y, ic' !! ip = Some y ∧ i_inum y = i_inum x ∧ i_ref y = (i_ref x - 1)%Z) ∧
  (∀ k, refs ic' k = (refs ic k - one (k = i_inum x))%Z) ∧ slots ic' = slots ic + (if decide (i_ref x = 1%Z) then 1 else 0).
Proof.
  intros [Hca Hx [Hd Hv Hdi] Hl Hr Hal]. pose proof (ca_ok _ _ _ _ Hca) as Hok. assert (Hil : ip < length ic) by by eapply lookup_lt_Some.
  assert (Hnl : i_nlink x ≠ 0%Z) by (pose proof Hal as (_ & _ & Hn); unfold node in Hn; by rewrite <-Hdi in Hn).
  set (y := set_iref (i_ref x - 1) (set_ilock (Sleeplock 0 0) x)). exists (<[ip := y]> ic). rewrite (iunlockput_step ip x) by (done || (rewrite <-(ico_len _ Hok); lia)).
  assert (Hm : may_replace ic x y) by (split; [simpl; lia|]; split; [done|]; rewrite decide_False by lia; done). split; [done|]. split_and!.
  - eapply cache_ok_insert; [done|done|done| |by right; left|by left]. intros _. split_and!; [done|apply Hal..|done].
  - intros i Hi. by apply list_lookup_insert_ne.
  - exists y. by rewrite list_lookup_insert_eq.
  - intros k. rewrite (refs_insert _ _ _ _ _ Hok Hx Hm). unfold one. simpl. case_decide as Hk; [|lia]. subst k. by rewrite (refs_live _ _ _ Hok Hx Hr Hd).
  - pose proof (slots_insert ic ip x y Hx) as Hs. rewrite decide_False in Hs by lia. simpl in Hs. repeat case_decide; lia.
Qed.

(** The step from a directory to one of its entries. *)
Lemma enter_step t ic ip x n : inside ic ip x → 0 < slots ic → alive (j_view j) sb n →
  ∃ ip' ic1 ic' y, iget ROOTDEV n (FState t sb ic) = Done ip' (FState t sb ic1) ∧ iunlockput pid ip (FState t sb ic1) = Done tt (FState t sb ic') ∧
    cache_ok (j_view j) sb None ic' ∧ ic' !! ip' = Some y ∧ i_inum y = n ∧ (0 < i_ref y)%Z ∧
    (∀ k, refs ic' k = (refs ic k - one (k = i_inum x) + one (k = n))%Z) ∧
    slots ic' + (if decide (i_ref y = 1%Z) then 1 else 0) = slots ic + (if decide (i_ref x = 1%Z) then 1 else 0).
Proof.
  intros Hin Hs [Hn _]. pose proof Hin as [Hca Hx Hlo Hl Hr Hal]. pose proof (ca_ok _ _ _ _ Hca) as Hok.
  destruct (iget_step _ _ _ _ n t Hca Hn (or_introl Hs)) as (ip' & x0 & y & Hget & Hx0 & Hm & Hyn & Hyr & Hca1 & Hyl & Hsame & Hx0r).
  pose proof (refs_nonneg ic n Hok). assert (Hlen : ip' < length ic) by by eapply lookup_lt_Some. set (ic1 := <[ip' := y]> ic) in *.
  assert (Hrefs1 : ∀ k, refs ic1 k = (refs ic k + one (k = n))%Z).
  { intros k. unfold ic1. rewrite (refs_insert _ _ _ _ _ Hok Hx0 Hm). unfold one. rewrite Hyn, Hyr. case_decide; [by subst|lia]. }
  pose proof (slots_insert ic ip' x0 y Hx0) as Hs1. fold ic1 in Hs1. rewrite (decide_False (P := i_ref y = 0%Z)) in Hs1 by lia.
  destruct (decide (ip' = ip)) as [->|Hne].
  - assert (x0 = x) as -> by congruence. pose proof (Hsame ltac:(lia)) as Hy. assert (Hin1 : inside ic1 ip y).
    { constructor; [done|by apply list_lookup_insert_eq|subst y; by destruct Hlo|by rewrite Hyl|lia|]. by subst y. }
    destruct (leave_step t ic1 ip y Hin1) as (ic' & Hput & Hca' & _ & (z & Hz & Hzn & Hzr) & Hrefs & Hslots). exists ip, ic1, ic', z.
    assert (Hxn : i_inum x = i_inum y) by by subst y. split; [done|]. split; [done|]. split; [done|]. split; [done|]. split; [congruence|]. split; [lia|]. split.
    + intros k. rewrite Hrefs, Hrefs1, Hxn. lia.
    + rewrite Hslots. rewrite (decide_False (P := i_ref x = 0%Z)) in Hs1 by lia. rewrite (decide_False (P := i_ref y = 1%Z)) by lia.
      rewrite Hzr. repeat case_decide; lia.
  - assert (Hin1 : inside ic1 ip x) by (constructor; try done; unfold ic1; by rewrite list_lookup_insert_ne).
    destruct (leave_step t ic1 ip x Hin1) as (ic' & Hput & Hca' & Hoth & _ & Hrefs & Hslots). exists ip', ic1, ic', y. split; [done|]. split; [done|]. split; [done|].
    split; [rewrite Hoth by done; by apply list_lookup_insert_eq|]. split; [done|]. split; [lia|]. split.
    + intros k. rewrite Hrefs, Hrefs1. lia.
    + rewrite Hslots, Hyr, <-Hx0r. repeat case_decide; lia.
Qed.

(** ** The loop *)

(** The outcome of a walk that started with a reference to inode [n] in [ic]: the
    reference has moved to the inode found, or is gone. *)
Definition arrived (parent : bool) (n : Z) (es : list (list Z)) (ic : list inode) (r : option nat * list Z) (ic' : list inode) : Prop :=
  cache_ok (j_view j) sb None ic' ∧
  match walk (j_view j) sb parent n es with
  | Some (m, e) => ∃ ip x, r.1 = Some ip ∧ ic' !! ip = Some x ∧ i_inum x = m ∧ i_dev x = ROOTDEV ∧ (0 < i_ref x)%Z ∧ alive (j_view j) sb m ∧
      (parent = true → cname r.2 = take DIRSIZ e) ∧ ∀ k, refs ic' k = (refs ic k - one (k = n) + one (k = m))%Z
  | None => r.1 = None ∧ ∀ k, refs ic' k = (refs ic k - one (k = n))%Z
  end.

(** Where a walk stands: a reference to an unlocked inode, with a spare entry in
    the cache for the next one. *)
Record standing (t : T) (ic : list inode) (ip : nat) (x : inode) : Prop := {
  sd_rep : jrep t j;
  sd_cache : cache_ok (j_view j) sb None ic;
  sd_entry : ic !! ip = Some x;
  sd_ref : (0 < i_ref x)%Z;
  sd_alive : alive (j_view j) sb (i_inum x);
  sd_slots : 2 ≤ slots ic + (if decide (i_ref x = 1%Z) then 1 else 0)
}.

Lemma path_end (parent : bool) name t ic ip x : standing t ic ip x →
  ∃ ic' r, (if parent then iput pid ip;; mret (None, name) else mret (Some ip, name)) (FState t sb ic) = Done r (FState t sb ic') ∧
    arrived parent (i_inum x) [] ic r ic'.
Proof.
  intros [Hr Hca Hx Href Hal Hs]. pose proof (ca_ok _ _ _ _ Hca) as Hok. destruct (ca_entry _ _ _ _ Hca _ _ Hx Href) as (Hd & _ & Hdi). unfold arrived. simpl.
  destruct parent; [|exists ic, (Some ip, name); split; [done|]; split; [done|]; exists ip, x; split_and!; try done; intros k; lia].
  assert (Hnl : i_valid x = 0%Z ∨ i_nlink x ≠ 0%Z).
  { destruct (decide (i_valid x = 0%Z)) as [|Hv]; [by left|right]. pose proof Hal as (_ & _ & Hn). unfold node in Hn. by rewrite <-(Hdi Hv) in Hn. }
  rewrite (run_bind _ _ _ _ _ (iput_step ip x t sb ic Hx (ca_unlocked _ _ _ _ Hca _ _ Hx ltac:(done)) Hnl)). set (y := set_iref _ x).
  assert (Hm : may_replace ic x y) by (split; [simpl; lia|]; split; [done|]; rewrite decide_False by lia; done).
  exists (<[ip := y]> ic), (None, name). split; [done|]. split.
  - eapply cache_ok_insert; [done|done|done| |right; left; split; [exact (ca_unlocked _ _ _ _ Hca _ _ Hx ltac:(done))|done]|by right; left].
    intros _. split_and!; [done|apply Hal..|done].
  - split; [done|]. intros k. rewrite (refs_insert _ _ _ _ _ Hok Hx Hm). unfold one. change (i_inum y) with (i_inum x).
    destruct (decide (k = i_inum x)) as [Hk|Hk]; [|lia]. subst k. by rewrite (refs_live _ _ _ Hok Hx Href Hd).
Qed.

(** [ilock]: the inode is locked and loaded, the references are the same. *)
Lemma step_inside t ic ip x : standing t ic ip x → ∃ t' ic' y, ilock pid ip (FState t sb ic) = Done tt (FState t' sb ic') ∧ jrep t' j ∧
  inside ic' ip y ∧ i_inum y = i_inum x ∧ i_ref y = i_ref x ∧ (∀ k, refs ic' k = refs ic k) ∧ slots ic' = slots ic.
Proof.
  intros [Hr Hca Hx Href Hal Hs]. pose proof (ca_ok _ _ _ _ Hca) as Hok. destruct (ca_entry _ _ _ _ Hca _ _ Hx Href) as (Hd & _ & _).
  destruct (ilock_step t ic ip x Hr Hca Hx Href Hal) as (t1 & y & Hlock & Hr1 & Hlo & Hyn & Hyr & Hyl & Hm & Hca1). exists t1, (<[ip := y]> ic), y.
  assert (Hil : ip < length ic) by by eapply lookup_lt_Some. split_and!; try done.
  - constructor; try done; [by apply list_lookup_insert_eq|lia|by rewrite Hyn].
  - intros k. rewrite (refs_insert _ _ _ _ _ Hok Hx Hm), Hyn, Hyr. destruct (decide (k = i_inum x)) as [->|]; [by rewrite (refs_live _ _ _ Hok Hx Href Hd)|done].
  - pose proof (slots_insert ic ip x y Hx) as Hsl. rewrite Hyr in Hsl. rewrite decide_False in Hsl by lia. lia.
Qed.

(** The walk gives up and drops its reference. *)
Lemma step_fail t ic ic0 ip x n : inside ic ip x → i_inum x = n → (∀ k, refs ic k = refs ic0 k) →
  ∃ ic', iunlockput pid ip (FState t sb ic) = Done tt (FState t sb ic') ∧ cache_ok (j_view j) sb None ic' ∧
    ∀ k, refs ic' k = (refs ic0 k - one (k = n))%Z.
Proof.
  intros Hin <- Hrefs. destruct (leave_step t ic ip x Hin) as (ic' & Hput & Hca & _ & _ & Hr & _). exists ic'. split_and!; [done|done|].
  intros k. by rewrite Hr, Hrefs.
Qed.

(** It stops at a directory and keeps its reference. *)
Lemma step_stop t ic ip x : inside ic ip x → ∃ ic' y, iunlock ip (FState t sb ic) = Done tt (FState t sb ic') ∧ cache_ok (j_view j) sb None ic' ∧
  ic' !! ip = Some y ∧ i_inum y = i_inum x ∧ i_dev y = ROOTDEV ∧ (0 < i_ref y)%Z ∧ ∀ k, refs ic' k = refs ic k.
Proof.
  intros [Hca Hx [Hd Hv Hdi] Hl Hr Hal]. pose proof (ca_ok _ _ _ _ Hca) as Hok. assert (Hil : ip < length ic) by by eapply lookup_lt_Some.
  set (y := set_ilock (Sleeplock 0 0) x). exists (<[ip := y]> ic), y. rewrite (iunlock_step ip x) by (done || (rewrite <-(ico_len _ Hok); lia)).
  assert (Hm : may_replace ic x y) by (split; [simpl; lia|]; split; [done|]; rewrite decide_False by lia; done). split; [done|]. split_and!; try done.
  - eapply cache_ok_insert; [done|done|done| |by right; left|by left]. intros _. split_and!; [done|apply Hal..|done].
  - by apply list_lookup_insert_eq.
  - intros k. rewrite (refs_insert _ _ _ _ _ Hok Hx Hm). change (i_inum y) with (i_inum x). case_decide; [|done]. subst k. by rewrite (refs_live _ _ _ Hok Hx Hr Hd).
Qed.

Lemma namex_loop_spec fuel parent path name t ic ip x : length path < fuel → 0%Z ∉ path → length name = DIRSIZ → standing t ic ip x →
  ∃ t' ic' r, namex_loop pid devsw_read fuel parent ip path name (FState t sb ic) = Done r (FState t' sb ic') ∧ jrep t' j ∧
    arrived parent (i_inum x) (elems path) ic r ic'.
Proof.
  revert path name t ic ip x. induction fuel as [|fuel IH]; intros path name t ic ip x Hf Hnz Hname Hst; [lia|]. cbn [namex_loop].
  pose proof (skipelem_spec path name Hnz Hname) as Hsk. destruct (skipelem path name) as [[rest name']|] eqn:Hsuf.
  2:{ rewrite Hsk. destruct (path_end parent name t ic ip x Hst) as (ic' & r & Hrun & Ha). exists t, ic', r. split; [done|]. split; [apply Hst|done]. }
  destruct Hsk as (e & He & Hcn & Hln & Hhd & Hlr). rewrite He. unfold arrived. cbn [walk].
  destruct (step_inside t ic ip x Hst) as (t1 & ic1 & y & Hlock & Hr1 & Hin & Hyn & Hyr & Hrefs1 & Hs1). rewrite (run_bind _ _ _ _ _ Hlock).
  rewrite (run_bind _ _ _ _ _ (geti_done _ _ _ _ _ (in_entry _ _ _ Hin))). pose proof (loaded_fields _ _ _ (in_loaded _ _ _ Hin)) as (_ & Hty & _). rewrite Hyn in Hty.
  rewrite Hty. destruct (decide (i_type (node (j_view j) sb (i_inum x)) = T_DIR)) as [Hdir|Hdir].
  2:{ rewrite decide_True by done. destruct (step_fail t1 ic1 ic ip y _ Hin Hyn Hrefs1) as (ic' & Hput & Hca' & Hrefs').
      rewrite (run_bind _ _ _ _ _ Hput). exists t1, ic', (None, name'). by split_and!. }
  rewrite decide_False by tauto. assert (Hrest : rest = [] ↔ elems rest = []) by (symmetry; by apply elems_nil).
  destruct (decide (parent = true ∧ elems rest = [])) as [Hp|Hp].
  { rewrite decide_True by (by rewrite Hrest). destruct (step_stop t1 ic1 ip y Hin) as (ic' & z & Hun & Hca' & Hz & Hzn & Hzd & Hzr & Hrefs').
    rewrite (run_bind _ _ _ _ _ Hun). exists t1, ic', (Some ip, name'). split; [done|]. split; [done|]. split; [done|]. exists ip, z.
    split_and!; try done; [congruence|apply Hst|]. intros k. rewrite Hrefs', Hrefs1. lia. }
  rewrite decide_False by (by rewrite Hrest). assert (Hdok : dir_ok sb j y).
  { apply loaded_dir_ok; [apply Hin|]. rewrite Hyn. by apply (tk_dir _ _ Htree); [apply Hst|]. }
  destruct (dirlookup_spec devsw_read t1 j sb ic1 ip y name' Hr1 Hgeo Hdok (in_entry _ _ _ Hin) Hheld Hlog) as (t2 & Hr2 & Hlook).
  rewrite (find_match name' e) in Hlook by done. rewrite (loaded_dirents _ _ _ (in_loaded _ _ _ Hin)), Hyn in Hlook.
  destruct (list_find (entry_match e) (dirents (j_view j) (node (j_view j) sb (i_inum x)))) as [[k de]|] eqn:Hfind; cbn [mbind option_bind].
  2:{ rewrite (run_bind _ _ _ _ _ Hlook). destruct (step_fail t2 ic1 ic ip y _ Hin Hyn Hrefs1) as (ic' & Hput & Hca' & Hrefs').
      rewrite (run_bind _ _ _ _ _ Hput). exists t2, ic', (None, name'). by split_and!. }
  apply list_find_Some in Hfind as (Hk & [Hnz' _] & _).
  assert (Hal2 : alive (j_view j) sb (de_inum de)) by (eapply (tk_entry _ _ Htree); [apply Hst|done|by eapply list_elem_of_lookup_2|done]).
  pose proof (sd_slots _ _ _ _ Hst) as Hsl. destruct (enter_step t2 ic1 ip y (de_inum de) Hin) as (ip' & ic2 & ic3 & z & Hget & Hput & Hca3 & Hz & Hzn & Hzr & Hrefs3 & Hs3);
    [rewrite Hs1; case_decide; lia|done|].
  rewrite (run_bind _ _ _ _ _ Hget) in Hlook. rewrite (run_bind _ _ _ _ _ Hlook). rewrite (run_bind _ _ _ _ _ Hput).
  assert (Hst3 : standing t2 ic3 ip' z) by (constructor; try done; [by rewrite Hzn|rewrite Hs3, Hs1, Hyr; done]).
  destruct (IH rest name' t2 ic3 ip' z) as (t' & ic' & r & Hrun & Hr' & Ha); [lia| |done|done|].
  { intros Hin0. apply Hnz. destruct (skipelem_suffix _ _ _ _ Hsuf) as [l ->]. apply elem_of_app. by right. }
  exists t', ic', r. split; [done|]. split; [done|]. unfold arrived in Ha. rewrite Hzn in Ha. destruct Ha as [Hca' Ha]. split; [done|].
  destruct (walk (j_view j) sb parent (de_inum de) (elems rest)) as [[m e']|].
  - destruct Ha as (ip2 & x2 & Ha1 & Ha2 & Ha3 & Ha4 & Ha5 & Ha6 & Ha7 & Ha8). exists ip2, x2. split_and!; try done. intros i. rewrite Ha8, Hrefs3, Hrefs1, Hyn. lia.
  - destruct Ha as [Ha1 Ha2]. split; [done|]. intros i. rewrite Ha2, Hrefs3, Hrefs1, Hyn. lia.
Qed.

(** The inode that a path starts from. *)
Definition starts (ic : list inode) (cwd : nat) (path : list Z) (n : Z) : Prop :=
  if decide (hd 0%Z path = slash) then n = ROOTINO else ∃ x, ic !! cwd = Some x ∧ (0 < i_ref x)%Z ∧ i_inum x = n.

Lemma start_step t ic cwd path n : jrep t j → cache_ok (j_view j) sb None ic → 2 ≤ slots ic → starts ic cwd path n → alive (j_view j) sb n →
  ∃ ic' ip x, (if decide (hd 0%Z path = slash) then iget ROOTDEV ROOTINO else idup cwd) (FState t sb ic) = Done ip (FState t sb ic') ∧
    standing t ic' ip x ∧ i_inum x = n ∧ ∀ k, refs ic' k = (refs ic k + one (k = n))%Z.
Proof.
  intros Hr Hca Hs Hst Hal. pose proof (ca_ok _ _ _ _ Hca) as Hok. unfold starts in Hst. case_decide as Hp.
  - subst n. destruct (iget_step _ _ _ _ ROOTINO t Hca (proj1 Hal) ltac:(lia)) as (ip & x & y & Hget & Hx & Hm & Hyn & Hyr & Hca' & _ & _ & Hxr).
    pose proof (refs_nonneg ic ROOTINO Hok). assert (Hil : ip < length ic) by by eapply lookup_lt_Some. exists (<[ip := y]> ic), ip, y. split; [done|]. split; [|split; [done|]].
    + constructor; try done; [by apply list_lookup_insert_eq|lia|by rewrite Hyn|]. pose proof (slots_insert ic ip x y Hx) as Hsl. rewrite Hyr, <-Hxr in *. repeat case_decide; lia.
    + intros k. rewrite (refs_insert _ _ _ _ _ Hok Hx Hm), Hyn, Hyr. unfold one. destruct (decide (k = ROOTINO)) as [->|]; lia.
  - destruct Hst as (x & Hx & Hrx & Hxn). destruct (ca_entry _ _ _ _ Hca _ _ Hx Hrx) as (Hd & Hin & Hdi). set (y := set_iref (i_ref x + 1) x).
    assert (Hm : may_replace ic x y) by (split; [simpl; lia|]; split; [done|]; rewrite decide_False by lia; done).
    assert (Hil : cwd < length ic) by by eapply lookup_lt_Some. exists (<[cwd := y]> ic), cwd, y.
    split; [unfold idup; by rewrite (run_bind _ _ _ _ _ (updi_done cwd x (λ x, set_iref (i_ref x + 1) x) t sb ic Hx))|]. split; [|split; [done|]].
    + constructor; try done; [|by apply list_lookup_insert_eq|simpl; lia|by subst n|].
      * eapply cache_ok_insert; [done|done|done| |by right; right|by right; left]. by intros _.
      * pose proof (slots_insert ic cwd x y Hx) as Hsl. simpl in *. repeat case_decide; lia.
    + intros k. rewrite (refs_insert _ _ _ _ _ Hok Hx Hm). change (i_inum y) with (i_inum x). unfold one. rewrite <-Hxn.
      destruct (decide (k = i_inum x)) as [->|]; [|lia]. by rewrite (refs_live _ _ _ Hok Hx Hrx Hd).
Qed.

(** What a resolution yields: a cached inode, with one more reference, for the
    inode that the walk leads to, or nothing. *)
Definition resolved (parent : bool) (n : Z) (path : list Z) (ic : list inode) (r : option nat) (name : list Z) (ic' : list inode) : Prop :=
  match walk (j_view j) sb parent n (elems path) with
  | Some (m, e) => ∃ ip x, r = Some ip ∧ ic' !! ip = Some x ∧ i_dev x = ROOTDEV ∧ i_inum x = m ∧ (0 < i_ref x)%Z ∧
      (parent = true → cname name = take DIRSIZ e) ∧ ∀ k, refs ic' k = (refs ic k + one (k = m))%Z
  | None => r = None ∧ ∀ k, refs ic' k = refs ic k
  end.

Lemma namex_spec parent cwd path name t ic n :
  jrep t j → cache_ok (j_view j) sb None ic → 2 ≤ slots ic → 0%Z ∉ path → length name = DIRSIZ →
  starts ic cwd path n → alive (j_view j) sb n →
  ∃ t' ic' r, namex pid devsw_read cwd path parent name (FState t sb ic) = Done r (FState t' sb ic') ∧ jrep t' j ∧
    cache_ok (j_view j) sb None ic' ∧ resolved parent n path ic r.1 r.2 ic'.
Proof.
  intros Hr Hca Hs Hnz Hname Hst Hal. destruct (start_step t ic cwd path n Hr Hca Hs Hst Hal) as (ic1 & ip & x & Hrun & Hsd & Hxn & Hrefs1).
  unfold namex. rewrite (run_bind _ _ _ _ _ Hrun).
  destruct (namex_loop_spec (S (length path)) parent path name t ic1 ip x) as (t' & ic' & r & Hloop & Hr' & Hca' & Ha); [lia|done|done|done|].
  exists t', ic', r. split; [done|]. split; [done|]. split; [done|]. unfold resolved. rewrite Hxn in Ha. destruct (walk _ _ _ _ _) as [[m e]|].
  - destruct Ha as (ip' & y & Ha1 & Ha2 & Ha3 & Ha4 & Ha5 & _ & Ha7 & Ha8). exists ip', y. split_and!; try done. intros k. rewrite Ha8, Hrefs1. lia.
  - destruct Ha as [Ha1 Ha2]. split; [done|]. intros k. rewrite Ha2, Hrefs1. lia.
Qed.

(** C13. Path resolution implements the walk over the directory tree. On a disk
    where the entries in use of the directories that can be reached are
    allocated inodes with a link ([tree_ok]), from a start inode that is
    allocated and has a link, with no inode locked and two spare entries in the
    inode cache: for every path, absolute or relative, [namex], [namei] and
    [nameiparent] return; they do not sleep, panic or loop. They yield a cached
    inode, with one more reference than before, for exactly the inode ([namei])
    or the directory of the last element, with that element in [name]
    ([nameiparent]), that the elements of the path lead to, or 0 if they lead
    nowhere; all other reference counts are as before, no inode is left locked,
    and the disk is not changed. *)
Theorem namex_correct parent cwd path name t ic n :
  jrep t j → cache_ok (j_view j) sb None ic → 2 ≤ slots ic → 0%Z ∉ path → length name = DIRSIZ →
  starts ic cwd path n → alive (j_view j) sb n →
  (∃ t' ic' r, namex pid devsw_read cwd path parent name (FState t sb ic) = Done r (FState t' sb ic') ∧ jrep t' j ∧
    cache_ok (j_view j) sb None ic' ∧ resolved parent n path ic r.1 r.2 ic') ∧
  (∃ t' ic' r, namei pid devsw_read cwd path (FState t sb ic) = Done r (FState t' sb ic') ∧ jrep t' j ∧
    cache_ok (j_view j) sb None ic' ∧ resolved false n path ic r [] ic') ∧
  (∃ t' ic' r, nameiparent pid devsw_read cwd path name (FState t sb ic) = Done r (FState t' sb ic') ∧ jrep t' j ∧
    cache_ok (j_view j) sb None ic' ∧ resolved true n path ic r.1 r.2 ic').
Proof.
  intros Hr Hca Hs Hnz Hname Hst Hal. split; [by apply namex_spec|]. split; [|by apply namex_spec].
  destruct (namex_spec false cwd path (replicate DIRSIZ 0%Z) t ic n) as (t' & ic' & r & Hrun & Hr' & Hca' & Hres); try done. exists t', ic', r.1.
  unfold namei. rewrite (run_bind _ _ _ _ _ Hrun). split; [done|]. split; [done|]. split; [done|]. unfold resolved in *.
  destruct (walk _ _ _ _ _) as [[m e]|]; [|done]. destruct Hres as (ip & x & H1 & H2 & H3 & H4 & H5 & _ & H7). exists ip, x. by split_and!.
Qed.
End path_ops.

(** ** Witness *)

Lemma demo_nodes : (λ n, (i_type (node demo_image demo_sb n), i_nlink (node demo_image demo_sb n))) <$> seqZ 0 8 =
  [(0, 0); (T_DIR, 1); (T_FILE, 1); (0, 0); (0, 0); (0, 0); (0, 0); (0, 0)]%Z.
Proof. vm_compute. reflexivity. Qed.

Lemma demo_alive n : alive demo_image demo_sb n → n = 1%Z ∨ n = 2%Z.
Proof.
  intros (Hn & Ht & _). change (sb_ninodes demo_sb) with 8%Z in Hn. pose proof demo_nodes as Hall. apply (f_equal (.!! Z.to_nat n)) in Hall.
  rewrite list_lookup_fmap, lookup_seqZ_lt, Z.add_0_l, Z2Nat.id in Hall by lia. simpl in Hall.
  destruct (decide (n = 1%Z)); [by left|]. destruct (decide (n = 2%Z)); [by right|]. exfalso. apply Ht.
  assert (Hc : Z.to_nat n ∈ [0; 3; 4; 5; 6; 7]) by (assert (n = 0 ∨ n = 3 ∨ n = 4 ∨ n = 5 ∨ n = 6 ∨ n = 7)%Z as Hc by lia; destruct_or! Hc; subst; set_solver).
  set_unfold. destruct_or! Hc; rewrite Hc in Hall; by injection Hall.
Qed.

Lemma demo_root_node : disk_inode demo_image demo_sb 1 = demo_root.
Proof. vm_compute. reflexivity. Qed.

Lemma demo_entries : de_inum <$> dirents demo_image (node demo_image demo_sb 1) = [1; 1; 2]%Z.
Proof. vm_compute. reflexivity. Qed.

Lemma demo_tree : tree_ok demo_sb demo_j.
Proof.
  change (j_view demo_j) with demo_image. pose proof demo_nodes as Hall. constructor.
  - intros n [-> | ->]%demo_alive Ht; [|vm_compute in Ht; done]. unfold node. change (j_view demo_j) with demo_image. rewrite demo_root_node.
    exact (same_dir_ok demo_sb demo_j (on_disk 1 demo_root) demo_dirnode eq_refl eq_refl eq_refl eq_refl demo_dir_ok).
  - intros n de [-> | ->]%demo_alive Ht Hde Hne; [|vm_compute in Ht; done]. change (j_view demo_j) with demo_image in *.
    assert (Hin : de_inum de ∈ de_inum <$> dirents demo_image (node demo_image demo_sb 1)) by by apply list_elem_of_fmap_2. rewrite demo_entries in Hin.
    set_unfold. destruct_or! Hin; rewrite Hin; split_and!; vm_compute; done.
Qed.

(** The path [/f] in the small image. *)
Lemma namex_correct_witness : ∃ t' ic' ip x,
  namei 1 (λ _, None) 0 [47; 102]%Z (FState demo_t demo_sb (replicate NINODE zero_inode)) = Done (Some ip) (FState t' demo_sb ic') ∧
  ic' !! ip = Some x ∧ i_inum x = 2%Z ∧ refs ic' 2 = 1%Z ∧ refs ic' 1 = 0%Z.
Proof.
  pose proof (zero_icache_ok demo_image demo_sb) as Hca.
  destruct (namex_correct 1 (λ _, None) demo_j demo_sb demo_geo demo_tree eq_refl demo_room false 0 [47; 102]%Z (replicate DIRSIZ 0%Z) demo_t (replicate NINODE zero_inode) 1)
    as (_ & (t' & ic' & r & Hrun & _ & _ & Hres) & _).
  - exact demo_jrep.
  - exact Hca.
  - vm_compute. lia.
  - set_solver.
  - reflexivity.
  - done.
  - split_and!; vm_compute; done.
  - unfold resolved in Hres. change (j_view demo_j) with demo_image in Hres. assert (Hw : walk demo_image demo_sb false 1 (elems [47; 102]%Z) = Some (2%Z, [])) by (vm_compute; reflexivity).
    rewrite Hw in Hres. destruct Hres as (ip & x & Hr & Hx & _ & Hn & _ & _ & Hrefs). subst r. exists t', ic', ip, x.
    split; [exact Hrun|]. split; [exact Hx|]. split; [exact Hn|]. rewrite !Hrefs. split; vm_compute; reflexivity.
Defined.
