(* ===== verification/Mkfs.v ===== *)
(** * The builder of the file system image (mkfs.c)

    mkfs is a program of the build machine: it writes an image file with the
    superblock, the root directory and the files of its command line. The state
    is the image file, as a list of sectors, and mkfs's global variables. The
    reads of a file are the results of the host's [read]; the host's [lseek] and
    [write] succeed. An end of the program by [exit(1)] or [assert] is a [Panic].
    The theorem is that the kernel's file system starts from a good state: the
    image has the layout and the files that the theorems on fs.c assume. *)

From S2P Require Import Prelude Params Sleeplock Bio Super CString Log LogProof Journal Fs FsDemo FsBlocks FsInode FsFile FsDir FsTrunc FsPath.

Definition NINODES : Z := 200.

Definition nbitmap : Z := (FSSIZE / (BSIZE * 8) + 1)%Z.
Definition ninodeblocks : Z := (NINODES / IPB + 1)%Z.
Definition nlog : Z := LOGSIZE.
Definition nmeta : Z := (2 + nlog + ninodeblocks + nbitmap)%Z.
Definition nblocks : Z := (FSSIZE - nmeta)%Z.

Record mkfs := Mkfs {
  mk_img : list block;        (* the file fsfd *)
  mk_sb : superblock;
  mk_freeinode : Z;
  mk_freeblock : Z
}.

(** Convert to intel byte order: the bytes are stored one by one, and the host
    is little-endian as well. *)
Definition xshort (x : Z) : Z := le_dec (le_enc 2 x).
Definition xint (x : Z) : Z := le_dec (le_enc 4 x).

(** ** Sectors *)

Definition set_img (v : list block) (s : mkfs) : mkfs := Mkfs v (mk_sb s) (mk_freeinode s) (mk_freeblock s).
Definition sector (sec : Z) : nat := Z.to_nat (u32 (sec * BSIZE) / BSIZE).
(** A write behind the end of a file fills the gap with zeros. *)
Definition put_sector (k : nat) (d : block) (v : list block) : list block :=
  if decide (k < length v) then <[k := d]> v else v ++ replicate (k - length v) zero_block ++ [d].

Definition wsect (sec : Z) (buf : block) : M mkfs unit := mmodify (λ s, set_img (put_sector (sector sec) buf (mk_img s)) s).
Definition rsect (sec : Z) : M mkfs block := λ s,
  match mk_img s !! sector sec with
  | Some d => Done d s
  | None => Panic "read"
  end.

(** ** Inodes *)

Definition winode (inum : Z) (ip : dinode) : M mkfs unit :=
  s ← mget;
  let bn := IBLOCK inum (mk_sb s) in
  buf ← rsect bn;
  wsect bn (dinode_put inum ip buf).
Definition rinode (inum : Z) : M mkfs dinode :=
  s ← mget;
  let bn := IBLOCK inum (mk_sb s) in
  buf ← rsect bn;
  mret (dinode_at inum buf).

Definition ialloc (type : Z) : M mkfs Z :=
  s ← mget;
  let inum := mk_freeinode s in
  mput (Mkfs (mk_img s) (mk_sb s) (u32 (inum + 1)) (mk_freeblock s));;
  winode inum (Dinode (s16 (xshort type)) 0 0 (s16 (xshort 1)) (xint 0) (replicate NADDRS 0%Z));;
  mret inum.

(** ** The bitmap *)

Definition mark (used : nat) : block := foldl (λ buf i, set_bit i buf) zero_block (seq 0 used).
Definition balloc (used : Z) : M mkfs unit :=
  assert_or_panic (used <? BSIZE * 8)%Z "used < BSIZE*8";;
  s ← mget;
  wsect (sb_bmapstart (mk_sb s)) (mark (Z.to_nat used)).

(** ** Appending to a file *)

Definition next_block : M mkfs Z := λ s,
  Done (mk_freeblock s) (Mkfs (mk_img s) (mk_sb s) (mk_freeinode s) (u32 (mk_freeblock s + 1))).
Definition set_daddr (k : nat) (v : Z) (di : dinode) : dinode :=
  Dinode (d_type di) (d_major di) (d_minor di) (d_nlink di) (d_size di) (<[k := v]> (d_addrs di)).
Definition set_dsize (v : Z) (di : dinode) : dinode :=
  Dinode (d_type di) (d_major di) (d_minor di) (d_nlink di) v (d_addrs di).

(** The address of an entry, allocated if it is 0. *)
Definition daddr (k : nat) (din : dinode) : M mkfs dinode :=
  if decide (xint (d_addrs din !!! k) = 0%Z) then b ← next_block; mret (set_daddr k (xint b) din) else mret din.

(** The block [fbn] of the file. *)
Definition file_block (fbn : nat) (din : dinode) : M mkfs (dinode * Z) :=
  if decide (fbn < Z.to_nat NDIRECT) then
    din ← daddr fbn din;
    mret (din, xint (d_addrs din !!! fbn))
  else
    let k := 4 * (fbn - Z.to_nat NDIRECT) in
    din ← daddr (Z.to_nat NDIRECT) din;
    let a := xint (d_addrs din !!! Z.to_nat NDIRECT) in
    indirect ← rsect a;
    indirect ← (if decide (get32 k indirect = 0%Z) then
        b ← next_block;
        let indirect := put32 k (xint b) indirect in
        wsect a indirect;;
        mret indirect
      else mret indirect);
    mret (din, xint (get32 k indirect)).

(** The loop over the blocks; every round copies at least one byte. *)
Fixpoint append_loop (fuel : nat) (off : Z) (p : list Z) (din : dinode) : M mkfs (Z * dinode) :=
  if decide (p = []) then mret (off, din) else
  match fuel with
  | O => λ _, Diverge
  | S fuel =>
    let fbn := (off / BSIZE)%Z in
    assert_or_panic (fbn <? MAXFILE)%Z "fbn < MAXFILE";;
    '(din, x) ← file_block (Z.to_nat fbn) din;
    let n1 := Z.to_nat (Z.min (Z.of_nat (length p)) ((fbn + 1) * BSIZE - off)) in
    buf ← rsect x;
    wsect x (splice (Z.to_nat (off - fbn * BSIZE)) (take n1 p) buf);;
    append_loop fuel (u32 (off + Z.of_nat n1)) (drop n1 p) din
  end.
Definition iappend (inum : Z) (p : list Z) : M mkfs unit :=
  din ← rinode inum;
  '(off, din) ← append_loop (length p) (xint (d_size din)) p din;
  winode inum (set_dsize (xint off) din).

(** ** The program *)

(** A file of the command line: its name and what [open] and then the calls of
    [read] return. *)
Record host_file := HostFile { hf_name : list Z; hf_reads : option (list (list Z)) }.

Definition underscore : Z := 95.
(** Skip leading _ in name. *)
Definition skip_underscore (name : list Z) : list Z :=
  match name with
  | c :: rest => if decide (c = underscore) then rest else name
  | [] => []
  end.

Fixpoint copy_reads (inum : Z) (reads : list (list Z)) : M mkfs unit :=
  match reads with
  | [] | [] :: _ => mret tt
  | bs :: reads => iappend inum bs;; copy_reads inum reads
  end.

Definition add_file (rootino : Z) (f : host_file) : M mkfs unit :=
  assert_or_panic (bool_decide (slash ∉ hf_name f)) "index(argv[i], '/') == 0";;
  match hf_reads f with
  | None => λ _, Panic "open"
  | Some reads =>
    inum ← ialloc T_FILE;
    iappend rootino (dirent_enc (xshort inum) (skip_underscore (hf_name f)));;
    copy_reads inum reads
  end.

Fixpoint add_files (rootino : Z) (files : list host_file) : M mkfs unit :=
  match files with
  | [] => mret tt
  | f :: files => add_file rootino f;; add_files rootino files
  end.

Fixpoint clear_sectors (i : Z) (n : nat) : M mkfs unit :=
  match n with
  | O => mret tt
  | S n => wsect i zero_block;; clear_sectors (i + 1) n
  end.

Definition mk_superblock : superblock :=
  Superblock (xint FSSIZE) (xint nblocks) (xint NINODES) (xint nlog) (xint 2) (xint (2 + nlog)) (xint (2 + nlog + ninodeblocks)).

Definition main (files : list host_file) : M mkfs unit :=
  mmodify (λ s, Mkfs (mk_img s) mk_superblock (mk_freeinode s) nmeta);;
  clear_sectors 0 (Z.to_nat FSSIZE);;
  wsect 1 (splice 0 (sb_to_bytes mk_superblock) zero_block);;
  rootino ← ialloc T_DIR;
  assert_or_panic (rootino =? ROOTINO)%Z "rootino == ROOTINO";;
  iappend rootino (dirent_enc (xshort rootino) [46%Z]);;
  iappend rootino (dirent_enc (xshort rootino) [46%Z; 46%Z]);;
  add_files rootino files;;
  din ← rinode rootino;
  let off := xint (d_size din) in
  let off := ((off / BSIZE + 1) * BSIZE)%Z in
  winode rootino (set_dsize (xint off) din);;
  s ← mget;
  balloc (mk_freeblock s).

(** The globals at the start, and the empty file. *)
Definition mk_start : mkfs := Mkfs [] (Superblock 0 0 0 0 0 0 0) 1 0.

(** ** Arithmetic of the layout *)

Lemma mk_superblock_eq : mk_superblock = Superblock 2000 1941 200 30 2 32 58.
Proof. reflexivity. Qed.

Lemma xint_small x : is_u32 x → xint x = x.
Proof. apply u32_dec. Qed.

Lemma sector_small k : (0 ≤ k < FSSIZE)%Z → sector k = Z.to_nat k.
Proof. intros Hk. unfold sector. rewrite u32_small by plia. rewrite Z.div_mul by done. done. Qed.

Lemma div_BSn n : (Z.of_nat n / BSIZE)%Z = Z.of_nat (n `div` BSn).
Proof. by rewrite Nat2Z.inj_div, BSn_Z. Qed.

(** The number of blocks for [n] bytes, and with the indirect block. *)
Definition blocks_for (n : nat) : nat := (n + (BSn - 1)) `div` BSn.
Definition space (n : nat) : nat := blocks_for n + (if decide (NDn < blocks_for n) then 1 else 0).

(** The n-th block of a file's contents, filled up with zeros. *)
Definition chunk (bs : list Z) (bn : nat) : block := resize BSn 0%Z (drop (BSn * bn) bs).

Lemma chunk_nil bs bn : length bs ≤ BSn * bn → chunk bs bn = zero_block.
Proof. intros Hl. unfold chunk. rewrite drop_ge by done. by rewrite resize_nil. Qed.

Lemma chunk_ok bs bn : Forall is_byte bs → blk_ok (chunk bs bn).
Proof.
  intros Hb. unfold chunk. split; [by rewrite length_resize|]. apply Forall_resize; [done|]. by apply Forall_drop.
Qed.

Lemma chunk_lookup bs bn k : k < BSn → chunk bs bn !! k = Some (default 0%Z (bs !! (BSn * bn + k))).
Proof.
  intros Hk. unfold chunk. destruct (bs !! (BSn * bn + k)) as [x|] eqn:Hx; simpl.
  - rewrite lookup_resize by (rewrite ?length_drop; apply lookup_lt_Some in Hx; lia). by rewrite lookup_drop.
  - apply lookup_ge_None in Hx. rewrite lookup_resize_new; [done|rewrite length_drop; lia|done].
Qed.

(** Full blocks stay as they are when the file grows; the last one is filled. *)
Lemma chunk_app_full bs ps bn : BSn * S bn ≤ length bs → chunk (bs ++ ps) bn = chunk bs bn.
Proof.
  intros Hl. apply list_eq. intros k. destruct (decide (k < BSn)) as [Hk|Hk].
  - rewrite !chunk_lookup by done. rewrite lookup_app_l by lia. done.
  - rewrite !lookup_ge_None_2; [done|unfold chunk; rewrite length_resize; lia..].
Qed.

Lemma chunk_app_last bs ps : length bs `mod` BSn + length ps ≤ BSn →
  chunk (bs ++ ps) (length bs `div` BSn) = splice (length bs `mod` BSn) ps (chunk bs (length bs `div` BSn)).
Proof.
  intros Hl. set (bn := length bs `div` BSn) in *. set (r := length bs `mod` BSn) in *.
  assert (Hlen : length bs = BSn * bn + r) by apply Nat.div_mod_eq.
  assert (Hc : ∀ l, length (chunk l bn) = BSn) by (intros l; unfold chunk; by rewrite length_resize).
  apply list_eq. intros k. destruct (decide (k < BSn)) as [Hk|Hk].
  2:{ rewrite !lookup_ge_None_2; [done|rewrite splice_length; rewrite Hc; lia|rewrite Hc; lia]. }
  rewrite chunk_lookup by done. unfold splice. destruct (decide (k < r)) as [Hr|Hr].
  - rewrite lookup_app_l by lia. rewrite lookup_app_l by (rewrite length_take, Hc; lia). rewrite lookup_take_lt by done. by rewrite chunk_lookup.
  - rewrite lookup_app_r by lia. rewrite (lookup_app_r (take r _)) by (rewrite length_take, Hc; lia). rewrite length_take, Hc, Nat.min_l by lia.
    replace (BSn * bn + k - length bs) with (k - r) by lia. destruct (decide (k - r < length ps)) as [Hp|Hp].
    + rewrite lookup_app_l by done. destruct (lookup_lt_is_Some_2 ps (k - r) Hp) as [x Hx]. by rewrite Hx.
    + rewrite lookup_ge_None_2 by lia. rewrite lookup_app_r by lia. rewrite lookup_drop. replace (r + length ps + (k - r - length ps)) with k by lia.
      rewrite chunk_lookup by done. by rewrite lookup_ge_None_2 by lia.
Qed.

(** ** The image while it is built *)

Definition NMn : nat := Z.to_nat nmeta.
Lemma NMn_Z : Z.of_nat NMn = 59%Z.
Proof. reflexivity. Qed.
Definition FSn : nat := Z.to_nat FSSIZE.
Lemma FSn_Z : Z.of_nat FSn = 2000%Z.
Proof. reflexivity. Qed.
#[global] Opaque NMn FSn.

(** [ow] is the list of the data blocks' owners, the inodes that use them, from
    the first data block on. *)
Definition owned (ow : list Z) (inum : Z) (a : nat) : Prop := NMn ≤ a ∧ ow !! (a - NMn) = Some inum.

Record img (s : mkfs) (ow : list Z) : Prop := {
  im_len : length (mk_img s) = FSn;
  im_blk : Forall blk_ok (mk_img s);
  im_sb : mk_sb s = mk_superblock;
  im_super : mk_img s !! 1 = Some (splice 0 (sb_to_bytes mk_superblock) zero_block);
  im_log : mk_img s !! 2 = Some zero_block;
  im_free : mk_freeblock s = Z.of_nat (NMn + length ow);
  im_room : NMn + length ow ≤ FSn;
  im_fresh b : NMn + length ow ≤ b < FSn → mk_img s !! b = Some zero_block
}.

Lemma owned_lt s ow inum a : img s ow → owned ow inum a → NMn ≤ a < NMn + length ow ∧ a < FSn.
Proof. intros Hi [Ha Ho]. apply lookup_lt_Some in Ho. pose proof (im_room _ _ Hi). lia. Qed.

Lemma owned_prefix ow ow' inum a : ow `prefix_of` ow' → owned ow inum a → owned ow' inum a.
Proof. intros Hp [Ha Ho]. split; [done|]. by eapply prefix_lookup_Some. Qed.

Lemma owned_inj ow inum inum' a : owned ow inum a → owned ow inum' a → inum = inum'.
Proof. intros [_ H1] [_ H2]. congruence. Qed.

Lemma rsect_run s a d : a < FSn → mk_img s !! a = Some d → rsect (Z.of_nat a) s = Done d s.
Proof. intros Ha Hd. unfold rsect. pose proof FSn_Z. rewrite sector_small by plia. by rewrite Nat2Z.id, Hd. Qed.

Lemma wsect_run s a d : a < FSn → length (mk_img s) = FSn → wsect (Z.of_nat a) d s = Done tt (set_img (<[a := d]> (mk_img s)) s).
Proof.
  intros Ha Hl. unfold wsect, mmodify, put_sector. pose proof FSn_Z. rewrite sector_small by plia. rewrite Nat2Z.id.
  by rewrite decide_True by lia.
Qed.

(** A write to a block in use. *)
Lemma img_write s ow a d : img s ow → blk_ok d → 2 < a < NMn + length ow → img (set_img (<[a := d]> (mk_img s)) s) ow.
Proof.
  intros [Hl Hb Hsb Hs Hlog Hf Hr Hz] Hd Ha. constructor; simpl; try done.
  - by rewrite length_insert.
  - by apply Forall_insert.
  - by rewrite list_lookup_insert_ne by lia.
  - by rewrite list_lookup_insert_ne by lia.
  - intros b Hb'. rewrite list_lookup_insert_ne by lia. by apply Hz.
Qed.

(** *** The contents of one inode *)

Definition addr_of (o : option nat) : Z := match o with Some a => Z.of_nat a | None => 0%Z end.

Definition ind_list (o : option nat) : list nat := match o with Some a => [a] | None => [] end.

(** The bytes [bs] are in the blocks [l] of the inode's map, with the indirect
    block [ind]. *)
Record stored (v : list block) (ow : list Z) (inum : Z) (di : dinode) (bs : list Z) (l : list nat) (ind : option nat) : Prop := {
  so_ok : dinode_ok di;
  so_byte : Forall is_byte bs;
  so_max : length l ≤ MAXFn;
  so_addr bn : bn < MAXFn → faddr v (on_disk inum di) bn = addr_of (l !! bn);
  so_ind : d_addrs di !!! NDn = addr_of ind;
  so_ind_len : (match ind with Some _ => NDn ≤ length l | None => length l ≤ NDn end);
  so_owned : Forall (owned ow inum) (ind_list ind ++ l);
  so_nodup : NoDup (ind_list ind ++ l);
  so_bytes bn a : l !! bn = Some a → v !! a = Some (chunk bs bn)
}.

Lemma on_disk_addrs inum di : i_addrs (on_disk inum di) = d_addrs di.
Proof. done. Qed.

Lemma on_disk_faddr_ext v v' inum di bn : (∀ a, d_addrs di !!! NDn = Z.of_nat a → NMn ≤ a → v' !! a = v !! a) →
  (∀ a, d_addrs di !!! NDn = a → a = 0%Z ∨ (Z.of_nat NMn ≤ a)%Z) → faddr v' (on_disk inum di) bn = faddr v (on_disk inum di) bn.
Proof.
  intros Hv Ha. unfold faddr, ind_addr. rewrite on_disk_addrs. case_decide; [done|]. case_decide as Hz; [done|].
  destruct (Ha _ eq_refl) as [?|Hge]; [done|]. f_equal.
  rewrite (list_lookup_total_alt v'), (list_lookup_total_alt v), (Hv (Z.to_nat (d_addrs di !!! NDn))); [done|..]; lia.
Qed.

(** Only the inode's own blocks matter. *)
Lemma stored_frame v v' ow ow' inum di bs l ind : (∀ a, owned ow inum a → v' !! a = v !! a) → ow `prefix_of` ow' →
  stored v ow inum di bs l ind → stored v' ow' inum di bs l ind.
Proof.
  intros Hv Hp [Hok Hb Hm Ha Hi Hil Ho Hn Hbs]. pose proof Ho as [Hoi Hol]%Forall_app. constructor; try done.
  - intros bn Hbn. rewrite <-Ha by done. apply on_disk_faddr_ext; rewrite Hi; destruct ind as [i|]; cbn [addr_of ind_list] in *.
    + intros a ?%Nat2Z.inj _. subst a. apply Hv. by apply Forall_inv in Hoi.
    + intros a Hz Hge. pose proof NMn_Z. lia.
    + intros a <-. right. apply Forall_inv in Hoi as [? _]. lia.
    + intros a <-. by left.
  - eapply Forall_impl; [exact Ho|]. intros a. by apply owned_prefix.
  - intros bn a Hl. rewrite Hv; [by apply Hbs|]. by eapply (Forall_lookup_1 _ _ _ _ Hol).
Qed.

(** *** Taking a block *)

Definition took (s : mkfs) : mkfs := Mkfs (mk_img s) (mk_sb s) (mk_freeinode s) (mk_freeblock s + 1)%Z.

Lemma next_block_run s ow inum : img s ow → NMn + length ow < FSn →
  next_block s = Done (Z.of_nat (NMn + length ow)) (took s) ∧ img (took s) (ow ++ [inum]).
Proof.
  intros [Hl Hb Hsb Hs Hlog Hf Hr Hz] Hlt. pose proof FSn_Z. split.
  - unfold next_block, took. rewrite u32_small by plia. by rewrite Hf.
  - constructor; simpl; try done; rewrite length_app; simpl; [lia|lia|]. intros b Hb'. apply Hz. lia.
Qed.

Lemma owned_new ow inum : owned (ow ++ [inum]) inum (NMn + length ow).
Proof. split; [lia|]. replace (NMn + length ow - NMn) with (length ow) by lia. by apply list_lookup_middle. Qed.

Lemma owned_not_new ow inum (l : list nat) : Forall (owned ow inum) l → NMn + length ow ∉ l.
Proof.
  intros Hl Hin. rewrite Forall_forall in Hl. destruct (Hl _ Hin) as [_ Ho]. apply lookup_lt_Some in Ho. lia.
Qed.

Lemma dinode_ok_daddr di k v : dinode_ok di → is_u32 v → dinode_ok (set_daddr k v di).
Proof.
  intros [? ? ? ? ? [Hl Ha]] Hv. constructor; simpl; try done. split; [by rewrite length_insert|]. by apply Forall_insert.
Qed.

(** An entry that is 0 is filled. *)
Lemma xint_addr di k : dinode_ok di → xint (d_addrs di !!! k) = d_addrs di !!! k.
Proof.
  intros Hok. apply xint_small. destruct (do_addrs _ Hok) as [Hl Ha]. destruct (decide (k < NADDRS)) as [Hk|Hk].
  - eapply (Forall_lookup_1 _ _ k _ Ha). apply list_lookup_lookup_total_lt. lia.
  - rewrite list_lookup_total_alt, lookup_ge_None_2 by lia. simpl. plia.
Qed.

Lemma daddr_old s k di : dinode_ok di → d_addrs di !!! k ≠ 0%Z → daddr k di s = Done di s.
Proof. intros Hok Hk. unfold daddr. rewrite xint_addr by done. by rewrite decide_False. Qed.

Lemma daddr_new s ow k di : img s ow → NMn + length ow < FSn → d_addrs di !!! k = 0%Z →
  daddr k di s = Done (set_daddr k (Z.of_nat (NMn + length ow)) di) (took s).
Proof.
  intros Hi Hlt Hk. unfold daddr. rewrite Hk, decide_True by done. destruct (next_block_run s ow 0 Hi Hlt) as [Hn _].
  rewrite (run_bind _ _ _ _ _ Hn). pose proof FSn_Z. by rewrite xint_small by plia.
Qed.

Lemma faddr_daddr v inum di k a bn : k < NADDRS → length (d_addrs di) = NADDRS → (k = NDn → NDn ≤ bn → a = 0%Z ∨ get32 (4 * (bn - NDn)) (v !!! Z.to_nat a) = 0%Z) →
  (k = NDn → d_addrs di !!! NDn = 0%Z) →
  faddr v (on_disk inum (set_daddr k a di)) bn = if decide (k = bn ∧ k < NDn) then a else faddr v (on_disk inum di) bn.
Proof.
  intros Hk Hl Hz H0. unfold faddr, ind_addr. rewrite !on_disk_addrs. cbn [d_addrs set_daddr]. destruct (decide (bn < NDn)) as [Hb|Hb].
  - destruct (decide (k = bn)) as [->|Hne].
    + rewrite list_lookup_total_insert_eq by lia. by rewrite decide_True.
    + rewrite list_lookup_total_insert_ne by done. rewrite decide_False; [done|]. by intros [? _].
  - rewrite (decide_False (P := k = bn ∧ k < NDn)) by lia. destruct (decide (k = NDn)) as [->|Hne].
    + rewrite list_lookup_total_insert_eq by lia. rewrite (H0 eq_refl), (decide_True (P := 0%Z = 0%Z)) by done.
      case_decide; [done|]. destruct (Hz eq_refl ltac:(lia)); done.
    + by rewrite list_lookup_total_insert_ne by done.
Qed.

(** *** One more block for a file *)

Lemma sizes : NDn = 12 ∧ MAXFn = 140 ∧ BSn = 512.
Proof. pose proof NDn_Z. pose proof MAXFn_Z as Hm. pose proof BSn_Z. change MAXFILE with 140%Z in Hm. plia. Qed.

Lemma naddrs_S : NADDRS = S NDn.
Proof. reflexivity. Qed.

Lemma get32_zero_block k : get32 k zero_block = 0%Z.
Proof.
  unfold get32, bytes_at, zero_block. rewrite drop_replicate, take_replicate.
  generalize (4 `min` (Z.to_nat BSIZE - k)). intros n. induction n as [|n IH]; [done|]. simpl. by rewrite IH.
Qed.

Lemma addr_snoc (l : list nat) a bn : addr_of ((l ++ [a]) !! bn) = if decide (length l = bn) then Z.of_nat a else addr_of (l !! bn).
Proof.
  case_decide as Hb; [subst; by rewrite list_lookup_middle|]. destruct (decide (bn < length l)).
  - by rewrite lookup_app_l.
  - rewrite !lookup_ge_None_2; [done|lia|rewrite length_app; simpl; lia].
Qed.

Lemma stored_bytes_snoc (v : list block) bs (l : list nat) a : (∀ bn a, l !! bn = Some a → v !! a = Some (chunk bs bn)) → v !! a = Some zero_block →
  length bs ≤ BSn * length l → ∀ bn b, (l ++ [a]) !! bn = Some b → v !! b = Some (chunk bs bn).
Proof.
  intros Hbs Ha Hl bn b Hb. apply lookup_app_Some in Hb as [Hb|[Hge Hb]]; [by apply Hbs|].
  apply list_lookup_singleton_Some in Hb as [Hz <-]. rewrite Ha. f_equal. rewrite chunk_nil; [done|]. replace bn with (length l) by lia. done.
Qed.

Lemma new_in_list ow inum l : Forall (owned ow inum) l → NoDup l →
  Forall (owned (ow ++ [inum]) inum) (l ++ [NMn + length ow]) ∧ NoDup (l ++ [NMn + length ow]).
Proof.
  intros Ho Hn. split.
  - apply Forall_app. split; [|apply Forall_singleton, owned_new]. eapply Forall_impl; [exact Ho|]. intros a. apply owned_prefix. by exists [inum].
  - apply NoDup_app. split_and!; [done| |apply NoDup_singleton]. intros a Ha Hin. apply list_elem_of_singleton in Hin. subst.
    by eapply owned_not_new.
Qed.

(** A direct block. *)
Lemma stored_direct v ow inum di bs l : stored v ow inum di bs l None → length l < NDn → NMn + length ow < FSn →
  v !! (NMn + length ow) = Some zero_block → length bs ≤ BSn * length l →
  stored v (ow ++ [inum]) inum (set_daddr (length l) (Z.of_nat (NMn + length ow)) di) bs (l ++ [NMn + length ow]) None.
Proof.
  intros [Hok Hb Hm Ha Hi Hil Ho Hn Hbs] Hl Hfs Hz Hlen. pose proof FSn_Z. pose proof naddrs_S. pose proof sizes as (? & ? & ?).
  destruct (new_in_list ow inum l Ho Hn) as [Ho' Hn']. constructor; try done.
  - apply dinode_ok_daddr; [done|plia].
  - rewrite length_app. simpl. plia.
  - intros bn Hbn. rewrite faddr_daddr; [|lia|apply Hok|lia..]. rewrite addr_snoc. destruct (decide (length l = bn)) as [<-|Hne].
    + by rewrite decide_True.
    + rewrite decide_False by tauto. by apply Ha.
  - cbn [d_addrs set_daddr]. by rewrite list_lookup_total_insert_ne by lia.
  - simpl. rewrite length_app. simpl. lia.
  - by apply stored_bytes_snoc.
Qed.

(** The indirect block. *)
Lemma stored_new_ind v ow inum di bs l : stored v ow inum di bs l None → length l = NDn → NMn + length ow < FSn →
  v !! (NMn + length ow) = Some zero_block →
  stored v (ow ++ [inum]) inum (set_daddr NDn (Z.of_nat (NMn + length ow)) di) bs l (Some (NMn + length ow)).
Proof.
  intros [Hok Hb Hm Ha Hi Hil Ho Hn Hbs] Hl Hfs Hz. pose proof FSn_Z. pose proof naddrs_S.
  destruct (new_in_list ow inum l Ho Hn) as [Ho' Hn']. assert (Hperm : l ++ [NMn + length ow] ≡ₚ [NMn + length ow] ++ l) by apply Permutation_app_comm.
  constructor; try done.
  - apply dinode_ok_daddr; [done|plia].
  - intros bn Hbn. rewrite faddr_daddr; [|lia|apply Hok| |done].
    + rewrite decide_False by lia. by apply Ha.
    + intros _ Hge. right. rewrite Nat2Z.id, list_lookup_total_alt, Hz. apply get32_zero_block.
  - cbn [d_addrs set_daddr]. rewrite list_lookup_total_insert_eq; [done|]. rewrite (proj1 (do_addrs _ Hok)). lia.
  - simpl. lia.
  - by rewrite <-Hperm.
  - by rewrite <-Hperm.
Qed.

(** A block through the indirect block [i]. *)
Lemma stored_indirect v ow inum di bs l i d : stored v ow inum di bs l (Some i) → length l < MAXFn → NMn + length ow < FSn → length v = FSn →
  v !! (NMn + length ow) = Some zero_block → length bs ≤ BSn * length l → v !! i = Some d → blk_ok d →
  stored (<[i := put32 (4 * (length l - NDn)) (Z.of_nat (NMn + length ow)) d]> v) (ow ++ [inum]) inum di bs (l ++ [NMn + length ow]) (Some i).
Proof.
  intros [Hok Hb Hm Ha Hi Hil Ho Hn Hbs] Hl Hfs Hv Hz Hlen Hd Hdok. pose proof FSn_Z. pose proof sizes as (? & ? & ?).
  destruct (new_in_list ow inum ([i] ++ l) Ho Hn) as [Ho' Hn']. rewrite <-app_assoc in Ho', Hn'.
  assert (Hil' : i ∉ l) by (simpl in Hn; by apply NoDup_cons in Hn as [? _]). assert (Hif : NMn ≤ i < NMn + length ow).
  { apply Forall_app in Ho as [Hoi _]. apply Forall_inv in Hoi as [? Hoi]. apply lookup_lt_Some in Hoi. lia. }
  constructor; try done.
  - rewrite length_app. simpl. lia.
  - intros bn Hbn. rewrite addr_snoc. pose proof (Ha bn Hbn) as Habn. unfold faddr, ind_addr in *. rewrite on_disk_addrs in *. rewrite Hi in *.
    simpl addr_of in *. destruct (decide (bn < NDn)) as [Hb'|Hb']; [rewrite decide_False by lia; done|].
    rewrite decide_False in * by (pose proof NMn_Z; lia). rewrite Nat2Z.id in *. rewrite list_lookup_total_insert_eq by (rewrite Hv; lia).
    rewrite (list_lookup_total_correct _ _ _ Hd) in Habn. destruct Hdok as [Hdl _]. destruct (decide (length l = bn)) as [Hbl|Hbl].
    + subst bn. apply get32_put32_eq; [plia|plia].
    + rewrite get32_put32_ne; [done|plia|lia].
  - simpl. rewrite length_app. simpl. lia.
  - intros bn a Hla. rewrite list_lookup_insert_ne; [revert bn a Hla; by apply stored_bytes_snoc|]. intros <-.
    apply list_elem_of_lookup_2, elem_of_app in Hla as [?|Hin%list_elem_of_singleton]; [done|lia].
Qed.

(** *** Steps of [iappend] on one inode *)

(** What such steps leave alone: the blocks of the others, the inode counter,
    the kind of the inode. *)
Record extends (inum : Z) (s : mkfs) (ow : list Z) (di : dinode) (s' : mkfs) (ow' : list Z) (di' : dinode) : Prop := {
  ex_prefix : ow `prefix_of` ow';
  ex_same b : ¬ owned ow' inum b → mk_img s' !! b = mk_img s !! b;
  ex_ino : mk_freeinode s' = mk_freeinode s;
  ex_di : d_type di' = d_type di ∧ d_nlink di' = d_nlink di
}.

Lemma extends_refl inum s ow di : extends inum s ow di s ow di.
Proof. by constructor. Qed.

Lemma extends_trans inum s ow di s1 ow1 di1 s2 ow2 di2 :
  extends inum s ow di s1 ow1 di1 → extends inum s1 ow1 di1 s2 ow2 di2 → extends inum s ow di s2 ow2 di2.
Proof.
  intros [Hp Hs Hi [Ht Hn]] [Hp' Hs' Hi' [Ht' Hn']]. constructor; [by etrans| |congruence|split; congruence].
  intros b Hb. rewrite Hs' by done. apply Hs. intros Ho. apply Hb. by eapply owned_prefix.
Qed.

Lemma extends_took inum s ow di di' : d_type di' = d_type di → d_nlink di' = d_nlink di → extends inum s ow di (took s) (ow ++ [inum]) di'.
Proof. constructor; [by exists [inum]|done..]. Qed.

Lemma extends_write inum s ow di a d : owned ow inum a → extends inum s ow di (set_img (<[a := d]> (mk_img s)) s) ow di.
Proof. intros Ho. constructor; simpl; try done. intros b Hb. apply list_lookup_insert_ne. by intros ->. Qed.

Lemma NDn_eq : Z.to_nat NDIRECT = NDn.
Proof. pose proof NDn_Z. plia. Qed.

(** The block exists. *)
Lemma file_block_old s ow inum di bs l ind fbn a : img s ow → stored (mk_img s) ow inum di bs l ind → l !! fbn = Some a →
  file_block fbn di s = Done (di, Z.of_nat a) s.
Proof.
  intros Hi Hst Ha. pose proof Hst as [Hok Hb Hm Had Hind Hil Ho Hn Hbs]. assert (Hfbn : fbn < length l) by by eapply lookup_lt_Some.
  apply Forall_app in Ho as [Hoi Hol]. destruct (owned_lt _ _ _ _ Hi (Forall_lookup_1 _ _ _ _ Hol Ha)) as [Ha1 Ha2]. pose proof NMn_Z. pose proof FSn_Z.
  pose proof (Had fbn ltac:(lia)) as Hf. rewrite Ha in Hf. simpl in Hf. unfold faddr, ind_addr in Hf. rewrite on_disk_addrs in Hf.
  unfold file_block. rewrite NDn_eq. destruct (decide (fbn < NDn)) as [Hd|Hd].
  - rewrite (run_bind _ _ _ _ _ (daddr_old s fbn di Hok ltac:(lia))). by rewrite xint_addr, Hf.
  - case_decide as Hz; [lia|]. rewrite (run_bind _ _ _ _ _ (daddr_old s NDn di Hok Hz)). rewrite xint_addr by done.
    destruct ind as [i|]; simpl in Hind; [|done]. rewrite Hind, Nat2Z.id in *. apply Forall_inv in Hoi. destruct (owned_lt _ _ _ _ Hi Hoi) as [_ Hi2].
    destruct (lookup_lt_is_Some_2 (mk_img s) i) as [d Hdi]; [rewrite (im_len _ _ Hi); lia|].
    rewrite (list_lookup_total_correct _ _ _ Hdi) in Hf. rewrite (run_bind _ _ _ _ _ (rsect_run s i d Hi2 Hdi)). rewrite Hf, decide_False by lia.
    rewrite (run_bind _ _ s d s) by done. rewrite Hf. by rewrite xint_small by plia.
Qed.

(** It is a new direct block. *)
Lemma file_block_direct s ow inum di bs l ind : img s ow → stored (mk_img s) ow inum di bs l ind → length l < NDn →
  NMn + length ow < FSn → length bs ≤ BSn * length l →
  ∃ di', file_block (length l) di s = Done (di', Z.of_nat (NMn + length ow)) (took s) ∧
    stored (mk_img s) (ow ++ [inum]) inum di' bs (l ++ [NMn + length ow]) ind ∧ extends inum s ow di (took s) (ow ++ [inum]) di'.
Proof.
  intros Hi Hst Hl Hlt Hlen. pose proof sizes as (? & ? & ?). pose proof FSn_Z. pose proof (so_addr _ _ _ _ _ _ _ Hst (length l) ltac:(lia)) as Hf.
  rewrite lookup_ge_None_2 in Hf by lia. unfold faddr in Hf. rewrite decide_True in Hf by done. rewrite on_disk_addrs in Hf.
  assert (ind = None) as -> by (pose proof (so_ind_len _ _ _ _ _ _ _ Hst); by destruct ind; [lia|]).
  eexists. unfold file_block. rewrite NDn_eq, decide_True by done. rewrite (run_bind _ _ _ _ _ (daddr_new s ow _ _ Hi Hlt Hf)). split; [|split].
  - cbn [d_addrs set_daddr]. rewrite list_lookup_total_insert_eq by (rewrite (proj1 (do_addrs _ (so_ok _ _ _ _ _ _ _ Hst))), naddrs_S; lia).
    by rewrite xint_small by plia.
  - apply stored_direct; try done. apply (im_fresh _ _ Hi). lia.
  - by apply extends_took.
Qed.

(** The part of [file_block] from the read of the indirect block on. *)
Definition through_ind (k : nat) (a : Z) (din : dinode) : M mkfs (dinode * Z) :=
  indirect ← rsect a;
  indirect ← (if decide (get32 k indirect = 0%Z) then
      b ← next_block;
      let indirect := put32 k (xint b) indirect in
      wsect a indirect;;
      mret indirect
    else mret indirect);
  mret (din, xint (get32 k indirect)).

Lemma through_ind_new s ow inum di bs l i : img s ow → stored (mk_img s) ow inum di bs l (Some i) → NDn ≤ length l < MAXFn →
  NMn + length ow < FSn → length bs ≤ BSn * length l →
  ∃ s', through_ind (4 * (length l - NDn)) (Z.of_nat i) di s = Done (di, Z.of_nat (NMn + length ow)) s' ∧
    img s' (ow ++ [inum]) ∧ stored (mk_img s') (ow ++ [inum]) inum di bs (l ++ [NMn + length ow]) (Some i) ∧
    extends inum s ow di s' (ow ++ [inum]) di.
Proof.
  intros Hi Hst Hl Hlt Hlen. pose proof sizes as (? & ? & ?). pose proof FSn_Z. pose proof NMn_Z. pose proof (so_addr _ _ _ _ _ _ _ Hst (length l) ltac:(lia)) as Hf.
  rewrite lookup_ge_None_2 in Hf by lia. unfold faddr, ind_addr in Hf. rewrite on_disk_addrs, (so_ind _ _ _ _ _ _ _ Hst) in Hf. cbn [addr_of] in Hf.
  pose proof (so_owned _ _ _ _ _ _ _ Hst) as [Hoi _]%Forall_app. apply Forall_inv in Hoi. destruct (owned_lt _ _ _ _ Hi Hoi) as [Hi1 Hi2].
  rewrite !decide_False, Nat2Z.id in Hf by lia. destruct (lookup_lt_is_Some_2 (mk_img s) i) as [d Hd]; [rewrite (im_len _ _ Hi); lia|].
  rewrite (list_lookup_total_correct _ _ _ Hd) in Hf. pose proof (Forall_lookup_1 _ _ _ _ (im_blk _ _ Hi) Hd) as Hdok.
  destruct (next_block_run s ow inum Hi Hlt) as [Hn Hi']. set (k := 4 * (length l - NDn)) in *. set (d' := put32 k (Z.of_nat (NMn + length ow)) d).
  assert (Hd' : blk_ok d').
  { apply blk_ok_splice; [done|apply le_enc_byte|]. rewrite le_enc_length. unfold k. plia. }
  exists (set_img (<[i := d']> (mk_img (took s))) (took s)). unfold through_ind. rewrite (run_bind _ _ _ _ _ (rsect_run s i d Hi2 Hd)).
  rewrite Hf, (decide_True (P := 0%Z = 0%Z)) by done. split.
  - rewrite (run_bind _ _ s d' (set_img (<[i := d']> (mk_img (took s))) (took s))).
    + unfold d'. rewrite get32_put32_eq by (destruct Hdok; unfold k; plia). by rewrite xint_small by plia.
    + rewrite (run_bind _ _ _ _ _ Hn). rewrite xint_small by plia. fold d'. cbv zeta.
      by rewrite (run_bind _ _ _ _ _ (wsect_run (took s) i d' Hi2 (im_len _ _ Hi'))).
  - split; [apply img_write; [done..|rewrite length_app; simpl; lia]|]. split.
    + apply stored_indirect; try done; [lia|apply Hi|apply (im_fresh _ _ Hi); lia].
    + eapply extends_trans; [by apply (extends_took _ _ _ _ di)|]. apply extends_write. eapply owned_prefix; [by exists [inum]|done].
Qed.

(** It is a new block behind the direct ones. *)
Lemma file_block_indirect s ow inum di bs l ind : img s ow → stored (mk_img s) ow inum di bs l ind → NDn ≤ length l < MAXFn →
  NMn + length ow + (match ind with Some _ => 1 | None => 2 end) ≤ FSn → length bs ≤ BSn * length l →
  ∃ s' ow' di' i a, file_block (length l) di s = Done (di', Z.of_nat a) s' ∧ img s' ow' ∧
    stored (mk_img s') ow' inum di' bs (l ++ [a]) (Some i) ∧ extends inum s ow di s' ow' di' ∧
    length ow' = length ow + (match ind with Some _ => 1 | None => 2 end).
Proof.
  intros Hi Hst Hl Hlt Hlen. pose proof FSn_Z. pose proof NMn_Z. unfold file_block. rewrite NDn_eq, (decide_False (P := length l < NDn)) by lia. cbv zeta.
  pose proof (so_ind _ _ _ _ _ _ _ Hst) as Hind. destruct ind as [i|]; cbn [addr_of] in Hind.
  - pose proof (so_owned _ _ _ _ _ _ _ Hst) as [Hoi _]%Forall_app. apply Forall_inv in Hoi. destruct (owned_lt _ _ _ _ Hi Hoi) as [Hi1 Hi2].
    rewrite (run_bind _ _ _ _ _ (daddr_old s NDn di (so_ok _ _ _ _ _ _ _ Hst) ltac:(lia))). rewrite xint_addr, Hind by apply Hst.
    destruct (through_ind_new s ow inum di bs l i Hi Hst Hl ltac:(lia) Hlen) as (s' & Hrun & Hi' & Hst' & Hex).
    exists s', (ow ++ [inum]), di, i, (NMn + length ow). split; [exact Hrun|]. rewrite length_app. by split_and!.
  - assert (HlND : length l = NDn) by (pose proof (so_ind_len _ _ _ _ _ _ _ Hst); simpl in *; lia).
    assert (Hlt1 : NMn + length ow < FSn) by lia. rewrite (run_bind _ _ _ _ _ (daddr_new s ow NDn di Hi Hlt1 Hind)).
    destruct (next_block_run s ow inum Hi Hlt1) as [_ Hi1].
    pose proof (stored_new_ind _ _ _ _ _ _ Hst HlND Hlt1 (im_fresh _ _ Hi (NMn + length ow) ltac:(lia))) as Hst1. set (di1 := set_daddr _ _ _) in *.
    rewrite xint_addr by apply Hst1. rewrite (so_ind _ _ _ _ _ _ _ Hst1). cbn [addr_of].
    destruct (through_ind_new (took s) (ow ++ [inum]) inum di1 bs l _ Hi1 Hst1 Hl) as (s' & Hrun & Hi' & Hst' & Hex);
      [rewrite length_app; simpl; lia|done|].
    exists s', ((ow ++ [inum]) ++ [inum]), di1, (NMn + length ow), (NMn + length (ow ++ [inum])). split; [exact Hrun|]. split; [done|]. split; [done|].
    split; [by eapply extends_trans; [by apply (extends_took _ _ _ _ di1)|]|]. rewrite !length_app. simpl. lia.
Qed.

(** The blocks of a file of [n] bytes. *)
Record fits (n : nat) (l : list nat) (ind : option nat) : Prop := {
  fi_blocks : length l = blocks_for n;
  fi_ind : length (ind_list ind) = if decide (NDn < length l) then 1 else 0
}.

Lemma fits_space n l ind : fits n l ind → length l + length (ind_list ind) = space n.
Proof. intros [Hl Hi]. unfold space. by rewrite Hi, Hl. Qed.

Lemma blocks_for_div n : blocks_for n = n `div` BSn + (if decide (n `mod` BSn = 0) then 0 else 1).
Proof.
  pose proof sizes as (_ & _ & HB). unfold blocks_for. rewrite HB. pose proof (Nat.div_mod_eq n 512). pose proof (Nat.mod_upper_bound n 512 ltac:(lia)).
  case_decide as Hm.
  - symmetry. apply (Nat.div_unique _ 512 _ 511); lia.
  - symmetry. apply (Nat.div_unique _ 512 _ (n `mod` 512 - 1)); lia.
Qed.

Lemma blocks_for_last n k : 0 < k → n `mod` BSn + k ≤ BSn → blocks_for (n + k) = S (n `div` BSn).
Proof.
  pose proof sizes as (_ & _ & HB). unfold blocks_for. rewrite HB. intros Hk Hr. pose proof (Nat.div_mod_eq n 512).
  symmetry. apply (Nat.div_unique _ 512 _ (n `mod` 512 + k - 1)); lia.
Qed.

Lemma blocks_for_mono n m : n ≤ m → blocks_for n ≤ blocks_for m.
Proof. intros Hle. pose proof BSn_pos. apply Nat.Div0.div_le_mono. lia. Qed.

Lemma space_mono n m : n ≤ m → space n ≤ space m.
Proof. intros Hle. apply blocks_for_mono in Hle. unfold space. repeat case_decide; lia. Qed.

Lemma space_0 : space 0 = 0.
Proof. unfold space, blocks_for. pose proof sizes as (-> & _ & ->). done. Qed.

(** The block that the next byte of the file goes to. *)
Lemma file_block_spec s ow inum di bs l ind : img s ow → stored (mk_img s) ow inum di bs l ind → fits (length bs) l ind →
  length bs < MAXFn * BSn → NMn + length ow + space (S (length bs)) ≤ FSn + space (length bs) →
  ∃ s' ow' di' l' ind' a, file_block (length bs `div` BSn) di s = Done (di', Z.of_nat a) s' ∧ img s' ow' ∧
    stored (mk_img s') ow' inum di' bs l' ind' ∧ extends inum s ow di s' ow' di' ∧ l' !! (length bs `div` BSn) = Some a ∧
    fits (S (length bs)) l' ind' ∧ length ow' + space (length bs) = length ow + space (S (length bs)).
Proof.
  intros Hi Hst Hfit Hmax Hroom. pose proof (fits_space _ _ _ Hfit) as Hsp. pose proof Hfit as [Hl Hind]. pose proof sizes as (HN & HM & HB).
  assert (Hfbn : length bs `div` BSn < MAXFn) by (apply Nat.Div0.div_lt_upper_bound; lia). pose proof (Nat.mod_upper_bound (length bs) BSn ltac:(lia)) as Hmod.
  pose proof (blocks_for_last (length bs) 1 ltac:(lia) ltac:(lia)) as HS. rewrite Nat.add_1_r in HS. rewrite blocks_for_div in Hl.
  pose proof (Nat.div_mod_eq (length bs) BSn) as Hdm. set (fbn := length bs `div` BSn) in *. destruct (decide (length bs `mod` BSn = 0)) as [Hz|Hz].
  - rewrite Nat.add_0_r in Hl. assert (Hsp' : space (S (length bs)) = S fbn + (if decide (NDn < S fbn) then 1 else 0)) by (unfold space; by rewrite HS).
    destruct (decide (fbn < NDn)) as [Hd|Hd].
    + rewrite decide_False in Hind by lia. rewrite decide_False in Hsp' by lia. destruct ind; [done|]. simpl in Hsp. destruct (file_block_direct s ow inum di bs l None) as (di' & Hrun & Hst' & Hex); try done; [lia..|].
      rewrite Hl in Hrun. destruct (next_block_run s ow inum Hi ltac:(lia)) as [_ Hi'].
      exists (took s), (ow ++ [inum]), di', (l ++ [NMn + length ow]), None, (NMn + length ow). split_and!; try done.
      * rewrite <-Hl. apply list_lookup_middle. done.
      * constructor; [rewrite length_app, HS, Hl; simpl; lia|]. rewrite length_app, decide_False; [done|simpl; lia].
      * rewrite length_app. simpl. lia.
    + rewrite decide_True in Hsp' by lia. destruct (file_block_indirect s ow inum di bs l ind) as (s' & ow' & di' & i & a & Hrun & Hi' & Hst' & Hex & How); try done; [lia| |lia|].
      { destruct ind; simpl in *; [|case_decide; [done|]]; lia. }
      rewrite Hl in Hrun. exists s', ow', di', (l ++ [a]), (Some i), a. split_and!; try done.
      * rewrite <-Hl. apply list_lookup_middle. done.
      * constructor; [rewrite length_app, HS, Hl; simpl; lia|]. rewrite length_app, decide_True; [done|simpl; lia].
      * destruct ind; simpl in *; lia.
  - destruct (lookup_lt_is_Some_2 l fbn) as [a Ha]; [lia|]. exists s, ow, di, l, ind, a. assert (Hb : blocks_for (S (length bs)) = blocks_for (length bs)).
    { rewrite HS, (blocks_for_div (length bs)), decide_False by done. fold fbn. lia. }
    split_and!; try done; [by eapply file_block_old| |].
    + constructor; [by rewrite Hb; apply Hfit|apply Hfit].
    + unfold space. by rewrite Hb.
Qed.

(** The bytes are copied into the block. *)
Lemma stored_fill v ow inum di bs l ind a ps : stored v ow inum di bs l ind → length v = FSn → a < FSn → l !! (length bs `div` BSn) = Some a →
  length l = S (length bs `div` BSn) → length bs `mod` BSn + length ps ≤ BSn → Forall is_byte ps →
  stored (<[a := chunk (bs ++ ps) (length bs `div` BSn)]> v) ow inum di (bs ++ ps) l ind.
Proof.
  intros [Hok Hb Hm Ha Hi Hil Ho Hn Hbs] Hv Haf Hla Hlen Hr Hps. set (fbn := length bs `div` BSn) in *.
  assert (Hal : a ∈ l) by by eapply list_elem_of_lookup_2. pose proof Ho as [Hoi Hol]%Forall_app. apply NoDup_app in Hn as (Hni & Hsep & Hnl).
  constructor; try done.
  - by apply Forall_app.
  - intros bn Hbn. rewrite <-Ha by done. apply on_disk_faddr_ext; rewrite Hi; destruct ind as [i|]; simpl.
    + intros b ?%Nat2Z.inj _. subst b. apply list_lookup_insert_ne. intros ->. apply (Hsep i); [by left|done].
    + intros b Hz Hge. pose proof NMn_Z. lia.
    + intros b <-. right. apply Forall_inv in Hoi as [? _]. lia.
    + intros b <-. by left.
  - apply NoDup_app. by split_and!.
  - intros bn b Hlb. destruct (decide (bn = fbn)) as [->|Hne].
    + assert (b = a) as -> by congruence. apply list_lookup_insert_eq. by rewrite Hv.
    + rewrite list_lookup_insert_ne; [|intros <-; apply Hne; by eapply NoDup_lookup]. rewrite chunk_app_full; [by apply Hbs|].
      assert (Hbl : bn < fbn) by (apply lookup_lt_Some in Hlb; lia). pose proof (Nat.div_mod_eq (length bs) BSn). fold fbn in H. nia.
Qed.

(** One round of [iappend]'s loop copies some of the bytes. *)
Lemma append_round s ow inum di bs l ind p : img s ow → stored (mk_img s) ow inum di bs l ind → fits (length bs) l ind → p ≠ [] →
  Forall is_byte p → length bs + length p ≤ MAXFn * BSn → NMn + length ow + space (length bs + length p) ≤ FSn + space (length bs) →
  ∃ n s' ow' di' l' ind', 0 < n ≤ length p ∧ let bs' := bs ++ take n p in
    (∀ fuel, append_loop (S fuel) (Z.of_nat (length bs)) p di s = append_loop fuel (Z.of_nat (length bs')) (drop n p) di' s') ∧ img s' ow' ∧
    stored (mk_img s') ow' inum di' bs' l' ind' ∧ fits (length bs') l' ind' ∧ extends inum s ow di s' ow' di' ∧
    length ow' + space (length bs) = length ow + space (length bs').
Proof.
  intros Hi Hst Hfit Hne Hp Hmax Hroom. pose proof sizes as (HN & HM & HB). assert (Hpl : 0 < length p) by (destruct p; [done|simpl; lia]).
  assert (Hfbn : length bs `div` BSn < MAXFn) by (apply Nat.Div0.div_lt_upper_bound; lia).
  destruct (file_block_spec s ow inum di bs l ind) as (s1 & ow1 & di1 & l1 & ind1 & a & Hrun & Hi1 & Hst1 & Hex1 & Ha & Hfit1 & How1); try done; [lia| |].
  { pose proof (space_mono (S (length bs)) (length bs + length p) ltac:(lia)). lia. }
  pose proof (Nat.div_mod_eq (length bs) BSn) as Hdm. pose proof (Nat.mod_upper_bound (length bs) BSn ltac:(lia)) as Hmod.
  set (r := length bs `mod` BSn) in *. set (n := length p `min` (BSn - r)). assert (Htl : length (take n p) = n) by (rewrite length_take; lia).
  assert (Hlen' : length (bs ++ take n p) = length bs + n) by (rewrite length_app, Htl; done).
  pose proof (so_owned _ _ _ _ _ _ _ Hst1) as [_ Hol]%Forall_app. pose proof (Forall_lookup_1 _ _ _ _ Hol Ha) as Hoa. destruct (owned_lt _ _ _ _ Hi1 Hoa) as [Ha1 Ha2].
  assert (HbS : blocks_for (S (length bs)) = S (length bs `div` BSn)) by (rewrite <-Nat.add_1_r; apply blocks_for_last; fold r; lia).
  assert (Hb1 : blocks_for (length bs + n) = S (length bs `div` BSn)) by (apply blocks_for_last; fold r; lia).
  set (s2 := set_img (<[a := chunk (bs ++ take n p) (length bs `div` BSn)]> (mk_img s1)) s1). assert (Htp : Forall is_byte (take n p)) by by apply Forall_take.
  exists n, s2, ow1, di1, l1, ind1. split; [lia|]. cbv zeta. split; [|split_and!].
  - intros fuel. cbn [append_loop]. rewrite decide_False by done. pose proof BSn_Z as HBZ. rewrite div_BSn. set (fbn := length bs `div` BSn) in *.
    rewrite (run_bind _ _ s tt s) by (rewrite (proj2 (Z.ltb_lt _ _)); [done|rewrite <-MAXFn_Z; lia]). rewrite Nat2Z.id.
    rewrite (run_bind _ _ _ _ _ Hrun). cbv beta iota zeta.
    replace (Z.to_nat (Z.min (Z.of_nat (length p)) ((Z.of_nat fbn + 1) * BSIZE - Z.of_nat (length bs)))) with n by (unfold n; rewrite <-BSn_Z; lia).
    replace (Z.to_nat (Z.of_nat (length bs) - Z.of_nat fbn * BSIZE)) with r by (rewrite <-BSn_Z; lia).
    rewrite (run_bind _ _ _ _ _ (rsect_run s1 a _ Ha2 (so_bytes _ _ _ _ _ _ _ Hst1 _ _ Ha))).
    unfold r, fbn. rewrite <-chunk_app_last by (rewrite Htl; fold r; lia). rewrite (run_bind _ _ _ _ _ (wsect_run s1 a _ Ha2 (im_len _ _ Hi1))).
    rewrite u32_small by plia. rewrite Hlen', Nat2Z.inj_add. done.
  - apply img_write; [done|apply chunk_ok, Forall_app; split; [apply Hst|done]|pose proof NMn_Z; lia].
  - apply stored_fill; try done; [apply Hi1|rewrite (fi_blocks _ _ _ Hfit1); done|rewrite Htl; fold r; lia].
  - rewrite Hlen'. destruct Hfit1 as [Hf1 Hf2]. constructor; [by rewrite Hb1, Hf1, HbS|done].
  - eapply extends_trans; [exact Hex1|]. by apply extends_write.
  - rewrite Hlen'. unfold space in *. rewrite Hb1. rewrite HbS in How1. lia.
Qed.

(** The loop appends all of them. *)
Lemma append_loop_spec fuel s ow inum di bs l ind p : img s ow → stored (mk_img s) ow inum di bs l ind → fits (length bs) l ind →
  Forall is_byte p → length bs + length p ≤ MAXFn * BSn → NMn + length ow + space (length bs + length p) ≤ FSn + space (length bs) → length p ≤ fuel →
  ∃ s' ow' di' l' ind', append_loop fuel (Z.of_nat (length bs)) p di s = Done (Z.of_nat (length (bs ++ p)), di') s' ∧ img s' ow' ∧
    stored (mk_img s') ow' inum di' (bs ++ p) l' ind' ∧ fits (length (bs ++ p)) l' ind' ∧ extends inum s ow di s' ow' di' ∧
    length ow' + space (length bs) = length ow + space (length (bs ++ p)).
Proof.
  revert s ow di bs l ind p. induction fuel as [|fuel IH]; intros s ow di bs l ind p Hi Hst Hfit Hp Hmax Hroom Hfuel.
  { destruct p; [|simpl in *; lia]. exists s, ow, di, l, ind. rewrite app_nil_r. split_and!; try done. }
  destruct (decide (p = [])) as [->|Hne]; [exists s, ow, di, l, ind; rewrite app_nil_r; by split_and!|].
  destruct (append_round s ow inum di bs l ind p) as (n & s1 & ow1 & di1 & l1 & ind1 & Hn & Hrun & Hi1 & Hst1 & Hfit1 & Hex1 & How1); try done.
  assert (Hlen : length (bs ++ take n p) + length (drop n p) = length bs + length p) by (rewrite length_app, length_take, length_drop; lia).
  destruct (IH s1 ow1 di1 (bs ++ take n p) l1 ind1 (drop n p)) as (s' & ow' & di' & l' & ind' & Hrun' & Hi' & Hst' & Hfit' & Hex' & How'); try done.
  - by apply Forall_drop.
  - lia.
  - rewrite Hlen. lia.
  - rewrite length_drop. lia.
  - rewrite <-app_assoc, take_drop in *. exists s', ow', di', l', ind'. rewrite Hrun. split_and!; try done; [by eapply extends_trans|lia].
Qed.

(** ** Inodes of the image *)

Lemma iblk_range inum : (0 ≤ inum < NINODES)%Z → 32 ≤ iblk mk_superblock inum < NMn - 1.
Proof.
  unfold NINODES. intros Hi. unfold iblk. change (Z.to_nat (sb_inodestart mk_superblock)) with 32. change IPB with 8%Z. pose proof NMn_Z.
  assert (0 ≤ inum / 8 < 26)%Z by (split; [apply Z.div_pos; lia|apply Z.div_lt_upper_bound; lia]). lia.
Qed.

Lemma IBLOCK_small inum : (0 ≤ inum < NINODES)%Z → IBLOCK inum mk_superblock = Z.of_nat (iblk mk_superblock inum).
Proof.
  intros Hi. pose proof (iblk_range inum Hi). pose proof NMn_Z. unfold IBLOCK, iblk in *. change (Z.to_nat (sb_inodestart mk_superblock)) with 32 in *.
  change (sb_inodestart mk_superblock) with 32%Z. rewrite u32_small.
  - rewrite Nat2Z.inj_add, Z2Nat.id; [lia|]. apply Z.div_pos; [lia|done].
  - assert (0 ≤ inum / IPB)%Z by (apply Z.div_pos; [lia|done]). plia.
Qed.

Lemma rinode_run s ow inum : img s ow → (0 ≤ inum < NINODES)%Z → rinode inum s = Done (disk_inode (mk_img s) mk_superblock inum) s.
Proof.
  intros Hi Hn. pose proof (iblk_range inum Hn). pose proof NMn_Z. pose proof FSn_Z. unfold rinode. rewrite (run_bind mget _ _ s s) by done.
  rewrite (im_sb _ _ Hi), IBLOCK_small by done. destruct (lookup_lt_is_Some_2 (mk_img s) (iblk mk_superblock inum)) as [d Hd]; [rewrite (im_len _ _ Hi); lia|].
  rewrite (run_bind _ _ _ _ _ (rsect_run s (iblk mk_superblock inum) d ltac:(lia) Hd)). unfold disk_inode. by rewrite (list_lookup_total_correct _ _ _ Hd).
Qed.

Lemma winode_run s ow inum di : img s ow → dinode_ok di → (0 ≤ inum < NINODES)%Z → ∃ s', winode inum di s = Done tt s' ∧ img s' ow ∧
  (∀ n, (0 ≤ n < NINODES)%Z → disk_inode (mk_img s') mk_superblock n = if decide (inum = n) then di else disk_inode (mk_img s) mk_superblock n) ∧
  (∀ b, NMn ≤ b → mk_img s' !! b = mk_img s !! b) ∧ mk_freeinode s' = mk_freeinode s.
Proof.
  intros Hi Hok Hn. pose proof (iblk_range inum Hn). pose proof NMn_Z. pose proof FSn_Z.
  destruct (lookup_lt_is_Some_2 (mk_img s) (iblk mk_superblock inum)) as [d Hd]; [rewrite (im_len _ _ Hi); lia|].
  pose proof (Forall_lookup_1 _ _ _ _ (im_blk _ _ Hi) Hd) as Hdok. eexists. split.
  { unfold winode. rewrite (run_bind mget _ _ s s) by done. rewrite (im_sb _ _ Hi), IBLOCK_small by done.
    rewrite (run_bind _ _ _ _ _ (rsect_run s (iblk mk_superblock inum) d ltac:(lia) Hd)). apply wsect_run; [lia|apply Hi]. }
  split; [apply img_write; [done|apply dinode_put_ok; [apply Hok|done]|lia]|]. split; [|split; [|done]].
  - intros n Hn'. unfold disk_inode. simpl. destruct (decide (iblk mk_superblock inum = iblk mk_superblock n)) as [He|He].
    + rewrite <-He, list_lookup_total_insert_eq by (rewrite (im_len _ _ Hi); lia). rewrite dinode_at_put by done.
      rewrite (list_lookup_total_correct _ _ _ Hd). destruct (decide (inum = n)) as [->|Hne]; [by rewrite decide_True|].
      rewrite decide_False; [done|]. intros Hm. apply Hne. apply (iblk_neq inum n mk_superblock); [lia|lia|done|done].
    + rewrite list_lookup_total_insert_ne by done. by rewrite decide_False by (by intros ->).
  - intros b Hb. simpl. apply list_lookup_insert_ne. lia.
Qed.

(** An inode with its contents. *)
Definition inode_has (v : list block) (ow : list Z) (inum : Z) (ty : Z) (bs : list Z) : Prop :=
  ∃ l ind, let di := disk_inode v mk_superblock inum in stored v ow inum di bs l ind ∧ fits (length bs) l ind ∧
    d_size di = Z.of_nat (length bs) ∧ d_type di = ty ∧ d_nlink di = 1%Z.

Definition total (fl : list (Z * list Z)) : nat := sum_list ((λ f, space (length f.2)) <$> fl).

(** The inodes from 1 on have the types and contents [fl], and the rest are free;
    the data blocks in use are those they need. *)
Record tree (s : mkfs) (ow : list Z) (fl : list (Z * list Z)) : Prop := {
  tr_img : img s ow;
  tr_ino : mk_freeinode s = Z.of_nat (S (length fl));
  tr_max : (Z.of_nat (length fl) < NINODES)%Z;
  tr_has i ty bs : fl !! i = Some (ty, bs) → inode_has (mk_img s) ow (Z.of_nat (S i)) ty bs;
  tr_rest n : (0 ≤ n < NINODES)%Z → n = 0%Z ∨ (Z.of_nat (length fl) < n)%Z → d_type (disk_inode (mk_img s) mk_superblock n) = 0%Z;
  tr_total : length ow = total fl
}.

Lemma total_cons x fl : total (x :: fl) = space (length x.2) + total fl.
Proof. done. Qed.

Lemma total_app fl fl' : total (fl ++ fl') = total fl + total fl'.
Proof. induction fl as [|x fl IH]; [done|]. rewrite <-app_comm_cons, !total_cons. lia. Qed.

Lemma total_insert fl i f f' : fl !! i = Some f → total (<[i := f']> fl) + space (length f.2) = total fl + space (length f'.2).
Proof.
  revert i. induction fl as [|x fl IH]; intros [|i] Hi; simpl in Hi; [done..|injection Hi as ->|]; cbn [insert list_insert]; rewrite !total_cons; [lia|].
  rewrite <-!Nat.add_assoc. f_equal. exact (IH _ Hi).
Qed.

(** A new inode. *)
Lemma ialloc_spec s ow fl ty : tree s ow fl → (Z.of_nat (length fl) + 1 < NINODES)%Z → (0 < ty < 4)%Z →
  ∃ s', ialloc ty s = Done (Z.of_nat (S (length fl))) s' ∧ tree s' ow (fl ++ [(ty, [])]).
Proof.
  intros [Hi Hino Hmax Hhas Hrest Htot] Hlt Hty. unfold NINODES in *. unfold ialloc. rewrite (run_bind mget _ _ s s) by done. rewrite Hino. cbv zeta.
  set (s1 := Mkfs (mk_img s) (mk_sb s) (u32 (Z.of_nat (S (length fl)) + 1)) (mk_freeblock s)). rewrite (run_bind (mput _) _ _ tt s1) by done.
  assert (Hi1 : img s1 ow) by by destruct Hi. set (di := Dinode _ _ _ _ _ _). assert (Hdi : di = Dinode ty 0 0 1 0 (replicate NADDRS 0%Z)).
  { unfold di. f_equal. unfold xshort. apply s16_dec. unfold is_s16. lia. }
  assert (Hok : dinode_ok di).
  { rewrite Hdi. constructor; cbn [d_type d_major d_minor d_nlink d_size d_addrs]; unfold is_s16; try plia. split; [by rewrite length_replicate|]. apply Forall_replicate. plia. }
  destruct (winode_run s1 ow (Z.of_nat (S (length fl))) di Hi1 Hok) as (s' & Hrun & Hi' & Hdisk & Hdata & Hfi); [unfold NINODES; lia|].
  rewrite (run_bind _ _ _ _ _ Hrun). exists s'. split; [done|]. constructor; try done.
  - rewrite Hfi. simpl. rewrite u32_small by plia. rewrite length_app. simpl. lia.
  - rewrite length_app. simpl. unfold NINODES. lia.
  - intros i ty' bs Hl. apply lookup_app_Some in Hl as [Hl|[Hge Hl]].
    + destruct (Hhas _ _ _ Hl) as (l & ind & Hst & Hre). assert (i < length fl) by by eapply lookup_lt_Some. exists l, ind.
      rewrite Hdisk by (unfold NINODES; lia). rewrite decide_False by lia. split; [|done].
      eapply stored_frame; [|done|exact Hst]. intros a [Ha _]. by rewrite Hdata.
    + apply list_lookup_singleton_Some in Hl as [Hz [= <- <-]]. replace i with (length fl) by lia. exists [], None.
      rewrite Hdisk by (unfold NINODES; lia). rewrite decide_True by done. rewrite Hdi in *. pose proof sizes as (HN & HM & HB).
      assert (Hz' : ∀ k, k ≤ NDn → replicate NADDRS 0%Z !!! k = 0%Z) by (intros k Hk; apply lookup_total_replicate_2; rewrite naddrs_S; lia).
      split; [|split; [|done]].
      * constructor; cbn [d_addrs ind_list app length addr_of]; try done; try lia; try constructor.
        intros bn Hbn. unfold faddr, ind_addr. rewrite on_disk_addrs. cbn [d_addrs]. rewrite (Hz' NDn) by done.
        case_decide; [by apply Hz'; lia|by rewrite decide_True].
      * constructor; cbn [length ind_list]; [unfold blocks_for; by rewrite HB|by rewrite decide_False by lia].
  - intros n Hn Hr. rewrite length_app in Hr. cbn [length] in Hr. rewrite Hdisk by done. rewrite decide_False by lia. apply Hrest; [done|lia].
  - rewrite total_app, Htot, total_cons. cbn [length snd]. rewrite space_0. change (total []) with 0. lia.
Qed.

(** An inode's contents do not depend on the blocks of the other inodes. *)
Lemma inode_has_frame v v' ow ow' inum ty bs : (∀ a, owned ow inum a → v' !! a = v !! a) → ow `prefix_of` ow' →
  disk_inode v' mk_superblock inum = disk_inode v mk_superblock inum → inode_has v ow inum ty bs → inode_has v' ow' inum ty bs.
Proof. intros Hv Hp Hd (l & ind & Hst & Hrest). exists l, ind. rewrite Hd. split; [by eapply stored_frame|done]. Qed.

Lemma disk_inode_same v v' inum : (0 ≤ inum < NINODES)%Z → (∀ b, b < NMn → v' !! b = v !! b) →
  disk_inode v' mk_superblock inum = disk_inode v mk_superblock inum.
Proof. intros Hi Hv. pose proof (iblk_range inum Hi). unfold disk_inode. by rewrite !list_lookup_total_alt, Hv by lia. Qed.

(** Bytes appended to a file. *)
Lemma iappend_spec s ow fl i ty bs p : tree s ow fl → fl !! i = Some (ty, bs) → Forall is_byte p → length (bs ++ p) ≤ MAXFn * BSn →
  NMn + total (<[i := (ty, bs ++ p)]> fl) ≤ FSn →
  ∃ s' ow', iappend (Z.of_nat (S i)) p s = Done tt s' ∧ tree s' ow' (<[i := (ty, bs ++ p)]> fl).
Proof.
  intros [Hi Hino Hmax Hhas Hrest Htot] Hl Hp Hlen Hroom. assert (Hil : i < length fl) by by eapply lookup_lt_Some.
  assert (Hin : (0 ≤ Z.of_nat (S i) < NINODES)%Z) by (unfold NINODES in *; lia). pose proof sizes as (_ & HM & HB). rewrite length_app in Hlen.
  pose proof (total_insert fl i _ (ty, bs ++ p) Hl) as Hti. cbn [snd] in Hti. rewrite length_app in Hti.
  destruct (Hhas _ _ _ Hl) as (l & ind & Hst & Hfit & Hsz & Hty & Hnl). set (di := disk_inode _ _ _) in *.
  unfold iappend. rewrite (run_bind _ _ _ _ _ (rinode_run s ow _ Hi Hin)). fold di. rewrite Hsz, xint_small by plia.
  destruct (append_loop_spec (length p) s ow (Z.of_nat (S i)) di bs l ind p) as (s1 & ow1 & di1 & l1 & ind1 & Hrun & Hi1 & Hst1 & Hfit1 & Hex & How); try done; [lia|].
  rewrite (run_bind _ _ _ _ _ Hrun). cbv beta iota. destruct Hex as [Hpre Hsame Hfi [Hty1 Hnl1]]. rewrite xint_small by (rewrite length_app; plia).
  set (di2 := set_dsize _ di1). assert (Hok2 : dinode_ok di2).
  { destruct (so_ok _ _ _ _ _ _ _ Hst1). constructor; simpl; try done. rewrite length_app. plia. }
  destruct (winode_run s1 ow1 (Z.of_nat (S i)) di2 Hi1 Hok2 Hin) as (s2 & Hrun2 & Hi2 & Hdisk & Hdata & Hfi2). exists s2, ow1. split; [done|].
  assert (Hother : ∀ n, (0 ≤ n < NINODES)%Z → disk_inode (mk_img s1) mk_superblock n = disk_inode (mk_img s) mk_superblock n).
  { intros n Hn. apply disk_inode_same; [done|]. intros b Hb. apply Hsame. intros [? _]. lia. }
  constructor; try done; rewrite ?length_insert; try done.
  - congruence.
  - intros j ty' bs' Hj. assert (Hjl : j < length fl) by (apply lookup_lt_Some in Hj; by rewrite length_insert in Hj).
    destruct (decide (i = j)) as [<-|Hne].
    + rewrite list_lookup_insert_eq in Hj by done. injection Hj as <- <-. exists l1, ind1. rewrite Hdisk, decide_True by done. split; [|split; [done|]].
      * apply (stored_frame (mk_img s1) _ ow1); [|done|]; [intros a [Ha _]; by rewrite Hdata|]. by destruct Hst1.
      * split; [done|]. split; simpl; congruence.
    + rewrite list_lookup_insert_ne in Hj by done. assert (Hjn : Z.of_nat (S j) ≠ Z.of_nat (S i)) by lia.
      eapply inode_has_frame; [|exact Hpre| |apply (Hhas _ _ _ Hj)].
      * intros a Ha. rewrite Hdata by apply Ha. apply Hsame. intros Ho. apply Hjn. eapply owned_inj; [by eapply owned_prefix|done].
      * rewrite Hdisk, decide_False, Hother; [done|unfold NINODES in *; lia..].
  - intros n Hn Hr. assert (Hne : n ≠ Z.of_nat (S i)) by lia. rewrite Hdisk, decide_False, Hother by (done || congruence). by apply Hrest.
  - rewrite length_app in How. lia.
Qed.

(** ** The files of the command line *)

(** What a sequence of reads delivers. *)
Fixpoint contents (reads : list (list Z)) : list Z :=
  match reads with
  | [] | [] :: _ => []
  | bs :: reads => bs ++ contents reads
  end.

Lemma copy_reads_spec s ow fl i ty bs reads : tree s ow fl → fl !! i = Some (ty, bs) → Forall (Forall is_byte) reads →
  length (bs ++ contents reads) ≤ MAXFn * BSn → NMn + total (<[i := (ty, bs ++ contents reads)]> fl) ≤ FSn →
  ∃ s' ow', copy_reads (Z.of_nat (S i)) reads s = Done tt s' ∧ tree s' ow' (<[i := (ty, bs ++ contents reads)]> fl).
Proof.
  revert s ow fl bs. induction reads as [|r reads IH]; intros s ow fl bs Ht Hl Hb Hlen Hroom.
  { exists s, ow. split; [done|]. simpl. rewrite app_nil_r. by rewrite list_insert_id. }
  destruct r as [|c r]; [exists s, ow; split; [done|]; simpl; rewrite app_nil_r; by rewrite list_insert_id|].
  apply Forall_cons in Hb as [Hr Hb]. cbn [contents copy_reads] in *. rewrite app_assoc in *. set (p := c :: r) in *.
  assert (Hil : i < length fl) by by eapply lookup_lt_Some. rewrite length_app in Hlen.
  destruct (iappend_spec s ow fl i ty bs p) as (s1 & ow1 & Hrun & Ht1); try done; [lia| |].
  { pose proof (total_insert fl i _ (ty, bs ++ p) Hl) as H1. pose proof (total_insert fl i _ (ty, (bs ++ p) ++ contents reads) Hl) as H2. cbn [snd] in H1, H2.
    pose proof (space_mono (length (bs ++ p)) (length ((bs ++ p) ++ contents reads)) ltac:(rewrite (length_app (bs ++ p)); lia)). lia. }
  rewrite (run_bind _ _ _ _ _ Hrun). destruct (IH s1 ow1 _ (bs ++ p) Ht1) as (s2 & ow2 & Hrun2 & Ht2); try done.
  - by apply list_lookup_insert_eq.
  - rewrite length_app. lia.
  - by rewrite list_insert_insert_eq.
  - exists s2, ow2. split; [done|]. by rewrite list_insert_insert_eq in Ht2.
Qed.

Definition file_contents (f : host_file) : list Z := contents (default [] (hf_reads f)).

(** The directory entries of the files, for inodes from [n] on. *)
Fixpoint entries (n : nat) (files : list host_file) : list (list Z) :=
  match files with
  | [] => []
  | f :: files => dirent_enc (Z.of_nat n) (skip_underscore (hf_name f)) :: entries (S n) files
  end.

(** A file that mkfs can copy. *)
Record host_ok (f : host_file) : Prop := {
  ho_name : (slash ∉ hf_name f) ∧ Forall is_byte (hf_name f);
  ho_open : is_Some (hf_reads f);
  ho_byte : Forall (Forall is_byte) (default [] (hf_reads f));
  ho_max : length (file_contents f) ≤ MAXFn * BSn
}.

Lemma skip_byte name : Forall is_byte name → Forall is_byte (skip_underscore name).
Proof. destruct name as [|c name]; [done|]. simpl. intros Hn. case_decide; [by inversion Hn|done]. Qed.

Lemma xshort_small x : (0 ≤ x < 2 ^ 16)%Z → xshort x = x.
Proof. intros Hx. unfold xshort. rewrite le_dec_enc. by apply Z.mod_small. Qed.

Lemma insert_last {A} (l : list A) y z : <[length l := z]> (l ++ [y]) = l ++ [z].
Proof. induction l as [|x l IH]; [done|]. simpl. by f_equal. Qed.

Lemma add_file_spec s ow d fs f : tree s ow ((T_DIR, d) :: fs) → host_ok f → (Z.of_nat (length fs) + 2 < NINODES)%Z → length d + DEn ≤ MAXFn * BSn →
  ∀ fl, fl = (T_DIR, d ++ dirent_enc (Z.of_nat (2 + length fs)) (skip_underscore (hf_name f))) :: fs ++ [(T_FILE, file_contents f)] →
  NMn + total fl ≤ FSn → ∃ s' ow', add_file ROOTINO f s = Done tt s' ∧ tree s' ow' fl.
Proof.
  intros Ht Hf Hmax Hd fl -> Hroom. destruct Hf as [[Hname Hnb] [reads Hr] Hb Hlen]. unfold file_contents in *. rewrite Hr in *. cbn [default from_option id] in *.
  unfold add_file. rewrite (run_bind _ _ s tt s) by (by rewrite bool_decide_true). rewrite Hr. unfold NINODES in Hmax.
  destruct (ialloc_spec s ow ((T_DIR, d) :: fs) T_FILE Ht) as (s1 & Hrun1 & Ht1); [simpl length; unfold NINODES; lia|done|].
  rewrite (run_bind _ _ _ _ _ Hrun1). rewrite xshort_small by (simpl length; lia).
  change (S (length ((T_DIR, d) :: fs))) with (2 + length fs) in *. set (de := dirent_enc _ _) in *. rewrite total_cons, total_app, total_cons in Hroom. cbn [snd] in Hroom.
  destruct (iappend_spec s1 ow _ 0 T_DIR d de Ht1) as (s2 & ow2 & Hrun2 & Ht2).
  - done.
  - by apply dirent_enc_byte, skip_byte.
  - rewrite length_app. unfold de. rewrite dirent_enc_length. lia.
  - cbn [insert list_insert app]. rewrite total_cons, total_app, total_cons. cbn [snd length]. rewrite space_0. change (total []) with 0. lia.
  - change ROOTINO with (Z.of_nat 1). rewrite (run_bind _ _ _ _ _ Hrun2). cbn [insert list_insert app] in Ht2.
    assert (Hins : <[S (length fs) := (T_FILE, [] ++ contents reads)]> ((T_DIR, d ++ de) :: fs ++ [(T_FILE, [])]) = (T_DIR, d ++ de) :: fs ++ [(T_FILE, contents reads)])
      by exact (insert_last ((T_DIR, d ++ de) :: fs) (T_FILE, []) (T_FILE, contents reads)).
    destruct (copy_reads_spec s2 ow2 _ (S (length fs)) T_FILE [] reads Ht2) as (s3 & ow3 & Hrun3 & Ht3); try done.
    + exact (list_lookup_middle fs [] (T_FILE, []) (length fs) eq_refl).
    + rewrite Hins, total_cons, total_app, total_cons. exact Hroom.
    + exists s3, ow3. split; [done|]. by rewrite Hins in Ht3.
Qed.

Lemma entries_cons n f files :
  mjoin (entries n (f :: files)) = dirent_enc (Z.of_nat n) (skip_underscore (hf_name f)) ++ mjoin (entries (S n) files).
Proof. done. Qed.

Lemma entries_length n files : length (mjoin (entries n files)) = DEn * length files.
Proof.
  revert n. induction files as [|f files IH]; intros n; [done|]. rewrite entries_cons, length_app, dirent_enc_length, IH. cbn [length]. lia.
Qed.

Lemma add_files_spec files s ow d fs : tree s ow ((T_DIR, d) :: fs) → Forall host_ok files → (Z.of_nat (length fs + length files) + 1 < NINODES)%Z →
  length d + DEn * length files ≤ MAXFn * BSn →
  ∀ fl, fl = (T_DIR, d ++ mjoin (entries (2 + length fs) files)) :: fs ++ ((λ f, (T_FILE, file_contents f)) <$> files) →
  NMn + total fl ≤ FSn → ∃ s' ow', add_files ROOTINO files s = Done tt s' ∧ tree s' ow' fl.
Proof.
  revert s ow d fs. induction files as [|f files IH]; intros s ow d fs Ht Hok Hmax Hd fl -> Hroom.
  { exists s, ow. split; [done|]. simpl. by rewrite !app_nil_r. }
  apply Forall_cons in Hok as [Hf Hok]. cbn [length] in Hmax, Hd. unfold NINODES in Hmax. rewrite entries_cons, fmap_cons in *.
  set (de := dirent_enc (Z.of_nat (2 + length fs)) (skip_underscore (hf_name f))) in *. set (fe := (T_FILE, file_contents f)) in *. cbn [add_files].
  assert (Hdl : length de = DEn) by apply dirent_enc_length.
  destruct (add_file_spec s ow d fs f Ht Hf ltac:(unfold NINODES; lia) ltac:(lia) ((T_DIR, d ++ de) :: fs ++ [fe]) eq_refl) as (s1 & ow1 & Hrun & Ht1).
  { rewrite total_cons, total_app in *. rewrite total_cons in Hroom |- *. cbn [snd] in *. change (total []) with 0.
    pose proof (space_mono (length (d ++ de)) (length (d ++ de ++ mjoin (entries (S (2 + length fs)) files))) ltac:(rewrite !length_app; lia)). lia. }
  rewrite (run_bind _ _ _ _ _ Hrun). assert (Hl1 : length (fs ++ [fe]) = S (length fs)) by (rewrite length_app; simpl; lia).
  apply (IH s1 ow1 (d ++ de) (fs ++ [fe]) Ht1 Hok); [rewrite Hl1; unfold NINODES; lia|rewrite length_app, Hdl; lia| |done].
  rewrite Hl1, <-!app_assoc. done.
Qed.

(** ** The start and the end of [main] *)

Lemma clear_sectors_run n s : (Z.of_nat (length (mk_img s) + n) ≤ FSSIZE)%Z →
  clear_sectors (Z.of_nat (length (mk_img s))) n s = Done tt (set_img (mk_img s ++ replicate n zero_block) s).
Proof.
  revert s. induction n as [|n IH]; intros s Hn; [simpl; rewrite app_nil_r; by destruct s|]. cbn [clear_sectors].
  set (s1 := set_img (mk_img s ++ [zero_block]) s). rewrite (run_bind _ _ _ tt s1).
  2:{ unfold wsect, mmodify, put_sector. rewrite sector_small by lia. rewrite Nat2Z.id, decide_False, Nat.sub_diag by lia. done. }
  assert (Hl1 : length (mk_img s1) = S (length (mk_img s))) by (simpl; rewrite length_app; simpl; lia).
  replace (Z.of_nat (length (mk_img s)) + 1)%Z with (Z.of_nat (length (mk_img s1))) by lia.
  rewrite IH by (rewrite Hl1; lia). unfold set_img, s1. simpl. by rewrite <-app_assoc.
Qed.

Definition super_bytes : block := splice 0 (sb_to_bytes mk_superblock) zero_block.
Definition empty_image : mkfs := Mkfs (<[1 := super_bytes]> (replicate FSn zero_block)) mk_superblock 1 nmeta.

Lemma zero_dinode n : d_type (dinode_at n zero_block) = 0%Z.
Proof.
  unfold dinode_at, dinode_dec. cbn [d_type]. unfold get16, bytes_at, zero_block. rewrite drop_replicate, take_replicate, drop_replicate, take_replicate.
  set (k := Nat.min _ _). assert (Hk : k ≤ 2) by lia. clearbody k. destruct k as [|[|[|k]]]; [done..|lia].
Qed.

Lemma empty_tree : tree empty_image [] [].
Proof.
  pose proof FSn_Z. pose proof NMn_Z. constructor; [|done|done|done| |done]; [constructor|]; cbn [mk_img mk_sb mk_freeinode mk_freeblock empty_image length].
  - by rewrite length_insert, length_replicate.
  - apply Forall_insert; [by apply Forall_replicate, zero_block_ok|]. apply blk_okb_ok. vm_compute. reflexivity.
  - done.
  - rewrite list_lookup_insert_eq; [done|rewrite length_replicate; lia].
  - rewrite list_lookup_insert_ne by lia. by rewrite lookup_replicate_2 by lia.
  - rewrite Nat.add_0_r, NMn_Z. done.
  - lia.
  - intros b Hb. rewrite list_lookup_insert_ne by lia. by rewrite lookup_replicate_2 by lia.
  - intros n Hn _. pose proof (iblk_range n Hn). unfold disk_inode. rewrite list_lookup_total_insert_ne by lia.
    rewrite lookup_total_replicate_2 by lia. apply zero_dinode.
Qed.

(** [main] up to the superblock. *)
Lemma main_start {A} (k : M mkfs A) :
  (mmodify (λ s, Mkfs (mk_img s) mk_superblock (mk_freeinode s) nmeta);; clear_sectors 0 (Z.to_nat FSSIZE);; wsect 1 super_bytes;; k) mk_start
    = k empty_image.
Proof.
  rewrite (run_bind (mmodify _) _ _ tt (Mkfs [] mk_superblock 1 nmeta)) by done. pose proof FSn_Z.
  change (clear_sectors 0) with (clear_sectors (Z.of_nat (length (mk_img (Mkfs [] mk_superblock 1 nmeta))))).
  rewrite (run_bind _ _ _ _ _ (clear_sectors_run (Z.to_nat FSSIZE) (Mkfs [] mk_superblock 1 nmeta) ltac:(simpl; plia))).
  change (wsect 1) with (wsect (Z.of_nat 1)). replace (Z.to_nat FSSIZE) with FSn by plia. cbn [mk_img app set_img].
  rewrite (run_bind _ _ _ _ _ (wsect_run (Mkfs (replicate FSn zero_block) mk_superblock 1 nmeta) 1 super_bytes ltac:(lia) (length_replicate FSn zero_block))). done.
Qed.

(** The directory's contents, and all the inodes. *)
Definition root_bytes (files : list host_file) : list Z :=
  (dirent_enc ROOTINO [46%Z] ++ dirent_enc ROOTINO [46%Z; 46%Z]) ++ mjoin (entries 2 files).
Definition image_files (files : list host_file) : list (Z * list Z) :=
  (T_DIR, root_bytes files) :: ((λ f, (T_FILE, file_contents f)) <$> files).

Lemma root_bytes_length files : length (root_bytes files) = DEn * (2 + length files).
Proof. unfold root_bytes. rewrite !length_app, !dirent_enc_length, entries_length. lia. Qed.

(** [main] up to the last file. *)
Lemma main_files {A} (k : Z → M mkfs A) files : Forall host_ok files → (Z.of_nat (length files) + 1 < NINODES)%Z → NMn + total (image_files files) ≤ FSn →
  ∃ s ow, (rootino ← ialloc T_DIR; assert_or_panic (rootino =? ROOTINO)%Z "rootino == ROOTINO";; iappend rootino (dirent_enc (xshort rootino) [46%Z]);;
      iappend rootino (dirent_enc (xshort rootino) [46%Z; 46%Z]);; add_files rootino files;; k rootino) empty_image = k ROOTINO s ∧ tree s ow (image_files files).
Proof.
  intros Hok Hmax Hroom. pose proof sizes as (HN & HM & HB). unfold NINODES in Hmax. pose proof (root_bytes_length files) as Hrl. unfold DEn in Hrl.
  destruct (ialloc_spec _ _ _ T_DIR empty_tree) as (s1 & Hrun1 & Ht1); [done|done|]. change (Z.of_nat (S (length []))) with ROOTINO in Hrun1.
  rewrite (run_bind _ _ _ _ _ Hrun1). rewrite (run_bind _ _ s1 tt s1) by done. change (xshort ROOTINO) with ROOTINO. cbn [app] in Ht1.
  assert (Hsp : ∀ n, n ≤ length (root_bytes files) → NMn + space n ≤ FSn).
  { intros n Hn. apply space_mono in Hn. unfold image_files in Hroom. rewrite total_cons in Hroom. cbn [snd] in Hroom. lia. }
  set (d1 := dirent_enc ROOTINO [46%Z]) in *. set (d2 := dirent_enc ROOTINO [46%Z; 46%Z]) in *.
  assert (Hd1 : length d1 = 16) by apply dirent_enc_length. assert (Hd2 : length d2 = 16) by apply dirent_enc_length.
  destruct (iappend_spec s1 [] _ 0 T_DIR [] d1 Ht1 eq_refl) as (s2 & ow2 & Hrun2 & Ht2).
  { apply dirent_enc_byte. by repeat constructor. } { simpl. lia. } { cbn [insert list_insert]. rewrite total_cons. cbn [snd app]. change (total []) with 0. rewrite Nat.add_0_r. apply Hsp. lia. }
  change ROOTINO with (Z.of_nat 1) at 1. rewrite (run_bind _ _ _ _ _ Hrun2). cbn [insert list_insert app] in Ht2.
  destruct (iappend_spec s2 ow2 _ 0 T_DIR d1 d2 Ht2 eq_refl) as (s3 & ow3 & Hrun3 & Ht3).
  { apply dirent_enc_byte. by repeat constructor. } { rewrite length_app. lia. }
  { cbn [insert list_insert]. rewrite total_cons. cbn [snd]. change (total []) with 0. rewrite Nat.add_0_r. apply Hsp. rewrite length_app. lia. }
  change ROOTINO with (Z.of_nat 1) at 1. rewrite (run_bind _ _ _ _ _ Hrun3). cbn [insert list_insert] in Ht3.
  destruct (add_files_spec files s3 ow3 (d1 ++ d2) [] Ht3 Hok) with (fl := image_files files) as (s4 & ow4 & Hrun4 & Ht4); [unfold NINODES; simpl; lia| |done|done|].
  { rewrite length_app. unfold DEn. lia. }
  rewrite (run_bind _ _ _ _ _ Hrun4). by exists s4, ow4.
Qed.

(** ** The bitmap *)

Lemma mark_S n : mark (S n) = set_bit n (mark n).
Proof. unfold mark. by rewrite seq_S, foldl_snoc. Qed.

Lemma mark_ok n : blk_ok (mark n).
Proof. induction n as [|n IH]; [apply zero_block_ok|]. rewrite mark_S. by apply blk_ok_insert_u8. Qed.

Lemma mark_bits n b : n ≤ BPBn → b < BPBn → bit_clear (mark n) b = bool_decide (n ≤ b).
Proof.
  intros Hn Hb. pose proof BPBn_Z as HB. induction n as [|n IH].
  - rewrite bool_decide_true by lia. rewrite bit_clear_spec. unfold mark. simpl foldl. unfold zero_block. rewrite lookup_total_replicate_2; [by rewrite Z.bits_0|].
    apply Nat.Div0.div_lt_upper_bound. plia.
  - rewrite mark_S, bit_clear_set, IH by (lia || (rewrite (proj1 (mark_ok n)); apply Nat.Div0.div_lt_upper_bound; plia)).
    destruct (decide (n = b)) as [->|Hne]; [by rewrite bool_decide_false by lia|]. apply bool_decide_ext. lia.
Qed.

Definition with_bitmap (s : mkfs) (ow : list Z) : mkfs := set_img (<[NMn - 1 := mark (NMn + length ow)]> (mk_img s)) s.

Lemma balloc_run s ow : img s ow → balloc (mk_freeblock s) s = Done tt (with_bitmap s ow) ∧ img (with_bitmap s ow) ow.
Proof.
  intros Hi. pose proof NMn_Z. pose proof FSn_Z. pose proof (im_room _ _ Hi). split; [|apply img_write; [done|apply mark_ok|lia]].
  unfold balloc. rewrite (im_free _ _ Hi). rewrite (run_bind _ _ s tt s) by (rewrite (proj2 (Z.ltb_lt _ _)); [done|plia]).
  rewrite (run_bind mget _ _ s s) by done. rewrite (im_sb _ _ Hi), Nat2Z.id. change (sb_bmapstart mk_superblock) with 58%Z.
  replace 58%Z with (Z.of_nat (NMn - 1)) by lia. apply wsect_run; [lia|apply Hi].
Qed.

Lemma bitmap_data s ow b : NMn ≤ b → mk_img (with_bitmap s ow) !! b = mk_img s !! b.
Proof. intros Hb. pose proof NMn_Z. simpl. apply list_lookup_insert_ne. lia. Qed.

Lemma bitmap_inode s ow inum : (0 ≤ inum < NINODES)%Z →
  disk_inode (mk_img (with_bitmap s ow)) mk_superblock inum = disk_inode (mk_img s) mk_superblock inum.
Proof. intros Hi. pose proof (iblk_range inum Hi). unfold disk_inode. simpl. by rewrite list_lookup_total_insert_ne by lia. Qed.

(** The last part of [main]: the directory's size is rounded up, the bitmap is
    written. *)
Definition root_size (n : nat) : Z := ((Z.of_nat n / BSIZE + 1) * BSIZE)%Z.

Lemma main_end s ow bs fs : tree s ow ((T_DIR, bs) :: fs) → length bs < MAXFn * BSn →
  ∃ s1, (din ← rinode ROOTINO; winode ROOTINO (set_dsize (xint ((xint (d_size din) / BSIZE + 1) * BSIZE)) din);; s ← mget; balloc (mk_freeblock s)) s
      = Done tt (with_bitmap s1 ow) ∧ img s1 ow ∧ let v := mk_img (with_bitmap s1 ow) in
    (∀ i ty c, fs !! i = Some (ty, c) → inode_has v ow (Z.of_nat (2 + i)) ty c) ∧
    (∀ n, (0 ≤ n < NINODES)%Z → n = 0%Z ∨ (Z.of_nat (1 + length fs) < n)%Z → d_type (disk_inode v mk_superblock n) = 0%Z) ∧
    ∃ l ind, let di := disk_inode v mk_superblock ROOTINO in stored v ow ROOTINO di bs l ind ∧ fits (length bs) l ind ∧
      d_size di = root_size (length bs) ∧ d_type di = T_DIR ∧ d_nlink di = 1%Z.
Proof.
  intros [Hi Hino Hmax Hhas Hrest Htot] Hlen. destruct (Hhas 0 _ _ eq_refl) as (l & ind & Hst & Hfit & Hsz & Hty & Hnl). change (Z.of_nat 1) with ROOTINO in *.
  rewrite (run_bind _ _ _ _ _ (rinode_run s ow ROOTINO Hi ltac:(done))). set (di := disk_inode _ _ _) in *. pose proof sizes as (_ & HM & HB).
  assert (Hrs : (0 ≤ root_size (length bs) ≤ 72192)%Z).
  { unfold root_size. assert (0 ≤ Z.of_nat (length bs) / BSIZE < 140)%Z by (split; [apply Z.div_pos; plia|apply Z.div_lt_upper_bound; plia]). plia. }
  rewrite Hsz, (xint_small (Z.of_nat (length bs))) by plia. fold (root_size (length bs)). rewrite xint_small by plia. set (di' := set_dsize _ di).
  assert (Hok : dinode_ok di') by (destruct (so_ok _ _ _ _ _ _ _ Hst); constructor; simpl; try done; plia).
  destruct (winode_run s ow ROOTINO di' Hi Hok ltac:(done)) as (s1 & Hrun & Hi1 & Hdisk & Hdata & _). rewrite (run_bind _ _ _ _ _ Hrun).
  rewrite (run_bind mget _ _ s1 s1) by done. destruct (balloc_run s1 ow Hi1) as [Hb Hi2]. exists s1. split; [done|]. split; [done|]. unfold NINODES in Hmax. simpl in Hmax.
  assert (Hdata2 : ∀ b, NMn ≤ b → mk_img (with_bitmap s1 ow) !! b = mk_img s !! b) by (intros b Hb'; rewrite bitmap_data, Hdata by done; done).
  cbv zeta. split; [|split].
  - intros i ty c Hl. apply lookup_lt_Some in Hl as Hil. eapply inode_has_frame; [|done| |apply (Hhas (S i) _ _ Hl)].
    + intros a [Ha _]. by apply Hdata2.
    + rewrite bitmap_inode, Hdisk by (unfold NINODES; lia). by rewrite decide_False by (unfold ROOTINO; lia).
  - intros n Hn Hr. rewrite bitmap_inode, Hdisk by done. rewrite decide_False by (unfold ROOTINO; lia). by apply Hrest.
  - exists l, ind. rewrite bitmap_inode, Hdisk, decide_True by done. split_and!; try done. eapply stored_frame; [|done|by destruct Hst].
    intros a [Ha _]. by apply Hdata2.
Qed.

(** ** What the kernel finds *)

Definition image_j (v : list block) : jstate :=
  JState v v ∅ ∅ (Z.to_nat (sb_logstart mk_superblock)) (Z.to_nat (sb_nlog mk_superblock)).

Lemma image_free s ow b : img s ow → b < FSn → isfree (mk_img (with_bitmap s ow)) mk_superblock b = bool_decide (NMn + length ow ≤ b).
Proof.
  intros Hi Hb. pose proof BPBn_Z. pose proof FSn_Z. pose proof NMn_Z. pose proof (im_room _ _ Hi). unfold isfree, bmblk.
  change (Z.to_nat (sb_bmapstart mk_superblock)) with 58. rewrite Nat.div_small, Nat.mod_small by plia. replace (58 + 0) with (NMn - 1) by lia.
  cbn [mk_img with_bitmap set_img]. rewrite list_lookup_total_insert_eq by (rewrite (im_len _ _ Hi); lia). apply mark_bits; plia.
Qed.

Lemma image_geo s ow : img s ow → fs_geo mk_superblock (image_j (mk_img (with_bitmap s ow))).
Proof.
  intros Hi. pose proof BPBn_Z. pose proof FSn_Z. pose proof NMn_Z. pose proof (im_room _ _ Hi).
  assert (Hnb : nblk mk_superblock = FSn) by (unfold nblk; change (sb_size mk_superblock) with 2000%Z; lia).
  assert (Hbm : bmblk mk_superblock (nblk mk_superblock - 1) = 58).
  { rewrite Hnb. unfold bmblk. change (Z.to_nat (sb_bmapstart mk_superblock)) with 58. rewrite Nat.div_small by plia. lia. }
  change (j_view (image_j (mk_img (with_bitmap s ow)))) with (mk_img (with_bitmap s ow)).
  constructor; change (j_start (image_j (mk_img (with_bitmap s ow)))) with 2; change (j_size (image_j (mk_img (with_bitmap s ow)))) with 30;
    cbn [j_view image_j]; rewrite ?Hbm, ?Hnb.
  - cbn [mk_img with_bitmap set_img]. rewrite length_insert, (im_len _ _ Hi). lia.
  - rewrite mk_superblock_eq. simpl. lia.
  - exists super_bytes. cbn [mk_img with_bitmap set_img]. rewrite list_lookup_insert_ne by lia. split; [apply Hi|]. vm_compute. reflexivity.
  - split; [lia|]. unfold home. lia.
  - rewrite mk_superblock_eq. cbn [sb_inodestart sb_bmapstart sb_ninodes]. change (Z.to_nat (200 / IPB)) with 25. split; [lia|]. split; [lia|].
    intros b Hb. unfold home. lia.
  - lia.
  - intros b Hb Hm. rewrite image_free by done. apply bool_decide_eq_false. unfold is_meta in Hm. rewrite Hbm, mk_superblock_eq in Hm.
    cbn [sb_inodestart sb_bmapstart sb_ninodes] in Hm. change (Z.to_nat (200 / IPB)) with 25 in Hm. unfold home in Hm. lia.
Qed.

Lemma owned_data s ow inum a : img s ow → owned ow inum a → data_block mk_superblock (image_j (mk_img (with_bitmap s ow))) (Z.of_nat a).
Proof.
  intros Hi Ho. destruct (owned_lt _ _ _ _ Hi Ho) as [Ha Haf]. pose proof NMn_Z. pose proof FSn_Z. pose proof BPBn_Z. unfold data_block. rewrite Nat2Z.id.
  split; [lia|]. split; [unfold nblk; change (sb_size mk_superblock) with 2000%Z; lia|].
  split; [change (j_view (image_j (mk_img (with_bitmap s ow)))) with (mk_img (with_bitmap s ow)); rewrite image_free by done; apply bool_decide_eq_false; lia|].
  change (j_start (image_j (mk_img (with_bitmap s ow)))) with 2. change (j_size (image_j (mk_img (with_bitmap s ow)))) with 30.
  unfold is_meta, home, bmblk, nblk. rewrite mk_superblock_eq. cbn [sb_inodestart sb_bmapstart sb_ninodes sb_size]. change (Z.to_nat (200 / IPB)) with 25.
  rewrite Nat.div_small by plia. lia.
Qed.

(** An inode of the image is a file in the sense of fs.c's theorems. *)
Lemma stored_file s ow inum di bs l ind : let v := mk_img (with_bitmap s ow) in img s ow → stored v ow inum di bs l ind →
  (0 ≤ d_size di ≤ Z.of_nat (BSn * length l))%Z → file_ok mk_superblock (image_j v) (on_disk inum di).
Proof.
  intros v Hi [Hok Hb Hm Ha Hind Hil Ho Hn Hbs] Hsz. pose proof sizes as (HN & HM & HB). pose proof NMn_Z. apply Forall_app in Ho as [Hoi Hol].
  assert (Hadr : ∀ bn, bn < MAXFn → faddr v (on_disk inum di) bn ≠ 0%Z → ∃ a, l !! bn = Some a ∧ faddr v (on_disk inum di) bn = Z.of_nat a ∧ owned ow inum a).
  { intros bn Hbn. rewrite Ha by done. destruct (l !! bn) as [a|] eqn:Hl; [|done]. intros _. exists a. split_and!; [done|done|].
    by eapply (Forall_lookup_1 _ _ _ _ Hol). }
  assert (Hiadr : ind_addr (on_disk inum di) = addr_of ind) by done. apply NoDup_app in Hn as (_ & Hsep & Hnl).
  constructor; [done|apply Hok|cbn [i_size on_disk load_dinode]; change (MAXFILE * BSIZE)%Z with 71680%Z; nia|].
  change (j_view (image_j v)) with v. rewrite Hiadr. constructor.
  - intros bn Hbn Hne. destruct (Hadr bn Hbn Hne) as (a & _ & -> & Hoa). by eapply owned_data.
  - destruct ind as [i|]; [|done]. intros _. eapply owned_data; [done|]. by apply Forall_inv in Hoi.
  - intros bn Hbn. destruct ind as [i|]; [|done]. intros Hne He. destruct (Hadr bn Hbn ltac:(congruence)) as (a & Hl & He' & _).
    rewrite He' in He. apply Nat2Z.inj in He. subst a. apply (Hsep i); [by left|by eapply list_elem_of_lookup_2].
  - intros bn bn' Hbn Hbn' Hne He. destruct (Hadr bn Hbn Hne) as (a & Hl & He' & _). rewrite He in Hne. destruct (Hadr bn' Hbn' Hne) as (a' & Hl' & He'' & _).
    assert (a = a') as -> by (apply Nat2Z.inj; congruence). by eapply NoDup_lookup.
  - intros bn Hbn Hlt. rewrite Ha by done. cbn [i_size on_disk load_dinode] in Hlt. rewrite <-BSn_Z in Hlt.
    destruct (lookup_lt_is_Some_2 l bn) as [a Hl]; [nia|]. rewrite Hl. simpl. destruct (Forall_lookup_1 _ _ _ _ Hol Hl). lia.
Qed.

Lemma stored_byte v ow inum di bs l ind k : stored v ow inum di bs l ind → k < BSn * length l →
  fbyte v (on_disk inum di) k = default 0%Z (bs !! k).
Proof.
  intros [Hok Hb Hm Ha Hind Hil Ho Hn Hbs] Hk. pose proof sizes as (HN & HM & HB). assert (Hd : k `div` BSn < length l) by (apply Nat.Div0.div_lt_upper_bound; lia).
  destruct (lookup_lt_is_Some_2 l (k `div` BSn) Hd) as [a Hl]. unfold fbyte. rewrite Ha, Hl by lia. simpl addr_of. rewrite Nat2Z.id.
  rewrite (list_lookup_total_correct _ _ _ (Hbs _ _ Hl)). apply list_lookup_total_correct. rewrite chunk_lookup by (apply Nat.mod_upper_bound; lia).
  by rewrite <-Nat.div_mod_eq.
Qed.

Lemma stored_fbytes v ow inum di bs l ind off n : stored v ow inum di bs l ind → off + n ≤ BSn * length l →
  fbytes v (on_disk inum di) off n = take n (drop off bs) ++ replicate (off + n - length bs `max` off) 0%Z.
Proof.
  intros Hst Hn. apply list_eq. intros k. unfold fbytes. rewrite list_lookup_fmap. destruct (decide (k < n)) as [Hk|Hk].
  - rewrite lookup_seq_lt by done. simpl. erewrite stored_byte by (done || lia). destruct (bs !! (off + k)) as [x|] eqn:Hx; simpl.
    + apply lookup_lt_Some in Hx as Hlt. rewrite lookup_app_l by (rewrite length_take, length_drop; lia). by rewrite lookup_take_lt, lookup_drop.
    + apply lookup_ge_None in Hx. rewrite lookup_app_r by (rewrite length_take, length_drop; lia). rewrite lookup_replicate_2; [done|].
      rewrite length_take, length_drop. lia.
  - rewrite lookup_seq_ge by lia. symmetry. apply lookup_ge_None_2. rewrite length_app, length_take, length_drop, length_replicate. lia.
Qed.

Lemma stored_uses v ow inum di bs l ind a : stored v ow inum di bs l ind → uses v (on_disk inum di) a → owned ow inum (Z.to_nat a).
Proof.
  intros [Hok Hb Hm Ha Hind Hil Ho Hn Hbs] [Hne Hu]. apply Forall_app in Ho as [Hoi Hol]. destruct Hu as [(bn & Hbn & Hf)|Hi].
  - rewrite Ha in Hf by done. destruct (l !! bn) as [b|] eqn:Hl; simpl in Hf; [|done]. subst a. rewrite Nat2Z.id. by eapply (Forall_lookup_1 _ _ _ _ Hol).
  - change (ind_addr (on_disk inum di)) with (d_addrs di !!! NDn) in Hi. rewrite Hind in Hi. destruct ind as [i|]; simpl in Hi; [|done]. subst a.
    rewrite Nat2Z.id. by apply Forall_inv in Hoi.
Qed.

(** The entries of the root directory. *)
Definition root_entries (files : list host_file) : list (list Z) :=
  dirent_enc ROOTINO [46%Z] :: dirent_enc ROOTINO [46%Z; 46%Z] :: entries 2 files.

Lemma entries_size n files : Forall (λ e, length e = DEn) (entries n files).
Proof. revert n. induction files as [|f files IH]; intros n; constructor; [apply dirent_enc_length|apply IH]. Qed.

Lemma entries_count n files : length (entries n files) = length files.
Proof. revert n. induction files as [|f files IH]; intros n; [done|]. cbn [entries length]. by rewrite IH. Qed.

Lemma join_lookup (es : list (list Z)) k e : Forall (λ e, length e = DEn) es → es !! k = Some e → take DEn (drop (DEn * k) (mjoin es)) = e.
Proof.
  intros Hes. revert k. induction Hes as [|x es Hx Hes IH]; intros k Hk; [done|]. change (mjoin (x :: es)) with (x ++ mjoin es). destruct k as [|k]; simpl in Hk.
  - injection Hk as <-. rewrite Nat.mul_0_r, drop_0. by rewrite take_app_length'.
  - replace (DEn * S k) with (length x + DEn * k) by (rewrite Hx; lia). rewrite <-drop_drop, drop_app_length. by apply IH.
Qed.

Lemma root_entries_join files : mjoin (root_entries files) = root_bytes files.
Proof. unfold root_entries, root_bytes. rewrite <-app_assoc. done. Qed.

(** The kernel reads the directory back. *)
Lemma root_dirents v ow inum di files l ind : stored v ow inum di (root_bytes files) l ind → d_size di = Z.of_nat (BSn * length l) →
  length (root_bytes files) ≤ BSn * length l →
  ∃ m, dirents v (on_disk inum di) = root_entries files ++ replicate m (replicate DEn 0%Z).
Proof.
  intros Hst Hsz Hle. pose proof sizes as (_ & _ & HB). pose proof (root_bytes_length files) as Hrl. unfold dirents. change (i_size (on_disk inum di)) with (d_size di).
  rewrite Hsz, Nat2Z.id. assert (Hdiv : (BSn * length l) `div` DEn = 32 * length l) by (symmetry; apply (Nat.div_unique _ _ _ 0); unfold DEn; lia).
  rewrite Hdiv. exists (32 * length l - (2 + length files)). assert (Hel : length (root_entries files) = 2 + length files).
  { unfold root_entries. cbn [length]. by rewrite entries_count. }
  assert (Hes : Forall (λ e, length e = DEn) (root_entries files)) by (repeat (constructor; [apply dirent_enc_length|]); apply entries_size).
  unfold DEn in Hrl. apply list_eq. intros k. rewrite list_lookup_fmap. destruct (decide (k < 32 * length l)) as [Hk|Hk].
  2:{ rewrite lookup_seq_ge by lia. symmetry. apply lookup_ge_None_2. rewrite length_app, length_replicate. lia. }
  rewrite lookup_seq_lt by done. cbn [fmap option_fmap option_map]. rewrite Nat.add_0_l.
  rewrite (stored_fbytes _ _ _ _ _ _ _ _ _ Hst) by (unfold DEn; lia). destruct (decide (k < 2 + length files)) as [Hk'|Hk'].
  - rewrite lookup_app_l by lia. destruct (lookup_lt_is_Some_2 (root_entries files) k) as [e He]; [lia|]. rewrite He, <-root_entries_join, (join_lookup _ _ _ Hes He).
    rewrite root_entries_join, Nat.max_l by (unfold DEn; lia). replace (DEn * k + DEn - length (root_bytes files)) with 0 by (unfold DEn; lia). by rewrite app_nil_r.
  - rewrite lookup_app_r by lia. rewrite lookup_replicate_2 by lia. rewrite drop_ge by (unfold DEn; lia). rewrite take_nil, Nat.max_r by (unfold DEn; lia).
    rewrite app_nil_l. do 2 f_equal. unfold DEn. lia.
Qed.

(** The rounded size covers the directory's blocks, and a block more if the
    directory fills its last block. *)
Lemma root_size_blocks n l ind : fits n l ind →
  root_size n = Z.of_nat (BSn * (length l + (if decide (n `mod` BSn = 0) then 1 else 0))) ∧ n ≤ BSn * length l.
Proof.
  intros [Hl _]. unfold root_size. rewrite div_BSn, Hl, blocks_for_div, <-BSn_Z. pose proof sizes as (_ & _ & HB).
  pose proof (Nat.div_mod_eq n BSn). pose proof (Nat.mod_upper_bound n BSn ltac:(lia)). case_decide; nia.
Qed.

(** The contents of a file of the image. *)
Definition holds (v : list block) (x : inode) (bs : list Z) : Prop :=
  file_ok mk_superblock (image_j v) x ∧ i_nlink x = 1%Z ∧ i_size x = Z.of_nat (length bs) ∧ fbytes v x 0 (length bs) = bs.

Lemma inode_has_file s ow inum ty bs : let v := mk_img (with_bitmap s ow) in let x := on_disk inum (disk_inode v mk_superblock inum) in
  img s ow → inode_has v ow inum ty bs → i_type x = ty ∧ holds v x bs.
Proof.
  intros v x Hi (l & ind & Hst & Hfit & Hsz & Hty & Hnl). destruct (root_size_blocks _ _ _ Hfit) as [_ Hle]. split; [exact Hty|].
  split; [eapply stored_file; [done|done|lia]|]. split; [exact Hnl|]. split; [exact Hsz|]. rewrite (stored_fbytes _ _ _ _ _ _ _ _ _ Hst) by lia.
  rewrite drop_0, take_ge by lia. replace (0 + length bs - length bs `max` 0) with 0 by lia. by rewrite app_nil_r.
Qed.

(** What an image for [files] has. *)
Record image_of (files : list host_file) (v : list block) : Prop := {
  io_len : length v = FSn;
  io_blk : Forall blk_ok v;
  io_geo : fs_geo mk_superblock (image_j v);
  io_log : v !! 2 = Some zero_block;
  io_free b : b < FSn → isfree v mk_superblock b = bool_decide (NMn + total (image_files files) ≤ b);
  io_files i f : files !! i = Some f →
    i_type (node v mk_superblock (Z.of_nat (2 + i))) = T_FILE ∧ holds v (node v mk_superblock (Z.of_nat (2 + i))) (file_contents f);
  io_rest n : (0 ≤ n < NINODES)%Z → n = 0%Z ∨ (1 + Z.of_nat (length files) < n)%Z → i_type (node v mk_superblock n) = 0%Z;
  io_sep n n' a : (1 ≤ n ≤ 1 + length files)%nat → (1 ≤ n' ≤ 1 + length files)%nat →
    uses v (node v mk_superblock (Z.of_nat n)) a → uses v (node v mk_superblock (Z.of_nat n')) a → n = n';
  io_root : let root := node v mk_superblock ROOTINO in i_type root = T_DIR ∧ i_nlink root = 1%Z ∧
    if decide ((DEn * (2 + length files)) `mod` BSn = 0) then
      ∃ bn, bn < MAXFn ∧ i_size root = (Z.of_nat (S bn) * BSIZE)%Z ∧ faddr v root bn = 0%Z
    else dir_ok mk_superblock (image_j v) root ∧ ∃ m, dirents v root = root_entries files ++ replicate m (replicate DEn 0%Z)
}.

Lemma mkfs_spec files :
  Forall host_ok files → (Z.of_nat (length files) + 1 < NINODES)%Z → NMn + total (image_files files) ≤ FSn →
  ∃ s, main files mk_start = Done tt s ∧ image_of files (mk_img s).
Proof.
  intros Hok Hmax Hroom. pose proof (root_bytes_length files) as Hrl. pose proof sizes as (_ & HM & HB). unfold NINODES in Hmax. unfold main. cbv zeta. fold super_bytes.
  rewrite main_start.
  destruct (main_files (λ rootino, din ← rinode rootino; winode rootino (set_dsize (xint ((xint (d_size din) / BSIZE + 1) * BSIZE)) din);; s ← mget; balloc (mk_freeblock s))
    files Hok Hmax Hroom) as (s & ow & Hrun & Ht). rewrite Hrun. pose proof (tr_total _ _ _ Ht) as How.
  destruct (main_end s ow (root_bytes files) _ Ht) as (s1 & Hend & Hi & Hfiles & Hrest & l & ind & Hst & Hfit & Hsz & Hty & Hnl); [unfold DEn in Hrl; lia|].
  rewrite Hend. eexists. split; [reflexivity|]. destruct (balloc_run s1 ow Hi) as [_ Hi2]. set (v := mk_img (with_bitmap s1 ow)) in *.
  assert (Huse : ∀ n a, (1 ≤ n ≤ 1 + length files) → uses v (on_disk (Z.of_nat n) (disk_inode v mk_superblock (Z.of_nat n))) a → owned ow (Z.of_nat n) (Z.to_nat a)).
  { intros n a Hn Hu. destruct n as [|[|i]]; [lia|by eapply stored_uses|]. destruct (lookup_lt_is_Some_2 files i) as [f Hf]; [lia|].
    destruct (Hfiles i T_FILE (file_contents f)) as (l' & ind' & Hst' & _); [by rewrite list_lookup_fmap, Hf|]. by eapply stored_uses. }
  constructor; fold v; [apply Hi2|apply Hi2|by apply image_geo|apply Hi2|..|split; [exact Hty|split; [exact Hnl|]]].
  - intros b Hb. unfold v. rewrite image_free by done. by rewrite How.
  - intros i f Hf. apply inode_has_file; [done|]. apply Hfiles. by rewrite list_lookup_fmap, Hf.
  - intros n Hn Hr. apply Hrest; [done|]. rewrite length_fmap. lia.
  - intros n n' a Hn Hn' Hu Hu'. apply Nat2Z.inj. eapply owned_inj; by apply Huse.
  - destruct (root_size_blocks _ _ _ Hfit) as [Hrs Hle]. rewrite Hrs, Hrl in Hsz. set (dd := decide ((DEn * (2 + length files)) `mod` BSn = 0)) in *. destruct dd as [Hm|Hm].
    + exists (length l). assert (Hlt : length l < MAXFn) by (rewrite (fi_blocks _ _ _ Hfit); apply Nat.Div0.div_lt_upper_bound; unfold DEn in Hrl; lia).
      split; [done|]. change (i_size (node v mk_superblock ROOTINO)) with (d_size (disk_inode v mk_superblock ROOTINO)). split; [rewrite Hsz, <-BSn_Z; lia|].
      rewrite (so_addr _ _ _ _ _ _ _ Hst) by done. by rewrite lookup_ge_None_2.
    + rewrite Nat.add_0_r in Hsz. split; [|by apply (root_dirents v ow ROOTINO _ files l ind)]. constructor; [eapply stored_file; [done|done|lia]|done|].
      change (i_size (node v mk_superblock ROOTINO)) with (d_size (disk_inode v mk_superblock ROOTINO)). rewrite Hsz, Nat2Z.inj_mul, BSn_Z. change BSIZE with (32 * DIRENTSZ)%Z.
      rewrite <-Z.mul_assoc, (Z.mul_comm DIRENTSZ), Z.mul_assoc. apply Z.mod_mul. done.
Qed.

(** C14. The image that mkfs writes is a file system that the kernel can use. For
    all files that fit, [main] ends without an error; the image has the layout
    that the theorems on fs.c assume ([fs_geo]) and an empty log; the bitmap
    marks exactly the blocks that the files and the metadata occupy; every file
    is a file in the sense of those theorems ([file_ok]) with the bytes that were
    read, and no two inodes share a block. The root directory is a directory
    ([dir_ok]) with ".", ".." and the files in order, then unused entries; but
    if its entries fill the last block, the rounding of its size adds a block
    that is not allocated. *)
Theorem mkfs_correct files :
  Forall host_ok files → (Z.of_nat (length files) + 1 < NINODES)%Z → NMn + total (image_files files) ≤ FSn →
  ∃ s, main files mk_start = Done tt s ∧ image_of files (mk_img s).
Proof. apply mkfs_spec. Qed.

(** A file [_a] of one byte. *)
Definition demo_files : list host_file := [HostFile [95%Z; 97%Z] (Some [[7%Z]])].

Lemma demo_files_ok : Forall host_ok demo_files.
Proof.
  pose proof sizes as (_ & HM & HB). apply Forall_singleton. constructor; cbn [hf_name hf_reads default from_option id].
  - split; [|by repeat constructor]. intros Hin. repeat (apply elem_of_cons in Hin as [Hin|Hin]; [done|]). by apply elem_of_nil in Hin.
  - by eexists.
  - apply Forall_singleton, Forall_singleton. done.
  - change (length (file_contents _)) with 1. lia.
Qed.

Lemma demo_files_fit : NMn + total (image_files demo_files) ≤ FSn.
Proof.
  pose proof sizes as (HN & HM & HB). pose proof NMn_Z. pose proof FSn_Z.
  unfold image_files. rewrite total_cons. change (total ((λ f, (T_FILE, file_contents f)) <$> demo_files)) with (space 1 + 0).
  cbn [snd]. rewrite root_bytes_length. unfold space, blocks_for. rewrite HN, HB. change ((DEn * (2 + length demo_files) + (512 - 1)) `div` 512) with 1.
  change ((1 + (512 - 1)) `div` 512) with 1. rewrite !decide_False by lia. lia.
Qed.

Lemma mkfs_correct_witness : ∃ s, main demo_files mk_start = Done tt s ∧
  let root := on_disk ROOTINO (disk_inode (mk_img s) mk_superblock ROOTINO) in
  let file := on_disk 2 (disk_inode (mk_img s) mk_superblock 2) in
  dir_ok mk_superblock (image_j (mk_img s)) root ∧ holds (mk_img s) file [7%Z] ∧
  ∃ m, dirents (mk_img s) root = [dirent_enc 1 [46%Z]; dirent_enc 1 [46%Z; 46%Z]; dirent_enc 2 [97%Z]] ++ replicate m (replicate DEn 0%Z).
Proof.
  pose proof sizes as (HN & HM & HB).
  destruct (mkfs_correct demo_files demo_files_ok) as (s & Hrun & Him).
  - done.
  - exact demo_files_fit.
  - destruct (io_root _ _ Him) as (_ & _ & Hroot). rewrite decide_False in Hroot by (by rewrite HB). destruct Hroot as [Hdir [m Hm]]. exists s. split; [exact Hrun|]. split; [exact Hdir|].
    split; [exact (proj2 (io_files _ _ Him 0 _ eq_refl))|]. exists m. exact Hm.
Defined.
