(* ===== verification/FsBoot.v ===== *)
(** * From the image builder to a file read by the kernel

    The composition of mkfs.c, the start of the storage stack ([binit] called by
    [main], then [iinit] and [initlog] called by the first process in [forkret],
    proc.c), path names, the inode layer and file reads, over the log and the
    block cache. *)

From S2P Require Import Prelude Params Sleeplock Cache Bio Super Log LogProof Journal Crash CString Fs FsDemo FsBlocks FsInode FsFile FsDir FsTrunc FsPath Mkfs.

(** ** The image is a tree *)

Lemma image_inode files v n : image_of files v → alive v mk_superblock n →
  n = ROOTINO ∨ ∃ i f, files !! i = Some f ∧ n = Z.of_nat (2 + i).
Proof.
  intros Hi (Hn & Hty & _). change (sb_ninodes mk_superblock) with NINODES in Hn. destruct (decide (n = ROOTINO)) as [->|Hne]; [by left|]. right.
  destruct (decide (n = 0%Z ∨ (1 + Z.of_nat (length files) < n)%Z)) as [Hr|Hr]; [by destruct Hty; apply (io_rest _ _ Hi)|].
  destruct (lookup_lt_is_Some_2 files (Z.to_nat n - 2)) as [f Hf]; [unfold ROOTINO in *; lia|]. exists (Z.to_nat n - 2), f. split; [done|]. unfold ROOTINO in *. lia.
Qed.

Lemma image_alive files v n : (Z.of_nat (length files) + 1 < NINODES)%Z → image_of files v → (1 ≤ n ≤ 1 + length files)%nat → alive v mk_superblock (Z.of_nat n).
Proof.
  intros Hmax Hi Hn. split; [change (sb_ninodes mk_superblock) with NINODES; lia|]. destruct (io_root _ _ Hi) as (Hty & Hnl & _).
  destruct n as [|[|i]]; [lia|change (Z.of_nat 1) with ROOTINO; by rewrite Hty, Hnl|]. destruct (lookup_lt_is_Some_2 files i) as [f Hf]; [lia|].
  change (S (S i)) with (2 + i). destruct (io_files _ _ Hi _ _ Hf) as [-> (_ & -> & _)]. done.
Qed.

Lemma entries_lookup n files i : entries n files !! i = (λ f, dirent_enc (Z.of_nat (n + i)) (skip_underscore (hf_name f))) <$> files !! i.
Proof.
  revert n i. induction files as [|f files IH]; intros n [|i]; [done..|cbn; by rewrite Nat.add_0_r|]. cbn [entries lookup list_lookup]. rewrite IH. by rewrite Nat.add_succ_comm.
Qed.

Lemma root_entry_inum files de : (Z.of_nat (length files) + 1 < NINODES)%Z → de ∈ root_entries files →
  ∃ n, de_inum de = Z.of_nat n ∧ (1 ≤ n ≤ 1 + length files)%nat.
Proof.
  intros Hmax. unfold NINODES in Hmax. unfold root_entries. rewrite !elem_of_cons, list_elem_of_lookup. setoid_rewrite entries_lookup.
  intros [->|[->|(i & (f & Hf & ->)%fmap_Some)]]; [exists 1; rewrite de_inum_enc; [split; [done|lia]|done]..|].
  pose proof (lookup_lt_Some _ _ _ Hf). exists (2 + i). rewrite de_inum_enc by lia. split; [done|lia].
Qed.

Definition whole (files : list host_file) : Prop := (DEn * (2 + length files)) `mod` BSn ≠ 0.

Lemma image_root files v : image_of files v → whole files →
  dir_ok mk_superblock (image_j v) (node v mk_superblock ROOTINO) ∧ ∃ m, dirents v (node v mk_superblock ROOTINO) = root_entries files ++ replicate m (replicate DEn 0%Z).
Proof. intros Hi Hw. destruct (io_root _ _ Hi) as (_ & _ & Hr). by rewrite decide_False in Hr. Qed.

Lemma image_tree files v : (Z.of_nat (length files) + 1 < NINODES)%Z → image_of files v → whole files → tree_ok mk_superblock (image_j v).
Proof.
  intros Hmax Hi Hw. destruct (io_root _ _ Hi) as (Hty & Hnl & _). destruct (image_root _ _ Hi Hw) as (Hdir & m & Hdes). constructor; cbn [j_view image_j].
  - intros n Hn Hd. destruct (image_inode _ _ _ Hi Hn) as [->|(i & f & Hf & ->)]; [done|]. destruct (io_files _ _ Hi _ _ Hf) as [Hft _]. by rewrite Hft in Hd.
  - intros n de Hn Hd. destruct (image_inode _ _ _ Hi Hn) as [->|(i & f & Hf & ->)]; [|by destruct (io_files _ _ Hi _ _ Hf) as [Hft _]; rewrite Hft in Hd].
    rewrite Hdes, elem_of_app. intros [Hde|[-> _]%elem_of_replicate] Hz; [|done].
    destruct (root_entry_inum _ _ Hmax Hde) as (k & -> & Hk). by eapply image_alive.
Qed.

(** ** A file is found by its name *)

Definition short (f : host_file) : list Z := take DIRSIZ (skip_underscore (hf_name f)).

Lemma cname_pad n : 0%Z ∉ n → cname (pad_name DIRSIZ n) = take DIRSIZ n.
Proof.
  intros Hn. assert (Ht : 0%Z ∉ take DIRSIZ n) by (intros (i & Hi & _)%elem_of_take; by eapply Hn, list_elem_of_lookup_2).
  unfold cname, pad_name. destruct (decide (DIRSIZ ≤ length n)) as [Hl|Hl].
  - replace (DIRSIZ - length n) with 0 by lia. rewrite app_nil_r, take_take, Nat.min_id. by apply until_nul_id.
  - rewrite (take_ge n) in * by lia. rewrite take_ge by (rewrite length_app, length_replicate; lia).
    destruct (DIRSIZ - length n) as [|k] eqn:Hk; [lia|]. cbn [replicate]. by apply until_nul_app.
Qed.

Lemma match_enc e n name : (0 < n < 2 ^ 16)%Z → 0%Z ∉ name → entry_match e (dirent_enc n name) ↔ take DIRSIZ name = take DIRSIZ e.
Proof. intros Hn Hz. unfold entry_match. rewrite de_inum_enc, de_name_enc, cname_pad by (done || lia). split; [by intros [_ ?]|]. intros ?. split; [lia|done]. Qed.

(** The file [i] has a name that the kernel can find. *)
Record named (files : list host_file) (i : nat) (f : host_file) : Prop := {
  na_file : files !! i = Some f;
  na_some : skip_underscore (hf_name f) ≠ [];
  na_nul : Forall (λ g, 0%Z ∉ hf_name g) files;
  na_dots : short f ≠ [46%Z] ∧ short f ≠ [46%Z; 46%Z];
  na_first k g : k < i → files !! k = Some g → short g ≠ short f
}.

Lemma skip_elem c name : c ∈ skip_underscore name → c ∈ name.
Proof. destruct name as [|d name]; [done|]. simpl. case_decide; [|done]. intros. by right. Qed.

Lemma image_walk files v i f : (Z.of_nat (length files) + 1 < NINODES)%Z → image_of files v → whole files → named files i f →
  walk v mk_superblock false ROOTINO [skip_underscore (hf_name f)] = Some (Z.of_nat (2 + i), []).
Proof.
  intros Hmax Hi Hw [Hf _ Hnul [Hd1 Hd2] Hfirst]. destruct (io_root _ _ Hi) as (Hty & _). destruct (image_root _ _ Hi Hw) as (_ & m & Hdes).
  unfold NINODES in Hmax. pose proof (lookup_lt_Some _ _ _ Hf) as Hil. rewrite Forall_lookup in Hnul.
  assert (Hz : ∀ k g, files !! k = Some g → 0%Z ∉ skip_underscore (hf_name g)) by (intros k g Hg Hin%skip_elem; by eapply Hnul).
  cbn [walk]. rewrite decide_True, decide_False, Hdes by (done || by intros []). set (e := skip_underscore (hf_name f)) in *.
  assert (Hfind : list_find (entry_match e) (root_entries files ++ replicate m (replicate DEn 0%Z)) = Some (2 + i, dirent_enc (Z.of_nat (2 + i)) e)).
  { apply list_find_Some. assert (Hlk : ∀ k, root_entries files !! (2 + k) = (λ g, dirent_enc (Z.of_nat (2 + k)) (skip_underscore (hf_name g))) <$> files !! k) by (intros; apply entries_lookup).
    split; [apply lookup_app_l_Some; by rewrite Hlk, Hf|]. split; [apply match_enc; [lia|by eapply Hz|done]|].
    intros k de Hk Hlt. rewrite lookup_app_l in Hk by (unfold root_entries; cbn [length]; rewrite entries_count; lia). destruct k as [|[|k]].
    - injection Hk as <-. rewrite match_enc by (done || set_solver). intros He. by apply Hd1.
    - injection Hk as <-. rewrite match_enc by (done || set_solver). intros He. by apply Hd2.
    - change (S (S k)) with (2 + k) in *. rewrite Hlk in Hk. apply fmap_Some in Hk as (g & Hg & ->). pose proof (lookup_lt_Some _ _ _ Hg).
      rewrite match_enc by (lia || by eapply Hz). apply (Hfirst k); [lia|done]. }
  rewrite Hfind. cbn [mbind option_bind]. rewrite de_inum_enc by lia. done.
Qed.

(** ** The start of the storage stack *)

Section boot.
Variable pid : Z.
Variable devsw_read : Z → option (nat → Z → M (fstate (lstate bstate)) (Z * list Z)).
#[local] Instance boot_cache : BlockCache bstate := bio_cache pid.
#[local] Instance boot_cache_spec : BlockCacheSpec bstate := bio_cache_spec pid.

(** Memory at boot, with the disk [v]. *)
Definition power_on (v : list block) : fstate (lstate bstate) :=
  FState (LState (bio_boot v) zero_log) (Superblock 0 0 0 0 0 0 0) (replicate NINODE zero_inode).

(** What the first process does in [forkret]. *)
Definition forkret_first : M (fstate (lstate bstate)) unit :=
  iinit ROOTDEV;;
  disk (initlog ROOTDEV).

Definition start : M (fstate (lstate bstate)) unit :=
  disk (cache binit);;
  forkret_first.

Lemma iinit_locks (s : fstate (lstate bstate)) : fs_icache s = replicate NINODE zero_inode →
  mfor (seq 0 NINODE) (λ i, updi i (set_ilock initsleeplock)) s = Done tt s.
Proof.
  intros Hs. assert (Hwp : wp (mfor (seq 0 NINODE) (λ i, updi i (set_ilock initsleeplock))) (λ _ s', s' = s) s).
  { eapply (wp_mfor_seq (λ _ s', s' = s)); [done| |done]. intros i s' Hi ->. apply wp_modify. destruct s as [t sb ic]. cbn [fs_icache fs_disk fs_sb] in *. subst ic. f_equal.
    rewrite (list_alter_Some _ _ _ zero_inode) by by apply lookup_replicate_2. apply list_insert_id. by apply lookup_replicate_2. }
  by apply wp_inv in Hwp as ([] & s' & Hrun & ->).
Qed.

Lemma readsb_disk (t : lstate bstate) sb ic dev : readsb_txn dev (FState t sb ic) = disk (cache (readsb dev)) (FState t sb ic).
Proof.
  destruct t as [s l]. unfold readsb_txn, readsb, disk, cache, zoom, mbind, M_bind, mret, M_ret. simpl. unfold cache, zoom. simpl.
  destruct (bread pid dev 1 s) as [b s1| | |]; [|done..]. simpl. by destruct (brelse b s1).
Qed.

Lemma image_area : Z.to_nat (sb_logstart mk_superblock) = 2 ∧ Z.to_nat (sb_nlog mk_superblock) = 30.
Proof. split; vm_compute; reflexivity. Qed.

Lemma iinit_run files v s : image_of files v → crep s (fresh v) →
  ∃ s', iinit ROOTDEV (FState (LState s zero_log) (Superblock 0 0 0 0 0 0 0) (replicate NINODE zero_inode)) =
    Done tt (FState (LState s' zero_log) mk_superblock (replicate NINODE zero_inode)) ∧ crep s' (fresh v).
Proof.
  intros Hi Hr. destruct (fg_sb _ _ (io_geo _ _ Hi)) as (d & Hd & Hsb). cbn [j_view image_j] in Hd.
  assert (Hwp : wp (cache (readsb ROOTDEV)) (λ sb t, sb = mk_superblock ∧ ∃ s', t = LState s' zero_log ∧ crep s' (fresh v)) (LState s zero_log)).
  { eapply (readsb_spec _ _ (fresh v) d); [exact Hr|done|pose proof (fresh_room v); lia|exact Hd|by right|]. intros s1 Hr1. split; [done|]. by exists s1. }
  apply wp_inv in Hwp as (sb & t & Hrun & -> & s' & -> & Hr'). exists s'. split; [|done].
  unfold iinit. erewrite run_bind by by apply iinit_locks.
  assert (Hsbr := readsb_disk (LState s zero_log) (Superblock 0 0 0 0 0 0 0) (replicate NINODE zero_inode) ROOTDEV).
  unfold disk, zoom in Hsbr. cbn [fs_disk] in Hsbr. rewrite Hrun in Hsbr. by rewrite (run_bind _ _ _ _ _ Hsbr).
Qed.

Lemma image_says files v : image_of files v → sb_says v 2 30.
Proof.
  intros Hi. destruct (fg_sb _ _ (io_geo _ _ Hi)) as (d & Hd & Hsb). exists d. split; [exact Hd|].
  split; [change (get32 16 d) with (sb_logstart (sb_of_bytes d))|change (get32 12 d) with (sb_nlog (sb_of_bytes d))]; rewrite Hsb; vm_compute; reflexivity.
Qed.

Lemma zero_header : hdr_is zero_block [] ∧ hdr_enc [] zero_block = zero_block.
Proof. split; [split; [vm_compute; reflexivity|done]|vm_compute; reflexivity]. Qed.

Lemma initlog_run files v s : image_of files v → crep s (fresh v) →
  ∃ s' l', initlog ROOTDEV (LState s zero_log) = Done tt (LState s' l') ∧
    ∃ c, crep s' c ∧ quiet l' c 2 30 [] ∧ l_outstanding l' = 0%Z ∧ l_committing l' = 0%Z ∧ jview c 2 30 = image_j v.
Proof.
  intros Hi Hr. pose proof FSn_Z. pose proof (io_log _ _ Hi) as Hz. destruct zero_header as [Hh He].
  assert (Hod : LogProof.on_disk v 2 30 [] []) by (eapply on_disk_nil; [lia|exact Hz|exact Hh]).
  pose proof (initlog_spec s v 2 30 [] [] zero_block (image_says _ _ Hi) ltac:(rewrite (io_len _ _ Hi); plia) ltac:(lia) ltac:(rewrite (io_len _ _ Hi); plia) Hr Hod Hz) as Hwp.
  apply wp_inv in Hwp as ([] & t & Hrun & s' & l' & -> & Hr' & Hg & Hl & Ho & Hc). exists s', l'. split; [exact Hrun|].
  unfold recover_writes in Hr'. rewrite He in Hr'. set (c := puts _ _) in Hr'. exists c. split; [exact Hr'|].
  assert (Hdisk : c_disk c = v) by (unfold c; rewrite puts_disk; by apply list_insert_id).
  assert (Hview : c_view c = v) by (unfold c; rewrite puts_view; by apply list_insert_id).
  assert (Hdirty : c_dirty c = ∅) by (unfold c; rewrite puts_dirty; cbn [fresh c_dirty]; set_solver).
  assert (Hheld : c_held c = ∅) by (unfold c; by rewrite puts_held). clearbody c.
  split; [|split; [done|split; [done|]]].
  - constructor; rewrite ?Hdisk, ?Hview, ?Hheld, ?Hdirty; try done; [apply log_list_nil; lia|simpl; plia|by exists zero_block].
  - unfold jview, image_j. rewrite Hdisk, Hview, Hheld, Hdirty. by destruct image_area as [-> ->].
Qed.

Lemma start_run files v : image_of files v →
  ∃ s l, start (power_on v) = Done tt (FState (LState s l) mk_superblock (replicate NINODE zero_inode)) ∧
    ∃ c, crep s c ∧ quiet l c 2 30 [] ∧ l_outstanding l = 0%Z ∧ l_committing l = 0%Z ∧ jview c 2 30 = image_j v.
Proof.
  intros Hi. pose proof (boot_rep v (io_blk _ _ Hi)) as Hrep. destruct (iinit_run _ _ _ Hi Hrep) as (s1 & Hrun1 & Hr1).
  destruct (initlog_run _ _ _ Hi Hr1) as (s & l & Hrun2 & Hc). exists s, l. split; [|exact Hc]. unfold start, power_on.
  rewrite (run_bind _ _ _ tt (FState (LState (BState boot_bufs v []) zero_log) (Superblock 0 0 0 0 0 0 0) (replicate NINODE zero_inode))).
  2:{ unfold disk, cache, zoom. cbn [fs_disk ls_cache]. by rewrite binit_eq. }
  unfold forkret_first. rewrite (run_bind _ _ _ _ _ Hrun1). unfold disk, zoom. cbn [fs_disk]. by rewrite Hrun2.
Qed.

(** ** Reading a file by its name *)

(** The calls that [exec] and [read] are made of; the transaction stays open. *)
Definition fetch (path : list Z) (off n : Z) : M (fstate (lstate bstate)) (option (Z * list Z)) :=
  disk begin_op;;
  ip ← namei pid devsw_read 0 path;
  match ip with
  | None => mret None
  | Some ip =>
    ilock pid ip;;
    r ← readi devsw_read ip off n;
    iunlockput pid ip;;
    mret (Some r)
  end.

Lemma begin_first s l c sb ic : crep s c → quiet l c 2 30 [] → l_outstanding l = 0%Z → l_committing l = 0%Z →
  ∃ t, disk begin_op (FState (LState s l) sb ic) = Done tt (FState t sb ic) ∧ jrep t (jview c 2 30).
Proof.
  intros Hr Hq Ho Hc. exists (LState s (set_outstanding 1 l)). split.
  - unfold disk, zoom. cbn [fs_disk]. rewrite begin_op_spec, Ho, Hc. rewrite decide_True; [done|]. pose proof (lg_n _ _ (q_logged _ _ _ _ _ Hq)) as ->. done.
  - exists c, [], 2, 30. cbn [ls_cache ls_log]. split_and!; [done| |done|plia|done].
    pose proof (quiet_txn _ _ _ _ _ Hq) as [[H1 H2 H3 H4 H5 H6] [H7 H8 H9] H10 H11 H12 H13 H14]. constructor; try done; by constructor.
Qed.

Lemma holds_take v x bs off k : holds v x bs → (off + k ≤ length bs)%nat → fbytes v x off k = take k (drop off bs).
Proof.
  intros (_ & _ & _ & Hb) Hle. apply list_eq. intros i. rewrite <-Hb at 1. unfold fbytes. rewrite <-fmap_drop, <-fmap_take, !list_lookup_fmap.
  rewrite drop_seq, take_seq, Nat.min_l by lia. destruct (decide (i < k)) as [Hi|Hi].
  - rewrite !lookup_seq_lt by done. cbn [fmap option_fmap option_map]. do 2 f_equal.
  - by rewrite !lookup_seq_ge by lia.
Qed.

Lemma fbytes_same v x y off n : i_addrs x = i_addrs y → fbytes v x off n = fbytes v y off n.
Proof. intros Ha. apply list_fmap_ext. intros k ? _. unfold fbyte. by rewrite (same_faddr _ x y). Qed.

Lemma split_plain name : slash ∉ name → split_slash name = [name].
Proof.
  induction name as [|c name IH]; [done|]. intros Hn. cbn [split_slash]. rewrite decide_False by (intros ->; apply Hn; by left).
  rewrite IH; [done|]. intros Hin. apply Hn. by right.
Qed.

Lemma elems_file name : slash ∉ name → name ≠ [] → elems (slash :: name) = [name].
Proof.
  intros Hn Hne. unfold elems. cbn [split_slash]. rewrite decide_True, split_plain by done. rewrite filter_cons_False by (by intros []). by rewrite filter_cons_True.
Qed.

Lemma room_image v : size (j_log (image_j v)) < NBUF.
Proof. cbn [j_log image_j]. rewrite size_empty. plia. Qed.

Section image.
Context (files : list host_file) (v : list block) (i : nat) (f : host_file).
Hypothesis Hmax : (Z.of_nat (length files) + 1 < NINODES)%Z.
Hypothesis Hhost : Forall host_ok files.
Hypothesis Himg : image_of files v.
Hypothesis Hwhole : whole files.
Hypothesis Hnamed : named files i f.

Let ic0 : list inode := replicate NINODE zero_inode.
Let inum : Z := Z.of_nat (2 + i).

Lemma namei_finds t : jrep t (image_j v) →
  ∃ t' ic ip x, namei pid devsw_read 0 (slash :: skip_underscore (hf_name f)) (FState t mk_superblock ic0) = Done (Some ip) (FState t' mk_superblock ic) ∧
    jrep t' (image_j v) ∧ cache_ok v mk_superblock None ic ∧ ic !! ip = Some x ∧ i_inum x = inum ∧ (0 < i_ref x)%Z ∧ ∀ k, refs ic k = one (k = inum).
Proof.
  intros Hr. pose proof (image_tree _ _ Hmax Himg Hwhole) as Htree. destruct Hnamed as [Hf Hne Hnul _ _].
  assert (Hok : host_ok f) by by eapply (Forall_lookup_1 _ _ _ _ Hhost). assert (Hz : 0%Z ∉ hf_name f) by exact (Forall_lookup_1 _ _ _ _ Hnul Hf).
  destruct (namex_spec pid devsw_read (image_j v) mk_superblock (io_geo _ _ Himg) Htree eq_refl (room_image v) false 0 (slash :: skip_underscore (hf_name f))
    (replicate DIRSIZ 0%Z) t ic0 ROOTINO) as (t' & ic & [r nm] & Hrun & Hr' & Hca & Hres).
  - exact Hr.
  - apply zero_icache_ok.
  - unfold slots, ic0. assert (Hs : ∀ k, filter (λ x, i_ref x = 0%Z) (replicate k zero_inode) = replicate k zero_inode).
    { induction k as [|k IH]; [done|]. cbn [replicate]. rewrite filter_cons_True by done. by rewrite IH. }
    rewrite Hs, length_replicate. unfold NINODE. lia.
  - rewrite not_elem_of_cons. split; [done|]. intros Hin. by apply Hz, skip_elem.
  - apply length_replicate.
  - unfold starts. by rewrite decide_True.
  - change ROOTINO with (Z.of_nat 1). apply (image_alive files); [done|done|lia].
  - unfold resolved in Hres. rewrite elems_file in Hres; [|intros Hin; by apply (proj1 (ho_name _ Hok)), skip_elem|done].
    change (j_view (image_j v)) with v in *. rewrite (image_walk files v i f) in Hres by done.
    destruct Hres as (ip & x & Hr1 & Hx & _ & Hn & Hrx & _ & Hrefs). simpl in Hr1. subst r. exists t', ic, ip, x.
    split; [unfold namei; by rewrite (run_bind _ _ _ _ _ Hrun)|]. split; [exact Hr'|]. split; [exact Hca|]. split; [exact Hx|]. split; [exact Hn|]. split; [exact Hrx|].
    intros k. rewrite Hrefs. rewrite refs_none; [done|]. intros k' y [-> _]%lookup_replicate [Hp _]. simpl in Hp. lia.
Qed.

Lemma fetch_image t off n : jrep t (image_j v) → is_u32 off → is_u32 n → (off ≤ Z.of_nat (length (file_contents f)))%Z → (off + n < 2 ^ 32)%Z →
  let cnt := Z.min n (Z.of_nat (length (file_contents f)) - off) in
  ∃ t' ic, (ip ← namei pid devsw_read 0 (slash :: skip_underscore (hf_name f));
    match ip with None => mret None | Some ip => ilock pid ip;; r ← readi devsw_read ip off n; iunlockput pid ip;; mret (Some r) end) (FState t mk_superblock ic0) =
      Done (Some (cnt, take (Z.to_nat cnt) (drop (Z.to_nat off) (file_contents f)))) (FState t' mk_superblock ic) ∧
    jrep t' (image_j v) ∧ cache_ok v mk_superblock None ic ∧ ∀ k, refs ic k = 0%Z.
Proof.
  intros Hr Hoff Hn Hle Hsum cnt. destruct (namei_finds t Hr) as (t1 & ic1 & ip & x & Hrun1 & Hr1 & Hca1 & Hx & Hxn & Hxr & Hrefs1).
  rewrite (run_bind _ _ _ _ _ Hrun1). pose proof (image_tree _ _ Hmax Himg Hwhole) as Htree. pose proof (lookup_lt_Some _ _ _ (na_file _ _ _ Hnamed)) as Hil.
  destruct (io_files _ _ Himg _ _ (na_file _ _ _ Hnamed)) as [Hty Hh]. fold inum in Hty, Hh.
  assert (Hal : alive v mk_superblock (i_inum x)) by (rewrite Hxn; apply (image_alive files); [done|done|lia]).
  destruct (ilock_step pid (image_j v) mk_superblock (io_geo _ _ Himg) eq_refl (room_image v) t1 ic1 ip x Hr1 Hca1 Hx Hxr Hal)
    as (t2 & y & Hrun2 & Hr2 & Hlo & Hyn & Hyr & Hyl & Hmay & Hca2). rewrite (run_bind _ _ _ _ _ Hrun2).
  change (j_view (image_j v)) with v in *. set (ic2 := <[ip := y]> ic1) in *. assert (Hip : ic2 !! ip = Some y) by (apply list_lookup_insert_eq; by eapply lookup_lt_Some).
  destruct (loaded_fields _ _ _ Hlo) as (Ed & Et & En & Es & Ea). rewrite Hyn, Hxn in *. fold (node v mk_superblock inum) in *.
  assert (Hfy : file_ok mk_superblock (image_j v) y) by (eapply file_ok_same; [exact Ed|exact Es|exact Ea|apply Hh]).
  pose proof (readi_spec devsw_read t2 (image_j v) mk_superblock ic2 ip y off n Hr2 (io_geo _ _ Himg) Hfy Hip ltac:(by rewrite Et, Hty) eq_refl (room_image v) Hoff Hn) as Hwp.
  apply wp_inv in Hwp as (r & s & Hrun3 & t3 & -> & Hr3 & Hres). rewrite (run_bind _ _ _ _ _ Hrun3).
  assert (Hin : inside (image_j v) mk_superblock ic2 ip y) by (constructor; [exact Hca2|exact Hip|exact Hlo|exact Hyl|lia|rewrite Hyn; exact Hal]).
  destruct (leave_step pid devsw_read (image_j v) mk_superblock (room_image v) t3 ic2 ip y Hin) as (ic3 & Hrun4 & Hca3 & _ & _ & Hrefs3 & _).
  rewrite (run_bind _ _ _ _ _ Hrun4). exists t3, ic3. split; [|split; [done|split; [done|]]].
  - unfold mret, M_ret. do 2 f_equal. rewrite Hres. pose proof Hh as (_ & _ & Hsz & _). rewrite Es, Hsz. rewrite decide_False by lia. cbv zeta. fold cnt. f_equal.
    change (j_view (image_j v)) with v. rewrite (fbytes_same v y (node v mk_superblock inum) _ _ Ea). apply holds_take; [exact Hh|]. unfold cnt, is_u32 in *. lia.
  - intros k. rewrite Hrefs3. unfold ic2. rewrite (refs_insert _ _ _ _ _ (ca_ok _ _ _ _ Hca1) Hx Hmay). rewrite Hyn. unfold one.
    pose proof (refs_live _ _ _ (ca_ok _ _ _ _ Hca1) Hx Hxr (proj1 (ca_entry _ _ _ _ Hca1 _ _ Hx Hxr))) as Hlive. rewrite Hxn, Hrefs1 in Hlive. unfold one in Hlive.
    rewrite decide_True in Hlive by done. destruct (decide (k = inum)) as [->|Hk]; [lia|]. rewrite Hrefs1. unfold one. by rewrite decide_False.
Qed.
End image.

(** C15. What mkfs puts into the image the kernel reads back. For every set of
    files that fit, whose directory does not end at a block boundary, mkfs
    succeeds; the kernel started on the image initializes its inode cache and
    recovers its (empty) log; and opening a file by its name, without a leading
    underscore and cut to [DIRSIZ] characters, then reading [n] bytes at [off]
    returns the bytes of the host's file. The lookup, the lock and the read leave
    no reference and no lock behind. *)
Theorem boot_reads_files files i f off n :
  Forall host_ok files → (Z.of_nat (length files) + 1 < NINODES)%Z → NMn + total (image_files files) ≤ FSn →
  whole files → named files i f →
  is_u32 off → is_u32 n → (off ≤ Z.of_nat (length (file_contents f)))%Z → (off + n < 2 ^ 32)%Z →
  let cnt := Z.min n (Z.of_nat (length (file_contents f)) - off) in
  ∃ m st t ic, main files mk_start = Done tt m ∧ start (power_on (mk_img m)) = Done tt st ∧
    fetch (slash :: skip_underscore (hf_name f)) off n st =
      Done (Some (cnt, take (Z.to_nat cnt) (drop (Z.to_nat off) (file_contents f)))) (FState t mk_superblock ic) ∧
    cache_ok (mk_img m) mk_superblock None ic ∧ ∀ k, refs ic k = 0%Z.
Proof.
  intros Hok Hmax Hroom Hw Hna Hoff Hn Hle Hsum cnt. destruct (mkfs_spec files Hok Hmax Hroom) as (m & Hrun & Him).
  destruct (start_run _ _ Him) as (s & l & Hstart & c & Hr & Hq & Ho & Hc & Hj).
  destruct (begin_first s l c mk_superblock (replicate NINODE zero_inode) Hr Hq Ho Hc) as (t & Hbeg & Hrep). rewrite Hj in Hrep.
  destruct (fetch_image files (mk_img m) i f Hmax Hok Him Hw Hna t off n Hrep Hoff Hn Hle Hsum) as (t' & ic & Hf & _ & Hca & Hrefs).
  exists m. eexists. exists t', ic. split; [exact Hrun|]. split; [exact Hstart|]. split; [|split; [exact Hca|exact Hrefs]].
  unfold fetch. rewrite (run_bind _ _ _ _ _ Hbeg). exact Hf.
Qed.

End boot.

(** ** Witness *)

Lemma boot_reads_files_witness : ∃ m st t ic, main demo_files mk_start = Done tt m ∧ start 1 (power_on (mk_img m)) = Done tt st ∧
  fetch 1 (λ _, None) [47; 97]%Z 0 10 st = Done (Some (1%Z, [7%Z])) (FState t mk_superblock ic).
Proof.
  pose proof sizes as (HN & HM & HB).
  assert (Hw : whole demo_files) by (unfold whole; by rewrite HB).
  assert (Hna : named demo_files 0 (HostFile [95%Z; 97%Z] (Some [[7%Z]]))).
  { constructor; [done|done| |done|lia]. apply Forall_singleton. set_solver. }
  destruct (boot_reads_files 1 (λ _, None) demo_files 0 _ 0 10 demo_files_ok ltac:(done) demo_files_fit Hw Hna) as (m & st & t & ic & Hm & Hst & Hf & _); [done|done|done|done|].
  exists m, st, t, ic. split; [exact Hm|]. split; [exact Hst|]. exact Hf.
Defined.
