(* ===== verification/Spinlock.v ===== *)
(** * Spin locks (spinlock.c, spinlock.h)

    [pushcli], [popcli], [holding], [acquire] and [release] as functions on the
    state of a CPU and a lock, and as the atomic memory accesses of several
    CPUs that use one lock, interleaved in any order. *)

From S2P Require Import Prelude Params.

Definition FL_IF : Z := 0x200.        (* Interrupt Enable *)
Definition KERNBASE : Z := 0x80000000.

(** The part of [struct cpu] that the locks use, and the flags register. *)
Record cpu := Cpu { c_eflags : Z; c_ncli : Z; c_intena : Z }.

Record spinlock := Spinlock {
  lk_locked : Z;            (* Is the lock held? *)
  lk_cpu : option nat;      (* The cpu holding the lock. *)
  lk_pcs : list Z           (* The call stack that locked the lock. *)
}.

Definition initlock : spinlock := Spinlock 0 None (replicate 10 0%Z).

(** ** Interrupts *)

Definition if_flag (c : cpu) : Z := Z.land (c_eflags c) FL_IF.
Definition cli (c : cpu) : cpu := Cpu (Z.ldiff (c_eflags c) FL_IF) (c_ncli c) (c_intena c).
Definition sti (c : cpu) : cpu := Cpu (Z.lor (c_eflags c) FL_IF) (c_ncli c) (c_intena c).

Definition pushcli : M cpu unit := λ c,
  let f := if_flag c in
  let c := cli c in
  let c := if decide (c_ncli c = 0%Z) then Cpu (c_eflags c) (c_ncli c) f else c in
  Done tt (Cpu (c_eflags c) (s32 (c_ncli c + 1)) (c_intena c)).

Definition popcli : M cpu unit := λ c,
  if decide (if_flag c ≠ 0%Z) then Panic "popcli - interruptible" else
  let c := Cpu (c_eflags c) (s32 (c_ncli c - 1)) (c_intena c) in
  if decide (c_ncli c < 0)%Z then Panic "popcli" else
  Done tt (if decide (c_ncli c = 0%Z ∧ c_intena c ≠ 0%Z) then sti c else c).

(** Record the current call stack by following the %ebp chain: [word] is the
    memory, [v] the address of [acquire]'s argument. *)
Fixpoint getpcs (word : Z → Z) (ebp : Z) (i : nat) : list Z :=
  match i with
  | O => []
  | S i =>
    if decide (ebp = 0 ∨ ebp < KERNBASE ∨ ebp = 0xffffffff)%Z then replicate (S i) 0%Z
    else word (u32 (ebp + 4)) :: getpcs word (word ebp) i
  end.
Definition getcallerpcs (word : Z → Z) (v : Z) : list Z := getpcs word (u32 (v - 8)) 10.

(** ** The lock operations of CPU [me] *)

Section lock_ops.
Variable me : nat.
Variable word : Z → Z.
Variable frame : Z.

Definition own (m : M cpu unit) : M (cpu * spinlock) unit := zoom fst (λ c s, (c, s.2)) m.
Definition spin : M (cpu * spinlock) unit := λ s, Wait s.

(** Check whether this cpu is holding the lock. *)
Definition holding : M (cpu * spinlock) bool :=
  own pushcli;;
  s ← (mget : M (cpu * spinlock) _);
  let r := negb (lk_locked s.2 =? 0)%Z && bool_decide (lk_cpu s.2 = Some me) in
  own popcli;;
  mret r.

(** Spinning on a lock that is held is waiting for another CPU. *)
Definition acquire : M (cpu * spinlock) unit :=
  own pushcli;;
  h ← holding;
  assert_or_panic (negb h) "acquire";;
  s ← (mget : M (cpu * spinlock) _);
  if decide (lk_locked s.2 ≠ 0%Z) then spin
  else mput (s.1, Spinlock 1 (Some me) (getcallerpcs word frame)).

Definition release : M (cpu * spinlock) unit :=
  h ← holding;
  assert_or_panic h "release";;
  mmodify (λ s, (s.1, Spinlock 0 None (<[0 := 0%Z]> (lk_pcs s.2))));;
  own popcli.

End lock_ops.

(** ** Several CPUs and one lock *)

(** Where a CPU is: outside; in [acquire], about to read [locked] or [cpu] in
    [holding], spinning on xchg, or with the lock taken but [cpu] not yet set;
    in the critical section; in [release], about to read [locked] or [cpu], to
    clear [cpu], or to clear [locked]; or in [panic]. *)
Inductive pc : Type :=
| Outside | AcqLocked | AcqCpu | Spinning | Taken
| Critical | RelLocked | RelCpu | RelClear | RelStore
| Panicked.
#[export] Instance pc_eq_dec : EqDecision pc.
Proof. solve_decision. Defined.

Record machine := Machine {
  m_cpus : list (cpu * pc);
  m_locked : Z;
  m_owner : option nat
}.

(** Interrupt nesting never fails here; a failure is a panic. *)
Definition on_cpu (m : M cpu unit) (c : cpu) (next : pc) : cpu * pc :=
  match m c with Done _ c => (c, next) | _ => (c, Panicked) end.

(** One memory access of CPU [me], with the register work around it. In
    [holding], [pushcli] is before the first read and [popcli] after the last. *)
Definition cpu_step (me : nat) (m : machine) : machine :=
  match m_cpus m !! me with
  | None => m
  | Some (c, p) =>
    let go (cp : cpu * pc) := Machine (<[me := cp]> (m_cpus m)) (m_locked m) (m_owner m) in
    match p with
    | Outside => go (on_cpu (pushcli;; pushcli) c AcqLocked)
    | AcqLocked =>
      if decide (m_locked m = 0%Z) then go (on_cpu popcli c Spinning) else go (c, AcqCpu)
    | AcqCpu =>
      if decide (m_owner m = Some me) then go (on_cpu popcli c Panicked) else go (on_cpu popcli c Spinning)
    | Spinning =>
      if decide (m_locked m = 0%Z) then Machine (<[me := (c, Taken)]> (m_cpus m)) 1 (m_owner m)
      else Machine (m_cpus m) 1 (m_owner m)
    | Taken => Machine (<[me := (c, Critical)]> (m_cpus m)) (m_locked m) (Some me)
    | Critical => go (on_cpu pushcli c RelLocked)
    | RelLocked =>
      if decide (m_locked m = 0%Z) then go (on_cpu popcli c Panicked) else go (c, RelCpu)
    | RelCpu =>
      if decide (m_owner m = Some me) then go (on_cpu popcli c RelClear) else go (on_cpu popcli c Panicked)
    | RelClear => Machine (<[me := (c, RelStore)]> (m_cpus m)) (m_locked m) None
    | RelStore => Machine (<[me := on_cpu popcli c Outside]> (m_cpus m)) 0 (m_owner m)
    | Panicked => m
    end
  end.

Definition run (sched : list nat) (m : machine) : machine := foldl (λ m me, cpu_step me m) m sched.

(** The CPUs that have the lock. *)
Definition holds (p : pc) : bool :=
  match p with Taken | Critical | RelLocked | RelCpu | RelClear | RelStore => true | _ => false end.

(** ** Nesting of interrupt disabling *)

(** A CPU at nesting depth [d] whose interrupt flag outside was [f]. *)
Definition cpu_at (f : Z) (d : nat) (c : cpu) : Prop :=
  c_ncli c = Z.of_nat d ∧
  if decide (d = 0) then if_flag c = f else if_flag c = 0%Z ∧ c_intena c = f.

Lemma if_flag_cli c : if_flag (cli c) = 0%Z.
Proof.
  unfold if_flag, cli. simpl. apply Z.bits_inj'. intros n Hn.
  rewrite Z.land_spec, Z.ldiff_spec, Z.bits_0. by destruct (Z.testbit (c_eflags c) n), (Z.testbit FL_IF n).
Qed.

Lemma if_flag_sti c : if_flag (sti c) = FL_IF.
Proof.
  unfold if_flag, sti. simpl. apply Z.bits_inj'. intros n Hn.
  rewrite Z.land_spec, Z.lor_spec. by destruct (Z.testbit (c_eflags c) n), (Z.testbit FL_IF n).
Qed.

Lemma if_flag_01 c : if_flag c = 0%Z ∨ if_flag c = FL_IF.
Proof.
  unfold if_flag, FL_IF. change 0x200%Z with (2 ^ 9)%Z.
  destruct (Z.testbit (c_eflags c) 9) eqn:Hb; [right|left]; apply Z.bits_inj'; intros i Hi;
    rewrite Z.land_spec, ?Z.bits_0, Z.pow2_bits_eqb by lia;
    destruct (Z.eqb_spec 9 i); subst; by rewrite ?Hb, ?andb_false_r.
Qed.

Lemma pushcli_at f d c : cpu_at f d c → (Z.of_nat d + 1 < 2 ^ 31)%Z →
  ∃ c', pushcli c = Done tt c' ∧ cpu_at f (S d) c'.
Proof.
  intros [Hn Hf] Hd. pose proof (if_flag_cli c) as Hcli. unfold pushcli, cpu_at.
  assert (Hs : s32 (c_ncli c + 1) = Z.of_nat (S d)) by (rewrite s32_small; lia).
  change (c_ncli (cli c)) with (c_ncli c).
  destruct (decide (c_ncli c = 0%Z)) as [Hz|Hz].
  - assert (d = 0) as -> by lia. simpl in Hf.
    eexists. split; [reflexivity|]. cbn [c_ncli c_intena c_eflags].
    split; [done|]. by rewrite decide_False by done.
  - rewrite decide_False in Hf by lia. destruct Hf as [Hf1 Hf2].
    eexists. split; [reflexivity|]. cbn [c_ncli c_intena c_eflags cli].
    split; [done|]. by rewrite decide_False by done.
Qed.

Lemma popcli_at f d c : cpu_at f (S d) c → f = 0%Z ∨ f = FL_IF → (Z.of_nat d + 1 < 2 ^ 31)%Z →
  ∃ c', popcli c = Done tt c' ∧ cpu_at f d c'.
Proof.
  intros [Hn Hf] HF Hd. rewrite decide_False in Hf by done. destruct Hf as [Hif Hin].
  unfold popcli. rewrite decide_False by (rewrite Hif; lia).
  assert (Hs : s32 (c_ncli c - 1) = Z.of_nat d) by (rewrite s32_small; lia).
  cbn [c_ncli c_intena]. rewrite Hs, decide_False by lia.
  destruct (decide (Z.of_nat d = 0 ∧ c_intena c ≠ 0)%Z) as [[Hz Hi]|Hz]; (eexists; split; [reflexivity|]).
  - split; [done|]. rewrite decide_True by lia. rewrite if_flag_sti. destruct HF; congruence.
  - split; [done|]. case_decide as Hd0; [|done]. change (if_flag _) with (if_flag c). rewrite Hif.
    destruct (decide (f = 0%Z)); [congruence|]. exfalso. apply Hz. split; [lia|congruence].
Qed.

Lemma popcli_zero f c : cpu_at f 0 c → ∃ e, popcli c = Panic e.
Proof.
  intros [Hn _]. unfold popcli. destruct (decide (if_flag c ≠ 0%Z)); [by eexists|]. cbn [c_ncli c_intena].
  rewrite Hn. rewrite decide_True by (rewrite s32_small; lia). by eexists.
Qed.

Fixpoint times (n : nat) (m : M cpu unit) : M cpu unit :=
  match n with O => mret tt | S n => m;; times n m end.

Lemma times_push f n d c : cpu_at f d c → (Z.of_nat (d + n) < 2 ^ 31)%Z →
  wp (times n pushcli) (λ _ c', cpu_at f (d + n) c') c.
Proof.
  revert d c. induction n as [|n IH]; intros d c Hc Hb; simpl; [apply wp_ret; by rewrite Nat.add_0_r|].
  destruct (pushcli_at f d c) as (c' & Hrun & Hc'); [done|lia|]. eapply wp_bind, wp_done; [exact Hrun|].
  replace (d + S n) with (S d + n) by lia. apply IH; [done|lia].
Qed.

Lemma times_pop f n d c : cpu_at f (d + n) c → f = 0%Z ∨ f = FL_IF → (Z.of_nat (d + n) < 2 ^ 31)%Z →
  wp (times n popcli) (λ _ c', cpu_at f d c') c.
Proof.
  revert d c. induction n as [|n IH]; intros d c Hc HF Hb; simpl; [apply wp_ret; by rewrite Nat.add_0_r in Hc|].
  rewrite Nat.add_succ_r in Hc. destruct (popcli_at f (d + n) c) as (c' & Hrun & Hc'); [done|done|lia|].
  eapply wp_bind, wp_done; [exact Hrun|]. apply IH; [done|done|lia].
Qed.

(** [pushcli] and [popcli] are matched. *)
Lemma cli_nesting c n k :
  c_ncli c = 0%Z → k ≤ n → (Z.of_nat n < 2 ^ 31)%Z →
  wp (times n pushcli;; times k popcli) (λ _ c',
    c_ncli c' = Z.of_nat (n - k) ∧ (k < n → if_flag c' = 0%Z) ∧
    (k = n → if_flag c' = if_flag c ∧ ∃ e, popcli c' = Panic e)) c.
Proof.
  intros Hc Hk Hn. assert (H0 : cpu_at (if_flag c) 0 c) by done.
  apply wp_bind. eapply wp_mono; [apply (times_push (if_flag c) n 0 c H0); lia|]. intros u c1 H1.
  pose proof (if_flag_01 c) as HF.
  eapply wp_mono; [apply (times_pop (if_flag c) k (n - k) c1)|].
  - by replace (n - k + k) with (0 + n) by lia.
  - done.
  - lia.
  - intros u2 c2 H2. pose proof H2 as [Hn2 Hf2]. split_and!; [done| |].
    + intros Hlt. rewrite decide_False in Hf2 by lia. apply Hf2.
    + intros ->. rewrite Nat.sub_diag in *. split; [done|]. by eapply popcli_zero.
Qed.

(** ** Mutual exclusion *)

(** The nesting depth in each place, and the places where [lk->cpu] is set. *)
Definition depth (p : pc) : nat :=
  match p with
  | Outside | Panicked => 0
  | AcqLocked | AcqCpu | RelLocked | RelCpu => 2
  | _ => 1
  end.
Definition owns (p : pc) : bool :=
  match p with Critical | RelLocked | RelCpu | RelClear => true | _ => false end.

(** [h] is the CPU that has the lock, [fl] the interrupt flags outside. *)
Record place_ok (fl : nat → Z) (h owner : option nat) (i : nat) (cp : cpu * pc) : Prop := {
  pl_no_panic : cp.2 ≠ Panicked;
  pl_cpu : cpu_at (fl i) (depth cp.2) cp.1;
  pl_holds : holds cp.2 = true ↔ h = Some i;
  pl_owns : owns cp.2 = true ↔ owner = Some i
}.

Definition taken (h : option nat) : Z := match h with Some _ => 1 | None => 0 end.

Definition mutex_inv (fl : nat → Z) (m : machine) : Prop :=
  ∃ h : option nat, m_locked m = taken h ∧ (∀ i, m_owner m = Some i → h = Some i) ∧
    ∀ i cp, m_cpus m !! i = Some cp → place_ok fl h (m_owner m) i cp.

Definition boot_machine (cs : list cpu) : machine := Machine ((λ c, (c, Outside)) <$> cs) 0 None.
Definition boot_flag (cs : list cpu) (i : nat) : Z := default 0%Z (if_flag <$> cs !! i).

Definition flags (fl : nat → Z) : Prop := ∀ i, fl i = 0%Z ∨ fl i = FL_IF.

Lemma inv_upd fl m me cp cp' (h h' owner' : option nat) locked' :
  (∀ i cp, m_cpus m !! i = Some cp → place_ok fl h (m_owner m) i cp) →
  m_cpus m !! me = Some cp → place_ok fl h' owner' me cp' →
  (∀ i, i ≠ me → h = Some i ↔ h' = Some i) → (∀ i, i ≠ me → m_owner m = Some i ↔ owner' = Some i) →
  (∀ i, owner' = Some i → h' = Some i) → locked' = taken h' →
  mutex_inv fl (Machine (<[me := cp']> (m_cpus m)) locked' owner').
Proof.
  intros Hall Hme Hok Hh Ho Hoh Hl. exists h'. split; [done|]. split; [done|]. intros i q. simpl.
  destruct (decide (i = me)) as [->|Hne].
  - rewrite list_lookup_insert_eq by (by eapply lookup_lt_Some). by intros [= <-].
  - rewrite list_lookup_insert_ne by done. intros Hi. destruct (Hall _ _ Hi) as [Hp Hc Hho Hw].
    constructor; [done|done|by rewrite Hho, Hh|by rewrite Hw, Ho].
Qed.

Lemma on_cpu_at (m : M cpu unit) c p c' : m c = Done tt c' → on_cpu m c p = (c', p).
Proof. unfold on_cpu. by intros ->. Qed.

(** Every access of every CPU keeps the invariant. *)
Lemma step_inv fl me m : flags fl → mutex_inv fl m → mutex_inv fl (cpu_step me m).
Proof.
  intros HF (h & Hl & Hoh & Hall). unfold cpu_step. destruct (m_cpus m !! me) as [[c p]|] eqn:Hme; [|by exists h].
  pose proof (Hall _ _ Hme) as Hok. destruct Hok as [Hnp Hc Hh Ho]. simpl in *.
  pose proof (HF me) as Hfl.
  assert (Hkeep : ∀ c' p', p' ≠ Panicked → cpu_at (fl me) (depth p') c' → holds p' = holds p →
    owns p' = owns p → mutex_inv fl (Machine (<[me := (c', p')]> (m_cpus m)) (m_locked m) (m_owner m))).
  { intros c' p' Hp' Hc' Eh Eo. eapply inv_upd; [done|done| |done|done|done|done].
    constructor; simpl; [done|done|by rewrite Eh|by rewrite Eo]. }
  assert (Hpop : ∀ p', p' ≠ Panicked → depth p = S (depth p') → holds p' = holds p → owns p' = owns p →
    mutex_inv fl (Machine (<[me := on_cpu popcli c p']> (m_cpus m)) (m_locked m) (m_owner m))).
  { intros p' Hp' Hd Eh Eo. rewrite Hd in Hc.
    destruct (popcli_at _ _ _ Hc Hfl) as (c' & Hrun & Hc'); [destruct p; simpl in Hd; lia|].
    rewrite (on_cpu_at _ _ _ _ Hrun). by apply Hkeep. }
  destruct p; simpl in *; try done.
  - destruct (pushcli_at _ _ _ Hc) as (c1 & Hr1 & Hc1); [lia|].
    destruct (pushcli_at _ _ _ Hc1) as (c2 & Hr2 & Hc2); [lia|].
    rewrite (on_cpu_at _ _ _ c2) by (by rewrite (run_bind _ _ _ _ _ Hr1)). by apply Hkeep.
  - case_decide; [by apply Hpop|by apply Hkeep].
  - case_decide as Hw; [by apply Ho in Hw|by apply Hpop].
  - case_decide as Hz.
    + assert (h = None) as -> by (by destruct h; rewrite Hl in Hz).
      eapply (inv_upd _ _ _ _ _ None (Some me)); [done|done| |naive_solver|done| |done].
      * by constructor.
      * intros i Hi. by apply Hoh in Hi.
    + exists h. split; [|done]. by destruct h.
  - assert (h = Some me) as -> by (by apply Hh).
    eapply (inv_upd _ _ _ _ _ (Some me) (Some me)); [done|done| |done| |naive_solver|done].
    + by constructor.
    + intros i Hi. split; [intros Hw; by apply Hoh in Hw; simplify_eq|naive_solver].
  - destruct (pushcli_at _ _ _ Hc) as (c1 & Hr1 & Hc1); [lia|].
    rewrite (on_cpu_at _ _ _ _ Hr1). by apply Hkeep.
  - assert (h = Some me) as -> by (by apply Hh). rewrite decide_False by (by rewrite Hl). by apply Hkeep.
  - rewrite decide_True by (by apply Ho). by apply Hpop.
  - assert (h = Some me) as -> by (by apply Hh). assert (Hme' : m_owner m = Some me) by (by apply Ho).
    eapply (inv_upd _ _ _ _ _ (Some me) (Some me)); [done|done| |done|naive_solver|done|done].
    by constructor.
  - assert (h = Some me) as -> by (by apply Hh).
    destruct (popcli_at _ _ _ Hc Hfl) as (c1 & Hr1 & Hc1); [lia|]. rewrite (on_cpu_at _ _ _ _ Hr1).
    assert (Hn : m_owner m = None).
    { destruct (m_owner m) as [i|] eqn:Hw; [|done]. specialize (Hoh i eq_refl). simplify_eq. by destruct Ho as [_ Ho]; specialize (Ho eq_refl). }
    rewrite Hn. eapply (inv_upd _ _ _ _ _ (Some me) None); [done|done| |naive_solver|by rewrite Hn|done|done].
    by constructor.
Qed.

Lemma run_inv fl sched m : flags fl → mutex_inv fl m → mutex_inv fl (run sched m).
Proof.
  intros HF. revert m. induction sched as [|me sched IH]; intros m Hm; [done|]. by apply IH, step_inv.
Qed.

Lemma boot_inv cs : Forall (λ c, c_ncli c = 0%Z) cs → mutex_inv (boot_flag cs) (boot_machine cs).
Proof.
  intros Hcs. exists None. split; [done|]. split; [done|]. intros i cp Hi. simpl in Hi.
  apply list_lookup_fmap_Some in Hi as (c & -> & Hi). rewrite Forall_lookup in Hcs.
  constructor; simpl; [done| |done|done]. split; [by apply (Hcs _ _ Hi)|]. simpl. unfold boot_flag. by rewrite Hi.
Qed.

Lemma boot_flags cs : flags (boot_flag cs).
Proof.
  intros i. unfold boot_flag. destruct (cs !! i); simpl; [apply if_flag_01|by left].
Qed.

(** The accesses left until the lock is free again. *)
Definition todo (p : pc) : nat :=
  match p with Taken => 6 | Critical => 5 | RelLocked => 4 | RelCpu => 3 | RelClear => 2 | RelStore => 1 | _ => 0 end.

Lemma holder_step fl me m c p : flags fl → mutex_inv fl m → m_cpus m !! me = Some (c, p) → holds p = true →
  (todo p = 1 ∧ m_locked (cpu_step me m) = 0%Z) ∨
  ∃ c' p', m_cpus (cpu_step me m) !! me = Some (c', p') ∧ holds p' = true ∧ S (todo p') = todo p.
Proof.
  intros HF Hinv Hme Hp. pose proof (step_inv fl me m HF Hinv) as (h' & _ & _ & Hall').
  assert (Hlen : me < length (m_cpus m)) by (by eapply lookup_lt_Some).
  destruct Hinv as (h & Hl & Hoh & Hall). destruct (Hall _ _ Hme) as [_ Hc Hh Ho]. simpl in *.
  assert (h = Some me) as -> by (by apply Hh). unfold cpu_step in *. rewrite Hme in *. simpl in *.
  destruct p; simpl in *; try done; [right..|by left].
  - eexists _, _. split; [by apply list_lookup_insert_eq|done].
  - destruct (pushcli_at _ _ _ Hc) as (c1 & Hr1 & _); [lia|]. rewrite (on_cpu_at _ _ _ _ Hr1).
    eexists _, _. split; [by apply list_lookup_insert_eq|done].
  - rewrite decide_False by (by rewrite Hl). eexists _, _. split; [by apply list_lookup_insert_eq|done].
  - rewrite decide_True by (by apply Ho). destruct (popcli_at _ _ _ Hc (HF me)) as (c1 & Hr1 & _); [lia|].
    rewrite (on_cpu_at _ _ _ _ Hr1). eexists _, _. split; [by apply list_lookup_insert_eq|done].
  - eexists _, _. split; [by apply list_lookup_insert_eq|done].
Qed.

Lemma holder_leaves fl me n m c p : flags fl → mutex_inv fl m → m_cpus m !! me = Some (c, p) →
  holds p = true → todo p = n → m_locked (run (replicate n me) m) = 0%Z.
Proof.
  intros HF. revert m c p. induction n as [|n IH]; intros m c p Hinv Hme Hp Hn; [by destruct p|].
  destruct (holder_step fl me m c p) as [[Ht Hl]|(c' & p' & Hme' & Hp' & Ht)]; [done..| |].
  - assert (n = 0) as -> by lia. done.
  - simpl. eapply IH; [by apply step_inv|done|done|lia].
Qed.

(** C16. Spin locks: however the memory accesses of the CPUs interleave, the
    nonatomic check in [holding] included, at most one CPU is between the xchg
    that takes the lock and the store that frees it; no [panic] is reached;
    interrupts are off on every CPU from [acquire] to [release] and as before
    outside; and a CPU that has the lock frees it within six of its own
    accesses. The nesting of [pushcli] and [popcli] on which this rests: after
    [n] pushes and [k] pops the depth is [n - k], interrupts are off as long as
    it is positive, and at depth 0 the interrupt flag is the one from before the
    first push, enabled or not; one more [popcli] panics. *)
Theorem spinlock_mutex cs sched :
  Forall (λ c, c_ncli c = 0%Z) cs →
  let m := run sched (boot_machine cs) in
  (∀ i j ci pi cj pj, m_cpus m !! i = Some (ci, pi) → m_cpus m !! j = Some (cj, pj) →
    holds pi = true → holds pj = true → i = j) ∧
  (∀ i c p, m_cpus m !! i = Some (c, p) → p ≠ Panicked ∧
    if decide (p = Outside) then if_flag c = boot_flag cs i else if_flag c = 0%Z) ∧
  (∀ i c p, m_cpus m !! i = Some (c, p) → holds p = true →
    m_locked (run (replicate (todo p) i) m) = 0%Z) ∧
  (∀ c n k, c ∈ cs → k ≤ n → (Z.of_nat n < 2 ^ 31)%Z →
    wp (times n pushcli;; times k popcli) (λ _ c',
      c_ncli c' = Z.of_nat (n - k) ∧ (k < n → if_flag c' = 0%Z) ∧
      (k = n → if_flag c' = if_flag c ∧ ∃ e, popcli c' = Panic e)) c).
Proof.
  intros Hcs m. pose proof (boot_flags cs) as HF.
  assert (Hinv : mutex_inv (boot_flag cs) m) by (by apply run_inv, boot_inv).
  pose proof Hinv as (h & Hl & Hoh & Hall). split_and!.
  - intros i j ci pi cj pj Hi Hj Hpi Hpj.
    apply (pl_holds _ _ _ _ _ (Hall _ _ Hi)) in Hpi. apply (pl_holds _ _ _ _ _ (Hall _ _ Hj)) in Hpj. congruence.
  - intros i c p Hi. destruct (Hall _ _ Hi) as [Hp [_ Hc] _ _]. split; [done|]. simpl in *.
    destruct p; simpl in *; rewrite ?decide_True, ?decide_False by done; naive_solver.
  - intros i c p Hi Hp. by eapply holder_leaves.
  - intros c n k Hc. rewrite Forall_forall in Hcs. apply cli_nesting. by apply Hcs.
Qed.

Lemma spinlock_mutex_witness :
  let m := run [0; 1; 0; 1; 1; 1; 0; 0; 1] (boot_machine [Cpu 0x246 0 0; Cpu 0x46 0 0]) in
  m_cpus m = [(Cpu 0x46 1 0x200, Spinning); (Cpu 0x46 2 0, RelLocked)] ∧
  m_locked (run (replicate 4 1) m) = 0%Z.
Proof.
  set (cs := [Cpu 0x246 0 0; Cpu 0x46 0 0]). intros m.
  assert (Hcs : Forall (λ c, c_ncli c = 0%Z) cs) by (by repeat constructor).
  destruct (spinlock_mutex cs [0; 1; 0; 1; 1; 1; 0; 0; 1] Hcs) as (_ & _ & Hfree & _).
  split; [vm_compute; reflexivity|]. apply (Hfree 1 (Cpu 0x46 2 0) RelLocked); vm_compute; reflexivity.
Defined.
