(* ===== verification/Kalloc.v ===== *)
(** * The physical page allocator (kalloc.c, memlayout.h, mmu.h)

    Memory is a map from the kernel address of a page to its 4096 bytes; the
    free pages are linked through their first word, as in the source. *)

From S2P Require Import Prelude Params Spinlock.

Definition PGSIZE : Z := 4096.
Definition PHYSTOP : Z := 0xE000000.
Definition PGROUNDUP (sz : Z) : Z := Z.land (u32 (sz + PGSIZE - 1)) (Z.lnot (PGSIZE - 1)).
Definition PGROUNDDOWN (a : Z) : Z := Z.land a (Z.lnot (PGSIZE - 1)).
Definition V2P (a : Z) : Z := u32 (a - KERNBASE).
Definition P2V (a : Z) : Z := u32 (a + KERNBASE).

Definition page := list Z.
Definition PGn : nat := Z.to_nat PGSIZE.
Lemma PGn_Z : Z.of_nat PGn = PGSIZE.
Proof. reflexivity. Qed.
Definition junk_page : page := replicate PGn 1%Z.
#[global] Opaque PGn.

(** The lock is not part of the state: its critical sections are atomic here. *)
Record kmem := Kmem {
  k_use_lock : Z;
  k_freelist : Z;              (* a [struct run] pointer *)
  k_mem : gmap Z page
}.

Section kalloc_code.
Variable kend : Z.             (* first address after the kernel, from kernel.ld *)

Definition kfree (v : Z) : M kmem unit := λ k,
  if decide (v `mod` PGSIZE ≠ 0 ∨ v < kend ∨ PHYSTOP ≤ V2P v)%Z then Panic "kfree" else
  Done tt (Kmem (k_use_lock k) v (<[v := put32 0 (k_freelist k) junk_page]> (k_mem k))).

Definition kalloc : M kmem Z := λ k,
  let r := k_freelist k in
  if decide (r ≠ 0%Z) then
    Done r (Kmem (k_use_lock k) (get32 0 (default [] (k_mem k !! r))) (k_mem k))
  else Done r k.

(** The loop of [freerange]; [p] advances by a page in every round. *)
Fixpoint freerange_loop (fuel : nat) (p vend : Z) : M kmem unit :=
  match fuel with
  | O => λ _, Diverge
  | S fuel =>
    if decide (u32 (p + PGSIZE) ≤ vend)%Z then
      kfree p;; freerange_loop fuel (u32 (p + PGSIZE)) vend
    else mret tt
  end.

(** More rounds than there are pages. *)
Definition freerange_fuel : nat := Z.to_nat (2 ^ 32 / PGSIZE) + 1.

Definition freerange (vstart vend : Z) : M kmem unit :=
  freerange_loop freerange_fuel (PGROUNDUP vstart) vend.

Definition kinit1 (vstart vend : Z) : M kmem unit :=
  mmodify (λ k, Kmem 0 (k_freelist k) (k_mem k));;
  freerange vstart vend.

Definition kinit2 (vstart vend : Z) : M kmem unit :=
  freerange vstart vend;;
  mmodify (λ k, Kmem 1 (k_freelist k) (k_mem k)).

Lemma freerange_fuel_Z : Z.of_nat freerange_fuel = (2 ^ 20 + 1)%Z.
Proof. unfold freerange_fuel. change (2 ^ 32 / PGSIZE)%Z with (2 ^ 20)%Z. lia. Qed.
#[global] Opaque freerange_fuel.

(** ** The free list *)

(** A page that the allocator manages. *)
Definition page_ok (v : Z) : Prop :=
  (v `mod` PGSIZE = 0 ∧ kend ≤ v ∧ KERNBASE ≤ v < KERNBASE + PHYSTOP)%Z.

Fixpoint chain (m : gmap Z page) (p : Z) (l : list Z) : Prop :=
  match l with
  | [] => p = 0%Z
  | v :: l => p = v ∧ ∃ pg, m !! v = Some pg ∧ length pg = PGn ∧ chain m (get32 0 pg) l
  end.

(** [l] is the list of free pages. *)
Record free_list (k : kmem) (l : list Z) : Prop := {
  fl_chain : chain (k_mem k) (k_freelist k) l;
  fl_pages : Forall page_ok l;
  fl_nodup : NoDup l
}.

Lemma page_ok_range v : page_ok v → (0 < v < 2 ^ 32)%Z ∧ (v + PGSIZE ≤ 2 ^ 32 - PGSIZE)%Z.
Proof. unfold page_ok, KERNBASE, PHYSTOP, PGSIZE. lia. Qed.

Lemma V2P_ok v : page_ok v → V2P v = (v - KERNBASE)%Z.
Proof. unfold page_ok, V2P, KERNBASE, PHYSTOP. intros. apply u32_small. unfold is_u32. lia. Qed.

Lemma chain_insert m p l v pg : v ∉ l → chain m p l → chain (<[v := pg]> m) p l.
Proof.
  revert p. induction l as [|a l IH]; intros p Hv; simpl; [done|].
  intros (-> & q & Hq & Hl & Hc). split; [done|]. exists q.
  rewrite lookup_insert_ne by set_solver. split_and!; [done|done|]. apply IH; [set_solver|done].
Qed.

Lemma chain_zero m p l : Forall page_ok l → chain m p l → p = 0%Z ↔ l = [].
Proof.
  destruct l as [|v l]; simpl; [done|]. intros Hp [-> _]. split; [|done].
  apply Forall_cons_1 in Hp as [Hp _]. apply page_ok_range in Hp. lia.
Qed.

Lemma kalloc_spec k l : free_list k l →
  match l with
  | [] => kalloc k = Done 0%Z k
  | v :: l' => ∃ k', kalloc k = Done v k' ∧ free_list k' l' ∧ k_mem k' = k_mem k
  end.
Proof.
  intros [Hc Hp Hn]. unfold kalloc. pose proof (chain_zero _ _ _ Hp Hc) as Hz.
  destruct l as [|v l]; [rewrite decide_False; [by rewrite (proj2 Hz eq_refl)|naive_solver]|].
  rewrite decide_True by (intros He; by apply Hz in He). destruct Hc as (-> & pg & Hpg & Hl & Hc).
  eexists. split; [reflexivity|]. split; [|done]. rewrite Hpg. simpl.
  constructor; [done|by apply Forall_cons_1 in Hp as []|by apply NoDup_cons in Hn as []].
Qed.

Lemma kfree_spec k l v : free_list k l → page_ok v → v ∉ l →
  ∃ k', kfree v k = Done tt k' ∧ free_list k' (v :: l) ∧ ∀ a, a ≠ v → k_mem k' !! a = k_mem k !! a.
Proof.
  intros [Hc Hp Hn] Hv Hl. unfold kfree. pose proof (V2P_ok v Hv) as HV. pose proof Hv as (Hm & He & Hr).
  rewrite decide_False by (unfold KERNBASE in *; rewrite HV; lia).
  assert (Hj : length junk_page = PGn) by apply length_replicate. pose proof PGn_Z as HP. unfold PGSIZE in HP.
  eexists. split; [reflexivity|]. split; [|intros a Ha; simpl; by rewrite lookup_insert_ne].
  constructor; simpl; [|by constructor|by apply NoDup_cons].
  split; [done|]. eexists. split; [apply lookup_insert_eq|]. split.
  { unfold put32. rewrite splice_length; rewrite ?le_enc_length; lia. }
  rewrite get32_put32_eq by (lia || (destruct l; [rewrite Hc; unfold is_u32; lia|];
    destruct Hc as [-> _]; apply Forall_cons_1 in Hp as [Hp _]; apply page_ok_range in Hp; unfold is_u32; lia)).
  by apply chain_insert.
Qed.

(** ** Clients *)

(** What the rest of the kernel does with pages: it allocates them, writes to
    those it owns, and frees those it owns. *)
Inductive kstep : kmem * list Z → kmem * list Z → Prop :=
| kstep_alloc k k' o v : kalloc k = Done v k' → kstep (k, o) (k', if decide (v = 0%Z) then o else v :: o)
| kstep_write k o v pg : v ∈ o → length pg = PGn →
    kstep (k, o) (Kmem (k_use_lock k) (k_freelist k) (<[v := pg]> (k_mem k)), o)
| kstep_free k k' o v : v ∈ o → kfree v k = Done tt k' → kstep (k, o) (k', remove Z.eq_dec v o).

Definition client_inv (pages : list Z) (ko : kmem * list Z) : Prop :=
  ∃ l, free_list ko.1 l ∧ l ++ ko.2 ≡ₚ pages.

Lemma remove_perm v (o : list Z) : NoDup o → v ∈ o → o ≡ₚ v :: remove Z.eq_dec v o.
Proof.
  induction o as [|a o IH]; intros Hn Hv; [by apply elem_of_nil in Hv|]. apply NoDup_cons in Hn as [Ha Hn]. simpl.
  destruct (Z.eq_dec v a) as [->|Hne].
  - f_equiv. clear -Ha. induction o as [|b o IH]; simpl; [done|]. destruct (Z.eq_dec a b); set_solver.
  - rewrite Permutation_swap. f_equiv. apply IH; [done|set_solver].
Qed.

Lemma kstep_inv pages ko ko' : NoDup pages → Forall page_ok pages →
  client_inv pages ko → kstep ko ko' → client_inv pages ko'.
Proof.
  intros Hn Hok (l & Hl & Hp) Hstep. destruct Hstep as [k k' o v Hrun|k o v pg Hv Hpg|k k' o v Hv Hrun]; simpl in *.
  - pose proof (kalloc_spec k l Hl) as Hs. destruct l as [|a l].
    + rewrite Hs in Hrun. simplify_eq. exists []. by rewrite decide_True by done.
    + destruct Hs as (k2 & Hrun' & Hl' & _). rewrite Hrun' in Hrun. simplify_eq.
      pose proof (fl_pages _ _ Hl) as Hpg. apply Forall_cons_1 in Hpg as [Hpg _]. apply page_ok_range in Hpg.
      rewrite decide_False by lia. exists l. split; [done|]. simpl. rewrite <-Hp. simpl.
      by rewrite Permutation_middle.
  - exists l. split; [|done]. destruct Hl as [Hc Hf Hnd]. constructor; simpl; [|done|done].
    apply chain_insert; [|done]. rewrite <-Hp in Hn. apply NoDup_app in Hn as (_ & Hd & _). set_solver.
  - rewrite <-Hp in Hn, Hok. apply NoDup_app in Hn as (_ & Hd & Hno). rewrite Forall_app in Hok.
    destruct Hok as [_ Hok]. rewrite Forall_forall in Hok.
    destruct (kfree_spec k l v) as (k2 & Hrun' & Hl' & _); [done|by apply Hok|set_solver|].
    rewrite Hrun' in Hrun. simplify_eq. exists (v :: l). split; [done|]. simpl. rewrite <-Hp.
    rewrite (remove_perm v o) at 2 by done. by rewrite Permutation_middle.
Qed.

(** What every client of the allocator finds. *)
Definition client_safe (pages : list Z) (k : kmem) (o : list Z) : Prop :=
  ∃ l, free_list k l ∧ l ++ o ≡ₚ pages ∧ NoDup (l ++ o) ∧
    (kalloc k = Done 0%Z k ↔ o ≡ₚ pages) ∧
    (∀ v, v ∈ o → ∃ k', kfree v k = Done tt k' ∧ ∀ a, a ≠ v → k_mem k' !! a = k_mem k !! a) ∧
    (∀ v, (KERNBASE ≤ kend)%Z → is_u32 v → ¬ page_ok v → kfree v k = Panic "kfree").

Lemma client_spec pages k0 k o :
  free_list k0 pages → rtc kstep (k0, []) (k, o) → client_safe pages k o.
Proof.
  intros Hl0 Hrun. assert (Hinv : client_inv pages (k, o)).
  { assert (H0 : client_inv pages (k0, [])) by (exists pages; by rewrite app_nil_r).
    revert H0. induction Hrun as [|x y z Hxy _ IH]; [done|]. intros Hx.
    by apply IH, (kstep_inv pages x); [apply Hl0|apply Hl0| |]. }
  destruct Hinv as (l & Hl & Hp). simpl in *. exists l.
  assert (Hn : NoDup (l ++ o)) by (rewrite Hp; apply Hl0). split_and!; [done|done|done| | |].
  - pose proof (kalloc_spec k l Hl) as Hs. destruct l as [|v l]; [done|].
    destruct Hs as (k' & Hr & _). rewrite Hr. split.
    + intros [= -> ->]. pose proof (fl_pages _ _ Hl) as Hf. apply Forall_cons_1 in Hf as [Hf _].
      apply page_ok_range in Hf. lia.
    + intros Ho. rewrite <-Ho in Hp. apply Permutation_length in Hp. rewrite length_app in Hp. simpl in Hp. lia.
  - intros v Hv. apply NoDup_app in Hn as (_ & Hd & _).
    assert (Hpv : page_ok v).
    { pose proof (fl_pages _ _ Hl0) as Hf. rewrite Forall_forall in Hf. apply Hf. rewrite <-Hp. set_solver. }
    destruct (kfree_spec k l v) as (k' & Hr & _ & Hm); [done|done|set_solver|]. by exists k'.
  - intros v Hk Hu Hno. unfold kfree. rewrite decide_True; [done|].
    destruct (decide (v `mod` PGSIZE = 0)%Z); [|by left]. destruct (decide (kend ≤ v)%Z); [|right; left; lia].
    right; right. unfold V2P, is_u32, page_ok, KERNBASE in *. rewrite u32_small by (unfold is_u32; lia).
    destruct (decide (PHYSTOP ≤ v - 0x80000000)%Z); [done|]. exfalso. apply Hno. split_and!; [done|done|lia|lia].
Qed.

(** ** Initialization *)

Definition pages_from (p : Z) (n : nat) : list Z := (λ i, (p + PGSIZE * Z.of_nat i)%Z) <$> seq 0 n.

Lemma pages_from_S p n : pages_from p (S n) = p :: pages_from (p + PGSIZE) n.
Proof.
  unfold pages_from. simpl. f_equal; [lia|]. rewrite <-fmap_S_seq, <-list_fmap_compose.
  apply list_fmap_ext. intros i x _. simpl. lia.
Qed.

Lemma freerange_loop_spec fuel p vend n k l :
  free_list k l → n < fuel → (p `mod` PGSIZE = 0 ∧ kend ≤ p ∧ KERNBASE ≤ p)%Z →
  (vend ≤ KERNBASE + PHYSTOP)%Z → (p + PGSIZE * Z.of_nat n ≤ vend < p + PGSIZE * Z.of_nat n + PGSIZE)%Z →
  (∀ v, v ∈ l → ¬ (p ≤ v < vend)%Z) →
  wp (freerange_loop fuel p vend) (λ _ k', free_list k' (rev (pages_from p n) ++ l)) k.
Proof.
  revert fuel p k l. induction n as [|n IH]; intros fuel p k l Hl Hf Hp He Hn Hd;
    (destruct fuel as [|fuel]; [lia|]); cbn [freerange_loop].
  - rewrite u32_small by (unfold is_u32, KERNBASE, PHYSTOP, PGSIZE in *; lia).
    rewrite decide_False by (unfold PGSIZE in *; lia). by apply wp_ret.
  - rewrite u32_small by (unfold is_u32, KERNBASE, PHYSTOP, PGSIZE in *; lia).
    rewrite decide_True by (unfold PGSIZE in *; lia).
    assert (Hpo : page_ok p) by (split_and!; unfold KERNBASE, PHYSTOP, PGSIZE in *; lia).
    destruct (kfree_spec k l p) as (k1 & Hr & Hl1 & _);
      [done|done|intros Hin; apply (Hd _ Hin); unfold PGSIZE in *; lia|].
    eapply wp_bind, wp_done; [exact Hr|]. rewrite pages_from_S. simpl. rewrite <-app_assoc. simpl.
    apply IH; [done|lia| |done|unfold PGSIZE in *; lia|].
    + unfold PGSIZE in *. split_and!; [|lia|lia]. rewrite Z.add_mod by lia. destruct Hp as [-> _]. done.
    + intros v [->|Hv]%elem_of_cons; [unfold PGSIZE; lia|]. specialize (Hd v Hv). unfold PGSIZE in *. lia.
Qed.

End kalloc_code.

Lemma PGROUNDDOWN_div a : (0 ≤ a)%Z → PGROUNDDOWN a = (PGSIZE * (a / PGSIZE))%Z.
Proof.
  intros Ha. unfold PGROUNDDOWN, PGSIZE. change (4096 - 1)%Z with (Z.ones 12).
  rewrite <-Z.ldiff_land, Z.ldiff_ones_r by lia. rewrite Z.shiftl_mul_pow2, Z.shiftr_div_pow2 by lia.
  change (2 ^ 12)%Z with 4096%Z. lia.
Qed.

Lemma PGROUNDUP_spec a : (0 ≤ a ≤ 2 ^ 32 - PGSIZE)%Z →
  PGROUNDUP a = (PGSIZE * ((a + PGSIZE - 1) / PGSIZE))%Z.
Proof.
  intros Ha. unfold PGROUNDUP. rewrite u32_small by (unfold is_u32, PGSIZE in *; lia).
  apply PGROUNDDOWN_div. unfold PGSIZE in *. lia.
Qed.

Lemma PGROUNDUP_bounds a : (0 ≤ a ≤ 2 ^ 32 - PGSIZE)%Z →
  (PGROUNDUP a `mod` PGSIZE = 0 ∧ a ≤ PGROUNDUP a < a + PGSIZE)%Z.
Proof.
  intros Ha. rewrite PGROUNDUP_spec by done. unfold PGSIZE in *. split.
  - rewrite Z.mul_comm. apply Z_mod_mult.
  - pose proof (Z.div_mod (a + 4096 - 1) 4096 ltac:(lia)). pose proof (Z.mod_pos_bound (a + 4096 - 1) 4096). lia.
Qed.

Lemma elem_of_pages_from p n v : (p `mod` PGSIZE = 0)%Z →
  v ∈ pages_from p n ↔ (v `mod` PGSIZE = 0 ∧ p ≤ v < p + PGSIZE * Z.of_nat n)%Z.
Proof.
  unfold PGSIZE. intros Hp. unfold pages_from. rewrite list_elem_of_fmap. split.
  - intros (i & -> & Hi%elem_of_seq). unfold PGSIZE. split; [|lia].
    rewrite Z.mul_comm, Z_mod_plus_full. done.
  - intros [Hv Hr]. exists (Z.to_nat ((v - p) / 4096)). unfold PGSIZE.
    assert (Hq : (v - p = 4096 * ((v - p) / 4096))%Z).
    { apply Z_div_exact_full_2; [lia|]. rewrite Zminus_mod, Hv, Hp. done. }
    rewrite elem_of_seq. lia.
Qed.

(** [freerange] frees the whole pages of the range, in descending order of
    address. *)
Lemma freerange_spec kend vstart vend k l :
  free_list kend k l → (kend ≤ vstart ∧ KERNBASE ≤ vstart ≤ vend)%Z → (vend ≤ KERNBASE + PHYSTOP)%Z →
  (∀ v, v ∈ l → ¬ (vstart ≤ v < vend)%Z) →
  wp (freerange kend vstart vend) (λ _ k',
    let n := Z.to_nat ((vend - PGROUNDUP vstart) / PGSIZE) in
    free_list kend k' (rev (pages_from (PGROUNDUP vstart) n) ++ l) ∧
    ∀ v, v ∈ pages_from (PGROUNDUP vstart) n ↔
      (v `mod` PGSIZE = 0 ∧ vstart ≤ v ∧ v + PGSIZE ≤ vend)%Z) k.
Proof.
  intros Hl [Hk Hs] He Hd. destruct (PGROUNDUP_bounds vstart) as [Hm Hb];
    [unfold KERNBASE, PHYSTOP, PGSIZE in *; lia|].
  set (p := PGROUNDUP vstart) in *. set (n := Z.to_nat ((vend - p) / PGSIZE)).
  assert (Hmem : ∀ v, v ∈ pages_from p n ↔ (v `mod` PGSIZE = 0 ∧ vstart ≤ v ∧ v + PGSIZE ≤ vend)%Z).
  { intros v. rewrite elem_of_pages_from by done. unfold n, PGSIZE in *. clearbody p. split.
    - intros (? & ? & ?). split_and!; [done|lia|]. Z.to_euclidean_division_equations. lia.
    - intros (? & ? & ?). split_and!; [done|Z.to_euclidean_division_equations; lia|].
      rewrite Z2Nat.id by (apply Z.div_pos; [|lia]; Z.to_euclidean_division_equations; lia).
      Z.to_euclidean_division_equations. lia. }
  unfold freerange. fold p. pose proof freerange_fuel_Z as HF. destruct (decide (vend < p)%Z) as [Hlt|Hge].
  - assert (Hn0 : n = 0).
    { unfold n. assert ((vend - p) / PGSIZE < 0)%Z by (apply Z.div_lt_upper_bound; unfold PGSIZE; lia). lia. }
    rewrite Hn0 in *. destruct freerange_fuel as [|fuel]; [lia|]. cbn [freerange_loop].
    rewrite decide_False; [by apply wp_ret|].
    rewrite u32_small; unfold is_u32, KERNBASE, PHYSTOP, PGSIZE in *; lia.
  - eapply wp_mono; [apply (freerange_loop_spec kend freerange_fuel p vend n k l); [exact Hl| | |exact He| |]|].
    + unfold n, KERNBASE, PHYSTOP, PGSIZE in *.
      assert ((vend - p) / 4096 < 2 ^ 20)%Z by (apply Z.div_lt_upper_bound; lia).
      lia.
    + split_and!; [done|lia|lia].
    + unfold n, PGSIZE in *. rewrite Z2Nat.id by (apply Z.div_pos; lia).
      pose proof (Z.div_mod (vend - p) 4096 ltac:(lia)). pose proof (Z.mod_pos_bound (vend - p) 4096). lia.
    + intros v Hv. specialize (Hd v Hv). lia.
    + intros u k' Hk'. split; [exact Hk'|exact Hmem].
Qed.

(** C17. The page allocator. [freerange], and so [kinit1] and [kinit2],
    terminates and adds to the free list exactly the whole pages in the given
    range of memory. Then, for every sequence of allocations, frees of
    allocated pages and writes to allocated pages: no page is lost or handed
    out twice (free and allocated pages together are always the initial ones),
    [kalloc] fails only when every page is allocated, [kfree] of an allocated
    page never panics and changes no other page, and [kfree] of any address
    that is not a page of the allocator panics. *)
Theorem kalloc_safety kend vstart vend k l :
  free_list kend k l → (kend ≤ vstart ∧ KERNBASE ≤ vstart ≤ vend)%Z → (vend ≤ KERNBASE + PHYSTOP)%Z →
  (∀ v, v ∈ l → ¬ (vstart ≤ v < vend)%Z) →
  ∃ k0 new, freerange kend vstart vend k = Done tt k0 ∧ free_list kend k0 (new ++ l) ∧
    (∀ v, v ∈ new ↔ (v `mod` PGSIZE = 0 ∧ vstart ≤ v ∧ v + PGSIZE ≤ vend)%Z) ∧
    ∀ k' o, rtc (kstep kend) (k0, []) (k', o) → client_safe kend (new ++ l) k' o.
Proof.
  intros Hl Hs He Hd. pose proof (freerange_spec kend vstart vend k l Hl Hs He Hd) as Hwp.
  apply wp_inv in Hwp as ([] & k0 & Hrun & Hf & Hin). eexists k0, _. split_and!; [exact Hrun|exact Hf| |].
  - intros v. rewrite <-Hin, !list_elem_of_In. symmetry. apply in_rev.
  - intros k' o Hst. by eapply client_spec.
Qed.

(** ** Witnesses *)

Definition demo_kend : Z := 0x80115000.
Definition demo_boot : kmem := Kmem 0 0 ∅.
Lemma demo_boot_free : free_list demo_kend demo_boot [].
Proof. constructor; [done|constructor|constructor]. Qed.

(** A range with one whole page, which is allocated and freed. *)
Lemma kalloc_safety_witness : ∃ k0 k,
  freerange demo_kend 0x80115234 0x80117100 demo_boot = Done tt k0 ∧
  rtc (kstep demo_kend) (k0, []) (k, [0x80116000%Z]) ∧ kalloc k = Done 0%Z k ∧ ∃ k', kfree demo_kend 0x80116000 k = Done tt k'.
Proof.
  destruct (kalloc_safety demo_kend 0x80115234 0x80117100 demo_boot [] demo_boot_free
    ltac:(unfold demo_kend, KERNBASE; lia) ltac:(unfold KERNBASE, PHYSTOP; lia)
    ltac:(intros v Hv; by apply elem_of_nil in Hv)) as (k0 & new & Hrun & Hf & Hin & Hsafe).
  rewrite app_nil_r in *. assert (Hnew : new ≡ₚ [0x80116000%Z]).
  { apply NoDup_Permutation; [apply Hf|apply NoDup_singleton|]. intros v. rewrite Hin, list_elem_of_singleton. unfold PGSIZE. split.
    - intros (Hm & H1 & H2). Z.to_euclidean_division_equations. lia.
    - intros ->. done. }
  assert (Hne : new = [0x80116000%Z]) by by apply Permutation_singleton_r in Hnew.
  subst new. pose proof (kalloc_spec demo_kend k0 _ Hf) as (k & Hka & Hfk & _).
  assert (Hst : rtc (kstep demo_kend) (k0, []) (k, [0x80116000%Z])) by (apply rtc_once; by apply (kstep_alloc demo_kend k0 k [] 0x80116000)).
  exists k0, k. split; [exact Hrun|]. split; [exact Hst|]. destruct (Hsafe k _ Hst) as (l & _ & _ & _ & Hk & Hfr & _).
  split; [by apply Hk|]. destruct (Hfr 0x80116000%Z) as (k' & Hk' & _); [by left|]. by exists k'.
Defined.
