(* ===== verification/Vm.v ===== *)
(** * Page tables and user memory (vm.c, mmu.h, memlayout.h)

    Page directories and page tables are pages of the memory of Kalloc.v, read
    and written word by word; a pointer to an entry is its kernel address. *)

From S2P Require Import Prelude Params Spinlock Kalloc.

Definition PDX (va : Z) : Z := Z.land (Z.shiftr va 22) 0x3FF.
Definition PTX (va : Z) : Z := Z.land (Z.shiftr va 12) 0x3FF.
Definition PGADDR (d t o : Z) : Z := u32 (Z.lor (Z.lor (Z.shiftl d 22) (Z.shiftl t 12)) o).
Definition NPDENTRIES : Z := 1024.
Definition PTE_P : Z := 0x001.
Definition PTE_W : Z := 0x002.
Definition PTE_U : Z := 0x004.
Definition PTE_ADDR (pte : Z) : Z := Z.land pte (Z.lnot 0xFFF).
Definition PTE_FLAGS (pte : Z) : Z := Z.land pte 0xFFF.
Definition EXTMEM : Z := 0x100000.
Definition KERNLINK : Z := KERNBASE + EXTMEM.
Definition DEVSPACE : Z := 0xFE000000.

(** ** Memory accesses of the kernel *)

Definition zero_page : page := replicate PGn 0%Z.

(** The page of a kernel address and the offset in it. An access outside of
    memory traps. *)
Definition get_page (a : Z) (k : kmem) : option page := k_mem k !! PGROUNDDOWN a.
Definition page_off (a : Z) : nat := Z.to_nat (a `mod` PGSIZE).
Definition set_page (a : Z) (pg : page) (k : kmem) : kmem :=
  Kmem (k_use_lock k) (k_freelist k) (<[PGROUNDDOWN a := pg]> (k_mem k)).

Definition rd32 (a : Z) : M kmem Z := λ k,
  match get_page a k with Some pg => Done (get32 (page_off a) pg) k | None => Panic "trap" end.
Definition wr32 (a v : Z) : M kmem unit := λ k,
  match get_page a k with
  | Some pg => Done tt (set_page a (put32 (page_off a) v pg) k)
  | None => Panic "trap"
  end.
(** A copy of [n] bytes inside a page, and one into a page. *)
Definition rd_bytes (a : Z) (n : nat) : M kmem (list Z) := λ k,
  match get_page a k with Some pg => Done (bytes_at (page_off a) n pg) k | None => Panic "trap" end.
Definition wr_bytes (a : Z) (bs : list Z) : M kmem unit := λ k,
  match get_page a k with
  | Some pg => Done tt (set_page a (splice (page_off a) bs pg) k)
  | None => Panic "trap"
  end.

(** ** Page tables *)

Definition present (e : Z) : bool := negb (Z.land e PTE_P =? 0)%Z.

(** The address of the PTE for [va], or 0. *)
Definition walkpgdir (pgdir va : Z) (alloc : bool) : M kmem Z :=
  let pde := u32 (pgdir + 4 * PDX va) in
  e ← rd32 pde;
  if present e then mret (u32 (P2V (PTE_ADDR e) + 4 * PTX va))
  else if negb alloc then mret 0%Z
  else
    pgtab ← kalloc;
    if decide (pgtab = 0%Z) then mret 0%Z else
    wr_bytes pgtab zero_page;;
    wr32 pde (Z.lor (Z.lor (Z.lor (V2P pgtab) PTE_P) PTE_W) PTE_U);;
    mret (u32 (pgtab + 4 * PTX va)).

Fixpoint mappages_loop (fuel : nat) (pgdir a last pa perm : Z) : M kmem Z :=
  match fuel with
  | O => λ _, Diverge
  | S fuel =>
    pte ← walkpgdir pgdir a true;
    if decide (pte = 0%Z) then mret (-1)%Z else
    e ← rd32 pte;
    assert_or_panic (negb (present e)) "remap";;
    wr32 pte (Z.lor (Z.lor pa perm) PTE_P);;
    if decide (a = last) then mret 0%Z
    else mappages_loop fuel pgdir (u32 (a + PGSIZE)) last (u32 (pa + PGSIZE)) perm
  end.

(** Create PTEs for virtual addresses starting at va that refer to physical
    addresses starting at pa. *)
Definition mappages (pgdir va size pa perm : Z) : M kmem Z :=
  let a := PGROUNDDOWN va in
  let last := PGROUNDDOWN (u32 (va + size - 1)) in
  mappages_loop (S (Z.to_nat (u32 (last - a) / PGSIZE))) pgdir a last pa perm.

Section vm_code.
Variable kend : Z.             (* first address after the kernel *)
Variable kdata : Z.            (* start of the kernel's data, from kernel.ld *)

(** The rounds of [deallocuvm]'s loop. *)
Fixpoint deallocuvm_loop (fuel : nat) (pgdir a oldsz : Z) : M kmem unit :=
  match fuel with
  | O => λ _, Diverge
  | S fuel =>
    if decide (a < oldsz)%Z then
      pte ← walkpgdir pgdir a false;
      if decide (pte = 0%Z) then
        let a := u32 (PGADDR (PDX a + 1) 0 0 - PGSIZE) in
        deallocuvm_loop fuel pgdir (u32 (a + PGSIZE)) oldsz
      else
        e ← rd32 pte;
        (if present e then
          let pa := PTE_ADDR e in
          assert_or_panic (negb (pa =? 0)%Z) "kfree";;
          kfree kend (P2V pa);;
          wr32 pte 0
        else mret tt);;
        deallocuvm_loop fuel pgdir (u32 (a + PGSIZE)) oldsz
    else mret tt
  end.

(** Deallocate user pages to bring the process size from oldsz to newsz. *)
Definition deallocuvm (pgdir oldsz newsz : Z) : M kmem Z :=
  if decide (oldsz ≤ newsz)%Z then mret oldsz else
  deallocuvm_loop (Z.to_nat (oldsz / PGSIZE) + 2) pgdir (PGROUNDUP newsz) oldsz;;
  mret newsz.

Fixpoint allocuvm_loop (fuel : nat) (pgdir a oldsz newsz : Z) : M kmem Z :=
  match fuel with
  | O => λ _, Diverge
  | S fuel =>
    if decide (a < newsz)%Z then
      mem ← kalloc;
      if decide (mem = 0%Z) then deallocuvm pgdir newsz oldsz;; mret 0%Z else
      wr_bytes mem zero_page;;
      r ← mappages pgdir a PGSIZE (V2P mem) (Z.lor PTE_W PTE_U);
      if decide (r < 0)%Z then
        deallocuvm pgdir newsz oldsz;;
        kfree kend mem;;
        mret 0%Z
      else allocuvm_loop fuel pgdir (u32 (a + PGSIZE)) oldsz newsz
    else mret newsz
  end.

(** Allocate page tables and physical memory to grow a process from oldsz to
    newsz. Returns the new size or 0 on error. *)
Definition allocuvm (pgdir oldsz newsz : Z) : M kmem Z :=
  if decide (KERNBASE ≤ newsz)%Z then mret 0%Z else
  if decide (newsz < oldsz)%Z then mret oldsz else
  allocuvm_loop (Z.to_nat (newsz / PGSIZE) + 2) pgdir (PGROUNDUP oldsz) oldsz newsz.

(** Free a page table and all the physical memory pages in the user part. *)
Definition freevm (pgdir : Z) : M kmem unit :=
  assert_or_panic (negb (pgdir =? 0)%Z) "freevm: no pgdir";;
  deallocuvm pgdir KERNBASE 0;;
  mfor (seqZ 0 NPDENTRIES) (λ i,
    e ← rd32 (u32 (pgdir + 4 * i));
    if present e then kfree kend (P2V (PTE_ADDR e)) else mret tt);;
  kfree kend pgdir.

(** The kernel's mappings, in every page table: virt, phys_start, phys_end, perm. *)
Definition kmap : list (Z * Z * Z * Z) :=
  [(KERNBASE, 0, EXTMEM, PTE_W);                          (* I/O space *)
   (KERNLINK, V2P KERNLINK, V2P kdata, 0);                (* kern text+rodata *)
   (kdata, V2P kdata, PHYSTOP, PTE_W);                    (* kern data+memory *)
   (DEVSPACE, DEVSPACE, 0, PTE_W)]%Z.                     (* more devices *)

Fixpoint map_all (pgdir : Z) (l : list (Z * Z * Z * Z)) : M kmem Z :=
  match l with
  | [] => mret pgdir
  | (virt, pstart, pend, perm) :: l =>
    r ← mappages pgdir virt (u32 (pend - pstart)) pstart perm;
    if decide (r < 0)%Z then freevm pgdir;; mret 0%Z else map_all pgdir l
  end.

(** Set up the kernel part of a page table. *)
Definition setupkvm : M kmem Z :=
  pgdir ← kalloc;
  if decide (pgdir = 0%Z) then mret 0%Z else
  wr_bytes pgdir zero_page;;
  assert_or_panic (P2V PHYSTOP <=? DEVSPACE)%Z "PHYSTOP too high";;
  map_all pgdir kmap.

(** Load the initcode into address 0 of pgdir. [kalloc] is not checked. *)
Definition inituvm (pgdir : Z) (init : list Z) (sz : Z) : M kmem unit :=
  assert_or_panic (sz <? PGSIZE)%Z "inituvm: more than a page";;
  mem ← kalloc;
  wr_bytes mem zero_page;;
  _ ← mappages pgdir 0 PGSIZE (V2P mem) (Z.lor PTE_W PTE_U);
  wr_bytes mem (take (Z.to_nat sz) init).

(** The loop of [loaduvm]; [rd off n] is [readi] of the file, on its own state. *)
Fixpoint loaduvm_loop {F} (rd : Z → Z → M F (Z * list Z)) (fuel : nat) (pgdir addr offset sz i : Z) :
    M (F * kmem) Z :=
  match fuel with
  | O => λ _, Diverge
  | S fuel =>
    if decide (i < sz)%Z then
      pte ← zoom snd (λ k s, (s.1, k)) (walkpgdir pgdir (u32 (addr + i)) false);
      assert_or_panic (negb (pte =? 0)%Z) "loaduvm: address should exist";;
      e ← zoom snd (λ k s, (s.1, k)) (rd32 pte);
      let pa := PTE_ADDR e in
      let n := if decide (sz - i < PGSIZE)%Z then (sz - i)%Z else PGSIZE in
      r ← zoom fst (λ f s, (f, s.2)) (rd (u32 (offset + i)) n);
      zoom snd (λ k s, (s.1, k)) (wr_bytes (P2V pa) r.2);;
      if decide (r.1 ≠ n) then mret (-1)%Z
      else loaduvm_loop rd fuel pgdir addr offset sz (u32 (i + PGSIZE))
    else mret 0%Z
  end.

Definition loaduvm {F} (rd : Z → Z → M F (Z * list Z)) (pgdir addr offset sz : Z) : M (F * kmem) Z :=
  assert_or_panic (addr `mod` PGSIZE =? 0)%Z "loaduvm: addr must be page aligned";;
  loaduvm_loop rd (Z.to_nat (sz / PGSIZE) + 2) pgdir addr offset sz 0.

(** Clear PTE_U on a page. *)
Definition clearpteu (pgdir uva : Z) : M kmem unit :=
  pte ← walkpgdir pgdir uva false;
  assert_or_panic (negb (pte =? 0)%Z) "clearpteu";;
  e ← rd32 pte;
  wr32 pte (Z.land e (Z.lnot PTE_U)).

Fixpoint copyuvm_loop (fuel : nat) (pgdir d i sz : Z) : M kmem Z :=
  match fuel with
  | O => λ _, Diverge
  | S fuel =>
    if decide (i < sz)%Z then
      pte ← walkpgdir pgdir i false;
      assert_or_panic (negb (pte =? 0)%Z) "copyuvm: pte should exist";;
      e ← rd32 pte;
      assert_or_panic (present e) "copyuvm: page not present";;
      mem ← kalloc;
      if decide (mem = 0%Z) then freevm d;; mret 0%Z else
      bs ← rd_bytes (P2V (PTE_ADDR e)) PGn;
      wr_bytes mem bs;;
      r ← mappages d i PGSIZE (V2P mem) (PTE_FLAGS e);
      if decide (r < 0)%Z then freevm d;; mret 0%Z
      else copyuvm_loop fuel pgdir d (u32 (i + PGSIZE)) sz
    else mret d
  end.

(** Given a parent process's page table, create a copy of it for a child. *)
Definition copyuvm (pgdir sz : Z) : M kmem Z :=
  d ← setupkvm;
  if decide (d = 0%Z) then mret 0%Z else
  copyuvm_loop (Z.to_nat (sz / PGSIZE) + 2) pgdir d 0 sz.

End vm_code.

(** Map user virtual address to kernel address. The result of [walkpgdir] is
    not checked: [null] is the word at address 0 of the current address space. *)
Definition uva2ka (null pgdir uva : Z) : M kmem Z :=
  pte ← walkpgdir pgdir uva false;
  e ← (if decide (pte = 0%Z) then mret null else rd32 pte);
  if decide (Z.land e PTE_P = 0%Z) then mret 0%Z else
  if decide (Z.land e PTE_U = 0%Z) then mret 0%Z else
  mret (P2V (PTE_ADDR e)).

Fixpoint copyout_loop (fuel : nat) (null pgdir va : Z) (buf : list Z) (len : Z) : M kmem Z :=
  match fuel with
  | O => λ _, Diverge
  | S fuel =>
    if decide (0 < len)%Z then
      let va0 := PGROUNDDOWN va in
      pa0 ← uva2ka null pgdir va0;
      if decide (pa0 = 0%Z) then mret (-1)%Z else
      let n := (PGSIZE - (va - va0))%Z in
      let n := if decide (len < n)%Z then len else n in
      wr_bytes (u32 (pa0 + (va - va0))) (take (Z.to_nat n) buf);;
      copyout_loop fuel null pgdir (u32 (va0 + PGSIZE)) (drop (Z.to_nat n) buf) (len - n)
    else mret 0%Z
  end.

(** Copy len bytes from p to user address va in page table pgdir. *)
Definition copyout (null pgdir va : Z) (p : list Z) (len : Z) : M kmem Z :=
  copyout_loop (Z.to_nat (len / PGSIZE) + 3) null pgdir va p len.
