(* ===== verification/VmProof.v ===== *)
(** * Address spaces

    What a page directory and its page tables mean (vm.c): a map from page
    numbers to entries. [walkpgdir] and [mappages] read and extend it,
    [allocuvm] and [deallocuvm] keep the frames of the user part, which are
    owned by the address space, apart from the free ones. *)

From S2P Require Import Prelude Params Spinlock Kalloc Vm.

Local Open Scope Z_scope.

(** Linear arithmetic with divisions by constants. *)
Ltac divlia := Z.to_euclidean_division_equations; lia.

(** ** Indices and entries *)

Definition NPAGES : Z := 2 ^ 20.

Lemma PDX_div va : is_u32 va → PDX va = va / PGSIZE / 1024.
Proof.
  intros Hv. unfold PDX, is_u32, PGSIZE in *. change 0x3FF with (Z.ones 10). rewrite Z.land_ones, Z.shiftr_div_pow2 by lia.
  change (2 ^ 22) with (4096 * 1024). rewrite <-Z.div_div by lia. apply Z.mod_small. divlia.
Qed.

Lemma PTX_mod va : is_u32 va → PTX va = (va / PGSIZE) `mod` 1024.
Proof.
  intros Hv. unfold PTX. change 0x3FF with (Z.ones 10). rewrite Z.land_ones, Z.shiftr_div_pow2 by lia. done.
Qed.

Lemma round_add p o : p `mod` PGSIZE = 0 → 0 ≤ p → 0 ≤ o < PGSIZE → PGROUNDDOWN (p + o) = p ∧ page_off (p + o) = Z.to_nat o.
Proof.
  unfold page_off, PGSIZE. intros Hp H0 Ho. rewrite PGROUNDDOWN_div by lia. unfold PGSIZE.
  assert (Hd : (p + o) / 4096 = p / 4096).
  { rewrite (Z.div_mod p 4096) at 1 by lia. rewrite Hp. replace (4096 * (p / 4096) + 0 + o) with (o + (p / 4096) * 4096) by lia.
    rewrite Z.div_add by lia. rewrite (Z.div_small o) by lia. lia. }
  rewrite Hd. pose proof (Z.div_mod p 4096 ltac:(lia)). pose proof (Z.div_mod (p + o) 4096 ltac:(lia)). split; [lia|]. f_equal. lia.
Qed.

Section spaces.
Variable kend : Z.

Lemma entry_bits p fl : page_ok kend p → 0 ≤ fl < PGSIZE →
  PTE_ADDR (Z.lor (V2P p) fl) = V2P p ∧ PTE_FLAGS (Z.lor (V2P p) fl) = fl ∧ is_u32 (Z.lor (V2P p) fl) ∧ P2V (V2P p) = p.
Proof.
  intros Hp Hf. rewrite (V2P_ok kend p Hp). destruct Hp as (Hm & _ & Hr). set (a := p - KERNBASE).
  assert (Ha : a `mod` PGSIZE = 0) by (unfold a, KERNBASE, PGSIZE in *; rewrite Zminus_mod, Hm; done).
  assert (Har : 0 ≤ a < PHYSTOP) by (unfold a; lia).
  assert (Hlor : Z.lor a fl = a + fl).
  { rewrite <-Z.add_lor_land. cut (Z.land a fl = 0); [lia|]. apply Z.bits_inj'. intros i Hi. rewrite Z.land_spec, Z.bits_0.
    destruct (Z.lt_ge_cases i 12) as [Hlt|Hge].
    - apply andb_false_intro1. rewrite Z.testbit_eqb by lia. apply Z.eqb_neq. unfold PGSIZE in Ha.
      assert (Hq : a = a / 4096 * 2 ^ (12 - i) * 2 ^ i).
      { rewrite <-Z.mul_assoc, <-Z.pow_add_r by lia. replace (12 - i + i) with 12 by lia. change (2 ^ 12) with 4096. divlia. }
      rewrite Hq, Z.div_mul by lia. replace (12 - i) with (Z.succ (11 - i)) by lia. rewrite Z.pow_succ_r by lia.
      rewrite (Z.mul_comm 2), Z.mul_assoc, Z.mod_mul by lia. lia.
    - apply andb_false_intro2. destruct (Z.eq_dec fl 0) as [->|Hz]; [apply Z.bits_0|].
      apply Z.bits_above_log2; [lia|]. apply Z.log2_lt_pow2; [lia|]. unfold PGSIZE in Hf.
      apply Z.lt_le_trans with (2 ^ 12); [lia|]. apply Z.pow_le_mono_r; lia. }
  unfold PTE_ADDR, PTE_FLAGS. rewrite Hlor. split_and!.
  - change (Z.lnot 0xFFF) with (Z.lnot (PGSIZE - 1)). apply (round_add a fl); lia.
  - change 0xFFF with (Z.ones 12). rewrite Z.land_ones by lia. change (2 ^ 12) with PGSIZE. unfold PGSIZE in *.
    divlia.
  - unfold is_u32, PHYSTOP, PGSIZE in *. lia.
  - unfold P2V, a. rewrite u32_small; [lia|]. unfold is_u32, KERNBASE, PHYSTOP in *. lia.
Qed.

Lemma present_bit e : present e = Z.testbit e 0.
Proof.
  unfold present, PTE_P. change 1 with (Z.ones 1). rewrite Z.land_ones by lia. change (2 ^ 1) with 2. rewrite Zmod_odd, Z.bit0_odd. by destruct (Z.odd e).
Qed.

Lemma present_lor a fl : present (Z.lor (Z.lor a fl) PTE_P) = true.
Proof. rewrite present_bit, Z.lor_spec. apply orb_true_r. Qed.

(** ** Memory words *)

(** The word at index [i] of a page. *)
Definition word (k : kmem) (p i : Z) : Z := get32 (Z.to_nat (4 * i)) (default ([] : page) (k_mem k !! p)).
Definition has_page (k : kmem) (p : Z) : Prop := ∃ pg : page, k_mem k !! p = Some pg ∧ length pg = PGn.

Lemma word_addr p i : page_ok kend p → 0 ≤ i < 1024 →
  u32 (p + 4 * i) = p + 4 * i ∧ PGROUNDDOWN (p + 4 * i) = p ∧ page_off (p + 4 * i) = Z.to_nat (4 * i).
Proof.
  intros Hp Hi. pose proof (page_ok_range kend p Hp). split; [apply u32_small; unfold is_u32, PGSIZE in *; lia|].
  apply round_add; [apply Hp|lia|unfold PGSIZE; lia].
Qed.

Lemma rd32_word k p i : page_ok kend p → 0 ≤ i < 1024 → has_page k p → rd32 (p + 4 * i) k = Done (word k p i) k.
Proof.
  intros Hp Hi (pg & Hpg & _). destruct (word_addr p i Hp Hi) as (_ & Hr & Ho). unfold rd32, get_page, word. rewrite Hr, Ho, Hpg. done.
Qed.

Definition set_word (p i v : Z) (k : kmem) : kmem :=
  Kmem (k_use_lock k) (k_freelist k) (<[p := put32 (Z.to_nat (4 * i)) v (default ([] : page) (k_mem k !! p))]> (k_mem k)).

Lemma wr32_word k p i v : page_ok kend p → 0 ≤ i < 1024 → has_page k p → wr32 (p + 4 * i) v k = Done tt (set_word p i v k).
Proof.
  intros Hp Hi (pg & Hpg & _). destruct (word_addr p i Hp Hi) as (_ & Hr & Ho). unfold wr32, get_page, set_page, set_word. by rewrite Hr, Ho, Hpg.
Qed.

Lemma word_set_eq k p i v : 0 ≤ i < 1024 → has_page k p → is_u32 v → word (set_word p i v k) p i = v.
Proof.
  intros Hi (pg & Hpg & Hl) Hv. unfold word, set_word. simpl. rewrite lookup_insert_eq, Hpg. simpl. apply get32_put32_eq; [|done].
  pose proof PGn_Z. unfold PGSIZE in *. lia.
Qed.

Lemma word_set_ne k p i v q j : 0 ≤ i < 1024 → 0 ≤ j < 1024 → has_page k p → (q, j) ≠ (p, i) → word (set_word p i v k) q j = word k q j.
Proof.
  intros Hi Hj (pg & Hpg & Hl) Hne. unfold word, set_word. simpl. destruct (decide (q = p)) as [->|Hq]; [|by rewrite lookup_insert_ne].
  rewrite lookup_insert_eq, Hpg. simpl. apply get32_put32_ne; pose proof PGn_Z; unfold PGSIZE in *; [lia|].
  assert (j ≠ i) by congruence. lia.
Qed.

Lemma set_word_page k p i v q : 0 ≤ i < 1024 → has_page k p → has_page k q → has_page (set_word p i v k) q.
Proof.
  intros Hi (pg & Hpg & Hl) (qg & Hqg & Hlq). unfold has_page, set_word. simpl. destruct (decide (q = p)) as [->|Hq].
  - rewrite lookup_insert_eq, Hpg. eexists. split; [done|]. simpl. rewrite put32_length; [done|]. pose proof PGn_Z. unfold PGSIZE in *. lia.
  - rewrite lookup_insert_ne by done. by exists qg.
Qed.

Lemma set_word_other k p i v q : q ≠ p → k_mem (set_word p i v k) !! q = k_mem k !! q.
Proof. intros Hq. simpl. by rewrite lookup_insert_ne. Qed.

Lemma set_word_free k p i v l : p ∉ l → free_list kend k l → free_list kend (set_word p i v k) l.
Proof. intros Hp [H1 H2 H3]. constructor; [|done..]. simpl. by apply chain_insert. Qed.

(** ** Page tables *)

(** The page directory [pgdir] with the page tables [tabs], by their index. *)
Record pt_ok (k : kmem) (free : list Z) (pgdir : Z) (tabs : gmap Z Z) : Prop := {
  po_free : free_list kend k free;
  po_dir : page_ok kend pgdir ∧ (pgdir ∉ free) ∧ has_page k pgdir;
  po_tab : ∀ i t, tabs !! i = Some t → (0 ≤ i < 1024) ∧ page_ok kend t ∧ t ≠ pgdir ∧ (t ∉ free) ∧ has_page k t;
  po_inj : ∀ i j t, tabs !! i = Some t → tabs !! j = Some t → i = j;
  po_pde : ∀ i, (0 ≤ i < 1024) → match tabs !! i with
    | Some t => word k pgdir i = Z.lor (Z.lor (Z.lor (V2P t) PTE_P) PTE_W) PTE_U
    | None => present (word k pgdir i) = false
    end
}.

(** The entry of the page number [n]. *)
Definition pte (k : kmem) (tabs : gmap Z Z) (n : Z) : Z :=
  match tabs !! (n / 1024) with Some t => word k t (n `mod` 1024) | None => 0 end.

Lemma page_index n : 0 ≤ n < NPAGES → (0 ≤ n / 1024 < 1024) ∧ (0 ≤ n `mod` 1024 < 1024).
Proof. unfold NPAGES. change (2 ^ 20) with 1048576. intros Hn. split; divlia. Qed.

Lemma index_inj n m : 0 ≤ n → 0 ≤ m → n / 1024 = m / 1024 → n `mod` 1024 = m `mod` 1024 → n = m.
Proof. intros. divlia. Qed.

Lemma va_page va : is_u32 va → 0 ≤ va / PGSIZE < NPAGES.
Proof. unfold is_u32, NPAGES, PGSIZE. change (2 ^ 32) with 4294967296. change (2 ^ 20) with 1048576. intros. divlia. Qed.

Lemma pde_entry t : page_ok kend t →
  present (Z.lor (Z.lor (Z.lor (V2P t) PTE_P) PTE_W) PTE_U) = true ∧
  P2V (PTE_ADDR (Z.lor (Z.lor (Z.lor (V2P t) PTE_P) PTE_W) PTE_U)) = t ∧
  is_u32 (Z.lor (Z.lor (Z.lor (V2P t) PTE_P) PTE_W) PTE_U).
Proof.
  intros Ht. rewrite <-!Z.lor_assoc. change (Z.lor PTE_P (Z.lor PTE_W PTE_U)) with 7.
  destruct (entry_bits t 7 Ht ltac:(unfold PGSIZE; lia)) as (H1 & _ & H3 & H4). split_and!; [|by rewrite H1|done].
  rewrite present_bit, Z.lor_spec. apply orb_true_r.
Qed.

(** The address of an entry. *)
Definition pte_addr (t va : Z) : Z := t + 4 * PTX va.

Lemma walk_present k free pgdir tabs va alloc t : pt_ok k free pgdir tabs → is_u32 va → tabs !! (va / PGSIZE / 1024) = Some t →
  walkpgdir pgdir va alloc k = Done (pte_addr t va) k.
Proof.
  intros Hok Hva Ht. destruct (po_tab _ _ _ _ Hok _ _ Ht) as (Hi & Hpt & _). destruct (po_dir _ _ _ _ Hok) as (Hpd & _ & Hpg).
  pose proof (po_pde _ _ _ _ Hok _ Hi) as He. rewrite Ht in He. unfold walkpgdir. rewrite (PDX_div va Hva).
  rewrite (proj1 (word_addr pgdir _ Hpd Hi)). rewrite (run_bind _ _ _ _ _ (rd32_word k pgdir _ Hpd Hi Hpg)), He.
  destruct (pde_entry t Hpt) as (Hpr & Hadr & _). rewrite Hpr, Hadr. unfold pte_addr. pose proof (PTX_mod va Hva) as Hx.
  rewrite (proj1 (word_addr t (PTX va) Hpt ltac:(rewrite Hx; divlia))). done.
Qed.

Lemma walk_absent k free pgdir tabs va : pt_ok k free pgdir tabs → is_u32 va → tabs !! (va / PGSIZE / 1024) = None →
  walkpgdir pgdir va false k = Done 0 k.
Proof.
  intros Hok Hva Ht. pose proof (page_index _ (va_page va Hva)) as [Hi _]. destruct (po_dir _ _ _ _ Hok) as (Hpd & _ & Hpg).
  pose proof (po_pde _ _ _ _ Hok _ Hi) as He. rewrite Ht in He. unfold walkpgdir. rewrite (PDX_div va Hva).
  rewrite (proj1 (word_addr pgdir _ Hpd Hi)). rewrite (run_bind _ _ _ _ _ (rd32_word k pgdir _ Hpd Hi Hpg)), He. done.
Qed.

Lemma word_zero k p i : k_mem k !! p = Some zero_page → 0 ≤ i < 1024 → word k p i = 0.
Proof.
  intros Hp Hi. unfold word. rewrite Hp. simpl. unfold get32, zero_page, bytes_at. rewrite drop_replicate, take_replicate.
  pose proof PGn_Z. unfold PGSIZE in *. replace (4 `min` (PGn - Z.to_nat (4 * i)))%nat with 4%nat by lia. done.
Qed.

Lemma wr_page k p (pg : page) : page_ok kend p → has_page k p → length pg = PGn →
  wr_bytes p pg k = Done tt (Kmem (k_use_lock k) (k_freelist k) (<[p := pg]> (k_mem k))).
Proof.
  intros Hp (pg' & Hpg & Hl) Hlen. destruct (word_addr p 0 Hp ltac:(lia)) as (_ & Hr & Ho). rewrite Z.add_0_r in Hr, Ho.
  unfold wr_bytes, get_page, set_page. rewrite Hr, Ho, Hpg. do 3 f_equal. change (Z.to_nat (4 * 0)) with 0%nat. unfold splice. simpl.
  rewrite drop_ge by lia. by rewrite app_nil_r.
Qed.

Lemma zero_page_length : length zero_page = PGn.
Proof. apply length_replicate. Qed.

Lemma free_page k free p : free_list kend k free → p ∈ free → page_ok kend p ∧ has_page k p.
Proof.
  intros [Hc Hp _] Hin. split; [by eapply Forall_forall in Hp|]. clear Hp. revert Hc. generalize (k_freelist k).
  induction free as [|v free IH]; intros a Hc; [by apply elem_of_nil in Hin|]. destruct Hc as (-> & pg & Hpg & Hl & Hc).
  apply elem_of_cons in Hin as [->|Hin]; [by exists pg|by eapply IH].
Qed.

(** A new page table changes no entry. *)
Lemma walk_new k t free pgdir tabs va : pt_ok k (t :: free) pgdir tabs → is_u32 va → tabs !! (va / PGSIZE / 1024) = None →
  ∃ k', walkpgdir pgdir va true k = Done (pte_addr t va) k' ∧ pt_ok k' free pgdir (<[va / PGSIZE / 1024 := t]> tabs) ∧
    (∀ n, 0 ≤ n < NPAGES → pte k' (<[va / PGSIZE / 1024 := t]> tabs) n = pte k tabs n) ∧
    (∀ q, q ≠ pgdir → q ≠ t → k_mem k' !! q = k_mem k !! q).
Proof.
  intros Hok Hva Ht. pose proof (page_index _ (va_page va Hva)) as [Hi _]. set (i := va / PGSIZE / 1024) in *.
  destruct Hok as [Hfree (Hpd & Hdf & Hpg) Htab Hinj Hpde]. destruct (free_page k _ t Hfree ltac:(by left)) as [Htp Hth].
  destruct (kalloc_spec kend k _ Hfree) as (k1 & Hk1 & Hfree1 & Hmem1).
  assert (Htf : t ∉ free) by (by pose proof (fl_nodup kend _ _ Hfree) as [Hn _]%NoDup_cons).
  assert (Htd : t ≠ pgdir) by (intros ->; set_solver).
  assert (Htn : ∀ j s, tabs !! j = Some s → s ≠ t) by (intros j s Hs ->; destruct (Htab _ _ Hs) as (_ & _ & _ & Hn & _); set_solver).
  set (k2 := Kmem (k_use_lock k1) (k_freelist k1) (<[t := zero_page]> (k_mem k1))).
  set (e := Z.lor (Z.lor (Z.lor (V2P t) PTE_P) PTE_W) PTE_U). destruct (pde_entry t Htp) as (_ & _ & Heu). fold e in Heu.
  assert (Hpg2 : has_page k2 pgdir).
  { destruct Hpg as (pg & Hp & Hl). exists pg. simpl. by rewrite lookup_insert_ne, Hmem1. }
  assert (Hsame : ∀ q, q ≠ pgdir → q ≠ t → k_mem (set_word pgdir i e k2) !! q = k_mem k !! q).
  { intros q H1 H2. rewrite set_word_other by done. simpl. by rewrite lookup_insert_ne, Hmem1. }
  assert (Hword : ∀ s j, s ≠ pgdir → s ≠ t → word (set_word pgdir i e k2) s j = word k s j).
  { intros s j H1 H2. unfold word. by rewrite Hsame. }
  exists (set_word pgdir i e k2). split_and!; [| | |exact Hsame].
  - unfold walkpgdir. rewrite (PDX_div va Hva). fold i. rewrite (proj1 (word_addr pgdir i Hpd Hi)).
    rewrite (run_bind _ _ _ _ _ (rd32_word k pgdir i Hpd Hi Hpg)). specialize (Hpde i Hi). rewrite Ht in Hpde. rewrite Hpde.
    change (negb true) with false. cbv match. rewrite (run_bind _ _ _ _ _ Hk1). rewrite decide_False by (apply page_ok_range in Htp; lia).
    rewrite (run_bind _ _ _ tt k2). 2:{ apply wr_page; [done| |apply zero_page_length]. unfold has_page. by rewrite Hmem1. }
    rewrite (run_bind _ _ _ _ _ (wr32_word k2 pgdir i _ Hpd Hi Hpg2)). unfold pte_addr.
    by rewrite (proj1 (word_addr t (PTX va) Htp ltac:(rewrite (PTX_mod va Hva); divlia))).
  - constructor.
    + apply set_word_free; [set_solver|]. destruct Hfree1 as [H1 H2 H3]. constructor; [|done..]. simpl. by apply chain_insert.
    + split_and!; [done|set_solver|by apply set_word_page].
    + intros j s Hs. apply lookup_insert_Some in Hs as [[<- <-]|[Hj Hs]].
      * split_and!; [lia|lia|done..|]. apply set_word_page; [done..|]. exists zero_page. simpl. rewrite lookup_insert_eq. split; [done|apply length_replicate].
      * destruct (Htab _ _ Hs) as (H1 & H2 & H3 & H4 & pg & Hp & Hl). split_and!; [lia|lia|done..|set_solver|]. exists pg. by rewrite Hsame by (by eapply Htn || done).
    + intros j1 j2 s H1 H2. apply lookup_insert_Some in H1 as [[<- <-]|[Hj1 H1]]; apply lookup_insert_Some in H2 as [[<- Hs]|[Hj2 H2]]; try done.
      * by eapply Htn in H2.
      * subst s. by eapply Htn in H1.
      * by eapply Hinj.
    + intros j Hj. destruct (decide (i = j)) as [<-|Hij].
      * rewrite lookup_insert_eq. by apply word_set_eq.
      * rewrite lookup_insert_ne by done. rewrite word_set_ne by (done || congruence). specialize (Hpde j Hj).
        replace (word k2 pgdir j) with (word k pgdir j); [done|]. unfold word. simpl. by rewrite lookup_insert_ne, Hmem1.
  - intros n Hn. destruct (page_index n Hn) as [H1 H2]. unfold pte. destruct (decide (i = n / 1024)) as [Hin|Hin].
    + rewrite <-Hin, lookup_insert_eq, Ht. apply word_zero; [|done]. rewrite set_word_other by done. simpl. apply lookup_insert_eq.
    + rewrite lookup_insert_ne by done. destruct (tabs !! (n / 1024)) as [s|] eqn:Hs; [|done].
      apply Hword; [by destruct (Htab _ _ Hs) as (_ & _ & ? & _)|by eapply Htn].
Qed.

(** An entry is written. *)
Lemma set_pte k free pgdir tabs n t v : pt_ok k free pgdir tabs → 0 ≤ n < NPAGES → tabs !! (n / 1024) = Some t → is_u32 v →
  pt_ok (set_word t (n `mod` 1024) v k) free pgdir tabs ∧
  (∀ m, 0 ≤ m < NPAGES → pte (set_word t (n `mod` 1024) v k) tabs m = if decide (m = n) then v else pte k tabs m).
Proof.
  intros Hok Hn Ht Hv. destruct (page_index n Hn) as [_ Hi]. destruct Hok as [Hfree (Hpd & Hdf & Hpg) Htab Hinj Hpde].
  destruct (Htab _ _ Ht) as (_ & Htp & Htd & Htf & Hth). split.
  - constructor; [by apply set_word_free|split_and!; [done..|by apply set_word_page]| |done|].
    + intros j s Hs. destruct (Htab _ _ Hs) as (H1 & H2 & H3 & H4 & H5). split_and!; [lia|lia|done..|by apply set_word_page].
    + intros j Hj. rewrite word_set_ne by (done || congruence). by apply Hpde.
  - intros m Hm. destruct (page_index m Hm) as [_ Hmi]. unfold pte. case_decide as Hmn.
    + subst m. rewrite Ht. by apply word_set_eq.
    + destruct (tabs !! (m / 1024)) as [s|] eqn:Hs; [|done]. apply word_set_ne; [done..|]. intros [= -> Heq].
      apply Hmn, index_inj; [lia|lia| |done]. by eapply Hinj.
Qed.

(** The values of a map. *)
Definition vals (m : gmap Z Z) : list Z := (map_to_list m).*2.

Lemma vals_elem m x : x ∈ vals m ↔ ∃ i, m !! i = Some x.
Proof.
  unfold vals. rewrite list_elem_of_fmap. split.
  - intros ([i y] & -> & Hi%elem_of_map_to_list). by exists i.
  - intros [i Hi]. exists (i, x). by rewrite elem_of_map_to_list.
Qed.
Lemma vals_insert m i x : m !! i = None → vals (<[i := x]> m) ≡ₚ x :: vals m.
Proof. intros Hi. unfold vals. by rewrite map_to_list_insert. Qed.
Lemma vals_insert_elem m i x y : m !! i = None → y ∈ vals (<[i := x]> m) → y = x ∨ y ∈ vals m.
Proof. intros Hi. rewrite vals_insert by done. by rewrite elem_of_cons. Qed.
Lemma vals_delete m i x : m !! i = Some x → vals m ≡ₚ x :: vals (delete i m).
Proof. intros Hi. rewrite <-vals_insert by apply lookup_delete_eq. by rewrite insert_delete_id. Qed.

(** What a change of the mappings may do besides: take pages from the free list
    as page tables and write to them and to the directory. *)
Record grows (k : kmem) (free : list Z) (tabs : gmap Z Z) (k' : kmem) (free' : list Z) (tabs' : gmap Z Z) (pgdir : Z) : Prop := {
  gr_ok : pt_ok k' free' pgdir tabs';
  gr_tabs : tabs ⊆ tabs';
  gr_pages : free' ++ vals tabs' ≡ₚ free ++ vals tabs;
  gr_mem : ∀ q, q ≠ pgdir → (∀ i, tabs' !! i ≠ Some q) → k_mem k' !! q = k_mem k !! q
}.

Lemma grows_refl k free tabs pgdir : pt_ok k free pgdir tabs → grows k free tabs k free tabs pgdir.
Proof. intros Hok. by constructor. Qed.

Lemma grows_trans k1 f1 t1 k2 f2 t2 k3 f3 t3 pgdir :
  grows k1 f1 t1 k2 f2 t2 pgdir → grows k2 f2 t2 k3 f3 t3 pgdir → grows k1 f1 t1 k3 f3 t3 pgdir.
Proof.
  intros [H1 H2 H3 H4] [H5 H6 H7 H8]. constructor; [done|by etrans|by rewrite H7|].
  intros q Hq Hn. rewrite H8 by done. apply H4; [done|]. intros i Hi. apply (Hn i). by eapply lookup_weaken.
Qed.

(** The new page tables were free pages. *)
Lemma grows_new k free tabs k' free' tabs' pgdir i t : grows k free tabs k' free' tabs' pgdir → tabs' !! i = Some t →
  tabs !! i = Some t ∨ t ∈ free.
Proof.
  intros [H1 H2 H3 _] Hi. assert (Ht : t ∈ free ++ vals tabs) by (rewrite <-H3; apply elem_of_app; right; apply vals_elem; by exists i).
  apply elem_of_app in Ht as [Ht|[j Hj]%vals_elem]; [by right|left]. replace i with j; [done|]. eapply (po_inj _ _ _ _ H1); [|done].
  by eapply lookup_weaken.
Qed.

(** [walkpgdir] with allocation: the entry's address, or no memory. *)
Lemma walk_alloc k free pgdir tabs va : pt_ok k free pgdir tabs → is_u32 va →
  ∃ r k' free' tabs', walkpgdir pgdir va true k = Done r k' ∧ grows k free tabs k' free' tabs' pgdir ∧
    (∀ n, 0 ≤ n < NPAGES → pte k' tabs' n = pte k tabs n) ∧
    (r = 0 ∧ free' = [] ∨ r ≠ 0 ∧ ∃ t, tabs' !! (va / PGSIZE / 1024) = Some t ∧ r = t + 4 * ((va / PGSIZE) `mod` 1024)).
Proof.
  intros Hok Hva. assert (Hne : ∀ t, page_ok kend t → pte_addr t va ≠ 0 ∧ pte_addr t va = t + 4 * ((va / PGSIZE) `mod` 1024)).
  { intros t Ht. apply page_ok_range in Ht. unfold pte_addr. rewrite (PTX_mod va Hva). split; [divlia|done]. }
  destruct (tabs !! (va / PGSIZE / 1024)) as [t|] eqn:Ht.
  - eexists _, k, free, tabs. split; [by eapply walk_present|]. split_and!; [by apply grows_refl|done|]. right.
    destruct (po_tab _ _ _ _ Hok _ _ Ht) as (_ & Hp & _). destruct (Hne t Hp). split; [done|]. by exists t.
  - destruct free as [|t free].
    + exists 0, k, [], tabs. split; [|split_and!; [by apply grows_refl|done|by left]]. pose proof (page_index _ (va_page va Hva)) as [Hi _].
      destruct (po_dir _ _ _ _ Hok) as (Hpd & _ & Hpg). pose proof (po_pde _ _ _ _ Hok _ Hi) as He. rewrite Ht in He.
      unfold walkpgdir. rewrite (PDX_div va Hva), (proj1 (word_addr pgdir _ Hpd Hi)).
      rewrite (run_bind _ _ _ _ _ (rd32_word k pgdir _ Hpd Hi Hpg)), He. change (negb true) with false. cbv match.
      by rewrite (run_bind _ _ _ _ _ (kalloc_spec kend k [] (po_free _ _ _ _ Hok))).
    + destruct (walk_new k t free pgdir tabs va Hok Hva Ht) as (k' & Hrun & Hok' & Hpte & Hmem).
      eexists _, k', free, _. split; [exact Hrun|]. split_and!; [|done|].
      * constructor; [done|by apply insert_subseteq| |].
        -- rewrite vals_insert by done. solve_Permutation.
        -- intros q Hq Hn. apply Hmem; [done|]. intros ->. apply (Hn (va / PGSIZE / 1024)), lookup_insert_eq.
      * right. destruct (Hne t) as [H1 H2]; [by apply (free_page k (t :: free)); [apply Hok|left]|]. split; [done|].
        exists t. split; [apply lookup_insert_eq|done].
Qed.

(** ** Mapping a range *)

Lemma lor_u32 a b : is_u32 a → is_u32 b → is_u32 (Z.lor a b).
Proof.
  unfold is_u32. intros Ha Hb. assert (H0 : 0 ≤ Z.lor a b) by (apply Z.lor_nonneg; lia). split; [done|].
  destruct (Z.eq_dec (Z.lor a b) 0) as [->|Hz]; [lia|]. apply Z.log2_lt_pow2; [lia|]. rewrite Z.log2_lor by lia.
  assert (Hlog : ∀ x, 0 ≤ x < 2 ^ 32 → Z.log2 x < 32).
  { intros x Hx. destruct (Z.eq_dec x 0) as [->|Hx0]; [done|]. apply Z.log2_lt_pow2; lia. }
  pose proof (Hlog a Ha). pose proof (Hlog b Hb). lia.
Qed.

(** The entry of the page [j] of a range mapped to [pa]. *)
Definition entry (pa perm j : Z) : Z := Z.lor (Z.lor (u32 (pa + j * PGSIZE)) perm) PTE_P.
(** The entries after [c] pages from [n] on have been mapped. *)
Definition mapped (n c pa perm : Z) (f f' : Z → Z) : Prop :=
  ∀ m, 0 ≤ m < NPAGES → f' m = if decide (n ≤ m < n + c) then entry pa perm (m - n) else f m.

Lemma entry_u32 pa perm j : is_u32 perm → is_u32 (entry pa perm j).
Proof. intros Hp. unfold entry. apply lor_u32; [apply lor_u32; [apply u32_range|done]|]. unfold is_u32, PTE_P. lia. Qed.

Lemma entry_next pa perm j : entry (u32 (pa + PGSIZE)) perm j = entry pa perm (j + 1).
Proof. unfold entry. rewrite u32_add_l. do 3 f_equal. lia. Qed.

(** One round of [mappages]. *)
Lemma map_one k free pgdir tabs n pa perm : pt_ok k free pgdir tabs → is_u32 pa → is_u32 perm → 0 ≤ n < NPAGES →
  present (pte k tabs n) = false →
  ∃ a k1 free1 tabs1, walkpgdir pgdir (n * PGSIZE) true k = Done a k1 ∧
    (a = 0 ∧ free1 = [] ∧ grows k free tabs k1 free1 tabs1 pgdir ∧ mapped n 0 pa perm (pte k tabs) (pte k1 tabs1) ∨
     a ≠ 0 ∧ ∃ e k2, rd32 a k1 = Done e k1 ∧ present e = false ∧ wr32 a (Z.lor (Z.lor pa perm) PTE_P) k1 = Done tt k2 ∧
       grows k free tabs k2 free1 tabs1 pgdir ∧ mapped n 1 pa perm (pte k tabs) (pte k2 tabs1)).
Proof.
  intros Hok Hpa Hperm Hn Habs. assert (Hva : is_u32 (n * PGSIZE)) by (unfold is_u32, NPAGES, PGSIZE in *; lia).
  assert (Hdiv : n * PGSIZE / PGSIZE = n) by (unfold PGSIZE; apply Z.div_mul; lia). destruct (page_index n Hn) as [_ Hi].
  destruct (walk_alloc k free pgdir tabs _ Hok Hva) as (a & k1 & free1 & tabs1 & Hrun & Hg & Hpte & Hcase). rewrite Hdiv in Hcase.
  exists a, k1, free1, tabs1. split; [done|]. destruct Hcase as [[-> ->]|(Ha & t & Ht & ->)]; [left|right].
  { split_and!; [done..|]. intros m Hm. rewrite decide_False by lia. auto. }
  split; [done|]. destruct Hg as [Hok1 H2 H3 H5]. destruct (po_tab _ _ _ _ Hok1 _ _ Ht) as (_ & Htp & Htd & _ & Hth).
  assert (Hv : entry pa perm 0 = Z.lor (Z.lor pa perm) PTE_P) by (unfold entry; by rewrite Z.mul_0_l, Z.add_0_r, u32_small).
  destruct (set_pte k1 free1 pgdir tabs1 n t (entry pa perm 0) Hok1 Hn Ht (entry_u32 pa perm 0 Hperm)) as [Hok2 Hpte2].
  exists (word k1 t (n `mod` 1024)), (set_word t (n `mod` 1024) (entry pa perm 0) k1). split_and!.
  - by apply rd32_word.
  - specialize (Hpte n Hn). unfold pte at 1 in Hpte. rewrite Ht in Hpte. by rewrite Hpte.
  - rewrite <-Hv. by apply wr32_word.
  - constructor; [done..|]. intros q Hq Hnt. rewrite set_word_other by (intros ->; by eapply Hnt). by apply H5.
  - intros m Hm. rewrite Hpte2 by done. destruct (decide (m = n)) as [->|Hne].
    + rewrite decide_True by lia. by rewrite Z.sub_diag.
    + rewrite decide_False by lia. auto.
Qed.

Lemma mapped_step n c pa perm f f1 f2 : 0 ≤ c → mapped n 1 pa perm f f1 → mapped (n + 1) c (u32 (pa + PGSIZE)) perm f1 f2 →
  mapped n (c + 1) pa perm f f2.
Proof.
  intros Hc H1 H2 m Hm. rewrite H2, H1 by done. destruct (decide (n + 1 ≤ m < n + 1 + c)).
  - rewrite decide_True by lia. rewrite entry_next. f_equal. lia.
  - destruct (decide (n ≤ m < n + 1)); [rewrite decide_True by lia; done|by rewrite decide_False by lia].
Qed.

Lemma mappages_loop_spec c : ∀ fuel k free pgdir tabs n pa perm, pt_ok k free pgdir tabs → is_u32 pa → is_u32 perm →
  0 ≤ n → n + Z.of_nat c < NPAGES → (∀ m, n ≤ m ≤ n + Z.of_nat c → present (pte k tabs m) = false) → (c < fuel)%nat →
  ∃ r k' free' tabs', mappages_loop fuel pgdir (n * PGSIZE) ((n + Z.of_nat c) * PGSIZE) pa perm k = Done r k' ∧
    grows k free tabs k' free' tabs' pgdir ∧
    (r = 0 ∧ mapped n (Z.of_nat c + 1) pa perm (pte k tabs) (pte k' tabs') ∨
     r = -1 ∧ free' = [] ∧ ∃ d, 0 ≤ d ≤ Z.of_nat c ∧ mapped n d pa perm (pte k tabs) (pte k' tabs')).
Proof.
  induction c as [|c IH]; intros fuel k free pgdir tabs n pa perm Hok Hpa Hperm Hn Hlim Habs Hf; (destruct fuel as [|fuel]; [lia|]).
  all: destruct (map_one k free pgdir tabs n pa perm Hok Hpa Hperm ltac:(lia) ltac:(apply Habs; lia)) as (a & k1 & free1 & tabs1 & Hrun & Hcase).
  all: cbn [mappages_loop]; rewrite (run_bind _ _ _ _ _ Hrun).
  all: destruct Hcase as [(-> & -> & Hg & Hm)|(Ha & e & k2 & Hrd & He & Hwr & Hg & Hm)].
  1,3: rewrite decide_True by done; exists (-1), k1, [], tabs1; split_and!; [done..|right; split_and!; [done..|exists 0; split; [lia|done]]].
  all: rewrite decide_False by done; rewrite (run_bind _ _ _ _ _ Hrd), He; simpl negb; rewrite (run_bind _ _ _ tt k1) by done.
  all: rewrite (run_bind _ _ _ _ _ Hwr).
  - rewrite decide_True by lia. exists 0, k2, free1, tabs1. split_and!; [done..|left]. done.
  - rewrite decide_False by (unfold PGSIZE; lia).
    assert (Hnext : u32 (n * PGSIZE + PGSIZE) = (n + 1) * PGSIZE) by (rewrite u32_small; unfold is_u32, NPAGES, PGSIZE in *; lia).
    rewrite Hnext. replace (n + Z.of_nat (S c)) with (n + 1 + Z.of_nat c) by lia.
    destruct (IH fuel k2 free1 pgdir tabs1 (n + 1) (u32 (pa + PGSIZE)) perm) as (r & k' & free' & tabs' & Hr & Hg' & Hc);
      [apply Hg|apply u32_range|done|lia|lia| |lia|].
    { intros m Hr. rewrite Hm by lia. rewrite decide_False by lia. apply Habs. lia. }
    exists r, k', free', tabs'. split_and!; [done|by eapply grows_trans|]. destruct Hc as [(-> & Hc)|(-> & Hf' & d & Hd & Hc)]; [left|right].
    + split; [done|]. replace (Z.of_nat (S c) + 1) with (Z.of_nat c + 1 + 1) by lia. eapply mapped_step; [lia|done..].
    + split_and!; [done..|]. exists (d + 1). split; [lia|]. eapply mapped_step; [lia|done..].
Qed.

(** A page of the range that is mapped already: the round panics. *)
Lemma map_again k free pgdir tabs n : pt_ok k free pgdir tabs → 0 ≤ n < NPAGES → present (pte k tabs n) = true →
  ∃ a e, walkpgdir pgdir (n * PGSIZE) true k = Done a k ∧ a ≠ 0 ∧ rd32 a k = Done e k ∧ present e = true.
Proof.
  intros Hok Hn Hpr. assert (Hva : is_u32 (n * PGSIZE)) by (unfold is_u32, NPAGES, PGSIZE in *; lia).
  assert (Hdiv : n * PGSIZE / PGSIZE = n) by (unfold PGSIZE; apply Z.div_mul; lia). destruct (page_index n Hn) as [_ Hi].
  unfold pte in Hpr. destruct (tabs !! (n / 1024)) as [t|] eqn:Ht; [|done]. destruct (po_tab _ _ _ _ Hok _ _ Ht) as (_ & Htp & _ & _ & Hth).
  exists (pte_addr t (n * PGSIZE)), (word k t (n `mod` 1024)). unfold pte_addr. rewrite (PTX_mod _ Hva), Hdiv. split_and!.
  - rewrite (walk_present k free pgdir tabs _ true t Hok Hva); [|by rewrite Hdiv]. unfold pte_addr. by rewrite (PTX_mod _ Hva), Hdiv.
  - apply page_ok_range in Htp. divlia.
  - by apply rd32_word.
  - done.
Qed.

Lemma mappages_loop_remap c d : ∀ fuel k free pgdir tabs n pa perm, pt_ok k free pgdir tabs → is_u32 pa → is_u32 perm →
  0 ≤ n → n + Z.of_nat c < NPAGES → (d ≤ c)%nat → (∀ m, n ≤ m < n + Z.of_nat d → present (pte k tabs m) = false) →
  present (pte k tabs (n + Z.of_nat d)) = true → (c < fuel)%nat →
  mappages_loop fuel pgdir (n * PGSIZE) ((n + Z.of_nat c) * PGSIZE) pa perm k = Panic "remap" ∨
  ∃ k' tabs', mappages_loop fuel pgdir (n * PGSIZE) ((n + Z.of_nat c) * PGSIZE) pa perm k = Done (-1) k' ∧ grows k free tabs k' [] tabs' pgdir.
Proof.
  revert c. induction d as [|d IH]; intros c fuel k free pgdir tabs n pa perm Hok Hpa Hperm Hn Hlim Hd Habs Hpr Hf; (destruct fuel as [|fuel]; [lia|]).
  { left. destruct (map_again k free pgdir tabs n Hok ltac:(lia)) as (a & e & Hrun & Ha & Hrd & He); [by rewrite Z.add_0_r in Hpr|].
    cbn [mappages_loop]. rewrite (run_bind _ _ _ _ _ Hrun), decide_False by done. rewrite (run_bind _ _ _ _ _ Hrd), He. done. }
  destruct (map_one k free pgdir tabs n pa perm Hok Hpa Hperm ltac:(lia) ltac:(apply Habs; lia)) as (a & k1 & free1 & tabs1 & Hrun & Hcase).
  cbn [mappages_loop]. rewrite (run_bind _ _ _ _ _ Hrun). destruct Hcase as [(-> & -> & Hg & Hm)|(Ha & e & k2 & Hrd & He & Hwr & Hg & Hm)].
  { right. rewrite decide_True by done. by exists k1, tabs1. }
  rewrite decide_False by done. rewrite (run_bind _ _ _ _ _ Hrd), He. simpl negb. rewrite (run_bind _ _ _ tt k1) by done.
  rewrite (run_bind _ _ _ _ _ Hwr). destruct c as [|c]; [lia|]. rewrite decide_False by (unfold PGSIZE; lia).
  assert (Hnext : u32 (n * PGSIZE + PGSIZE) = (n + 1) * PGSIZE) by (rewrite u32_small; unfold is_u32, NPAGES, PGSIZE in *; lia).
  rewrite Hnext. replace (n + Z.of_nat (S c)) with (n + 1 + Z.of_nat c) by lia.
  destruct (IH c fuel k2 free1 pgdir tabs1 (n + 1) (u32 (pa + PGSIZE)) perm) as [?|(k' & tabs' & Hr & Hg')];
    [apply Hg|apply u32_range|done|lia|lia|lia| | |lia|by left|].
  - intros m Hr. rewrite Hm by lia. rewrite decide_False by lia. apply Habs. lia.
  - rewrite Hm by lia. rewrite decide_False by lia. by replace (n + 1 + Z.of_nat d) with (n + Z.of_nat (S d)) by lia.
  - right. exists k', tabs'. split; [done|by eapply grows_trans].
Qed.

(** The first page of the range that is mapped already. *)
Lemma mappages_remap k free pgdir tabs va size pa perm m : pt_ok k free pgdir tabs → is_u32 pa → is_u32 perm →
  0 ≤ va → 0 < size → va + size ≤ 2 ^ 32 → va / PGSIZE ≤ m ≤ (va + size - 1) / PGSIZE → present (pte k tabs m) = true →
  (∀ i, va / PGSIZE ≤ i < m → present (pte k tabs i) = false) →
  mappages pgdir va size pa perm k = Panic "remap" ∨
  ∃ k' tabs', mappages pgdir va size pa perm k = Done (-1) k' ∧ grows k free tabs k' [] tabs' pgdir.
Proof.
  intros Hok Hpa Hperm Hva Hsz Hlim Hm Hpr Habs. set (n := va / PGSIZE) in *. set (l := (va + size - 1) / PGSIZE) in *.
  assert (Hnl : 0 ≤ n ≤ l ∧ l < NPAGES).
  { unfold n, l, NPAGES, PGSIZE. change (2 ^ 20) with 1048576. change (2 ^ 32) with 4294967296 in Hlim. divlia. }
  unfold mappages. rewrite (u32_small (va + size - 1)) by (unfold is_u32; lia). rewrite !PGROUNDDOWN_div by lia.
  fold n l. rewrite !(Z.mul_comm PGSIZE).
  assert (Hc : u32 (l * PGSIZE - n * PGSIZE) / PGSIZE = l - n).
  { rewrite u32_small by (unfold is_u32, NPAGES, PGSIZE in *; lia). rewrite <-Z.mul_sub_distr_r. apply Z.div_mul. unfold PGSIZE. lia. }
  rewrite Hc. pose proof (mappages_loop_remap (Z.to_nat (l - n)) (Z.to_nat (m - n)) (S (Z.to_nat (l - n))) k free pgdir tabs n pa perm) as Hloop.
  replace (n + Z.of_nat (Z.to_nat (l - n))) with l in Hloop by lia. replace (n + Z.of_nat (Z.to_nat (m - n))) with m in Hloop by lia.
  apply Hloop; (done || lia || apply Habs).
Qed.

(** Every page of the range [va, va + size) is mapped, or memory has run out. *)
Lemma mappages_spec k free pgdir tabs va size pa perm : pt_ok k free pgdir tabs → is_u32 pa → is_u32 perm →
  0 ≤ va → 0 < size → va + size ≤ 2 ^ 32 →
  (∀ m, va / PGSIZE ≤ m ≤ (va + size - 1) / PGSIZE → present (pte k tabs m) = false) →
  ∃ r k' free' tabs', mappages pgdir va size pa perm k = Done r k' ∧ grows k free tabs k' free' tabs' pgdir ∧
    let n := va / PGSIZE in let c := (va + size - 1) / PGSIZE - n + 1 in
    (r = 0 ∧ mapped n c pa perm (pte k tabs) (pte k' tabs') ∨
     r = -1 ∧ free' = [] ∧ ∃ d, 0 ≤ d < c ∧ mapped n d pa perm (pte k tabs) (pte k' tabs')).
Proof.
  intros Hok Hpa Hperm Hva Hsz Hlim Habs. set (n := va / PGSIZE). set (l := (va + size - 1) / PGSIZE).
  assert (Hnl : 0 ≤ n ≤ l ∧ l < NPAGES).
  { unfold n, l, NPAGES, PGSIZE. change (2 ^ 20) with 1048576. change (2 ^ 32) with 4294967296 in Hlim. divlia. }
  unfold mappages. rewrite (u32_small (va + size - 1)) by (unfold is_u32; lia). rewrite !PGROUNDDOWN_div by lia.
  fold n l. rewrite !(Z.mul_comm PGSIZE).
  assert (Hc : u32 (l * PGSIZE - n * PGSIZE) / PGSIZE = l - n).
  { rewrite u32_small by (unfold is_u32, NPAGES, PGSIZE in *; lia). rewrite <-Z.mul_sub_distr_r. apply Z.div_mul. unfold PGSIZE. lia. }
  rewrite Hc. destruct (mappages_loop_spec (Z.to_nat (l - n)) (S (Z.to_nat (l - n))) k free pgdir tabs n pa perm) as (r & k' & free' & tabs' & Hr & Hg & Hcase);
    [done..|lia|lia|intros m Hm; apply Habs; unfold n, l in *; lia|lia|].
  replace (n + Z.of_nat (Z.to_nat (l - n))) with l in Hr by lia. replace (Z.of_nat (Z.to_nat (l - n))) with (l - n) in Hcase by lia.
  exists r, k', free', tabs'. split_and!; [done..|]. destruct Hcase as [?|(H1 & H2 & d & Hd & Hm)]; [by left|right].
  split_and!; [done..|]. exists d. split; [lia|done].
Qed.

(** ** User memory *)

Definition UPAGES : Z := 2 ^ 19.       (* the pages below KERNBASE *)

(** The address space maps the user pages [user] to frames of its own. *)
Record space (k : kmem) (free : list Z) (pgdir : Z) (tabs user : gmap Z Z) : Prop := {
  sp_pt : pt_ok k free pgdir tabs;
  sp_map : ∀ n f, user !! n = Some f → (0 ≤ n < UPAGES) ∧ present (pte k tabs n) = true ∧ PTE_ADDR (pte k tabs n) = V2P f;
  sp_frame : ∀ f, f ∈ vals user → page_ok kend f ∧ has_page k f ∧ (f ∉ free) ∧ f ≠ pgdir ∧ (f ∉ vals tabs);
  sp_inj : ∀ n m f, user !! n = Some f → user !! m = Some f → n = m;
  sp_none : ∀ n, (0 ≤ n < UPAGES) → user !! n = None → present (pte k tabs n) = false
}.

(** Changes outside of the page tables. *)
Lemma pt_frame k free k' free' pgdir tabs : pt_ok k free pgdir tabs → free_list kend k' free' →
  (∀ q, q = pgdir ∨ q ∈ vals tabs → k_mem k' !! q = k_mem k !! q ∧ q ∉ free') →
  pt_ok k' free' pgdir tabs ∧ ∀ n, pte k' tabs n = pte k tabs n.
Proof.
  intros [H1 (H2 & H3 & H4) H5 H6 H7] Hfree Hsame. assert (Hw : ∀ q i, q = pgdir ∨ q ∈ vals tabs → word k' q i = word k q i).
  { intros q i Hq. unfold word. by rewrite (proj1 (Hsame q Hq)). }
  assert (Ht : ∀ i t, tabs !! i = Some t → t ∈ vals tabs) by (intros i t Hi; apply vals_elem; by exists i).
  split; [constructor|].
  - done.
  - unfold has_page. rewrite (proj1 (Hsame pgdir (or_introl eq_refl))). split_and!; [done|by apply Hsame; left|done].
  - intros i t Hi. destruct (H5 i t Hi) as (? & ? & ? & _ & ?). apply Ht in Hi. unfold has_page. rewrite (proj1 (Hsame t (or_intror Hi))).
    split_and!; [lia|lia|done..|by apply Hsame; right|done].
  - done.
  - intros i Hi. specialize (H7 i Hi). by rewrite Hw by by left.
  - intros n. unfold pte. destruct (tabs !! (n / 1024)) as [t|] eqn:Hi; [|done]. apply Hw. right. by eapply Ht.
Qed.

Lemma space_frame k free k' free' pgdir tabs user : space k free pgdir tabs user → free_list kend k' free' →
  (∀ q, q = pgdir ∨ q ∈ vals tabs ∨ q ∈ vals user → k_mem k' !! q = k_mem k !! q ∧ q ∉ free') →
  space k' free' pgdir tabs user.
Proof.
  intros [H1 H2 H3 H4 H5] Hfree Hsame. destruct (pt_frame k free k' free' pgdir tabs H1 Hfree) as [Hpt Hpte]; [naive_solver|].
  constructor; [done|..|done|].
  - intros n f Hn. rewrite Hpte. auto.
  - intros f Hf. destruct (H3 f Hf) as (? & ? & _ & ? & ?). unfold has_page. rewrite (proj1 (Hsame f (or_intror (or_intror Hf)))).
    split_and!; [done..|by apply Hsame; auto|done|done].
  - intros n Hn Hu. rewrite Hpte. auto.
Qed.

(** New mappings. *)
Lemma space_grows k free k' free' pgdir tabs tabs' user : space k free pgdir tabs user → grows k free tabs k' free' tabs' pgdir →
  (∀ n, 0 ≤ n < UPAGES → pte k' tabs' n = pte k tabs n) →
  space k' free' pgdir tabs' user ∧ ∀ f, f ∈ vals user → k_mem k' !! f = k_mem k !! f.
Proof.
  intros [H1 H2 H3 H4 H5] Hg Hpte. assert (Hold : ∀ f, f ∈ vals user → f ∉ free' ++ vals tabs').
  { intros f Hf. rewrite (gr_pages _ _ _ _ _ _ _ Hg). destruct (H3 f Hf) as (_ & _ & ? & _ & ?). set_solver. }
  assert (Hmem : ∀ f, f ∈ vals user → k_mem k' !! f = k_mem k !! f).
  { intros f Hf. apply (gr_mem _ _ _ _ _ _ _ Hg); [by apply H3|]. intros i Hi. apply (Hold f Hf), elem_of_app. right. apply vals_elem. by exists i. }
  split; [|done]. constructor; [apply Hg|..|done|].
  - intros n f Hn. destruct (H2 n f Hn) as (Hr & ? & ?). by rewrite Hpte.
  - intros f Hf. destruct (H3 f Hf) as (? & (pg & Hp & Hl) & _ & ? & _). specialize (Hold f Hf).
    split_and!; [done|exists pg; by rewrite Hmem|set_solver|done|set_solver].
  - intros n Hn Hu. rewrite Hpte by done. auto.
Qed.

(** A frame that is nobody else's. *)
Definition fresh_frame (k : kmem) (free : list Z) (pgdir : Z) (tabs user : gmap Z Z) (f : Z) : Prop :=
  page_ok kend f ∧ has_page k f ∧ (f ∉ free) ∧ f ≠ pgdir ∧ (f ∉ vals tabs) ∧ (f ∉ vals user).

Lemma entry_frame f perm : page_ok kend f → 0 ≤ perm < PGSIZE →
  present (entry (V2P f) perm 0) = true ∧ PTE_ADDR (entry (V2P f) perm 0) = V2P f.
Proof.
  intros Hf Hp. unfold entry. split; [apply present_lor|]. rewrite Z.mul_0_l, Z.add_0_r. rewrite u32_small by (by apply u32_range || apply u32_range).
  rewrite <-Z.lor_assoc. apply entry_bits; [done|]. split; [apply Z.lor_nonneg; unfold PTE_P; lia|].
  destruct (Z.eq_dec (Z.lor perm PTE_P) 0) as [->|Hz]; [unfold PGSIZE; lia|].
  assert (Hlog : Z.log2 perm < 12). { destruct (Z.eq_dec perm 0) as [->|?]; [done|]. apply Z.log2_lt_pow2; unfold PGSIZE in Hp; lia. }
  change PGSIZE with (2 ^ 12). apply Z.log2_lt_pow2; [assert (0 ≤ Z.lor perm PTE_P) by (apply Z.lor_nonneg; unfold PTE_P; lia); lia|].
  rewrite Z.log2_lor by (unfold PTE_P; lia). change (Z.log2 PTE_P) with 0. lia.
Qed.

(** [mappages] of one user page. *)
Lemma map_frame k free pgdir tabs user n f perm : space k free pgdir tabs user → fresh_frame k free pgdir tabs user f →
  0 ≤ n < UPAGES → user !! n = None → 0 ≤ perm < PGSIZE →
  ∃ r k' free' tabs', mappages pgdir (n * PGSIZE) PGSIZE (V2P f) perm k = Done r k' ∧
    free' ++ vals tabs' ≡ₚ free ++ vals tabs ∧ (∀ q, q = f ∨ q ∈ vals user → k_mem k' !! q = k_mem k !! q) ∧
    (∀ m, m ≠ n → 0 ≤ m < NPAGES → pte k' tabs' m = pte k tabs m) ∧
    (∀ q, q ≠ pgdir → q ∉ vals tabs' → k_mem k' !! q = k_mem k !! q) ∧
    (r = 0 ∧ space k' free' pgdir tabs' (<[n := f]> user) ∧ pte k' tabs' n = entry (V2P f) perm 0 ∨
     r = -1 ∧ free' = [] ∧ space k' free' pgdir tabs' user ∧ fresh_frame k' free' pgdir tabs' user f).
Proof.
  intros Hsp (Hfp & Hfh & Hff & Hfd & Hft & Hfu) Hn Hu Hperm. pose proof Hsp as [Hpt _ _ _ Hnone].
  assert (Hn1 : n * PGSIZE / PGSIZE = n) by (unfold PGSIZE; apply Z.div_mul; lia).
  assert (Hn2 : (n * PGSIZE + PGSIZE - 1) / PGSIZE = n) by (unfold PGSIZE; clear; divlia).
  destruct (mappages_spec k free pgdir tabs (n * PGSIZE) PGSIZE (V2P f) perm Hpt) as (r & k' & free' & tabs' & Hrun & Hg & Hcase);
    [apply u32_range|unfold is_u32, PGSIZE in *; lia|unfold UPAGES, PGSIZE in *; lia..| |].
  { intros m Hm. rewrite Hn1, Hn2 in Hm. replace m with n by lia. by apply Hnone. }
  rewrite Hn1, Hn2 in Hcase. simpl in Hcase. replace (n - n + 1) with 1 in Hcase by lia.
  assert (Hnew : ∀ q, q ∉ free → q ∉ vals tabs → q ∉ free' ++ vals tabs') by (intros q; rewrite (gr_pages _ _ _ _ _ _ _ Hg); set_solver).
  assert (Hfn : f ∉ free' ++ vals tabs') by by apply Hnew.
  assert (Hmemf : k_mem k' !! f = k_mem k !! f).
  { apply (gr_mem _ _ _ _ _ _ _ Hg); [done|]. intros i Hi. apply Hfn, elem_of_app. right. apply vals_elem. by exists i. }
  assert (Hfh' : has_page k' f) by (destruct Hfh as (pg & Hp & Hl); exists pg; by rewrite Hmemf).
  assert (Hmemq : ∀ q, q ≠ pgdir → q ∉ vals tabs' → k_mem k' !! q = k_mem k !! q).
  { intros q Hq Hqt. apply (gr_mem _ _ _ _ _ _ _ Hg); [done|]. intros i Hi. apply Hqt, vals_elem. by exists i. }
  exists r, k', free', tabs'. split; [done|]. split; [apply Hg|].
  destruct Hcase as [[-> Hm]|(-> & -> & d & Hd & Hm)].
  - destruct (entry_frame f perm Hfp Hperm) as [He1 He2].
    assert (Hent : pte k' tabs' n = entry (V2P f) perm 0).
    { rewrite Hm by (unfold UPAGES, NPAGES in *; lia). rewrite decide_True by lia. by rewrite Z.sub_diag. }
    assert (Hoth : ∀ m, m ≠ n → 0 ≤ m < UPAGES → pte k' tabs' m = pte k tabs m).
    { intros m Hne Hr. rewrite Hm by (unfold UPAGES, NPAGES in *; lia). by rewrite decide_False by lia. }
    destruct Hsp as [_ H2 H3 H4 _]. assert (Hmemu : ∀ q, q ∈ vals user → k_mem k' !! q = k_mem k !! q).
    { intros q Hq. destruct (H3 q Hq) as (_ & _ & Hq1 & Hq2 & Hq3). apply (gr_mem _ _ _ _ _ _ _ Hg); [done|]. intros i Hi.
      apply (Hnew q Hq1 Hq3), elem_of_app. right. apply vals_elem. by exists i. }
    split; [naive_solver|]. split; [intros m Hne Hr; rewrite Hm by done; by rewrite decide_False by lia|]. split; [exact Hmemq|].
    left. split_and!; [done| |done]. constructor; [apply Hg|..].
    + intros m g [[<- <-]|[Hne Hg']]%lookup_insert_Some; [by rewrite Hent|]. destruct (H2 m g Hg') as (Hr & ? & ?). by rewrite Hoth.
    + intros g [->|Hg']%(vals_insert_elem user n f g Hu).
      * split_and!; [done..|set_solver|done|set_solver].
      * destruct (H3 g Hg') as (? & (pg & Hp & Hl) & Hq1 & ? & Hq3). specialize (Hnew g Hq1 Hq3).
        split_and!; [done|exists pg; by rewrite Hmemu|set_solver|done|set_solver].
    + intros m1 m2 g [[<- <-]|[Hne1 Hg1]]%lookup_insert_Some [[<- Hgg]|[Hne2 Hg2]]%lookup_insert_Some; [done|..|by eapply H4].
      * destruct Hfu. apply vals_elem. by exists m2.
      * subst g. destruct Hfu. apply vals_elem. by exists m1.
    + intros m Hr [Hmu Hne]%lookup_insert_None. rewrite Hoth by done. by apply Hnone.
  - destruct (space_grows k free k' [] pgdir tabs tabs' user Hsp Hg) as [Hsp' Hmem'].
    { intros m Hr. rewrite Hm by (unfold UPAGES, NPAGES in *; lia). by rewrite decide_False by lia. }
    split; [intros q [->|Hq]; auto|]. split; [intros m Hne Hr; rewrite Hm by done; by rewrite decide_False by lia|]. split; [exact Hmemq|].
    right. split_and!; [done..|]. split_and!; [done|done|set_solver|done|set_solver|done].
Qed.

(** ** Unmapping *)

Lemma user_tab k free pgdir tabs user n f : space k free pgdir tabs user → user !! n = Some f → ∃ t, tabs !! (n / 1024) = Some t.
Proof.
  intros Hsp Hu. destruct (sp_map _ _ _ _ _ Hsp n f Hu) as (_ & Hp & _). unfold pte in Hp.
  destruct (tabs !! (n / 1024)) as [t|]; [by exists t|done].
Qed.

(** The frame of a page is freed and its entry cleared. *)
Lemma unmap_frame k free pgdir tabs user n f t : KERNBASE < kend → space k free pgdir tabs user → user !! n = Some f →
  tabs !! (n / 1024) = Some t →
  V2P f ≠ 0 ∧ P2V (V2P f) = f ∧
  ∃ k1 k2, kfree kend f k = Done tt k1 ∧ wr32 (t + 4 * (n `mod` 1024)) 0 k1 = Done tt k2 ∧
    space k2 (f :: free) pgdir tabs (delete n user) ∧ (∀ q, q ∈ vals (delete n user) → k_mem k2 !! q = k_mem k !! q) ∧ (∀ q, q ≠ f → q ≠ t → k_mem k2 !! q = k_mem k !! q).
Proof.
  intros Hkend Hsp Hu Ht. pose proof Hsp as [Hpt H2 H3 H4 H5]. assert (Hfv : f ∈ vals user) by (apply vals_elem; by exists n).
  destruct (H3 f Hfv) as (Hfp & Hfh & Hff & Hfd & Hft). destruct (H2 n f Hu) as (Hn & _).
  destruct (entry_bits f 0 Hfp ltac:(unfold PGSIZE; lia)) as (_ & _ & _ & Hpv).
  split; [rewrite (V2P_ok kend f Hfp); destruct Hfp; lia|]. split; [done|].
  destruct (kfree_spec kend k free f (po_free _ _ _ _ Hpt) Hfp Hff) as (k1 & Hrun & Hfree1 & Hmem1).
  destruct (po_tab _ _ _ _ Hpt _ _ Ht) as (_ & Htp & Htd & Htf & Hth). assert (Htv : t ∈ vals tabs) by (apply vals_elem; by eexists).
  assert (Hnp : 0 ≤ n < NPAGES) by (unfold UPAGES, NPAGES in *; lia). destruct (page_index n Hnp) as [_ Hi].
  destruct (pt_frame k free k1 (f :: free) pgdir tabs Hpt Hfree1) as [Hpt1 Hpte1].
  { intros q Hq. assert (q ≠ f) by (intros ->; destruct Hq; done). split; [by apply Hmem1|].
    intros [?|Hin]%elem_of_cons; [done|]. destruct Hq as [->|[i Hq]%vals_elem]; [by apply (po_dir _ _ _ _ Hpt)|].
    by destruct (po_tab _ _ _ _ Hpt _ _ Hq) as (_ & _ & _ & ? & _). }
  assert (Hth1 : has_page k1 t) by (destruct Hth as (pg & Hp & Hl); exists pg; rewrite Hmem1; [done|congruence]).
  destruct (set_pte k1 (f :: free) pgdir tabs n t 0 Hpt1 Hnp Ht ltac:(unfold is_u32; lia)) as [Hpt2 Hpte2].
  exists k1, (set_word t (n `mod` 1024) 0 k1). split; [done|]. split; [by apply wr32_word|].
  assert (Hdel : ∀ q, q ∈ vals (delete n user) → q ∈ vals user ∧ q ≠ f).
  { intros q [m Hm]%vals_elem. apply lookup_delete_Some in Hm as [Hne Hm]. split; [apply vals_elem; by exists m|].
    intros ->. by apply Hne, (H4 n m f). }
  assert (Hmem2 : ∀ q, q ∈ vals (delete n user) → k_mem (set_word t (n `mod` 1024) 0 k1) !! q = k_mem k !! q).
  { intros q [Hq Hqf]%Hdel. destruct (H3 q Hq) as (_ & _ & _ & _ & Hqt). rewrite set_word_other by (intros ->; done). by apply Hmem1. }
  split; [|split; [done|intros q Hqf Hqt; rewrite set_word_other by done; by apply Hmem1]]. constructor; [done|..].
  - intros m g [Hne Hm]%lookup_delete_Some. destruct (H2 m g Hm) as (Hr & ? & ?). split; [done|].
    rewrite Hpte2 by (unfold UPAGES, NPAGES in *; lia). rewrite decide_False by done. by rewrite Hpte1.
  - intros g Hg. destruct (Hdel g Hg) as [Hg1 Hg2]. destruct (H3 g Hg1) as (? & (pg & Hp & Hl) & ? & ? & ?).
    split_and!; [done|exists pg; by rewrite Hmem2|set_solver|done|done].
  - intros m1 m2 g [_ Hm1]%lookup_delete_Some [_ Hm2]%lookup_delete_Some. by eapply H4.
  - intros m Hr Hm. rewrite Hpte2 by (unfold UPAGES, NPAGES in *; lia). case_decide as Hmn; [done|]. rewrite Hpte1. apply H5; [done|].
    by rewrite lookup_delete_ne in Hm by done.
Qed.

(** The user pages outside of [s, e). *)
Definition cut (s e : Z) (user : gmap Z Z) : gmap Z Z := filter (λ p, ¬ (s ≤ p.1 < e)) user.

Lemma cut_lookup s e user n : cut s e user !! n = if decide (s ≤ n < e) then None else user !! n.
Proof.
  unfold cut. case_decide as Hn.
  - apply map_lookup_filter_None. right. intros f _ Hc. by apply Hc.
  - destruct (user !! n) as [f|] eqn:Hu; [by apply map_lookup_filter_Some|]. apply map_lookup_filter_None. by left.
Qed.

Lemma cut_done s e user : e ≤ s → cut s e user = user.
Proof. intros Hs. apply map_eq. intros n. rewrite cut_lookup. by rewrite decide_False by lia. Qed.

Lemma cut_skip s s' e user : s ≤ s' → (∀ n, s ≤ n < s' → user !! n = None) → cut s' e user = cut s e user.
Proof.
  intros Hs Hn. apply map_eq. intros n. rewrite !cut_lookup. destruct (decide (s ≤ n < s')) as [Hr|Hr].
  - rewrite (Hn n Hr). by repeat case_decide.
  - destruct (decide (s' ≤ n < e)); [by rewrite decide_True by lia|]. by rewrite decide_False by lia.
Qed.

Lemma cut_delete s e user : s < e → cut (s + 1) e (delete s user) = cut s e user.
Proof.
  intros Hs. apply map_eq. intros n. rewrite !cut_lookup. destruct (decide (n = s)) as [->|Hne].
  - rewrite lookup_delete_eq. rewrite (decide_True (P := s ≤ s < e)) by lia. by case_decide.
  - rewrite lookup_delete_ne by done. destruct (decide (s + 1 ≤ n < e)); [by rewrite decide_True by lia|]. by rewrite decide_False by lia.
Qed.

(** The start of the next 4 MB. *)
Lemma next_table s : 0 ≤ s < UPAGES →
  u32 (u32 (PGADDR (PDX (s * PGSIZE) + 1) 0 0 - PGSIZE) + PGSIZE) = (s / 1024 + 1) * 1024 * PGSIZE.
Proof.
  intros Hs. unfold UPAGES in Hs. change (2 ^ 19) with 524288 in Hs.
  rewrite PDX_div by (unfold is_u32, PGSIZE; lia). replace (s * PGSIZE / PGSIZE) with s by (unfold PGSIZE; by rewrite Z.div_mul).
  unfold PGADDR. rewrite !Z.shiftl_mul_pow2, Z.mul_0_l, !Z.lor_0_r by lia. change (2 ^ 22) with (1024 * 4096). unfold PGSIZE.
  rewrite u32_add_l. rewrite (u32_small ((s / 1024 + 1) * _)) by (unfold is_u32; divlia).
  rewrite u32_small by (unfold is_u32; divlia). lia.
Qed.

(** What [deallocuvm] leaves: the pages of [s, e) are free. *)
Definition dealloced (s e : Z) (k : kmem) (free : list Z) (pgdir : Z) (tabs user : gmap Z Z) (k' : kmem) : Prop :=
  ∃ free', space k' free' pgdir tabs (cut s e user) ∧ free' ++ vals (cut s e user) ≡ₚ free ++ vals user ∧
    (∀ q, q ∈ vals (cut s e user) → k_mem k' !! q = k_mem k !! q) ∧
    (∀ q, q ∉ free' → q ∉ vals tabs → k_mem k' !! q = k_mem k !! q).

Lemma dealloc_loop_spec e oldsz fuel : KERNBASE < kend → oldsz ≤ KERNBASE → e = (oldsz + PGSIZE - 1) / PGSIZE →
  ∀ k free pgdir tabs user s, space k free pgdir tabs user → 0 ≤ s → e - s < Z.of_nat fuel → (0 < fuel)%nat →
  ∃ k', deallocuvm_loop kend fuel pgdir (s * PGSIZE) oldsz k = Done tt k' ∧ dealloced s e k free pgdir tabs user k'.
Proof.
  intros Hkend Hold He. assert (Hse : ∀ s, s * PGSIZE < oldsz ↔ s < e) by (intros s; subst e; unfold PGSIZE; clear; split; intros; divlia).
  assert (Heu : e ≤ UPAGES) by (subst e; unfold KERNBASE, UPAGES, PGSIZE in *; change (2 ^ 19) with 524288; divlia).
  induction fuel as [|fuel IH]; intros k free pgdir tabs user s Hsp Hs Hf Hf0; [lia|]. cbn [deallocuvm_loop].
  destruct (decide (s < e)) as [Hlt|Hge].
  2:{ rewrite decide_False by (rewrite Hse; lia). exists k. split; [done|]. exists free. rewrite cut_done by lia. by split_and!. }
  rewrite decide_True by (rewrite Hse; lia). pose proof Hsp as [Hpt _ _ _ Hnone].
  assert (Hva : is_u32 (s * PGSIZE)) by (unfold is_u32, UPAGES, PGSIZE in *; lia).
  assert (Hdiv : s * PGSIZE / PGSIZE = s) by (unfold PGSIZE; apply Z.div_mul; lia).
  assert (Hnext : u32 (s * PGSIZE + PGSIZE) = (s + 1) * PGSIZE) by (rewrite u32_small; unfold is_u32, UPAGES, PGSIZE in *; lia).
  destruct (tabs !! (s / 1024)) as [t|] eqn:Ht.
  2:{ rewrite (run_bind _ _ _ 0 k) by (eapply walk_absent; [done..|by rewrite Hdiv]). rewrite decide_True by done.
      rewrite next_table by lia. destruct (IH k free pgdir tabs user ((s / 1024 + 1) * 1024) Hsp) as (k' & Hr & Hd); [divlia|divlia|lia|].
      exists k'. split; [done|]. unfold dealloced in *. rewrite (cut_skip s ((s / 1024 + 1) * 1024)) in Hd; [done|divlia|].
      intros n Hn. destruct (user !! n) as [f|] eqn:Hu; [|done]. destruct (user_tab _ _ _ _ _ _ _ Hsp Hu) as [t Htn].
      replace (n / 1024) with (s / 1024) in Htn by divlia. congruence. }
  destruct (po_tab _ _ _ _ Hpt _ _ Ht) as (_ & Htp & _ & _ & Hth).
  assert (Hnp : 0 ≤ s < NPAGES) by (unfold UPAGES, NPAGES in *; lia). destruct (page_index s Hnp) as [_ Hi].
  rewrite (run_bind _ _ _ (t + 4 * (s `mod` 1024)) k).
  2:{ rewrite (walk_present k free pgdir tabs _ false t) by (done || by rewrite Hdiv). unfold pte_addr. by rewrite (PTX_mod _ Hva), Hdiv. }
  rewrite decide_False by (apply page_ok_range in Htp; lia). rewrite (run_bind _ _ _ _ _ (rd32_word k t _ Htp Hi Hth)).
  assert (Hpte : word k t (s `mod` 1024) = pte k tabs s) by (unfold pte; by rewrite Ht). rewrite Hpte.
  destruct (user !! s) as [f|] eqn:Hu.
  - destruct (sp_map _ _ _ _ _ Hsp s f Hu) as (_ & Hpr & Hadr).
    destruct (unmap_frame k free pgdir tabs user s f t Hkend Hsp Hu Ht) as (Hnz & Hpv & k1 & k2 & Hk1 & Hk2 & Hsp2 & Hmem2 & Hmem2').
    rewrite (run_bind _ _ _ tt k2).
    2:{ rewrite Hpr, Hadr, Hpv. rewrite (run_bind _ _ _ tt k) by (by rewrite (proj2 (Z.eqb_neq _ _) Hnz)). by rewrite (run_bind _ _ _ _ _ Hk1). }
    rewrite Hnext. destruct (IH k2 (f :: free) pgdir tabs (delete s user) (s + 1) Hsp2) as (k' & Hr & free' & Hd1 & Hd2 & Hd3 & Hd4); [lia..|].
    exists k'. split; [done|]. exists free'. rewrite cut_delete in Hd1, Hd2, Hd3 by lia. split_and!; [done| | |].
    + rewrite Hd2, (vals_delete user s f Hu). simpl. by rewrite Permutation_middle.
    + intros q Hq. rewrite Hd3 by done. apply Hmem2. apply vals_elem in Hq as [n Hn]. rewrite cut_lookup in Hn.
      case_decide; [done|]. apply vals_elem. exists n. rewrite lookup_delete_ne; [done|]. intros <-. lia.
    + intros q Hq1 Hq2. rewrite Hd4 by done. apply Hmem2'; [|intros ->; apply Hq2, vals_elem; by eexists].
      intros ->. assert (Hin : f ∈ free' ++ vals (cut s e user)) by (rewrite Hd2; set_solver). apply elem_of_app in Hin as [?|[m Hm]%vals_elem]; [done|].
      rewrite cut_lookup in Hm. case_decide; [done|]. by assert (m = s) by (eapply (sp_inj _ _ _ _ _ Hsp); done); lia.
  - rewrite (run_bind _ _ _ tt k) by (by rewrite Hnone by (done || lia)). rewrite Hnext.
    destruct (IH k free pgdir tabs user (s + 1) Hsp) as (k' & Hr & Hd); [lia..|]. exists k'. split; [done|].
    unfold dealloced in *. rewrite (cut_skip s (s + 1)) in Hd; [done|lia|]. intros n Hn. by replace n with s by lia.
Qed.

(** The number of pages that hold [sz] bytes. *)
Definition npages (sz : Z) : Z := (sz + PGSIZE - 1) / PGSIZE.

Lemma deallocuvm_spec k free pgdir tabs user oldsz newsz : KERNBASE < kend → space k free pgdir tabs user →
  0 ≤ newsz < oldsz → oldsz ≤ KERNBASE →
  ∃ k', deallocuvm kend pgdir oldsz newsz k = Done newsz k' ∧ dealloced (npages newsz) (npages oldsz) k free pgdir tabs user k'.
Proof.
  intros Hkend Hsp Hsz Hold. unfold deallocuvm. rewrite decide_False by lia.
  rewrite PGROUNDUP_spec by (unfold KERNBASE, PGSIZE in *; lia). fold (npages newsz). rewrite Z.mul_comm.
  destruct (dealloc_loop_spec (npages oldsz) oldsz (Z.to_nat (oldsz / PGSIZE) + 2) Hkend Hold eq_refl k free pgdir tabs user (npages newsz) Hsp)
    as (k' & Hr & Hd); [unfold npages, PGSIZE; divlia|unfold npages, PGSIZE in *; divlia|lia|].
  exists k'. split; [|done]. by rewrite (run_bind _ _ _ _ _ Hr).
Qed.

(** A page from the free list, filled. *)
Lemma take_frame k f free pgdir tabs user (pg : page) : length pg = PGn → space k (f :: free) pgdir tabs user →
  ∃ k1 k2, kalloc k = Done f k1 ∧ k_mem k1 = k_mem k ∧ wr_bytes f pg k1 = Done tt k2 ∧ space k2 free pgdir tabs user ∧
    fresh_frame k2 free pgdir tabs user f ∧ k_mem k2 !! f = Some pg ∧
    (∀ q, q ≠ f → k_mem k2 !! q = k_mem k !! q) ∧ (∀ n, pte k2 tabs n = pte k tabs n).
Proof.
  intros Hpg Hsp. pose proof Hsp as [Hpt _ Hfr _ _]. pose proof (po_free _ _ _ _ Hpt) as Hfree.
  destruct (free_page k (f :: free) f Hfree ltac:(by left)) as [Hfp Hfh]. destruct (kalloc_spec kend k _ Hfree) as (k1 & Hk1 & Hfree1 & Hmem1).
  assert (Hfn : f ∉ free) by (by pose proof (fl_nodup kend _ _ Hfree) as [Hn _]%NoDup_cons).
  set (k2 := Kmem (k_use_lock k1) (k_freelist k1) (<[f := pg]> (k_mem k1))).
  assert (Hmem2 : ∀ q, q ≠ f → k_mem k2 !! q = k_mem k !! q) by (intros q Hq; simpl; by rewrite lookup_insert_ne, Hmem1).
  assert (Hmf : k_mem k2 !! f = Some pg) by (simpl; apply lookup_insert_eq).
  assert (Hfree2 : free_list kend k2 free) by (destruct Hfree1 as [H1 H2 H3]; constructor; [simpl; by apply chain_insert|done..]).
  assert (Hdir : f ≠ pgdir) by (intros ->; destruct (po_dir _ _ _ _ Hpt) as (_ & Hn & _); set_solver).
  assert (Htab : f ∉ vals tabs) by (intros [i Hi]%vals_elem; destruct (po_tab _ _ _ _ Hpt _ _ Hi) as (_ & _ & _ & Hn & _); set_solver).
  assert (Husr : f ∉ vals user) by (intros Hi; destruct (Hfr f Hi) as (_ & _ & Hn & _); set_solver).
  assert (Hpt2 : ∀ q, q = pgdir ∨ q ∈ vals tabs → k_mem k2 !! q = k_mem k !! q ∧ q ∉ free).
  { intros q Hq. split; [apply Hmem2; intros ->; naive_solver|]. intros Hin.
    destruct Hq as [->|[i Hi]%vals_elem]; [destruct (po_dir _ _ _ _ Hpt) as (_ & Hn & _); set_solver|].
    destruct (po_tab _ _ _ _ Hpt _ _ Hi) as (_ & _ & _ & Hn & _). set_solver. }
  exists k1, k2. split_and!; [done|done| | | |done|done|].
  - apply wr_page; [done| |done]. unfold has_page. by rewrite Hmem1.
  - eapply space_frame; [done..|]. intros q [Hq|[Hq|Hq]]; [auto|auto|]. destruct (Hfr q Hq) as (_ & _ & Hn & _).
    split; [apply Hmem2; intros ->; done|set_solver].
  - split_and!; [done| |done..]. by exists pg.
  - by apply (pt_frame k (f :: free) k2 free pgdir tabs).
Qed.

(** ** Growing *)

(** The pages of [s, e) are mapped to new zeroed frames; no page is lost. *)
Record alloced (s e : Z) (k : kmem) (free : list Z) (pgdir : Z) (tabs user : gmap Z Z) (k' : kmem) (free' : list Z) (tabs' user' : gmap Z Z) : Prop := {
  al_space : space k' free' pgdir tabs' user';
  al_pages : free' ++ vals tabs' ++ vals user' ≡ₚ free ++ vals tabs ++ vals user;
  al_old : ∀ n, ¬ (s ≤ n < e) → user' !! n = user !! n;
  al_pte : ∀ n, (0 ≤ n < NPAGES) → ¬ (s ≤ n < e) → pte k' tabs' n = pte k tabs n;
  al_mem : ∀ q, q ∈ vals user → k_mem k' !! q = k_mem k !! q;
  al_new : ∀ n, (s ≤ n < e) → ∃ f, user' !! n = Some f ∧ k_mem k' !! f = Some zero_page ∧
    pte k' tabs' n = entry (V2P f) (Z.lor PTE_W PTE_U) 0
}.

(** Memory has run out: the pages of [s, e) are unmapped, no page is lost. *)
Definition undone (s e : Z) (k : kmem) (free : list Z) (pgdir : Z) (tabs user : gmap Z Z) (k' : kmem) : Prop :=
  ∃ free' tabs', space k' free' pgdir tabs' (cut s e user) ∧
    free' ++ vals tabs' ++ vals (cut s e user) ≡ₚ free ++ vals tabs ++ vals user ∧
    ∀ q, q ∈ vals (cut s e user) → k_mem k' !! q = k_mem k !! q.

Lemma cut_vals s e user q : q ∈ vals (cut s e user) → q ∈ vals user.
Proof. rewrite !vals_elem. intros [n Hn]. rewrite cut_lookup in Hn. case_decide; [done|]. by exists n. Qed.

(** The clean-up when a page table cannot be allocated. *)
Lemma undo_frame k pgdir tabs user f newsz oldsz : KERNBASE < kend → space k [] pgdir tabs user → fresh_frame k [] pgdir tabs user f →
  0 ≤ oldsz < newsz → newsz < KERNBASE →
  ∃ k', (deallocuvm kend pgdir newsz oldsz;; kfree kend f;; mret 0) k = Done 0 k' ∧
    undone (npages oldsz) (npages newsz) k [f] pgdir tabs user k'.
Proof.
  intros Hkend Hsp (Hfp & Hfh & _ & Hfd & Hft & Hfu) Hsz Hnew.
  destruct (deallocuvm_spec k [] pgdir tabs user newsz oldsz Hkend Hsp Hsz ltac:(lia)) as (k1 & Hr1 & free1 & Hsp1 & Hp1 & Hm1 & _).
  simpl in Hp1. assert (Hff : f ∉ free1) by (intros Hin; apply Hfu; rewrite <-Hp1; set_solver).
  destruct (kfree_spec kend k1 free1 f (po_free _ _ _ _ (sp_pt _ _ _ _ _ Hsp1)) Hfp Hff) as (k2 & Hr2 & Hfree2 & Hm2).
  exists k2. split; [by rewrite (run_bind _ _ _ _ _ Hr1), (run_bind _ _ _ _ _ Hr2)|]. exists (f :: free1), tabs. split_and!.
  - eapply space_frame; [done..|]. intros q Hq. assert (Hqf : q ≠ f) by (intros ->; destruct Hq as [?|[?|?%cut_vals]]; done).
    split; [by apply Hm2|]. intros [?|Hin]%elem_of_cons; [done|]. destruct Hsp1 as [Hpt1 _ Hfr1 _ _].
    destruct Hq as [->|[[i Hi]%vals_elem|Hq]]; [by apply (po_dir _ _ _ _ Hpt1)| |by destruct (Hfr1 q Hq) as (_ & _ & ? & _)].
    by destruct (po_tab _ _ _ _ Hpt1 _ _ Hi) as (_ & _ & _ & ? & _).
  - simpl. rewrite <-Hp1. solve_Permutation.
  - intros q Hq. rewrite Hm2 by (intros ->; by apply cut_vals in Hq). auto.
Qed.

Lemma alloced_step s e k free pgdir tabs user f k1 free1 tabs1 k2 free2 tabs2 user2 :
  s < e → user !! s = None → f ∉ vals user → free1 ++ vals tabs1 ≡ₚ free ++ vals tabs →
  (∀ m, m ≠ s → 0 ≤ m < NPAGES → pte k1 tabs1 m = pte k tabs m) → (∀ q, q ∈ vals user → k_mem k1 !! q = k_mem k !! q) →
  k_mem k1 !! f = Some zero_page → pte k1 tabs1 s = entry (V2P f) (Z.lor PTE_W PTE_U) 0 → 0 ≤ s < NPAGES →
  alloced (s + 1) e k1 free1 pgdir tabs1 (<[s := f]> user) k2 free2 tabs2 user2 →
  alloced s e k (f :: free) pgdir tabs user k2 free2 tabs2 user2.
Proof.
  intros Hs Hu Hfu Hp Hpte Hmem Hz He Hsn [H1 H2 H3 H4 H5 H6]. rewrite vals_insert in H2 by done.
  assert (Hin : ∀ q, q = f ∨ q ∈ vals user → q ∈ vals (<[s := f]> user)) by (intros q; rewrite vals_insert, elem_of_cons by done; done).
  constructor; [done|..].
  - rewrite H2. transitivity (f :: (free1 ++ vals tabs1) ++ vals user); [solve_Permutation|]. rewrite Hp. solve_Permutation.
  - intros n Hn. rewrite H3 by lia. by rewrite lookup_insert_ne by lia.
  - intros n Hr Hn. rewrite H4, Hpte by lia. done.
  - intros q Hq. rewrite H5 by auto. auto.
  - intros n Hn. destruct (decide (n = s)) as [->|Hne]; [|apply H6; lia]. exists f. split_and!.
    + rewrite H3 by lia. apply lookup_insert_eq.
    + rewrite H5 by auto. done.
    + rewrite H4 by lia. done.
Qed.

Lemma undone_step s0 s e k free pgdir tabs user f k1 free1 tabs1 k2 :
  s0 ≤ s < e → user !! s = None → free1 ++ vals tabs1 ≡ₚ free ++ vals tabs → (∀ q, q ∈ vals user → k_mem k1 !! q = k_mem k !! q) →
  undone s0 e k1 free1 pgdir tabs1 (<[s := f]> user) k2 → undone s0 e k (f :: free) pgdir tabs user k2.
Proof.
  intros Hs Hu Hp Hmem (free2 & tabs2 & H1 & H2 & H3). rewrite vals_insert in H2 by done.
  assert (Hc : cut s0 e (<[s := f]> user) = cut s0 e user).
  { apply map_eq. intros n. rewrite !cut_lookup. case_decide; [done|]. by rewrite lookup_insert_ne by lia. }
  rewrite Hc in H1, H2, H3. exists free2, tabs2. split_and!; [done| |].
  - rewrite H2. transitivity (f :: (free1 ++ vals tabs1) ++ vals user); [solve_Permutation|]. rewrite Hp. solve_Permutation.
  - intros q Hq. rewrite H3 by done. by eapply Hmem, cut_vals.
Qed.

Lemma alloc_loop_spec oldsz newsz fuel : KERNBASE < kend → 0 ≤ oldsz → newsz < KERNBASE →
  ∀ k free pgdir tabs user s, space k free pgdir tabs user → npages oldsz ≤ s → (∀ n, s ≤ n < npages newsz → user !! n = None) →
  npages newsz - s < Z.of_nat fuel → (0 < fuel)%nat →
  ∃ r k', allocuvm_loop kend fuel pgdir (s * PGSIZE) oldsz newsz k = Done r k' ∧
    (r = newsz ∧ (∃ free' tabs' user', alloced s (npages newsz) k free pgdir tabs user k' free' tabs' user') ∨
     r = 0 ∧ undone (npages oldsz) (npages newsz) k free pgdir tabs user k').
Proof.
  intros Hkend Hold Hnew. set (e := npages newsz).
  assert (Hse : ∀ s, s * PGSIZE < newsz ↔ s < e) by (intros s; unfold e, npages, PGSIZE; clear; split; intros; divlia).
  assert (Heu : e ≤ UPAGES) by (unfold e, npages, KERNBASE, UPAGES, PGSIZE in *; change (2 ^ 19) with 524288; divlia).
  assert (Ho : 0 ≤ npages oldsz ∧ oldsz ≤ npages oldsz * PGSIZE) by (unfold npages, PGSIZE; divlia).
  induction fuel as [|fuel IH]; intros k free pgdir tabs user s Hsp Hs Hnone Hf Hf0; [lia|]. cbn [allocuvm_loop].
  destruct (decide (s < e)) as [Hlt|Hge].
  2:{ rewrite decide_False by (rewrite Hse; lia). exists newsz, k. split; [done|]. left. split; [done|]. exists free, tabs, user.
      constructor; [done..|]. intros n Hn. lia. }
  rewrite decide_True by (rewrite Hse; lia).
  assert (Hlt2 : oldsz < newsz) by (apply Hse in Hlt; unfold PGSIZE in *; lia).
  assert (Hnext : u32 (s * PGSIZE + PGSIZE) = (s + 1) * PGSIZE) by (rewrite u32_small; unfold is_u32, UPAGES, PGSIZE in *; lia).
  destruct free as [|f free].
  { rewrite (run_bind _ _ _ _ _ (kalloc_spec kend k [] (po_free _ _ _ _ (sp_pt _ _ _ _ _ Hsp)))). rewrite decide_True by done.
    destruct (deallocuvm_spec k [] pgdir tabs user newsz oldsz Hkend Hsp ltac:(lia) ltac:(lia)) as (k1 & Hr1 & free1 & Hsp1 & Hp1 & Hm1 & _).
    rewrite (run_bind _ _ _ _ _ Hr1). exists 0, k1. split; [done|]. right. split; [done|]. exists free1, tabs. split_and!; [done| |done].
    simpl in *. rewrite <-Hp1. solve_Permutation. }
  destruct (take_frame k f free pgdir tabs user zero_page zero_page_length Hsp) as (k1 & k2 & Hk1 & _ & Hk2 & Hsp2 & Hfresh & Hz & Hm2 & Hpte2).
  assert (Hfp : page_ok kend f) by apply Hfresh. assert (Hfu : f ∉ vals user) by apply Hfresh.
  rewrite (run_bind _ _ _ _ _ Hk1). rewrite decide_False by (apply page_ok_range in Hfp; lia). rewrite (run_bind _ _ _ _ _ Hk2).
  destruct (map_frame k2 free pgdir tabs user s f (Z.lor PTE_W PTE_U) Hsp2 Hfresh) as (r & k3 & free3 & tabs3 & Hk3 & Hp3 & Hm3 & Hpte3 & _ & Hcase);
    [lia|apply Hnone; lia|by split|]. rewrite (run_bind _ _ _ _ _ Hk3).
  assert (Hmu : ∀ q, q ∈ vals user → k_mem k3 !! q = k_mem k !! q) by (intros q Hq; rewrite Hm3 by auto; apply Hm2; intros ->; done).
  destruct Hcase as [(-> & Hsp3 & He)|(-> & -> & Hsp3 & Hfr3)].
  - rewrite decide_False by lia. rewrite Hnext.
    destruct (IH k3 free3 pgdir tabs3 (<[s := f]> user) (s + 1) Hsp3) as (r & k4 & Hr & Hc); [lia| |lia|lia|].
    { intros n Hn. rewrite lookup_insert_ne by lia. apply Hnone. lia. }
    exists r, k4. split; [done|]. destruct Hc as [(-> & free4 & tabs4 & user4 & Hal)|(-> & Hun)]; [left|right]; (split; [done|]).
    + exists free4, tabs4, user4. eapply alloced_step; [done|apply Hnone; lia|done|exact Hp3| |done| |done|unfold UPAGES, NPAGES in *; lia|exact Hal].
      * intros m Hne Hr'. rewrite Hpte3 by done. apply Hpte2.
      * rewrite Hm3 by auto. done.
    + apply (undone_step _ s e k free pgdir tabs user f k3 free3 tabs3 k4); [lia|apply Hnone; lia|done..].
  - rewrite decide_True by lia.
    destruct (undo_frame k3 pgdir tabs3 user f newsz oldsz Hkend Hsp3 Hfr3 ltac:(lia) Hnew) as (k4 & Hr & free4 & tabs4 & H1 & H2 & H3).
    fold e in H1, H2, H3. exists 0, k4. split; [done|]. right. split; [done|]. exists free4, tabs4. split_and!; [done| |].
    + rewrite H2. simpl in *. rewrite Hp3. solve_Permutation.
    + intros q Hq. rewrite H3 by done. by eapply Hmu, cut_vals.
Qed.

Lemma allocuvm_spec k free pgdir tabs user oldsz newsz : KERNBASE < kend → space k free pgdir tabs user →
  0 ≤ oldsz ≤ newsz → newsz < KERNBASE → (∀ n, npages oldsz ≤ n < npages newsz → user !! n = None) →
  ∃ r k', allocuvm kend pgdir oldsz newsz k = Done r k' ∧
    (r = newsz ∧ (∃ free' tabs' user', alloced (npages oldsz) (npages newsz) k free pgdir tabs user k' free' tabs' user') ∨
     r = 0 ∧ ∃ free' tabs', space k' free' pgdir tabs' user ∧ free' ++ vals tabs' ≡ₚ free ++ vals tabs ∧
       ∀ q, q ∈ vals user → k_mem k' !! q = k_mem k !! q).
Proof.
  intros Hkend Hsp Hsz Hnew Hnone. unfold allocuvm. rewrite !decide_False by lia.
  rewrite PGROUNDUP_spec by (unfold KERNBASE, PGSIZE in *; lia). fold (npages oldsz). rewrite Z.mul_comm.
  destruct (alloc_loop_spec oldsz newsz (Z.to_nat (newsz / PGSIZE) + 2) Hkend ltac:(lia) Hnew k free pgdir tabs user (npages oldsz) Hsp)
    as (r & k' & Hr & Hc); [lia|done|unfold npages, PGSIZE in *; divlia|lia|]. exists r, k'. split; [done|].
  destruct Hc as [?|(-> & free' & tabs' & H1 & H2 & H3)]; [by left|right]. split; [done|]. exists free', tabs'.
  assert (Hc : cut (npages oldsz) (npages newsz) user = user).
  { apply map_eq. intros n. rewrite cut_lookup. case_decide; [|done]. by rewrite Hnone. }
  rewrite Hc in H1, H2, H3. split_and!; [done| |done]. rewrite !app_assoc in H2. by apply Permutation_app_inv_r in H2.
Qed.
End spaces.


(** ** Witness *)

(** An empty page directory and two free pages. *)
Definition demo_space : kmem :=
  Kmem 1 0x80117000 (<[0x80116000 := zero_page]> (<[0x80117000 := put32 0 0x80118000 junk_page]>
    (<[0x80118000 := put32 0 0 junk_page]> ∅))).

Lemma demo_space_ok : space demo_kend demo_space [0x80117000; 0x80118000] 0x80116000 ∅ ∅.
Proof.
  assert (Hj : ∀ v, length (put32 0 v junk_page) = PGn).
  { intros v. rewrite put32_length; unfold junk_page; rewrite length_replicate; [done|]. pose proof PGn_Z. unfold PGSIZE in *. lia. }
  assert (Hg : ∀ v, is_u32 v → get32 0 (put32 0 v junk_page) = v) by (intros v Hv; apply get32_put32_eq; [lia|done]).
  assert (Hok : ∀ v, v ∈ [0x80116000; 0x80117000; 0x80118000] → page_ok demo_kend v).
  { intros v Hv. unfold page_ok, demo_kend, KERNBASE, PHYSTOP.
    repeat (apply elem_of_cons in Hv as [->|Hv]; [split_and!; [reflexivity|lia..]|]). by apply elem_of_nil in Hv. }
  constructor; try (by intros; rewrite lookup_empty in *).
  - constructor; try (by intros; rewrite lookup_empty in *).
    + constructor; [|repeat constructor; apply Hok; set_solver|repeat constructor; set_solver].
      split; [done|]. eexists. split; [done|]. split; [apply Hj|]. rewrite Hg by (unfold is_u32; lia).
      split; [done|]. eexists. split; [done|]. split; [apply Hj|]. by rewrite Hg.
    + split_and!; [apply Hok; set_solver|set_solver|]. exists zero_page. split; [done|apply length_replicate].
    + intros i Hi. rewrite lookup_empty. by rewrite (word_zero demo_space 0x80116000 i).
  - intros f [i Hi]%vals_elem. by rewrite lookup_empty in Hi.
Qed.

