(* ===== verification/VmFork.v ===== *)
(** * Whole address spaces (vm.c [freevm], [setupkvm], [copyuvm])

    A page directory is built with the kernel's mappings, copied for a child
    process, and taken apart. *)

From S2P Require Import Prelude Params Spinlock Kalloc Vm VmProof.

Local Open Scope Z_scope.

Section fork.
Variable kend : Z.
Hypothesis Hkend : KERNBASE < kend.

(** ** freevm *)

Lemma cut_next i (tabs : gmap Z Z) : 0 ≤ i → cut 0 (i + 1) tabs = delete i (cut 0 i tabs).
Proof.
  intros Hi. apply map_eq. intros n. rewrite cut_lookup. destruct (decide (n = i)) as [->|Hne].
  - rewrite lookup_delete_eq. by rewrite decide_True by lia.
  - rewrite lookup_delete_ne, cut_lookup by done. destruct (decide (0 ≤ n < i)); [by rewrite decide_True by lia|by rewrite decide_False by lia].
Qed.

(** The loop frees the page tables. *)
Lemma free_tables k free pgdir tabs : pt_ok kend k free pgdir tabs →
  ∃ k' free', mfor (seqZ 0 NPDENTRIES) (λ i, e ← rd32 (u32 (pgdir + 4 * i)); if present e then kfree kend (P2V (PTE_ADDR e)) else mret tt) k = Done tt k' ∧
    free_list kend k' free' ∧ free' ≡ₚ free ++ vals tabs ∧ ∀ q, q ∉ free' → k_mem k' !! q = k_mem k !! q.
Proof.
  intros [Hfree (Hpd & Hdf & Hpg) Htab Hinj Hpde].
  assert (Hwp : wp (mfor (seqZ 0 NPDENTRIES) (λ i, e ← rd32 (u32 (pgdir + 4 * i)); if present e then kfree kend (P2V (PTE_ADDR e)) else mret tt))
    (λ _ k', ∃ free', free_list kend k' free' ∧ free' ≡ₚ free ++ vals tabs ∧ ∀ q, q ∉ free' → k_mem k' !! q = k_mem k !! q) k).
  { eapply (wp_mfor (λ l k', ∃ free', free_list kend k' free' ∧ free' ++ vals (cut 0 (Z.of_nat (length l)) tabs) ≡ₚ free ++ vals tabs ∧
      ∀ q, q ∉ free' → k_mem k' !! q = k_mem k !! q)).
    - exists free. rewrite cut_done by (simpl; lia). done.
    - intros l1 i l2 k1 Hl (free1 & Hf1 & Hp1 & Hm1).
      assert (Hi : seqZ 0 NPDENTRIES !! length l1 = Some i) by (rewrite Hl; by apply list_lookup_middle). apply lookup_seqZ in Hi as [-> Hlt].
      unfold NPDENTRIES in Hlt. set (i := Z.of_nat (length l1)) in *. rewrite Z.add_0_l.
      assert (Hd1 : pgdir ∉ free1).
      { intros Hin. assert (Hin2 : pgdir ∈ free ++ vals tabs) by (rewrite <-Hp1; set_solver). apply elem_of_app in Hin2 as [?|[j Hj]%vals_elem]; [done|].
        by destruct (Htab _ _ Hj) as (_ & _ & ? & _). }
      assert (Hpg1 : has_page k1 pgdir) by (destruct Hpg as (pg & Hp & Hlg); exists pg; by rewrite Hm1).
      destruct (word_addr kend pgdir i Hpd ltac:(lia)) as (Hu & _ & _). rewrite Hu. apply wp_bind.
      eapply wp_done; [by apply (rd32_word kend); [|lia|]|]. assert (Hw : word k1 pgdir i = word k pgdir i) by (unfold word; by rewrite Hm1). rewrite Hw.
      rewrite length_app, Nat2Z.inj_add. change (Z.of_nat (length [i])) with 1. fold i. rewrite cut_next by lia.
      specialize (Hpde i ltac:(lia)). destruct (tabs !! i) as [t|] eqn:Ht.
      + destruct (Htab _ _ Ht) as (_ & Htp & Htd & Htf & _). destruct (pde_entry kend t Htp) as (Hpr & Hadr & _). rewrite Hpde, Hpr, Hadr.
        assert (Hct : cut 0 i tabs !! i = Some t) by (rewrite cut_lookup, decide_False by lia; done).
        assert (Ht1 : t ∉ free1).
        { intros Hin. assert (Hnd : NoDup (free1 ++ vals (cut 0 i tabs))).
          { rewrite Hp1. apply NoDup_app. split; [apply Hfree|]. split; [intros q Hq [j Hj]%vals_elem; by destruct (Htab _ _ Hj) as (_ & _ & _ & ? & _)|].
            unfold vals. apply NoDup_fmap_2_strong; [|apply NoDup_map_to_list]. intros [j1 s1] [j2 s2] H1%elem_of_map_to_list H2%elem_of_map_to_list Heq.
            simpl in Heq. subst s2. f_equal. by eapply Hinj. }
          apply NoDup_app in Hnd as (_ & Hs & _). apply (Hs t Hin), vals_elem. by exists i. }
        destruct (kfree_spec kend k1 free1 t Hf1 Htp Ht1) as (k2 & Hrun & Hf2 & Hm2). eapply wp_done; [exact Hrun|].
        exists (t :: free1). split; [done|]. split.
        * rewrite <-Hp1, (vals_delete _ i t Hct). solve_Permutation.
        * intros q Hq. rewrite Hm2, Hm1 by set_solver. done.
      + rewrite Hpde. apply wp_ret. exists free1. split; [done|]. rewrite delete_id by (rewrite cut_lookup; by repeat case_decide). done.
    - intros k1 (free1 & Hf1 & Hp1 & Hm1). exists free1. split; [done|]. split; [|done].
      assert (Hc : cut 0 (Z.of_nat (length (seqZ 0 NPDENTRIES))) tabs = ∅).
      { rewrite length_seqZ. unfold NPDENTRIES. apply map_eq. intros n. rewrite cut_lookup, lookup_empty. case_decide as Hn; [done|].
        destruct (tabs !! n) as [t|] eqn:Ht; [|done]. destruct (Htab _ _ Ht) as (? & _). lia. }
      rewrite Hc in Hp1. unfold vals at 1 in Hp1. rewrite map_to_list_empty in Hp1. by rewrite app_nil_r in Hp1. }
  apply wp_inv in Hwp as ([] & k' & Hrun & free' & H1 & H2 & H3). by exists k', free'.
Qed.

Lemma cut_user k free pgdir tabs user : space kend k free pgdir tabs user → cut (npages 0) (npages KERNBASE) user = ∅.
Proof.
  intros Hsp. apply map_eq. intros n. rewrite cut_lookup, lookup_empty. case_decide as Hn; [done|]. destruct (user !! n) as [f|] eqn:Hu; [|done].
  destruct (sp_map _ _ _ _ _ _ Hsp n f Hu) as (Hr & _). change (npages 0) with 0 in Hn. change (npages KERNBASE) with UPAGES in Hn. lia.
Qed.

Lemma freevm_spec k free pgdir tabs user : space kend k free pgdir tabs user →
  ∃ k' free', freevm kend pgdir k = Done tt k' ∧ free_list kend k' free' ∧ free' ≡ₚ pgdir :: free ++ vals tabs ++ vals user ∧
    ∀ q, q ∉ free' → k_mem k' !! q = k_mem k !! q.
Proof.
  intros Hsp. pose proof (po_dir _ _ _ _ _ (sp_pt _ _ _ _ _ _ Hsp)) as (Hpd & Hdf & _). unfold freevm.
  rewrite (run_bind _ _ _ tt k) by (apply page_ok_range in Hpd; rewrite (proj2 (Z.eqb_neq _ _)) by lia; done).
  destruct (deallocuvm_spec kend k free pgdir tabs user KERNBASE 0 Hkend Hsp ltac:(done) ltac:(done)) as (k1 & Hr1 & free1 & Hsp1 & Hp1 & _ & Hm1).
  rewrite (cut_user _ _ _ _ _ Hsp) in Hsp1, Hp1. assert (Hv0 : vals ∅ = []) by (unfold vals; by rewrite map_to_list_empty). rewrite Hv0, app_nil_r in Hp1.
  rewrite (run_bind _ _ _ _ _ Hr1). destruct (free_tables k1 free1 pgdir tabs (sp_pt _ _ _ _ _ _ Hsp1)) as (k2 & free2 & Hr2 & Hf2 & Hp2 & Hm2).
  rewrite (run_bind _ _ _ _ _ Hr2). assert (Hd2 : pgdir ∉ free2).
  { rewrite Hp2, Hp1. intros [[Hin|Hin]%elem_of_app|[i Hi]%vals_elem]%elem_of_app; [done| |].
    - by destruct (sp_frame _ _ _ _ _ _ Hsp _ Hin) as (_ & _ & _ & ? & _).
    - by destruct (po_tab _ _ _ _ _ (sp_pt _ _ _ _ _ _ Hsp) _ _ Hi) as (_ & _ & ? & _). }
  destruct (kfree_spec kend k2 free2 pgdir Hf2 Hpd Hd2) as (k3 & Hr3 & Hf3 & Hm3). exists k3, (pgdir :: free2). split; [exact Hr3|]. split; [done|]. split.
  - rewrite Hp2, Hp1. solve_Permutation.
  - intros q Hq. apply not_elem_of_cons in Hq as [Hq1 Hq2]. rewrite Hm3, Hm2 by done. rewrite Hp2 in Hq2. apply not_elem_of_app in Hq2 as [Hq2 Hq3].
    by apply Hm1.
Qed.
(** ** setupkvm *)

(** The pages of a range of [kmap], and what they are mapped to. *)
Definition range_start (r : Z * Z * Z * Z) : Z := r.1.1.1 / PGSIZE.
Definition range_size (r : Z * Z * Z * Z) : Z := u32 (r.1.2 - r.1.1.2).
Definition range_count (r : Z * Z * Z * Z) : Z := (r.1.1.1 + range_size r - 1) / PGSIZE - range_start r + 1.
Definition in_range (r : Z * Z * Z * Z) (m : Z) : Prop := range_start r ≤ m < range_start r + range_count r.
#[local] Instance in_range_dec r m : Decision (in_range r m).
Proof. unfold in_range. apply _. Defined.

Fixpoint kentry (l : list (Z * Z * Z * Z)) (f : Z → Z) (m : Z) : Z :=
  match l with
  | [] => f m
  | r :: l => if decide (in_range r m) then entry r.1.1.2 r.2 (m - range_start r) else kentry l f m
  end.

(** Ranges in ascending order, from page [b] on. *)
Fixpoint ranges_ok (b : Z) (l : list (Z * Z * Z * Z)) : Prop :=
  match l with
  | [] => True
  | r :: l => b ≤ range_start r ∧ is_u32 r.1.1.2 ∧ is_u32 r.2 ∧ 0 ≤ r.1.1.1 ∧ 0 < range_size r ∧ r.1.1.1 + range_size r ≤ 2 ^ 32 ∧
      ranges_ok (range_start r + range_count r) l
  end.

Lemma range_count_pos r : 0 ≤ r.1.1.1 → 0 < range_size r → 0 < range_count r.
Proof. intros. unfold range_count, range_start, PGSIZE. divlia. Qed.

Lemma kentry_low l b f m : ranges_ok b l → m < b → kentry l f m = f m.
Proof.
  revert b. induction l as [|r l IH]; intros b Hok Hm; cbn [kentry]; [done|]. destruct Hok as (H1 & _ & _ & H2 & H3 & _ & Hok).
  pose proof (range_count_pos r H2 H3). rewrite decide_False by (unfold in_range; lia). eapply IH; [exact Hok|lia].
Qed.

Lemma kentry_same l f f' m : f m = f' m → kentry l f m = kentry l f' m.
Proof. intros Hf. induction l as [|r l IH]; cbn [kentry]; [done|]. by case_decide. Qed.

(** The address space without user pages. *)
Lemma empty_space k free pgdir tabs : pt_ok kend k free pgdir tabs → (∀ m, 0 ≤ m < UPAGES → present (pte k tabs m) = false) → space kend k free pgdir tabs ∅.
Proof.
  intros Hpt Hno. constructor; [done|by intros; rewrite lookup_empty in *| |by intros; rewrite lookup_empty in *|auto].
  intros f [n Hn]%vals_elem. by rewrite lookup_empty in Hn.
Qed.

Lemma vals_empty : vals ∅ = [].
Proof. unfold vals. by rewrite map_to_list_empty. Qed.

(** Pages that are neither free nor part of the page tables. *)
Lemma grows_out k free tabs k' free' tabs' pgdir q : grows kend k free tabs k' free' tabs' pgdir → q ∉ pgdir :: free ++ vals tabs →
  k_mem k' !! q = k_mem k !! q.
Proof.
  intros Hg [Hq1 Hq2]%not_elem_of_cons. apply (gr_mem _ _ _ _ _ _ _ _ Hg); [done|]. intros i Hi. apply Hq2.
  rewrite <-(gr_pages _ _ _ _ _ _ _ _ Hg). apply elem_of_app. right. apply vals_elem. by exists i.
Qed.

Lemma vals_length (c : Z) (m : gmap Z Z) : 0 ≤ c → (∀ i t, m !! i = Some t → 0 ≤ i < c) → Z.of_nat (length (vals m)) ≤ c.
Proof.
  intros Hc Hm. assert (Hl : (length (map_to_list m).*1 ≤ length (seqZ 0 c))%nat).
  { apply submseteq_length, NoDup_submseteq; [apply NoDup_fst_map_to_list|]. intros i Hi. apply list_elem_of_fmap in Hi as ([j t] & -> & Hin%elem_of_map_to_list).
    apply elem_of_seqZ. simpl. specialize (Hm _ _ Hin). lia. }
  unfold vals. rewrite length_seqZ in Hl. rewrite length_fmap in *. lia.
Qed.

Lemma tabs_length k free pgdir tabs : pt_ok kend k free pgdir tabs → Z.of_nat (length (vals tabs)) ≤ 1024.
Proof. intros Hpt. apply vals_length; [lia|]. intros i t Ht. by apply (po_tab _ _ _ _ _ Hpt) in Ht as (? & _). Qed.

(** Memory has run out: there were not more than [c] pages, and all are free
    again but for the pages [lost]. *)
Definition gave_up (c : Z) (lost : list Z) (k : kmem) (pages : list Z) (k' : kmem) : Prop :=
  Z.of_nat (length pages) ≤ c ∧ ∃ free', free_list kend k' free' ∧ free' ++ lost ≡ₚ pages ∧ ∀ q, q ∉ pages → k_mem k' !! q = k_mem k !! q.

(** When no page is left, [freevm] makes all the pages free again. *)
Lemma freevm_gave_up c lost k0 pages k pgdir tabs user : space kend k [] pgdir tabs user → pgdir :: vals tabs ++ vals user ++ lost ≡ₚ pages →
  (∀ q, q ∉ pages → k_mem k !! q = k_mem k0 !! q) → Z.of_nat (length (vals user ++ lost)) ≤ c →
  ∃ k', freevm kend pgdir k = Done tt k' ∧ gave_up (1025 + c) lost k0 pages k'.
Proof.
  intros Hsp Hp Hm Hc. destruct (freevm_spec _ _ _ _ _ Hsp) as (k' & free' & Hrun & Hf & Hp' & Hm'). exists k'. split; [done|]. split.
  - rewrite <-Hp. pose proof (tabs_length _ _ _ _ (sp_pt _ _ _ _ _ _ Hsp)). simpl. rewrite length_app. lia.
  - exists free'. split; [done|]. split; [rewrite Hp', <-Hp; simpl; by rewrite <-app_assoc|].
    intros q Hq. rewrite Hm'; [by apply Hm|]. rewrite Hp'. rewrite <-Hp in Hq. set_solver.
Qed.

Lemma map_all_spec pgdir l : ∀ b k free tabs, pt_ok kend k free pgdir tabs → UPAGES ≤ b → ranges_ok b l →
  (∀ m, b ≤ m < NPAGES ∨ 0 ≤ m < UPAGES → present (pte k tabs m) = false) →
  ∃ r k', map_all kend pgdir l k = Done r k' ∧
    (r = pgdir ∧ (∃ free' tabs', grows kend k free tabs k' free' tabs' pgdir ∧ ∀ m, 0 ≤ m < NPAGES → pte k' tabs' m = kentry l (pte k tabs) m) ∨
     r = 0 ∧ gave_up 1025 [] k (pgdir :: free ++ vals tabs) k').
Proof.
  induction l as [|r l IH]; intros b k free tabs Hpt Hb Hok Hno.
  { exists pgdir, k. split; [done|]. left. split; [done|]. exists free, tabs. split; [by apply grows_refl|done]. }
  destruct r as [[[virt ps] pe] perm] eqn:Hr. rewrite <-Hr in Hok |- *. destruct Hok as (H1 & H2 & H3 & H4 & H5 & H6 & Hok).
  assert (Hvirt : virt = r.1.1.1) by by subst r. pose proof (range_count_pos r H4 H5) as Hcp.
  assert (Hend : (r.1.1.1 + range_size r - 1) / PGSIZE = range_start r + range_count r - 1) by (unfold range_count; lia).
  assert (Hlim : range_start r + range_count r ≤ NPAGES).
  { rewrite <-Z.lt_pred_le, <-Z.sub_1_r, <-Hend. apply va_page. unfold is_u32. lia. }
  destruct (mappages_spec kend k free pgdir tabs r.1.1.1 (range_size r) r.1.1.2 r.2 Hpt H2 H3 H4 H5 H6) as (v & k1 & free1 & tabs1 & Hrun & Hg & Hcase).
  { intros m Hm. apply Hno. left. rewrite Hend in Hm. unfold range_start in *. lia. }
  cbv zeta in Hcase. fold (range_start r) in Hcase. rewrite Hend in Hcase. replace (range_start r + range_count r - 1 - range_start r + 1) with (range_count r) in Hcase by lia.
  cbn [map_all]. subst r. cbn [fst snd] in *. unfold range_size in Hrun. cbn [fst snd] in Hrun. rewrite (run_bind _ _ _ _ _ Hrun). set (r := (virt, ps, pe, perm)) in *.
  assert (Hlow : ∀ c m, 0 ≤ c ≤ range_count r → mapped (range_start r) c ps perm (pte k tabs) (pte k1 tabs1) → 0 ≤ m < NPAGES → ¬ in_range r m → pte k1 tabs1 m = pte k tabs m).
  { intros c m Hc Hmap Hm Hn. rewrite Hmap by done. unfold in_range in Hn. by rewrite decide_False by lia. }
  destruct Hcase as [[-> Hmap]|(-> & -> & d & Hd & Hmap)].
  - rewrite decide_False by lia. destruct (IH (range_start r + range_count r) k1 free1 tabs1) as (v & k2 & Hrun2 & Hcase2); [apply Hg|lia|done| |].
    { intros m Hm. assert (Hmr : 0 ≤ m < NPAGES) by (unfold UPAGES, NPAGES in *; lia).
      rewrite (Hlow (range_count r)) by (done || lia || (unfold in_range; lia)). apply Hno. lia. }
    exists v, k2. split; [done|]. destruct Hcase2 as [(-> & free2 & tabs2 & Hg2 & Hpte2)|(-> & Hl2 & free2 & Hf2 & Hp2 & Hm2)]; [left|right]; (split; [done|]).
    + exists free2, tabs2. split; [by eapply grows_trans|]. intros m Hm. rewrite Hpte2 by done. cbn [kentry]. case_decide as Hin.
      * rewrite (kentry_low _ (range_start r + range_count r)) by (done || (unfold in_range in Hin; lia)). rewrite Hmap by done. by rewrite decide_True.
      * apply kentry_same. by apply (Hlow (range_count r)); [lia|..].
    + rewrite (gr_pages _ _ _ _ _ _ _ _ Hg) in Hl2, Hp2. split; [done|]. exists free2. split; [done|]. split; [done|].
      intros q Hq. rewrite Hm2 by (by rewrite (gr_pages _ _ _ _ _ _ _ _ Hg)). by eapply grows_out.
  - rewrite decide_True by lia. assert (Hsp : space kend k1 [] pgdir tabs1 ∅).
    { apply empty_space; [apply Hg|]. intros m Hm. rewrite (Hlow d) by (done || lia || (unfold in_range, UPAGES, NPAGES in *; lia)). apply Hno. by right. }
    destruct (freevm_gave_up 0 [] k (pgdir :: free ++ vals tabs) k1 pgdir tabs1 ∅ Hsp) as (k2 & Hrun2 & Hg2);
      [rewrite vals_empty, app_nil_r; by rewrite <-(gr_pages _ _ _ _ _ _ _ _ Hg)|by intros; eapply grows_out|by rewrite vals_empty|].
    rewrite (run_bind _ _ _ _ _ Hrun2). exists 0, k2. split; [done|]. by right.
Qed.

(** A directory without entries, in a page from the free list. *)
Lemma new_dir k d free : free_list kend k (d :: free) → ∃ k1 k2, kalloc k = Done d k1 ∧ wr_bytes d zero_page k1 = Done tt k2 ∧
  pt_ok kend k2 free d ∅ ∧ ∀ q, q ≠ d → k_mem k2 !! q = k_mem k !! q.
Proof.
  intros Hfree. destruct (free_page kend k (d :: free) d Hfree ltac:(by left)) as [Hdp Hdh]. destruct (kalloc_spec kend k _ Hfree) as (k1 & Hk1 & Hfree1 & Hmem1).
  assert (Hdn : d ∉ free) by (by pose proof (fl_nodup kend _ _ Hfree) as [Hn _]%NoDup_cons).
  set (k2 := Kmem (k_use_lock k1) (k_freelist k1) (<[d := zero_page]> (k_mem k1))). exists k1, k2. split; [done|]. split.
  { apply wr_page with (kend := kend); [done| |apply zero_page_length]. unfold has_page. by rewrite Hmem1. }
  split; [|intros q Hq; simpl; by rewrite lookup_insert_ne, Hmem1].
  constructor; try (by intros; rewrite lookup_empty in *).
  - destruct Hfree1 as [H1 H2 H3]. constructor; [simpl; by apply chain_insert|done..].
  - split; [done|]. split; [done|]. exists zero_page. split; [apply lookup_insert_eq|apply zero_page_length].
  - intros i Hi. rewrite lookup_empty, word_zero; [done|apply lookup_insert_eq|done].
Qed.

(** What kernel.ld says about the kernel's image. *)
Definition kdata_ok (kdata : Z) : Prop := kdata `mod` PGSIZE = 0 ∧ KERNLINK < kdata < KERNBASE + PHYSTOP.

Lemma kmap_ranges kdata : kdata_ok kdata → ranges_ok UPAGES (kmap kdata).
Proof.
  unfold kdata_ok, KERNLINK, KERNBASE, EXTMEM, PHYSTOP, PGSIZE. intros [Hm Hr].
  assert (Hv : V2P kdata = kdata - 2147483648) by (unfold V2P, KERNBASE; apply u32_small; unfold is_u32; lia).
  assert (Hs2 : u32 (V2P kdata - 1048576) = kdata - 2148532224) by (rewrite Hv; rewrite u32_small; [|unfold is_u32]; lia).
  assert (Hs3 : u32 (234881024 - V2P kdata) = 2382364672 - kdata) by (rewrite Hv; rewrite u32_small; [|unfold is_u32]; lia).
  unfold kmap. cbn [ranges_ok fst snd]. unfold range_start, range_count, range_size. cbn [fst snd].
  change (V2P KERNLINK) with 1048576. unfold PHYSTOP. rewrite Hs2, Hs3, Hv. unfold is_u32, range_start, UPAGES, PGSIZE, KERNLINK, KERNBASE, EXTMEM, DEVSPACE, PTE_W.
  cbn [fst snd]. change (u32 (1048576 - 0)) with 1048576. change (u32 (0 - 4261412864)) with 33554432. change (2 ^ 32) with 4294967296. change (2 ^ 19) with 524288.
  repeat split; divlia.
Qed.

(** The kernel's part of the page tables: the ranges of [kmap], and nothing else. *)
Definition kernel_part (kdata : Z) (k : kmem) (tabs : gmap Z Z) : Prop :=
  ∀ m, UPAGES ≤ m < NPAGES → pte k tabs m = kentry (kmap kdata) (λ _, 0) m.

Lemma setupkvm_spec kdata k free : kdata_ok kdata → free_list kend k free →
  ∃ r k', setupkvm kend kdata k = Done r k' ∧
    (r ≠ 0 ∧ (∃ free' tabs', space kend k' free' r tabs' ∅ ∧ r :: free' ++ vals tabs' ≡ₚ free ∧ kernel_part kdata k' tabs' ∧
       ∀ q, q ∉ free → k_mem k' !! q = k_mem k !! q) ∨
     r = 0 ∧ gave_up 1025 [] k free k').
Proof.
  intros Hkd Hfree. unfold setupkvm. destruct free as [|d free].
  { rewrite (run_bind _ _ _ _ _ (kalloc_spec kend k [] Hfree)). rewrite decide_True by done. exists 0, k. split; [done|]. right. split; [done|]. split; [done|]. by exists []. }
  destruct (new_dir k d free Hfree) as (k1 & k2 & Hr1 & Hr2 & Hpt & Hm). rewrite (run_bind _ _ _ _ _ Hr1).
  pose proof (page_ok_range kend d (proj1 (po_dir _ _ _ _ _ Hpt))) as Hdr. rewrite decide_False by lia. rewrite (run_bind _ _ _ _ _ Hr2).
  rewrite (run_bind _ _ _ tt k2) by done. pose proof (kmap_ranges kdata Hkd) as Hok.
  destruct (map_all_spec d (kmap kdata) UPAGES k2 free ∅ Hpt ltac:(done) Hok ltac:(done)) as (r & k3 & Hr3 & Hcase). exists r, k3. split; [done|].
  rewrite vals_empty, app_nil_r in Hcase. destruct Hcase as [(-> & free' & tabs' & Hg & Hpte)|(-> & Hl & free' & Hf & Hp & Hm3)]; [left|right].
  - split; [lia|]. pose proof (gr_pages _ _ _ _ _ _ _ _ Hg) as Hp. rewrite vals_empty, app_nil_r in Hp. exists free', tabs'. split_and!.
    + apply empty_space; [apply Hg|]. intros m Hmr. rewrite Hpte by (unfold UPAGES, NPAGES in *; lia). by rewrite (kentry_low _ UPAGES) by (done || lia).
    + by rewrite Hp.
    + intros m Hmr. by rewrite Hpte by (unfold UPAGES, NPAGES in *; lia).
    + intros q Hq. rewrite (grows_out _ _ _ _ _ _ _ q Hg) by (by rewrite vals_empty, app_nil_r). apply Hm. set_solver.
  - split; [done|]. split; [done|]. exists free'. split_and!; [done|done|]. intros q Hq. rewrite Hm3 by done. apply Hm. set_solver.
Qed.

(** ** copyuvm *)

Section copy.
(** The parent's address space and the pages that are free at the call. *)
Variables (k0 : kmem) (free0 : list Z) (pgdir : Z) (ptabs puser : gmap Z Z) (kdata : Z).
Hypothesis Hparent : space kend k0 free0 pgdir ptabs puser.

(** The child's address space after its pages below [s] have been copied. *)
Record copied (s : Z) (d : Z) (k : kmem) (free : list Z) (tabs user : gmap Z Z) : Prop := {
  cp_space : space kend k free d tabs user;
  cp_pages : d :: free ++ vals tabs ++ vals user ≡ₚ free0;
  cp_mem : ∀ q, q ∉ free0 → k_mem k !! q = k_mem k0 !! q;
  cp_kern : kernel_part kdata k tabs;
  cp_none : ∀ n, ¬ (0 ≤ n < s) → user !! n = None;
  cp_copy : ∀ n, (0 ≤ n < s) → ∃ pf f, puser !! n = Some pf ∧ user !! n = Some f ∧ k_mem k !! f = k_mem k0 !! pf ∧
    pte k tabs n = entry (V2P f) (PTE_FLAGS (pte k0 ptabs n)) 0
}.

(** The parent's address space stays as it is. *)
Lemma parent_same s d k free tabs user : copied s d k free tabs user →
  space kend k free pgdir ptabs puser ∧ ∀ n, pte k ptabs n = pte k0 ptabs n.
Proof.
  intros [Hsp Hp Hm _ _ _]. pose proof Hparent as [Hpt _ Hfr _ _]. assert (Hsame : ∀ q, q = pgdir ∨ q ∈ vals ptabs ∨ q ∈ vals puser → q ∉ free0).
  { intros q [->|[[i Hi]%vals_elem|Hq]]; [by apply Hpt|by apply (po_tab _ _ _ _ _ Hpt) in Hi as (_ & _ & _ & ? & _)|by apply Hfr]. }
  assert (Hf : ∀ q, q ∉ free0 → q ∉ free) by (intros q Hq Hin; apply Hq; rewrite <-Hp; set_solver).
  pose proof (po_free _ _ _ _ _ (sp_pt _ _ _ _ _ _ Hsp)) as Hfree. split.
  - eapply space_frame; [exact Hparent|done|]. intros q Hq%Hsame. auto.
  - eapply (pt_frame kend k0 free0); [exact Hpt|done|]. intros q Hq. assert (q ∉ free0) by (apply Hsame; naive_solver). auto.
Qed.

Lemma rd_page k p (pg : page) : page_ok kend p → k_mem k !! p = Some pg → length pg = PGn → rd_bytes p PGn k = Done pg k.
Proof.
  intros Hp Hpg Hl. destruct (word_addr kend p 0 Hp ltac:(lia)) as (_ & Hr & Ho). rewrite Z.add_0_r in Hr, Ho.
  unfold rd_bytes, get_page. rewrite Hr, Ho, Hpg. unfold bytes_at. change (Z.to_nat (4 * 0)) with 0%nat. rewrite drop_0. by rewrite take_ge by lia.
Qed.

(** [walkpgdir] finds the entry of a user page. *)
Lemma walk_user k free dir tabs user n f : space kend k free dir tabs user → user !! n = Some f →
  ∃ a, walkpgdir dir (n * PGSIZE) false k = Done a k ∧ a ≠ 0 ∧ rd32 a k = Done (pte k tabs n) k.
Proof.
  intros Hsp Hu. pose proof (sp_pt _ _ _ _ _ _ Hsp) as Hpt. destruct (sp_map _ _ _ _ _ _ Hsp n f Hu) as (Hn & _ & _). destruct (user_tab _ _ _ _ _ _ _ _ Hsp Hu) as [t Ht].
  assert (Hva : is_u32 (n * PGSIZE)) by (unfold is_u32, UPAGES, PGSIZE in *; lia).
  assert (Hdiv : n * PGSIZE / PGSIZE = n) by (unfold PGSIZE; apply Z.div_mul; lia).
  destruct (po_tab _ _ _ _ _ Hpt _ _ Ht) as (_ & Htp & _ & _ & Hth). destruct (page_index n ltac:(unfold UPAGES, NPAGES in *; lia)) as [_ Hi].
  exists (t + 4 * (n `mod` 1024)). split_and!.
  - rewrite (walk_present kend k free dir tabs _ false t) by (done || by rewrite Hdiv). unfold pte_addr. by rewrite (PTX_mod _ Hva), Hdiv.
  - apply page_ok_range in Htp. lia.
  - rewrite (rd32_word kend k t _ Htp Hi Hth). unfold pte. by rewrite Ht.
Qed.

Lemma flags_range e : 0 ≤ PTE_FLAGS e < PGSIZE.
Proof. unfold PTE_FLAGS. change 0xFFF with (Z.ones 12). rewrite Z.land_ones by lia. unfold PGSIZE. change (2 ^ 12) with 4096. divlia. Qed.

(** A frame of the parent: its page, and its address from the entry. *)
Lemma user_frame k free dir tabs user n f : space kend k free dir tabs user → user !! n = Some f →
  page_ok kend f ∧ present (pte k tabs n) = true ∧ P2V (PTE_ADDR (pte k tabs n)) = f ∧ (f ∉ free) ∧ ∃ pg, k_mem k !! f = Some pg ∧ length pg = PGn.
Proof.
  intros Hsp Hu. destruct (sp_map _ _ _ _ _ _ Hsp n f Hu) as (_ & Hpr & Hadr). assert (Hin : f ∈ vals user) by (apply vals_elem; by exists n).
  destruct (sp_frame _ _ _ _ _ _ Hsp f Hin) as (Hp & Hpg & Hnf & _). split_and!; [done|done| |done|done]. rewrite Hadr. eapply (entry_bits kend f 0); [done|]. unfold PGSIZE. lia.
Qed.

(** Page [s] is copied to the frame [f] and mapped into the child. *)
Lemma copy_page s d k f free tabs user pf : copied s d k (f :: free) tabs user → 0 ≤ s < UPAGES → puser !! s = Some pf →
  ∃ k1 pg k2 r k3, kalloc k = Done f k1 ∧ rd_bytes pf PGn k1 = Done pg k1 ∧ wr_bytes f pg k1 = Done tt k2 ∧
    mappages d (s * PGSIZE) PGSIZE (V2P f) (PTE_FLAGS (pte k0 ptabs s)) k2 = Done r k3 ∧
    (r = 0 ∧ (∃ free3 tabs3, copied (s + 1) d k3 free3 tabs3 (<[s := f]> user)) ∨
     r = -1 ∧ ∃ tabs3, space kend k3 [] d tabs3 user ∧ d :: vals tabs3 ++ vals user ++ [f] ≡ₚ free0 ∧ ∀ q, q ∉ free0 → k_mem k3 !! q = k_mem k0 !! q).
Proof.
  intros Hc Hs Hpf. destruct (parent_same _ _ _ _ _ _ Hc) as [Hpar _]. destruct (user_frame _ _ _ _ _ _ _ Hpar Hpf) as (Hfp & _ & _ & Hfn & pg & Hpg & Hlen).
  destruct (user_frame _ _ _ _ _ _ _ Hparent Hpf) as (_ & _ & _ & Hfn0 & _). destruct Hc as [Hsp Hp Hm Hk Hnone Hcp].
  destruct (take_frame kend k f free d tabs user pg Hlen Hsp) as (k1 & k2 & Hr1 & Hm1 & Hr2 & Hsp2 & Hff & Hmf & Hm2 & Hpte2).
  destruct (map_frame kend k2 free d tabs user s f (PTE_FLAGS (pte k0 ptabs s)) Hsp2 Hff Hs ltac:(apply Hnone; lia) (flags_range _))
    as (r & k3 & free3 & tabs3 & Hr3 & Hp3 & Hm3 & Hpte3 & Hm3' & Hcase).
  exists k1, pg, k2, r, k3. split; [done|]. split; [apply rd_page; [done|by rewrite Hm1|done]|]. split; [done|]. split; [done|].
  assert (Hout : ∀ q, q ∉ free0 → k_mem k3 !! q = k_mem k0 !! q).
  { intros q Hq. rewrite <-Hm by done. rewrite <-Hp in Hq. apply not_elem_of_cons in Hq as [Hqd Hq]. rewrite app_assoc in Hq. apply not_elem_of_app in Hq as [Hq _].
    apply not_elem_of_app in Hq as [Hq1 Hq2]. apply not_elem_of_cons in Hq1 as [Hqf Hq1]. assert (Hq3 : q ∉ free3 ++ vals tabs3) by (rewrite Hp3; by apply not_elem_of_app).
    apply not_elem_of_app in Hq3 as [_ Hq3]. by rewrite Hm3', Hm2. }
  destruct Hff as (_ & _ & _ & _ & _ & Hfu). destruct Hcase as [(-> & Hsp3 & He)|(-> & -> & Hsp3 & _)]; [left|right]; (split; [done|]).
  - exists free3, tabs3. constructor; [done| |done| | |].
    + rewrite <-Hp, vals_insert by (apply Hnone; lia). rewrite (app_assoc free3), Hp3. solve_Permutation.
    + intros m Hmr. rewrite Hpte3, Hpte2 by (unfold UPAGES, NPAGES in *; lia). by apply Hk.
    + intros n Hn. rewrite lookup_insert_ne by lia. apply Hnone. lia.
    + intros n Hn. destruct (decide (n = s)) as [->|Hne].
      * exists pf, f. split_and!; [done|apply lookup_insert_eq| |done]. rewrite Hm3, Hmf by auto. rewrite <-Hm by done. done.
      * destruct (Hcp n ltac:(lia)) as (pf' & f' & Hpu & Hu & Hmem & He'). exists pf', f'. split_and!; [done|by rewrite lookup_insert_ne| |].
        -- assert (Hin : f' ∈ vals user) by (apply vals_elem; by exists n). rewrite Hm3, Hm2; [done| |by right]. by intros ->.
        -- rewrite Hpte3, Hpte2 by (unfold UPAGES, NPAGES in *; lia). done.
  - exists tabs3. split; [done|]. split; [|done]. rewrite <-Hp. simpl in Hp3. rewrite Hp3. solve_Permutation.
Qed.

Variable sz : Z.
Hypothesis Hsz : 0 ≤ sz ≤ KERNBASE.
Hypothesis Hall : ∀ n, 0 ≤ n < npages sz → is_Some (puser !! n).

Lemma copyuvm_loop_spec d : ∀ fuel s k free tabs user, 0 ≤ s ≤ npages sz → (Z.to_nat (npages sz - s) < fuel)%nat → copied s d k free tabs user →
  ∃ r k', copyuvm_loop kend fuel pgdir d (s * PGSIZE) sz k = Done r k' ∧
    (r = d ∧ (∃ free' tabs' user', copied (npages sz) d k' free' tabs' user') ∨
     r = 0 ∧ ∃ lost, (length lost ≤ 1)%nat ∧ gave_up (1025 + npages sz) lost k0 free0 k').
Proof.
  assert (Hnp : npages sz ≤ UPAGES) by (unfold npages, UPAGES, KERNBASE, PGSIZE in *; change (2 ^ 19) with 524288; divlia).
  induction fuel as [|fuel IH]; intros s k free tabs user Hs Hfuel Hc; [lia|]. cbn [copyuvm_loop].
  assert (Hlt : s * PGSIZE < sz ↔ s < npages sz) by (unfold npages, PGSIZE; split; intros; divlia).
  destruct (decide (s * PGSIZE < sz)) as [Hin|Hin].
  2:{ exists d, k. split; [done|]. left. split; [done|]. replace s with (npages sz) in Hc by lia. by exists free, tabs, user. }
  apply Hlt in Hin. destruct (Hall s ltac:(lia)) as [pf Hpf]. destruct (parent_same _ _ _ _ _ _ Hc) as [Hpar Hpte].
  destruct (walk_user _ _ _ _ _ _ _ Hpar Hpf) as (a & Hw & Ha & Hrd). destruct (user_frame _ _ _ _ _ _ _ Hpar Hpf) as (_ & Hpr & Hadr & _).
  rewrite (run_bind _ _ _ _ _ Hw). rewrite (run_bind _ _ _ tt k) by (by rewrite (proj2 (Z.eqb_neq _ _) Ha)). rewrite (run_bind _ _ _ _ _ Hrd).
  rewrite (run_bind _ _ _ tt k) by by rewrite Hpr. rewrite Hadr, Hpte.
  assert (Hul : Z.of_nat (length (vals user)) ≤ s).
  { apply vals_length; [lia|]. intros i f Hi. destruct (decide (0 ≤ i < s)); [done|]. by rewrite (cp_none _ _ _ _ _ _ Hc) in Hi. }
  destruct free as [|f free].
  { rewrite (run_bind _ _ _ _ _ (kalloc_spec kend k [] (po_free _ _ _ _ _ (sp_pt _ _ _ _ _ _ (cp_space _ _ _ _ _ _ Hc))))). rewrite decide_True by done.
    destruct (freevm_gave_up (npages sz) [] k0 free0 k d tabs user) as (k2 & Hr2 & Hg2); [apply Hc|rewrite app_nil_r; apply Hc|apply Hc|rewrite app_nil_r; lia|].
    rewrite (run_bind _ _ _ _ _ Hr2). exists 0, k2. split; [done|]. right. split; [done|]. exists []. split; [simpl; lia|done]. }
  destruct (copy_page s d k f free tabs user pf Hc ltac:(lia) Hpf) as (k1 & pg & k2 & r & k3 & Hr1 & Hr2 & Hr3 & Hr4 & Hcase).
  pose proof (free_page kend k (f :: free) f (po_free _ _ _ _ _ (sp_pt _ _ _ _ _ _ (cp_space _ _ _ _ _ _ Hc))) ltac:(by left)) as [Hfp%page_ok_range _].
  rewrite (run_bind _ _ _ _ _ Hr1), decide_False, (run_bind _ _ _ _ _ Hr2), (run_bind _ _ _ _ _ Hr3), (run_bind _ _ _ _ _ Hr4) by lia.
  destruct Hcase as [(-> & free3 & tabs3 & Hc3)|(-> & tabs3 & Hsp3 & Hp3 & Hm3)].
  - rewrite decide_False by lia. replace (u32 (s * PGSIZE + PGSIZE)) with ((s + 1) * PGSIZE) by (rewrite u32_small; unfold is_u32, UPAGES, PGSIZE in *; lia).
    eapply IH; [lia|lia|done].
  - rewrite decide_True by lia. destruct (freevm_gave_up (npages sz) [f] k0 free0 k3 d tabs3 user Hsp3 Hp3 Hm3) as (k4 & Hr5 & Hg4); [rewrite length_app; simpl; lia|].
    rewrite (run_bind _ _ _ _ _ Hr5). exists 0, k4. split; [done|]. right. split; [done|]. exists [f]. split; [simpl; lia|done].
Qed.

Lemma copyuvm_spec : kdata_ok kdata → 
  ∃ r k', copyuvm kend kdata pgdir sz k0 = Done r k' ∧
    (r ≠ 0 ∧ (∃ free' tabs' user', copied (npages sz) r k' free' tabs' user' ∧ space kend k' free' pgdir ptabs puser) ∨
     r = 0 ∧ ∃ lost, (length lost ≤ 1)%nat ∧ gave_up (1025 + npages sz) lost k0 free0 k').
Proof.
  intros Hkd. unfold copyuvm. destruct (setupkvm_spec kdata k0 free0 Hkd (po_free _ _ _ _ _ (sp_pt _ _ _ _ _ _ Hparent))) as (d & k1 & Hr1 & Hcase).
  assert (Hnp : 0 ≤ npages sz) by (unfold npages, PGSIZE; divlia). rewrite (run_bind _ _ _ _ _ Hr1).
  destruct Hcase as [(Hd & free1 & tabs1 & Hsp1 & Hp1 & Hk1 & Hm1)|(-> & Hl & Hg)].
  2:{ rewrite decide_True by done. exists 0, k1. split; [done|]. right. split; [done|]. exists []. split; [simpl; lia|]. split; [lia|done]. }
  rewrite decide_False by done. destruct (copyuvm_loop_spec d (Z.to_nat (sz / PGSIZE) + 2) 0 k1 free1 tabs1 ∅) as (r & k2 & Hr2 & Hcase); [lia| | |].
  - unfold npages, PGSIZE. assert ((sz + 4096 - 1) / 4096 - 0 ≤ sz / 4096 + 1) by divlia. assert (0 ≤ sz / 4096) by divlia. lia.
  - constructor; [done| |done|done|by intros; rewrite lookup_empty|lia]. by rewrite vals_empty, app_nil_r.
  - exists r, k2. split; [done|]. destruct Hcase as [(-> & free2 & tabs2 & user2 & Hc)|Hcase]; [left|by right].
    split; [done|]. exists free2, tabs2, user2. split; [done|]. by eapply parent_same.
Qed.
End copy.
End fork.

(** C19. Whole address spaces. [freevm] returns, and every page of the address
    space (its frames, its page tables and its directory) is free again.
    [setupkvm] returns a directory in which the ranges of [kmap] and nothing else
    are mapped, made of pages that were free. [copyuvm] returns a directory with
    the same kernel mappings in which every page of the parent below [sz] is
    mapped with the parent's flags to a frame of the child's own that holds the
    same bytes; the parent's address space is as before, and no page is lost. Both return 0 only when there are at most 1025 free
    pages, plus one for each page to copy; then all pages are free again, except
    for at most one that [copyuvm] loses when [mappages] fails. *)
Theorem address_space_correct kend kdata k free pgdir tabs user : KERNBASE < kend → kdata_ok kdata → space kend k free pgdir tabs user →
  (∃ k' free', freevm kend pgdir k = Done tt k' ∧ free_list kend k' free' ∧ free' ≡ₚ pgdir :: free ++ vals tabs ++ vals user ∧
     ∀ q, q ∉ free' → k_mem k' !! q = k_mem k !! q) ∧
  (∃ r k', setupkvm kend kdata k = Done r k' ∧
    (r ≠ 0 ∧ (∃ free' tabs', space kend k' free' r tabs' ∅ ∧ r :: free' ++ vals tabs' ≡ₚ free ∧ kernel_part kdata k' tabs' ∧
       ∀ q, q ∉ free → k_mem k' !! q = k_mem k !! q) ∨
     r = 0 ∧ gave_up kend 1025 [] k free k')) ∧
  (∀ sz, 0 ≤ sz ≤ KERNBASE → (∀ n, 0 ≤ n < npages sz → is_Some (user !! n)) →
    ∃ r k', copyuvm kend kdata pgdir sz k = Done r k' ∧
      (r ≠ 0 ∧ (∃ free' tabs' user', copied kend k free tabs user kdata (npages sz) r k' free' tabs' user' ∧ space kend k' free' pgdir tabs user) ∨
       r = 0 ∧ ∃ lost, (length lost ≤ 1)%nat ∧ gave_up kend (1025 + npages sz) lost k free k')).
Proof.
  intros Hkend Hkd Hsp. split_and!.
  - by apply freevm_spec.
  - apply setupkvm_spec; [done|done|]. apply Hsp.
  - intros sz Hsz Hall. by apply copyuvm_spec.
Qed.

(** ** Witness *)

(** A process with one page that holds "hi", and more than a thousand free pages. *)
Definition demo_page : page := splice 0 [104; 105] zero_page.
Definition demo_pages : list Z := rev (pages_from 0x80116000 2200) ++ [].

Lemma demo_free : ∃ k, free_list demo_kend k demo_pages.
Proof.
  pose proof (freerange_loop_spec demo_kend 2201 0x80116000 (0x80116000 + PGSIZE * 2200) 2200 demo_boot [] demo_boot_free
    ltac:(lia) ltac:(unfold demo_kend, KERNBASE; done) ltac:(unfold KERNBASE, PHYSTOP, PGSIZE; lia) ltac:(unfold PGSIZE; lia)
    ltac:(intros v Hv; by apply elem_of_nil in Hv)) as Hwp.
  apply wp_inv in Hwp as (? & k & _ & Hf). by exists k.
Qed.

Lemma demo_parent : ∃ k free pgdir tabs f, space demo_kend k free pgdir tabs {[0 := f]} ∧ k_mem k !! f = Some demo_page ∧ 1050 ≤ Z.of_nat (length free).
Proof.
  destruct demo_free as [k Hf]. assert (Hlen : length demo_pages = 2200%nat) by (vm_compute; reflexivity). revert Hf Hlen. generalize demo_pages.
  intros [|d [|f free]] Hf Hlen; [done..|]. destruct (new_dir demo_kend k d (f :: free) Hf) as (_ & k1 & _ & _ & Hpt & _).
  assert (Hsp : space demo_kend k1 (f :: free) d ∅ ∅) by (by apply empty_space).
  destruct (take_frame demo_kend k1 f free d ∅ ∅ demo_page ltac:(vm_compute; reflexivity) Hsp) as (_ & k2 & _ & _ & _ & Hsp2 & Hff & Hmf & _ & _).
  destruct (map_frame demo_kend k2 free d ∅ ∅ 0 f 6 Hsp2 Hff ltac:(unfold UPAGES; lia) ltac:(done) ltac:(unfold PGSIZE; lia))
    as (r & k3 & free3 & tabs3 & _ & Hp3 & Hm3 & _ & _ & Hcase). apply Permutation_length in Hp3. rewrite vals_empty, app_nil_r, length_app in Hp3. simpl in Hlen.
  destruct Hcase as [(_ & Hsp3 & _)|(_ & -> & Hsp3 & _)]; pose proof (tabs_length _ _ _ _ _ (sp_pt _ _ _ _ _ _ Hsp3)); [|simpl in Hp3; lia].
  exists k3, free3, d, tabs3, f. split; [done|]. rewrite Hm3 by auto. split; [done|]. lia.
Qed.

(** The copy of the process's page. *)
Lemma address_space_correct_witness : ∃ k pgdir child k' tabs' f pf,
  copyuvm demo_kend 0x80108000 pgdir 100 k = Done child k' ∧ child ≠ 0 ∧
  k_mem k !! pf = Some demo_page ∧ k_mem k' !! f = Some demo_page ∧ PTE_ADDR (pte k' tabs' 0) = V2P f ∧ f ≠ pf.
Proof.
  destruct demo_parent as (k & free & pgdir & tabs & pf & Hsp & Hpg & Hlen).
  destruct (address_space_correct demo_kend 0x80108000 k free pgdir tabs {[0 := pf]} ltac:(unfold KERNBASE, demo_kend; lia) ltac:(unfold kdata_ok; done) Hsp) as (_ & _ & Hcopy).
  destruct (Hcopy 100) as (child & k' & Hrun & Hcase); [unfold KERNBASE; lia|intros n Hn; change (npages 100) with 1 in Hn; replace n with 0 by lia; by rewrite lookup_singleton_eq|].
  change (npages 100) with 1 in Hcase. destruct Hcase as [(Hne & free' & tabs' & user' & Hc & _)|(_ & lost & _ & Hl & _)]; [|lia].
  destruct (cp_copy _ _ _ _ _ _ _ _ _ _ _ _ Hc 0 ltac:(lia)) as (pf' & f & Hpf & Hf & Hmem & _). rewrite lookup_singleton_eq in Hpf. injection Hpf as <-.
  exists k, pgdir, child, k', tabs', f, pf. split_and!; [done|done|done|by rewrite Hmem|by eapply (sp_map _ _ _ _ _ _ (cp_space _ _ _ _ _ _ _ _ _ _ _ _ Hc))|].
  intros ->. assert (Hin : pf ∈ free) by (rewrite <-(cp_pages _ _ _ _ _ _ _ _ _ _ _ _ Hc); right; rewrite !elem_of_app; right; right; apply vals_elem; by exists 0).
  destruct (sp_frame _ _ _ _ _ _ Hsp pf) as (_ & _ & Hn & _); [apply vals_elem; exists 0; by rewrite lookup_singleton_eq|]. done.
Defined.
