(* ===== verification/Mp.v ===== *)
(** * Multiprocessor configuration (mp.c, mp.h)

    The firmware's tables are in physical memory, which the code reads through
    the kernel's mapping: [mem a] is the byte at the virtual address [a]. *)

From S2P Require Import Prelude Params Spinlock Kalloc.

Local Open Scope Z_scope.

(** Sizes of struct mp, mpconf, mpproc and mpioapic, and the types of entries. *)
Definition MPSZ : Z := 16.
Definition MPCONFSZ : Z := 44.
Definition MPPROCSZ : Z := 20.
Definition MPIOAPICSZ : Z := 8.
Definition MPPROC : Z := 0.
Definition MPBUS : Z := 1.
Definition MPIOAPIC : Z := 2.
Definition MPIOINTR : Z := 3.
Definition MPLINTR : Z := 4.

(** What [mpinit] fills in: the APIC ids of [cpus], [ncpu], [ioapicid] and
    [lapic]; [outb] writes are kept in order. *)
Record mpst := Mpst { mp_cpus : list Z; mp_ncpu : Z; mp_ioapicid : Z; mp_lapic : Z; mp_out : list (Z * Z) }.
Definition mp_boot : mpst := Mpst (replicate NCPU 0) 0 0 0 [].

Section mp_code.
Variable mem : Z → Z.          (* physical memory, through the kernel's mapping *)
Variable inb : Z → Z.          (* what the ports answer *)

Definition rd16 (a : Z) : Z := mem a + 256 * mem (a + 1).
Definition rd32 (a : Z) : Z := rd16 a + 65536 * rd16 (a + 2).

Definition sum (addr len : Z) : Z := u8 (foldl (λ s i, s + mem (addr + i)) 0 (seqZ 0 len)).

(** [memcmp(p, sig, n) == 0]. *)
Definition same_bytes (p : Z) (sig : list Z) : bool := bool_decide ((λ i, mem (p + i)) <$> seqZ 0 (Z.of_nat (length sig)) = sig).

Definition MP_SIG : list Z := [95; 77; 80; 95].        (* _MP_ *)
Definition PCMP_SIG : list Z := [80; 67; 77; 80].      (* PCMP *)

Definition is_mp (p : Z) : bool := same_bytes p MP_SIG && (sum p MPSZ =? 0).

Fixpoint mpsearch1_loop (fuel : nat) (p e : Z) : option Z :=
  match fuel with
  | O => None
  | S fuel =>
    if decide (p < e) then if is_mp p then Some p else mpsearch1_loop fuel (u32 (p + MPSZ)) e
    else Some 0
  end.

Definition mpsearch1 (a len : Z) : option Z :=
  let addr := P2V a in
  let e := u32 (addr + len) in
  mpsearch1_loop (Z.to_nat (len / MPSZ) + 2) addr e.

(** 0 is the null pointer; [None] that a search ran out of fuel. *)
Definition mpsearch : option Z :=
  let bda := P2V 0x400 in
  let p := Z.shiftl (Z.lor (Z.shiftl (mem (bda + 0x0F)) 8) (mem (bda + 0x0E))) 4 in
  mp ← (if decide (p ≠ 0) then mpsearch1 p 1024
        else let p := Z.lor (Z.shiftl (mem (bda + 0x14)) 8) (mem (bda + 0x13)) * 1024 in mpsearch1 (u32 (p - 1024)) 1024);
  if decide (mp ≠ 0) then Some mp else mpsearch1 0xF0000 0x10000.

Definition conf_length (conf : Z) : Z := rd16 (conf + 4).
Definition conf_version (conf : Z) : Z := mem (conf + 6).
Definition conf_lapicaddr (conf : Z) : Z := rd32 (conf + 36).
Definition mp_physaddr (mp : Z) : Z := rd32 (mp + 4).
Definition mp_imcrp (mp : Z) : Z := mem (mp + 12).

(** The configuration table and the floating pointer structure, or 0. *)
Definition mpconfig : option (Z * Z) :=
  mp ← mpsearch;
  if decide (mp = 0 ∨ mp_physaddr mp = 0) then Some (0, mp) else
  let conf := P2V (mp_physaddr mp) in
  if negb (same_bytes conf PCMP_SIG) then Some (0, mp) else
  if decide (conf_version conf ≠ 1 ∧ conf_version conf ≠ 4) then Some (0, mp) else
  if decide (sum conf (conf_length conf) ≠ 0) then Some (0, mp) else
  Some (conf, mp).

(** An entry for a processor: [cpus] has room for [NCPU]. *)
Definition add_cpu (apicid : Z) (s : mpst) : mpst :=
  if decide (mp_ncpu s < Z.of_nat NCPU)
  then Mpst (<[Z.to_nat (mp_ncpu s) := apicid]> (mp_cpus s)) (mp_ncpu s + 1) (mp_ioapicid s) (mp_lapic s) (mp_out s)
  else s.
Definition set_ioapicid (id : Z) (s : mpst) : mpst := Mpst (mp_cpus s) (mp_ncpu s) id (mp_lapic s) (mp_out s).

(** The loop over the table; the default case of its switch does not advance
    [p]. *)
Fixpoint mpinit_loop (fuel : nat) (p e ismp : Z) : M mpst Z :=
  match fuel with
  | O => λ _, Diverge
  | S fuel =>
    if decide (p < e) then
      if decide (mem p = MPPROC) then
        mmodify (add_cpu (mem (p + 1)));;
        mpinit_loop fuel (u32 (p + MPPROCSZ)) e ismp
      else if decide (mem p = MPIOAPIC) then
        mmodify (set_ioapicid (mem (p + 1)));;
        mpinit_loop fuel (u32 (p + MPIOAPICSZ)) e ismp
      else if decide (mem p = MPBUS ∨ mem p = MPIOINTR ∨ mem p = MPLINTR) then
        mpinit_loop fuel (u32 (p + 8)) e ismp
      else mpinit_loop fuel p e 0
    else mret ismp
  end.

Definition mpinit : M mpst unit :=
  match mpconfig with
  | None => λ _, Diverge
  | Some (conf, mp) =>
    assert_or_panic (negb (conf =? 0)) "Expect to run on an SMP";;
    mmodify (λ s, Mpst (mp_cpus s) (mp_ncpu s) (mp_ioapicid s) (conf_lapicaddr conf) (mp_out s));;
    ismp ← mpinit_loop (Z.to_nat (conf_length conf / 8) + 2) (u32 (conf + MPCONFSZ)) (u32 (conf + conf_length conf)) 1;
    assert_or_panic (negb (ismp =? 0)) "Didn't find a suitable machine";;
    if decide (mp_imcrp mp ≠ 0) then
      mmodify (λ s, Mpst (mp_cpus s) (mp_ncpu s) (mp_ioapicid s) (mp_lapic s)
        (mp_out s ++ [(0x22, 0x70); (0x23, Z.lor (inb 0x23) 1)]))
    else mret tt
  end.

(** ** The search *)

(** The addresses where the floating pointer structure may be: every 16 bytes
    in the first area (the extended BIOS data area, or the last kilobyte of base
    memory), then in the BIOS ROM. *)
Definition every16 (p : Z) (n : nat) : list Z := (λ i, p + MPSZ * Z.of_nat i) <$> seq 0 n.
Definition ebda : Z := (256 * mem (P2V 0x400 + 0x0F) + mem (P2V 0x400 + 0x0E)) * 16.
Definition base_end : Z := (256 * mem (P2V 0x400 + 0x14) + mem (P2V 0x400 + 0x13)) * 1024.
Definition first_area : Z := P2V (if decide (ebda ≠ 0) then ebda else u32 (base_end - 1024)).
Definition search_area : list Z := every16 first_area 64 ++ every16 (P2V 0xF0000) 4096.

Definition found (l : list Z) : Z := match list_find (λ p, is_mp p = true) l with Some (_, p) => p | None => 0 end.

Lemma every16_S p n : every16 p (S n) = p :: every16 (p + MPSZ) n.
Proof.
  unfold every16. cbn [seq fmap list_fmap]. f_equal; [lia|]. rewrite <-fmap_S_seq, <-list_fmap_compose.
  apply list_fmap_ext. intros i x _. unfold MPSZ. simpl. lia.
Qed.

Lemma found_cons p l : found (p :: l) = if is_mp p then p else found l.
Proof.
  unfold found. cbn [list_find]. destruct (is_mp p); [by rewrite decide_True|]. rewrite decide_False by done. by destruct (list_find _ l) as [[i x]|].
Qed.

Lemma found_app l1 l2 : (∀ p, p ∈ l1 → p ≠ 0) → found (l1 ++ l2) = if decide (found l1 ≠ 0) then found l1 else found l2.
Proof.
  intros Hl. induction l1 as [|p l1 IH]; [done|]. rewrite <-app_comm_cons, !found_cons. destruct (is_mp p).
  - rewrite decide_True by (apply Hl; by left). done.
  - apply IH. intros q Hq. apply Hl. by right.
Qed.

Lemma mpsearch1_loop_spec n : ∀ fuel p, (n < fuel)%nat → 0 ≤ p → p + MPSZ * Z.of_nat n < 2 ^ 32 →
  mpsearch1_loop fuel p (p + MPSZ * Z.of_nat n) = Some (found (every16 p n)).
Proof.
  unfold MPSZ. induction n as [|n IH]; intros [|fuel] p Hf Hp He; try lia; cbn [mpsearch1_loop].
  - by rewrite decide_False by lia.
  - rewrite decide_True by lia. rewrite every16_S, found_cons. destruct (is_mp p); [done|]. unfold MPSZ.
    rewrite u32_small by (unfold is_u32; lia). replace (p + 16 * Z.of_nat (S n)) with (p + 16 + 16 * Z.of_nat n) by lia. apply IH; lia.
Qed.

Lemma mpsearch1_spec a n : P2V a + MPSZ * Z.of_nat n < 2 ^ 32 → mpsearch1 a (MPSZ * Z.of_nat n) = Some (found (every16 (P2V a) n)).
Proof.
  intros He. unfold mpsearch1. assert (0 ≤ P2V a) by apply u32_range. rewrite u32_small by (unfold is_u32, MPSZ in *; lia).
  apply mpsearch1_loop_spec; [|done|done]. unfold MPSZ. rewrite Z.mul_comm, Z.div_mul by lia. lia.
Qed.

Hypothesis mem_byte : ∀ a, 0 ≤ mem a < 256.

Lemma word_bytes x y : 0 ≤ y < 256 → Z.lor (Z.shiftl x 8) y = 256 * x + y.
Proof. intros Hy. rewrite lor_shiftl by (change (2 ^ 8) with 256; lia). change (2 ^ 8) with 256. lia. Qed.

Lemma first_area_range : 0 < first_area ∧ first_area + 1024 < 2 ^ 32.
Proof.
  unfold first_area, ebda, base_end. pose proof (mem_byte (P2V 0x400 + 0x0F)). pose proof (mem_byte (P2V 0x400 + 0x0E)).
  pose proof (mem_byte (P2V 0x400 + 0x14)). pose proof (mem_byte (P2V 0x400 + 0x13)).
  set (e := (256 * _ + _) * 16). set (b := (256 * _ + _) * 1024). assert (0 ≤ e < 2 ^ 20) by (change (2 ^ 20) with 1048576; lia).
  assert (Hb : b = 0 ∨ 1024 ≤ b < 2 ^ 26) by (change (2 ^ 26) with 67108864; lia). clearbody e b. unfold P2V, KERNBASE. case_decide.
  - rewrite u32_small by (unfold is_u32; lia). lia.
  - rewrite u32_add_l. destruct Hb as [->|Hb]; [by vm_compute|]. rewrite u32_small by (unfold is_u32; lia). lia.
Qed.

(** The search always ends, and finds the first structure of the areas. *)
Lemma mpsearch_spec : mpsearch = Some (found search_area).
Proof.
  destruct first_area_range as [Hf1 Hf2]. unfold search_area. rewrite found_app.
  2:{ intros p Hp. apply list_elem_of_fmap in Hp as (i & -> & _). unfold MPSZ. lia. }
  unfold mpsearch. rewrite !word_bytes by apply mem_byte. rewrite Z.shiftl_mul_pow2 by lia. change (2 ^ 4) with 16. fold ebda base_end.
  assert (Hrom : mpsearch1 0xF0000 0x10000 = Some (found (every16 (P2V 0xF0000) 4096))).
  { change 0x10000 with (MPSZ * Z.of_nat 4096). apply mpsearch1_spec. vm_compute. reflexivity. }
  assert (Hfirst : (if decide (ebda ≠ 0) then mpsearch1 ebda 1024 else mpsearch1 (u32 (base_end - 1024)) 1024) = Some (found (every16 first_area 64))).
  { unfold first_area in *. change (mpsearch1 ebda 1024) with (mpsearch1 ebda (MPSZ * Z.of_nat 64)).
    change (mpsearch1 (u32 (base_end - 1024)) 1024) with (mpsearch1 (u32 (base_end - 1024)) (MPSZ * Z.of_nat 64)). case_decide; by apply mpsearch1_spec. }
  cbv zeta. rewrite Hfirst. cbv [mbind option_bind]. rewrite Hrom. destruct (decide (found (every16 first_area 64) ≠ 0)); reflexivity.
Qed.

(** ** The table *)

Inductive mpentry :=
| EProc (apicid : Z) (rest : list Z)
| EIoapic (apicno : Z) (rest : list Z)
| EOther (type : Z) (rest : list Z).

Definition enc (x : mpentry) : list Z :=
  match x with
  | EProc id rest => MPPROC :: id :: rest
  | EIoapic no rest => MPIOAPIC :: no :: rest
  | EOther t rest => t :: rest
  end.
Definition enc_all (l : list mpentry) : list Z := concat (enc <$> l).

Definition entry_ok (x : mpentry) : Prop :=
  match x with
  | EProc _ rest => length rest = 18%nat
  | EIoapic _ rest => length rest = 6%nat
  | EOther t rest => length rest = 7%nat ∧ t ∈ [MPBUS; MPIOINTR; MPLINTR]
  end.

Definition holds (p : Z) (bs : list Z) : Prop := ∀ i b, bs !! i = Some b → mem (p + Z.of_nat i) = b.

Lemma holds_app p l1 l2 : holds p (l1 ++ l2) ↔ holds p l1 ∧ holds (p + Z.of_nat (length l1)) l2.
Proof.
  unfold holds. split.
  - intros H. split; [intros i b Hb; apply H; by apply lookup_app_l_Some|]. intros i b Hb.
    rewrite <-(H (length l1 + i)%nat b); [f_equal; lia|]. by rewrite lookup_app_r, Nat.add_comm, Nat.add_sub by lia.
  - intros [H1 H2] i b Hb. apply lookup_app_Some in Hb as [Hb|[Hi Hb]]; [by apply H1|]. rewrite <-(H2 _ _ Hb). f_equal. lia.
Qed.

(** The effect of an entry. *)
Definition note_entry (s : mpst) (x : mpentry) : mpst :=
  match x with EProc id _ => add_cpu id s | EIoapic no _ => set_ioapicid no s | EOther _ _ => s end.

Lemma entry_round x p e ismp fuel s : entry_ok x → holds p (enc x) → 0 ≤ p → p + Z.of_nat (length (enc x)) < 2 ^ 32 → p < e →
  mpinit_loop (S fuel) p e ismp s = mpinit_loop fuel (p + Z.of_nat (length (enc x))) e ismp (note_entry s x).
Proof.
  intros Hok Hh Hp He Hlt. cbn [mpinit_loop]. rewrite decide_True by done. pose proof (Hh 0%nat) as H0. pose proof (Hh 1%nat) as H1. simpl in H0, H1. change (Z.of_nat 1) with 1 in H1.
  rewrite Z.add_0_r in H0. destruct x as [id rest|no rest|t rest]; simpl in Hok, He |- *.
  - rewrite (H0 _ eq_refl), (H1 _ eq_refl). rewrite decide_True by done. unfold MPPROCSZ. rewrite u32_small by (unfold is_u32; lia).
    rewrite Hok. done.
  - rewrite (H0 _ eq_refl), (H1 _ eq_refl). rewrite decide_False by done. rewrite decide_True by done. unfold MPIOAPICSZ. rewrite u32_small by (unfold is_u32; lia).
    rewrite Hok. done.
  - destruct Hok as [Hl Ht]. rewrite (H0 _ eq_refl). rewrite (u32_small (p + 8)) by (unfold is_u32; lia). rewrite Hl.
    repeat (apply elem_of_cons in Ht as [->|Ht]; [done|]). by apply elem_of_nil in Ht.
Qed.

Lemma enc_length x : entry_ok x → (8 ≤ length (enc x))%nat.
Proof. destruct x; simpl; lia. Qed.

Lemma table_loop l : ∀ p e ismp fuel s, Forall entry_ok l → holds p (enc_all l) → 0 ≤ p → p + Z.of_nat (length (enc_all l)) ≤ e < 2 ^ 32 →
  mpinit_loop (length l + fuel) p e ismp s = mpinit_loop fuel (p + Z.of_nat (length (enc_all l))) e ismp (foldl note_entry s l).
Proof.
  induction l as [|x l IH]; intros p e ismp fuel s Hok Hh Hp He; [simpl; by rewrite Z.add_0_r|].
  apply Forall_cons in Hok as [Hx Hok]. unfold enc_all in *. cbn [fmap list_fmap concat] in *. rewrite length_app in *. apply holds_app in Hh as [Hh1 Hh2].
  pose proof (enc_length x Hx). cbn [length Nat.add foldl]. rewrite (entry_round x) by (done || lia). rewrite IH by (done || lia). f_equal. lia.
Qed.

(** An entry of another type: the loop stays where it is. *)
Lemma unknown_loop p e : p < e → mem p ∉ [MPPROC; MPBUS; MPIOAPIC; MPIOINTR; MPLINTR] → ∀ fuel ismp s, mpinit_loop fuel p e ismp s = Diverge.
Proof.
  intros Hlt Hn. assert (Hne : mem p ≠ MPPROC ∧ mem p ≠ MPIOAPIC ∧ ¬ (mem p = MPBUS ∨ mem p = MPIOINTR ∨ mem p = MPLINTR)) by set_solver.
  destruct Hne as (H1 & H2 & H3). induction fuel as [|fuel IH]; intros ismp s; [done|]. cbn [mpinit_loop].
  rewrite decide_True, !decide_False by done. apply IH.
Qed.

Lemma loop_less k e : ∀ fuel p ismp s, mpinit_loop (fuel + k) p e ismp s = Diverge → mpinit_loop fuel p e ismp s = Diverge.
Proof.
  induction fuel as [|fuel IH]; intros p ismp s; [done|]. cbn [mpinit_loop Nat.add]. case_decide; [|done].
  repeat case_decide; try apply IH; (unfold mbind, M_bind, mmodify; simpl; apply IH).
Qed.

(** The processors and I/O interrupt controllers of a table. *)
Definition proc_ids (l : list mpentry) : list Z := omap (λ x, match x with EProc id _ => Some id | _ => None end) l.
Definition ioapic_ids (l : list mpentry) : list Z := omap (λ x, match x with EIoapic no _ => Some no | _ => None end) l.

(** What a table leaves behind. *)
Definition noted (l : list mpentry) (lapic : Z) : mpst :=
  Mpst (take NCPU (proc_ids l ++ replicate NCPU 0)) (Z.of_nat (NCPU `min` length (proc_ids l))) (default 0 (last (ioapic_ids l))) lapic [].

Lemma note_all l lapic : foldl note_entry (Mpst (mp_cpus mp_boot) 0 0 lapic []) l = noted l lapic.
Proof.
  induction l as [|x l IH] using rev_ind; [done|]. rewrite foldl_snoc, IH. destruct x as [id r|no r|t r]; simpl; unfold noted, proc_ids, ioapic_ids;
    rewrite !omap_app; cbn [omap list_omap]; rewrite ?app_nil_r; [|by rewrite last_snoc|done].
  set (ids := omap _ l). unfold add_cpu. cbn [mp_ncpu mp_cpus mp_ioapicid mp_lapic mp_out]. rewrite length_app. cbn [length]. case_decide as Hn; f_equal; try lia.
  - assert (Hl : (length ids < NCPU)%nat) by lia. rewrite Nat.min_r, Nat2Z.id by lia. rewrite (take_app_ge ids), (take_app_ge (ids ++ [id])) by (rewrite ?length_app; simpl; lia).
    rewrite insert_app_r_alt, Nat.sub_diag by lia. rewrite <-app_assoc. f_equal. rewrite length_app. cbn [length]. rewrite !take_replicate.
    replace (NCPU - length ids)%nat with (S (NCPU - (length ids + 1))) by lia. rewrite !Nat.min_l by lia. done.
  - assert (Hl : (NCPU ≤ length ids)%nat) by lia. rewrite <-app_assoc, !take_app_le by lia. done.
Qed.

(** The configuration that the code accepts. *)
Record conf_ok (mp conf : Z) : Prop := {
  co_found : found search_area = mp;
  co_mp : mp ≠ 0;
  co_phys : mp_physaddr mp ≠ 0;
  co_conf : conf = P2V (mp_physaddr mp);
  co_sig : same_bytes conf PCMP_SIG = true;
  co_version : conf_version conf = 1 ∨ conf_version conf = 4;
  co_sum : sum conf (conf_length conf) = 0;
  co_range : 0 < conf ∧ conf + conf_length conf < 2 ^ 32
}.

Lemma mpconfig_spec mp conf : conf_ok mp conf → mpconfig = Some (conf, mp).
Proof.
  intros [Hf Hmp Hp Hc Hs Hv Hsum Hr]. unfold mpconfig. rewrite mpsearch_spec, Hf. cbv [mbind option_bind]. rewrite decide_False by naive_solver.
  rewrite <-Hc, Hs. cbv zeta. cbn [negb]. rewrite !decide_False by naive_solver. done.
Qed.

Lemma mpinit_spec mp conf entries tail : conf_ok mp conf → Forall entry_ok entries → holds (conf + MPCONFSZ) (enc_all entries ++ tail) →
  conf_length conf = MPCONFSZ + Z.of_nat (length (enc_all entries ++ tail)) →
  match tail with
  | [] => mpinit mp_boot = Done tt (let s := noted entries (conf_lapicaddr conf) in
      if decide (mp_imcrp mp ≠ 0) then Mpst (mp_cpus s) (mp_ncpu s) (mp_ioapicid s) (mp_lapic s) [(0x22, 0x70); (0x23, Z.lor (inb 0x23) 1)] else s)
  | t :: _ => t ∉ [MPPROC; MPBUS; MPIOAPIC; MPIOINTR; MPLINTR] →
      ∀ fuel s, mpinit_loop fuel (conf + MPCONFSZ) (conf + conf_length conf) 1 s = Diverge
  end.
Proof.
  intros Hc Hok Hh Hlen. pose proof (co_range _ _ Hc) as [Hc0 Hc1]. unfold MPCONFSZ in *.
  assert (Hn : 8 * Z.of_nat (length entries) ≤ Z.of_nat (length (enc_all entries))).
  { clear -Hok. induction Hok as [|x l Hx Hl IH]; [done|]. unfold enc_all in *. cbn [fmap list_fmap concat]. rewrite length_app. apply enc_length in Hx. cbn [length]. lia. }
  apply holds_app in Hh as [Hh1 Hh2]. destruct tail as [|t tail].
  - rewrite app_nil_r in Hlen. unfold mpinit. rewrite (mpconfig_spec _ _ Hc). unfold assert_or_panic. rewrite (proj2 (Z.eqb_neq conf 0)) by lia. cbn [negb].
    unfold MPCONFSZ. rewrite !u32_small by (unfold is_u32; lia). set (s1 := Mpst (mp_cpus mp_boot) 0 0 (conf_lapicaddr conf) []).
    assert (Hloop : mpinit_loop (Z.to_nat (conf_length conf / 8) + 2) (conf + 44) (conf + conf_length conf) 1 s1 = Done 1 (noted entries (conf_lapicaddr conf))).
    { assert (Hk : ∃ k, (Z.to_nat (conf_length conf / 8) + 2 = length entries + S k)%nat).
      { exists (Z.to_nat (conf_length conf / 8) + 1 - length entries)%nat. assert (Z.of_nat (length entries) ≤ conf_length conf / 8) by (Z.to_euclidean_division_equations; lia). lia. }
      destruct Hk as [k ->]. rewrite table_loop by (done || lia). cbn [mpinit_loop]. rewrite decide_False by lia. unfold s1. by rewrite note_all. }
    rewrite (run_bind _ _ _ tt mp_boot), (run_bind _ _ _ tt s1), (run_bind _ _ _ _ _ Hloop), (run_bind _ _ _ tt (noted entries (conf_lapicaddr conf))) by done. by case_decide.
  - intros Ht fuel s. rewrite length_app in Hlen. cbn [length] in Hlen. apply (loop_less (length entries)). rewrite Nat.add_comm, table_loop by (done || lia). apply unknown_loop; [lia|].
    specialize (Hh2 0%nat t eq_refl). change (Z.of_nat 0) with 0 in Hh2. rewrite Z.add_0_r in Hh2. by rewrite Hh2.
Qed.
End mp_code.

(** C20. The multiprocessor configuration, for every contents of the firmware's
    memory. The search for the floating pointer structure always ends and finds
    the first structure with the signature and a checksum of 0 among the
    16-byte aligned addresses of the areas, in the order of the areas. If the
    configuration table that it points to is valid and holds known entries, then
    [mpinit] returns with the first [NCPU] processors' APIC ids in the order of
    the table, the id of the last I/O APIC, and the address of the local APIC. If
    an entry is of another type, the loop over the table never ends. *)
Theorem mpinit_correct mem inb : (∀ a, 0 ≤ mem a < 256) →
  mpsearch mem = Some (found mem (search_area mem)) ∧
  ∀ mp conf entries tail, conf_ok mem mp conf → Forall entry_ok entries → holds mem (conf + MPCONFSZ) (enc_all entries ++ tail) →
    conf_length mem conf = MPCONFSZ + Z.of_nat (length (enc_all entries ++ tail)) →
    match tail with
    | [] => mpinit mem inb mp_boot = Done tt (let s := noted entries (conf_lapicaddr mem conf) in
        if decide (mp_imcrp mem mp ≠ 0) then Mpst (mp_cpus s) (mp_ncpu s) (mp_ioapicid s) (mp_lapic s) [(0x22, 0x70); (0x23, Z.lor (inb 0x23) 1)] else s)
    | t :: _ => t ∉ [MPPROC; MPBUS; MPIOAPIC; MPIOINTR; MPLINTR] →
        ∀ fuel s, mpinit_loop mem fuel (conf + MPCONFSZ) (conf + conf_length mem conf) 1 s = Diverge
    end.
Proof. intros Hb. split; [by apply mpsearch_spec|]. intros. by apply mpinit_spec. Qed.

(** ** Witness *)

(** Two processors and an I/O APIC, in the BIOS ROM. *)
Definition demo_entries : list mpentry := [EProc 0 (replicate 18 0); EProc 1 (replicate 18 0); EIoapic 2 (replicate 6 0)].
Definition demo_rom : list Z :=
  MP_SIG ++ [0; 1; 15; 0] ++ [1; 4; 144; 0; 0; 0; 0; 0] ++ replicate 208 0 ++
  PCMP_SIG ++ [92; 0; 4; 141] ++ replicate 28 0 ++ [0; 0; 224; 254] ++ replicate 4 0 ++ enc_all demo_entries.
Definition demo_bios (a : Z) : Z := if decide (P2V 0xF0020 ≤ a) then default 0 (demo_rom !! Z.to_nat (a - P2V 0xF0020)) else 0.

Lemma demo_bios_byte a : 0 ≤ demo_bios a < 256.
Proof.
  unfold demo_bios. case_decide; [|lia]. destruct (demo_rom !! _) as [b|] eqn:Hb; [|simpl; lia].
  assert (Hall : Forall (λ b, 0 ≤ b < 256) demo_rom) by (apply (bool_decide_unpack _); vm_compute; exact I).
  by eapply Forall_lookup_1 in Hall.
Qed.

Lemma demo_table i b : enc_all demo_entries !! i = Some b → demo_bios (P2V 0xF0100 + MPCONFSZ + Z.of_nat i) = b.
Proof.
  intros Hb. unfold demo_bios, MPCONFSZ. change (P2V 0xF0100) with 0x800F0100. change (P2V 0xF0020) with 0x800F0020.
  rewrite decide_True by lia. replace (Z.to_nat _) with (268 + i)%nat by lia.
  assert (Hs : demo_rom = take 268 demo_rom ++ enc_all demo_entries) by (vm_compute; reflexivity).
  rewrite Hs, lookup_app_r by (rewrite length_take; vm_compute (length demo_rom); lia).
  rewrite length_take. replace (268 + i - 268 `min` length demo_rom)%nat with i by (vm_compute (length demo_rom); lia). by rewrite Hb.
Qed.

Lemma mpinit_correct_witness : mpinit demo_bios (λ _, 0) mp_boot = Done tt (Mpst [0; 1; 0; 0; 0; 0; 0; 0] 2 2 0xFEE00000 []).
Proof.
  destruct (mpinit_correct demo_bios (λ _, 0) demo_bios_byte) as [_ Hinit].
  specialize (Hinit (P2V 0xF0020) (P2V 0xF0100) demo_entries []). cbv match in Hinit. rewrite Hinit; clear Hinit; [vm_compute; reflexivity|..].
  - constructor; [vm_compute; reflexivity|vm_compute; discriminate|vm_compute; discriminate|vm_compute; reflexivity|vm_compute; reflexivity|
      right; vm_compute; reflexivity|vm_compute; reflexivity|vm_compute; split; reflexivity].
  - repeat constructor; done.
  - intros i b Hb. rewrite app_nil_r in Hb. by apply demo_table.
  - vm_compute. reflexivity.
Defined.
