(* ===== verification/Proc.v ===== *)
(** * Processes (proc.c, proc.h)

    The process table and the operations on it, over an interface to the
    memory and file operations that they call. A process is named by its index
    in the table. A critical section of [ptable.lock] is one definition: [fork]
    and [exit] are composed of their sections and the code between them, where
    other processes may run. [sleep] leaves the process SLEEPING and the operation
    waiting. *)

From S2P Require Import Prelude Params CString Kalloc.

Inductive procstate := UNUSED | EMBRYO | SLEEPING | RUNNABLE | RUNNING | ZOMBIE.
#[export] Instance procstate_eq_dec : EqDecision procstate.
Proof. solve_decision. Defined.

(** Sleep channels: addresses of kernel objects. *)
Inductive chan :=
| ChProc (i : nat)             (* a process *)
| ChTicks
| ChAddr (a : Z).
#[export] Instance chan_eq_dec : EqDecision chan.
Proof. solve_decision. Defined.

(** Saved registers for kernel context switches. *)
Record context := Context { cx_edi : Z; cx_esi : Z; cx_ebx : Z; cx_ebp : Z; cx_eip : Z }.

(** The trap frame built by the hardware and trapasm.S, without padding. *)
Record trapframe := Trapframe {
  tf_edi : Z; tf_esi : Z; tf_ebp : Z; tf_oesp : Z; tf_ebx : Z; tf_edx : Z; tf_ecx : Z; tf_eax : Z;
  tf_gs : Z; tf_fs : Z; tf_es : Z; tf_ds : Z; tf_trapno : Z;
  tf_err : Z; tf_eip : Z; tf_cs : Z; tf_eflags : Z; tf_esp : Z; tf_ss : Z
}.
Definition set_eax (v : Z) (t : trapframe) : trapframe :=
  Trapframe (tf_edi t) (tf_esi t) (tf_ebp t) (tf_oesp t) (tf_ebx t) (tf_edx t) (tf_ecx t) v
    (tf_gs t) (tf_fs t) (tf_es t) (tf_ds t) (tf_trapno t) (tf_err t) (tf_eip t) (tf_cs t)
    (tf_eflags t) (tf_esp t) (tf_ss t).

(** The trap frame and the context are in the kernel stack; here they are part
    of the process. [p_ofile] holds indices of the file table, [p_cwd] of the
    inode cache. *)
Record proc := Proc {
  p_sz : Z;
  p_pgdir : Z;
  p_kstack : Z;
  p_state : procstate;
  p_pid : Z;
  p_parent : option nat;
  p_tf : trapframe;
  p_context : context;
  p_chan : option chan;
  p_killed : Z;
  p_ofile : list (option nat);
  p_cwd : option nat;
  p_name : list Z
}.

Definition set_mem (sz pgdir : Z) (p : proc) : proc :=
  Proc sz pgdir (p_kstack p) (p_state p) (p_pid p) (p_parent p) (p_tf p) (p_context p) (p_chan p)
    (p_killed p) (p_ofile p) (p_cwd p) (p_name p).
Definition set_kstack (v : Z) (p : proc) : proc :=
  Proc (p_sz p) (p_pgdir p) v (p_state p) (p_pid p) (p_parent p) (p_tf p) (p_context p) (p_chan p)
    (p_killed p) (p_ofile p) (p_cwd p) (p_name p).
Definition set_pstate (v : procstate) (p : proc) : proc :=
  Proc (p_sz p) (p_pgdir p) (p_kstack p) v (p_pid p) (p_parent p) (p_tf p) (p_context p) (p_chan p)
    (p_killed p) (p_ofile p) (p_cwd p) (p_name p).
Definition set_pid (v : Z) (p : proc) : proc :=
  Proc (p_sz p) (p_pgdir p) (p_kstack p) (p_state p) v (p_parent p) (p_tf p) (p_context p) (p_chan p)
    (p_killed p) (p_ofile p) (p_cwd p) (p_name p).
Definition set_parent (v : option nat) (p : proc) : proc :=
  Proc (p_sz p) (p_pgdir p) (p_kstack p) (p_state p) (p_pid p) v (p_tf p) (p_context p) (p_chan p)
    (p_killed p) (p_ofile p) (p_cwd p) (p_name p).
Definition set_tf (v : trapframe) (p : proc) : proc :=
  Proc (p_sz p) (p_pgdir p) (p_kstack p) (p_state p) (p_pid p) (p_parent p) v (p_context p) (p_chan p)
    (p_killed p) (p_ofile p) (p_cwd p) (p_name p).
Definition set_context (v : context) (p : proc) : proc :=
  Proc (p_sz p) (p_pgdir p) (p_kstack p) (p_state p) (p_pid p) (p_parent p) (p_tf p) v (p_chan p)
    (p_killed p) (p_ofile p) (p_cwd p) (p_name p).
Definition set_chan (v : option chan) (p : proc) : proc :=
  Proc (p_sz p) (p_pgdir p) (p_kstack p) (p_state p) (p_pid p) (p_parent p) (p_tf p) (p_context p) v
    (p_killed p) (p_ofile p) (p_cwd p) (p_name p).
Definition set_killed (v : Z) (p : proc) : proc :=
  Proc (p_sz p) (p_pgdir p) (p_kstack p) (p_state p) (p_pid p) (p_parent p) (p_tf p) (p_context p)
    (p_chan p) v (p_ofile p) (p_cwd p) (p_name p).
Definition set_ofile (v : list (option nat)) (p : proc) : proc :=
  Proc (p_sz p) (p_pgdir p) (p_kstack p) (p_state p) (p_pid p) (p_parent p) (p_tf p) (p_context p)
    (p_chan p) (p_killed p) v (p_cwd p) (p_name p).
Definition set_cwd (v : option nat) (p : proc) : proc :=
  Proc (p_sz p) (p_pgdir p) (p_kstack p) (p_state p) (p_pid p) (p_parent p) (p_tf p) (p_context p)
    (p_chan p) (p_killed p) (p_ofile p) v (p_name p).
Definition set_name (v : list Z) (p : proc) : proc :=
  Proc (p_sz p) (p_pgdir p) (p_kstack p) (p_state p) (p_pid p) (p_parent p) (p_tf p) (p_context p)
    (p_chan p) (p_killed p) (p_ofile p) (p_cwd p) v.

Definition zero_tf : trapframe := Trapframe 0 0 0 0 0 0 0 0 0 0 0 0 0 0 0 0 0 0 0.
Definition zero_proc : proc :=
  Proc 0 0 0 UNUSED 0 None zero_tf (Context 0 0 0 0 0) None 0 (replicate NOFILE None) None (replicate 16 0%Z).
#[export] Instance proc_inhabited : Inhabited proc := populate zero_proc.

(** A CPU as [sched] checks it: the depth of pushcli nesting, the interrupt flag,
    and whether the CPU holds [ptable.lock]. *)
Record cpustate := CpuState { cs_ncli : Z; cs_if : bool; cs_ptable : bool }.
(** On entry to the kernel: a system call leaves interrupts on, an interrupt
    turns them off. *)
Definition syscall_cpu : cpustate := CpuState 0 true false.
Definition trap_cpu : cpustate := CpuState 0 false false.

(** What proc.c calls: the page allocator, vm.c, file.c, fs.c and log.c, on
    their state [E]. *)
Class ProcEnv (E : Type) := {
  pe_kalloc : M E Z;
  pe_kfree : Z → M E unit;
  pe_setupkvm : M E Z;
  pe_inituvm : Z → list Z → Z → M E unit;
  pe_copyuvm : Z → Z → M E Z;
  pe_freevm : Z → M E unit;
  pe_allocuvm : Z → Z → Z → M E Z;
  pe_deallocuvm : Z → Z → Z → M E Z;
  pe_filedup : nat → M E nat;
  pe_fileclose : nat → M E unit;
  pe_idup : nat → M E nat;
  pe_begin_op : M E unit;
  pe_iput : nat → M E unit;
  pe_end_op : M E unit;
  pe_namei : list Z → M E (option nat)
}.

Record pstate (E : Type) := PState {
  ps_procs : list proc;        (* ptable.proc *)
  ps_initproc : option nat;
  ps_nextpid : Z;
  ps_env : E
}.
Arguments PState {E} _ _ _ _.
Arguments ps_procs {E} _.
Arguments ps_initproc {E} _.
Arguments ps_nextpid {E} _.
Arguments ps_env {E} _.

Section proc_code.
Context {E : Type} `{ProcEnv E}.
Variable forkret : Z.                    (* its code address *)
Variable initcode : list Z.              (* the linked initcode binary *)

Definition env {A} (m : M E A) : M (pstate E) A :=
  zoom ps_env (λ e s, PState (ps_procs s) (ps_initproc s) (ps_nextpid s) e) m.
Definition getp (i : nat) : M (pstate E) proc := λ s, Done (ps_procs s !!! i) s.
Definition updp (i : nat) (f : proc → proc) : M (pstate E) unit :=
  mmodify (λ s, PState (alter f i (ps_procs s)) (ps_initproc s) (ps_nextpid s) (ps_env s)).
Definition upd_all (f : proc → proc) : M (pstate E) unit :=
  mmodify (λ s, PState (f <$> ps_procs s) (ps_initproc s) (ps_nextpid s) (ps_env s)).

Definition KSTACKSIZE : Z := 4096.
Definition FL_IF : Z := 0x200.

(** The first slot with a property. *)
Definition first_slot (P : proc → bool) (l : list proc) : option nat :=
  fst <$> list_find (λ p, P p = true) l.

(** Look in the process table for an UNUSED proc: the section of [ptable.lock]. *)
Definition alloc_slot : M (pstate E) (option nat) :=
  s ← (mget : M (pstate E) _);
  match first_slot (λ p, bool_decide (p_state p = UNUSED)) (ps_procs s) with
  | None => mret None
  | Some i =>
    updp i (λ p, set_pid (ps_nextpid s) (set_pstate EMBRYO p));;
    mmodify (λ s, PState (ps_procs s) (ps_initproc s) (u32 (ps_nextpid s + 1)) (ps_env s));;
    mret (Some i)
  end.
(** Initialize the state required to run in the kernel. *)
Definition alloc_stack (i : nat) : M (pstate E) (option nat) :=
  k ← env pe_kalloc;
  updp i (set_kstack k);;
  if decide (k = 0%Z) then updp i (set_pstate UNUSED);; mret None
  else updp i (set_context (Context 0 0 0 0 forkret));; mret (Some i).
Definition allocproc : M (pstate E) (option nat) :=
  r ← alloc_slot;
  match r with
  | None => mret None
  | Some i => alloc_stack i
  end.

(** Set up first user process. No process runs before its last statement. *)
Definition userinit : M (pstate E) unit :=
  r ← allocproc;
  match r with
  | None => panic "trap"                  (* the result is not checked *)
  | Some p =>
    mmodify (λ s, PState (ps_procs s) (Some p) (ps_nextpid s) (ps_env s));;
    pgdir ← env pe_setupkvm;
    updp p (λ q, set_mem (p_sz q) pgdir q);;
    assert_or_panic (negb (pgdir =? 0)%Z) "userinit: out of memory?";;
    env (pe_inituvm pgdir initcode (Z.of_nat (length initcode)));;
    let ucode := Z.lor (Z.shiftl 3 3) 3 in
    let udata := Z.lor (Z.shiftl 4 3) 3 in
    updp p (λ q, set_tf (Trapframe 0 0 0 0 0 0 0 0 0 0 udata udata 0 0 0 ucode FL_IF PGSIZE udata)
      (set_mem PGSIZE pgdir q));;
    updp p (λ q, set_name (safe_name 16 [105; 110; 105; 116; 99; 111; 100; 101]%Z (p_name q)) q);;
    cwd ← env (pe_namei [47%Z]);
    updp p (set_cwd cwd);;
    updp p (set_pstate RUNNABLE)
  end.

(** Grow current process's memory by n bytes. *)
Definition growproc (cur : nat) (n : Z) : M (pstate E) Z :=
  p ← getp cur;
  let sz := p_sz p in
  if decide (0 < n)%Z then
    sz ← env (pe_allocuvm (p_pgdir p) sz (u32 (sz + n)));
    if decide (sz = 0%Z) then mret (-1)%Z else updp cur (set_mem sz (p_pgdir p));; mret 0%Z
  else if decide (n < 0)%Z then
    sz ← env (pe_deallocuvm (p_pgdir p) sz (u32 (sz + n)));
    if decide (sz = 0%Z) then mret (-1)%Z else updp cur (set_mem sz (p_pgdir p));; mret 0%Z
  else mret 0%Z.

(** The copies of the open files. *)
Fixpoint dup_files (np : nat) (fd : nat) (l : list (option nat)) : M (pstate E) unit :=
  match l with
  | [] => mret tt
  | Some f :: l =>
    f' ← env (pe_filedup f);
    updp np (λ p, set_ofile (<[fd := Some f']> (p_ofile p)) p);;
    dup_files np (S fd) l
  | None :: l => dup_files np (S fd) l
  end.

(** The part of [fork] between the sections of the lock: the process is copied;
    without memory the slot is given back. *)
Definition fork_copy (cur np : nat) : M (pstate E) bool :=
  c ← getp cur;
  pgdir ← env (pe_copyuvm (p_pgdir c) (p_sz c));
  updp np (λ p, set_mem (p_sz p) pgdir p);;
  if decide (pgdir = 0%Z) then
    q ← getp np;
    env (pe_kfree (p_kstack q));;
    updp np (set_kstack 0);;
    updp np (set_pstate UNUSED);;
    mret false
  else
    updp np (λ p, set_tf (set_eax 0 (p_tf c)) (set_parent (Some cur) (set_mem (p_sz c) pgdir p)));;
    dup_files np 0 (p_ofile c);;
    cwd ← match p_cwd c with Some d => d' ← env (pe_idup d); mret (Some d') | None => panic "trap" end;
    updp np (set_cwd cwd);;
    updp np (λ p, set_name (safe_name 16 (p_name c) (p_name p)) p);;
    mret true.
(** The last section. *)
Definition fork_ready (np : nat) : M (pstate E) Z :=
  q ← getp np;
  updp np (set_pstate RUNNABLE);;
  mret (p_pid q).

(** Create a new process copying the current one as the parent. *)
Definition fork (cur : nat) : M (pstate E) Z :=
  r ← allocproc;
  match r with
  | None => mret (-1)%Z
  | Some np =>
    ok ← fork_copy cur np;
    if (ok : bool) then fork_ready np else mret (-1)%Z
  end.

(** Wake up all processes sleeping on [ch]. *)
Definition wakeup1_proc (ch : chan) (p : proc) : proc :=
  if decide (p_state p = SLEEPING ∧ p_chan p = Some ch) then set_pstate RUNNABLE p else p.
Definition wakeup1 (ch : chan) : M (pstate E) unit := upd_all (wakeup1_proc ch).
Definition wakeup (ch : chan) : M (pstate E) unit := wakeup1 ch.

(** [acquire(&ptable.lock)], as the caller's CPU sees it. *)
Definition acquire_ptable (c : cpustate) : M (pstate E) cpustate :=
  assert_or_panic (negb (cs_ptable c)) "acquire";;
  mret (CpuState (cs_ncli c + 1) false true).

(** Enter the scheduler. Must hold only ptable.lock and have changed the
    process's state. *)
Definition sched (c : cpustate) (cur : nat) : M (pstate E) unit :=
  assert_or_panic (cs_ptable c) "sched ptable.lock";;
  assert_or_panic (cs_ncli c =? 1)%Z "sched locks";;
  p ← getp cur;
  assert_or_panic (negb (bool_decide (p_state p = RUNNING))) "sched running";;
  assert_or_panic (negb (cs_if c)) "sched interruptible".

Fixpoint close_files (cur : nat) (fd : nat) (l : list (option nat)) : M (pstate E) unit :=
  match l with
  | [] => mret tt
  | Some f :: l =>
    env (pe_fileclose f);;
    updp cur (λ p, set_ofile (<[fd := None]> (p_ofile p)) p);;
    close_files cur (S fd) l
  | None :: l => close_files cur (S fd) l
  end.

(** The part of [exit] before its section of [ptable.lock]. *)
Definition exit_files (cur : nat) : M (pstate E) unit :=
  s ← (mget : M (pstate E) _);
  assert_or_panic (negb (bool_decide (ps_initproc s = Some cur))) "init exiting";;
  c ← getp cur;
  close_files cur 0 (p_ofile c);;
  env pe_begin_op;;
  match p_cwd c with Some d => env (pe_iput d) | None => panic "trap" end;;
  env pe_end_op;;
  updp cur (set_cwd None).
(** The section: ends in the scheduler. *)
Definition exit_table (c : cpustate) (cur : nat) : M (pstate E) unit :=
  c ← acquire_ptable c;
  p ← getp cur;
  match p_parent p with Some q => wakeup1 (ChProc q) | None => mret tt end;;
  s ← (mget : M (pstate E) _);
  mfor (seq 0 (length (ps_procs s))) (λ i,
    p ← getp i;
    if decide (p_parent p = Some cur) then
      updp i (set_parent (ps_initproc s));;
      match ps_initproc s with
      | Some ini => if decide (p_state p = ZOMBIE) then wakeup1 (ChProc ini) else mret tt
      | None => mret tt
      end
    else mret tt);;
  updp cur (set_pstate ZOMBIE);;
  sched c cur.
(** Exit the current process. *)
Definition exit (c : cpustate) (cur : nat) : M (pstate E) unit :=
  exit_files cur;; exit_table c cur.

(** The lock argument of [sleep]: [ptable.lock], another lock that the caller
    holds, or null. *)
Inductive sleep_lock := PtableLock | OtherLock | NullLock.

(** Atomically release the caller's lock and sleep on [ch]. *)
Definition sleep (c : cpustate) (lk : sleep_lock) (cur : nat) (ch : chan) : M (pstate E) unit :=
  c ← match lk with
      | PtableLock => mret c
      | OtherLock =>
        c ← acquire_ptable c;
        assert_or_panic (1 <? cs_ncli c)%Z "release";;
        mret (CpuState (cs_ncli c - 1) (cs_if c) true)
      | NullLock => acquire_ptable c
      end;
  updp cur (λ p, set_pstate SLEEPING (set_chan (Some ch) p));;
  sched c cur.
(** What [sleep] does when it is scheduled again. *)
Definition sleep_resume (cur : nat) : M (pstate E) unit := updp cur (set_chan None).

(** The slot of an exited child, freed. *)
Definition reap (i : nat) : M (pstate E) Z :=
  p ← getp i;
  env (pe_kfree (p_kstack p));;
  updp i (set_kstack 0);;
  env (pe_freevm (p_pgdir p));;
  updp i (λ p, set_pstate UNUSED (set_killed 0 (set_name (<[0 := 0%Z]> (p_name p))
    (set_parent None (set_pid 0 p)))));;
  mret (p_pid p).

Definition is_child (cur : nat) (p : proc) : bool := bool_decide (p_parent p = Some cur).
Definition is_zombie (p : proc) : bool := bool_decide (p_state p = ZOMBIE).

(** One scan of [wait]'s loop, with the lock held: the result, or nothing if it
    goes to sleep. *)
Definition wait_scan (c : cpustate) (cur : nat) : M (pstate E) (option Z) :=
  s ← (mget : M (pstate E) _);
  match first_slot (λ p, is_child cur p && is_zombie p) (ps_procs s) with
  | Some i => pid ← reap i; mret (Some pid)
  | None =>
    q ← getp cur;
    if decide (first_slot (is_child cur) (ps_procs s) = None ∨ p_killed q ≠ 0%Z) then mret (Some (-1)%Z)
    else sleep c PtableLock cur (ChProc cur);; mret None
  end.

(** Give up the CPU for one scheduling round. *)
Definition yield (c : cpustate) (cur : nat) : M (pstate E) unit :=
  c ← acquire_ptable c;
  updp cur (set_pstate RUNNABLE);;
  sched c cur.

(** Kill the process with the given pid. *)
Definition kill (pid : Z) : M (pstate E) Z :=
  s ← (mget : M (pstate E) _);
  match first_slot (λ p, (p_pid p =? u32 pid)%Z) (ps_procs s) with
  | Some i =>
    updp i (λ p, if decide (p_state p = SLEEPING) then set_pstate RUNNABLE (set_killed 1 p) else set_killed 1 p);;
    mret 0%Z
  | None => mret (-1)%Z
  end.

(** The scheduler's loop over the table, from slot [i] on: the next process to
    run is marked RUNNING; at the end of the table the loop starts again. *)
Definition scheduler_next (i : nat) : M (pstate E) (option nat) :=
  s ← (mget : M (pstate E) _);
  match first_slot (λ p, bool_decide (p_state p = RUNNABLE)) (drop i (ps_procs s)) with
  | Some k => updp (i + k) (set_pstate RUNNING);; mret (Some (i + k))
  | None => mret None
  end.

End proc_code.
