(* ===== verification/ProcInv.v ===== *)
(** * The process table: transitions and invariants

    What each operation of proc.c does to the parts of the table that other
    processes depend on, the system of processes on several CPUs as a step
    relation, and its invariants. *)

From S2P Require Import Prelude Params CString Kalloc Proc.

(** The fields that scheduling, [wait] and [kill] depend on. *)
Record core := Core {
  k_state : procstate; k_pid : Z; k_parent : option nat; k_chan : option chan;
  k_killed : Z; k_kstack : Z
}.
Definition pcore (p : proc) : core :=
  Core (p_state p) (p_pid p) (p_parent p) (p_chan p) (p_killed p) (p_kstack p).
Definition with_state (v : procstate) (k : core) : core :=
  Core v (k_pid k) (k_parent k) (k_chan k) (k_killed k) (k_kstack k).
Definition with_parent (v : option nat) (k : core) : core :=
  Core (k_state k) (k_pid k) v (k_chan k) (k_killed k) (k_kstack k).
Definition wake (ch : chan) (k : core) : core :=
  if decide (k_state k = SLEEPING ∧ k_chan k = Some ch) then with_state RUNNABLE k else k.

Section effects.
Context {E : Type} `{ProcEnv E}.
Implicit Types (s : pstate E).

Definition cores s : list core := pcore <$> ps_procs s.

(** Two states that differ only in what [cores] leaves out. *)
Definition frame s s' : Prop :=
  cores s' = cores s ∧ ps_initproc s' = ps_initproc s ∧ ps_nextpid s' = ps_nextpid s.

#[export] Instance frame_refl : Reflexive frame.
Proof. done. Qed.
#[export] Instance frame_trans : Transitive frame.
Proof. intros x y z (?&?&?) (?&?&?). split_and!; congruence. Qed.

Lemma cores_alter i f g (l : list proc) : (∀ p, pcore (f p) = g (pcore p)) →
  pcore <$> alter f i l = alter g i (pcore <$> l).
Proof.
  intros Hf. revert i. induction l as [|p l IH]; intros [|i]; simpl; [done..|by rewrite Hf|].
  f_equal. apply IH.
Qed.

Lemma env_done {A} (m : M E A) s a s' : env m s = Done a s' → frame s s'.
Proof.
  unfold env, zoom. destruct (m (ps_env s)); intros Hd; try discriminate Hd. injection Hd as <- <-. done.
Qed.

(** An update of slot [i], when the table is [l] with [k] in that slot. *)
Lemma upd_at i f g k l s s' : (∀ p, pcore (f p) = g (pcore p)) → i < length l →
  cores s = <[i := k]> l → updp i f s = Done tt s' →
  cores s' = <[i := g k]> l ∧ ps_initproc s' = ps_initproc s ∧ ps_nextpid s' = ps_nextpid s.
Proof.
  intros Hf Hi Hc. unfold updp, mmodify. intros [= <-]. split_and!; [|done|done]. unfold cores. simpl.
  rewrite (cores_alter _ _ _ _ Hf). fold (cores s). rewrite Hc.
  rewrite (list_alter_Some _ _ _ k) by (by apply list_lookup_insert_eq). apply list_insert_insert_eq.
Qed.

Lemma upd_frame i f s s' : (∀ p, pcore (f p) = pcore p) → updp i f s = Done tt s' → frame s s'.
Proof.
  intros Hf. unfold updp, mmodify. intros [= <-]. split_and!; [|done|done]. unfold cores. simpl.
  rewrite (cores_alter _ _ id) by done. apply list_eq. intros j. rewrite list_lookup_alter.
  case_decide; [|done]. subst j. by rewrite option_fmap_id.
Qed.

Lemma getp_done i s p s' : getp i s = Done p s' → s' = s ∧ p = ps_procs s !!! i.
Proof. unfold getp. naive_solver. Qed.

Lemma cores_lookup s i : cores s !! i = pcore <$> ps_procs s !! i.
Proof. apply list_lookup_fmap. Qed.

Lemma getp_core s i k : cores s !! i = Some k → pcore (ps_procs s !!! i) = k.
Proof.
  rewrite cores_lookup, list_lookup_total_alt. destruct (_ !! i); simpl; naive_solver.
Qed.

Lemma first_slot_cores (P : proc → bool) (Q : core → bool) (l : list proc) :
  (∀ p, P p = Q (pcore p)) →
  match first_slot P l with
  | Some i => ∃ k, (pcore <$> l) !! i = Some k ∧ Q k = true ∧
      ∀ j q, j < i → (pcore <$> l) !! j = Some q → Q q = false
  | None => ∀ i k, (pcore <$> l) !! i = Some k → Q k = false
  end.
Proof.
  intros HP. unfold first_slot. destruct (list_find _ l) as [[i p]|] eqn:Hf; simpl.
  - apply list_find_Some in Hf as (Hi & Hp & Hbefore). exists (pcore p).
    rewrite list_lookup_fmap, Hi, <-HP. split_and!; [done|done|]. intros j q Hj.
    rewrite list_lookup_fmap. destruct (l !! j) as [y|] eqn:Hy; intros [= <-]. rewrite <-HP.
    specialize (Hbefore _ _ Hy Hj). by destruct (P y).
  - apply list_find_None in Hf. rewrite Forall_lookup in Hf. intros i k.
    rewrite list_lookup_fmap. destruct (l !! i) as [p|] eqn:Hi; intros [= <-].
    specialize (Hf _ _ Hi). rewrite <-HP. by destruct (P p).
Qed.

Lemma dup_files_frame np fd l s s' : dup_files np fd l s = Done tt s' → frame s s'.
Proof.
  revert fd s. induction l as [|[f|] l IH]; intros fd s; cbn [dup_files]; [by intros [= <-]| |apply IH].
  intros (f' & s1 & H1 & (u & s2 & H2 & H3)%bind_done)%bind_done. apply env_done in H1. destruct u.
  apply upd_frame in H2; [|done]. apply IH in H3. by etrans; [|etrans].
Qed.

Lemma close_files_frame cur fd l s s' : close_files cur fd l s = Done tt s' → frame s s'.
Proof.
  revert fd s. induction l as [|[f|] l IH]; intros fd s; cbn [close_files]; [by intros [= <-]| |apply IH].
  intros (u1 & s1 & H1 & (u & s2 & H2 & H3)%bind_done)%bind_done. apply env_done in H1. destruct u.
  apply upd_frame in H2; [|done]. apply IH in H3. by etrans; [|etrans].
Qed.

(** ** fork *)

Definition first_unused (i : nat) (l : list core) : Prop :=
  ∀ j q, j < i → l !! j = Some q → k_state q ≠ UNUSED.

Definition embryo (pid : Z) (k : core) : core :=
  Core EMBRYO pid (k_parent k) (k_chan k) (k_killed k) (k_kstack k).

Lemma frame_cores s s' l : frame s s' → cores s = l → cores s' = l.
Proof. intros (Hc & _) <-. exact Hc. Qed.

(** An operation that changes one slot of the table. *)
Definition puts s s' (i : nat) (k : core) : Prop :=
  cores s' = <[i := k]> (cores s) ∧ ps_initproc s' = ps_initproc s ∧ ps_nextpid s' = ps_nextpid s.

Lemma alloc_slot_run s r s' : alloc_slot s = Done r s' →
  match r with
  | None => s' = s ∧ ∀ i k, cores s !! i = Some k → k_state k ≠ UNUSED
  | Some i => ∃ k, first_unused i (cores s) ∧ cores s !! i = Some k ∧ k_state k = UNUSED ∧
      cores s' = <[i := embryo (ps_nextpid s) k]> (cores s) ∧ ps_initproc s' = ps_initproc s ∧ ps_nextpid s' = u32 (ps_nextpid s + 1)
  end.
Proof.
  unfold alloc_slot. intros (s0 & s1 & [= <- <-] & Hrun)%bind_done.
  pose proof (first_slot_cores (λ p, bool_decide (p_state p = UNUSED)) (λ k, bool_decide (k_state k = UNUSED))
    (ps_procs s) (λ _, eq_refl)) as Hf. fold (cores s) in Hf.
  destruct (first_slot _ _) as [i|].
  2:{ injection Hrun as <- <-. split; [done|]. intros i k Hk. specialize (Hf _ _ Hk). by apply bool_decide_eq_false in Hf. }
  destruct Hf as (k & Hk & Hst%bool_decide_eq_true & Hfirst). pose proof (lookup_lt_Some _ _ _ Hk) as Hlt.
  apply bind_done in Hrun as ([] & s1 & H1 & ([] & s2 & H2 & [= <- <-])%bind_done).
  eapply (upd_at _ _ (embryo (ps_nextpid s)) k) in H1 as (C1 & I1 & N1);
    [|done|exact Hlt|by rewrite list_insert_id].
  injection H2 as <-. exists k. split_and!; [|done|done|exact C1|exact I1|simpl; by rewrite N1].
  intros j q Hj Hq. by apply (Hfirst _ _ Hj), bool_decide_eq_false in Hq.
Qed.

Lemma alloc_stack_run forkret i s r s' k : cores s !! i = Some k → alloc_stack forkret i s = Done r s' →
  r = None ∧ puts s s' i (Core UNUSED (k_pid k) (k_parent k) (k_chan k) (k_killed k) 0) ∨
  r = Some i ∧ ∃ ks, ks ≠ 0%Z ∧ puts s s' i (Core (k_state k) (k_pid k) (k_parent k) (k_chan k) (k_killed k) ks).
Proof.
  intros Hk. pose proof (lookup_lt_Some _ _ _ Hk) as Hlt. unfold alloc_stack. intros (ks & s1 & H1%env_done & ([] & s2 & H2 & H3)%bind_done)%bind_done.
  assert (C1 : cores s1 = <[i := k]> (cores s)) by (rewrite list_insert_id by done; apply H1). destruct H1 as (_ & I1 & N1).
  eapply (upd_at _ _ (λ k, Core (k_state k) (k_pid k) (k_parent k) (k_chan k) (k_killed k) ks)) in H2
    as (C2 & I2 & N2); [|done|exact Hlt|exact C1].
  case_decide as Hks.
  - left. apply bind_done in H3 as ([] & s3 & H3 & [= <- <-]).
    eapply (upd_at _ _ (with_state UNUSED)) in H3 as (C3 & I3 & N3); [|done|exact Hlt|exact C2].
    split; [done|]. split_and!; [by rewrite C3, Hks|congruence|congruence].
  - right. apply bind_done in H3 as ([] & s3 & H3 & [= <- <-]). apply upd_frame in H3 as (C3 & I3 & N3); [|done].
    split; [done|]. exists ks. split; [done|]. split_and!; [by rewrite C3, C2|congruence|congruence].
Qed.

Inductive alloc_effect s s' : option nat → Prop :=
| alloc_full : frame s s' → (∀ i k, cores s !! i = Some k → k_state k ≠ UNUSED) → alloc_effect s s' None
| alloc_nomem i k : first_unused i (cores s) → cores s !! i = Some k → k_state k = UNUSED →
    cores s' = <[i := Core UNUSED (ps_nextpid s) (k_parent k) (k_chan k) (k_killed k) 0]> (cores s) →
    ps_initproc s' = ps_initproc s → ps_nextpid s' = u32 (ps_nextpid s + 1) → alloc_effect s s' None
| alloc_ok i k ks : first_unused i (cores s) → cores s !! i = Some k → k_state k = UNUSED → ks ≠ 0%Z →
    cores s' = <[i := Core EMBRYO (ps_nextpid s) (k_parent k) (k_chan k) (k_killed k) ks]> (cores s) →
    ps_initproc s' = ps_initproc s → ps_nextpid s' = u32 (ps_nextpid s + 1) → alloc_effect s s' (Some i).

Lemma allocproc_effect forkret s r s' : allocproc forkret s = Done r s' → alloc_effect s s' r.
Proof.
  unfold allocproc. intros (r0 & s1 & H1%alloc_slot_run & Hrun)%bind_done. destruct r0 as [i|].
  2:{ destruct H1 as [-> Hno]. injection Hrun as <- <-. by apply alloc_full. }
  destruct H1 as (k & Hfu & Hk & Hst & C1 & I1 & N1). pose proof (lookup_lt_Some _ _ _ Hk) as Hlt.
  assert (Hk1 : cores s1 !! i = Some (embryo (ps_nextpid s) k)) by (rewrite C1; by apply list_lookup_insert_eq).
  destruct (alloc_stack_run _ _ _ _ _ _ Hk1 Hrun) as [(-> & C2 & I2 & N2)|(-> & ks & Hks & C2 & I2 & N2)];
    rewrite C1, list_insert_insert_eq in C2.
  - eapply alloc_nomem; [exact Hfu|done|done|exact C2|congruence|congruence].
  - eapply (alloc_ok _ _ i k ks); [exact Hfu|done|done|done|exact C2|congruence|congruence].
Qed.

Lemma fork_copy_run cur np s r s' k : cores s !! np = Some k → fork_copy cur np s = Done r s' →
  puts s s' np (if r : bool then with_parent (Some cur) k else Core UNUSED (k_pid k) (k_parent k) (k_chan k) (k_killed k) 0).
Proof.
  intros Hk. pose proof (lookup_lt_Some _ _ _ Hk) as Hlt. unfold fork_copy.
  intros (c & s2 & [-> ->]%getp_done & (pg & s3 & H3%env_done & ([] & s4 & H4 & H5)%bind_done)%bind_done)%bind_done.
  apply upd_frame in H4; [|done]. assert (F4 : frame s s4) by (by etrans). clear H3 H4.
  assert (C4 : cores s4 = <[np := k]> (cores s)) by (rewrite list_insert_id by done; apply F4). destruct F4 as (_ & I4 & N4). case_decide as Hpg.
  - apply bind_done in H5 as (q & s5 & [-> ->]%getp_done & ([] & s6 & H6%env_done & ([] & s7 & H7 & ([] & s8 & H8 & [= <- <-])%bind_done)%bind_done)%bind_done).
    assert (C6 := frame_cores _ _ _ H6 C4). destruct H6 as (_ & I6 & N6).
    eapply (upd_at _ _ (λ k, Core (k_state k) (k_pid k) (k_parent k) (k_chan k) (k_killed k) 0)) in H7
      as (C7 & I7 & N7); [|done|exact Hlt|exact C6].
    eapply (upd_at _ _ (with_state UNUSED)) in H8 as (C8 & I8 & N8); [|done|exact Hlt|exact C7].
    split_and!; [exact C8|congruence|congruence].
  - apply bind_done in H5 as ([] & s5 & H5 & ([] & s6 & H6%dup_files_frame & H7)%bind_done).
    eapply (upd_at _ _ (with_parent (Some cur))) in H5 as (C5 & I5 & N5); [|done|exact Hlt|exact C4].
    assert (C6 := frame_cores _ _ _ H6 C5). destruct H6 as (_ & I6 & N6).
    apply bind_done in H7 as (cwd & s7 & H7 & ([] & s8 & H8 & ([] & s9 & H9 & [= <- <-])%bind_done)%bind_done).
    assert (F7 : frame s6 s7).
    { destruct (p_cwd _); [|discriminate H7]. apply bind_done in H7 as (d & s71 & H7%env_done & [= <- <-]). done. }
    apply upd_frame in H8; [|done]. apply upd_frame in H9; [|done].
    assert (F9 : frame s6 s9) by (by etrans; [|etrans]).
    assert (C9 := frame_cores _ _ _ F9 C6). destruct F9 as (_ & I9 & N9). split_and!; [exact C9|congruence|congruence].
Qed.

Lemma fork_ready_run np s r s' k : cores s !! np = Some k → fork_ready np s = Done r s' → r = k_pid k ∧ puts s s' np (with_state RUNNABLE k).
Proof.
  intros Hk. pose proof (lookup_lt_Some _ _ _ Hk) as Hlt. unfold fork_ready.
  intros (q & s1 & [-> ->]%getp_done & ([] & s2 & H2 & [= <- <-])%bind_done)%bind_done. split; [by rewrite <-(getp_core _ _ _ Hk)|].
  eapply (upd_at _ _ (with_state RUNNABLE) k) in H2 as (C2 & I2 & N2); [|done|exact Hlt|by rewrite list_insert_id]. by split_and!.
Qed.

(** [fork] makes a runnable child in an unused slot, or leaves the slot unused. *)
Inductive fork_effect (cur : nat) s s' : Z → Prop :=
| fork_full : frame s s' → (∀ i k, cores s !! i = Some k → k_state k ≠ UNUSED) → fork_effect cur s s' (-1)
| fork_nomem i k : first_unused i (cores s) → cores s !! i = Some k → k_state k = UNUSED →
    cores s' = <[i := Core UNUSED (ps_nextpid s) (k_parent k) (k_chan k) (k_killed k) 0]> (cores s) →
    ps_initproc s' = ps_initproc s → ps_nextpid s' = u32 (ps_nextpid s + 1) → fork_effect cur s s' (-1)
| fork_ok i k ks : first_unused i (cores s) → cores s !! i = Some k → k_state k = UNUSED → ks ≠ 0%Z →
    cores s' = <[i := Core RUNNABLE (ps_nextpid s) (Some cur) (k_chan k) (k_killed k) ks]> (cores s) →
    ps_initproc s' = ps_initproc s → ps_nextpid s' = u32 (ps_nextpid s + 1) →
    fork_effect cur s s' (ps_nextpid s).

Lemma fork_run forkret cur s r s' : fork forkret cur s = Done r s' → fork_effect cur s s' r.
Proof.
  unfold fork. intros (r0 & s1 & Ha%allocproc_effect & Hrun)%bind_done.
  destruct Ha as [Hf Hno|i k Hfu Hk Hst C I N|i k ks Hfu Hk Hst Hks C I N].
  { injection Hrun as <- <-. by apply fork_full. }
  { injection Hrun as <- <-. by eapply fork_nomem. }
  pose proof (lookup_lt_Some _ _ _ Hk) as Hlt. apply bind_done in Hrun as (ok & s2 & H2 & H3).
  assert (Hk1 : cores s1 !! i = Some (Core EMBRYO (ps_nextpid s) (k_parent k) (k_chan k) (k_killed k) ks)) by (rewrite C; by apply list_lookup_insert_eq).
  destruct (fork_copy_run _ _ _ _ _ _ Hk1 H2) as (C2 & I2 & N2). rewrite C, list_insert_insert_eq in C2. destruct ok.
  - assert (Hk2 : cores s2 !! i = Some (Core EMBRYO (ps_nextpid s) (Some cur) (k_chan k) (k_killed k) ks)) by (rewrite C2; by apply list_lookup_insert_eq).
    destruct (fork_ready_run _ _ _ _ _ Hk2 H3) as (-> & C3 & I3 & N3). rewrite C2, list_insert_insert_eq in C3.
    eapply fork_ok; [exact Hfu|done|done|exact Hks|exact C3|congruence|congruence].
  - injection H3 as <- <-. eapply fork_nomem; [exact Hfu|done|done|exact C2|congruence|congruence].
Qed.

(** ** exit *)

Definition reparent (cur ini : nat) (k : core) : core :=
  if decide (k_parent k = Some cur) then with_parent (Some ini) k else k.
Definition zombie_child (cur : nat) (k : core) : Prop := k_parent k = Some cur ∧ k_state k = ZOMBIE.
#[export] Instance zombie_child_dec cur k : Decision (zombie_child cur k).
Proof. unfold zombie_child. apply _. Defined.

Definition wake_if (b : bool) (ch : chan) (k : core) : core := if b then wake ch k else k.

Lemma wakeup1_run ch s :
  wakeup1 ch s = Done tt (PState (wakeup1_proc ch <$> ps_procs s) (ps_initproc s) (ps_nextpid s) (ps_env s)).
Proof. done. Qed.

Lemma pcore_wakeup1 ch (l : list proc) : pcore <$> (wakeup1_proc ch <$> l) = wake ch <$> (pcore <$> l).
Proof.
  rewrite <-!list_fmap_compose. apply list_fmap_ext. intros i p _. simpl. unfold wakeup1_proc, wake. simpl.
  by case_decide.
Qed.

Lemma wake_parent ch k : k_parent (wake ch k) = k_parent k.
Proof. unfold wake. by case_decide. Qed.
Lemma wake_zombie ch k : k_state (wake ch k) = ZOMBIE ↔ k_state k = ZOMBIE.
Proof.
  unfold wake. case_decide as Hs; simpl; [|done]. destruct Hs as [-> _]. done.
Qed.
Lemma wake_wake ch k : wake ch (wake ch k) = wake ch k.
Proof.
  unfold wake at 2 3. case_decide as Hs; unfold wake; [|by rewrite decide_False].
  rewrite decide_False; [done|]. by intros [? _].
Qed.
Lemma wake_with_parent ch v k : wake ch (with_parent v k) = with_parent v (wake ch k).
Proof. unfold wake, with_parent. simpl. by case_decide. Qed.

(** The table while the loop of [exit] is at slot [n]. *)
Definition exit_at (cur ini n : nat) (l : list core) : list core :=
  imap (λ i k, wake_if (bool_decide (Exists (zombie_child cur) (take n l))) (ChProc ini)
    (if decide (i < n) then reparent cur ini k else k)) l.

Lemma exit_at_S cur ini n l k : l !! n = Some k →
  exit_at cur ini (S n) l =
    (let l' := if decide (k_parent k = Some cur) then alter (with_parent (Some ini)) n (exit_at cur ini n l)
               else exit_at cur ini n l in
     if decide (zombie_child cur k) then wake (ChProc ini) <$> l' else l').
Proof.
  intros Hn. set (b := bool_decide (Exists (zombie_child cur) (take n l))).
  assert (Hb : bool_decide (Exists (zombie_child cur) (take (S n) l)) = b || bool_decide (zombie_child cur k)).
  { rewrite (take_S_r _ _ _ Hn). unfold b. apply eq_bool_prop_intro.
    rewrite orb_True, !bool_decide_spec, Exists_app, Exists_cons, Exists_nil. naive_solver. }
  assert (Hat : ∀ i, (if decide (k_parent k = Some cur) then alter (with_parent (Some ini)) n (exit_at cur ini n l)
      else exit_at cur ini n l) !! i =
    (λ q, wake_if b (ChProc ini) (if decide (i < S n) then reparent cur ini q else q)) <$> l !! i).
  { intros i. destruct (decide (i = n)) as [->|Hne].
    - rewrite Hn. simpl. rewrite (decide_True (P := n < S n)) by lia. unfold reparent.
      case_decide; [rewrite list_lookup_alter_eq|]; unfold exit_at; rewrite list_lookup_imap, Hn; simpl;
        rewrite decide_False by lia; fold b; [|done]. f_equal. destruct b; simpl; [|done]. by rewrite wake_with_parent.
    - trans (exit_at cur ini n l !! i).
      { destruct (decide (k_parent k = Some cur)); [by rewrite list_lookup_alter_ne|done]. }
      unfold exit_at. rewrite list_lookup_imap. fold b. destruct (l !! i); simpl; [|done]. do 2 f_equal.
      repeat case_decide; lia || done. }
  apply list_eq. intros i. cbv zeta. unfold exit_at at 1. rewrite list_lookup_imap, Hb.
  destruct (decide (zombie_child cur k)) as [Hz|Hz].
  - rewrite list_lookup_fmap, Hat. rewrite bool_decide_eq_true_2 by done. rewrite orb_true_r.
    destruct (l !! i); simpl; [|done]. f_equal. destruct b; simpl; [by rewrite wake_wake|done].
  - rewrite Hat, bool_decide_eq_false_2, orb_false_r by done. done.
Qed.

(** The table after [exit]. *)
Definition exit_cores (cur ini : nat) (par : option nat) (l : list core) : list core :=
  let l1 := match par with Some q => wake (ChProc q) <$> l | None => l end in
  alter (with_state ZOMBIE) cur (exit_at cur ini (length l1) l1).

Lemma exit_loop cur ini s l (Q : unit → pstate E → Prop) :
  cores s = l → ps_initproc s = Some ini →
  (∀ s', cores s' = exit_at cur ini (length l) l → ps_initproc s' = Some ini →
    ps_nextpid s' = ps_nextpid s → Q tt s') →
  wp (mfor (seq 0 (length (ps_procs s))) (λ i,
    p ← getp i;
    if decide (p_parent p = Some cur) then
      updp i (set_parent (ps_initproc s));;
      match ps_initproc s with
      | Some ini => if decide (p_state p = ZOMBIE) then wakeup1 (ChProc ini) else mret tt
      | None => mret tt
      end
    else mret tt)) Q s.
Proof.
  intros Hl Hini HQ. assert (Hlen : length (ps_procs s) = length l).
  { rewrite <-Hl. unfold cores. by rewrite length_fmap. }
  eapply (wp_mfor_seq (λ n s', cores s' = exit_at cur ini n l ∧ ps_initproc s' = Some ini ∧
    ps_nextpid s' = ps_nextpid s)).
  - split_and!; [|done|done]. rewrite Hl. unfold exit_at. apply list_eq. intros i. rewrite list_lookup_imap.
    by destruct (l !! i).
  - intros n t Hn (Ht & Hi & Hp). rewrite Hlen in Hn. destruct (lookup_lt_is_Some_2 l n Hn) as [k Hk].
    eapply wp_bind, wp_done; [reflexivity|].
    assert (Hc : pcore (ps_procs t !!! n) = wake_if (bool_decide (Exists (zombie_child cur) (take n l))) (ChProc ini) k).
    { apply getp_core. rewrite Ht. unfold exit_at. rewrite list_lookup_imap, Hk. simpl. by rewrite decide_False by lia. }
    assert (Hpar : p_parent (ps_procs t !!! n) = k_parent k).
    { change (k_parent (pcore (ps_procs t !!! n)) = k_parent k). rewrite Hc.
      destruct (bool_decide _); [apply wake_parent|done]. }
    assert (Hz : p_state (ps_procs t !!! n) = ZOMBIE ↔ k_state k = ZOMBIE).
    { change (k_state (pcore (ps_procs t !!! n)) = ZOMBIE ↔ k_state k = ZOMBIE). rewrite Hc.
      destruct (bool_decide _); [apply wake_zombie|done]. }
    pose proof (exit_at_S cur ini n l k Hk) as HS. cbv zeta in HS. rewrite Hpar. unfold zombie_child in HS.
    destruct (decide (k_parent k = Some cur)) as [Hpc|Hpc].
    2:{ apply wp_ret. split_and!; [|done|done]. rewrite HS, decide_False by naive_solver. done. }
    eapply wp_bind, wp_done; [reflexivity|]. rewrite Hini.
    destruct (decide (p_state (ps_procs t !!! n) = ZOMBIE)) as [Hzz|Hzz].
    + rewrite decide_True in HS by (split; [done|by apply Hz]). eapply wp_done; [apply wakeup1_run|].
      split_and!; [|done|done]. unfold cores. simpl.
      rewrite pcore_wakeup1, (cores_alter _ _ (with_parent (Some ini))) by done. fold (cores t). by rewrite Ht, HS.
    + rewrite decide_False in HS by (intros [_ ?]; by apply Hzz, Hz). apply wp_ret. split_and!; [|done|done].
      unfold cores. simpl. rewrite (cores_alter _ _ (with_parent (Some ini))) by done. fold (cores t). by rewrite Ht, HS.
  - intros s' (? & ? & ?). rewrite Hlen in *. by apply HQ.
Qed.

Lemma exit_files_run cur s s' : exit_files cur s = Done tt s' → frame s s' ∧ ps_initproc s ≠ Some cur.
Proof.
  unfold exit_files.
  intros (s0 & s1 & [= <- <-] & ([] & s2 & [Hne ->]%assert_done & (c & s3 & [-> ->]%getp_done & ([] & s4 & H4%close_files_frame & ([] & s5 & H5%env_done & Hrun)%bind_done)%bind_done)%bind_done)%bind_done)%bind_done.
  apply bind_done in Hrun as ([] & s6 & H6 & ([] & s7 & H7%env_done & H8)%bind_done).
  assert (F6 : frame s5 s6) by (destruct (p_cwd _); [by apply env_done in H6|discriminate H6]).
  apply upd_frame in H8; [|done].
  split; [repeat (etrans; [eassumption|]); reflexivity || done|]. intros Hi. rewrite bool_decide_eq_true_2 in Hne by done. done.
Qed.

Lemma acquire_ptable_done c s c' s' : acquire_ptable c s = Done c' s' → s' = s.
Proof. unfold acquire_ptable. intros ([] & s1 & [_ ->]%assert_done & [= _ <-])%bind_done. done. Qed.

Lemma sched_done c cur s s' : sched c cur s = Done tt s' → s' = s.
Proof.
  unfold sched. intros ([] & s1 & [_ ->]%assert_done & ([] & s2 & [_ ->]%assert_done & (p & s3 & [-> _]%getp_done & ([] & s4 & [_ ->]%assert_done & [_ ->]%assert_done)%bind_done)%bind_done)%bind_done)%bind_done.
  done.
Qed.

Lemma exit_table_run c cur ini s s' : ps_initproc s = Some ini → exit_table c cur s = Done tt s' →
  ps_initproc s' = Some ini ∧ ps_nextpid s' = ps_nextpid s ∧ cores s' = exit_cores cur ini (p_parent (ps_procs s !!! cur)) (cores s).
Proof.
  intros Hini. unfold exit_table. intros (c' & s0 & ->%acquire_ptable_done & (p & s1 & [-> ->]%getp_done & Hrun)%bind_done)%bind_done.
  apply bind_done in Hrun as ([] & s9 & H9 & (t & t1 & [= <- <-] & ([] & s10 & H10 & ([] & s11 & H11 & ->%sched_done)%bind_done)%bind_done)%bind_done).
  set (par := p_parent (ps_procs s !!! cur)) in *.
  set (l1 := match par with Some q => wake (ChProc q) <$> cores s | None => cores s end).
  assert (F9 : cores s9 = l1 ∧ ps_initproc s9 = Some ini ∧ ps_nextpid s9 = ps_nextpid s).
  { unfold l1. destruct par as [q|].
    - rewrite wakeup1_run in H9. injection H9 as <-. split_and!; [|done|done]. unfold cores. simpl. by rewrite pcore_wakeup1.
    - injection H9 as <-. by split_and!. }
  destruct F9 as (C9 & I9 & N9).
  pose proof (exit_loop cur ini s9 l1 (λ _ s', cores s' = exit_at cur ini (length l1) l1 ∧
    ps_initproc s' = Some ini ∧ ps_nextpid s' = ps_nextpid s9) C9 I9) as Hloop.
  unfold wp in Hloop. rewrite H10 in Hloop. destruct Hloop as (C10 & I10 & N10); [done|].
  injection H11 as <-. split_and!; [exact I10|simpl; congruence|].
  unfold cores. simpl. rewrite (cores_alter _ _ (with_state ZOMBIE)) by done. fold (cores s10). by rewrite C10.
Qed.

(** ** The other operations *)

Lemma kill_run pid s r s' : kill pid s = Done r s' →
  frame s s' ∧ r = (-1)%Z ∧ (∀ i k, cores s !! i = Some k → k_pid k ≠ u32 pid) ∨
  ∃ i k, cores s !! i = Some k ∧ k_pid k = u32 pid ∧ r = 0%Z ∧
    (∀ j q, j < i → cores s !! j = Some q → k_pid q ≠ u32 pid) ∧
    ps_initproc s' = ps_initproc s ∧ ps_nextpid s' = ps_nextpid s ∧
    cores s' = <[i := Core (if decide (k_state k = SLEEPING) then RUNNABLE else k_state k)
      (k_pid k) (k_parent k) (k_chan k) 1 (k_kstack k)]> (cores s).
Proof.
  unfold kill. intros (s0 & s1 & [= <- <-] & Hrun)%bind_done.
  pose proof (first_slot_cores (λ p, (p_pid p =? u32 pid)%Z) (λ k, (k_pid k =? u32 pid)%Z)
    (ps_procs s) (λ _, eq_refl)) as Hf. fold (cores s) in Hf.
  destruct (first_slot _ _) as [i|].
  - right. destruct Hf as (k & Hk & Hp%Z.eqb_eq & Hfirst). pose proof (lookup_lt_Some _ _ _ Hk) as Hlt.
    apply bind_done in Hrun as ([] & s1 & H1 & [= <- <-]).
    eapply (upd_at _ _ (λ k, Core (if decide (k_state k = SLEEPING) then RUNNABLE else k_state k)
      (k_pid k) (k_parent k) (k_chan k) 1 (k_kstack k)) k) in H1 as (C1 & I1 & N1);
      [|intros p; simpl; by case_decide|exact Hlt|by rewrite list_insert_id].
    exists i, k. split_and!; [done|done|done| |done|done|done].
    intros j q Hj Hq. by apply (Hfirst _ _ Hj), Z.eqb_neq in Hq.
  - left. injection Hrun as <- <-. split_and!; [done|done|]. intros i k Hk. specialize (Hf _ _ Hk).
    by apply Z.eqb_neq in Hf.
Qed.

Lemma sleep_run c lk cur ch s s' k : cores s !! cur = Some k → sleep c lk cur ch s = Done tt s' →
  puts s s' cur (Core SLEEPING (k_pid k) (k_parent k) (Some ch) (k_killed k) (k_kstack k)).
Proof.
  intros Hk. pose proof (lookup_lt_Some _ _ _ Hk) as Hlt. unfold sleep.
  intros (c1 & s0 & H0 & ([] & s1 & H1 & ->%sched_done)%bind_done)%bind_done.
  assert (s0 = s) as ->.
  { destruct lk; [by injection H0|apply bind_done in H0 as (c0 & s2 & ->%acquire_ptable_done & ([] & s3 & [_ ->]%assert_done & [= _ <-])%bind_done); done|by eapply acquire_ptable_done]. }
  eapply (upd_at _ _ (λ k, Core SLEEPING (k_pid k) (k_parent k) (Some ch) (k_killed k) (k_kstack k)) k) in H1
    as (C1 & I1 & N1); [|done|exact Hlt|by rewrite list_insert_id]. by split_and!.
Qed.

Lemma yield_run c cur s s' k : cores s !! cur = Some k → yield c cur s = Done tt s' → puts s s' cur (with_state RUNNABLE k).
Proof.
  intros Hk. pose proof (lookup_lt_Some _ _ _ Hk) as Hlt. unfold yield.
  intros (c1 & s0 & ->%acquire_ptable_done & ([] & s1 & H1 & ->%sched_done)%bind_done)%bind_done.
  eapply (upd_at _ _ (with_state RUNNABLE) k) in H1
    as (C1 & I1 & N1); [|done|exact Hlt|by rewrite list_insert_id]. by split_and!.
Qed.

(** The checks of [sched]: exactly the process table's lock may be held. *)
Lemma updp_state cur v s k : cores s !! cur = Some k → p_state (alter (set_pstate v) cur (ps_procs s) !!! cur) = v.
Proof.
  rewrite cores_lookup. destruct (ps_procs s !! cur) as [q|] eqn:Hq; [|done]. intros _. by rewrite (list_lookup_total_correct _ _ (set_pstate v q)) by (by rewrite list_lookup_alter_eq, Hq).
Qed.

Lemma yield_checks n b cur s k : cores s !! cur = Some k →
  if decide (n = 0%Z) then ∃ s', yield (CpuState n b false) cur s = Done tt s' else yield (CpuState n b false) cur s = Panic "sched locks".
Proof.
  intros Hk. unfold yield. rewrite (run_bind (acquire_ptable _) _ s (CpuState (n + 1) false true) s) by done.
  set (s1 := PState (alter (set_pstate RUNNABLE) cur (ps_procs s)) (ps_initproc s) (ps_nextpid s) (ps_env s)).
  rewrite (run_bind (updp _ _) _ s tt s1) by done. unfold sched. rewrite (run_bind _ _ s1 tt s1) by done. cbn [cs_ncli cs_if]. case_decide as Hn.
  - subst n. exists s1. rewrite (run_bind _ _ s1 tt s1) by done. rewrite (run_bind (getp cur) _ s1 (ps_procs s1 !!! cur) s1) by done.
    assert (Hst : p_state (ps_procs s1 !!! cur) = RUNNABLE) by exact (updp_state _ _ _ _ Hk). by rewrite Hst.
  - apply run_panic. by rewrite (proj2 (Z.eqb_neq (n + 1) 1)) by lia.
Qed.

(** The slot of a reaped child. *)
Definition reaped (k : core) : core := Core UNUSED 0 None (k_chan k) 0 0.

Lemma reap_run i s r s' k : cores s !! i = Some k → reap i s = Done r s' →
  r = k_pid k ∧ ps_initproc s' = ps_initproc s ∧ ps_nextpid s' = ps_nextpid s ∧
  cores s' = <[i := reaped k]> (cores s).
Proof.
  intros Hk. pose proof (lookup_lt_Some _ _ _ Hk) as Hlt. unfold reap.
  intros (p & s1 & [-> ->]%getp_done & ([] & s2 & H2%env_done & ([] & s3 & H3 & ([] & s4 & H4%env_done & ([] & s5 & H5 & [= <- <-])%bind_done)%bind_done)%bind_done)%bind_done)%bind_done.
  assert (C2 : cores s2 = <[i := k]> (cores s)) by (rewrite list_insert_id by done; apply H2).
  destruct H2 as (_ & I2 & N2).
  eapply (upd_at _ _ (λ k, Core (k_state k) (k_pid k) (k_parent k) (k_chan k) (k_killed k) 0)) in H3
    as (C3 & I3 & N3); [|done|exact Hlt|exact C2].
  assert (C4 := frame_cores _ _ _ H4 C3). destruct H4 as (_ & I4 & N4).
  eapply (upd_at _ _ (λ k, Core UNUSED 0 None (k_chan k) 0 (k_kstack k))) in H5
    as (C5 & I5 & N5); [|done|exact Hlt|exact C4].
  apply getp_core in Hk. split_and!; [by rewrite <-Hk|congruence|congruence|exact C5].
Qed.

Inductive wait_effect (cur : nat) s s' : option Z → Prop :=
| wait_reaps i k : cores s !! i = Some k → k_parent k = Some cur → k_state k = ZOMBIE →
    ps_initproc s' = ps_initproc s → ps_nextpid s' = ps_nextpid s →
    cores s' = <[i := reaped k]> (cores s) → wait_effect cur s s' (Some (k_pid k))
| wait_fails : frame s s' → Forall (λ k, ¬ zombie_child cur k) (cores s) →
    (Forall (λ k, k_parent k ≠ Some cur) (cores s) ∨ p_killed (ps_procs s !!! cur) ≠ 0%Z) →
    wait_effect cur s s' (Some (-1)%Z)
| wait_sleeps : Forall (λ k, ¬ zombie_child cur k) (cores s) →
    p_killed (ps_procs s !!! cur) = 0%Z → ¬ Forall (λ k, k_parent k ≠ Some cur) (cores s) →
    (∃ c, sleep c PtableLock cur (ChProc cur) s = Done tt s') → wait_effect cur s s' None.

Lemma wait_run c cur s r s' : wait_scan c cur s = Done r s' → wait_effect cur s s' r.
Proof.
  unfold wait_scan. intros (s0 & s1 & [= <- <-] & Hrun)%bind_done. 
  pose proof (first_slot_cores (λ p, is_child cur p && is_zombie p)
    (λ k, bool_decide (zombie_child cur k)) (ps_procs s)) as Hz. fold (cores s) in Hz.
  pose proof (first_slot_cores (is_child cur)
    (λ k, bool_decide (k_parent k = Some cur)) (ps_procs s) (λ _, eq_refl)) as Hc. fold (cores s) in Hc.
  destruct (first_slot (λ p, _ && _) _) as [i|].
  - destruct Hz as (k & Hk & [Hp Hs]%bool_decide_eq_true & _).
    { intros p. symmetry. apply bool_decide_and. }
    apply bind_done in Hrun as (pid & s1 & H1 & [= <- <-]).
    destruct (reap_run _ _ _ _ _ Hk H1) as (-> & I1 & N1 & C1). by eapply wait_reaps.
  - assert (Hnz : Forall (λ k, ¬ zombie_child cur k) (cores s)).
    { apply Forall_lookup. intros i k Hk. eapply Hz in Hk; [by apply bool_decide_eq_false in Hk|].
      intros p. symmetry. apply bool_decide_and. }
    apply bind_done in Hrun as (q & s1 & [-> ->]%getp_done & Hrun). case_decide as Hd.
    + injection Hrun as <- <-. apply wait_fails; [done|done|]. destruct Hd as [Hn|Hk]; [left|by right].
      rewrite Hn in Hc. apply Forall_lookup. intros i k Hk. by apply Hc, bool_decide_eq_false in Hk.
    + apply bind_done in Hrun as ([] & s1 & H1 & [= <- <-]). apply Decidable.not_or in Hd as [Hn Hk].
      apply wait_sleeps; [done| |intros Hall|by exists c].
      * by destruct (decide (p_killed (ps_procs s !!! cur) = 0%Z)).
      * destruct (first_slot _ _) as [i|]; [|done]. destruct Hc as (k & Hki & Hp%bool_decide_eq_true & _).
        rewrite Forall_lookup in Hall. by eapply Hall.
Qed.

Lemma scheduler_run i s r s' : scheduler_next i s = Done r s' →
  match r with
  | Some j => ∃ k, i ≤ j ∧ cores s !! j = Some k ∧ k_state k = RUNNABLE ∧
      (∀ j' k', i ≤ j' < j → cores s !! j' = Some k' → k_state k' ≠ RUNNABLE) ∧
      ps_initproc s' = ps_initproc s ∧ ps_nextpid s' = ps_nextpid s ∧
      cores s' = <[j := with_state RUNNING k]> (cores s)
  | None => s' = s ∧ ∀ j k, i ≤ j → cores s !! j = Some k → k_state k ≠ RUNNABLE
  end.
Proof.
  unfold scheduler_next. intros (s0 & s1 & [= <- <-] & Hrun)%bind_done. unfold first_slot in Hrun.
  destruct (list_find _ _) as [[n p]|] eqn:Hf; simpl in Hrun.
  - apply list_find_Some in Hf as (Hn & Hp%bool_decide_eq_true & Hbefore). rewrite lookup_drop in Hn.
    apply bind_done in Hrun as ([] & s1 & H1 & [= <- <-]).
    assert (Hk : cores s !! (i + n) = Some (pcore p)) by (by rewrite cores_lookup, Hn).
    eapply (upd_at _ _ (with_state RUNNING) (pcore p)) in H1 as (C1 & I1 & N1);
      [|done|by eapply lookup_lt_Some|by rewrite list_insert_id].
    exists (pcore p). split_and!; [lia|done|done| |done|done|done].
    intros j' k' Hj. rewrite cores_lookup. destruct (ps_procs s !! j') as [q|] eqn:Hq; intros [= <-].
    simpl. intros Hr. apply (Hbefore (j' - i) q); [rewrite lookup_drop, <-Hq; f_equal; lia|lia|].
    by apply bool_decide_eq_true_2.
  - injection Hrun as <- <-. split; [done|]. apply list_find_None in Hf. rewrite Forall_lookup in Hf.
    intros j k Hj. rewrite cores_lookup. destruct (ps_procs s !! j) as [q|] eqn:Hq; intros [= <-].
    simpl. intros Hr. apply (Hf (j - i) q); [rewrite lookup_drop, <-Hq; f_equal; lia|]. by apply bool_decide_eq_true_2.
Qed.

End effects.

(** ** The invariant of the table *)

Definition live (k : core) : Prop :=
  k_state k = SLEEPING ∨ k_state k = RUNNABLE ∨ k_state k = RUNNING.
Definition no_zombies (i : nat) (l : list core) : Prop :=
  ∀ j k, l !! j = Some k → k_parent k = Some i → k_state k ≠ ZOMBIE.

(** [l] is the table, [ini] the first process, [np] the next pid, [cpus] the
    process of each CPU. *)
Record table_inv (l : list core) (ini : nat) (np : Z) (cpus : list (option nat)) : Prop := {
  t_run c i : cpus !! c = Some (Some i) → ∃ k, l !! i = Some k ∧ k_state k = RUNNING;
  t_one c c' i : cpus !! c = Some (Some i) → cpus !! c' = Some (Some i) → c = c';
  t_cpu i k : l !! i = Some k → k_state k = RUNNING → ∃ c, cpus !! c = Some (Some i);
  t_init : ∃ k, l !! ini = Some k ∧ live k;
  t_parent i k : l !! i = Some k → k_state k ≠ UNUSED → k_state k ≠ EMBRYO → i ≠ ini →
    ∃ q kq, k_parent k = Some q ∧ q ≠ i ∧ l !! q = Some kq ∧ live kq;
  t_unused i k : l !! i = Some k → k_state k = UNUSED → k_parent k = None ∧ k_kstack k = 0%Z;
  t_used i k : l !! i = Some k → k_state k ≠ UNUSED → k_state k ≠ EMBRYO → k_kstack k ≠ 0%Z;
  t_sleep i k q : l !! i = Some k → k_state k = SLEEPING → k_chan k = Some (ChProc q) →
    q = i ∧ no_zombies i l;
  t_pid i j ki kj : l !! i = Some ki → l !! j = Some kj → k_state ki ≠ UNUSED → k_state kj ≠ UNUSED →
    k_pid ki = k_pid kj → i = j;
  t_fresh i k : l !! i = Some k → k_state k ≠ UNUSED → (0 < k_pid k < np)%Z
}.

(** An update of slot [i] that keeps parents, pids and zombies. *)
Lemma inv_state l ini np cpus cpus' i k k' :
  table_inv l ini np cpus → l !! i = Some k → live k → live k' →
  k_pid k' = k_pid k → k_parent k' = k_parent k → k_kstack k' = k_kstack k →
  (∀ q, k_state k' = SLEEPING → k_chan k' = Some (ChProc q) → q = i ∧ no_zombies i l) →
  (∀ c j, cpus' !! c = Some (Some j) → if decide (j = i) then k_state k' = RUNNING else cpus !! c = Some (Some j)) →
  (∀ c c' j, cpus' !! c = Some (Some j) → cpus' !! c' = Some (Some j) → c = c') →
  (k_state k' = RUNNING → ∃ c, cpus' !! c = Some (Some i)) →
  (∀ c j, j ≠ i → cpus !! c = Some (Some j) → ∃ c', cpus' !! c' = Some (Some j)) →
  table_inv (<[i := k']> l) ini np cpus'.
Proof.
  intros Hinv Hi Hk Hk' Epid Epar Eks Hsl Hcp Hone Hrun Hkeep.
  assert (Hil : i < length l) by (by eapply lookup_lt_Some).
  assert (Hup : ∀ j q, <[i := k']> l !! j = Some q → j = i ∧ q = k' ∨ j ≠ i ∧ l !! j = Some q).
  { intros j q. rewrite list_lookup_insert. case_decide as Hd; [destruct Hd as [-> _]; naive_solver|].
    intros Hq. right. split; [intros ->; naive_solver|done]. }
  assert (Hnz : ∀ j, no_zombies j l → no_zombies j (<[i := k']> l)).
  { intros j Hz m q Hm Hp. apply Hup in Hm as [[-> ->]|[_ Hm]]; [|by eapply Hz].
    destruct Hk' as [->|[->| ->]]; done. }
  assert (Hlive : ∀ j q, l !! j = Some q → live q → ∃ q', <[i := k']> l !! j = Some q' ∧ live q').
  { intros j q Hj Hq. destruct (decide (j = i)) as [->|Hne].
    - exists k'. split; [by apply list_lookup_insert_eq|done].
    - exists q. by rewrite list_lookup_insert_ne. }
  destruct Hinv as [T1 T2 T3 T4 T5 T6 T7 T8 T9 T10]. constructor.
  - intros c j Hc. specialize (Hcp c j Hc). case_decide as Hj; [subst; exists k'; split; [by apply list_lookup_insert_eq|done]|].
    destruct (T1 _ _ Hcp) as (q & Hq & Hs). exists q. by rewrite list_lookup_insert_ne.
  - exact Hone.
  - intros j q [[-> ->]|[Hne Hj]]%Hup Hs; [by apply Hrun|].
    destruct (T3 _ _ Hj Hs) as [c Hc]. by eapply Hkeep.
  - destruct T4 as (q & Hq & Hl). by eapply Hlive.
  - intros j q Hq Hs He Hni. apply Hup in Hq as [[-> ->]|[Hne Hj]].
    + destruct (T5 _ _ Hi) as (p & kp & Hp & Hpi & Hkp & Hl); [destruct Hk as [->|[->| ->]]; done..|done|].
      destruct (Hlive _ _ Hkp Hl) as (kp' & ? & ?). exists p, kp'. by rewrite Epar.
    + destruct (T5 _ _ Hj Hs He Hni) as (p & kp & Hp & Hpi & Hkp & Hl).
      destruct (Hlive _ _ Hkp Hl) as (kp' & ? & ?). by exists p, kp'.
  - intros j q [[-> ->]|[Hne Hj]]%Hup Hs; [|by eauto]. destruct Hk' as [H'|[H'|H']]; rewrite H' in Hs; done.
  - intros j q [[-> ->]|[Hne Hj]]%Hup Hs; [|by eauto]. intros _. rewrite Eks. apply (T7 _ _ Hi); destruct Hk as [->|[->| ->]]; done.
  - intros j q p [[-> ->]|[Hne Hj]]%Hup Hs Hc.
    + destruct (Hsl p Hs Hc) as [-> Hz]. split; [done|by apply Hnz].
    + destruct (T8 _ _ _ Hj Hs Hc) as [-> Hz]. split; [done|by apply Hnz].
  - assert (Hku : k_state k ≠ UNUSED) by (destruct Hk as [->|[->| ->]]; done).
    intros a b qa qb [[-> ->]|[Hne Ha]]%Hup [[-> ->]|[Hne' Hb]]%Hup Hsa Hsb; rewrite ?Epid; eauto.
  - assert (Hku : k_state k ≠ UNUSED) by (destruct Hk as [->|[->| ->]]; done).
    intros j q [[-> ->]|[Hne Hj]]%Hup Hs; [rewrite Epid|]; eauto.
Qed.

(** A slot in which no process lives is, or becomes, unused or taken by a
    [fork]. *)
Lemma inv_idle l ini np np' cpus i k k' :
  table_inv l ini np cpus → l !! i = Some k → ¬ live k →
  (k_state k' = UNUSED ∧ k_parent k' = None ∧ k_kstack k' = 0%Z ∨
   k_state k' = EMBRYO ∧ (k_state k = EMBRYO ∧ k_pid k' = k_pid k ∨ k_pid k' = np ∧ (0 < np < np')%Z)) → (np ≤ np')%Z →
  table_inv (<[i := k']> l) ini np' cpus.
Proof.
  intros Hinv Hi Hk Hk' Hnp. assert (Hil : i < length l) by (by eapply lookup_lt_Some).
  assert (Hst' : k_state k' = UNUSED ∨ k_state k' = EMBRYO) by naive_solver.
  assert (Hup : ∀ j q, <[i := k']> l !! j = Some q → j = i ∧ q = k' ∨ j ≠ i ∧ l !! j = Some q).
  { intros j q. rewrite list_lookup_insert. case_decide as Hd; [destruct Hd as [-> _]; naive_solver|].
    intros Hq. right. split; [intros ->; naive_solver|done]. }
  assert (Hup2 : ∀ j q v, <[i := k']> l !! j = Some q → k_state q = v → v ≠ UNUSED → v ≠ EMBRYO → l !! j = Some q).
  { intros j q v [[-> ->]|[_ Hq]]%Hup Hs Hv1 Hv2; [|done]. destruct Hst'; congruence. }
  assert (Hlive : ∀ j q, l !! j = Some q → live q → <[i := k']> l !! j = Some q ∧ live q).
  { intros j q Hj Hq. assert (j ≠ i) by (intros ->; congruence). by rewrite list_lookup_insert_ne. }
  destruct Hinv as [T1 T2 T3 T4 T5 T6 T7 T8 T9 T10].
  assert (Hpid : k_state k' ≠ UNUSED → (0 < k_pid k' < np')%Z ∧ ∀ j q, j ≠ i → l !! j = Some q → k_state q ≠ UNUSED → k_pid q ≠ k_pid k').
  { intros Hu. destruct Hk' as [[? _]|[_ [[He ->]|[-> Hlt]]]]; [done| |].
    - specialize (T10 _ _ Hi ltac:(by rewrite He)) as Hr. split; [lia|]. intros j q Hj Hq Hs Hp. apply Hj. apply (T9 _ _ _ _ Hq Hi Hs); [by rewrite He|done].
    - split; [lia|]. intros j q _ Hq Hs. specialize (T10 _ _ Hq Hs). lia. }
  constructor.
  - intros c j Hc. destruct (T1 _ _ Hc) as (q & Hq & Hs). exists q.
    split; [apply Hlive; [done|]|done]. by right; right.
  - exact T2.
  - intros j q Hq Hs. eapply Hup2 in Hq; [by eauto|exact Hs|done|done].
  - destruct T4 as (q & Hq & Hl). exists q. by apply Hlive.
  - intros j q Hq Hs He Hni. eapply Hup2 in Hq; [|reflexivity|done|done]. destruct (T5 _ _ Hq Hs He Hni) as (p & kp & Hp & Hpi & Hkp & Hl).
    exists p, kp. split; [done|]. split; [done|]. by apply Hlive.
  - intros j q [[-> ->]|[_ Hq]]%Hup Hs; [|by eauto]. destruct Hk' as [(_ & ? & ?)|[He _]]; [done|congruence].
  - intros j q Hq Hs He. eapply Hup2 in Hq; [by eauto|reflexivity|done|done].
  - intros j q p Hq Hs Hc. eapply Hup2 in Hq; [|exact Hs|done|done]. destruct (T8 _ _ _ Hq Hs Hc) as [-> Hz].
    split; [done|]. intros m y Hm Hpm Hzm. eapply Hup2 in Hm; [by eapply Hz|exact Hzm|done|done].
  - intros a b qa qb [[-> ->]|[Ha Hla]]%Hup [[-> ->]|[Hb Hlb]]%Hup Hsa Hsb Hp; [done| | |by eauto].
    + exfalso. by eapply (proj2 (Hpid Hsa) b).
    + exfalso. by eapply (proj2 (Hpid Hsb) a).
  - intros j q [[-> ->]|[_ Hq]]%Hup Hs; [by apply Hpid|]. specialize (T10 _ _ Hq Hs). lia.
Qed.

(** A new process in a slot that a [fork] has taken. *)
Lemma inv_ready l ini np cpus i k cur kc :
  table_inv l ini np cpus → l !! i = Some k → k_state k = EMBRYO →
  l !! cur = Some kc → live kc → k_parent k = Some cur → k_kstack k ≠ 0%Z →
  table_inv (<[i := with_state RUNNABLE k]> l) ini np cpus.
Proof.
  intros Hinv Hi Hk Hcur Hlc Hp' Hks'. set (k' := with_state RUNNABLE k).
  assert (Hil : i < length l) by (by eapply lookup_lt_Some).
  assert (Hup : ∀ j q, <[i := k']> l !! j = Some q → j = i ∧ q = k' ∨ j ≠ i ∧ l !! j = Some q).
  { intros j q. rewrite list_lookup_insert. case_decide as Hd; [destruct Hd as [-> _]; naive_solver|].
    intros Hq. right. split; [intros ->; naive_solver|done]. }
  assert (Hlive : ∀ j q, l !! j = Some q → live q → <[i := k']> l !! j = Some q ∧ live q).
  { intros j q Hj Hq. rewrite list_lookup_insert_ne; [done|]. intros ->. rewrite Hi in Hj. injection Hj as <-.
    unfold live in Hq. rewrite Hk in Hq. naive_solver. }
  assert (Hku : k_state k ≠ UNUSED) by (by rewrite Hk).
  destruct Hinv as [T1 T2 T3 T4 T5 T6 T7 T8 T9 T10]. constructor.
  - intros c j Hc. destruct (T1 _ _ Hc) as (q & Hq & Hs). exists q.
    split; [apply Hlive; [done|]|done]. by right; right.
  - exact T2.
  - intros j q [[-> ->]|[_ Hq]]%Hup Hs; [done|by eauto].
  - destruct T4 as (q & Hq & Hl). exists q. by apply Hlive.
  - intros j q Hq Hs He Hni. apply Hup in Hq as [[-> ->]|[_ Hq]].
    + exists cur, kc. split; [done|]. split; [|by apply Hlive]. intros ->. rewrite Hi in Hcur. injection Hcur as <-.
      unfold live in Hlc. rewrite Hk in Hlc. naive_solver.
    + destruct (T5 _ _ Hq Hs He Hni) as (p & kp & Hp & Hpi & Hkp & Hl). exists p, kp. split; [done|]. split; [done|]. by apply Hlive.
  - intros j q [[-> ->]|[_ Hq]]%Hup Hs; [done|by eauto].
  - intros j q [[-> ->]|[_ Hq]]%Hup Hs He; [done|by eauto].
  - intros j q p [[-> ->]|[_ Hq]]%Hup Hs Hc; [done|].
    destruct (T8 _ _ _ Hq Hs Hc) as [-> Hz]. split; [done|].
    intros m y [[-> ->]|[_ Hm]]%Hup Hpm; [done|by eapply Hz].
  - intros a b qa qb [[-> ->]|[_ Ha]]%Hup [[-> ->]|[_ Hb]]%Hup Hsa Hsb Hp; [done|by eauto..].
  - intros j q [[-> ->]|[_ Hq]]%Hup Hs; [exact (T10 _ _ Hi Hku)|by eauto].
Qed.

(** Wakeups, of all processes of a class at once. *)
Lemma inv_map l ini np cpus (f : core → core) :
  table_inv l ini np cpus →
  (∀ k, f k = k ∨ k_state k = SLEEPING ∧ f k = with_state RUNNABLE k) →
  table_inv (f <$> l) ini np cpus.
Proof.
  intros Hinv Hf.
  assert (Hup : ∀ j q, (f <$> l) !! j = Some q → ∃ k, l !! j = Some k ∧ q = f k).
  { intros j q. rewrite list_lookup_fmap. destruct (l !! j); naive_solver. }
  assert (Hpar : ∀ k, k_parent (f k) = k_parent k ∧ k_pid (f k) = k_pid k ∧ k_kstack (f k) = k_kstack k ∧
    k_chan (f k) = k_chan k).
  { intros k. destruct (Hf k) as [->|[_ ->]]; done. }
  assert (Hst : ∀ k v, v ≠ RUNNABLE → k_state (f k) = v → k_state k = v).
  { intros k v Hv. destruct (Hf k) as [->|[_ ->]]; [done|]. simpl. intros <-. done. }
  assert (Hst' : ∀ k v, v ≠ SLEEPING → k_state k = v → k_state (f k) = v).
  { intros k v Hv Hk. destruct (Hf k) as [->|[Hs ->]]; [done|]. congruence. }
  assert (Hlive : ∀ j q, l !! j = Some q → live q → ∃ q', (f <$> l) !! j = Some q' ∧ live q').
  { intros j q Hj Hq. exists (f q). rewrite list_lookup_fmap, Hj. split; [done|].
    destruct (Hf q) as [->|[_ ->]]; [done|]. right; by left. }
  assert (Hu : ∀ k, k_state (f k) ≠ UNUSED → k_state k ≠ UNUSED).
  { intros k Hk Hs. by apply Hk, Hst'. }
  destruct Hinv as [T1 T2 T3 T4 T5 T6 T7 T8 T9 T10]. constructor.
  - intros c j Hc. destruct (T1 _ _ Hc) as (q & Hq & Hs). exists (f q). rewrite list_lookup_fmap, Hq.
    split; [done|by apply Hst'].
  - exact T2.
  - intros j q (k & Hk & ->)%Hup Hs. apply Hst in Hs; [by eauto|done].
  - destruct T4 as (q & Hq & Hl). by eapply Hlive.
  - intros j q (k & Hk & ->)%Hup Hs He Hni. destruct (T5 _ _ Hk (Hu _ Hs)) as (p & kp & Hp & Hpi & Hkp & Hl); [intros Hk'; by apply He, Hst'|done|].
    destruct (Hlive _ _ Hkp Hl) as (kp' & ? & ?). exists p, kp'. destruct (Hpar k) as (-> & _). done.
  - intros j q (k & Hk & ->)%Hup Hs. destruct (Hpar k) as (-> & _ & -> & _). apply Hst in Hs; [by eauto|done].
  - intros j q (k & Hk & ->)%Hup Hs He. destruct (Hpar k) as (_ & _ & -> & _). apply (T7 _ _ Hk (Hu _ Hs)). intros Hk'. by apply He, Hst'.
  - intros j q p (k & Hk & ->)%Hup Hs Hc. destruct (Hpar k) as (_ & _ & _ & E). rewrite E in Hc.
    apply Hst in Hs; [|done]. destruct (T8 _ _ _ Hk Hs Hc) as [-> Hz]. split; [done|].
    intros m y (z & Hm & ->)%Hup Hpm Hzm. destruct (Hpar z) as (E' & _). rewrite E' in Hpm.
    apply Hst in Hzm; [|done]. by eapply Hz.
  - intros a b qa qb (ka & Ha & ->)%Hup (kb & Hb & ->)%Hup Hsa Hsb.
    destruct (Hpar ka) as (_ & -> & _), (Hpar kb) as (_ & -> & _). by eauto.
  - intros j q (k & Hk & ->)%Hup Hs. destruct (Hpar k) as (_ & -> & _). by eauto.
Qed.

(** The children of [cur] pass to the first process, which is woken if one of
    them is a zombie. *)
Lemma exit_at_lookup cur ini l i :
  exit_at cur ini (length l) l !! i =
    (λ k, wake_if (bool_decide (Exists (zombie_child cur) l)) (ChProc ini) (reparent cur ini k)) <$> l !! i.
Proof.
  unfold exit_at. rewrite list_lookup_imap, take_ge by done. destruct (l !! i) eqn:Hi; simpl; [|done].
  by rewrite decide_True by (by eapply lookup_lt_Some).
Qed.

Lemma wake_if_facts b ch k :
  k_parent (wake_if b ch k) = k_parent k ∧ k_pid (wake_if b ch k) = k_pid k ∧
  k_kstack (wake_if b ch k) = k_kstack k ∧ k_chan (wake_if b ch k) = k_chan k ∧
  (wake_if b ch k = k ∨ k_state k = SLEEPING ∧ wake_if b ch k = with_state RUNNABLE k).
Proof.
  destruct b; simpl; [|naive_solver]. unfold wake. case_decide as Hd; [|naive_solver].
  destruct Hd. split_and!; [done|done|done|done|by right].
Qed.

Lemma inv_reparent l ini np cpus cur :
  table_inv l ini np cpus → (∃ k, l !! cur = Some k ∧ k_state k ≠ UNUSED) → cur ≠ ini →
  (Exists (zombie_child cur) l → ∀ k, l !! ini = Some k → k_state k = SLEEPING → k_chan k ≠ Some (ChProc ini)) →
  table_inv (reparent cur ini <$> l) ini np cpus.
Proof.
  intros Hinv Hcur Hne Hz.
  assert (Hup : ∀ j q, (reparent cur ini <$> l) !! j = Some q → ∃ k, l !! j = Some k ∧ q = reparent cur ini k).
  { intros j q. rewrite list_lookup_fmap. destruct (l !! j); naive_solver. }
  assert (Hsame : ∀ k, k_state (reparent cur ini k) = k_state k ∧ k_pid (reparent cur ini k) = k_pid k ∧
    k_kstack (reparent cur ini k) = k_kstack k ∧ k_chan (reparent cur ini k) = k_chan k).
  { intros k. unfold reparent. by case_decide. }
  assert (Hst : ∀ k, k_state (reparent cur ini k) = k_state k) by (intros k; apply Hsame).
  assert (Hlive : ∀ j q, l !! j = Some q → live q → ∃ q', (reparent cur ini <$> l) !! j = Some q' ∧ live q').
  { intros j q Hj Hq. exists (reparent cur ini q). rewrite list_lookup_fmap, Hj. split; [done|].
    unfold live. by rewrite Hst. }
  destruct Hinv as [T1 T2 T3 T4 T5 T6 T7 T8 T9 T10]. constructor.
  - intros c j Hc. destruct (T1 _ _ Hc) as (q & Hq & Hs). exists (reparent cur ini q).
    rewrite list_lookup_fmap, Hq, Hst. done.
  - exact T2.
  - intros j q (k & Hk & ->)%Hup. rewrite Hst. by eauto.
  - destruct T4 as (q & Hq & Hl). by eapply Hlive.
  - intros j q (k & Hk & ->)%Hup. rewrite Hst. intros Hs He Hni.
    unfold reparent. case_decide as Hp; simpl.
    + destruct T4 as (ki & Hki & Hli). destruct (Hlive _ _ Hki Hli) as (kp' & ? & ?). by exists ini, kp'.
    + destruct (T5 _ _ Hk Hs He Hni) as (p & kp & Hp' & Hpi & Hkp & Hl).
      destruct (Hlive _ _ Hkp Hl) as (kp' & ? & ?). by exists p, kp'.
  - intros j q (k & Hk & ->)%Hup. destruct (Hsame k) as (-> & _ & -> & _). intros Hs.
    destruct (T6 _ _ Hk Hs) as [Hp Hks]. split; [|done]. unfold reparent. by rewrite decide_False by (rewrite Hp; done).
  - intros j q (k & Hk & ->)%Hup. destruct (Hsame k) as (-> & _ & -> & _). by eauto.
  - intros j q p (k & Hk & ->)%Hup. destruct (Hsame k) as (-> & _ & _ & ->). intros Hs Hc.
    destruct (T8 _ _ _ Hk Hs Hc) as [-> Hnz]. split; [done|].
    intros m y (z & Hm & ->)%Hup. rewrite Hst. unfold reparent. case_decide as Hp; simpl; [|by eauto].
    intros [= <-] Hzm. eapply Hz; [|exact Hk|exact Hs|exact Hc].
    apply Exists_exists. exists z. split; [by eapply list_elem_of_lookup_2|by split].
  - intros a b qa qb (ka & Ha & ->)%Hup (kb & Hb & ->)%Hup. rewrite !Hst.
    destruct (Hsame ka) as (_ & -> & _), (Hsame kb) as (_ & -> & _). by eauto.
  - intros j q (k & Hk & ->)%Hup. destruct (Hsame k) as (-> & -> & _). by eauto.
Qed.

(** [cur] becomes a zombie: it has no children, and its parent is not asleep
    in [wait]. *)
Lemma inv_zombie l ini np cpus cur k c :
  table_inv l ini np cpus → l !! cur = Some k → cur ≠ ini → cpus !! c = Some (Some cur) →
  (∀ j q, l !! j = Some q → k_parent q ≠ Some cur) →
  (∀ q kq, k_parent k = Some q → l !! q = Some kq → k_state kq = SLEEPING → k_chan kq ≠ Some (ChProc q)) →
  table_inv (<[cur := with_state ZOMBIE k]> l) ini np (<[c := None]> cpus).
Proof.
  intros Hinv Hcur Hne Hc Hnp Hpar. assert (Hcl : cur < length l) by (by eapply lookup_lt_Some).
  destruct (t_run _ _ _ _ Hinv _ _ Hc) as (k0 & Hk0 & Hrun). rewrite Hcur in Hk0. injection Hk0 as <-.
  set (k' := with_state ZOMBIE k).
  assert (Hup : ∀ j q, <[cur := k']> l !! j = Some q → j = cur ∧ q = k' ∨ j ≠ cur ∧ l !! j = Some q).
  { intros j q. rewrite list_lookup_insert. case_decide as Hd; [destruct Hd as [-> _]; naive_solver|].
    intros Hq. right. split; [intros ->; naive_solver|done]. }
  assert (Hcp : ∀ d j, <[c := None]> cpus !! d = Some (Some j) → d ≠ c ∧ cpus !! d = Some (Some j)).
  { intros d j. rewrite list_lookup_insert. case_decide as Hd; [done|]. intros Hj. split; [|done]. intros ->.
    apply Hd. split; [done|by eapply lookup_lt_Some]. }
  destruct Hinv as [T1 T2 T3 T4 T5 T6 T7 T8 T9 T10].
  assert (Hother : ∀ j p q, l !! j = Some q → k_parent q = Some p → p ≠ cur).
  { intros j p q Hj Hp ->. by eapply Hnp. }
  assert (Hku : k_state k ≠ UNUSED) by (by rewrite Hrun). constructor.
  - intros d j [Hd Hj]%Hcp. destruct (T1 _ _ Hj) as (q & Hq & Hs). exists q. split; [|done].
    rewrite list_lookup_insert_ne; [done|]. intros <-. by eapply Hd, T2.
  - intros d d' j [_ Hj]%Hcp [_ Hj']%Hcp. by eapply T2.
  - intros j q [[-> ->]|[Hj Hq]]%Hup Hs; [done|]. destruct (T3 _ _ Hq Hs) as [d Hd]. exists d.
    rewrite list_lookup_insert_ne; [done|]. intros <-. rewrite Hc in Hd. by injection Hd as <-.
  - destruct T4 as (q & Hq & Hl). exists q. by rewrite list_lookup_insert_ne.
  - intros j q Hq Hs He Hni. assert (Hl : ∃ y, l !! j = Some y ∧ k_state y ≠ UNUSED ∧ k_state y ≠ EMBRYO ∧ k_parent y = k_parent q).
    { apply Hup in Hq as [[-> ->]|[_ Hq]]; [exists k; by rewrite Hrun|by exists q]. }
    destruct Hl as (y & Hy & Hsy & Hey & <-). destruct (T5 _ _ Hy Hsy Hey Hni) as (p & kp & Hp & Hpi & Hkp & Hl).
    exists p, kp. split; [done|]. split; [done|]. rewrite list_lookup_insert_ne; [done|]. intros <-. by eapply (Hother j).
  - intros j q [[-> ->]|[Hj Hq]]%Hup Hs; [done|by eauto].
  - intros j q [[-> ->]|[Hj Hq]]%Hup Hs; [|by eauto]. intros _. apply (T7 _ _ Hcur); by rewrite Hrun.
  - intros j q p [[-> ->]|[Hj Hq]]%Hup Hs Hch; [done|]. destruct (T8 _ _ _ Hq Hs Hch) as [-> Hz]. split; [done|].
    intros m y [[-> ->]|[_ Hm]]%Hup Hpm; [|by eapply Hz]. exfalso. simpl in Hpm. by eapply Hpar.
  - intros a b qa qb [[-> ->]|[_ Ha]]%Hup [[-> ->]|[_ Hb]]%Hup; simpl; intros Hsa Hsb Hp; eauto.
  - intros j q [[-> ->]|[_ Hq]]%Hup Hs; simpl; eauto.
Qed.

Lemma wake_cases ch k : wake ch k = k ∨ k_state k = SLEEPING ∧ wake ch k = with_state RUNNABLE k.
Proof. unfold wake. case_decide as Hd; [right; split; [apply Hd|done]|by left]. Qed.

Lemma exit_at_split cur ini l :
  exit_at cur ini (length l) l =
    reparent cur ini <$> (wake_if (bool_decide (Exists (zombie_child cur) l)) (ChProc ini) <$> l).
Proof.
  apply list_eq. intros i. rewrite exit_at_lookup, !list_lookup_fmap.
  destruct (l !! i) as [k|]; simpl; [|done]. f_equal. destruct (bool_decide _); simpl; [|done].
  unfold reparent. rewrite wake_parent. case_decide; [apply wake_with_parent|done].
Qed.

(** After a wakeup nobody sleeps on the channel. *)
Lemma wake_not_asleep ch k : k_state (wake ch k) = SLEEPING → k_chan (wake ch k) ≠ Some ch.
Proof. unfold wake. case_decide as Hd; [done|]. intros Hs Hc. by apply Hd. Qed.

Lemma wake_if_asleep b ch k : k_state (wake_if b ch k) = SLEEPING → k_state k = SLEEPING.
Proof. destruct b; simpl; [|done]. unfold wake. by case_decide. Qed.

Lemma inv_exit l ini np cpus cur k c :
  table_inv l ini np cpus → l !! cur = Some k → cur ≠ ini → cpus !! c = Some (Some cur) →
  table_inv (exit_cores cur ini (k_parent k) l) ini np (<[c := None]> cpus).
Proof.
  intros Hinv Hcur Hne Hc. unfold exit_cores.
  set (l1 := match k_parent k with Some q => wake (ChProc q) <$> l | None => l end).
  destruct (t_run _ _ _ _ Hinv _ _ Hc) as (k0 & Hk0 & Hrun). rewrite Hcur in Hk0. injection Hk0 as <-.
  assert (H1 : table_inv l1 ini np cpus).
  { unfold l1. destruct (k_parent k) as [q|]; [|done]. apply inv_map; [done|]. intros k0. apply wake_cases. }
  assert (Hc1 : l1 !! cur = Some k).
  { unfold l1. destruct (k_parent k) as [q|]; [|done]. rewrite list_lookup_fmap, Hcur. simpl. f_equal.
    unfold wake. rewrite decide_False; [done|]. intros [Hs _]. congruence. }
  rewrite exit_at_split. set (b := bool_decide (Exists (zombie_child cur) l1)).
  set (l2 := wake_if b (ChProc ini) <$> l1).
  assert (H2 : table_inv l2 ini np cpus).
  { apply inv_map; [done|]. intros k0. apply wake_if_facts. }
  assert (Hc2 : l2 !! cur = Some k).
  { unfold l2. rewrite list_lookup_fmap, Hc1. simpl. f_equal. destruct b; simpl; [|done].
    unfold wake. rewrite decide_False; [done|]. intros [Hs _]. congruence. }
  assert (H3 : table_inv (reparent cur ini <$> l2) ini np cpus).
  { apply inv_reparent; [done|exists k; split; [done|by rewrite Hrun]|done|]. intros Hz q.
    assert (b = true) as Hb.
    { apply bool_decide_eq_true_2. rewrite Exists_exists in Hz |- *. destruct Hz as (z & Hz & Hzp & Hzs).
      unfold l2 in Hz. apply list_elem_of_fmap in Hz as (y & -> & Hy). exists y. split; [done|].
      destruct (wake_if_facts b (ChProc ini) y) as (Ep & _ & _ & _ & Es). split; [congruence|].
      destruct Es as [E|[_ E]]; rewrite E in Hzs; done. }
    unfold l2. rewrite Hb, list_lookup_fmap. destruct (l1 !! ini); intros [= <-]. apply wake_not_asleep. }
  set (l3 := reparent cur ini <$> l2).
  assert (Hc3 : l3 !! cur = Some (reparent cur ini k)) by (unfold l3; by rewrite list_lookup_fmap, Hc2).
  rewrite (list_alter_Some _ _ _ _ Hc3). apply inv_zombie; [done|done|done|done| |].
  - intros j q. unfold l3. rewrite list_lookup_fmap. destruct (l2 !! j); intros [= <-].
    unfold reparent. case_decide; simpl; [by intros [= ->]|done].
  - intros q kq Hq Hkq Hs. unfold l3, l2 in Hkq. rewrite !list_lookup_fmap in Hkq.
    destruct (l1 !! q) as [y|] eqn:Hy; [|done]. simpl in Hkq. injection Hkq as <-.
    assert (Hst : k_state (reparent cur ini (wake_if b (ChProc ini) y)) = k_state (wake_if b (ChProc ini) y) ∧
      k_chan (reparent cur ini (wake_if b (ChProc ini) y)) = k_chan (wake_if b (ChProc ini) y)).
    { unfold reparent. by case_decide. }
    destruct Hst as [E1 E2]. rewrite E1 in Hs. rewrite E2. apply wake_if_asleep in Hs as Hsy.
    destruct (wake_if_facts b (ChProc ini) y) as (_ & _ & _ & -> & _).
    unfold reparent in Hq. case_decide as Hp; simpl in Hq.
    + exfalso. destruct (t_parent _ _ _ _ H1 _ _ Hc1) as (p & kp & Hpp & Hpi & _); [by rewrite Hrun..|done|].
      congruence.
    + unfold l1 in Hy. rewrite Hq, list_lookup_fmap in Hy. destruct (l !! q); [|done]. simpl in Hy. injection Hy as <-.
      by apply wake_not_asleep.
Qed.

(** ** Forks in progress *)

(** How far a [fork] is: it has the slot; the slot has a kernel stack; the
    process is copied. *)
Inductive phase := Taken | Stacked | Copied.
(** The slot that a process has taken for its child. *)
Abbreviation forks_t := (gmap nat (nat * phase)).

Definition phase_ok (cur : nat) (ph : phase) (k : core) : Prop :=
  match ph with
  | Taken => k_parent k = None ∧ k_kstack k = 0%Z
  | Stacked => k_parent k = None ∧ k_kstack k ≠ 0%Z
  | Copied => k_parent k = Some cur ∧ k_kstack k ≠ 0%Z
  end.

(** Every EMBRYO belongs to one fork in progress, of a live process. *)
Record forks_inv (l : list core) (fs : forks_t) : Prop := {
  f_embryo i k : l !! i = Some k → k_state k = EMBRYO → ∃ cur ph, fs !! cur = Some (i, ph);
  f_slot cur i ph : fs !! cur = Some (i, ph) → ∃ k, l !! i = Some k ∧ k_state k = EMBRYO ∧ phase_ok cur ph k;
  f_forker cur x : fs !! cur = Some x → ∃ kc, l !! cur = Some kc ∧ live kc;
  f_one cur cur' i ph ph' : fs !! cur = Some (i, ph) → fs !! cur' = Some (i, ph') → cur = cur'
}.

(** A change of the table that keeps the slots that are taken, and the processes
    that fork. *)
Lemma forks_ext l l' fs : forks_inv l fs →
  (∀ i k', l' !! i = Some k' → k_state k' = EMBRYO → ∃ k, l !! i = Some k ∧ k_state k = EMBRYO) →
  (∀ i k, l !! i = Some k → k_state k = EMBRYO → ∃ k', l' !! i = Some k' ∧ k_state k' = EMBRYO ∧ k_kstack k' = k_kstack k ∧
    ∀ cur ph, fs !! cur = Some (i, ph) → k_parent k' = k_parent k) →
  (∀ cur k, is_Some (fs !! cur) → l !! cur = Some k → live k → ∃ k', l' !! cur = Some k' ∧ live k') → forks_inv l' fs.
Proof.
  intros [F1 F2 F3 F4] He Hk Hl. constructor.
  - intros i k' Hi Hs. destruct (He _ _ Hi Hs) as (k & Hk1 & Hk2). by eapply F1.
  - intros cur i ph Hf. destruct (F2 _ _ _ Hf) as (k & Hi & Hs & Hp). destruct (Hk _ _ Hi Hs) as (k' & Hi' & Hs' & Eks & Epar).
    exists k'. split_and!; [done|done|]. specialize (Epar _ _ Hf). unfold phase_ok in *. destruct ph; by rewrite Epar, Eks.
  - intros cur x Hf. destruct (F3 _ _ Hf) as (kc & Hkc & Hlc). eapply Hl; [by eexists|done|done].
  - exact F4.
Qed.

Lemma live_not_embryo k : live k → k_state k ≠ EMBRYO.
Proof. intros [->|[->| ->]]; done. Qed.

Lemma forks_insert l fs i k k' : forks_inv l fs → l !! i = Some k → k_state k ≠ EMBRYO → k_state k' ≠ EMBRYO →
  (live k → live k' ∨ fs !! i = None) → forks_inv (<[i := k']> l) fs.
Proof.
  intros Hf Hi Hk Hk' Hlv. eapply forks_ext; [exact Hf|..].
  - intros j q. rewrite list_lookup_insert. case_decide as Hd; [by intros [= <-]|]. intros Hq Hs. by exists q.
  - intros j q Hj Hs. assert (j ≠ i) by congruence. exists q. by rewrite list_lookup_insert_ne.
  - intros cur q Hc Hq Hl. destruct (decide (cur = i)) as [->|Hne]; [|exists q; by rewrite list_lookup_insert_ne].
    rewrite Hi in Hq. injection Hq as <-. exists k'. rewrite list_lookup_insert_eq by (by eapply lookup_lt_Some).
    destruct (Hlv Hl) as [?|Hn]; [done|]. rewrite Hn in Hc. by destruct Hc.
Qed.

(** The slot of a fork changes. *)
Lemma forks_move l fs cur i ph ph' k k' : forks_inv l fs → fs !! cur = Some (i, ph) → l !! i = Some k → k_state k' = EMBRYO → phase_ok cur ph' k' →
  forks_inv (<[i := k']> l) (<[cur := (i, ph')]> fs).
Proof.
  intros [F1 F2 F3 F4] Hf Hi Hs' Hp'. destruct (F2 _ _ _ Hf) as (k0 & Hk0 & Hs & _). assert (k0 = k) as -> by congruence.
  assert (Hil : i < length l) by by eapply lookup_lt_Some.
  assert (Hlook : ∀ c j p, <[cur := (i, ph')]> fs !! c = Some (j, p) → ∃ p0, fs !! c = Some (j, p0) ∧ (c = cur ∧ p = ph' ∨ c ≠ cur ∧ p = p0)).
  { intros c j p. rewrite lookup_insert_Some. intros [(<- & [= <- <-])|(Hne & Hc)]; [exists ph; auto|exists p; auto]. }
  constructor.
  - intros j q. rewrite list_lookup_insert. case_decide as Hd.
    + intros _ _. exists cur, ph'. destruct Hd as [-> _]. by rewrite lookup_insert_eq.
    + intros Hq Hqs. destruct (F1 _ _ Hq Hqs) as (c & p & Hc). destruct (decide (c = cur)) as [->|Hne].
      * exists cur, ph'. rewrite lookup_insert_eq. by simplify_eq.
      * exists c, p. by rewrite lookup_insert_ne.
  - intros c j p (p0 & Hc & Hcase)%Hlook. destruct Hcase as [[-> ->]|[Hne ->]].
    + simplify_eq. exists k'. by rewrite list_lookup_insert_eq.
    + destruct (F2 _ _ _ Hc) as (q & Hq & Hqs & Hqp). exists q. rewrite list_lookup_insert_ne; [done|]. intros ->. by apply Hne, (F4 _ _ j p0 ph).
  - intros c [j p] (p0 & Hc & _)%Hlook. destruct (F3 _ _ Hc) as (kc & Hkc & Hlc). exists kc. rewrite list_lookup_insert_ne; [done|].
    intros ->. rewrite Hi in Hkc. injection Hkc as <-. by apply live_not_embryo in Hlc.
  - intros c c' j p p' (p0 & Hc & _)%Hlook (p1 & Hc' & _)%Hlook. by eapply F4.
Qed.

(** The fork ends: the slot is a process, or unused. *)
Lemma forks_end l fs cur i ph k k' : forks_inv l fs → fs !! cur = Some (i, ph) → l !! i = Some k → k_state k' ≠ EMBRYO →
  forks_inv (<[i := k']> l) (delete cur fs).
Proof.
  intros [F1 F2 F3 F4] Hf Hi Hs'. destruct (F2 _ _ _ Hf) as (k0 & Hk0 & Hs & _). assert (k0 = k) as -> by congruence. constructor.
  - intros j q. rewrite list_lookup_insert. case_decide as Hd; [by intros [= <-]|]. intros Hq Hqs. destruct (F1 _ _ Hq Hqs) as (c & p & Hc).
    exists c, p. rewrite lookup_delete_ne; [done|]. intros <-. simplify_eq. apply Hd. split; [done|by eapply lookup_lt_Some].
  - intros c j p [Hne Hc]%lookup_delete_Some. destruct (F2 _ _ _ Hc) as (q & Hq & Hqs & Hqp). exists q. rewrite list_lookup_insert_ne; [done|].
    intros ->. by apply Hne, (F4 _ _ j ph p).
  - intros c x [Hne Hc]%lookup_delete_Some. destruct (F3 _ _ Hc) as (kc & Hkc & Hlc). exists kc. rewrite list_lookup_insert_ne; [done|].
    intros ->. rewrite Hi in Hkc. injection Hkc as <-. by apply live_not_embryo in Hlc.
  - intros c c' j p p' [_ Hc]%lookup_delete_Some [_ Hc']%lookup_delete_Some. by eapply F4.
Qed.

(** A fork begins. *)
Lemma forks_begin l fs cur i k k' : forks_inv l fs → fs !! cur = None → l !! i = Some k → k_state k = UNUSED → k_state k' = EMBRYO →
  phase_ok cur Taken k' → (∃ kc, l !! cur = Some kc ∧ live kc) → forks_inv (<[i := k']> l) (<[cur := (i, Taken)]> fs).
Proof.
  intros [F1 F2 F3 F4] Hn Hi Hu Hs' Hp' (kc & Hkc & Hlc). assert (Hil : i < length l) by by eapply lookup_lt_Some.
  assert (Hfree : ∀ c p, fs !! c ≠ Some (i, p)) by (intros c p Hc; destruct (F2 _ _ _ Hc) as (q & Hq & Hqs & _); congruence).
  assert (Hlive : ∀ c q, l !! c = Some q → live q → <[i := k']> l !! c = Some q).
  { intros c q Hc Hl. rewrite list_lookup_insert_ne; [done|]. intros ->. rewrite Hi in Hc. injection Hc as <-. unfold live in Hl. rewrite Hu in Hl. naive_solver. }
  constructor.
  - intros j q. rewrite list_lookup_insert. case_decide as Hd.
    + intros _ _. destruct Hd as [-> _]. exists cur, Taken. by rewrite lookup_insert_eq.
    + intros Hq Hqs. destruct (F1 _ _ Hq Hqs) as (c & p & Hc). exists c, p. rewrite lookup_insert_ne; [done|]. intros <-. congruence.
  - intros c j p. rewrite lookup_insert_Some. intros [(<- & [= <- <-])|(Hne & Hc)]; [exists k'; by rewrite list_lookup_insert_eq|].
    destruct (F2 _ _ _ Hc) as (q & Hq & Hqs & Hqp). exists q. rewrite list_lookup_insert_ne; [done|]. intros <-. by eapply Hfree.
  - intros c x. rewrite lookup_insert_Some. intros [(<- & _)|(Hne & Hc)]; [exists kc; by eauto|]. destruct (F3 _ _ Hc) as (q & Hq & Hl). exists q. eauto.
  - intros c c' j p p'. rewrite !lookup_insert_Some. intros [(<- & [= <- <-])|(Hne & Hc)] [(<- & Hc')|(Hne' & Hc')]; [done| | |by eapply F4].
    + by apply Hfree in Hc'.
    + injection Hc' as <- <-. by apply Hfree in Hc.
Qed.

(** Wakeups and the new parents of [exit] leave the forks alone. *)
Lemma forks_map l fs (f : core → core) : forks_inv l fs →
  (∀ k, (k_state (f k) = EMBRYO ↔ k_state k = EMBRYO) ∧ k_kstack (f k) = k_kstack k ∧ (live k → live (f k))) →
  (∀ i k cur ph, l !! i = Some k → fs !! cur = Some (i, ph) → k_parent (f k) = k_parent k) → forks_inv (f <$> l) fs.
Proof.
  intros Hf Hs Hp. eapply forks_ext; [exact Hf|..].
  - intros i k'. rewrite list_lookup_fmap. destruct (l !! i) as [k|]; intros [= <-] He. exists k. split; [done|by apply Hs].
  - intros i k Hi He. exists (f k). rewrite list_lookup_fmap, Hi. split_and!; [done|by apply Hs|apply Hs|]. intros cur ph Hc. by eapply Hp.
  - intros cur k _ Hk Hl. exists (f k). rewrite list_lookup_fmap, Hk. split; [done|by apply Hs].
Qed.

Lemma wake_forks ch k : (k_state (wake ch k) = EMBRYO ↔ k_state k = EMBRYO) ∧ k_kstack (wake ch k) = k_kstack k ∧ (live k → live (wake ch k)) ∧
  k_parent (wake ch k) = k_parent k.
Proof. unfold wake, live. case_decide as Hd; simpl; [|done]. destruct Hd as [-> _]. naive_solver. Qed.

Lemma forks_wake l fs ch : forks_inv l fs → forks_inv (wake ch <$> l) fs.
Proof. intros Hf. apply forks_map; [done| |]; intros; pose proof (wake_forks ch k); naive_solver. Qed.

Lemma forks_exit l fs cur ini par kc : forks_inv l fs → fs !! cur = None → l !! cur = Some kc → live kc → forks_inv (exit_cores cur ini par l) fs.
Proof.
  intros Hf Hn Hc Hlc. unfold exit_cores. set (l1 := match par with Some q => wake (ChProc q) <$> l | None => l end).
  assert (H1 : forks_inv l1 fs) by (unfold l1; destruct par; [by apply forks_wake|done]).
  assert (Hc1 : ∃ k1, l1 !! cur = Some k1 ∧ live k1).
  { unfold l1. destruct par as [q|]; [|by exists kc]. exists (wake (ChProc q) kc). rewrite list_lookup_fmap, Hc. split; [done|by apply wake_forks]. }
  rewrite exit_at_split. set (b := bool_decide _). set (l2 := wake_if b (ChProc ini) <$> l1).
  assert (H2 : forks_inv l2 fs) by (unfold l2; destruct b; simpl; [by apply forks_wake|by rewrite list_fmap_id]).
  assert (Hc2 : ∃ k2, l2 !! cur = Some k2 ∧ live k2).
  { destruct Hc1 as (k1 & Hk1 & Hl1). unfold l2. exists (wake_if b (ChProc ini) k1). rewrite list_lookup_fmap, Hk1. split; [done|].
    destruct b; simpl; [by apply wake_forks|done]. }
  assert (H3 : forks_inv (reparent cur ini <$> l2) fs).
  { apply forks_map; [done|intros k; unfold reparent, live; by case_decide|]. intros i k c ph Hi Hcf. unfold reparent. case_decide as Hp; [|done].
    exfalso. destruct (f_slot _ _ H2 _ _ _ Hcf) as (k0 & Hk0 & _ & Hph). assert (k0 = k) as -> by congruence. unfold phase_ok in Hph.
    destruct ph; destruct Hph as [Hp' _]; [congruence..|]. rewrite Hp in Hp'. injection Hp' as ->. congruence. }
  destruct Hc2 as (k2 & Hk2 & Hl2).
  assert (Hc3 : (reparent cur ini <$> l2) !! cur = Some (reparent cur ini k2)) by (by rewrite list_lookup_fmap, Hk2).
  rewrite (list_alter_Some _ _ _ _ Hc3). eapply forks_insert; [exact H3|exact Hc3| |done|by right].
  apply live_not_embryo. unfold reparent, live in *. by case_decide.
Qed.

(** ** The system *)

Section system.
Context {E : Type} `{ProcEnv E}.
Variable forkret : Z.

(** The table, the process of each CPU, and the forks in progress. *)
Record sys := Sys { y_state : pstate E; y_cpus : list (option nat); y_forks : forks_t }.

(** A step of the system: a CPU without a process runs the scheduler; the
    process of a CPU goes on in the kernel, sleeps or is preempted; an interrupt
    handler wakes sleepers. [fork] is four steps, its sections of [ptable.lock]
    and the code between them; in it a process may be preempted, as everywhere,
    but does not sleep. [exit] closes the files and the directory, which may
    sleep, and then has its section; [wait] goes on with another scan after it
    slept. Everything else that a process does, other system calls and its own
    code included, changes nothing that [cores] has. *)
Inductive step : sys → sys → Prop :=
| st_schedule s s' cpus fs c i j : cpus !! c = Some None → scheduler_next i s = Done (Some j) s' →
    step (Sys s cpus fs) (Sys s' (<[c := Some j]> cpus) fs)
| st_fork_slot s s' cpus fs c cur r : cpus !! c = Some (Some cur) → fs !! cur = None → alloc_slot s = Done r s' →
    step (Sys s cpus fs) (Sys s' cpus (if r is Some np then <[cur := (np, Taken)]> fs else fs))
| st_fork_stack s s' cpus fs c cur np r : cpus !! c = Some (Some cur) → fs !! cur = Some (np, Taken) → alloc_stack forkret np s = Done r s' →
    step (Sys s cpus fs) (Sys s' cpus (if r is Some _ then <[cur := (np, Stacked)]> fs else delete cur fs))
| st_fork_copy s s' cpus fs c cur np (r : bool) : cpus !! c = Some (Some cur) → fs !! cur = Some (np, Stacked) → fork_copy cur np s = Done r s' →
    step (Sys s cpus fs) (Sys s' cpus (if r then <[cur := (np, Copied)]> fs else delete cur fs))
| st_fork_ready s s' cpus fs c cur np r : cpus !! c = Some (Some cur) → fs !! cur = Some (np, Copied) → fork_ready np s = Done r s' →
    step (Sys s cpus fs) (Sys s' cpus (delete cur fs))
| st_exit_files s s' cpus fs c cur : cpus !! c = Some (Some cur) → fs !! cur = None → exit_files cur s = Done tt s' →
    step (Sys s cpus fs) (Sys s' cpus fs)
| st_exit_table s s' cpus fs c cs cur : cpus !! c = Some (Some cur) → fs !! cur = None → ps_initproc s ≠ Some cur → exit_table cs cur s = Done tt s' →
    step (Sys s cpus fs) (Sys s' (<[c := None]> cpus) fs)
| st_wait s s' cpus fs c cs cur r : cpus !! c = Some (Some cur) → fs !! cur = None → wait_scan cs cur s = Done r s' →
    step (Sys s cpus fs) (Sys s' (if r is Some _ then cpus else <[c := None]> cpus) fs)
| st_sleep s s' cpus fs c cs lk cur ch : cpus !! c = Some (Some cur) → fs !! cur = None → (∀ q, ch ≠ ChProc q) →
    sleep cs lk cur ch s = Done tt s' → step (Sys s cpus fs) (Sys s' (<[c := None]> cpus) fs)
| st_resume s s' cpus fs c cur : cpus !! c = Some (Some cur) → sleep_resume cur s = Done tt s' →
    step (Sys s cpus fs) (Sys s' cpus fs)
| st_yield s s' cpus fs c cs cur : cpus !! c = Some (Some cur) → yield cs cur s = Done tt s' →
    step (Sys s cpus fs) (Sys s' (<[c := None]> cpus) fs)
| st_grow s s' cpus fs c cur n r : cpus !! c = Some (Some cur) → growproc cur n s = Done r s' →
    step (Sys s cpus fs) (Sys s' cpus fs)
| st_other s s' cpus fs c cur : cpus !! c = Some (Some cur) → frame s s' → step (Sys s cpus fs) (Sys s' cpus fs)
| st_kill s s' cpus fs pid r : kill pid s = Done r s' → step (Sys s cpus fs) (Sys s' cpus fs)
| st_wakeup s s' cpus fs ch : wakeup ch s = Done tt s' → step (Sys s cpus fs) (Sys s' cpus fs).

Definition sys_inv (ini : nat) (y : sys) : Prop :=
  ps_initproc (y_state y) = Some ini ∧ (0 < ps_nextpid (y_state y))%Z ∧
  table_inv (cores (y_state y)) ini (ps_nextpid (y_state y)) (y_cpus y) ∧ forks_inv (cores (y_state y)) (y_forks y).

Lemma cpu_clear (cpus : list (option nat)) c i :
  cpus !! c = Some (Some i) → (∀ c c' j, cpus !! c = Some (Some j) → cpus !! c' = Some (Some j) → c = c') →
  (∀ d j, <[c := None]> cpus !! d = Some (Some j) → j ≠ i ∧ cpus !! d = Some (Some j)) ∧
  (∀ d j, j ≠ i → cpus !! d = Some (Some j) → <[c := None]> cpus !! d = Some (Some j)).
Proof.
  intros Hc Hone. split.
  - intros d j. rewrite list_lookup_insert. case_decide as Hd; [done|]. intros Hj. split; [|done].
    intros ->. apply Hd. split; [by eapply Hone|by eapply lookup_lt_Some].
  - intros d j Hne Hd. rewrite list_lookup_insert_ne; [done|]. intros <-. congruence.
Qed.

(** The running process leaves its CPU, in a state that is not RUNNING. *)
Lemma inv_leave l ini np cpus c i k k' :
  table_inv l ini np cpus → cpus !! c = Some (Some i) → l !! i = Some k → live k' → k_state k' ≠ RUNNING →
  k_pid k' = k_pid k → k_parent k' = k_parent k → k_kstack k' = k_kstack k →
  (∀ q, k_state k' = SLEEPING → k_chan k' = Some (ChProc q) → q = i ∧ no_zombies i l) →
  table_inv (<[i := k']> l) ini np (<[c := None]> cpus).
Proof.
  intros Hinv Hc Hi Hk' Hnr E1 E2 E3 Hs.
  destruct (t_run _ _ _ _ Hinv _ _ Hc) as (k0 & Hk0 & Hrun). rewrite Hi in Hk0. injection Hk0 as <-.
  destruct (cpu_clear cpus c i Hc (t_one _ _ _ _ Hinv)) as [Hc1 Hc2].
  eapply inv_state; [done|exact Hi|by right; right|done|done|done|done|done| | | |].
  - intros d j [Hne Hd]%Hc1. by rewrite decide_False.
  - intros d d' j [_ Hd]%Hc1 [_ Hd']%Hc1. by eapply (t_one _ _ _ _ Hinv).
  - done.
  - intros d j Hne Hd. exists d. by apply Hc2.
Qed.

(** A change of a process that keeps its state. *)
Lemma inv_keep l ini np cpus i k k' :
  table_inv l ini np cpus → l !! i = Some k → live k → live k' →
  (k_state k' = RUNNING ↔ k_state k = RUNNING) →
  k_pid k' = k_pid k → k_parent k' = k_parent k → k_kstack k' = k_kstack k →
  (∀ q, k_state k' = SLEEPING → k_chan k' = Some (ChProc q) → q = i ∧ no_zombies i l) →
  table_inv (<[i := k']> l) ini np cpus.
Proof.
  intros Hinv Hi Hk Hk' Hst E1 E2 E3 Hs.
  eapply inv_state; [done|exact Hi|done|done|done|done|done|done| |exact (t_one _ _ _ _ Hinv)| |by eauto].
  - intros c j Hc. case_decide as Hj; [|done]. subst j. apply Hst.
    destruct (t_run _ _ _ _ Hinv _ _ Hc) as (k0 & Hk0 & Hr). congruence.
  - intros Hr. apply Hst in Hr. by eapply (t_cpu _ _ _ _ Hinv).
Qed.

(** A process changes fields of a slot that is not live: only [killed] here. *)
Lemma inv_dead l ini np cpus i k k' :
  table_inv l ini np cpus → l !! i = Some k → ¬ live k →
  k_state k' = k_state k → k_pid k' = k_pid k → k_parent k' = k_parent k → k_kstack k' = k_kstack k →
  k_chan k' = k_chan k → table_inv (<[i := k']> l) ini np cpus.
Proof.
  intros Hinv Hi Hk Es E1 E2 E3 E4. assert (Hil : i < length l) by (by eapply lookup_lt_Some).
  assert (Hup : ∀ j q, <[i := k']> l !! j = Some q → ∃ y, l !! j = Some y ∧ k_state q = k_state y ∧
    k_pid q = k_pid y ∧ k_parent q = k_parent y ∧ k_kstack q = k_kstack y ∧ k_chan q = k_chan y).
  { intros j q. rewrite list_lookup_insert. case_decide as Hd; [destruct Hd as [-> _]; intros [= <-]; by exists k|].
    intros Hq. by exists q. }
  assert (Hlive : ∀ j q, l !! j = Some q → live q → <[i := k']> l !! j = Some q ∧ live q).
  { intros j q Hj Hq. rewrite list_lookup_insert_ne; [done|]. intros ->. rewrite Hi in Hj. by injection Hj as <-. }
  destruct Hinv as [T1 T2 T3 T4 T5 T6 T7 T8 T9 T10]. constructor.
  - intros c j Hc. destruct (T1 _ _ Hc) as (q & Hq & Hs). exists q. split; [apply Hlive; [done|]|done]. by right; right.
  - exact T2.
  - intros j q (y & Hy & -> & _)%Hup. by eauto.
  - destruct T4 as (q & Hq & Hl). exists q. by apply Hlive.
  - intros j q (y & Hy & -> & _ & -> & _)%Hup Hs He Hni. destruct (T5 _ _ Hy Hs He Hni) as (p & kp & Hp & Hpi & Hkp & Hl).
    exists p, kp. split; [done|]. split; [done|]. by apply Hlive.
  - intros j q (y & Hy & -> & _ & -> & -> & _)%Hup. by eauto.
  - intros j q (y & Hy & -> & _ & _ & -> & _)%Hup. by eauto.
  - intros j q p (y & Hy & -> & _ & _ & _ & ->)%Hup Hs Hc. destruct (T8 _ _ _ Hy Hs Hc) as [-> Hz].
    split; [done|]. intros m z (x & Hx & -> & _ & -> & _)%Hup. by eauto.
  - intros a b qa qb (ya & Ha & -> & -> & _)%Hup (yb & Hb & -> & -> & _)%Hup. by eauto.
  - intros j q (y & Hy & -> & -> & _)%Hup. by eauto.
Qed.

Lemma growproc_frame cur n s r s' : growproc cur n s = Done r s' → frame s s'.
Proof.
  unfold growproc. intros (p & s1 & [-> ->]%getp_done & Hrun)%bind_done. case_decide; [|case_decide].
  - apply bind_done in Hrun as (sz & s1 & Hf1%env_done & Hrun). case_decide; [by injection Hrun as <- <-|].
    apply bind_done in Hrun as ([] & s2 & Hf2%upd_frame & [= <- <-]); [by etrans|done].
  - apply bind_done in Hrun as (sz & s1 & Hf1%env_done & Hrun). case_decide; [by injection Hrun as <- <-|].
    apply bind_done in Hrun as ([] & s2 & Hf2%upd_frame & [= <- <-]); [by etrans|done].
  - by injection Hrun as <- <-.
Qed.

Lemma inv_frame ini s s' cpus fs : frame s s' → sys_inv ini (Sys s cpus fs) → sys_inv ini (Sys s' cpus fs).
Proof. intros (C & I & N) (H1 & H2 & H3 & H4). split_and!; simpl in *; [congruence|congruence|by rewrite C, N|by rewrite C]. Qed.

Lemma running_core ini s cpus fs c cur : sys_inv ini (Sys s cpus fs) → cpus !! c = Some (Some cur) →
  ∃ k, cores s !! cur = Some k ∧ k_state k = RUNNING ∧ live k.
Proof.
  intros (_ & _ & Hinv & _) Hc. destruct (t_run _ _ _ _ Hinv _ _ Hc) as (k & Hk & Hr).
  exists k. split_and!; [done|done|by right; right].
Qed.

Lemma sys_puts ini s s' cpus cpus' fs fs' i k : sys_inv ini (Sys s cpus fs) → puts s s' i k →
  table_inv (<[i := k]> (cores s)) ini (ps_nextpid s) cpus' → forks_inv (<[i := k]> (cores s)) fs' → sys_inv ini (Sys s' cpus' fs').
Proof. intros (H1 & H2 & _) (C & I & N) Ht Hf. split_and!; simpl in *; [congruence|congruence|by rewrite C, N|by rewrite C]. Qed.

Lemma fork_slot_inv ini s s' cpus fs c cur r : sys_inv ini (Sys s cpus fs) → cpus !! c = Some (Some cur) → fs !! cur = None →
  (ps_nextpid s + 1 < 2 ^ 32)%Z → alloc_slot s = Done r s' →
  sys_inv ini (Sys s' cpus (if r is Some np then <[cur := (np, Taken)]> fs else fs)).
Proof.
  intros Hy Hc Hn Hb Hr%alloc_slot_run. destruct r as [i|]; [|by destruct Hr as [-> _]].
  destruct Hr as (k & _ & Hk & Hst & C & I & N). pose proof Hy as (H1 & H2 & H3 & H4). simpl in *.
  rewrite u32_small in N by (unfold is_u32; lia). destruct (t_unused _ _ _ _ H3 _ _ Hk Hst) as [Hp Hks]. split_and!; simpl; [congruence|lia|..].
  - rewrite C, N. eapply inv_idle; [exact H3|exact Hk|unfold live; rewrite Hst; naive_solver| |lia]. right. split; [done|]. right. split; [done|lia].
  - rewrite C. eapply forks_begin; [done|done|exact Hk|done|done|done|]. destruct (running_core _ _ _ _ _ _ Hy Hc) as (kc & Hkc & _ & Hl). by exists kc.
Qed.

Lemma fork_slot_of ini s cpus fs cur np ph : sys_inv ini (Sys s cpus fs) → fs !! cur = Some (np, ph) →
  ∃ k, cores s !! np = Some k ∧ k_state k = EMBRYO ∧ ¬ live k ∧ phase_ok cur ph k.
Proof.
  intros (_ & _ & _ & H4) Hf. destruct (f_slot _ _ H4 _ _ _ Hf) as (k & Hk & Hs & Hp). exists k. split_and!; [done|done| |done].
  intros Hl. by apply live_not_embryo in Hl.
Qed.

Lemma fork_stack_inv ini s s' cpus fs cur np r : sys_inv ini (Sys s cpus fs) → fs !! cur = Some (np, Taken) →
  alloc_stack forkret np s = Done r s' → sys_inv ini (Sys s' cpus (if r is Some _ then <[cur := (np, Stacked)]> fs else delete cur fs)).
Proof.
  intros Hy Hf Hr. destruct (fork_slot_of _ _ _ _ _ _ _ Hy Hf) as (k & Hk & Hs & Hl & Hp & Hks). pose proof Hy as (_ & _ & H3 & H4). simpl in *.
  destruct (alloc_stack_run _ _ _ _ _ _ Hk Hr) as [(-> & Hput)|(-> & ks & Hne & Hput)]; (eapply sys_puts; [exact Hy|exact Hput|..]).
  - eapply inv_idle; [exact H3|exact Hk|done|by left|lia].
  - by eapply forks_end.
  - eapply inv_idle; [exact H3|exact Hk|done|right; split; [done|by left]|lia].
  - by eapply forks_move.
Qed.

Lemma fork_copy_inv ini s s' cpus fs cur np (r : bool) : sys_inv ini (Sys s cpus fs) → fs !! cur = Some (np, Stacked) →
  fork_copy cur np s = Done r s' → sys_inv ini (Sys s' cpus (if r then <[cur := (np, Copied)]> fs else delete cur fs)).
Proof.
  intros Hy Hf Hr. destruct (fork_slot_of _ _ _ _ _ _ _ Hy Hf) as (k & Hk & Hs & Hl & Hp & Hks). pose proof Hy as (_ & _ & H3 & H4). simpl in *.
  pose proof (fork_copy_run _ _ _ _ _ _ Hk Hr) as Hput. destruct r; (eapply sys_puts; [exact Hy|exact Hput|..]).
  - eapply inv_idle; [exact H3|exact Hk|done|right; split; [done|by left]|lia].
  - by eapply forks_move.
  - eapply inv_idle; [exact H3|exact Hk|done|by left|lia].
  - by eapply forks_end.
Qed.

Lemma fork_ready_inv ini s s' cpus fs cur np r : sys_inv ini (Sys s cpus fs) → fs !! cur = Some (np, Copied) →
  fork_ready np s = Done r s' → sys_inv ini (Sys s' cpus (delete cur fs)).
Proof.
  intros Hy Hf Hr. destruct (fork_slot_of _ _ _ _ _ _ _ Hy Hf) as (k & Hk & Hs & Hl & Hp & Hks). pose proof Hy as (_ & _ & H3 & H4). simpl in *.
  destruct (f_forker _ _ H4 _ _ Hf) as (kc & Hkc & Hlc). destruct (fork_ready_run _ _ _ _ _ Hk Hr) as [_ Hput].
  eapply sys_puts; [exact Hy|exact Hput|by eapply inv_ready|by eapply forks_end].
Qed.

Lemma wait_inv ini s s' cpus fs c cs cur r : sys_inv ini (Sys s cpus fs) → cpus !! c = Some (Some cur) →
  wait_scan cs cur s = Done r s' → sys_inv ini (Sys s' (if r is Some _ then cpus else <[c := None]> cpus) fs).
Proof.
  intros Hy Hc Hw%wait_run. destruct (running_core _ _ _ _ _ _ Hy Hc) as (kc & Hkc & _ & Hlc).
  pose proof Hy as (H1 & H2 & H3 & H4). simpl in *. destruct Hw as [i k Hk Hp Hz I N C|Hf _ _|Hnz _ _ [cs' Hs]].
  - assert (Hl : ¬ live k) by (unfold live; rewrite Hz; naive_solver). eapply sys_puts; [exact Hy|split_and!; [exact C|exact I|exact N]|..].
    + eapply inv_idle; [exact H3|exact Hk|done|by left|lia].
    + eapply forks_insert; [done|exact Hk|by rewrite Hz|done|done].
  - by eapply inv_frame.
  - eapply sys_puts; [exact Hy|by eapply sleep_run|..].
    + eapply inv_leave; [exact H3|done|exact Hkc|by left|done|done|done|done|].
      intros q _ [= <-]. split; [done|]. intros j k Hj Hp Hz. rewrite Forall_lookup in Hnz. by eapply (Hnz j k).
    + eapply forks_insert; [done|exact Hkc|by apply live_not_embryo|done|]. intros _. left. by left.
Qed.

Lemma kill_inv ini s s' cpus fs pid r : sys_inv ini (Sys s cpus fs) → kill pid s = Done r s' → sys_inv ini (Sys s' cpus fs).
Proof.
  intros Hy Hk%kill_run. pose proof Hy as (H1 & H2 & H3 & H4). simpl in *.
  destruct Hk as [(Hf & _)|(i & k & Hk & Hpid & _ & _ & I & N & C)]; [by eapply inv_frame|].
  set (k' := Core _ _ _ _ _ _) in C. eapply sys_puts; [exact Hy|split_and!; [exact C|exact I|exact N]|..].
  - unfold k'. destruct (decide (k_state k = SLEEPING)) as [Hs|Hs].
    + eapply inv_keep; [exact H3|exact Hk|by left|right; by left|simpl; rewrite Hs; done|done|done|done|done].
    + assert (Hd : live k ∨ ¬ live k) by (unfold live; destruct (k_state k); naive_solver).
      destruct Hd as [Hd|Hd]; [|by eapply inv_dead].
      eapply inv_keep; [exact H3|exact Hk|done|exact Hd|done|done|done|done|done].
  - eapply forks_ext; [exact H4|..].
    + intros j q. rewrite list_lookup_insert. case_decide as Hd; [|by eauto]. intros [= <-]. destruct Hd as [-> _]. unfold k'. simpl.
      case_decide; [done|]. by eauto.
    + intros j q Hq Hs. destruct (decide (j = i)) as [->|Hne]; [|exists q; by rewrite list_lookup_insert_ne].
      assert (q = k) as -> by congruence. exists k'. rewrite list_lookup_insert_eq by (by eapply lookup_lt_Some). unfold k'. simpl. by rewrite Hs.
    + intros cur q _ Hq Hl. destruct (decide (cur = i)) as [->|Hne]; [|exists q; by rewrite list_lookup_insert_ne].
      assert (q = k) as -> by congruence. exists k'. rewrite list_lookup_insert_eq by (by eapply lookup_lt_Some). split; [done|].
      unfold k', live in *. simpl. case_decide; naive_solver.
Qed.

Lemma exit_table_inv ini s s' cpus fs c cs cur : sys_inv ini (Sys s cpus fs) → cpus !! c = Some (Some cur) → fs !! cur = None →
  ps_initproc s ≠ Some cur → exit_table cs cur s = Done tt s' → sys_inv ini (Sys s' (<[c := None]> cpus) fs).
Proof.
  intros Hy Hc Hn Hne Hr. destruct (running_core _ _ _ _ _ _ Hy Hc) as (kc & Hkc & _ & Hlc). pose proof Hy as (H1 & H2 & H3 & H4). simpl in *.
  destruct (exit_table_run _ _ ini _ _ H1 Hr) as (I & N & C).
  assert (p_parent (ps_procs s !!! cur) = k_parent kc) as Hpar by (by rewrite <-(getp_core _ _ _ Hkc)). rewrite Hpar in C.
  split_and!; simpl; [done|congruence|rewrite C, N; apply inv_exit; [done|done|congruence|done]|]. rewrite C. by eapply forks_exit.
Qed.

Lemma leave_inv ini s s' cpus fs c cur k k' : sys_inv ini (Sys s cpus fs) → cpus !! c = Some (Some cur) → cores s !! cur = Some k →
  puts s s' cur k' → live k' → k_state k' ≠ RUNNING → k_pid k' = k_pid k → k_parent k' = k_parent k → k_kstack k' = k_kstack k →
  (∀ q, k_state k' = SLEEPING → k_chan k' ≠ Some (ChProc q)) → sys_inv ini (Sys s' (<[c := None]> cpus) fs).
Proof.
  intros Hy Hc Hk Hput Hl' Hr' E1 E2 E3 Hch. destruct (running_core _ _ _ _ _ _ Hy Hc) as (kc & Hkc & _ & Hlc). assert (kc = k) as -> by congruence.
  pose proof Hy as (H1 & H2 & H3 & H4). simpl in *. eapply sys_puts; [exact Hy|exact Hput|..].
  - eapply inv_leave; [exact H3|done|exact Hk|done..|]. intros q Hs Hq. by destruct (Hch q Hs).
  - eapply forks_insert; [done|exact Hk|by apply live_not_embryo|by apply live_not_embryo|]. intros _. by left.
Qed.

Lemma schedule_inv ini s s' cpus fs c i j : sys_inv ini (Sys s cpus fs) → cpus !! c = Some None → scheduler_next i s = Done (Some j) s' →
  sys_inv ini (Sys s' (<[c := Some j]> cpus) fs).
Proof.
  intros Hy Hc Hr. apply scheduler_run in Hr as (k & _ & Hk & Hs & _ & I & N & C). pose proof Hy as (H1 & H2 & H3 & H4). simpl in *.
  assert (Hfree : ∀ d, cpus !! d ≠ Some (Some j)).
  { intros d Hd. destruct (t_run _ _ _ _ H3 _ _ Hd) as (q & Hq & Hrq). congruence. }
  assert (Hcl : c < length cpus) by (by eapply lookup_lt_Some). eapply sys_puts; [exact Hy|split_and!; [exact C|exact I|exact N]|..].
  - eapply inv_state; [exact H3|exact Hk|by right; left|by right; right|done|done|done|done| | | |].
    + intros d m. rewrite list_lookup_insert. case_decide as Hd; [intros [= <-]; by rewrite decide_True|].
      intros Hm. rewrite decide_False; [done|]. intros ->. by eapply Hfree.
    + intros d d' m. rewrite !list_lookup_insert.
      repeat case_decide; intros; simplify_eq; [naive_solver|exfalso; by eapply Hfree..|by eapply (t_one _ _ _ _ H3)].
    + intros _. exists c. by apply list_lookup_insert_eq.
    + intros d m Hne Hd. exists d. rewrite list_lookup_insert_ne; [done|]. intros ->. congruence.
  - eapply forks_insert; [done|exact Hk|by rewrite Hs|done|]. intros _. left. by right; right.
Qed.

Lemma step_sys_inv ini y y' : sys_inv ini y → (ps_nextpid (y_state y) + 1 < 2 ^ 32)%Z → step y y' →
  sys_inv ini y' ∧ (ps_nextpid (y_state y') ≤ ps_nextpid (y_state y) + 1)%Z.
Proof.
  intros Hy Hb Hst. assert (Hpos : (0 < ps_nextpid (y_state y))%Z) by apply Hy.
  destruct Hst as [s s' cpus fs c i j Hc Hr|s s' cpus fs c cur r Hc Hf Hr|s s' cpus fs c cur np r Hc Hf Hr|s s' cpus fs c cur np r Hc Hf Hr
    |s s' cpus fs c cur np r Hc Hf Hr|s s' cpus fs c cur Hc Hf Hr|s s' cpus fs c cs cur Hc Hf Hne Hr|s s' cpus fs c cs cur r Hc Hf Hr
    |s s' cpus fs c cs lk cur ch Hc Hf Hch Hr|s s' cpus fs c cur Hc Hr|s s' cpus fs c cs cur Hc Hr
    |s s' cpus fs c cur n r Hc Hr|s s' cpus fs c cur Hc Hr|s s' cpus fs pid r Hr|s s' cpus fs ch Hr]; simpl in *.
  - split; [by eapply schedule_inv|]. apply scheduler_run in Hr as (k & _ & _ & _ & _ & _ & -> & _). lia.
  - split; [by eapply fork_slot_inv|]. apply alloc_slot_run in Hr. destruct r as [i|]; [|destruct Hr as [-> _]; lia].
    destruct Hr as (k & _ & _ & _ & _ & _ & ->). rewrite u32_small by (unfold is_u32; lia). lia.
  - split; [by eapply fork_stack_inv|]. destruct (fork_slot_of _ _ _ _ _ _ _ Hy Hf) as (k & Hk & _).
    destruct (alloc_stack_run _ _ _ _ _ _ Hk Hr) as [(_ & _ & _ & ->)|(_ & ks & _ & _ & _ & ->)]; lia.
  - split; [by eapply fork_copy_inv|]. destruct (fork_slot_of _ _ _ _ _ _ _ Hy Hf) as (k & Hk & _).
    destruct (fork_copy_run _ _ _ _ _ _ Hk Hr) as (_ & _ & ->). lia.
  - split; [by eapply fork_ready_inv|]. destruct (fork_slot_of _ _ _ _ _ _ _ Hy Hf) as (k & Hk & _).
    destruct (fork_ready_run _ _ _ _ _ Hk Hr) as (_ & _ & _ & ->). lia.
  - apply exit_files_run in Hr as [Hfr _]. split; [by eapply inv_frame|]. destruct Hfr as (_ & _ & ->). lia.
  - split; [by eapply exit_table_inv|]. destruct Hy as (H1 & _). destruct (exit_table_run _ _ ini _ _ H1 Hr) as (_ & -> & _). simpl. lia.
  - split; [by eapply wait_inv|]. destruct (running_core _ _ _ _ _ _ Hy Hc) as (kc & Hkc & _).
    apply wait_run in Hr as [i k _ _ _ _ -> _|(_ & _ & ->) _ _|_ _ _ [cs' Hs]]; [lia|lia|].
    destruct (sleep_run _ _ _ _ _ _ _ Hkc Hs) as (_ & _ & ->). lia.
  - destruct (running_core _ _ _ _ _ _ Hy Hc) as (kc & Hkc & _). pose proof (sleep_run _ _ _ _ _ _ _ Hkc Hr) as Hput. split.
    + eapply leave_inv; [exact Hy|exact Hc|exact Hkc|exact Hput|by left|done..|]. intros q _ [= ->]. by destruct (Hch q).
    + destruct Hput as (_ & _ & ->). lia.
  - destruct (running_core _ _ _ _ _ _ Hy Hc) as (kc & Hkc & Hrc & Hlc). pose proof Hy as (H1 & H2 & H3 & H4). simpl in *.
    unfold sleep_resume in Hr.
    eapply (upd_at _ _ (λ k, Core (k_state k) (k_pid k) (k_parent k) None (k_killed k) (k_kstack k)) kc) in Hr
      as (C & I & N); [|done|by eapply lookup_lt_Some|by rewrite list_insert_id]. split; [|lia].
    eapply sys_puts; [exact Hy|split_and!; [exact C|exact I|exact N]|..].
    + eapply inv_keep; [exact H3|exact Hkc|done|exact Hlc|done|done|done|done|done].
    + eapply forks_insert; [done|exact Hkc|by apply live_not_embryo|by apply live_not_embryo|]. intros _. by left.
  - destruct (running_core _ _ _ _ _ _ Hy Hc) as (kc & Hkc & _). pose proof (yield_run _ _ _ _ _ Hkc Hr) as Hput. split.
    + eapply leave_inv; [exact Hy|exact Hc|exact Hkc|exact Hput|by right; left|done..].
    + destruct Hput as (_ & _ & ->). lia.
  - apply growproc_frame in Hr. split; [by eapply inv_frame|]. destruct Hr as (_ & _ & ->). lia.
  - split; [by eapply inv_frame|]. destruct Hr as (_ & _ & ->). lia.
  - split; [by eapply kill_inv|]. apply kill_run in Hr as [((_ & _ & ->) & _)|(i & k & _ & _ & _ & _ & _ & -> & _)]; lia.
  - unfold wakeup in Hr. rewrite wakeup1_run in Hr. injection Hr as <-. pose proof Hy as (H1 & H2 & H3 & H4). simpl in *.
    split; [|simpl; lia]. split_and!; simpl; [done|done|..]; unfold cores; simpl; rewrite pcore_wakeup1; [apply inv_map; [done|]; apply wake_cases|by apply forks_wake].
Qed.

Lemma steps_inv ini n y y' : sys_inv ini y → (ps_nextpid (y_state y) + Z.of_nat n < 2 ^ 32)%Z →
  nsteps step n y y' → sys_inv ini y'.
Proof.
  intros Hy Hb Hn. induction Hn as [y|n y1 y2 y3 Hst _ IH]; [done|].
  destruct (step_sys_inv ini y1 y2 Hy ltac:(lia) Hst) as [Hy2 Hnp]. apply IH; [done|lia].
Qed.

(** The state at boot, before [userinit]. *)
Definition boot_state (e : E) : pstate E := PState (replicate NPROC zero_proc) None 1 e.

Lemma unused_core e i k : cores (boot_state e) !! i = Some k → k = pcore zero_proc.
Proof.
  rewrite cores_lookup. change (ps_procs (boot_state e)) with (replicate NPROC zero_proc).
  destruct (replicate NPROC zero_proc !! i) as [p|] eqn:Hp; cbn [fmap option_fmap option_map]; intros [= <-].
  by apply lookup_replicate in Hp as [-> _].
Qed.

Lemma userinit_inv initcode e s' ncpu :
  userinit forkret initcode (boot_state e) = Done tt s' →
  ps_nextpid s' = 2%Z ∧ ∃ ini, sys_inv ini (Sys s' (replicate ncpu None) ∅).
Proof.
  unfold userinit. intros (r & s1 & Ha%allocproc_effect & Hrun)%bind_done.
  destruct Ha as [_ _|i k _ _ _ _ _ _|i k ks _ Hk Hst Hks C I N]; [discriminate Hrun..|].
  assert (Hlt := lookup_lt_Some _ _ _ Hk). apply unused_core in Hk as Hk0. subst k.
  apply bind_done in Hrun as ([] & s2 & [= <-] & (pg & s3 & H3%env_done & ([] & s4 & H4 & ([] & s5 & [_ ->]%assert_done & ([] & s6 & H6%env_done & ([] & s7 & H7 & ([] & s8 & H8 & (cwd & s9 & H9%env_done & ([] & s10 & H10 & H11)%bind_done)%bind_done)%bind_done)%bind_done)%bind_done)%bind_done)%bind_done)%bind_done).
  apply upd_frame in H4; [|done]. apply upd_frame in H7; [|done]. apply upd_frame in H8; [|done].
  apply upd_frame in H10; [|done].
  assert (F : frame (PState (ps_procs s1) (Some i) (ps_nextpid s1) (ps_env s1)) s10).
  { repeat (etrans; [eassumption|]). reflexivity. }
  destruct F as (C10 & I10 & N10). simpl in I10, N10.
  assert (C10' : cores s10 = <[i := Core EMBRYO 1 None None 0 ks]> (cores (boot_state e))) by (rewrite C10; exact C).
  eapply (upd_at _ _ (with_state RUNNABLE)) in H11 as (C11 & I11 & N11); [|done|exact Hlt|exact C10'].
  assert (Hnp : ps_nextpid s' = 2%Z) by (rewrite N11, N10, N; reflexivity).
  split; [done|]. exists i. split; [simpl; congruence|]. split; [simpl; lia|]. cbn [y_state y_cpus y_forks]. rewrite C11, Hnp. simpl.
  set (k' := with_state RUNNABLE (Core EMBRYO 1 None None 0 ks)).
  assert (Hup : ∀ j q, <[i := k']> (cores (boot_state e)) !! j = Some q →
    j = i ∧ q = k' ∨ j ≠ i ∧ q = pcore zero_proc).
  { intros j q. rewrite list_lookup_insert. case_decide as Hd; [destruct Hd as [-> _]; naive_solver|].
    intros Hq. right. split; [intros ->; naive_solver|by eapply unused_core]. }
  assert (Hno : ∀ c (j : nat), replicate ncpu None !! c = Some (Some j) → False).
  { intros c j Hc. by apply lookup_replicate in Hc as [? _]. }
  split; [|constructor; [intros j q [[-> ->]|[_ ->]]%Hup; done|intros *; by rewrite lookup_empty..]].
  constructor.
  - intros c j Hc. by apply Hno in Hc.
  - intros c c' j Hc. by apply Hno in Hc.
  - intros j q [[-> ->]|[_ ->]]%Hup; done.
  - exists k'. split; [by apply list_lookup_insert_eq|by right; left].
  - intros j q [[-> ->]|[_ ->]]%Hup; done.
  - intros j q [[-> ->]|[_ ->]]%Hup; done.
  - intros j q [[-> ->]|[_ ->]]%Hup; done.
  - intros j q p [[-> ->]|[_ ->]]%Hup; done.
  - intros a b qa qb [[-> ->]|[_ ->]]%Hup [[-> ->]|[_ ->]]%Hup; done.
  - intros j q [[-> ->]|[_ ->]]%Hup; simpl; [lia|done].
Qed.

(** [kill] matches unused slots. *)
Lemma kill_zero_marks_next_child cur s i k :
  cores s !! i = Some k → k_state k = UNUSED → k_pid k = 0%Z →
  (∀ j q, j < i → cores s !! j = Some q → k_state q ≠ UNUSED ∧ k_pid q ≠ 0%Z) →
  ∃ s1, kill 0 s = Done 0%Z s1 ∧
  ∀ pid s2, fork forkret cur s1 = Done pid s2 → pid ≠ (-1)%Z →
    ∃ kc, cores s2 !! i = Some kc ∧ k_pid kc = pid ∧ k_state kc = RUNNABLE ∧ k_killed kc = 1%Z.
Proof.
  intros Hi Hu Hp Hbefore. destruct (kill 0 s) as [r s1| | |] eqn:Hk.
  2-4: exfalso; clear -Hk; unfold kill, mbind, M_bind, mget in Hk; destruct (first_slot _ _); discriminate Hk.
  apply kill_run in Hk as [(_ & _ & Hno)|(j & q & Hj & Hq & -> & Hfirst & I & N & C)].
  { exfalso. by apply (Hno _ _ Hi). }
  change (u32 0) with 0%Z in Hq, Hfirst. assert (j = i) as ->.
  { destruct (decide (j < i)) as [Hlt|]; [by destruct (Hbefore _ _ Hlt Hj)|].
    destruct (decide (i < j)) as [Hlt|]; [by destruct (Hfirst _ _ Hlt Hi)|]. lia. }
  rewrite Hi in Hj. injection Hj as <-. rewrite Hu in C. rewrite decide_False in C by done.
  exists s1. split; [done|]. intros pid s2 Hf Hne. assert (Hlt := lookup_lt_Some _ _ _ Hi).
  assert (Hl1 : length (cores s1) = length (cores s)) by (rewrite C; apply length_insert).
  revert Hne. apply fork_run in Hf as [|j q _ _ _ _ _ _|j q ks Hfu Hq' Hqu Hks C2 _ _]; intros Hne; [done|done|].
  assert (j = i) as ->.
  { destruct (decide (j < i)) as [Hji|].
    - rewrite C, list_lookup_insert_ne in Hq' by lia. by destruct (Hbefore _ _ Hji Hq').
    - destruct (decide (i < j)) as [Hij|]; [|lia]. exfalso. eapply (Hfu i); [exact Hij|rewrite C; by apply list_lookup_insert_eq|done]. }
  rewrite C, list_lookup_insert_eq in Hq' by done. injection Hq' as <-.
  eexists. rewrite C2, list_lookup_insert_eq by (rewrite Hl1; done). split_and!; reflexivity.
Qed.

(** C21. The process table, for every number of CPUs and every interleaving of
    scheduling, system calls, preemption and interrupts after [userinit] (up
    to the wrap-around of pids), with the sections of [fork] and [exit]
    interleaved with the steps of other processes: every CPU's process is
    RUNNING, on that CPU only, and every RUNNING process has a CPU; pids are
    unique; every process but the first and those that [fork] has not finished
    has a live parent and a kernel stack; unused slots hold no kernel stack and
    no parent; and no wakeup is lost in [wait]: a process asleep in it has no
    child that has exited. Every EMBRYO is the slot of one fork in progress, of
    a live process, and holds what that fork has given it. A CPU's process that
    is preempted passes the checks of [sched] exactly when it holds no lock:
    with interrupts disabled by a lock, it panics. But [kill] matches unused
    slots, too: with pid 0 it reports success and marks the first free slot as
    killed; nothing clears the mark before the slot is used, so the next process
    that [fork] creates there is born killed. *)
Theorem proc_table_correct initcode e s0 ncpu n y :
  userinit forkret initcode (boot_state e) = Done tt s0 →
  nsteps step n (Sys s0 (replicate ncpu None) ∅) y → (Z.of_nat n < 2 ^ 32 - 2)%Z →
  (∃ ini, ps_initproc (y_state y) = Some ini ∧ table_inv (cores (y_state y)) ini (ps_nextpid (y_state y)) (y_cpus y)) ∧
  forks_inv (cores (y_state y)) (y_forks y) ∧
  (∀ c cur m b, y_cpus y !! c = Some (Some cur) →
    if decide (m = 0%Z) then ∃ s', yield (CpuState m b false) cur (y_state y) = Done tt s'
    else yield (CpuState m b false) cur (y_state y) = Panic "sched locks") ∧
  ∀ cur i k, cores (y_state y) !! i = Some k → k_state k = UNUSED → k_pid k = 0%Z →
    (∀ j q, j < i → cores (y_state y) !! j = Some q → k_state q ≠ UNUSED ∧ k_pid q ≠ 0%Z) →
    ∃ s1, kill 0 (y_state y) = Done 0%Z s1 ∧
    ∀ pid s2, fork forkret cur s1 = Done pid s2 → pid ≠ (-1)%Z →
      ∃ kc, cores s2 !! i = Some kc ∧ k_pid kc = pid ∧ k_state kc = RUNNABLE ∧ k_killed kc = 1%Z.
Proof.
  intros Hui Hn Hb. destruct (userinit_inv _ _ _ ncpu Hui) as (Hnp & ini & Hinv).
  assert (Hy : sys_inv ini y) by exact (steps_inv ini n _ _ Hinv ltac:(simpl; lia) Hn). destruct y as [s cpus fs].
  pose proof Hy as (Hini & _ & Ht & Hf). split_and!; [by exists ini|done| |intros cur i k; apply kill_zero_marks_next_child].
  intros c cur m b Hc. destruct (running_core _ _ _ _ _ _ Hy Hc) as (k & Hk & _). by eapply yield_checks.
Qed.

End system.

(** ** Witnesses *)

(** An environment in which every allocation succeeds; its state is the next
    free page. *)
#[export] Instance demo_proc_env : ProcEnv Z := {|
  pe_kalloc := λ e, Done e (e + 4096)%Z;
  pe_kfree _ := mret tt;
  pe_setupkvm := λ e, Done e (e + 4096)%Z;
  pe_inituvm _ _ _ := mret tt;
  pe_copyuvm _ _ := λ e, Done e (e + 4096)%Z;
  pe_freevm _ := mret tt;
  pe_allocuvm _ _ n := mret n;
  pe_deallocuvm _ _ n := mret n;
  pe_filedup f := mret f;
  pe_fileclose _ := mret tt;
  pe_idup i := mret i;
  pe_begin_op := mret tt;
  pe_iput _ := mret tt;
  pe_end_op := mret tt;
  pe_namei _ := mret (Some 0)
|}.

Definition demo_s0 : pstate Z :=
  match userinit 0x80103000 [0x90%Z] (boot_state 0x80200000%Z) with Done _ s => s | _ => boot_state 0%Z end.

#[global] Opaque demo_s0.

(** The first process runs, takes a slot for a child and is preempted; when it
    runs again it finishes the fork, and waits. *)
Definition demo_mid : pstate Z :=
  match (scheduler_next 0;; alloc_slot;; yield trap_cpu 0) demo_s0 with Done _ s => s | _ => demo_s0 end.
Definition demo_run : pstate Z :=
  match (scheduler_next 0;; alloc_stack 0x80103000 1;; fork_copy 0 1;; fork_ready 1;; wait_scan (CpuState 1 false true) 0) demo_mid with
  | Done _ s => s | _ => demo_s0 end.

#[global] Opaque demo_mid demo_run.

Lemma demo_userinit : userinit 0x80103000 [0x90%Z] (boot_state 0x80200000%Z) = Done tt demo_s0.
Proof. vm_compute. reflexivity. Qed.

(** A child is created and the first process waits for it; and [kill(0)] after
    boot: slot 1 is marked, and the first child is born killed. *)
Lemma proc_table_correct_witness :
  forks_inv (cores demo_mid) {[0 := (1, Taken)]} ∧ (p_state <$> take 3 (ps_procs demo_mid)) = [RUNNABLE; EMBRYO; UNUSED] ∧
  (∃ ini, ps_initproc demo_run = Some ini ∧ table_inv (cores demo_run) ini (ps_nextpid demo_run) [None] ∧
    (p_state <$> take 3 (ps_procs demo_run)) = [SLEEPING; RUNNABLE; UNUSED]) ∧
  ∃ s1 pid s2, kill 0 demo_s0 = Done 0%Z s1 ∧ fork 0x80103000 0 s1 = Done pid s2 ∧ pid = 2%Z ∧
    (p_killed <$> ps_procs s2 !! 1) = Some 1%Z.
Proof.
  set (s1 := match scheduler_next 0 demo_s0 with Done _ s => s | _ => demo_s0 end).
  set (s2 := match alloc_slot s1 with Done _ s => s | _ => demo_s0 end).
  assert (Hm : nsteps (step 0x80103000) 3 (Sys demo_s0 (replicate 1 None) ∅) (Sys demo_mid [None] {[0 := (1, Taken)]})).
  { eapply (nsteps_l _ _ _ (Sys s1 [Some 0] ∅)); [|eapply (nsteps_l _ _ _ (Sys s2 [Some 0] {[0 := (1, Taken)]})); [|apply nsteps_once]].
    - apply (st_schedule _ demo_s0 s1 [None] ∅ 0 0 0); vm_compute; reflexivity.
    - apply (st_fork_slot _ s1 s2 [Some 0] ∅ 0 0 (Some 1)); vm_compute; reflexivity.
    - apply (st_yield _ s2 demo_mid [Some 0] {[0 := (1, Taken)]} 0 trap_cpu 0); vm_compute; reflexivity. }
  set (s3 := match scheduler_next 0 demo_mid with Done _ s => s | _ => demo_s0 end).
  set (s4 := match alloc_stack 0x80103000 1 s3 with Done _ s => s | _ => demo_s0 end).
  set (s5 := match fork_copy 0 1 s4 with Done _ s => s | _ => demo_s0 end).
  set (s6 := match fork_ready 1 s5 with Done _ s => s | _ => demo_s0 end).
  set (f3 := {[0 := (1, Taken)]} : forks_t). set (f4 := <[0 := (1, Stacked)]> f3). set (f5 := <[0 := (1, Copied)]> f4). set (f6 := delete 0 f5).
  assert (Hr : nsteps (step 0x80103000) 5 (Sys demo_mid [None] f3) (Sys demo_run [None] f6)).
  { eapply (nsteps_l _ _ _ (Sys s3 [Some 0] f3)); [|eapply (nsteps_l _ _ _ (Sys s4 [Some 0] f4));
      [|eapply (nsteps_l _ _ _ (Sys s5 [Some 0] f5)); [|eapply (nsteps_l _ _ _ (Sys s6 [Some 0] f6)); [|apply nsteps_once]]]].
    - apply (st_schedule _ demo_mid s3 [None] f3 0 0 0); vm_compute; reflexivity.
    - apply (st_fork_stack _ s3 s4 [Some 0] f3 0 0 1 (Some 1)); vm_compute; reflexivity.
    - apply (st_fork_copy _ s4 s5 [Some 0] f4 0 0 1 true); vm_compute; reflexivity.
    - apply (st_fork_ready _ s5 s6 [Some 0] f5 0 0 1 2); vm_compute; reflexivity.
    - apply (st_wait _ s6 demo_run [Some 0] f6 0 (CpuState 1 false true) 0 None); vm_compute; reflexivity. }
  split.
  { by destruct (proc_table_correct 0x80103000 [0x90%Z] 0x80200000%Z demo_s0 1 3 _ demo_userinit Hm ltac:(lia)) as (_ & Hf & _). }
  split; [vm_compute; reflexivity|]. split.
  { destruct (proc_table_correct 0x80103000 [0x90%Z] 0x80200000%Z demo_s0 1 (3 + 5) _ demo_userinit (nsteps_trans _ _ _ _ _ Hm Hr) ltac:(lia)) as ((ini & Hini & Ht) & _).
    exists ini. split; [exact Hini|]. split; [exact Ht|vm_compute; reflexivity]. }
  destruct (proc_table_correct 0x80103000 [0x90%Z] 0x80200000%Z demo_s0 0 0 (Sys demo_s0 [] ∅) demo_userinit (nsteps_O _ _) ltac:(lia)) as (_ & _ & _ & Hkill).
  cbn [y_state] in Hkill. clear s3 s4 s5 s6 f4 f5 f6 Hr f3 Hm s2 s1.
  destruct (Hkill 0 1 (pcore zero_proc)) as (s1 & Hk & Hf); [vm_compute; reflexivity..| |].
  { intros j q Hj Hq. assert (j = 0) as -> by lia. vm_compute in Hq. injection Hq as <-. done. }
  assert (Hs1 : s1 = match kill 0 demo_s0 with Done _ s => s | _ => demo_s0 end) by (by rewrite Hk).
  destruct (fork 0x80103000 0 s1) as [pid s2| | |] eqn:Hfork;
    [|rewrite Hs1 in Hfork; vm_compute in Hfork; discriminate Hfork..].
  assert (Hpid : pid = 2%Z).
  { rewrite Hs1 in Hfork. vm_compute in Hfork. by injection Hfork as <- _. }
  exists s1, pid, s2. split_and!; [exact Hk|exact Hfork|exact Hpid|].
  destruct (Hf pid s2 eq_refl) as (kc & Hkc & _ & _ & Hkd); [rewrite Hpid; lia|].
  rewrite cores_lookup in Hkc. destruct (ps_procs s2 !! 1) as [p|]; [|discriminate Hkc].
  simpl in Hkc. injection Hkc as <-. simpl in *. by rewrite Hkd.
Defined.
