(* ===== verification/Pipe.v ===== *)
(** * Pipes (pipe.c)

    [pipewrite] and [piperead] hold the pipe's lock except while they sleep, so
    they are translated as the segments they run between sleeps. A segment
    ends with a result or goes to sleep, and may wake the processes that sleep
    on [nread] (readers) or [nwrite] (writers). *)

From S2P Require Import Prelude Params.

Definition PIPESIZE : Z := 512.

Record pipe := Pipe {
  pi_data : list Z;
  pi_nread : Z;         (* number of bytes read *)
  pi_nwrite : Z;        (* number of bytes written *)
  pi_readopen : Z;      (* read fd is still open *)
  pi_writeopen : Z      (* write fd is still open *)
}.

(** The state of a segment: the pipe, and whether readers and writers were woken. *)
Record pst := Pst { ps_pipe : pipe; ps_wake_r : bool; ps_wake_w : bool }.
Definition wake_readers : M pst unit := mmodify (λ s, Pst (ps_pipe s) true (ps_wake_w s)).
Definition wake_writers : M pst unit := mmodify (λ s, Pst (ps_pipe s) (ps_wake_r s) true).
Definition get_pipe : M pst pipe := λ s, Done (ps_pipe s) s.
Definition set_pipe (p : pipe) : M pst unit := mmodify (λ s, Pst p (ps_wake_r s) (ps_wake_w s)).

(** A pipe as [pipealloc] makes it; the data of the page is whatever it was. *)
Definition new_pipe (data : list Z) : pipe := Pipe data 0 0 1 1.

Definition put_byte (c : Z) (p : pipe) : pipe :=
  Pipe (<[Z.to_nat (pi_nwrite p `mod` PIPESIZE) := c]> (pi_data p)) (pi_nread p) (u32 (pi_nwrite p + 1))
    (pi_readopen p) (pi_writeopen p).
Definition get_byte (p : pipe) : Z * pipe :=
  (pi_data p !!! Z.to_nat (pi_nread p `mod` PIPESIZE),
   Pipe (pi_data p) (u32 (pi_nread p + 1)) (pi_nwrite p) (pi_readopen p) (pi_writeopen p)).

(** What a segment ends with: a result, or sleep with the bytes still to write. *)
Inductive wres := WRet (r : Z) | WSleep (rest : list Z).
Inductive rres := RRet (r : Z) (bytes : list Z) | RSleep.

Section pipe_code.
Variable killed : Z.           (* of the current process *)

(** [rest] are the bytes from [addr[i]] on, [n] the result. *)
Fixpoint pipewrite_seg (rest : list Z) (n : Z) : M pst wres :=
  match rest with
  | [] => wake_readers;; mret (WRet n)
  | c :: rest' =>
    p ← get_pipe;
    if decide (pi_nwrite p = u32 (pi_nread p + PIPESIZE)) then
      if decide (pi_readopen p = 0%Z ∨ killed ≠ 0%Z) then mret (WRet (-1))
      else wake_readers;; mret (WSleep rest)
    else set_pipe (put_byte c p);; pipewrite_seg rest' n
  end.

(** The call; it goes on with [pipewrite_seg] after each sleep. *)
Definition pipewrite (addr : list Z) (n : Z) : M pst wres := pipewrite_seg (take (Z.to_nat n) addr) n.

(** The copy loop of [piperead]: at most [n] bytes. *)
Fixpoint piperead_copy (n : nat) (bytes : list Z) : M pst (list Z) :=
  match n with
  | O => mret bytes
  | S n =>
    p ← get_pipe;
    if decide (pi_nread p = pi_nwrite p) then mret bytes
    else let '(c, p) := get_byte p in set_pipe p;; piperead_copy n (bytes ++ [c])
  end.

Definition piperead (n : Z) : M pst rres :=
  p ← get_pipe;
  if decide (pi_nread p = pi_nwrite p ∧ pi_writeopen p ≠ 0%Z) then
    if decide (killed ≠ 0%Z) then mret (RRet (-1) [])
    else mret RSleep
  else
    bytes ← piperead_copy (Z.to_nat n) [];
    wake_writers;;
    mret (RRet (Z.of_nat (length bytes)) bytes).

End pipe_code.

(** Close one end; whether both are closed now, and the page is freed. *)
Definition pipeclose (writable : Z) : M pst bool :=
  p ← get_pipe;
  (if decide (writable ≠ 0%Z) then
    set_pipe (Pipe (pi_data p) (pi_nread p) (pi_nwrite p) (pi_readopen p) 0);; wake_readers
  else
    set_pipe (Pipe (pi_data p) (pi_nread p) (pi_nwrite p) 0 (pi_writeopen p));; wake_writers);;
  p ← get_pipe;
  mret (bool_decide (pi_readopen p = 0%Z ∧ pi_writeopen p = 0%Z)).

(** ** The contents of a pipe *)

Definition PSn : nat := Z.to_nat PIPESIZE.
Lemma PSn_Z : Z.of_nat PSn = PIPESIZE.
Proof. reflexivity. Qed.
#[global] Opaque PSn.

Definition pi_len (p : pipe) : nat := Z.to_nat (u32 (pi_nwrite p - pi_nread p)).

(** The bytes written and not yet read, in order. *)
Definition contents (p : pipe) : list Z :=
  (λ j, pi_data p !!! Z.to_nat ((pi_nread p + Z.of_nat j) `mod` PIPESIZE)) <$> seq 0 (pi_len p).

Record pipe_ok (p : pipe) : Prop := {
  pi_dlen : length (pi_data p) = PSn;
  pi_r32 : is_u32 (pi_nread p);
  pi_w32 : is_u32 (pi_nwrite p);
  pi_bound : (u32 (pi_nwrite p - pi_nread p) ≤ PIPESIZE)%Z
}.

Lemma contents_length p : length (contents p) = pi_len p.
Proof. unfold contents. by rewrite length_fmap, length_seq. Qed.

Lemma contents_le p : pipe_ok p → length (contents p) ≤ PSn.
Proof.
  intros Hp. rewrite contents_length. pose proof (pi_bound _ Hp). pose proof PSn_Z. unfold pi_len. lia.
Qed.

Lemma len_empty p : pipe_ok p → pi_nread p = pi_nwrite p ↔ contents p = [].
Proof.
  intros [_ Hr Hw _]. rewrite <-length_zero_iff_nil, contents_length. unfold pi_len, is_u32, u32 in *. split.
  - intros ->. by rewrite Z.sub_diag.
  - intros Hz. pose proof (Z.mod_pos_bound (pi_nwrite p - pi_nread p) (2 ^ 32)).
    assert ((pi_nwrite p - pi_nread p) `mod` 2 ^ 32 = 0)%Z as Hm by lia.
    apply Z.mod_divide in Hm as [q Hq]; [|lia]. nia.
Qed.

Lemma len_full p : pipe_ok p → pi_nwrite p = u32 (pi_nread p + PIPESIZE) ↔ length (contents p) = PSn.
Proof.
  intros [_ Hr Hw Hb]. rewrite contents_length. pose proof PSn_Z as HP. unfold pi_len, is_u32, u32, PIPESIZE in *. split.
  - intros ->. rewrite Zminus_mod_idemp_l. replace (pi_nread p + 512 - pi_nread p)%Z with 512%Z by lia.
    rewrite Z.mod_small by lia. lia.
  - intros Hl. assert (Hm : ((pi_nwrite p - pi_nread p) `mod` 2 ^ 32 = 512)%Z) by lia.
    replace (pi_nread p + 512)%Z with (pi_nread p + (pi_nwrite p - pi_nread p) `mod` 2 ^ 32)%Z by lia.
    rewrite Z.add_mod_idemp_r by lia. replace (pi_nread p + (pi_nwrite p - pi_nread p))%Z with (pi_nwrite p) by lia.
    by rewrite Z.mod_small.
Qed.

Lemma u32_mod_pipe x j : ((u32 x + j) `mod` PIPESIZE = (x + j) `mod` PIPESIZE)%Z.
Proof.
  unfold u32, PIPESIZE. pose proof (Z.div_mod x (2 ^ 32) ltac:(lia)) as Hx.
  replace (x + j)%Z with (x `mod` 2 ^ 32 + j + (x / 2 ^ 32 * 2 ^ 23) * 512)%Z by lia.
  by rewrite Z_mod_plus_full.
Qed.

Lemma nwrite_len p : pipe_ok p → pi_nwrite p = u32 (pi_nread p + Z.of_nat (pi_len p)).
Proof.
  intros [_ Hr Hw _]. unfold pi_len, u32, is_u32 in *.
  rewrite Z2Nat.id by (by apply Z.mod_pos_bound). rewrite Z.add_mod_idemp_r by lia.
  replace (pi_nread p + (pi_nwrite p - pi_nread p))%Z with (pi_nwrite p) by lia. by rewrite Z.mod_small.
Qed.

Lemma len_put c p : pipe_ok p → length (contents p) ≠ PSn → pi_len (put_byte c p) = S (pi_len p).
Proof.
  intros Hp Hn. pose proof (nwrite_len p Hp) as Hw. rewrite contents_length in Hn. pose proof PSn_Z as HP.
  destruct Hp as [_ Hr _ Hb]. unfold pi_len at 1. simpl.
  assert (Hlen : pi_len p < PSn) by (unfold pi_len in *; lia).
  unfold u32, PIPESIZE in *. rewrite Hw. rewrite Zplus_mod_idemp_l, Zminus_mod_idemp_l.
  replace (pi_nread p + Z.of_nat (pi_len p) + 1 - pi_nread p)%Z with (Z.of_nat (S (pi_len p))) by lia.
  rewrite Z.mod_small by lia. by rewrite Nat2Z.id.
Qed.

Lemma put_ok c p : pipe_ok p → length (contents p) ≠ PSn → pipe_ok (put_byte c p).
Proof.
  intros Hp Hn. pose proof (len_put c p Hp Hn) as Hl. rewrite contents_length in Hn. pose proof PSn_Z as HP.
  destruct Hp as [Hd Hr Hw Hb]. constructor; simpl.
  - by rewrite length_insert.
  - done.
  - apply u32_range.
  - unfold pi_len in *. simpl in Hl. pose proof (u32_range (pi_nwrite p - pi_nread p)) as Hu.
    pose proof (u32_range (u32 (pi_nwrite p + 1) - pi_nread p)) as Hu'. unfold is_u32 in *. lia.
Qed.

Lemma contents_put c p : pipe_ok p → length (contents p) ≠ PSn → contents (put_byte c p) = contents p ++ [c].
Proof.
  intros Hp Hn. unfold contents. rewrite (len_put c p Hp Hn), seq_S, fmap_app. simpl.
  pose proof (nwrite_len p Hp) as Hw. pose proof PSn_Z as HP. rewrite contents_length in Hn.
  destruct Hp as [Hd Hr _ Hb]. assert (Hlen : pi_len p < PSn) by (unfold pi_len in *; lia).
  assert (Hidx : (pi_nwrite p `mod` PIPESIZE = (pi_nread p + Z.of_nat (pi_len p)) `mod` PIPESIZE)%Z).
  { rewrite Hw. rewrite <-(Z.add_0_r (u32 _)), u32_mod_pipe. by rewrite Z.add_0_r. }
  unfold PIPESIZE in *. pose proof (Z.mod_pos_bound (pi_nread p + Z.of_nat (pi_len p)) 512).
  f_equal; [|f_equal].
  - apply list_fmap_ext. intros i j [-> Hi]%lookup_seq. simpl. rewrite Hidx.
    rewrite list_lookup_total_insert_ne; [done|]. intros He.
    pose proof (Z.mod_pos_bound (pi_nread p + Z.of_nat i) 512) as Hm.
    assert (((pi_nread p + Z.of_nat (pi_len p)) `mod` 512 = (pi_nread p + Z.of_nat i) `mod` 512)%Z) as He2 by lia.
    rewrite (Z.div_mod (pi_nread p + Z.of_nat (pi_len p)) 512), (Z.div_mod (pi_nread p + Z.of_nat i) 512) in * by lia.
    clear He. Z.to_euclidean_division_equations. lia.
  - rewrite Hidx. apply list_lookup_total_insert_eq. lia.
Qed.

Lemma contents_get p c p' : pipe_ok p → contents p ≠ [] → get_byte p = (c, p') →
  contents p = c :: contents p' ∧ pipe_ok p'.
Proof.
  intros Hp Hne. pose proof (nwrite_len p Hp) as Hw. assert (Hlen : pi_len p ≠ 0).
  { intros Hz. apply Hne. unfold contents. by rewrite Hz. }
  destruct Hp as [Hd Hr Hw32 Hb]. unfold get_byte. intros [= <- <-].
  set (p' := Pipe (pi_data p) (u32 (pi_nread p + 1)) (pi_nwrite p) (pi_readopen p) (pi_writeopen p)).
  assert (Hu : (u32 (pi_nwrite p - u32 (pi_nread p + 1)) = u32 (pi_nwrite p - pi_nread p) - 1)%Z).
  { pose proof (u32_range (pi_nwrite p - pi_nread p)). unfold pi_len, is_u32 in *.
    unfold u32 at 1 2. rewrite Zminus_mod_idemp_r.
    replace (pi_nwrite p - (pi_nread p + 1))%Z with (pi_nwrite p - pi_nread p - 1)%Z by lia.
    rewrite <-(Zminus_mod_idemp_l (pi_nwrite p - pi_nread p)). fold (u32 (pi_nwrite p - pi_nread p)).
    rewrite Z.mod_small by lia. done. }
  assert (Hl' : pi_len p = S (pi_len p')).
  { unfold pi_len in *. simpl. rewrite Hu. lia. }
  split.
  - unfold contents. rewrite Hl'. simpl. rewrite Z.add_0_r. f_equal.
    rewrite <-fmap_S_seq, <-list_fmap_compose. apply list_fmap_ext. intros i j _. simpl.
    rewrite u32_mod_pipe. do 3 f_equal. lia.
  - constructor; simpl; [done|apply u32_range|done|rewrite Hu; lia].
Qed.

(** ** The segments *)

Definition same_ends (p p' : pipe) : Prop :=
  pi_readopen p' = pi_readopen p ∧ pi_writeopen p' = pi_writeopen p.

(** How a write segment ends, with [left] bytes not written. *)
Definition write_end (killed n : Z) (left : list Z) (s s' : pst) (r : wres) : Prop :=
  match r with
  | WRet r =>
    left = [] ∧ r = n ∧ ps_wake_r s' = true ∨
    left ≠ [] ∧ r = (-1)%Z ∧ length (contents (ps_pipe s')) = PSn ∧
      (pi_readopen (ps_pipe s) = 0%Z ∨ killed ≠ 0%Z) ∧ ps_wake_r s' = ps_wake_r s
  | WSleep rest => rest = left ∧ left ≠ [] ∧ length (contents (ps_pipe s')) = PSn ∧
      pi_readopen (ps_pipe s) ≠ 0%Z ∧ killed = 0%Z ∧ ps_wake_r s' = true
  end.

Lemma pipewrite_seg_spec killed rest n s :
  pipe_ok (ps_pipe s) →
  wp (pipewrite_seg killed rest n) (λ r s', ∃ done left,
    rest = done ++ left ∧ pipe_ok (ps_pipe s') ∧ contents (ps_pipe s') = contents (ps_pipe s) ++ done ∧
    pi_nread (ps_pipe s') = pi_nread (ps_pipe s) ∧ same_ends (ps_pipe s) (ps_pipe s') ∧ ps_wake_w s' = ps_wake_w s ∧ write_end killed n left s s' r) s.
Proof.
  revert s. induction rest as [|c rest IH]; intros s Hp; cbn [pipewrite_seg].
  { exists [], []. rewrite !app_nil_r. split_and!; try done. left. done. }
  eapply wp_bind, wp_done; [reflexivity|]. destruct (decide (_ = u32 _)) as [Hf|Hf].
  - apply (len_full _ Hp) in Hf. destruct (decide (pi_readopen (ps_pipe s) = 0%Z ∨ killed ≠ 0%Z)) as [Hk|Hk].
    + apply wp_ret. exists [], (c :: rest). rewrite app_nil_r. split_and!; try done. right. by split_and!.
    + apply wp_ret. exists [], (c :: rest). rewrite app_nil_r. split_and!; try done. simpl.
      apply Decidable.not_or in Hk as [Hro Hkd]. apply dec_stable in Hkd. by split_and!.
  - assert (Hn : length (contents (ps_pipe s)) ≠ PSn) by (intros H'; by apply Hf, len_full).
    eapply wp_bind, wp_done; [reflexivity|].
    eapply wp_mono; [apply IH; by apply put_ok|]. simpl.
    intros r s' (dn & left & -> & Hok & Hc & Hnr & He & Hw & Hend). exists (c :: dn), left.
    rewrite contents_put in Hc by done. rewrite <-app_assoc in Hc. split_and!; try done.
Qed.

Lemma piperead_copy_spec n bs s : pipe_ok (ps_pipe s) →
  wp (piperead_copy n bs) (λ r s', ∃ new, r = bs ++ new ∧ contents (ps_pipe s) = new ++ contents (ps_pipe s') ∧
    length new = Nat.min n (length (contents (ps_pipe s))) ∧ pipe_ok (ps_pipe s') ∧
    same_ends (ps_pipe s) (ps_pipe s') ∧ ps_wake_r s' = ps_wake_r s ∧ ps_wake_w s' = ps_wake_w s) s.
Proof.
  revert bs s. induction n as [|n IH]; intros bs s Hp; cbn [piperead_copy].
  { exists []. rewrite app_nil_r. by split_and!. }
  eapply wp_bind, wp_done; [reflexivity|]. destruct (decide (pi_nread _ = _)) as [He|He].
  { apply (len_empty _ Hp) in He. apply wp_ret. exists []. rewrite app_nil_r, He. split_and!; done. }
  destruct (get_byte (ps_pipe s)) as [c p'] eqn:Hg.
  destruct (contents_get _ _ _ Hp ltac:(intros H'; by apply He, len_empty) Hg) as [Hc Hp'].
  eapply wp_bind, wp_done; [reflexivity|]. eapply wp_mono; [by apply IH|]. simpl.
  intros r s' (new & -> & Hc' & Hl & Hok & Hsame & Hr & Hw). exists (c :: new). rewrite <-app_assoc, Hc, Hc'.
  split_and!; try done.
  - simpl in *. rewrite Hl, Hc'. done.
  - destruct Hsame as [? ?]. unfold get_byte in Hg. injection Hg as <- <-. done.
Qed.

Lemma piperead_spec killed n s : pipe_ok (ps_pipe s) →
  wp (piperead killed n) (λ r s',
    match r with
    | RSleep => s' = s ∧ contents (ps_pipe s) = [] ∧ pi_writeopen (ps_pipe s) ≠ 0%Z ∧ killed = 0%Z
    | RRet k bytes =>
      k = (-1)%Z ∧ bytes = [] ∧ s' = s ∧ killed ≠ 0%Z ∧ contents (ps_pipe s) = [] ∧
        pi_writeopen (ps_pipe s) ≠ 0%Z ∨
      k = Z.of_nat (length bytes) ∧ length bytes = Nat.min (Z.to_nat n) (length (contents (ps_pipe s))) ∧
        contents (ps_pipe s) = bytes ++ contents (ps_pipe s') ∧ pipe_ok (ps_pipe s') ∧
        same_ends (ps_pipe s) (ps_pipe s') ∧ ps_wake_r s' = ps_wake_r s ∧ ps_wake_w s' = true ∧
        (contents (ps_pipe s) ≠ [] ∨ pi_writeopen (ps_pipe s) = 0%Z)
    end) s.
Proof.
  intros Hp. unfold piperead. eapply wp_bind, wp_done; [reflexivity|].
  pose proof (len_empty _ Hp) as He. destruct (decide (_ ∧ _)) as [[Hr Hw]|Hno].
  - apply He in Hr. case_decide as Hk; apply wp_ret; [left; by split_and!|].
    by split_and!.
  - apply wp_bind. eapply wp_mono; [by apply piperead_copy_spec|]. simpl.
    intros bs s' (new & -> & Hc & Hl & Hok & Hs & Hwr & Hww). right.
    split_and!; try done. destruct (decide (pi_nread (ps_pipe s) = pi_nwrite (ps_pipe s))) as [Hr|Hr].
    + right. destruct (decide (pi_writeopen (ps_pipe s) = 0%Z)); naive_solver.
    + left. intros H'. by apply Hr, He.
Qed.

(** The bytes of the writer's buffer that a segment has put into the pipe, as
    many as [nwrite] has advanced. *)
Definition accepted (p p' : pipe) (bytes : list Z) : list Z := take (Z.to_nat (u32 (pi_nwrite p' - pi_nwrite p))) bytes.

Lemma accepted_done p p' dn left : pipe_ok p → pipe_ok p' → pi_nread p' = pi_nread p → contents p' = contents p ++ dn →
  accepted p p' (dn ++ left) = dn.
Proof.
  intros Hp Hp' Hr Hc. assert (Hl : pi_len p' = pi_len p + length dn) by (rewrite <-!contents_length, Hc; apply length_app).
  pose proof (contents_le _ Hp') as Hb. rewrite contents_length in Hb. pose proof PSn_Z as HP. unfold PIPESIZE in HP.
  unfold accepted. rewrite (nwrite_len p' Hp'), (nwrite_len p Hp), Hr. unfold u32. rewrite Zminus_mod_idemp_l, Zminus_mod_idemp_r.
  replace (_ + Z.of_nat (pi_len p') - _)%Z with (Z.of_nat (length dn)) by lia. rewrite Z.mod_small by lia. by rewrite Nat2Z.id, take_app_length.
Qed.

(** How the segment that writes [bytes] ends: everything is written and readers
    are woken; or the pipe is full, and the writer fails because there is no
    reader or it was killed, or sleeps, to go on with the rest. *)
Definition written (killed n : Z) (bytes : list Z) (s : pst) (r : wres) (s' : pst) : Prop :=
  let new := accepted (ps_pipe s) (ps_pipe s') bytes in
  pipe_ok (ps_pipe s') ∧ contents (ps_pipe s') = contents (ps_pipe s) ++ new ∧ same_ends (ps_pipe s) (ps_pipe s') ∧ ps_wake_w s' = ps_wake_w s ∧
  write_end killed n (drop (length new) bytes) s s' r.

Lemma written_seg killed n bytes s : pipe_ok (ps_pipe s) → wp (pipewrite_seg killed bytes n) (written killed n bytes s) s.
Proof.
  intros Hp. eapply wp_mono; [by apply pipewrite_seg_spec|]. intros r s' (dn & left & -> & Hok & Hc & Hnr & He & Hw & Hend).
  unfold written. rewrite (accepted_done _ _ _ _ Hp Hok Hnr Hc), drop_app_length. by split_and!.
Qed.

Lemma piperead_takes killed n s : pipe_ok (ps_pipe s) → wp (piperead killed n) (λ r s',
  match r with
  | RSleep => contents (ps_pipe s) = [] ∧ pi_writeopen (ps_pipe s) ≠ 0%Z ∧ killed = 0%Z ∧ s' = s
  | RRet k bytes =>
    k = (-1)%Z ∧ bytes = [] ∧ s' = s ∧ killed ≠ 0%Z ∧ contents (ps_pipe s) = [] ∧ pi_writeopen (ps_pipe s) ≠ 0%Z ∨
    k = Z.of_nat (length bytes) ∧ bytes = take (Z.to_nat n) (contents (ps_pipe s)) ∧
      contents (ps_pipe s') = drop (Z.to_nat n) (contents (ps_pipe s)) ∧ ps_wake_w s' = true
  end) s.
Proof.
  intros Hp. eapply wp_mono; [by apply piperead_spec|]. intros [k bs|] s'; [|intros (-> & ? & ? & ?); by split_and!].
  intros [Hf|(-> & Hl & Hc & _ & _ & _ & Hw & _)]; [left; exact Hf|right]. rewrite Hc in Hl |- *. split; [done|].
  rewrite length_app in Hl. destruct (decide (Z.to_nat n ≤ length bs)) as [Hle|Hgt].
  - assert (length bs = Z.to_nat n) as <- by lia. by rewrite take_app_length, drop_app_length.
  - assert (contents (ps_pipe s') = []) as -> by (apply nil_length_inv; lia). rewrite app_nil_r, take_ge, drop_ge by lia. done.
Qed.

(** ** A pipe and its processes *)

(** A writer in [pipewrite]: asleep, or woken and about to go on with [w_rest]. *)
Record writer := Writer { w_asleep : bool; w_rest : list Z; w_n : Z }.

(** [y_rd] counts the processes asleep in [piperead], [y_wr] are those in
    [pipewrite]; [y_in] are the bytes that writers have passed on from their
    buffers, [y_out] those that readers have got. *)
Record psys := Psys { y_pipe : pipe; y_rd : nat; y_wr : list writer; y_in : list Z; y_out : list Z }.

Definition start (p : pipe) : pst := Pst p false false.
Definition woken (b : bool) (n : nat) : nat := if b then 0 else n.
Definition woken_wr (b : bool) (l : list writer) : list writer :=
  if b then (λ w, Writer false (w_rest w) (w_n w)) <$> l else l.
Definition goes_on (r : wres) (n : Z) : list writer := match r with WSleep rest => [Writer true rest n] | WRet _ => [] end.

(** A call of [pipewrite], or a segment of one that was asleep; a segment of
    [piperead]; or a close of the last descriptor of an end. Only a process that
    has the end open reads or writes, and a process in the pipe still has its
    descriptor open. [ok killed] restricts the processes. *)
Inductive pipe_step (ok : Z → Prop) : psys → psys → Prop :=
| ps_write y killed addr n r s' : ok killed → pi_writeopen (y_pipe y) ≠ 0%Z →
    pipewrite killed addr n (start (y_pipe y)) = Done r s' →
    pipe_step ok y (Psys (ps_pipe s') (woken (ps_wake_r s') (y_rd y)) (woken_wr (ps_wake_w s') (y_wr y) ++ goes_on r n)
      (y_in y ++ accepted (y_pipe y) (ps_pipe s') (take (Z.to_nat n) addr)) (y_out y))
| ps_resume y i w killed r s' : ok killed → pi_writeopen (y_pipe y) ≠ 0%Z → y_wr y !! i = Some w → w_asleep w = false →
    pipewrite_seg killed (w_rest w) (w_n w) (start (y_pipe y)) = Done r s' →
    pipe_step ok y (Psys (ps_pipe s') (woken (ps_wake_r s') (y_rd y)) (woken_wr (ps_wake_w s') (delete i (y_wr y)) ++ goes_on r (w_n w))
      (y_in y ++ accepted (y_pipe y) (ps_pipe s') (w_rest w)) (y_out y))
| ps_read y killed n r s' : ok killed → pi_readopen (y_pipe y) ≠ 0%Z →
    piperead killed n (start (y_pipe y)) = Done r s' →
    pipe_step ok y (Psys (ps_pipe s')
      (woken (ps_wake_r s') (y_rd y) + match r with RSleep => 1 | _ => 0 end)
      (woken_wr (ps_wake_w s') (y_wr y)) (y_in y) (y_out y ++ match r with RRet _ bs => bs | RSleep => [] end))
| ps_close y writable r s' : (if decide (writable = 0%Z) then y_rd y = 0 else y_wr y = []) →
    pipeclose writable (start (y_pipe y)) = Done r s' →
    pipe_step ok y (Psys (ps_pipe s') (woken (ps_wake_r s') (y_rd y)) (woken_wr (ps_wake_w s') (y_wr y))
      (y_in y) (y_out y)).

Definition fifo_inv (y : psys) : Prop :=
  pipe_ok (y_pipe y) ∧ y_in y = y_out y ++ contents (y_pipe y).
(** Readers sleep on an empty pipe that can still be written, writers on a
    full one that can still be read. *)
Definition sleep_inv (y : psys) : Prop :=
  (y_rd y ≠ 0 → contents (y_pipe y) = [] ∧ pi_writeopen (y_pipe y) ≠ 0%Z ∧ pi_readopen (y_pipe y) ≠ 0%Z) ∧
  (∀ w, w ∈ y_wr y → w_asleep w = true → length (contents (y_pipe y)) = PSn ∧ pi_readopen (y_pipe y) ≠ 0%Z).

Lemma woken_asleep b l w : w ∈ woken_wr b l → w_asleep w = true → b = false ∧ w ∈ l.
Proof. destruct b; simpl; [|done]. by intros (w' & -> & _)%list_elem_of_fmap. Qed.

Lemma pipeclose_run writable s r s' : pipe_ok (ps_pipe s) → pipeclose writable s = Done r s' →
  pipe_ok (ps_pipe s') ∧ contents (ps_pipe s') = contents (ps_pipe s) ∧
  if decide (writable = 0%Z) then ps_wake_w s' = true ∧ ps_wake_r s' = ps_wake_r s ∧
      pi_writeopen (ps_pipe s') = pi_writeopen (ps_pipe s)
  else ps_wake_r s' = true ∧ ps_wake_w s' = ps_wake_w s ∧ pi_readopen (ps_pipe s') = pi_readopen (ps_pipe s).
Proof.
  intros [H1 H2 H3 H4]. unfold pipeclose, mbind, M_bind, get_pipe, set_pipe, wake_readers, wake_writers, mmodify.
  simpl. destruct (decide (writable = 0%Z)) as [->|Hw].
  - rewrite decide_False by (intros Hn; by apply Hn). simpl. intros [= <- <-]. simpl. by split_and!.
  - rewrite decide_True by done. simpl. intros [= <- <-]. simpl. by split_and!.
Qed.

Lemma seg_fifo y killed n bytes r s' l : fifo_inv y → pipewrite_seg killed bytes n (start (y_pipe y)) = Done r s' →
  fifo_inv (Psys (ps_pipe s') (woken (ps_wake_r s') (y_rd y)) l (y_in y ++ accepted (y_pipe y) (ps_pipe s') bytes) (y_out y)).
Proof.
  intros [Hok Hin] Hr. pose proof (written_seg killed n bytes (start (y_pipe y)) Hok) as Hwp. unfold wp in Hwp. rewrite Hr in Hwp.
  destruct Hwp as (Hok' & Hc & _). simpl in Hc. split; [done|]. simpl. by rewrite Hc, Hin, app_assoc.
Qed.

Lemma step_fifo ok y y' : fifo_inv y → pipe_step ok y y' → fifo_inv y'.
Proof.
  intros Hf Hst. pose proof Hf as [Hok Hin].
  destruct Hst as [y killed addr n r s' _ _ Hr|y i w killed r s' _ _ _ _ Hr|y killed n r s' _ _ Hr|y w r s' _ Hr].
  - by eapply seg_fifo.
  - by eapply seg_fifo.
  - pose proof (piperead_spec killed n (start (y_pipe y)) Hok) as Hwp. unfold wp in Hwp. rewrite Hr in Hwp.
    destruct r as [k bs|]; [destruct Hwp as [(_ & -> & -> & _)|(_ & _ & Hc & Hok' & _)]|destruct Hwp as (-> & _)];
      (split; [done|]); simpl in *; rewrite ?app_nil_r; [done| |done]. by rewrite Hin, Hc, app_assoc.
  - destruct (pipeclose_run _ (start (y_pipe y)) _ _ Hok Hr) as (Hok' & Hc & _). split; [done|]. simpl in *. by rewrite Hc.
Qed.

(** A write segment of a process that is not killed; [l] are writers that were there. *)
Lemma seg_sleep y n bytes r s' l inp out : fifo_inv y → sleep_inv y → pipewrite_seg 0 bytes n (start (y_pipe y)) = Done r s' →
  (∀ w, w ∈ l → w ∈ y_wr y) →
  sleep_inv (Psys (ps_pipe s') (woken (ps_wake_r s') (y_rd y)) (woken_wr (ps_wake_w s') l ++ goes_on r n) inp out).
Proof.
  intros [Hok _] [Hrd Hwr] Hr Hl. pose proof (written_seg 0 n bytes (start (y_pipe y)) Hok) as Hwp. unfold wp in Hwp. rewrite Hr in Hwp.
  destruct Hwp as (Hok' & Hc & [Hro Hwo] & Hww & Hend). simpl in *. rewrite Hww. simpl.
  assert (Hsame : length (contents (y_pipe y)) = PSn → length (contents (ps_pipe s')) = PSn).
  { intros Hfull. pose proof (contents_le _ Hok') as Hb. rewrite Hc, length_app in *. lia. }
  assert (Hold : ∀ w, w ∈ l → w_asleep w = true → length (contents (ps_pipe s')) = PSn ∧ pi_readopen (ps_pipe s') ≠ 0%Z).
  { intros w Hw Ha. rewrite Hro. destruct (Hwr w (Hl _ Hw) Ha). split; [by apply Hsame|done]. }
  unfold sleep_inv. simpl. destruct r as [r|rest']; simpl.
  - rewrite app_nil_r. split; [|exact Hold]. destruct Hend as [(_ & _ & ->)|(_ & _ & Hf & [Hro'|] & ->)]; simpl; [done| |done].
    intros Hn. destruct (Hrd Hn) as (_ & _ & ?). done.
  - destruct Hend as (-> & _ & Hf & Hro' & _ & ->). simpl. split; [done|]. intros w [Hw|_]%elem_of_app; [by apply Hold|]. by rewrite Hro.
Qed.

Lemma step_sleep y y' : fifo_inv y → sleep_inv y → pipe_step (λ k, k = 0%Z) y y' → sleep_inv y'.
Proof.
  intros Hf Hs Hst. pose proof Hf as [Hok _]. pose proof Hs as [Hrd Hwr].
  destruct Hst as [y killed addr n r s' -> Hopen Hr|y i w killed r s' -> Hopen Hi Ha Hr|y killed n r s' -> Hopen Hr|y w r s' Hg Hr].
  - by eapply seg_sleep.
  - eapply seg_sleep; [done..|]. intros v Hv. eapply elem_of_submseteq; [done|]. by apply sublist_submseteq, sublist_delete.
  - pose proof (piperead_spec 0 n (start (y_pipe y)) Hok) as Hwp. unfold wp in Hwp. rewrite Hr in Hwp.
    unfold sleep_inv. destruct r as [k bs|]; simpl.
    + destruct Hwp as [(_ & _ & _ & ? & _)|(_ & _ & Hc & _ & [Hro Hwo] & -> & -> & Hcase)]; [done|]. simpl in *.
      split; [|by intros w (w' & -> & _)%list_elem_of_fmap]. rewrite Nat.add_0_r. intros Hn. destruct (Hrd Hn) as (Hcy & Hw & Hro').
      rewrite Hro, Hwo. split_and!; [|done|done]. rewrite Hcy in Hc. by destruct bs.
    + destruct Hwp as (-> & Hc & Hw & _). simpl in *. by split.
  - destruct (pipeclose_run _ (start (y_pipe y)) _ _ Hok Hr) as (_ & Hc & Hcl). unfold sleep_inv. simpl in *. rewrite Hc.
    destruct (decide (w = 0%Z)).
    + destruct Hcl as (-> & -> & _). simpl. rewrite Hg. split; [done|]. by intros v (v' & -> & _)%list_elem_of_fmap.
    + destruct Hcl as (-> & -> & Hro). simpl. rewrite Hg. split; [done|]. by intros v ?%elem_of_nil.
Qed.

Definition boot_pipe (data : list Z) : psys := Psys (new_pipe data) 0 [] [] [].

Lemma boot_pipe_inv data : length data = PSn → fifo_inv (boot_pipe data) ∧ sleep_inv (boot_pipe data).
Proof. intros Hd. split; [|split; [done|by intros w ?%elem_of_nil]]. split; [|done]. constructor; simpl; [done|done|done|vm_compute; discriminate]. Qed.

Lemma pipe_fifo data y : length data = PSn → rtc (pipe_step (λ _, True)) (boot_pipe data) y →
  pipe_ok (y_pipe y) ∧ y_in y = y_out y ++ contents (y_pipe y) ∧ (Z.of_nat (length (contents (y_pipe y))) ≤ PIPESIZE)%Z.
Proof.
  intros Hd Hst. assert (Hf : fifo_inv y).
  { apply boot_pipe_inv in Hd as [Hf _]. revert Hf. induction Hst; [done|]. intros. by eapply IHHst, step_fifo. }
  destruct Hf as [Hok Hin]. split_and!; [done|done|]. rewrite <-PSn_Z. apply contents_le in Hok. lia.
Qed.

(** A killed writer does not wake the readers. *)
Lemma pipe_killed_writer_no_wakeup p killed bytes n :
  pipe_ok p → contents p = [] → killed ≠ 0%Z → PSn < length bytes →
  ∃ p', pipewrite_seg killed bytes n (start p) = Done (WRet (-1)) (start p') ∧
    length (contents p') = PSn.
Proof.
  intros Hp Hc Hk Hl. pose proof (pipewrite_seg_spec killed bytes n (start p) Hp) as Hwp.
  apply wp_inv in Hwp as (r & s' & Hrun & dn & left & -> & Hok' & Hc' & _ & _ & Hw & Hend). simpl in *.
  assert (Hb : length dn ≤ PSn).
  { rewrite Hc in Hc'. simpl in Hc'. rewrite <-Hc'. by apply contents_le. }
  rewrite length_app in Hl. destruct r as [r|rest]; [|by destruct Hend as (_ & _ & _ & _ & ? & _)].
  destruct Hend as [(-> & _)|(_ & -> & Hf & _ & Hr)]; [simpl in Hl; lia|].
  exists (ps_pipe s'). split; [|done]. rewrite Hrun. destruct s' as [p' wr ww]. simpl in *. by subst.
Qed.

Lemma pipe_wakeups data y : length data = PSn → rtc (pipe_step (λ k, k = 0%Z)) (boot_pipe data) y → fifo_inv y ∧ sleep_inv y.
Proof.
  intros Hd Hst. apply boot_pipe_inv in Hd as [Hf Hs]. revert Hf Hs. induction Hst as [|x y z Hxy _ IH]; [done|]. intros Hf Hs.
  apply IH; [by eapply step_fifo|by eapply step_sleep].
Qed.

(** C22. A pipe is a FIFO of at most [PIPESIZE] bytes: for every interleaving
    of reads and writes of any number of processes, killed or not, also when
    the 32-bit counters wrap around, the bytes that readers have got are a prefix
    of those that writers have passed on from their buffers, and the rest is in
    the pipe. A call of [pipewrite], and each segment of one that slept, passes
    on the next bytes of its buffer until all are written, then wakes the
    readers and returns [n]; or until the pipe is full, when it sleeps and goes
    on with the rest, or returns -1 if the pipe has no reader or the process is
    killed. [piperead] delivers what is there, at most [n] bytes, or sleeps on an
    empty pipe with a writer. No wakeup is lost in a pipe whose processes are not
    killed: a process sleeps in [piperead] only while the pipe is empty and has a
    writer, and in [pipewrite] only while the pipe is full and has a reader. A
    killed writer loses the readers' wakeup: a write of more than [PIPESIZE]
    bytes to an empty pipe by a killed process fills the pipe and returns -1
    without waking the processes that sleep in [piperead]. *)
Theorem pipe_correct data y : length data = PSn →
  (rtc (pipe_step (λ _, True)) (boot_pipe data) y →
    y_in y = y_out y ++ contents (y_pipe y) ∧ (Z.of_nat (length (contents (y_pipe y))) ≤ PIPESIZE)%Z ∧
    (∀ killed addr n, wp (pipewrite killed addr n) (written killed n (take (Z.to_nat n) addr) (start (y_pipe y))) (start (y_pipe y))) ∧
    (∀ killed rest n, wp (pipewrite_seg killed rest n) (written killed n rest (start (y_pipe y))) (start (y_pipe y))) ∧
    (∀ killed n, wp (piperead killed n) (λ r s',
      match r with
      | RSleep => contents (y_pipe y) = [] ∧ pi_writeopen (y_pipe y) ≠ 0%Z ∧ killed = 0%Z ∧ s' = start (y_pipe y)
      | RRet k bytes =>
        k = (-1)%Z ∧ bytes = [] ∧ s' = start (y_pipe y) ∧ killed ≠ 0%Z ∧ contents (y_pipe y) = [] ∧ pi_writeopen (y_pipe y) ≠ 0%Z ∨
        k = Z.of_nat (length bytes) ∧ bytes = take (Z.to_nat n) (contents (y_pipe y)) ∧
          contents (ps_pipe s') = drop (Z.to_nat n) (contents (y_pipe y)) ∧ ps_wake_w s' = true
      end) (start (y_pipe y)))) ∧
  (rtc (pipe_step (λ k, k = 0%Z)) (boot_pipe data) y →
    (y_rd y ≠ 0 → contents (y_pipe y) = [] ∧ pi_writeopen (y_pipe y) ≠ 0%Z) ∧
    (∀ w, w ∈ y_wr y → w_asleep w = true → length (contents (y_pipe y)) = PSn ∧ pi_readopen (y_pipe y) ≠ 0%Z) ∧
    (∀ killed bytes n, contents (y_pipe y) = [] → killed ≠ 0%Z → PSn < length bytes →
      ∃ p', pipewrite_seg killed bytes n (start (y_pipe y)) = Done (WRet (-1)) (start p') ∧ length (contents p') = PSn)).
Proof.
  intros Hd. split.
  - intros Hst. destruct (pipe_fifo data y Hd Hst) as (Hok & Hin & Hb). split_and!; [done|done|intros; by apply written_seg..|].
    intros killed n. by apply piperead_takes.
  - intros Hst. destruct (pipe_wakeups data y Hd Hst) as [[Hok _] [Hr Hw]]. split_and!; [|done|].
    + intros Hn. by destruct (Hr Hn) as (? & ? & _).
    + intros. by apply pipe_killed_writer_no_wakeup.
Qed.

(** ** Witnesses *)

Definition demo_pdata : list Z := replicate 512 7%Z.

(** A reader sleeps; a write of 513 bytes wakes it and sleeps; it reads two
    bytes, and the writer goes on with the last one. *)
Definition demo_bytes : list Z := [1; 2]%Z ++ replicate 510 5%Z ++ [3%Z].
Definition after (r : outcome pst wres) : pst := match r with Done _ s => s | _ => start (new_pipe []) end.
Definition after_read (r : outcome pst rres) : pst := match r with Done _ s => s | _ => start (new_pipe []) end.
Definition demo_pipe1 : psys := Psys (new_pipe demo_pdata) 1 [] [] [].
Definition demo_pipe2 : psys :=
  Psys (ps_pipe (after (pipewrite 0 demo_bytes 513 (start (new_pipe demo_pdata))))) 0 [Writer true [3]%Z 513] ([1; 2]%Z ++ replicate 510 5%Z) [].
Definition demo_pipe3 : psys :=
  Psys (ps_pipe (after_read (piperead 0 2 (start (y_pipe demo_pipe2))))) 0 [Writer false [3]%Z 513] (y_in demo_pipe2) [1; 2]%Z.
Definition demo_pipe4 : psys :=
  Psys (ps_pipe (after (pipewrite_seg 0 [3]%Z 513 (start (y_pipe demo_pipe3))))) 0 [] demo_bytes [1; 2]%Z.

Lemma demo_pipe_steps ok : ok 0%Z → rtc (pipe_step ok) (boot_pipe demo_pdata) demo_pipe4.
Proof.
  intros H0. eapply (rtc_l _ _ demo_pipe1).
  { by apply (ps_read _ (boot_pipe demo_pdata) 0 10 RSleep (start (new_pipe demo_pdata))). }
  assert (H2 : pipe_step ok demo_pipe1 demo_pipe2).
  { set (s' := after (pipewrite 0 demo_bytes 513 (start (new_pipe demo_pdata)))).
    replace demo_pipe2 with (Psys (ps_pipe s') (woken (ps_wake_r s') 1) (woken_wr (ps_wake_w s') [] ++ goes_on (WSleep [3]%Z) 513)
      ([] ++ accepted (new_pipe demo_pdata) (ps_pipe s') (take (Z.to_nat 513) demo_bytes)) []) by (vm_compute; reflexivity).
    apply (ps_write _ demo_pipe1 0 demo_bytes 513 (WSleep [3]%Z) s'); [done|done|vm_compute; reflexivity]. }
  assert (H3 : pipe_step ok demo_pipe2 demo_pipe3).
  { set (s' := after_read (piperead 0 2 (start (y_pipe demo_pipe2)))).
    replace demo_pipe3 with (Psys (ps_pipe s') (woken (ps_wake_r s') 0 + 0) (woken_wr (ps_wake_w s') [Writer true [3]%Z 513])
      (y_in demo_pipe2) ([] ++ [1; 2]%Z)) by (vm_compute; reflexivity).
    apply (ps_read _ demo_pipe2 0 2 (RRet 2 [1; 2]%Z) s'); [done|vm_compute; discriminate|vm_compute; reflexivity]. }
  assert (H4 : pipe_step ok demo_pipe3 demo_pipe4).
  { set (s' := after (pipewrite_seg 0 [3]%Z 513 (start (y_pipe demo_pipe3)))).
    replace demo_pipe4 with (Psys (ps_pipe s') (woken (ps_wake_r s') 0) (woken_wr (ps_wake_w s') [] ++ goes_on (WRet 513) 513)
      (y_in demo_pipe3 ++ accepted (y_pipe demo_pipe3) (ps_pipe s') [3]%Z) [1; 2]%Z) by (vm_compute; reflexivity).
    apply (ps_resume _ demo_pipe3 0 (Writer false [3]%Z 513) 0 (WRet 513) s'); [done|vm_compute; discriminate|done|done|vm_compute; reflexivity]. }
  eapply rtc_l; [exact H2|]. eapply rtc_l; [exact H3|]. by apply rtc_once.
Qed.

(** The bytes of the long write are delivered or in the pipe; and a killed
    writer fills a new pipe without waking the reader. *)
Lemma pipe_correct_witness :
  demo_bytes = [1; 2]%Z ++ contents (y_pipe demo_pipe4) ∧ contents (y_pipe demo_pipe1) = [] ∧ pi_writeopen (y_pipe demo_pipe1) ≠ 0%Z ∧
  ∃ p', pipewrite_seg 1 (replicate 513 5%Z) 513 (start (y_pipe demo_pipe1)) = Done (WRet (-1)) (start p') ∧ length (contents p') = PSn.
Proof.
  assert (Hl : length demo_pdata = PSn) by (vm_compute; reflexivity). split.
  - exact (proj1 (proj1 (pipe_correct demo_pdata demo_pipe4 Hl) (demo_pipe_steps _ I))).
  - assert (Hst : rtc (pipe_step (λ k, k = 0%Z)) (boot_pipe demo_pdata) demo_pipe1).
    { by apply rtc_once, (ps_read _ (boot_pipe demo_pdata) 0 10 RSleep (start (new_pipe demo_pdata))). }
    destruct (proj2 (pipe_correct demo_pdata demo_pipe1 Hl) Hst) as (Hr & _ & Hk). destruct (Hr ltac:(done)) as [H1 H2].
    split; [exact H1|]. split; [exact H2|]. apply Hk; [exact H1|done|vm_compute; lia].
Defined.
