(* ===== verification/File.v ===== *)
(** * Open files (file.c, file.h, pipe.c [pipealloc])

    The file table and its operations, over an interface to the pipes, the
    inode layer and the log. A file is named by its index in the table. *)

From S2P Require Import Prelude Params Fs.

Inductive ftype := FD_NONE | FD_PIPE | FD_INODE.
#[export] Instance ftype_eq_dec : EqDecision ftype.
Proof. solve_decision. Defined.

Record file := File {
  f_type : ftype;
  f_ref : Z;            (* reference count *)
  f_readable : Z;
  f_writable : Z;
  f_pipe : Z;           (* address of the pipe *)
  f_ip : nat;           (* slot of the inode cache *)
  f_off : Z
}.
Definition zero_file : file := File FD_NONE 0 0 0 0 0 0.
#[export] Instance file_inhabited : Inhabited file := populate zero_file.
Definition set_fref (v : Z) (f : file) : file :=
  File (f_type f) v (f_readable f) (f_writable f) (f_pipe f) (f_ip f) (f_off f).
Definition set_foff (v : Z) (f : file) : file :=
  File (f_type f) (f_ref f) (f_readable f) (f_writable f) (f_pipe f) (f_ip f) v.
Definition set_fpipe (r w p : Z) (f : file) : file :=
  File FD_PIPE (f_ref f) r w p (f_ip f) (f_off f).

(** What file.c calls. A read returns its count and the bytes. *)
Class FileEnv (E : Type) := {
  fe_kalloc : M E Z;
  fe_kfree : Z → M E unit;
  fe_pipeinit : Z → M E unit;              (* the fields of a new pipe *)
  fe_pipeclose : Z → Z → M E unit;
  fe_piperead : Z → Z → M E (Z * list Z);
  fe_pipewrite : Z → list Z → Z → M E Z;
  fe_begin_op : M E unit;
  fe_end_op : M E unit;
  fe_iput : nat → M E unit;
  fe_ilock : nat → M E unit;
  fe_iunlock : nat → M E unit;
  fe_stati : nat → M E stat;
  fe_readi : nat → Z → Z → M E (Z * list Z);
  fe_writei : nat → list Z → Z → Z → M E Z
}.

Record ftable (E : Type) := Ftable { ft_file : list file; ft_env : E }.
Arguments Ftable {E} _ _.
Arguments ft_file {E} _.
Arguments ft_env {E} _.

Section file_code.
Context {E : Type} `{FileEnv E}.

Definition fenv {A} (m : M E A) : M (ftable E) A := zoom ft_env (λ e s, Ftable (ft_file s) e) m.
Definition getf (f : nat) : M (ftable E) file := λ s, Done (ft_file s !!! f) s.
Definition updf (f : nat) (g : file → file) : M (ftable E) unit :=
  mmodify (λ s, Ftable (alter g f (ft_file s)) (ft_env s)).

(** Allocate a file structure. *)
Definition filealloc : M (ftable E) (option nat) :=
  s ← (mget : M (ftable E) _);
  match list_find (λ f, f_ref f = 0%Z) (ft_file s) with
  | Some (i, _) => updf i (set_fref 1);; mret (Some i)
  | None => mret None
  end.

(** Increment ref count for file f. *)
Definition filedup (f : nat) : M (ftable E) nat :=
  x ← getf f;
  assert_or_panic (1 <=? f_ref x)%Z "filedup";;
  updf f (set_fref (s32 (f_ref x + 1)));;
  mret f.

(** Close file f. (Decrement ref count, close when reaches 0.) *)
Definition fileclose (f : nat) : M (ftable E) unit :=
  ff ← getf f;
  assert_or_panic (1 <=? f_ref ff)%Z "fileclose";;
  updf f (set_fref (f_ref ff - 1));;
  if decide (0 < f_ref ff - 1)%Z then mret tt else
  updf f (λ x, File FD_NONE 0 (f_readable x) (f_writable x) (f_pipe x) (f_ip x) (f_off x));;
  match f_type ff with
  | FD_PIPE => fenv (fe_pipeclose (f_pipe ff) (f_writable ff))
  | FD_INODE => fenv fe_begin_op;; fenv (fe_iput (f_ip ff));; fenv fe_end_op
  | FD_NONE => mret tt
  end.

(** Get metadata about file f. *)
Definition filestat (f : nat) : M (ftable E) (Z * option stat) :=
  x ← getf f;
  match f_type x with
  | FD_INODE =>
    fenv (fe_ilock (f_ip x));;
    st ← fenv (fe_stati (f_ip x));
    fenv (fe_iunlock (f_ip x));;
    mret (0%Z, Some st)
  | _ => mret ((-1)%Z, None)
  end.

(** Read from file f. *)
Definition fileread (f : nat) (n : Z) : M (ftable E) (Z * list Z) :=
  x ← getf f;
  if decide (f_readable x = 0%Z) then mret ((-1)%Z, []) else
  match f_type x with
  | FD_PIPE => fenv (fe_piperead (f_pipe x) n)
  | FD_INODE =>
    fenv (fe_ilock (f_ip x));;
    x ← getf f;
    r ← fenv (fe_readi (f_ip x) (f_off x) (u32 n));
    (if decide (0 < r.1)%Z then updf f (λ x, set_foff (u32 (f_off x + r.1)) x) else mret tt);;
    fenv (fe_iunlock (f_ip x));;
    mret r
  | FD_NONE => panic "fileread"
  end.

(** The bytes of one transaction of [filewrite]. *)
Definition filewrite_max : Z := ((MAXOPBLOCKS - 1 - 1 - 2) / 2) * 512.

Fixpoint filewrite_loop (fuel : nat) (f : nat) (addr : list Z) (i n : Z) : M (ftable E) Z :=
  match fuel with
  | O => λ _, Diverge
  | S fuel =>
    if decide (i < n)%Z then
      let n1 := if decide (filewrite_max < n - i)%Z then filewrite_max else (n - i)%Z in
      fenv fe_begin_op;;
      x ← getf f;
      fenv (fe_ilock (f_ip x));;
      x ← getf f;
      r ← fenv (fe_writei (f_ip x) (drop (Z.to_nat i) addr) (f_off x) n1);
      (if decide (0 < r)%Z then updf f (λ x, set_foff (u32 (f_off x + r)) x) else mret tt);;
      fenv (fe_iunlock (f_ip x));;
      fenv fe_end_op;;
      if decide (r < 0)%Z then mret i else
      assert_or_panic (r =? n1)%Z "short filewrite";;
      filewrite_loop fuel f addr (i + r) n
    else mret i
  end.

(** Write to file f. *)
Definition filewrite (f : nat) (addr : list Z) (n : Z) : M (ftable E) Z :=
  x ← getf f;
  if decide (f_writable x = 0%Z) then mret (-1)%Z else
  match f_type x with
  | FD_PIPE => fenv (fe_pipewrite (f_pipe x) addr n)
  | FD_INODE =>
    i ← filewrite_loop (Z.to_nat (n / filewrite_max) + 2) f addr 0 n;
    mret (if decide (i = n) then n else (-1)%Z)
  | FD_NONE => panic "filewrite"
  end.

(** Two files for the ends of a new pipe. *)
Definition pipealloc : M (ftable E) (option (nat * nat)) :=
  f0 ← filealloc;
  match f0 with
  | None => mret None
  | Some r =>
    f1 ← filealloc;
    match f1 with
    | None => fileclose r;; mret None
    | Some w =>
      p ← fenv fe_kalloc;
      if decide (p = 0%Z) then fileclose r;; fileclose w;; mret None else
      fenv (fe_pipeinit p);;
      updf r (set_fpipe 1 0 p);;
      updf w (set_fpipe 0 1 p);;
      mret (Some (r, w))
    end
  end.

(** ** References *)

Definition cnt (i : nat) (R : list nat) : nat := length (filter (λ j, j = i) R).

Lemma cnt_cons i j R : cnt i (j :: R) = (if decide (j = i) then 1 else 0) + cnt i R.
Proof. unfold cnt. rewrite filter_cons. by case_decide. Qed.

#[export] Instance cnt_perm i : Proper ((≡ₚ) ==> (=)) (cnt i).
Proof. intros R R' HR. unfold cnt. by rewrite HR. Qed.

(** What the kernel does with references to open files: [R] is the list of
    those it holds, in file descriptor tables and local variables. Reads,
    writes and the set-up of new files change other fields of a file it holds,
    and the rest of the system. *)
Inductive file_step : ftable E * list nat → ftable E * list nat → Prop :=
| fs_alloc s s' R f : filealloc s = Done (Some f) s' → file_step (s, R) (s', f :: R)
| fs_dup s s' R f g : f ∈ R → (Z.of_nat (length R) < 2 ^ 31 - 1)%Z →
    filedup f s = Done g s' → file_step (s, R) (s', g :: R)
| fs_close s s' R R' f : R ≡ₚ f :: R' → fileclose f s = Done tt s' → file_step (s, R) (s', R')
| fs_use s R f g e : f ∈ R → (∀ x, f_ref (g x) = f_ref x) →
    file_step (s, R) (Ftable (alter g f (ft_file s)) e, R).

(** Every reference is counted. *)
Definition ref_inv (sR : ftable E * list nat) : Prop :=
  (∀ i x, ft_file sR.1 !! i = Some x → f_ref x = Z.of_nat (cnt i sR.2)) ∧
  (∀ f, f ∈ sR.2 → f < length (ft_file sR.1)).

Lemma cnt_elem f R : f ∈ R → 1 ≤ cnt f R.
Proof.
  intros (R1 & R2 & ->)%list_elem_of_split. unfold cnt. rewrite filter_app, length_app, filter_cons_True by done.
  simpl. lia.
Qed.

Lemma cnt_zero f R : f ∉ R → cnt f R = 0.
Proof.
  induction R as [|j R IH]; intros Hn; [done|]. rewrite cnt_cons, decide_False by set_solver.
  apply IH. set_solver.
Qed.

Lemma cnt_le f R : cnt f R ≤ length R.
Proof. unfold cnt. apply length_filter. Qed.

Lemma ref_lookup sR f : ref_inv sR → f ∈ sR.2 →
  ∃ x, ft_file sR.1 !! f = Some x ∧ f_ref x = Z.of_nat (cnt f sR.2) ∧ ft_file sR.1 !!! f = x.
Proof.
  intros [Hc Hl] Hf. destruct (lookup_lt_is_Some_2 _ _ (Hl _ Hf)) as [x Hx]. exists x.
  split_and!; [done|by apply Hc|by apply list_lookup_total_correct].
Qed.

(** The object behind a file, closed. *)
Definition close_object (x : file) : M E unit :=
  match f_type x with
  | FD_PIPE => fe_pipeclose (f_pipe x) (f_writable x)
  | FD_INODE => fe_begin_op;; fe_iput (f_ip x);; fe_end_op
  | FD_NONE => mret tt
  end.

Lemma fileclose_run f x s : ft_file s !! f = Some x → (1 ≤ f_ref x)%Z →
  fileclose f s =
    if decide (1 < f_ref x)%Z then Done tt (Ftable (<[f := set_fref (f_ref x - 1) x]> (ft_file s)) (ft_env s))
    else fenv (close_object x) (Ftable (<[f := File FD_NONE 0 (f_readable x) (f_writable x) (f_pipe x) (f_ip x) (f_off x)]>
      (ft_file s)) (ft_env s)).
Proof.
  intros Hx Hr. assert (Hlt := lookup_lt_Some _ _ _ Hx). unfold fileclose.
  rewrite (run_bind (getf f) _ _ x s) by (unfold getf; by rewrite (list_lookup_total_correct _ _ _ Hx)).
  rewrite (run_bind _ _ _ tt s) by (unfold assert_or_panic; by rewrite (proj2 (Z.leb_le _ _) Hr)).
  rewrite (run_bind _ _ _ tt (Ftable (<[f := set_fref (f_ref x - 1) x]> (ft_file s)) (ft_env s)))
    by (unfold updf, mmodify; by rewrite (list_alter_Some _ _ _ _ Hx)).
  destruct (decide (1 < f_ref x)%Z) as [Hgt|Hle]; [by rewrite decide_True by lia|].
  rewrite decide_False by lia.
  rewrite (run_bind _ _ _ tt (Ftable (<[f := File FD_NONE 0 (f_readable x) (f_writable x) (f_pipe x) (f_ip x) (f_off x)]>
    (ft_file s)) (ft_env s))).
  2:{ unfold updf, mmodify. simpl. rewrite (list_alter_Some _ _ _ (set_fref (f_ref x - 1) x)) by (by apply list_lookup_insert_eq).
      by rewrite list_insert_insert_eq. }
  unfold close_object. destruct (f_type x); [done|done|]. unfold fenv, zoom, mbind, M_bind. simpl.
  destruct (fe_begin_op _) as [? e1| | |]; simpl; [|done..]. destruct (fe_iput _ e1) as [? e2| | |]; simpl; [|done..].
  by destruct (fe_end_op e2).
Qed.

Lemma fenv_files {A} (m : M E A) s a s' : fenv m s = Done a s' → ft_file s' = ft_file s.
Proof.
  unfold fenv, zoom. destruct (m (ft_env s)); intros Hd; try discriminate Hd. by injection Hd as <- <-.
Qed.

Lemma file_step_inv sR sR' : ref_inv sR → file_step sR sR' → ref_inv sR'.
Proof.
  intros Hinv Hst. destruct Hst as [s s' R f Hr|s s' R f g Hf Hb Hr|s s' R R' f Hp Hr|s R f g e Hf Hg].
  - unfold filealloc in Hr. apply bind_done in Hr as (s0 & s1 & [= <- <-] & Hr).
    destruct (list_find _ _) as [[i x]|] eqn:Hfind; [|done]. apply list_find_Some in Hfind as (Hi & Hz & _).
    injection Hr as <- <-. destruct Hinv as [Hc Hl]. simpl in *. split; simpl.
    + intros j y. rewrite list_lookup_alter, cnt_cons. case_decide as Hj; [subst j|intros Hy; rewrite (Hc _ _ Hy); lia].
      rewrite Hi. intros [= <-]. specialize (Hc _ _ Hi). cbn [set_fref f_ref]. lia.
    + intros k [->|Hk]%elem_of_cons; rewrite length_alter; [by eapply lookup_lt_Some|auto].
  - destruct (ref_lookup _ _ Hinv Hf) as (x & Hx & Hrx & Hxt). destruct Hinv as [Hc Hl]. simpl in *.
    pose proof (cnt_le f R). unfold filedup in Hr.
    apply bind_done in Hr as (y & s1 & [= <- <-] & ([] & s2 & [_ ->]%assert_done & ([] & s3 & [= <-] & [= <- <-])%bind_done)%bind_done).
    rewrite Hxt in *. split; simpl.
    + intros j y. rewrite list_lookup_alter, cnt_cons. case_decide as Hj; [subst j|intros Hy; rewrite (Hc _ _ Hy); lia].
      rewrite Hx. intros [= <-]. simpl. rewrite s32_small by lia. lia.
    + intros k [->|Hk]%elem_of_cons; rewrite length_alter; auto.
  - assert (Hf : f ∈ R) by (rewrite Hp; by left).
    destruct (ref_lookup _ _ Hinv Hf) as (x & Hx & Hrx & Hxt). destruct Hinv as [Hc Hl]. simpl in *.
    assert (Hlt := lookup_lt_Some _ _ _ Hx). assert (Hcf : cnt f R = S (cnt f R')).
    { rewrite Hp, cnt_cons. by rewrite decide_True. }
    rewrite (fileclose_run _ _ _ Hx) in Hr by lia.
    assert (Hfiles : ∃ y, f_ref y = (f_ref x - 1)%Z ∧ ft_file s' = <[f := y]> (ft_file s)).
    { case_decide; [injection Hr as <-; by exists (set_fref (f_ref x - 1) x)|]. apply fenv_files in Hr. eexists. split; [|exact Hr]. simpl. lia. }
    destruct Hfiles as (y & Hy & Hfs). split; simpl; rewrite Hfs.
    + intros j z. destruct (decide (f = j)) as [<-|Hj].
      * rewrite list_lookup_insert_eq by done. intros [= <-]. lia.
      * rewrite list_lookup_insert_ne by done. intros Hz. by rewrite (Hc _ _ Hz), Hp, cnt_cons, decide_False.
    + intros k Hk. rewrite length_insert. apply Hl. rewrite Hp. by right.
  - destruct Hinv as [Hc Hl]. simpl in *. split; simpl.
    + intros j y. rewrite list_lookup_alter. case_decide as Hj; [subst j|by apply Hc].
      destruct (ft_file s !! f) eqn:Hx; intros [= <-]. rewrite Hg. by apply Hc.
    + intros k Hk. rewrite length_alter. auto.
Qed.

(** C23. The file table, for every sequence of allocations, duplications,
    closes and uses of files that the kernel holds: the reference count of
    every entry is the number of references held; [filealloc] returns an entry
    that nobody refers to, and fails only if every entry is referred to;
    [fileclose] of a reference held never panics by itself, leaves the object
    alone while other references are held, and closes it and frees the entry
    with the last one. *)
Theorem file_references s0 s R :
  (∀ i x, ft_file s0 !! i = Some x → f_ref x = 0%Z) → rtc file_step (s0, []) (s, R) →
  (∀ i x, ft_file s !! i = Some x → f_ref x = Z.of_nat (cnt i R)) ∧
  (∀ r s', filealloc s = Done r s' → match r with
     | Some f => f ∉ R
     | None => ∀ i, i < length (ft_file s) → i ∈ R end) ∧
  (∀ f R', R ≡ₚ f :: R' → ∃ x, ft_file s !! f = Some x ∧
     if decide (f ∈ R') then ∃ y, fileclose f s = Done tt (Ftable (<[f := y]> (ft_file s)) (ft_env s)) ∧ f_type y = f_type x
     else ∃ y, fileclose f s = fenv (close_object x) (Ftable (<[f := y]> (ft_file s)) (ft_env s)) ∧
       f_ref y = 0%Z ∧ f_type y = FD_NONE).
Proof.
  intros H0 Hst. assert (Hinv : ref_inv (s, R)).
  { assert (Hi : ref_inv (s0, [])).
    { split; simpl; [intros i x Hx; by rewrite (H0 _ _ Hx)|]. intros f Hf. by apply elem_of_nil in Hf. }
    revert Hi. induction Hst as [|x y z Hxy _ IH]; [done|]. intros Hi. by eapply IH, file_step_inv. }
  pose proof Hinv as [Hc Hl]. simpl in *. split_and!; [done| |].
  - intros r s' Hr. unfold filealloc in Hr. apply bind_done in Hr as (s1 & s2 & [= <- <-] & Hr).
    destruct (list_find _ _) as [[i x]|] eqn:Hfind; injection Hr as <- _.
    + apply list_find_Some in Hfind as (Hi & Hz & _). intros Hin%cnt_elem. rewrite (Hc _ _ Hi) in Hz. lia.
    + apply list_find_None in Hfind. rewrite Forall_lookup in Hfind. intros i Hi.
      destruct (lookup_lt_is_Some_2 _ _ Hi) as [x Hx]. destruct (decide (i ∈ R)) as [|Hn]; [done|].
      destruct (Hfind _ _ Hx). by rewrite (Hc _ _ Hx), cnt_zero.
  - intros f R' Hp. assert (Hf : f ∈ R) by (rewrite Hp; by left).
    destruct (ref_lookup _ _ Hinv Hf) as (x & Hx & Hrx & _). simpl in *. exists x. split; [done|].
    assert (Hcf : cnt f R = S (cnt f R')) by (rewrite Hp, cnt_cons; by rewrite decide_True).
    rewrite (fileclose_run _ _ _ Hx) by lia. case_decide as Hin.
    + apply cnt_elem in Hin. rewrite decide_True by lia. by exists (set_fref (f_ref x - 1) x).
    + rewrite decide_False; [eexists; split_and!; reflexivity|]. apply cnt_zero in Hin. lia.
Qed.

End file_code.

(** ** Witness *)

(** An environment that counts the objects closed. *)
#[export] Instance demo_file_env : FileEnv nat := {|
  fe_kalloc := mret 0x80200000%Z;
  fe_kfree _ := mret tt;
  fe_pipeinit _ := mret tt;
  fe_pipeclose _ _ := mmodify S;
  fe_piperead _ _ := mret (0%Z, []);
  fe_pipewrite _ _ n := mret n;
  fe_begin_op := mret tt;
  fe_end_op := mret tt;
  fe_iput _ := mmodify S;
  fe_ilock _ := mret tt;
  fe_iunlock _ := mret tt;
  fe_stati _ := mret (Stat 1 1 2 1 0);
  fe_readi _ _ _ := mret (0%Z, []);
  fe_writei _ _ _ n := mret n
|}.

Definition demo_ft : ftable nat := Ftable [zero_file; zero_file] 0.

(** A file is allocated, duplicated, made an inode's, and closed twice. *)
Lemma file_references_witness : ∃ s,
  rtc file_step (demo_ft, []) (s, [0; 0]) ∧ f_ref <$> ft_file s !! 0 = Some 2%Z ∧
  ∃ y, fileclose 0 s = Done tt (Ftable [y; zero_file] 0).
Proof.
  set (s1 := Ftable [set_fref 1 zero_file; zero_file] 0).
  set (s2 := Ftable [set_fref 2 zero_file; zero_file] 0).
  set (s := Ftable [File FD_INODE 2 1 1 0 3 0; zero_file] 0).
  assert (Hst : rtc file_step (demo_ft, []) (s, [0; 0])).
  { eapply rtc_l; [by apply (fs_alloc demo_ft s1 [] 0)|].
    eapply rtc_l; [apply (fs_dup s1 s2 [0] 0 0); [by left|simpl; lia|done]|]. apply rtc_once.
    apply (fs_use s2 [0; 0] 0 (λ x, File FD_INODE (f_ref x) 1 1 0 3 0) 0); [by left|done]. }
  assert (H0 : ∀ i x, ft_file demo_ft !! i = Some x → f_ref x = 0%Z).
  { intros i x Hx. destruct i as [|[|i]]; simpl in Hx; by simplify_eq. }
  destruct (file_references demo_ft s [0; 0] H0 Hst) as (Hc & _ & Hclose).
  exists s. split; [done|]. split; [done|]. destruct (Hclose 0 [0] ltac:(done)) as (x & Hx & Hr).
  rewrite decide_True in Hr by (by left). destruct Hr as (y & Hy & _). by exists y.
Defined.
