(* ===== verification/Syscall.v ===== *)
(** * System call arguments and dispatch (syscall.c, syscall.h)

    [ub] is the memory of the current process, byte by byte, and [sz] its size;
    a fetch that the source reports with -1 is [None]. *)

From S2P Require Import Prelude Params.

Inductive sysno :=
| SYS_fork | SYS_exit | SYS_wait | SYS_pipe | SYS_read | SYS_kill | SYS_exec | SYS_fstat | SYS_chdir
| SYS_dup | SYS_getpid | SYS_sbrk | SYS_sleep | SYS_uptime | SYS_open | SYS_write | SYS_mknod
| SYS_unlink | SYS_link | SYS_mkdir | SYS_close | SYS_halt.

(** The table [syscalls], indexed from 1. *)
Definition syscalls : list sysno :=
  [SYS_fork; SYS_exit; SYS_wait; SYS_pipe; SYS_read; SYS_kill; SYS_exec; SYS_fstat; SYS_chdir;
   SYS_dup; SYS_getpid; SYS_sbrk; SYS_sleep; SYS_uptime; SYS_open; SYS_write; SYS_mknod;
   SYS_unlink; SYS_link; SYS_mkdir; SYS_close; SYS_halt].

(** The handler for the number in [%eax], if there is one. *)
Definition syscall_lookup (num : Z) : option sysno :=
  if decide (0 < num ∧ num < 1 + Z.of_nat (length syscalls))%Z then syscalls !! Z.to_nat (num - 1) else None.

Section fetch.
Variable sz : Z.
Variable ub : Z → Z.

Definition uword (a : Z) : Z := le_dec ((λ i, ub (a + Z.of_nat i)%Z) <$> seq 0 4).

(** Fetch the int at addr from the current process. *)
Definition fetchint (addr : Z) : option Z :=
  if decide (sz ≤ addr ∨ sz < u32 (addr + 4))%Z then None else Some (s32 (uword addr)).

(** The scan of [fetchstr]: the distance from [p] of the first NUL at or after [s]. *)
Fixpoint scan_nul (fuel : nat) (p s : Z) : option Z :=
  match fuel with
  | O => None
  | S fuel =>
    if decide (s < sz)%Z then
      if decide (ub s = 0%Z) then Some (s - p)%Z else scan_nul fuel p (s + 1)
    else None
  end.

(** Fetch the nul-terminated string at addr: its address and its length. *)
Definition fetchstr (addr : Z) : option (Z * Z) :=
  if decide (sz ≤ addr)%Z then None else
  match scan_nul (Z.to_nat (sz - addr)) addr addr with
  | Some n => Some (addr, n)
  | None => None
  end.

(** The nth argument; [esp] is the user stack pointer of the trap frame. *)
Definition argint (esp n : Z) : option Z := fetchint (u32 (esp + 4 + 4 * n)).

Definition argptr (esp n size : Z) : option Z :=
  i ← argint esp n;
  if decide (size < 0 ∨ sz ≤ u32 i ∨ sz < u32 (u32 i + size))%Z then None else Some (u32 i).

Definition argstr (esp n : Z) : option (Z * Z) :=
  addr ← argint esp n;
  fetchstr (u32 addr).

(** The bytes of a string fetched. *)
Definition ustring (p n : Z) : list Z := (λ i, ub (p + Z.of_nat i)%Z) <$> seq 0 (Z.to_nat n).

End fetch.

Lemma scan_nul_spec sz ub fuel p s : (sz - s = Z.of_nat fuel)%Z →
  match scan_nul sz ub fuel p s with
  | Some n => (s ≤ p + n < sz)%Z ∧ ub (p + n)%Z = 0%Z ∧ ∀ a, (s ≤ a < p + n)%Z → ub a ≠ 0%Z
  | None => ∀ a, (s ≤ a < sz)%Z → ub a ≠ 0%Z
  end.
Proof.
  revert s. induction fuel as [|fuel IH]; intros s Hf; cbn [scan_nul]; [intros a Ha; lia|].
  rewrite decide_True by lia. case_decide as Hz.
  - replace (p + (s - p))%Z with s by lia. split_and!; [lia|lia|done|intros a Ha; lia].
  - specialize (IH (s + 1)%Z ltac:(lia)). destruct (scan_nul _ _ _ _ _) as [n|].
    + destruct IH as (Hr & Hn & Hb). split_and!; [lia|lia|done|]. intros a Ha.
      destruct (decide (a = s)) as [->|]; [done|]. apply Hb. lia.
    + intros a Ha. destruct (decide (a = s)) as [->|]; [done|]. apply IH. lia.
Qed.

(** C33. System call arguments, for every address and size, wrap-around
    included: [fetchint] and [argptr] succeed exactly when all the bytes they
    hand to the kernel lie below the process's size, and [fetchstr] exactly
    when there is a NUL there, the first of which ends the string. *)
Theorem arg_bounds sz ub esp addr n size :
  (0 ≤ sz ≤ 0x80000000)%Z → is_u32 addr → (- 2 ^ 31 ≤ size < 2 ^ 31)%Z →
  (is_Some (fetchint sz ub addr) ↔ (addr + 4 ≤ sz)%Z) ∧
  (∀ p, argptr sz ub esp n size = Some p ↔
    ∃ i, argint sz ub esp n = Some i ∧ p = u32 i ∧ (0 ≤ size ∧ p < sz ∧ p + size ≤ sz)%Z) ∧
  (∀ p len, fetchstr sz ub addr = Some (p, len) ↔
    p = addr ∧ (0 ≤ len ∧ addr + len < sz)%Z ∧ ub (addr + len)%Z = 0%Z ∧
    ∀ a, (addr ≤ a < addr + len)%Z → ub a ≠ 0%Z).
Proof.
  intros Hsz Ha Hs. unfold is_u32 in Ha. split_and!.
  - unfold fetchint. case_decide as Hd.
    + split; [by intros [? ?]|]. intros Hle. exfalso. destruct Hd as [|Hd]; [lia|].
      rewrite u32_small in Hd by (unfold is_u32; lia). lia.
    + split; [intros _|by eexists]. apply Decidable.not_or in Hd as [H1 H2].
      rewrite u32_small in H2 by (unfold is_u32; lia). lia.
  - intros p. unfold argptr. destruct (argint sz ub esp n) as [i|]; simpl; [|naive_solver].
    pose proof (u32_range i) as Hi. unfold is_u32 in Hi. case_decide as Hd.
    + split; [done|]. intros (j & [= <-] & -> & Hj). exfalso. destruct Hd as [|[|Hd]]; [lia|lia|].
      rewrite u32_small in Hd by (unfold is_u32; lia). lia.
    + apply Decidable.not_or in Hd as [H1 [H2 H3]%Decidable.not_or].
      rewrite u32_small in H3 by (unfold is_u32; lia). split.
      * intros [= <-]. exists i. split_and!; [done|done|lia|lia|lia].
      * by intros (j & [= <-] & -> & _).
  - intros p len. unfold fetchstr. case_decide as Hd; [split; [done|lia]|].
    pose proof (scan_nul_spec sz ub (Z.to_nat (sz - addr)) addr addr ltac:(lia)) as Hscan.
    destruct (scan_nul _ _ _ _ _) as [k|].
    + destruct Hscan as (Hr & Hz & Hb). split.
      * intros [= <- <-]. split_and!; [done|lia|lia|done|done].
      * intros (-> & Hl & Hz' & Hb'). do 2 f_equal. destruct (decide (k < len)%Z) as [Hlt|].
        -- destruct (Hb' (addr + k)%Z); [lia|done].
        -- destruct (decide (len < k)%Z); [|lia]. destruct (Hb (addr + len)%Z); [lia|done].
    + split; [done|]. intros (-> & Hl & Hz' & Hb'). destruct (Hscan (addr + len)%Z); [lia|done].
Qed.

(** A process of 100 bytes: its stack has the arguments 50 and 0x7fffffff. *)
Definition demo_ub (a : Z) : Z :=
  (if a =? 4 then 50 else if a =? 11 then 0x7f else if (8 <=? a) && (a <? 11) then 0xff
   else if a =? 52 then 0 else if a <? 50 then 0 else 65)%Z.

Lemma arg_bounds_witness :
  argptr 100 demo_ub 0 0 50 = Some 50%Z ∧ fetchstr 100 demo_ub 50 = Some (50, 2)%Z.
Proof.
  destruct (arg_bounds 100 demo_ub 0 50 0 50 ltac:(lia) ltac:(unfold is_u32; lia) ltac:(lia)) as (_ & Hp & Hs).
  split.
  - apply Hp. exists 50%Z. split_and!; [vm_compute; reflexivity|reflexivity|lia|lia|lia].
  - apply Hs. split_and!; [reflexivity|lia|lia|reflexivity|]. intros a Ha.
    assert (a = 50 ∨ a = 51)%Z as [-> | ->] by lia; vm_compute; discriminate.
Defined.
