(* ===== verification/Kernel.v ===== *)
(** * The kernel put together

    The interfaces that file.c and proc.c are translated against (File.v,
    Proc.v), implemented by the file system over the log and the block cache,
    the pipes, the page allocator and the page tables. What the current process
    is ([pid], [killed]) is an argument; a call that goes to sleep is [Wait]
    with the state it leaves. *)

From S2P Require Import Prelude Params Sleeplock Cache Log Journal Super Fs Spinlock Kalloc Vm Proc Pipe File.

(** [ke_wake] are the wakeups of the pipes that are not delivered yet. *)
Record kenv (St : Type) := Kenv {
  ke_fs : fstate (lstate St);
  ke_pipes : gmap Z pipe;        (* by the address of their page *)
  ke_mem : kmem;
  ke_wake : list chan
}.
Arguments Kenv {St} _ _ _ _.
Arguments ke_fs {St} _.
Arguments ke_pipes {St} _.
Arguments ke_mem {St} _.
Arguments ke_wake {St} _.

(** Offsets in [struct pipe], after its spinlock of 52 bytes. *)
Definition PIPE_DATA : nat := 52.
Definition chan_nread (p : Z) : chan := ChAddr (p + 564)%Z.
Definition chan_nwrite (p : Z) : chan := ChAddr (p + 568)%Z.

(** ** User memory, as the kernel accesses it through the process's page table *)

(** The kernel address of a user address; an access to an unmapped one traps. *)
Definition user_addr (pgdir a : Z) : M kmem Z :=
  pte ← walkpgdir pgdir a false;
  assert_or_panic (negb (pte =? 0)%Z) "trap";;
  e ← rd32 pte;
  assert_or_panic (present e) "trap";;
  mret (u32 (P2V (PTE_ADDR e) + a `mod` PGSIZE)).

(** A byte of user memory; 0 where a read would trap. *)
Definition user_byte (k : kmem) (pgdir a : Z) : Z :=
  match (ka ← user_addr pgdir a; rd_bytes ka 1) k with Done bs _ => bs !!! 0 | _ => 0%Z end.

(** Stores of consecutive bytes. *)
Definition user_write (pgdir a : Z) (bs : list Z) : M kmem unit :=
  mfor (imap (λ i c, (u32 (a + Z.of_nat i), c)) bs) (λ x,
    ka ← user_addr pgdir x.1;
    wr_bytes ka [x.2]).

Section kernel.
Context {St : Type} `{BlockCache St}.
Variables kend kdata : Z.
Variable devsw_read : Z → option (nat → Z → M (fstate (lstate St)) (Z * list Z)).
Variable devsw_write : Z → option (nat → list Z → Z → M (fstate (lstate St)) Z).
Variables pid killed : Z.

Definition on_fs {A} (m : M (fstate (lstate St)) A) : M (kenv St) A :=
  zoom ke_fs (λ f s, Kenv f (ke_pipes s) (ke_mem s) (ke_wake s)) m.
Definition on_mem {A} (m : M kmem A) : M (kenv St) A :=
  zoom ke_mem (λ k s, Kenv (ke_fs s) (ke_pipes s) k (ke_wake s)) m.

(** A segment of a pipe operation, with its wakeups. *)
Definition on_pipe {A} (p : Z) (m : M pst A) : M (kenv St) A := λ s,
  match ke_pipes s !! p with
  | None => Panic "trap"
  | Some x =>
    let put t := Kenv (ke_fs s) (<[p := ps_pipe t]> (ke_pipes s)) (ke_mem s)
      (ke_wake s ++ (if ps_wake_r t then [chan_nread p] else []) ++ (if ps_wake_w t then [chan_nwrite p] else [])) in
    match m (Pst x false false) with
    | Done a t => Done a (put t)
    | Wait t => Wait (put t)
    | Panic e => Panic e
    | Diverge => Diverge
    end
  end.
Definition drop_pipe (p : Z) : M (kenv St) unit :=
  mmodify (λ s, Kenv (ke_fs s) (delete p (ke_pipes s)) (ke_mem s) (ke_wake s)).

#[local] Instance kernel_file_env : FileEnv (kenv St) := {|
  fe_kalloc := on_mem kalloc;
  fe_kfree a := on_mem (kfree kend a);
  fe_pipeinit p :=
    d ← on_mem (rd_bytes (u32 (p + Z.of_nat PIPE_DATA)) (Z.to_nat PIPESIZE));
    mmodify (λ s, Kenv (ke_fs s) (<[p := new_pipe d]> (ke_pipes s)) (ke_mem s) (ke_wake s));
  fe_pipeclose p writable :=
    last ← on_pipe p (pipeclose writable);
    if (last : bool) then drop_pipe p;; on_mem (kfree kend p) else mret tt;
  fe_piperead p n :=
    r ← on_pipe p (piperead killed n);
    match r with RRet c bs => mret (c, bs) | RSleep => λ s, Wait s end;
  fe_pipewrite p addr n :=
    r ← on_pipe p (pipewrite killed addr n);
    match r with WRet c => mret c | WSleep _ => λ s, Wait s end;
  fe_begin_op := on_fs (disk begin_op);
  fe_end_op := on_fs (disk end_op);
  fe_iput ip := on_fs (iput pid ip);
  fe_ilock ip := on_fs (ilock pid ip);
  fe_iunlock ip := on_fs (iunlock ip);
  fe_stati ip := on_fs (stati ip);
  fe_readi ip off n := on_fs (readi devsw_read ip off n);
  fe_writei ip src off n := on_fs (writei devsw_write ip src off n)
|}.

#[local] Instance kernel_proc_env : ProcEnv (ftable (kenv St)) := {|
  pe_kalloc := fenv (on_mem kalloc);
  pe_kfree a := fenv (on_mem (kfree kend a));
  pe_setupkvm := fenv (on_mem (setupkvm kend kdata));
  pe_inituvm pgdir init sz := fenv (on_mem (inituvm pgdir init sz));
  pe_copyuvm pgdir sz := fenv (on_mem (copyuvm kend kdata pgdir sz));
  pe_freevm pgdir := fenv (on_mem (freevm kend pgdir));
  pe_allocuvm pgdir old new := fenv (on_mem (allocuvm kend pgdir old new));
  pe_deallocuvm pgdir old new := fenv (on_mem (deallocuvm kend pgdir old new));
  pe_filedup := filedup;
  pe_fileclose := fileclose;
  pe_idup ip := fenv (on_fs (idup ip));
  pe_begin_op := fenv (on_fs (disk begin_op));
  pe_iput ip := fenv (on_fs (iput pid ip));
  pe_end_op := fenv (on_fs (disk end_op));
  pe_namei path := fenv (on_fs (namei pid devsw_read NULLINODE path))
|}.

End kernel.

(** The whole state: the process table over the open files over the rest. *)
Abbreviation kstate St := (pstate (ftable (kenv St))).

Section lifts.
Context {St : Type}.

Definition kfiles {A} (m : M (ftable (kenv St)) A) : M (kstate St) A := env m.
Definition kfs {A} (m : M (fstate (lstate St)) A) : M (kstate St) A := env (fenv (on_fs m)).
Definition kmemory {A} (m : M kmem A) : M (kstate St) A := env (fenv (on_mem m)).

(** The pending wakeups reach the process table before anything else runs:
    they are made inside the critical sections of the pipe locks. *)
Definition deliver (s : kstate St) : kstate St :=
  let e := ft_env (ps_env s) in
  PState (foldl (λ ps ch, wakeup1_proc ch <$> ps) (ps_procs s) (ke_wake e)) (ps_initproc s) (ps_nextpid s)
    (Ftable (ft_file (ps_env s)) (Kenv (ke_fs e) (ke_pipes e) (ke_mem e) [])).
Definition with_wakes {A} (m : M (kstate St) A) : M (kstate St) A := λ s,
  match m s with
  | Done a s' => Done a (deliver s')
  | Wait s' => Wait (deliver s')
  | Panic e => Panic e
  | Diverge => Diverge
  end.

End lifts.
