(* ===== verification/Sysfile.v ===== *)
(** * The file system calls (sysfile.c)

    Each call is run by the process at index [cur] of the table: it fetches its
    arguments from user memory and returns the value of [%eax]. *)

From S2P Require Import Prelude Params Sleeplock Cache Log Journal Super CString Fs Spinlock Kalloc Vm Proc Pipe File Syscall Kernel.

Definition O_RDONLY : Z := 0x000.
Definition O_WRONLY : Z := 0x001.
Definition O_RDWR : Z := 0x002.
Definition O_CREATE : Z := 0x200.
Definition MAXARG : nat := 32.

(** [struct stat] has 20 bytes, with two of padding after [type] and [nlink]. *)
Definition STATSZ : Z := 20.
Definition stat_enc (st : stat) : list Z :=
  le_enc 2 (st_type st) ++ [0; 0]%Z ++ le_enc 4 (st_dev st) ++ le_enc 4 (st_ino st) ++
  le_enc 2 (st_nlink st) ++ [0; 0]%Z ++ le_enc 4 (st_size st).

Definition dot : list Z := [46%Z].
Definition dotdot : list Z := [46; 46]%Z.

Section sysfile.
Context {St : Type} `{BlockCache St}.
Variables kend kdata : Z.
Variable devsw_read : Z → option (nat → Z → M (fstate (lstate St)) (Z * list Z)).
Variable devsw_write : Z → option (nat → list Z → Z → M (fstate (lstate St)) Z).
Variable cur : nat.
Variables pid killed : Z.

#[local] Instance cur_file_env : FileEnv (kenv St) :=
  kernel_file_env kend devsw_read devsw_write pid killed.

Abbreviation K := (M (kstate St)).

Definition myproc : K proc := getp cur.
Definition set_fd (fd : nat) (f : option nat) : K unit :=
  updp cur (λ p, set_ofile (<[fd := f]> (p_ofile p)) p).

(** The arguments, from the current process's memory. *)
Definition with_user {A} (f : Z → (Z → Z) → Z → A) : K A :=
  p ← myproc;
  s ← mget;
  mret (f (p_sz p) (user_byte (ke_mem (ft_env (ps_env s))) (p_pgdir p)) (tf_esp (p_tf p))).
Definition sys_argint (n : Z) : K (option Z) := with_user (λ sz ub esp, argint sz ub esp n).
Definition sys_argptr (n size : Z) : K (option Z) := with_user (λ sz ub esp, argptr sz ub esp n size).
Definition sys_argstr (n : Z) : K (option (list Z)) :=
  with_user (λ sz ub esp, '(p, len) ← argstr sz ub esp n; Some (ustring ub p len)).
Definition user_bytes (p n : Z) : K (list Z) := with_user (λ _ ub _, ustring ub p n).
Definition to_user (p : Z) (bs : list Z) : K unit :=
  q ← myproc;
  kmemory (user_write (p_pgdir q) p bs).

(** Fetch the nth argument as a file descriptor: the descriptor and the file. *)
Definition argfd (n : Z) : K (option (nat * nat)) :=
  r ← sys_argint n;
  match r with
  | None => mret None
  | Some fd =>
    if decide (fd < 0 ∨ Z.of_nat NOFILE ≤ fd)%Z then mret None else
    p ← myproc;
    match p_ofile p !!! Z.to_nat fd with
    | None => mret None
    | Some f => mret (Some (Z.to_nat fd, f))
    end
  end.

(** Allocate a file descriptor for the given file. *)
Definition fdalloc (f : nat) : K (option nat) :=
  p ← myproc;
  match list_find (λ x, x = None) (take NOFILE (p_ofile p)) with
  | Some (fd, _) => set_fd fd (Some f);; mret (Some fd)
  | None => mret None
  end.

Definition sys_dup : K Z :=
  r ← argfd 0;
  match r with
  | None => mret (-1)%Z
  | Some (_, f) =>
    r ← fdalloc f;
    match r with
    | None => mret (-1)%Z
    | Some fd => kfiles (filedup f);; mret (Z.of_nat fd)
    end
  end.

(** The arguments of read and write: the file, the buffer and the length. *)
Definition arg_rw : K (option (nat * Z * Z)) :=
  r ← argfd 0;
  match r with
  | None => mret None
  | Some (_, f) =>
    r ← sys_argint 2;
    match r with
    | None => mret None
    | Some n =>
      r ← sys_argptr 1 n;
      match r with
      | None => mret None
      | Some p => mret (Some (f, p, n))
      end
    end
  end.

Definition sys_read : K Z :=
  r ← arg_rw;
  match r with
  | None => mret (-1)%Z
  | Some (f, p, n) =>
    r ← with_wakes (kfiles (fileread f n));
    to_user p r.2;;
    mret r.1
  end.

Definition sys_write : K Z :=
  r ← arg_rw;
  match r with
  | None => mret (-1)%Z
  | Some (f, p, n) =>
    bs ← user_bytes p n;
    with_wakes (kfiles (filewrite f bs n))
  end.

Definition sys_close : K Z :=
  r ← argfd 0;
  match r with
  | None => mret (-1)%Z
  | Some (fd, f) =>
    set_fd fd None;;
    with_wakes (kfiles (fileclose f));;
    mret 0%Z
  end.

Definition sys_fstat : K Z :=
  r ← argfd 0;
  match r with
  | None => mret (-1)%Z
  | Some (_, f) =>
    r ← sys_argptr 1 STATSZ;
    match r with
    | None => mret (-1)%Z
    | Some a =>
      r ← kfiles (filestat f);
      match r.2 with Some st => to_user a (stat_enc st) | None => mret tt end;;
      mret r.1
    end
  end.

(** The calls of fs.c, for the current process and its directory. *)
Definition k_begin_op : K unit := kfs (disk begin_op).
Definition k_end_op : K unit := kfs (disk end_op).
Definition k_ilock (ip : nat) : K unit := kfs (ilock pid ip).
Definition k_iunlock (ip : nat) : K unit := kfs (iunlock ip).
Definition k_iput (ip : nat) : K unit := kfs (iput pid ip).
Definition k_iunlockput (ip : nat) : K unit := kfs (iunlockput pid ip).
Definition k_geti (ip : nat) : K inode := kfs (geti ip).
Definition k_updi (ip : nat) (f : inode → inode) : K unit := kfs (updi ip f).
Definition k_iupdate (ip : nat) : K unit := kfs (iupdate ip).
Definition k_namei (path : list Z) : K (option nat) :=
  p ← myproc;
  kfs (namei pid devsw_read (default NULLINODE (p_cwd p)) path).
Definition k_nameiparent (path : list Z) : K (option nat * list Z) :=
  p ← myproc;
  kfs (nameiparent pid devsw_read (default NULLINODE (p_cwd p)) path (replicate DIRSIZ 0%Z)).
Definition k_dirlink (dp : nat) (name : list Z) (inum : Z) : K Z :=
  kfs (dirlink pid devsw_read devsw_write dp name inum).
Definition fail_op : K Z := k_end_op;; mret (-1)%Z.

(** Create the path new as a link to the same inode as old. *)
Definition link_bad (ip : nat) : K Z :=
  k_ilock ip;;
  k_updi ip (λ x, set_inlink (s16 (i_nlink x - 1)) x);;
  k_iupdate ip;;
  k_iunlockput ip;;
  fail_op.

Definition sys_link : K Z :=
  old ← sys_argstr 0;
  match old with
  | None => mret (-1)%Z
  | Some old =>
    new ← sys_argstr 1;
    match new with
    | None => mret (-1)%Z
    | Some new =>
      k_begin_op;;
      r ← k_namei old;
      match r with
      | None => fail_op
      | Some ip =>
        k_ilock ip;;
        x ← k_geti ip;
        if decide (i_type x = T_DIR) then k_iunlockput ip;; fail_op else
        k_updi ip (λ x, set_inlink (s16 (i_nlink x + 1)) x);;
        k_iupdate ip;;
        k_iunlock ip;;
        r ← k_nameiparent new;
        match r with
        | (None, _) => link_bad ip
        | (Some dp, name) =>
          k_ilock dp;;
          d ← k_geti dp;
          x ← k_geti ip;
          l ← (if decide (i_dev d ≠ i_dev x) then mret (-1)%Z else k_dirlink dp name (i_inum x));
          if decide (l < 0)%Z then k_iunlockput dp;; link_bad ip else
          k_iunlockput dp;;
          k_iput ip;;
          k_end_op;;
          mret 0%Z
        end
      end
    end
  end.

(** Is the directory dp empty except for "." and ".." ? *)
Fixpoint isdirempty_loop (fuel : nat) (dp : nat) (off : Z) : K bool :=
  match fuel with
  | O => λ _, Diverge
  | S fuel =>
    x ← k_geti dp;
    if decide (off < i_size x)%Z then
      r ← kfs (readi devsw_read dp off DIRENTSZ);
      assert_or_panic (r.1 =? DIRENTSZ)%Z "isdirempty: readi";;
      if decide (de_inum r.2 ≠ 0%Z) then mret false else isdirempty_loop fuel dp (off + DIRENTSZ)
    else mret true
  end.
Definition isdirempty (dp : nat) : K bool :=
  x ← k_geti dp;
  isdirempty_loop (dir_fuel (i_size x)) dp (2 * DIRENTSZ).

Definition unlink_bad (dp : nat) : K Z := k_iunlockput dp;; fail_op.

(** The entry at [off] of [dp] is cleared; [ip] loses a link. *)
Definition unlink_entry (dp ip : nat) (off : Z) : K Z :=
  c ← kfs (writei devsw_write dp (replicate (Z.to_nat DIRENTSZ) 0%Z) off DIRENTSZ);
  assert_or_panic (c =? DIRENTSZ)%Z "unlink: writei";;
  x ← k_geti ip;
  (if decide (i_type x = T_DIR) then
    k_updi dp (λ x, set_inlink (s16 (i_nlink x - 1)) x);;
    k_iupdate dp
  else mret tt);;
  k_iunlockput dp;;
  k_updi ip (λ x, set_inlink (s16 (i_nlink x - 1)) x);;
  k_iupdate ip;;
  k_iunlockput ip;;
  k_end_op;;
  mret 0%Z.

Definition sys_unlink : K Z :=
  path ← sys_argstr 0;
  match path with
  | None => mret (-1)%Z
  | Some path =>
    k_begin_op;;
    r ← k_nameiparent path;
    match r with
    | (None, _) => fail_op
    | (Some dp, name) =>
      k_ilock dp;;
      if decide (namecmp name dot = 0 ∨ namecmp name dotdot = 0)%Z then unlink_bad dp else
      r ← kfs (dirlookup devsw_read dp name);
      match r with
      | None => unlink_bad dp
      | Some (ip, off) =>
        k_ilock ip;;
        x ← k_geti ip;
        assert_or_panic (negb (i_nlink x <? 1)%Z) "unlink: nlink < 1";;
        full ← (if decide (i_type x = T_DIR) then e ← isdirempty ip; mret (negb e) else mret false);
        if (full : bool) then k_iunlockput ip;; unlink_bad dp else unlink_entry dp ip off
      end
    end
  end.

(** A new inode, named in [dp]; both are locked at the start. *)
Definition create_in (dp ip : nat) (name : list Z) (type major minor : Z) : K nat :=
  k_updi ip (λ x, set_inlink 1 (set_iminor minor (set_imajor major x)));;
  k_iupdate ip;;
  x ← k_geti ip;
  d ← k_geti dp;
  (if decide (type = T_DIR) then
    k_updi dp (λ d, set_inlink (s16 (i_nlink d + 1)) d);;
    k_iupdate dp;;
    r ← k_dirlink ip dot (i_inum x);
    r ← (if decide (r < 0)%Z then mret r else k_dirlink ip dotdot (i_inum d));
    assert_or_panic (negb (r <? 0)%Z) "create dots"
  else mret tt);;
  r ← k_dirlink dp name (i_inum x);
  assert_or_panic (negb (r <? 0)%Z) "create: dirlink";;
  k_iunlockput dp;;
  mret ip.

(** Returns the inode locked. *)
Definition create (path : list Z) (type major minor : Z) : K (option nat) :=
  r ← k_nameiparent path;
  match r with
  | (None, _) => mret None
  | (Some dp, name) =>
    k_ilock dp;;
    r ← kfs (dirlookup devsw_read dp name);
    match r with
    | Some (ip, _) =>
      k_iunlockput dp;;
      k_ilock ip;;
      x ← k_geti ip;
      if decide (type = T_FILE ∧ i_type x = T_FILE) then mret (Some ip)
      else k_iunlockput ip;; mret None
    | None =>
      d ← k_geti dp;
      ip ← kfs (ialloc (i_dev d) type);
      k_ilock ip;;
      ip ← create_in dp ip name type major minor;
      mret (Some ip)
    end
  end.

(** The inode that [open] opens, locked; nothing if it fails. *)
Definition open_inode (path : list Z) (omode : Z) : K (option nat) :=
  if decide (Z.land omode O_CREATE ≠ 0%Z) then create path T_FILE 0 0 else
  r ← k_namei path;
  match r with
  | None => mret None
  | Some ip =>
    k_ilock ip;;
    x ← k_geti ip;
    if decide (i_type x = T_DIR ∧ omode ≠ O_RDONLY) then k_iunlockput ip;; mret None else mret (Some ip)
  end.

Definition open_file (ip : nat) (omode : Z) (f : file) : file :=
  File FD_INODE (f_ref f) (if decide (Z.land omode O_WRONLY = 0%Z) then 1 else 0)%Z
    (if decide (Z.land omode O_WRONLY ≠ 0 ∨ Z.land omode O_RDWR ≠ 0)%Z then 1 else 0)%Z (f_pipe f) ip 0.

(** A file and a descriptor for it, or neither. *)
Definition alloc_fd_file : K (option (nat * nat)) :=
  r ← kfiles filealloc;
  match r with
  | None => mret None
  | Some f =>
    r ← fdalloc f;
    match r with
    | None => kfiles (fileclose f);; mret None
    | Some fd => mret (Some (f, fd))
    end
  end.

Definition sys_open : K Z :=
  path ← sys_argstr 0;
  match path with
  | None => mret (-1)%Z
  | Some path =>
    omode ← sys_argint 1;
    match omode with
    | None => mret (-1)%Z
    | Some omode =>
      k_begin_op;;
      r ← open_inode path omode;
      match r with
      | None => fail_op
      | Some ip =>
        r ← alloc_fd_file;
        match r with
        | None => k_iunlockput ip;; fail_op
        | Some (f, fd) =>
          k_iunlock ip;;
          k_end_op;;
          kfiles (updf f (open_file ip omode));;
          mret (Z.of_nat fd)
        end
      end
    end
  end.

(** The end of mkdir and mknod. *)
Definition close_created (r : option nat) : K Z :=
  match r with
  | None => fail_op
  | Some ip => k_iunlockput ip;; k_end_op;; mret 0%Z
  end.

Definition sys_mkdir : K Z :=
  k_begin_op;;
  path ← sys_argstr 0;
  r ← match path with None => mret None | Some path => create path T_DIR 0 0 end;
  close_created r.

Definition sys_mknod : K Z :=
  k_begin_op;;
  path ← sys_argstr 0;
  major ← sys_argint 1;
  minor ← sys_argint 2;
  r ← match path, major, minor with
      | Some path, Some major, Some minor => create path T_DEV (s16 major) (s16 minor)
      | _, _, _ => mret None
      end;
  close_created r.

Definition sys_chdir : K Z :=
  p ← myproc;
  k_begin_op;;
  path ← sys_argstr 0;
  r ← match path with None => mret None | Some path => k_namei path end;
  match r with
  | None => fail_op
  | Some ip =>
    k_ilock ip;;
    x ← k_geti ip;
    if decide (i_type x ≠ T_DIR) then k_iunlockput ip;; fail_op else
    k_iunlock ip;;
    k_iput (default NULLINODE (p_cwd p));;
    k_end_op;;
    updp cur (set_cwd (Some ip));;
    mret 0%Z
  end.

Definition sys_pipe : K Z :=
  r ← sys_argptr 0 8;
  match r with
  | None => mret (-1)%Z
  | Some a =>
    r ← kfiles pipealloc;
    match r with
    | None => mret (-1)%Z
    | Some (rf, wf) =>
      r0 ← fdalloc rf;
      match r0 with
      | None => with_wakes (kfiles (fileclose rf);; kfiles (fileclose wf));; mret (-1)%Z
      | Some fd0 =>
        r1 ← fdalloc wf;
        match r1 with
        | None =>
          set_fd fd0 None;;
          with_wakes (kfiles (fileclose rf);; kfiles (fileclose wf));;
          mret (-1)%Z
        | Some fd1 =>
          to_user a (le_enc 4 (Z.of_nat fd0) ++ le_enc 4 (Z.of_nat fd1));;
          mret 0%Z
        end
      end
    end
  end.

End sysfile.
