(* ===== verification/Exec.v ===== *)
(** * Running programs (exec.c, elf.h, sysfile.c [sys_exec], vm.c [switchuvm])

    The arguments are the strings that [argv] points to, without their NUL. *)

From S2P Require Import Prelude Params Sleeplock Cache Log Journal Super CString Fs Spinlock Kalloc Vm Proc Pipe File Syscall Kernel Sysfile.

(** ** ELF files *)

Definition ELF_MAGIC : Z := 0x464C457F.
Definition ELF_PROG_LOAD : Z := 1.

(** The fields of a file header and of a program section header that are used. *)
Record elfhdr := Elfhdr { eh_magic : Z; eh_entry : Z; eh_phoff : Z; eh_phnum : Z }.
Record proghdr := Proghdr { ph_type : Z; ph_off : Z; ph_vaddr : Z; ph_filesz : Z; ph_memsz : Z }.

Definition ELFHDRSZ : Z := 52.
Definition PROGHDRSZ : Z := 32.
Definition elfhdr_dec (bs : list Z) : elfhdr := Elfhdr (get32 0 bs) (get32 24 bs) (get32 28 bs) (get16 44 bs).
Definition proghdr_dec (bs : list Z) : proghdr :=
  Proghdr (get32 0 bs) (get32 4 bs) (get32 8 bs) (get32 16 bs) (get32 20 bs).

(** The part of a path after its last slash. *)
Fixpoint last_elem (path last : list Z) : list Z :=
  match path with
  | [] => last
  | c :: s => last_elem s (if decide (c = slash) then s else last)
  end.

Definition set_entry (eip esp : Z) (t : trapframe) : trapframe :=
  Trapframe (tf_edi t) (tf_esi t) (tf_ebp t) (tf_oesp t) (tf_ebx t) (tf_edx t) (tf_ecx t) (tf_eax t)
    (tf_gs t) (tf_fs t) (tf_es t) (tf_ds t) (tf_trapno t) (tf_err t) eip (tf_cs t) (tf_eflags t) esp (tf_ss t).

(** Push the argument strings: the stack pointer and the addresses of the strings. *)
Fixpoint push_args (null pgdir sp : Z) (argc : nat) (argv : list (list Z)) (ptrs : list Z) :
    M kmem (option (Z * list Z)) :=
  match argv with
  | [] => mret (Some (sp, ptrs))
  | a :: argv =>
    if decide (MAXARG ≤ argc) then mret None else
    let len := (Z.of_nat (length a) + 1)%Z in
    let sp := Z.land (u32 (sp - len)) (u32 (Z.lnot 3)) in
    r ← copyout null pgdir sp (a ++ [0%Z]) len;
    if decide (r < 0)%Z then mret None else push_args null pgdir sp (S argc) argv (ptrs ++ [sp])
  end.

(** The words below the strings: return PC, argc, argv and the pointers. *)
Definition ustack (sp : Z) (ptrs : list Z) : list Z :=
  let argc := Z.of_nat (length ptrs) in
  [0xffffffff; argc; u32 (sp - (argc + 1) * 4)]%Z ++ ptrs ++ [0%Z].

Section exec.
Context {St : Type} `{BlockCache St}.
Variables kend kdata : Z.
Variable devsw_read : Z → option (nat → Z → M (fstate (lstate St)) (Z * list Z)).
Variable cur : nat.
Variable pid : Z.

Abbreviation K := (M (kstate St)).

(** A step on the file system and the memory together. *)
Definition kload {A} (m : M (fstate (lstate St) * kmem) A) : K A :=
  zoom (λ s, (ke_fs (ft_env (ps_env s)), ke_mem (ft_env (ps_env s))))
    (λ x s, let e := ft_env (ps_env s) in
      PState (ps_procs s) (ps_initproc s) (ps_nextpid s)
        (Ftable (ft_file (ps_env s)) (Kenv x.1 (ke_pipes e) x.2 (ke_wake e)))) m.

(** Switch TSS and h/w page table to correspond to process p: its checks. *)
Definition switchuvm (p : nat) : K unit :=
  q ← getp p;
  assert_or_panic (negb (p_kstack q =? 0)%Z) "switchuvm: no kstack";;
  assert_or_panic (negb (p_pgdir q =? 0)%Z) "switchuvm: no pgdir".

(** The clean-up at [bad]. *)
Definition exec_bad (pgdir : Z) (ip : option nat) : K Z :=
  (if decide (pgdir ≠ 0%Z) then kmemory (freevm kend pgdir) else mret tt);;
  match ip with
  | Some ip => k_iunlockput pid ip;; k_end_op
  | None => mret tt
  end;;
  mret (-1)%Z.

(** Load one program section: the new size, or nothing. *)
Definition load_segment (pgdir : Z) (ip : nat) (ph : proghdr) (sz : Z) : K (option Z) :=
  if decide (ph_memsz ph < ph_filesz ph)%Z then mret None else
  if decide (u32 (ph_vaddr ph + ph_memsz ph) < ph_vaddr ph)%Z then mret None else
  sz ← kmemory (allocuvm kend pgdir sz (u32 (ph_vaddr ph + ph_memsz ph)));
  if decide (sz = 0%Z) then mret None else
  if decide (ph_vaddr ph `mod` PGSIZE ≠ 0)%Z then mret None else
  r ← kload (loaduvm (readi devsw_read ip) pgdir (ph_vaddr ph) (ph_off ph) (ph_filesz ph));
  if decide (r < 0)%Z then mret None else mret (Some sz).

(** The loop over the [n] program headers from offset [off] on. *)
Fixpoint load_program (n : nat) (pgdir : Z) (ip : nat) (off sz : Z) : K (option Z) :=
  match n with
  | O => mret (Some sz)
  | S n =>
    r ← kfs (readi devsw_read ip off PROGHDRSZ);
    if decide (r.1 ≠ PROGHDRSZ) then mret None else
    let ph := proghdr_dec r.2 in
    if decide (ph_type ph ≠ ELF_PROG_LOAD) then load_program n pgdir ip (u32 (off + PROGHDRSZ)) sz else
    r ← load_segment pgdir ip ph sz;
    match r with
    | None => mret None
    | Some sz => load_program n pgdir ip (u32 (off + PROGHDRSZ)) sz
    end
  end.

(** The new stack with the arguments: the stack pointer. *)
Definition build_stack (null pgdir sz : Z) (argv : list (list Z)) : K (option Z) :=
  kmemory (clearpteu pgdir (u32 (sz - 2 * PGSIZE)));;
  r ← kmemory (push_args null pgdir sz 0 argv []);
  match r with
  | None => mret None
  | Some (sp, ptrs) =>
    let ws := ustack sp ptrs in
    let len := (4 * Z.of_nat (length ws))%Z in
    let sp := u32 (sp - len) in
    r ← kmemory (copyout null pgdir sp (mjoin (le_enc 4 <$> ws)) len);
    if decide (r < 0)%Z then mret None else mret (Some sp)
  end.

(** Commit to the user image. *)
Definition exec_commit (path : list Z) (entry pgdir sz sp : Z) : K Z :=
  updp cur (λ p, set_name (safe_name 16 (last_elem path path) (p_name p)) p);;
  p ← getp cur;
  updp cur (λ p, set_tf (set_entry entry sp (p_tf p)) (set_mem sz pgdir p));;
  switchuvm cur;;
  kmemory (freevm kend (p_pgdir p));;
  mret 0%Z.

Definition exec (path : list Z) (argv : list (list Z)) : K Z :=
  null ← with_user cur (λ _ ub _, uword ub 0);
  k_begin_op;;
  r ← k_namei devsw_read cur pid path;
  match r with
  | None => k_end_op;; mret (-1)%Z
  | Some ip =>
    k_ilock pid ip;;
    r ← kfs (readi devsw_read ip 0 ELFHDRSZ);
    let elf := elfhdr_dec r.2 in
    if decide (r.1 ≠ ELFHDRSZ) then exec_bad 0 (Some ip) else
    if decide (eh_magic elf ≠ ELF_MAGIC) then exec_bad 0 (Some ip) else
    pgdir ← kmemory (setupkvm kend kdata);
    if decide (pgdir = 0%Z) then exec_bad 0 (Some ip) else
    r ← load_program (Z.to_nat (eh_phnum elf)) pgdir ip (eh_phoff elf) 0;
    match r with
    | None => exec_bad pgdir (Some ip)
    | Some sz =>
      k_iunlockput pid ip;;
      k_end_op;;
      let sz := PGROUNDUP sz in
      sz ← kmemory (allocuvm kend pgdir sz (u32 (sz + 2 * PGSIZE)));
      if decide (sz = 0%Z) then exec_bad pgdir None else
      r ← build_stack null pgdir sz argv;
      match r with
      | None => exec_bad pgdir None
      | Some sp => exec_commit path (eh_entry elf) pgdir sz sp
      end
    end
  end.

(** The argument vector at [uargv], from entry [i] on. *)
Fixpoint fetch_argv (fuel : nat) (sz : Z) (ub : Z → Z) (uargv i : Z) : option (list (list Z)) :=
  match fuel with
  | O => None
  | S fuel =>
    uarg ← fetchint sz ub (u32 (uargv + 4 * i));
    if decide (u32 uarg = 0%Z) then Some [] else
    '(p, len) ← fetchstr sz ub (u32 uarg);
    rest ← fetch_argv fuel sz ub uargv (i + 1);
    Some (ustring ub p len :: rest)
  end.

Definition sys_exec : K Z :=
  path ← sys_argstr cur 0;
  uargv ← sys_argint cur 1;
  match path, uargv with
  | Some path, Some uargv =>
    argv ← with_user cur (λ sz ub _, fetch_argv MAXARG sz ub (u32 uargv) 0);
    match argv with
    | None => mret (-1)%Z
    | Some argv => exec path argv
    end
  | _, _ => mret (-1)%Z
  end.

End exec.
