(* ===== verification/Trap.v ===== *)
(** * Traps and system call dispatch (trap.c, syscall.c [syscall], sysproc.c)

    [machine] is the kernel's state with the clock and the devices, which are
    reached through an interface. A handler's result is the value of [%eax], or
    nothing when the process does not return from it: it has exited or sleeps. *)

From S2P Require Import Prelude Params Sleeplock Cache Log Journal Super CString Fs Spinlock Kalloc Vm Proc Pipe File Syscall Kernel Sysfile Exec.

Definition T_SYSCALL : Z := 64.
Definition T_IRQ0 : Z := 32.
Definition IRQ_TIMER : Z := 0.
Definition IRQ_KBD : Z := 1.
Definition IRQ_COM1 : Z := 4.
Definition IRQ_IDE : Z := 14.
Definition IRQ_SPURIOUS : Z := 31.
Definition DPL_USER : Z := 3.
Definition TPS : Z := 1000.
Definition SCHED_INTERVAL : Z := TPS / 100.

(** Interrupt handlers of the drivers: they return the channels they wake. *)
Class DevEnv (D : Type) := {
  ideintr : M D (list chan);
  kbdintr : M D (list chan);
  uartintr : M D (list chan);
  lapiceoi : M D unit;
  outw : Z → Z → M D unit
}.

Record machine (St D : Type) := Machine { m_kernel : kstate St; m_ticks : Z; m_dev : D }.
Arguments Machine {St D} _ _ _.
Arguments m_kernel {St D} _.
Arguments m_ticks {St D} _.
Arguments m_dev {St D} _.

Section trap.
Context {St D : Type} `{BlockCache St} `{DevEnv D}.
Variables kend kdata forkret : Z.
Variable devsw_read : Z → option (nat → Z → M (fstate (lstate St)) (Z * list Z)).
Variable devsw_write : Z → option (nat → list Z → Z → M (fstate (lstate St)) Z).

Abbreviation X := (M (machine St D)).

Definition kern {A} (m : M (kstate St) A) : X A := zoom m_kernel (λ k s, Machine k (m_ticks s) (m_dev s)) m.
Definition dev {A} (m : M D A) : X A := zoom m_dev (λ d s, Machine (m_kernel s) (m_ticks s) d) m.
Definition ticks : X Z := λ s, Done (m_ticks s) s.

(** ** The process system calls, for the process [cur] *)

Section calls.
Variable cur : nat.
Variables pid killed : Z.

#[local] Instance trap_proc_env : ProcEnv (ftable (kenv St)) :=
  kernel_proc_env kend kdata devsw_read devsw_write pid killed.

Definition sys_fork : X (option Z) := r ← kern (fork forkret cur); mret (Some r).
Definition sys_exit : X (option Z) := kern (with_wakes (exit syscall_cpu cur));; mret None.
Definition sys_wait : X (option Z) := kern (c ← acquire_ptable syscall_cpu; wait_scan c cur).
Definition sys_kill : X (option Z) :=
  r ← kern (sys_argint cur 0);
  match r with
  | None => mret (Some (-1)%Z)
  | Some p => r ← kern (kill p); mret (Some r)
  end.
Definition sys_getpid : X (option Z) := p ← kern (getp cur); mret (Some (p_pid p)).
Definition sys_sbrk : X (option Z) :=
  r ← kern (sys_argint cur 0);
  match r with
  | None => mret (Some (-1)%Z)
  | Some n =>
    p ← kern (getp cur);
    r ← kern (growproc cur n);
    mret (Some (if decide (r < 0)%Z then (-1)%Z else s32 (p_sz p)))
  end.

(** One round of [sys_sleep]'s loop. [n] is converted to unsigned. The clock may
    tick between the test and [sleep], which then waits for the next tick: here
    the round is one step. *)
Definition sys_sleep_loop (ticks0 n : Z) : X (option Z) :=
  t ← ticks;
  if decide (u32 (t - ticks0) < u32 n)%Z then
    p ← kern (getp cur);
    if decide (p_killed p ≠ 0%Z) then mret (Some (-1)%Z)
    else kern (sleep (CpuState 1 false false) OtherLock cur ChTicks);; mret None
  else mret (Some 0%Z).
Definition sys_sleep : X (option Z) :=
  r ← kern (sys_argint cur 0);
  match r with
  | None => mret (Some (-1)%Z)
  | Some n => t ← ticks; sys_sleep_loop t n
  end.
Definition sys_uptime : X (option Z) := t ← ticks; mret (Some (s32 t)).
(** Turn off the computer. *)
Definition sys_halt : X (option Z) := dev (outw 0x604 0x2000);; mret (Some 0%Z).

Definition returns (m : M (kstate St) Z) : X (option Z) := r ← kern m; mret (Some r).

(** The functions of the table [syscalls]. *)
Definition run_syscall (n : sysno) : X (option Z) :=
  match n with
  | SYS_fork => sys_fork
  | SYS_exit => sys_exit
  | SYS_wait => sys_wait
  | SYS_pipe => returns (sys_pipe kend devsw_read devsw_write cur pid killed)
  | SYS_read => returns (sys_read kend devsw_read devsw_write cur pid killed)
  | SYS_kill => sys_kill
  | SYS_exec => returns (sys_exec kend kdata devsw_read cur pid)
  | SYS_fstat => returns (sys_fstat kend devsw_read devsw_write cur pid killed)
  | SYS_chdir => returns (sys_chdir devsw_read cur pid)
  | SYS_dup => returns (sys_dup cur)
  | SYS_getpid => sys_getpid
  | SYS_sbrk => sys_sbrk
  | SYS_sleep => sys_sleep
  | SYS_uptime => sys_uptime
  | SYS_open => returns (sys_open kend devsw_read devsw_write cur pid killed)
  | SYS_write => returns (sys_write kend devsw_read devsw_write cur pid killed)
  | SYS_mknod => returns (sys_mknod devsw_read devsw_write cur pid)
  | SYS_unlink => returns (sys_unlink devsw_read devsw_write cur pid)
  | SYS_link => returns (sys_link devsw_read devsw_write cur pid)
  | SYS_mkdir => returns (sys_mkdir devsw_read devsw_write cur pid)
  | SYS_close => returns (sys_close kend devsw_read devsw_write cur pid killed)
  | SYS_halt => sys_halt
  end.

Definition set_result (v : Z) : X unit := kern (updp cur (λ p, set_tf (set_eax (u32 v) (p_tf p)) p)).

(** Whether the process returns from the call. *)
Definition syscall : X bool :=
  p ← kern (getp cur);
  match syscall_lookup (s32 (tf_eax (p_tf p))) with
  | Some n =>
    r ← run_syscall n;
    match r with
    | Some v => set_result v;; mret true
    | None => mret false
    end
  | None => set_result (-1);; mret true
  end.

End calls.

(** ** Traps *)

(** The process exits if it has been killed; whether it did. *)
Definition exit_if_killed (cur : nat) : X bool :=
  p ← kern (getp cur);
  if decide (p_killed p ≠ 0%Z) then sys_exit cur (p_pid p) (p_killed p);; mret true else mret false.

(** The trap frame of the system call is already the process's. Whether the
    process returns from the trap. *)
Definition trap_syscall (cur : nat) : X bool :=
  gone ← exit_if_killed cur;
  if (gone : bool) then mret false else
  p ← kern (getp cur);
  back ← syscall cur (p_pid p) (p_killed p);
  if negb back then mret false else
  gone ← exit_if_killed cur;
  mret (negb gone).

(** The interrupts and exceptions. *)
Definition trap_switch (cur : option nat) (cpuid : Z) (tf : trapframe) : X unit :=
  let n := tf_trapno tf in
  let wake (l : list chan) : X unit := kern (mfor l (λ c, wakeup c)) in
  if decide (n = T_IRQ0 + IRQ_TIMER)%Z then
    (if decide (cpuid = 0%Z) then
      mmodify (λ s, Machine (m_kernel s) (u32 (m_ticks s + 1)) (m_dev s));;
      kern (wakeup ChTicks)
    else mret tt);;
    dev lapiceoi
  else if decide (n = T_IRQ0 + IRQ_IDE)%Z then l ← dev ideintr; wake l;; dev lapiceoi
  else if decide (n = T_IRQ0 + IRQ_IDE + 1)%Z then mret tt
  else if decide (n = T_IRQ0 + IRQ_KBD)%Z then l ← dev kbdintr; wake l;; dev lapiceoi
  else if decide (n = T_IRQ0 + IRQ_COM1)%Z then l ← dev uartintr; wake l;; dev lapiceoi
  else if decide (n = T_IRQ0 + 7 ∨ n = T_IRQ0 + IRQ_SPURIOUS)%Z then dev lapiceoi
  else match cur with
  | Some c =>
    if decide (Z.land (tf_cs tf) 3 = 0%Z) then panic "trap"
    else kern (updp c (set_killed 1))
  | None => panic "trap"
  end.

(** The last check, after a [yield] when the process runs again. *)
Definition trap_end (c : nat) (tf : trapframe) : X bool :=
  gone ← (if bool_decide (Z.land (tf_cs tf) 3 = DPL_USER) then exit_if_killed c else mret false);
  mret (negb gone).

(** [cur] is the process that the CPU was running. Whether it goes on now; after
    a [yield] it goes on with [trap_end]. *)
Definition trap (cur : option nat) (cpuid : Z) (tf : trapframe) : X bool :=
  match cur with
  | Some c =>
    if decide (tf_trapno tf = T_SYSCALL) then
      kern (updp c (set_tf tf));; trap_syscall c
    else
    trap_switch cur cpuid tf;;
    let user := bool_decide (Z.land (tf_cs tf) 3 = DPL_USER) in
    gone ← (if user then exit_if_killed c else mret false);
    if (gone : bool) then mret false else
    p ← kern (getp c);
    t ← ticks;
    if decide (p_state p = RUNNING ∧ tf_trapno tf = (T_IRQ0 + IRQ_TIMER)%Z ∧ (t `mod` SCHED_INTERVAL = 0)%Z)
    then kern (yield trap_cpu c);; mret false
    else trap_end c tf
  | None =>
    if decide (tf_trapno tf = T_SYSCALL) then panic "trap" else
    trap_switch None cpuid tf;; mret true
  end.

End trap.
