(* ===== verification/FdRef.v ===== *)
(** * File descriptors and file references

    The composition of proc.c, sysfile.c, exec.c, trap.c and file.c: the
    reference counts of file.c's table are the descriptors of the processes. A
    computation is [calm] if it changes neither; the others are specified with
    partial-correctness triples over an invariant with two lists of files, those
    that local variables hold and those whose descriptor is not counted yet. *)

From S2P Require Import Prelude Params Sleeplock Cache Bio Log Journal Super CString Fs Spinlock Kalloc Vm Proc Pipe File Syscall Kernel Sysfile Exec Trap.

(** ** Triples *)

Definition triple {S A} (P : S → Prop) (m : M S A) (Q : A → S → Prop) : Prop :=
  ∀ s a s', P s → m s = Done a s' → Q a s'.

Section triples.
Context {S : Type}.

Lemma triple_ret {A} (P : S → Prop) (a : A) Q : (∀ s, P s → Q a s) → triple P (mret a) Q.
Proof. intros Hq s b s' Hs [= <- <-]. auto. Qed.

Lemma triple_bind {A B} P (m : M S A) (k : A → M S B) R Q :
  triple P m R → (∀ a, triple (R a) (k a) Q) → triple P (m ≫= k) Q.
Proof. intros Hm Hk s b s' Hs (a & s1 & H1 & H2)%bind_done. by eapply Hk; [eapply Hm|]. Qed.

Lemma triple_pre {A} (P P' : S → Prop) (m : M S A) Q : triple P' m Q → (∀ s, P s → P' s) → triple P m Q.
Proof. intros Hm HP s a s' Hs Hr. eapply Hm, Hr. auto. Qed.

Lemma triple_post {A} (P : S → Prop) (m : M S A) Q Q' : triple P m Q' → (∀ a s, Q' a s → Q a s) → triple P m Q.
Proof. intros Hm HQ s a s' Hs Hr. eapply HQ, Hm, Hr. auto. Qed.

Lemma triple_assert (P : S → Prop) b msg (Q : unit → S → Prop) :
  (∀ s, b = true → P s → Q tt s) → triple P (assert_or_panic b msg) Q.
Proof. intros Hq s [] s' Hs [Hb ->]%assert_done. auto. Qed.

Lemma triple_modify (P : S → Prop) f (Q : unit → S → Prop) :
  (∀ s, P s → Q tt (f s)) → triple P (mmodify f) Q.
Proof. intros Hq s a s' Hs [= <- <-]. auto. Qed.

Lemma triple_panic {A} (P : S → Prop) msg (Q : A → S → Prop) : triple P (panic msg) Q.
Proof. by intros s a s' _ ?. Qed.

Lemma triple_zoom {T A} (get : T → S) put (m : M S A) (P : T → Prop) Q :
  (∀ t, P t → triple (λ s, s = get t) m (λ a s', Q a (put s' t))) → triple P (zoom get put m) Q.
Proof.
  intros Hm t a t' Ht Hr. unfold zoom in Hr. destruct (m (get t)) as [b s'| | |] eqn:Hrun; simplify_eq. by eapply Hm.
Qed.

Lemma triple_mfor {A} (P : S → Prop) (l : list A) f :
  (∀ x, triple P (f x) (λ _, P)) → triple P (mfor l f) (λ _, P).
Proof.
  intros Hf. induction l as [|x l IH]; simpl; [by apply triple_ret|]. eapply triple_bind; [apply Hf|]. intros []. done.
Qed.
End triples.

(** ** The descriptors *)

Definition own (p : proc) : list nat := p_ofile p ≫= option_list.
Definition fds (l : list proc) : list nat := l ≫= own.

Lemma fds_cons p l : fds (p :: l) = own p ++ fds l.
Proof. done. Qed.

(** The process has closed its descriptors. *)
Definition closed (p : proc) : Prop := p_state p = UNUSED ∨ p_state p = ZOMBIE.

Record procs_wf (l : list proc) : Prop := {
  pw_len : length l = NPROC;
  pw_ofile : ∀ p, p ∈ l → length (p_ofile p) = NOFILE;
  pw_closed : ∀ p, p ∈ l → closed p → own p = []
}.

Section fdref.
Context {St : Type}.
Implicit Types s : kstate St.

(** Every descriptor is counted but those of [D], and so are the files [X]. *)
Definition fd_inv (D X : list nat) (s : kstate St) : Prop :=
  procs_wf (ps_procs s) ∧ ∃ R, ref_inv (ps_env s, R) ∧ D ++ R ≡ₚ X ++ fds (ps_procs s).

Lemma fd_inv_cancel f D X s : fd_inv (f :: D) (f :: X) s ↔ fd_inv D X s.
Proof.
  split; intros (Hw & R & Hr & Hp); (split; [done|]); exists R; (split; [done|]); simpl in *.
  - by apply Permutation.Permutation_cons_inv in Hp.
  - by constructor.
Qed.

(** *** Calm computations *)

Definition same_fds (p p' : proc) : Prop := p_ofile p' = p_ofile p ∧ (closed p' → closed p).

Record calm s s' : Prop := {
  calm_procs : Forall2 same_fds (ps_procs s) (ps_procs s');
  calm_files : f_ref <$> ft_file (ps_env s') = f_ref <$> ft_file (ps_env s)
}.

#[export] Instance same_fds_refl : Reflexive same_fds.
Proof. by intros p. Qed.
#[export] Instance same_fds_trans : Transitive same_fds.
Proof. intros p q r [H1 H2] [H3 H4]. split; [by rewrite H3|auto]. Qed.
#[export] Instance calm_refl : Reflexive calm.
Proof. intros s. by constructor. Qed.
#[export] Instance calm_trans : Transitive calm.
Proof. intros s1 s2 s3 [H1 H2] [H3 H4]. constructor; [by etrans|by rewrite H4]. Qed.

Lemma fds_same l l' : Forall2 same_fds l l' → fds l' = fds l.
Proof.
  induction 1 as [|p p' l l' [Ho _] _ IH]; [done|]. rewrite !fds_cons, IH. unfold own. by rewrite Ho.
Qed.

Lemma procs_wf_same l l' : Forall2 same_fds l l' → procs_wf l → procs_wf l'.
Proof.
  intros Hl [H1 H2 H3]. constructor.
  - by rewrite <-(Forall2_length _ _ _ Hl).
  - intros p' (i & Hi)%list_elem_of_lookup. destruct (Forall2_lookup_r _ _ _ _ _ Hl Hi) as (p & Hp & Ho & _). rewrite Ho.
    by eapply H2, list_elem_of_lookup_2.
  - intros p' (i & Hi)%list_elem_of_lookup Hc. destruct (Forall2_lookup_r _ _ _ _ _ Hl Hi) as (p & Hp & Ho & Hcl).
    unfold own. rewrite Ho. apply H3; [by eapply list_elem_of_lookup_2|auto].
Qed.

Lemma ref_inv_refs (t t' : ftable (kenv St)) R : f_ref <$> ft_file t' = f_ref <$> ft_file t → ref_inv (t, R) → ref_inv (t', R).
Proof.
  intros Hf [H1 H2]. simpl in *. split; simpl.
  - intros i x Hx. assert (Hi : (f_ref <$> ft_file t') !! i = Some (f_ref x)) by by rewrite list_lookup_fmap, Hx.
    rewrite Hf, list_lookup_fmap in Hi. destruct (ft_file t !! i) as [y|] eqn:Hy; [|done]. injection Hi as <-. by apply H1.
  - intros f Hin. apply (f_equal length) in Hf. rewrite !length_fmap in Hf. rewrite Hf. auto.
Qed.

Lemma calm_inv D X s s' : calm s s' → fd_inv D X s → fd_inv D X s'.
Proof.
  intros [Hp Hf] (Hw & R & Hr & Hperm). split; [by eapply procs_wf_same|]. exists R. split; [by eapply ref_inv_refs|].
  by rewrite (fds_same _ _ Hp).
Qed.

Definition calm_op {A} (m : M (kstate St) A) : Prop := ∀ s a s', m s = Done a s' → calm s s'.

Lemma calm_ret {A} (a : A) : calm_op (mret a).
Proof. by intros s b s' [= <- <-]. Qed.
Lemma calm_bind {A B} (m : M (kstate St) A) (k : A → M (kstate St) B) :
  calm_op m → (∀ a, calm_op (k a)) → calm_op (m ≫= k).
Proof. intros Hm Hk s b s' (a & s1 & H1 & H2)%bind_done. etrans; [by eapply Hm|by eapply Hk]. Qed.
Lemma calm_getp i : calm_op (getp i).
Proof. by intros s b s' [= <- <-]. Qed.
Lemma calm_mget : calm_op mget.
Proof. by intros s b s' [= <- <-]. Qed.
Lemma calm_panic {A} msg : calm_op (A := A) (panic msg).
Proof. by intros s b s' ?. Qed.
Lemma calm_assert b msg : calm_op (assert_or_panic b msg).
Proof. by intros s u s' [_ ->]%assert_done. Qed.
Lemma calm_diverge {A} : calm_op (A := A) (λ _, Diverge).
Proof. by intros s b s' ?. Qed.

(** A change of one process, calm in the states where it is made. *)
Lemma calm_alter i f s : (∀ p, ps_procs s !! i = Some p → same_fds p (f p)) →
  calm s (PState (alter f i (ps_procs s)) (ps_initproc s) (ps_nextpid s) (ps_env s)).
Proof.
  intros Hf. constructor; [|done]. simpl. apply Forall2_same_length_lookup_2; [by rewrite length_alter|].
  intros j p p' Hp Hp'. rewrite list_lookup_alter in Hp'. case_decide as Hj; [|by simplify_eq].
  subst j. rewrite Hp in Hp'. injection Hp' as <-. by apply Hf.
Qed.

Lemma calm_updp i f : (∀ p, same_fds p (f p)) → calm_op (updp i f).
Proof. intros Hf s [] s' [= <-]. by apply calm_alter. Qed.

Lemma calm_map f s : (∀ p, same_fds p (f p)) →
  calm s (PState (f <$> ps_procs s) (ps_initproc s) (ps_nextpid s) (ps_env s)).
Proof.
  intros Hf. constructor; [|done]. simpl. apply Forall2_fmap_r, Forall_Forall2_diag, Forall_forall. auto.
Qed.

Lemma same_fds_wakeup ch p : same_fds p (wakeup1_proc ch p).
Proof. unfold wakeup1_proc. case_decide; [|done]. split; [done|]. by intros [?|?]. Qed.

Lemma calm_wakeup ch : calm_op (wakeup1 ch).
Proof. intros s a s' [= <- <-]. apply calm_map, same_fds_wakeup. Qed.

Lemma calm_env {A} (m : M (ftable (kenv St)) A) :
  (∀ t a t', m t = Done a t' → f_ref <$> ft_file t' = f_ref <$> ft_file t) → calm_op (env m).
Proof.
  intros Hm s a s' Hr. unfold env, zoom in Hr. destruct (m (ps_env s)) as [b t'| | |] eqn:Hrun; simplify_eq.
  constructor; simpl; [done|by eapply Hm].
Qed.

Lemma calm_fenv {A} (m : M (kenv St) A) : calm_op (env (fenv m)).
Proof. apply calm_env. intros t a t' Hr%fenv_files. by rewrite Hr. Qed.

Lemma calm_deliver s : calm s (deliver s).
Proof.
  constructor; [|done]. simpl. generalize (ps_procs s) as l. induction (ke_wake (ft_env (ps_env s))) as [|ch chs IH]; intros l; [done|].
  simpl. etrans; [|apply IH]. apply Forall2_fmap_r, Forall_Forall2_diag, Forall_forall. intros p _. apply same_fds_wakeup.
Qed.

Lemma calm_wakes {A} (m : M (kstate St) A) : calm_op m → calm_op (with_wakes m).
Proof.
  intros Hm s a s' Hr. unfold with_wakes in Hr. destruct (m s) as [b s1| | |] eqn:Hrun; simplify_eq.
  etrans; [by eapply Hm|apply calm_deliver].
Qed.

Lemma calm_kload {A} (m : M (fstate (lstate St) * kmem) A) : calm_op (kload m).
Proof. intros s a s' Hr. unfold kload, zoom in Hr. by destruct (m _) as [b x| | |]; simplify_eq. Qed.

Lemma calm_triple {A} D X (m : M (kstate St) A) : calm_op m → triple (fd_inv D X) m (λ _, fd_inv D X).
Proof. intros Hm s a s' Hs Hr. by eapply calm_inv; [eapply Hm|]. Qed.

(** *** The operations of file.c *)

Lemma own_le p : length (own p) ≤ length (p_ofile p).
Proof.
  unfold own. induction (p_ofile p) as [|v l IH]; [done|]. rewrite bind_cons, length_app. simpl. destruct v; simpl; lia.
Qed.

Lemma fds_le l : (∀ p, p ∈ l → length (p_ofile p) = NOFILE) → length (fds l) ≤ length l * NOFILE.
Proof.
  induction l as [|p l IH]; intros Hl; [done|]. rewrite fds_cons, length_app. pose proof (own_le p) as Hp.
  rewrite Hl in Hp by (by left). specialize (IH ltac:(intros q Hq; apply Hl; by right)).
  change (length (p :: l) * NOFILE) with (NOFILE + length l * NOFILE). lia.
Qed.

(** A file with references is in the list of references. *)
Lemma ref_in_list (t : ftable (kenv St)) R f : ref_inv (t, R) → (1 ≤ f_ref (ft_file t !!! f))%Z → f ∈ R.
Proof.
  intros [Hc _] Hf. simpl in *. destruct (ft_file t !! f) as [x|] eqn:Hx.
  - rewrite (list_lookup_total_correct _ _ _ Hx), (Hc _ _ Hx) in Hf. destruct (decide (f ∈ R)); [done|]. rewrite cnt_zero in Hf by done. lia.
  - rewrite list_lookup_total_alt, Hx in Hf. simpl in Hf. lia.
Qed.

Lemma env_run {A} (m : M (ftable (kenv St)) A) s a s' : env m s = Done a s' →
  ∃ t, m (ps_env s) = Done a t ∧ s' = PState (ps_procs s) (ps_initproc s) (ps_nextpid s) t.
Proof. unfold env, zoom. destruct (m (ps_env s)) as [b t| | |]; intros Hr; simplify_eq. by exists t. Qed.

Lemma filealloc_triple `{FileEnv (kenv St)} D X : triple (fd_inv D X) (env filealloc)
  (λ r, match r with Some f => fd_inv D (f :: X) | None => fd_inv D X end).
Proof.
  intros s r s' (Hw & R & Hr & Hp) (t & Hrun & ->)%env_run. destruct r as [f|].
  - split; [done|]. exists (f :: R). split; [eapply file_step_inv; [exact Hr|by apply fs_alloc]|]. simpl. by rewrite <-Hp, Permutation_middle.
  - unfold filealloc in Hrun. apply bind_done in Hrun as (t0 & t1 & [= <- <-] & Hrun).
    destruct (list_find _ _) as [[i x]|]; [done|]. injection Hrun as <-. split; [done|]. by exists R.
Qed.

Lemma filedup_triple `{FileEnv (kenv St)} D X f : length X < 16 → triple (fd_inv D X) (env (filedup f)) (λ g s, g = f ∧ fd_inv D (f :: X) s).
Proof.
  intros HX s g s' (Hw & R & Hr & Hp) (t & Hrun & ->)%env_run. assert (Hf : f ∈ R).
  { unfold filedup in Hrun. apply bind_done in Hrun as (x & t1 & [= <- <-] & (u & t2 & [Hb _]%assert_done & _)%bind_done).
    eapply ref_in_list; [done|]. by apply Z.leb_le in Hb. }
  assert (g = f) as ->.
  { unfold filedup in Hrun. by apply bind_done in Hrun as (x & t1 & _ & (u & t2 & _ & (v & t3 & _ & [= <- _])%bind_done)%bind_done). }
  split; [done|]. split; [done|]. exists (f :: R). split; [|simpl; by rewrite <-Hp, Permutation_middle].
  eapply file_step_inv; [exact Hr|]. apply (fs_dup _ _ _ f); [done| |done].
  apply Permutation_length in Hp. rewrite !length_app in Hp. pose proof (fds_le _ (pw_ofile _ Hw)) as Hl. rewrite (pw_len _ Hw) in Hl.
  unfold NPROC, NOFILE in Hl. lia.
Qed.

(** The file is not counted any more; its descriptor may still be there. *)
Lemma fileclose_triple `{FileEnv (kenv St)} D X f : triple (fd_inv D X) (env (fileclose f)) (λ _, fd_inv (f :: D) X).
Proof.
  intros s [] s' (Hw & R & Hr & Hp) (t & Hrun & ->)%env_run. assert (Hf : f ∈ R).
  { unfold fileclose in Hrun. apply bind_done in Hrun as (x & t1 & [= <- <-] & (u & t2 & [Hb _]%assert_done & _)%bind_done).
    eapply ref_in_list; [done|]. by apply Z.leb_le in Hb. }
  apply list_elem_of_split in Hf as (R1 & R2 & HR). split; [done|]. exists (R1 ++ R2).
  assert (HR' : R ≡ₚ f :: R1 ++ R2) by (rewrite HR; by rewrite Permutation_middle).
  split; [eapply file_step_inv; [exact Hr|by eapply fs_close]|]. simpl. rewrite <-Hp, HR'. by rewrite Permutation_middle.
Qed.

(** A reference held by a local variable is dropped. *)
Lemma fileclose_held `{FileEnv (kenv St)} D X f : triple (fd_inv D (f :: X)) (env (fileclose f)) (λ _, fd_inv D X).
Proof. intros s u s' Hs Hr. apply (fd_inv_cancel f). by eapply fileclose_triple. Qed.

(** *** The descriptor table *)

Definition slot (i fd : nat) (v : option nat) (s : kstate St) : Prop :=
  ∃ p, ps_procs s !! i = Some p ∧ p_ofile p !! fd = Some v.
Definition running (i : nat) (s : kstate St) : Prop := ∃ p, ps_procs s !! i = Some p ∧ ¬ closed p.

Lemma elem_insert {A} (l : list A) i x y : y ∈ <[i := x]> l → y = x ∨ y ∈ l.
Proof.
  intros (j & Hj)%list_elem_of_lookup. apply list_lookup_insert_Some in Hj as [(_ & -> & _)|[_ Hj]]; [by left|right].
  by eapply list_elem_of_lookup_2.
Qed.

Lemma own_insert p fd v w : p_ofile p !! fd = Some v →
  option_list v ++ own (set_ofile (<[fd := w]> (p_ofile p)) p) ≡ₚ option_list w ++ own p.
Proof.
  intros Hv. unfold own. simpl. rewrite <-(take_drop_middle _ _ _ Hv) at 2. rewrite insert_take_drop by (by eapply lookup_lt_Some).
  rewrite !bind_app, !bind_cons. solve_Permutation.
Qed.

Lemma fds_update l i p p' : l !! i = Some p → own p ++ fds (<[i := p']> l) ≡ₚ own p' ++ fds l.
Proof.
  intros Hp. rewrite <-(take_drop_middle _ _ _ Hp) at 2. rewrite insert_take_drop by (by eapply lookup_lt_Some).
  unfold fds. rewrite !bind_app, !bind_cons. solve_Permutation.
Qed.

Lemma set_slot_inv D X i fd v w s : slot i fd v s → (running i s ∨ w = None) → fd_inv D X s →
  fd_inv (option_list w ++ D) (option_list v ++ X)
    (PState (alter (λ p, set_ofile (<[fd := w]> (p_ofile p)) p) i (ps_procs s)) (ps_initproc s) (ps_nextpid s) (ps_env s)).
Proof.
  intros (p & Hp & Hv) Hrun ([H1 H2 H3] & R & Hr & Hperm). unfold fd_inv. simpl.
  rewrite (list_alter_Some _ _ _ p) by done. set (p' := set_ofile _ p). split.
  - constructor.
    + by rewrite length_insert.
    + intros q [->|Hq]%elem_insert; [|auto]. simpl. rewrite length_insert. by eapply H2, list_elem_of_lookup_2.
    + intros q [->|Hq]%elem_insert; [|auto]. intros Hc. destruct Hrun as [(q & Hq & Hn)|Hw]; [by simplify_eq|].
      pose proof (own_insert p fd v w Hv) as Ho. fold p' in Ho. rewrite Hw in Ho. simpl in Ho.
      rewrite (H3 p) in Ho; [|by eapply list_elem_of_lookup_2|done]. symmetry in Ho. apply Permutation_nil_l in Ho. by destruct v.
  - exists R. split; [done|]. pose proof (own_insert p fd v w Hv) as Ho. fold p' in Ho.
    pose proof (fds_update _ _ _ p' Hp) as Hf. apply (Permutation_app_inv_l (own p)).
    transitivity (option_list v ++ X ++ (own p ++ fds (<[i := p']> (ps_procs s)))); [|solve_Permutation].
    rewrite Hf. transitivity ((option_list v ++ own p') ++ X ++ fds (ps_procs s)); [|solve_Permutation].
    rewrite Ho, <-Hperm. solve_Permutation.
Qed.

End fdref.

(** ** The system calls of sysfile.c and exec *)

Create HintDb calm.
#[export] Hint Resolve calm_ret calm_getp calm_mget calm_panic calm_assert calm_diverge calm_wakeup calm_fenv calm_kload : calm.

Ltac calm_step :=
  match goal with
  | |- calm_op (_ ≫= _) => apply calm_bind; [|intros ?]
  | |- calm_op (match ?x with _ => _ end) => destruct x
  | |- calm_op (let _ := _ in _) => intro
  | |- calm_op (with_wakes _) => apply calm_wakes
  | |- calm_op (updp _ _) => apply calm_updp; intros ?; done
  | |- calm_op _ => solve [auto with calm nocore]
  end.
Ltac calm_tac := repeat calm_step.

Section calls.
Context {St : Type} `{BlockCache St}.
Variables kend kdata : Z.
Variable devsw_read : Z → option (nat → Z → M (fstate (lstate St)) (Z * list Z)).
Variable devsw_write : Z → option (nat → list Z → Z → M (fstate (lstate St)) Z).
Variable cur : nat.
Variables pid killed : Z.

#[local] Instance fdref_file_env : FileEnv (kenv St) :=
  kernel_file_env kend devsw_read devsw_write pid killed.

Lemma calm_kfs {A} (m : M (fstate (lstate St)) A) : calm_op (kfs m).
Proof. apply calm_fenv. Qed.
Lemma calm_kmemory {A} (m : M kmem A) : calm_op (kmemory (St := St) m).
Proof. apply calm_fenv. Qed.
Hint Resolve calm_kfs calm_kmemory : calm.

Lemma calm_user {A} (f : Z → (Z → Z) → Z → A) : calm_op (with_user (St := St) cur f).
Proof. unfold with_user, myproc. calm_tac. Qed.
Hint Resolve calm_user : calm.

Lemma calm_args :
  (∀ n, calm_op (sys_argint (St := St) cur n)) ∧ (∀ n size, calm_op (sys_argptr (St := St) cur n size)) ∧
  (∀ n, calm_op (sys_argstr (St := St) cur n)) ∧ (∀ p n, calm_op (user_bytes (St := St) cur p n)) ∧
  (∀ p bs, calm_op (to_user (St := St) cur p bs)) ∧ (∀ n, calm_op (argfd (St := St) cur n)).
Proof.
  unfold argfd, sys_argint, sys_argptr, sys_argstr, user_bytes, to_user, myproc. split_and!; intros; calm_tac.
Qed.

Lemma calm_argint n : calm_op (sys_argint (St := St) cur n).
Proof. apply calm_args. Qed.
Lemma calm_argptr n size : calm_op (sys_argptr (St := St) cur n size).
Proof. apply calm_args. Qed.
Lemma calm_argstr n : calm_op (sys_argstr (St := St) cur n).
Proof. apply calm_args. Qed.
Lemma calm_bytes p n : calm_op (user_bytes (St := St) cur p n).
Proof. apply calm_args. Qed.
Lemma calm_to_user p bs : calm_op (to_user (St := St) cur p bs).
Proof. apply calm_args. Qed.
Lemma calm_argfd n : calm_op (argfd (St := St) cur n).
Proof. apply calm_args. Qed.
Hint Resolve calm_argint calm_argptr calm_argstr calm_bytes calm_to_user calm_argfd : calm.

(** Reads and writes change the offset of a file only. *)
Definition same_refs {A} (m : M (ftable (kenv St)) A) : Prop :=
  ∀ t a t', m t = Done a t' → f_ref <$> ft_file t' = f_ref <$> ft_file t.

Lemma refs_ret {A} (a : A) : same_refs (mret a).
Proof. by intros t b t' [= _ <-]. Qed.
Lemma refs_bind {A B} (m : M (ftable (kenv St)) A) (k : A → M (ftable (kenv St)) B) :
  same_refs m → (∀ a, same_refs (k a)) → same_refs (m ≫= k).
Proof. intros Hm Hk t b t' (a & t1 & H1 & H2)%bind_done. by rewrite (Hk _ _ _ _ H2), (Hm _ _ _ H1). Qed.
Lemma refs_fenv {A} (m : M (kenv St) A) : same_refs (fenv m).
Proof. intros t a t' Hr%fenv_files. by rewrite Hr. Qed.
Lemma refs_updf f g : (∀ x, f_ref (g x) = f_ref x) → same_refs (updf f g).
Proof.
  intros Hg t [] t' [= <-]. simpl. apply list_eq. intros i. rewrite !list_lookup_fmap, list_lookup_alter.
  case_decide; [|done]. subst. destruct (ft_file t !! i); simpl; [by rewrite Hg|done].
Qed.

Lemma refs_getf f : same_refs (getf f).
Proof. by intros t a t' [= _ <-]. Qed.
Lemma refs_panic {A} msg : same_refs (A := A) (panic msg).
Proof. by intros t a t' ?. Qed.
Lemma refs_assert b msg : same_refs (assert_or_panic b msg).
Proof. by intros t a t' [_ ->]%assert_done. Qed.

Ltac refs_step :=
  match goal with
  | |- same_refs (_ ≫= _) => apply refs_bind; [|intros ?]
  | |- same_refs (match ?x with _ => _ end) => destruct x
  | |- same_refs (fenv _) => apply refs_fenv
  | |- same_refs (updf _ _) => by apply refs_updf
  | |- same_refs (mret _) => apply refs_ret
  | |- same_refs (getf _) => apply refs_getf
  | |- same_refs (panic _) => apply refs_panic
  | |- same_refs (assert_or_panic _ _) => apply refs_assert
  end.

Lemma refs_read f n : same_refs (fileread f n).
Proof. unfold fileread. repeat refs_step. Qed.
Lemma refs_stat f : same_refs (filestat f).
Proof. unfold filestat. repeat refs_step. Qed.
Lemma refs_write f addr n : same_refs (filewrite f addr n).
Proof.
  unfold filewrite. repeat refs_step. generalize 0%Z as i. induction (Z.to_nat (n / filewrite_max) + 2) as [|fuel IH]; intros i;
    cbn [filewrite_loop]; [by intros ? ? ? ?|]. repeat refs_step. apply IH.
Qed.

Lemma calm_read : calm_op (sys_read kend devsw_read devsw_write cur pid killed).
Proof. unfold sys_read, arg_rw. calm_tac. apply calm_env, refs_read. Qed.
Lemma calm_write : calm_op (sys_write kend devsw_read devsw_write cur pid killed).
Proof. unfold sys_write, arg_rw. calm_tac. apply calm_env, refs_write. Qed.
Lemma calm_fstat : calm_op (sys_fstat kend devsw_read devsw_write cur pid killed).
Proof. unfold sys_fstat. calm_tac. apply calm_env, refs_stat. Qed.
(** The calls of fs.c, the programs of exec. *)
Lemma calm_namei path : calm_op (k_namei devsw_read cur pid path).
Proof. unfold k_namei, myproc. calm_tac. Qed.
Lemma calm_nameiparent path : calm_op (k_nameiparent devsw_read cur pid path).
Proof. unfold k_nameiparent, myproc. calm_tac. Qed.
Lemma calm_fail : calm_op (fail_op (St := St)).
Proof. unfold fail_op, k_end_op. calm_tac. Qed.
Hint Resolve calm_namei calm_nameiparent calm_fail : calm.

Lemma calm_isdirempty dp : calm_op (isdirempty devsw_read dp).
Proof.
  unfold isdirempty, k_geti. calm_tac. generalize (2 * DIRENTSZ)%Z as off. induction (dir_fuel (i_size a)) as [|fuel IH]; intros off;
    cbn [isdirempty_loop]; unfold k_geti; calm_tac.
Qed.
Hint Resolve calm_isdirempty : calm.

Lemma calm_create path type major minor : calm_op (create devsw_read devsw_write cur pid path type major minor).
Proof. unfold create, create_in, k_dirlink, k_geti, k_updi, k_iupdate, k_ilock, k_iunlockput. calm_tac. Qed.
Hint Resolve calm_create : calm.
Lemma calm_open_inode path omode : calm_op (open_inode devsw_read devsw_write cur pid path omode).
Proof. unfold open_inode, k_ilock, k_geti, k_iunlockput. calm_tac. Qed.
Lemma calm_created r : calm_op (close_created pid r).
Proof. unfold close_created, k_iunlockput, k_end_op. calm_tac. Qed.
Hint Resolve calm_open_inode calm_created : calm.

Lemma calm_link : calm_op (sys_link devsw_read devsw_write cur pid).
Proof.
  unfold sys_link, link_bad, k_dirlink, k_begin_op, k_end_op, k_geti, k_updi, k_iupdate, k_ilock, k_iunlock, k_iput, k_iunlockput. calm_tac.
Qed.
Lemma calm_unlink : calm_op (sys_unlink devsw_read devsw_write cur pid).
Proof.
  unfold sys_unlink, unlink_bad, unlink_entry, k_begin_op, k_end_op, k_geti, k_updi, k_iupdate, k_ilock, k_iunlockput. calm_tac.
Qed.
Lemma calm_mkdir : calm_op (sys_mkdir devsw_read devsw_write cur pid).
Proof. unfold sys_mkdir, k_begin_op. calm_tac. Qed.
Lemma calm_mknod : calm_op (sys_mknod devsw_read devsw_write cur pid).
Proof. unfold sys_mknod, k_begin_op. calm_tac. Qed.
Lemma calm_chdir : calm_op (sys_chdir devsw_read cur pid).
Proof. unfold sys_chdir, myproc, k_begin_op, k_end_op, k_ilock, k_geti, k_iunlock, k_iput, k_iunlockput. calm_tac. Qed.

Lemma calm_load_program n pgdir ip off sz : calm_op (load_program kend devsw_read n pgdir ip off sz).
Proof.
  revert off sz. induction n as [|n IH]; intros off sz; cbn [load_program]; unfold load_segment; calm_tac.
Qed.
Lemma calm_bad pgdir ip : calm_op (exec_bad (St := St) kend pid pgdir ip).
Proof. unfold exec_bad, k_iunlockput, k_end_op. calm_tac. Qed.
Hint Resolve calm_load_program calm_bad : calm.

Lemma calm_exec : calm_op (sys_exec kend kdata devsw_read cur pid).
Proof.
  unfold sys_exec, exec, exec_commit, build_stack, switchuvm, k_begin_op, k_end_op, k_ilock, k_iunlockput. calm_tac.
Qed.

(** *** Calls on descriptors *)

(** A calm computation keeps the descriptors of every process. *)
Lemma calm_slot i fd v s s' : calm s s' → slot (St := St) i fd v s → slot i fd v s'.
Proof.
  intros [Hp _] (p & Hi & Hv). destruct (Forall2_lookup_l _ _ _ _ _ Hp Hi) as (p' & Hi' & Ho & _). exists p'. by rewrite Ho.
Qed.
Lemma calm_running i s s' : calm s s' → running (St := St) i s → running i s'.
Proof.
  intros [Hp _] (p & Hi & Hc). destruct (Forall2_lookup_l _ _ _ _ _ Hp Hi) as (p' & Hi' & _ & Hcl). exists p'. split; [done|auto].
Qed.

(** The invariant while a process runs. *)
Definition runs (D X : list nat) (s : kstate St) : Prop := fd_inv D X s ∧ running cur s.

Lemma calm_runs {A} D X (m : M (kstate St) A) : calm_op m → triple (runs D X) m (λ _, runs D X).
Proof. intros Hm s a s' [Hi Hr] Hrun. specialize (Hm _ _ _ Hrun). split; [by eapply calm_inv|by eapply calm_running]. Qed.

Lemma argfd_triple D X n : triple (runs D X) (argfd cur n)
  (λ r s, runs D X s ∧ match r with Some (fd, f) => slot cur fd (Some f) s | None => True end).
Proof.
  intros s r s' Hs Hr. split; [by eapply calm_runs; [apply calm_argfd| |]|]. unfold argfd in Hr. apply bind_done in Hr as (x & s1 & H1 & H2).
  destruct x as [fd|]; [|by injection H2 as <- _]. case_decide as Hfd; [by injection H2 as <- _|].
  apply bind_done in H2 as (p & s2 & H2 & H3). injection H2 as <- <-.
  pose proof (calm_runs D X _ (calm_argint n) _ _ _ Hs H1) as [([H4 H5 H6] & _) (p & Hp & Hc)].
  rewrite (list_lookup_total_correct _ _ _ Hp) in H3. destruct (p_ofile p !!! Z.to_nat fd) as [f|] eqn:Hf; injection H3 as <- <-; [|done].
  exists p. split; [done|]. rewrite <-Hf. apply list_lookup_lookup_total_lt. rewrite H5 by by eapply list_elem_of_lookup_2. lia.
Qed.

Lemma set_fd_triple D X fd v w : triple (λ s, runs D X s ∧ slot cur fd v s) (set_fd cur fd w)
  (λ _ s, runs (option_list w ++ D) (option_list v ++ X) s ∧ slot cur fd w s).
Proof.
  intros s [] s' [[Hi (p & Hp & Hc)] (q & Hq & Hv)] [= <-]. rewrite Hp in Hq. injection Hq as <-. split; [split|].
  - apply set_slot_inv; [by exists p|left; by exists p|done].
  - exists (set_ofile (<[fd := w]> (p_ofile p)) p). simpl. rewrite (list_alter_Some _ _ _ _ Hp). split; [|done].
    apply list_lookup_insert_eq. by eapply lookup_lt_Some.
  - exists (set_ofile (<[fd := w]> (p_ofile p)) p). simpl. rewrite (list_alter_Some _ _ _ _ Hp). split.
    + apply list_lookup_insert_eq. by eapply lookup_lt_Some.
    + simpl. apply list_lookup_insert_eq. by eapply lookup_lt_Some.
Qed.

(** The new descriptor is not counted yet. *)
Lemma fdalloc_triple D X f : triple (runs D X) (fdalloc cur f)
  (λ r s, match r with Some fd => runs (f :: D) X s ∧ slot cur fd (Some f) s | None => runs D X s end).
Proof.
  intros s r s' Hs Hr. unfold fdalloc, myproc in Hr. apply bind_done in Hr as (p & s1 & [= <- <-] & Hr).
  destruct (list_find _ _) as [[fd x]|] eqn:Hf; [|by injection Hr as <- <-]. apply bind_done in Hr as ([] & s1 & H1 & [= <- <-]).
  apply list_find_Some in Hf as (Hx & -> & _). destruct Hs as [Hi (p & Hp & Hc)].
  rewrite (list_lookup_total_correct _ _ _ Hp) in Hx. apply lookup_take_Some in Hx as [Hx _].
  apply (set_fd_triple D X fd None (Some f)) in H1; [done|]. split; [split; [done|by exists p]|by exists p].
Qed.

Lemma runs_cancel f D X s : runs (f :: D) (f :: X) s ↔ runs D X s.
Proof. unfold runs. by rewrite fd_inv_cancel. Qed.

Lemma env_runs {A} D X (m : M (ftable (kenv St)) A) Q :
  triple (fd_inv D X) (env m) Q → triple (runs D X) (env m) (λ a s, Q a s ∧ running cur s).
Proof.
  intros Hm s a s' [Hi Hr] Hrun. split; [by eapply Hm|]. apply env_run in Hrun as (t & _ & ->). done.
Qed.

Lemma close_runs D X f : triple (runs D (f :: X)) (kfiles (fileclose f)) (λ _, runs D X).
Proof. eapply triple_post; [apply env_runs, fileclose_held|]. done. Qed.

Lemma wakes_triple {A} P (m : M (kstate St) A) (D X : list nat) :
  triple P m (λ _, runs D X) → triple P (with_wakes m) (λ _, runs D X).
Proof.
  intros Hm s a s' Hs Hr. unfold with_wakes in Hr. destruct (m s) as [b s1| | |] eqn:Hrun; simplify_eq.
  destruct (Hm _ _ _ Hs Hrun) as [Hi Hrn]. split; [by eapply calm_inv; [apply calm_deliver|]|by eapply calm_running; [apply calm_deliver|]].
Qed.

(** A local variable becomes a descriptor. *)
Lemma fdalloc_held D X f : triple (runs D (f :: X)) (fdalloc cur f)
  (λ r s, match r with Some fd => runs D X s ∧ slot cur fd (Some f) s | None => runs D (f :: X) s end).
Proof.
  eapply triple_post; [apply fdalloc_triple|]. intros [fd|] s; simpl; [|done]. by rewrite runs_cancel.
Qed.

Lemma dup_triple : triple (runs [] []) (sys_dup cur) (λ _, runs [] []).
Proof.
  unfold sys_dup. eapply triple_bind; [apply argfd_triple|]. intros [[fd f]|]; [|apply triple_ret; by intros s [Hs _]].
  eapply triple_bind; [eapply triple_pre; [apply fdalloc_triple|by intros s [Hs _]]|]. intros [fd'|]; [|by apply triple_ret].
  eapply triple_bind; [eapply triple_pre; [apply env_runs, (filedup_triple [f] []); simpl; lia|by intros s [Hs _]]|].
  intros g. apply triple_ret. intros s [[-> Hi] Hr]. apply runs_cancel with f. by split.
Qed.

Lemma close_triple : triple (runs [] []) (sys_close kend devsw_read devsw_write cur pid killed) (λ _, runs [] []).
Proof.
  unfold sys_close. eapply triple_bind; [apply argfd_triple|]. intros [[fd f]|]; [|apply triple_ret; by intros s [Hs _]].
  eapply triple_bind; [apply (set_fd_triple [] [] fd (Some f) None)|]. intros [].
  eapply triple_bind; [apply wakes_triple; eapply triple_pre; [apply (close_runs [] [])|by intros s [Hs _]]|].
  intros []. by apply triple_ret.
Qed.

(** The new file is a descriptor, or it has been closed again. *)
Lemma alloc_fd_triple : triple (runs [] []) (alloc_fd_file kend devsw_read devsw_write cur pid killed) (λ _, runs [] []).
Proof.
  unfold alloc_fd_file. eapply triple_bind; [apply env_runs, filealloc_triple|]. intros [f|]; [|by apply triple_ret].
  eapply triple_bind; [apply fdalloc_held|]. intros [fd|].
  - apply triple_ret. by intros s [Hs _].
  - eapply triple_bind; [apply close_runs|]. intros []. by apply triple_ret.
Qed.

Lemma open_triple : triple (runs [] []) (sys_open kend devsw_read devsw_write cur pid killed) (λ _, runs [] []).
Proof.
  unfold sys_open. eapply triple_bind; [apply calm_runs, calm_argstr|]. intros [path|]; [|by apply triple_ret].
  eapply triple_bind; [apply calm_runs, calm_argint|]. intros [omode|]; [|by apply triple_ret].
  eapply triple_bind; [apply calm_runs, calm_kfs|]. intros [].
  eapply triple_bind; [apply calm_runs, calm_open_inode|]. intros [ip|]; [|apply calm_runs, calm_fail].
  eapply triple_bind; [apply alloc_fd_triple|]. intros [[f fd]|]; apply calm_runs; unfold k_iunlock, k_iunlockput, k_end_op; calm_tac.
  apply calm_env, refs_updf. by intros [].
Qed.

Lemma env_bind_triple {A B} P (m : M (ftable (kenv St)) A) (k : A → M (ftable (kenv St)) B) R Q :
  triple P (env m) R → (∀ a, triple (R a) (env (k a)) Q) → triple P (env (m ≫= k)) Q.
Proof.
  intros Hm Hk s b s' Hs (t & Hrun & ->)%env_run. apply bind_done in Hrun as (a & t1 & H1 & H2).
  eapply Hk; [eapply Hm; [exact Hs|]|]; unfold env, zoom; [by rewrite H1|]. simpl. by rewrite H2.
Qed.

Lemma env_ret_triple {A} P (a : A) Q : (∀ s, P s → Q a s) → triple P (env (E := ftable (kenv St)) (mret a)) Q.
Proof. intros HQ s b s' Hs (t & [= <- <-] & ->)%env_run. destruct s. by apply HQ. Qed.

Lemma pipealloc_triple : triple (runs [] []) (kfiles pipealloc)
  (λ r s, match r with Some (rf, wf) => runs [] [wf; rf] s | None => runs [] [] s end).
Proof.
  eapply triple_post; [apply (env_runs _ _ _
    (λ r s, match r with Some (rf, wf) => fd_inv [] [wf; rf] s | None => fd_inv [] [] s end))|by intros [[rf wf]|] s [Hi Hr]].
  unfold pipealloc. eapply env_bind_triple; [apply filealloc_triple|]. intros [rf|]; [|by apply env_ret_triple].
  eapply env_bind_triple; [apply filealloc_triple|]. intros [wf|].
  - eapply env_bind_triple; [apply calm_triple, calm_fenv|]. intros p. case_decide.
    + eapply env_bind_triple; [eapply triple_pre; [apply (fileclose_held [] [wf] rf)|]|].
      { intros s (Hw & R & Hr & Hp). split; [done|]. exists R. split; [done|]. rewrite Hp. solve_Permutation. }
      intros []. eapply env_bind_triple; [apply (fileclose_held [] [])|]. intros []. by apply env_ret_triple.
    + eapply env_bind_triple; [apply calm_triple, calm_fenv|]. intros [].
      eapply env_bind_triple; [apply calm_triple, calm_env, refs_updf; by intros []|]. intros [].
      eapply env_bind_triple; [apply calm_triple, calm_env, refs_updf; by intros []|]. intros []. by apply env_ret_triple.
  - eapply env_bind_triple; [apply fileclose_held|]. intros []. by apply env_ret_triple.
Qed.

Lemma runs_perm D X X' s : X ≡ₚ X' → runs D X s → runs D X' s.
Proof. intros HX [(Hw & R & Hr & Hp) Hrun]. split; [|done]. split; [done|]. exists R. by rewrite <-HX. Qed.

(** The two ends of a pipe are closed. *)
Lemma close_ends rf wf : triple (runs [] [wf; rf]) (with_wakes (kfiles (fileclose rf);; kfiles (fileclose wf))) (λ _, runs [] []).
Proof.
  apply wakes_triple. eapply triple_bind; [eapply triple_pre; [apply (close_runs [] [wf] rf)|]|intros []; apply close_runs].
  intros s. apply runs_perm. solve_Permutation.
Qed.

Lemma pipe_triple : triple (runs [] []) (sys_pipe kend devsw_read devsw_write cur pid killed) (λ _, runs [] []).
Proof.
  unfold sys_pipe. eapply triple_bind; [apply calm_runs, calm_argptr|]. intros [a|]; [|by apply triple_ret].
  eapply triple_bind; [apply pipealloc_triple|]. intros [[rf wf]|]; [|by apply triple_ret].
  eapply triple_bind; [eapply triple_pre; [apply (fdalloc_held [] [wf] rf)|intros s; apply runs_perm; solve_Permutation]|].
  intros [fd0|].
  2:{ eapply triple_bind; [eapply triple_pre; [apply (close_ends rf wf)|]|intros []; by apply triple_ret].
      intros s. apply runs_perm. solve_Permutation. }
  eapply (triple_bind _ _ _ (λ r s, match r with Some _ => runs [] [] s | None => runs [] [wf] s ∧ slot cur fd0 (Some rf) s end)).
  { intros s r s' [Hs Hsl] Hr. pose proof (fdalloc_held [] [] wf _ _ _ Hs Hr) as Hpost. destruct r; [apply Hpost|]. split; [done|].
    unfold fdalloc, myproc in Hr. apply bind_done in Hr as (p & s1 & [= <- <-] & Hr).
    destruct (list_find _ _) as [[fd x]|]; [|by injection Hr as <-]. by apply bind_done in Hr as ([] & s1 & H1 & ?). }
  intros [fd1|].
  - eapply triple_bind; [apply calm_runs, calm_to_user|]. intros []. by apply triple_ret.
  - eapply triple_bind; [apply (set_fd_triple [] [wf] fd0 (Some rf) None)|]. intros [].
    eapply triple_bind; [eapply triple_pre; [apply (close_ends rf wf)|]|intros []; by apply triple_ret].
    intros s [Hs _]. eapply runs_perm; [|exact Hs]. simpl. solve_Permutation.
Qed.

End calls.

(** ** The operations of proc.c *)

Section processes.
Context {St : Type} `{BlockCache St}.
Variables kend kdata forkret : Z.
Variable devsw_read : Z → option (nat → Z → M (fstate (lstate St)) (Z * list Z)).
Variable devsw_write : Z → option (nat → list Z → Z → M (fstate (lstate St)) Z).
Variables pid killed : Z.

#[local] Instance fdref_proc_env : ProcEnv (ftable (kenv St)) :=
  kernel_proc_env kend kdata devsw_read devsw_write pid killed.
#[local] Instance fdref_files : FileEnv (kenv St) :=
  kernel_file_env kend devsw_read devsw_write pid killed.

Hint Extern 1 (calm_op (env _)) => apply calm_fenv : calm.

Lemma calm_mfor {A} (l : list A) (f : A → M (kstate St) unit) : (∀ x, calm_op (f x)) → calm_op (mfor l f).
Proof. intros Hf. induction l as [|x l IH]; simpl; [apply calm_ret|]. apply calm_bind; [apply Hf|done]. Qed.

Lemma calm_sched c i : calm_op (St := St) (sched c i).
Proof. unfold sched. calm_tac. Qed.
Lemma calm_state i v g : v ≠ UNUSED → v ≠ ZOMBIE → (∀ p, p_ofile (g p) = p_ofile p) →
  calm_op (St := St) (updp i (λ p, set_pstate v (g p))).
Proof. intros H1 H2 Hg. apply calm_updp. intros p. split; [apply Hg|]. by intros [?|?]. Qed.
Lemma calm_acquire c : calm_op (St := St) (acquire_ptable c).
Proof. unfold acquire_ptable. calm_tac. Qed.
Hint Resolve calm_sched calm_acquire : calm.

Lemma calm_yield c i : calm_op (St := St) (yield c i).
Proof.
  unfold yield. apply calm_bind; [apply calm_acquire|]. intros c'. apply calm_bind; [by apply (calm_state i RUNNABLE (λ p, p))|auto with calm].
Qed.
Lemma calm_sleep c lk i ch : calm_op (St := St) (sleep c lk i ch).
Proof.
  unfold sleep. apply calm_bind; [destruct lk; calm_tac|]. intros c'. apply calm_bind; [by apply calm_state|auto with calm].
Qed.
Lemma calm_kill p : calm_op (St := St) (kill p).
Proof.
  unfold kill. calm_tac. apply calm_updp. intros q. case_decide; [|done]. split; [done|]. by intros [?|?].
Qed.
Lemma calm_growproc i n : calm_op (growproc i n).
Proof. unfold growproc. calm_tac. Qed.

(** A process without descriptors. *)
Definition emptied (i : nat) (s : kstate St) : Prop := ∃ p, ps_procs s !! i = Some p ∧ own p = [].

Lemma calm_emptied i s s' : calm s s' → emptied i s → emptied i s'.
Proof.
  intros [Hp _] (p & Hi & Ho). destruct (Forall2_lookup_l _ _ _ _ _ Hp Hi) as (p' & Hi' & Hof & _). exists p'.
  split; [done|]. unfold own. by rewrite Hof.
Qed.

Lemma calm_keeps {A} D X i (m : M (kstate St) A) : calm_op m →
  triple (λ s, fd_inv D X s ∧ emptied i s) m (λ _ s, fd_inv D X s ∧ emptied i s).
Proof. intros Hm s a s' [Hs He] Hr. specialize (Hm _ _ _ Hr). split; [by eapply calm_inv|by eapply calm_emptied]. Qed.

(** Such a process can enter any state. *)
Lemma emptied_state D X i f : (∀ p, p_ofile (f p) = p_ofile p) →
  triple (λ s, fd_inv D X s ∧ emptied i s) (updp i f) (λ _ s, fd_inv D X s ∧ emptied i s).
Proof.
  intros Hf s [] s' [([H1 H2 H3] & R & Hr & Hp) (p & Hi & Ho)] [= <-].
  assert (Hof : own (f p) = []) by (unfold own; by rewrite Hf).
  unfold emptied, fd_inv. simpl. rewrite (list_alter_Some _ _ _ _ Hi). split_and!.
  - constructor; [by rewrite length_insert|..]; intros q [->|Hq]%elem_insert; auto. rewrite Hf. by eapply H2, list_elem_of_lookup_2.
  - exists R. split; [done|]. pose proof (fds_update _ _ _ (f p) Hi) as Hu. rewrite Ho, Hof in Hu. simpl in Hu. by rewrite Hu.
  - exists (f p). split; [|done]. apply list_lookup_insert_eq. by eapply lookup_lt_Some.
Qed.

Lemma closed_emptied D X s i p : fd_inv D X s → ps_procs s !! i = Some p → closed p → emptied i s.
Proof. intros ([_ _ H3] & _) Hi Hc. exists p. split; [done|]. apply H3; [by eapply list_elem_of_lookup_2|done]. Qed.

Lemma first_slot_lookup P l i : first_slot P l = Some i → ∃ p, l !! i = Some p ∧ P p = true.
Proof.
  unfold first_slot. destruct (list_find _ l) as [[j p]|] eqn:Hf; [|done]. intros [= ->].
  apply list_find_Some in Hf as (Hi & Hp & _). by exists p.
Qed.

Lemma alloc_slot_triple D X : triple (fd_inv D X) alloc_slot
  (λ r s, fd_inv D X s ∧ match r with Some i => emptied i s ∧ running i s | None => True end).
Proof.
  intros s r s' Hs Hr. unfold alloc_slot in Hr. apply bind_done in Hr as (s0 & s1 & [= <- <-] & Hr).
  destruct (first_slot _ _) as [i|] eqn:Hf; [|by injection Hr as <- <-]. apply first_slot_lookup in Hf as (p & Hi & Hu%bool_decide_eq_true).
  assert (He : emptied i s) by (eapply closed_emptied; [done..|by left]).
  apply bind_done in Hr as ([] & s1 & H1 & Hr). apply (emptied_state D X) in H1 as He1; [|done..].
  assert (Hrun : running i s1).
  { injection H1 as <-. exists (set_pid (ps_nextpid s) (set_pstate EMBRYO p)). simpl. rewrite (list_alter_Some _ _ _ _ Hi).
    split; [apply list_lookup_insert_eq; by eapply lookup_lt_Some|]. by intros [?|?]. }
  apply bind_done in Hr as ([] & s2 & H2 & [= <- <-]). assert (Hc : calm s1 s2) by (injection H2 as <-; by constructor).
  destruct He1. split_and!; [by eapply calm_inv|by eapply calm_emptied|by eapply calm_running].
Qed.

Lemma alloc_stack_triple D X i : triple (λ s, fd_inv D X s ∧ emptied i s ∧ running i s) (alloc_stack forkret i)
  (λ r s, fd_inv D X s ∧ match r with Some j => j = i ∧ emptied i s ∧ running i s | None => True end).
Proof.
  intros s1 r s' (Hs & He & Hrun) Hr. unfold alloc_stack in Hr. apply bind_done in Hr as (k & s3 & H3 & Hr). apply bind_done in Hr as ([] & s4 & H4 & Hr).
  assert (Hc : calm s1 s4).
  { transitivity s3; [eapply calm_fenv, H3|]. eapply (calm_updp i (set_kstack k)); [by intros q|exact H4]. }
  assert (He4 : fd_inv D X s4 ∧ emptied i s4) by (split; [by eapply calm_inv|by eapply calm_emptied]).
  case_decide.
  - apply bind_done in Hr as ([] & s5 & H5 & [= <- <-]). split; [|done]. by eapply (emptied_state D X i (set_pstate UNUSED)).
  - apply bind_done in Hr as ([] & s5 & H5 & [= <- <-]). apply calm_updp in H5; [|by intros q].
    split; [by eapply calm_inv, He4|]. split; [done|]. split; [by eapply calm_emptied, He4|]. eapply calm_running, Hrun. by etrans.
Qed.

Lemma allocproc_triple D X : triple (fd_inv D X) (allocproc forkret)
  (λ r s, fd_inv D X s ∧ match r with Some i => emptied i s ∧ running i s | None => True end).
Proof.
  unfold allocproc. eapply triple_bind; [apply alloc_slot_triple|]. intros [i|]; [|by apply triple_ret].
  intros s r s' Hs Hr. apply (alloc_stack_triple D X) in Hr as [Hs' Hr]; [|done]. split; [done|]. destruct r; [|done]. by destruct Hr as (-> & Hr).
Qed.

(** The descriptors from [fd] on are free. *)
Definition free_from (i fd : nat) (s : kstate St) : Prop :=
  ∃ p, ps_procs s !! i = Some p ∧ ∀ j, fd ≤ j < NOFILE → p_ofile p !! j = Some None.

Lemma emptied_free D X i s : fd_inv D X s → emptied i s → free_from i 0 s.
Proof.
  intros ([_ H2 _] & _) (p & Hi & Ho). exists p. split; [done|]. intros j Hj.
  destruct (lookup_lt_is_Some_2 (p_ofile p) j) as [v Hv]; [rewrite H2 by (by eapply list_elem_of_lookup_2); lia|].
  rewrite Hv. destruct v as [f|]; [|done]. exfalso. apply (not_elem_of_nil f). rewrite <-Ho. unfold own.
  apply list_elem_of_bind. exists (Some f). split; [by left|by eapply list_elem_of_lookup_2].
Qed.

Lemma dup_files_triple np fd l : fd + length l ≤ NOFILE →
  triple (λ s, runs np [] [] s ∧ free_from np fd s) (dup_files np fd l) (λ _, fd_inv [] []).
Proof.
  revert fd. induction l as [|[f|] l IH]; intros fd Hl; cbn [dup_files].
  - apply triple_ret. by intros s [[Hs _] _].
  - intros s u s' [Hs (p & Hp & Hfree)] Hr. apply bind_done in Hr as (f' & s1 & H1 & Hr). simpl in Hl.
    pose proof (env_run _ _ _ _ H1) as (t & _ & Hs1).
    apply (env_runs np [] [] _ _ (filedup_triple [] [] f ltac:(simpl; lia))) in H1 as [[-> Hi] Hrn]; [|done].
    apply bind_done in Hr as ([] & s2 & H2 & Hr). assert (Hsl : slot np fd None s1) by (exists p; subst s1; split; [done|apply Hfree; lia]).
    pose proof (set_fd_triple np [] [f] fd None (Some f) _ _ _ (conj (conj Hi Hrn) Hsl) H2) as [Hrun _]. simpl in Hrun.
    eapply (IH (S fd)); [lia| |exact Hr]. split; [by apply (runs_cancel np f)|]. injection H2 as <-. subst s1. simpl.
    exists (set_ofile (<[fd := Some f]> (p_ofile p)) p). simpl. rewrite (list_alter_Some _ _ _ _ Hp). split.
    + apply list_lookup_insert_eq. by eapply lookup_lt_Some.
    + intros j Hj. rewrite list_lookup_insert_ne by lia. apply Hfree. lia.
  - eapply triple_pre; [apply (IH (S fd)); simpl in Hl; lia|]. intros s [Hs (p & Hp & Hfree)]. split; [done|].
    exists p. split; [done|]. intros j Hj. apply Hfree. lia.
Qed.

Lemma fork_copy_triple cur np : cur < NPROC → triple (λ s, fd_inv [] [] s ∧ emptied np s ∧ running np s) (fork_copy cur np) (λ _, fd_inv [] []).
Proof.
  intros Hcur. unfold fork_copy.
  eapply (triple_bind _ _ _ (λ c s, fd_inv [] [] s ∧ emptied np s ∧ running np s ∧ length (p_ofile c) = NOFILE)).
  { intros s c s' (Hs & He & Hr) [= <- <-]. split_and!; [done..|]. pose proof Hs as ([H1 H2 _] & _). apply H2.
    apply list_elem_of_lookup_total_2. by rewrite H1. }
  intros c. eapply (triple_bind _ _ _ (λ _ s, fd_inv [] [] s ∧ emptied np s ∧ running np s ∧ length (p_ofile c) = NOFILE)).
  { intros s pg s' (Hs & He & Hr & Hl) Hrun%calm_fenv. split_and!; [by eapply calm_inv|by eapply calm_emptied|by eapply calm_running|done]. }
  intros pgdir. eapply (triple_bind _ _ _ (λ _ s, fd_inv [] [] s ∧ emptied np s ∧ running np s ∧ length (p_ofile c) = NOFILE)).
  { intros s pg s' (Hs & He & Hr & Hl) Hrun. apply calm_updp in Hrun; [|by intros p].
    split_and!; [by eapply calm_inv|by eapply calm_emptied|by eapply calm_running|done]. }
  intros []. case_decide.
  - eapply triple_pre; [|by intros s (Hs & He & _); exact (conj Hs He)].
    eapply triple_bind; [apply calm_keeps, calm_getp|]. intros q. eapply triple_bind; [apply calm_keeps, calm_fenv|]. intros [].
    eapply triple_bind; [apply calm_keeps, calm_updp; by intros p|]. intros [].
    eapply triple_bind; [by apply emptied_state|]. intros []. apply triple_ret. by intros s [Hs _].
  - eapply (triple_bind _ _ _ (λ _ s, (runs np [] [] s ∧ free_from np 0 s) ∧ length (p_ofile c) = NOFILE)).
    { intros s u s' (Hs & He & Hr & Hl) Hrun. apply calm_updp in Hrun; [|by intros p]. assert (Hs' : fd_inv [] [] s') by by eapply calm_inv.
      split_and!; [split; [done|by eapply calm_running]|eapply emptied_free; [done|by eapply calm_emptied]|done]. }
    intros []. intros s r s' [Hs Hl] Hr. apply bind_done in Hr as (u & s1 & H1 & Hr).
    apply dup_files_triple in H1; [|lia|done]. eapply calm_triple; [|exact H1|exact Hr]. calm_tac.
Qed.

Lemma fork_triple cur : cur < NPROC → triple (fd_inv [] []) (fork forkret cur) (λ _, fd_inv [] []).
Proof.
  intros Hcur. unfold fork. eapply triple_bind; [apply allocproc_triple|]. intros [np|]; [|apply triple_ret; by intros s [Hs _]].
  eapply triple_bind; [by apply fork_copy_triple|]. intros []; [|by apply triple_ret]. apply calm_triple. unfold fork_ready. calm_tac.
  by apply (calm_state np RUNNABLE (λ p, p)).
Qed.

Lemma close_files_triple cur fd l :
  triple (λ s, fd_inv [] [] s ∧ ∃ p, ps_procs s !! cur = Some p ∧ p_ofile p = replicate fd None ++ l) (close_files cur fd l)
    (λ _ s, fd_inv [] [] s ∧ emptied cur s).
Proof.
  revert fd. induction l as [|[f|] l IH]; intros fd; cbn [close_files].
  - apply triple_ret. intros s (Hs & p & Hp & Ho). split; [done|]. exists p. split; [done|]. unfold own. rewrite Ho, app_nil_r.
    clear. induction fd as [|fd IH]; [done|]. simpl. apply IH.
  - intros s u s' (Hs & p & Hp & Ho) Hr. apply bind_done in Hr as ([] & s1 & H1 & Hr). pose proof (env_run _ _ _ _ H1) as (t & _ & Hs1).
    apply (fileclose_triple [] []) in H1; [|done]. apply bind_done in Hr as ([] & s2 & H2 & Hr).
    assert (Hfd : p_ofile p !! fd = Some (Some f)) by (rewrite Ho, lookup_app_r, length_replicate, Nat.sub_diag by (rewrite length_replicate; lia); done).
    assert (Hsl : slot cur fd (Some f) s1) by (exists p; subst s1; done).
    eapply (IH (S fd)); [|exact Hr]. injection H2 as <-. split.
    + apply (fd_inv_cancel f). by apply (set_slot_inv [f] [] cur fd (Some f) None); [|right|].
    + exists (set_ofile (<[fd := None]> (p_ofile p)) p). subst s1. simpl. rewrite (list_alter_Some _ _ _ _ Hp). split.
      * apply list_lookup_insert_eq. by eapply lookup_lt_Some.
      * simpl. rewrite Ho. replace fd with (length (replicate fd (None (A := nat))) + 0) at 1 by (rewrite length_replicate; lia).
        rewrite insert_app_r. simpl. by rewrite cons_middle, app_assoc, <-replicate_S_end.
  - eapply triple_pre; [apply (IH (S fd))|]. intros s (Hs & p & Hp & Ho). split; [done|]. exists p. split; [done|].
    rewrite Ho. by rewrite cons_middle, app_assoc, <-replicate_S_end.
Qed.

Lemma exit_files_triple cur : cur < NPROC → triple (fd_inv [] []) (exit_files cur) (λ _ s, fd_inv [] [] s ∧ emptied cur s).
Proof.
  intros Hcur. unfold exit_files. eapply triple_bind; [apply calm_triple, calm_mget|]. intros s0.
  eapply triple_bind; [apply calm_triple, calm_assert|]. intros [].
  eapply (triple_bind _ _ _ (λ c s, fd_inv [] [] s ∧ ∃ p, ps_procs s !! cur = Some p ∧ p_ofile p = replicate 0 None ++ p_ofile c)).
  { intros s c s' Hs [= <- <-]. split; [done|]. destruct (lookup_lt_is_Some_2 (ps_procs s) cur) as [p Hp]; [by rewrite (pw_len _ (proj1 Hs))|].
    exists p. by rewrite (list_lookup_total_correct _ _ _ Hp). }
  intros c. eapply triple_bind; [apply close_files_triple|]. intros [].
  eapply triple_bind; [apply calm_keeps, calm_fenv|]. intros [].
  eapply triple_bind; [apply calm_keeps; destruct (p_cwd c); [apply calm_fenv|apply calm_panic]|]. intros [].
  eapply triple_bind; [apply calm_keeps, calm_fenv|]. intros []. apply calm_keeps, calm_updp; by intros p.
Qed.

Lemma exit_table_triple c cur : triple (λ s, fd_inv [] [] s ∧ emptied cur s) (exit_table c cur) (λ _, fd_inv [] []).
Proof.
  unfold exit_table. eapply triple_bind; [apply calm_keeps, calm_acquire|]. intros c'.
  eapply triple_bind; [apply calm_keeps, calm_getp|]. intros p.
  eapply triple_bind; [apply calm_keeps; calm_tac|]. intros [].
  eapply triple_bind; [apply calm_keeps, calm_mget|]. intros s1.
  eapply triple_bind; [apply calm_keeps, calm_mfor; intros x; calm_tac|]. intros [].
  eapply triple_bind; [by apply emptied_state|]. intros []. eapply triple_pre; [apply calm_triple, calm_sched|]. by intros s [Hs _].
Qed.

Lemma exit_triple c cur : cur < NPROC → triple (fd_inv [] []) (exit c cur) (λ _, fd_inv [] []).
Proof. intros Hcur. unfold exit. eapply triple_bind; [by apply exit_files_triple|]. intros []. apply exit_table_triple. Qed.

Lemma reap_triple i : triple (λ s, fd_inv [] [] s ∧ emptied i s) (reap i) (λ _, fd_inv [] []).
Proof.
  unfold reap. eapply triple_bind; [apply calm_keeps, calm_getp|]. intros p.
  eapply triple_bind; [apply calm_keeps, calm_fenv|]. intros []. eapply triple_bind; [apply calm_keeps, calm_updp; by intros q|]. intros [].
  eapply triple_bind; [apply calm_keeps, calm_fenv|]. intros []. eapply triple_bind; [by apply emptied_state|]. intros [].
  apply triple_ret. by intros s [Hs _].
Qed.

Lemma wait_triple c cur : triple (fd_inv [] []) (wait_scan c cur) (λ _, fd_inv [] []).
Proof.
  intros s r s' Hs Hr. unfold wait_scan in Hr. apply bind_done in Hr as (s0 & s1 & [= <- <-] & Hr).
  destruct (first_slot _ _) as [i|] eqn:Hf.
  - apply first_slot_lookup in Hf as (p & Hi & [_ Hz%bool_decide_eq_true]%andb_true_iff).
    apply bind_done in Hr as (q & s1 & H1 & [= <- <-]). eapply reap_triple; [split; [done|]|exact H1].
    eapply closed_emptied; [done..|by right].
  - eapply calm_triple; [|exact Hs|exact Hr]. calm_tac. apply calm_sleep.
Qed.
End processes.

(** ** Traps *)

Section machine.
Context {St D : Type} `{BlockCache St} `{DevEnv D}.
Variables kend kdata forkret : Z.
Variable initcode : list Z.
Variable devsw_read : Z → option (nat → Z → M (fstate (lstate St)) (Z * list Z)).
Variable devsw_write : Z → option (nat → list Z → Z → M (fstate (lstate St)) Z).

Hint Extern 1 (calm_op (env _)) => apply calm_fenv : calm.

(** The machine's descriptors are counted. *)
Definition fd_ok (m : machine St D) : Prop := fd_inv [] [] (m_kernel m).

Lemma kern_triple {A} P (m : M (kstate St) A) Q :
  triple P m Q → triple (λ x : machine St D, P (m_kernel x)) (kern m) (λ a x, Q a (m_kernel x)).
Proof.
  intros Hm x a x' Hx Hr. unfold kern, zoom in Hr. destruct (m (m_kernel x)) as [b k| | |] eqn:Hrun; simplify_eq. by eapply Hm.
Qed.

Lemma kern_keep {A} (m : M (kstate St) A) : triple (fd_inv [] []) m (λ _, fd_inv [] []) → triple fd_ok (kern m) (λ _, fd_ok).
Proof. apply (kern_triple (fd_inv [] []) m (λ _, fd_inv [] [])). Qed.

Lemma kern_calm {A} (m : M (kstate St) A) : calm_op m → triple fd_ok (kern m) (λ _, fd_ok).
Proof. intros Hm. by apply kern_keep, calm_triple. Qed.

Lemma dev_triple {A} (P : kstate St → Prop) (m : M D A) :
  triple (λ x : machine St D, P (m_kernel x)) (dev m) (λ _ x, P (m_kernel x)).
Proof. intros x a x' Hx Hr. unfold dev, zoom in Hr. by destruct (m (m_dev x)) as [b d| | |]; simplify_eq. Qed.

Lemma ticks_triple (P : machine St D → Prop) : triple P ticks (λ _, P).
Proof. by intros x a x' Hx [= _ <-]. Qed.

Section one.
Variables (cur : nat) (pid killed : Z).
Hypothesis Hcur : cur < NPROC.

(** A running process makes a system call. *)
Definition ready (x : machine St D) : Prop := runs cur [] [] (m_kernel x).

Lemma returns_triple m : triple (runs cur [] []) m (λ _, runs cur [] []) → triple ready (returns m) (λ _, fd_ok).
Proof.
  intros Hm. unfold returns. eapply triple_bind; [by apply (kern_triple _ m (λ _, runs cur [] []))|]. intros r.
  apply triple_ret. by intros x [Hx _].
Qed.
Lemma returns_calm m : calm_op m → triple ready (returns m) (λ _, fd_ok).
Proof. intros Hm. by apply returns_triple, calm_runs. Qed.

Lemma exit_call : triple fd_ok (sys_exit kend kdata devsw_read devsw_write cur pid killed) (λ _, fd_ok).
Proof.
  unfold sys_exit. eapply (triple_bind _ _ _ (λ _, fd_ok)); [|intros u; by apply triple_ret]. apply kern_keep.
  intros s a s' Hs Hr. unfold with_wakes in Hr. destruct (exit syscall_cpu cur s) as [b s1| | |] eqn:Hrun; simplify_eq.
  eapply calm_inv; [apply calm_deliver|]. by eapply exit_triple.
Qed.

Lemma wait_call : triple fd_ok (sys_wait kend kdata devsw_read devsw_write cur pid killed) (λ _, fd_ok).
Proof. apply kern_keep. eapply triple_bind; [apply calm_triple, calm_acquire|]. intros c. apply wait_triple. Qed.

Lemma syscall_numbers n :
  triple ready (run_syscall kend kdata forkret devsw_read devsw_write cur pid killed n) (λ _, fd_ok).
Proof.
  assert (Hok : ∀ x, ready x → fd_ok x) by by intros x [Hx _].
  destruct n; cbn [run_syscall]; try match goal with |- triple _ (returns _) _ => apply returns_triple end.
  - unfold sys_fork. eapply triple_pre; [|exact Hok]. eapply triple_bind; [by apply kern_keep, fork_triple|].
    intros r. by apply triple_ret.
  - eapply triple_pre; [apply exit_call|exact Hok].
  - eapply triple_pre; [apply wait_call|exact Hok].
  - apply pipe_triple.
  - apply calm_runs, calm_read.
  - unfold sys_kill. eapply triple_pre; [|exact Hok]. eapply triple_bind; [apply kern_calm, calm_argint|]. intros [p|]; [|by apply triple_ret].
    eapply triple_bind; [apply kern_calm, calm_kill|]. intros r. by apply triple_ret.
  - apply calm_runs, calm_exec.
  - apply calm_runs, calm_fstat.
  - apply calm_runs, calm_chdir.
  - apply (dup_triple kend devsw_read devsw_write cur pid killed).
  - unfold sys_getpid. eapply triple_pre; [|exact Hok]. eapply triple_bind; [apply kern_calm, calm_getp|]. intros p. by apply triple_ret.
  - unfold sys_sbrk. eapply triple_pre; [|exact Hok]. eapply triple_bind; [apply kern_calm, calm_argint|]. intros [n|]; [|by apply triple_ret].
    eapply triple_bind; [apply kern_calm, calm_getp|]. intros p. eapply triple_bind; [apply kern_calm, calm_growproc|]. intros r. by apply triple_ret.
  - unfold sys_sleep, sys_sleep_loop. eapply triple_pre; [|exact Hok].
    eapply triple_bind; [apply kern_calm, calm_argint|]. intros [n|]; [|by apply triple_ret].
    eapply triple_bind; [apply ticks_triple|]. intros t0. eapply triple_bind; [apply ticks_triple|]. intros t.
    case_decide; [|by apply triple_ret]. eapply triple_bind; [apply kern_calm, calm_getp|]. intros p. case_decide; [by apply triple_ret|].
    eapply triple_bind; [apply kern_calm, calm_sleep|]. intros u. by apply triple_ret.
  - unfold sys_uptime. eapply triple_pre; [|exact Hok]. eapply triple_bind; [apply ticks_triple|]. intros t. by apply triple_ret.
  - apply open_triple.
  - apply calm_runs, calm_write.
  - apply calm_runs, calm_mknod.
  - apply calm_runs, calm_unlink.
  - apply calm_runs, calm_link.
  - apply calm_runs, calm_mkdir.
  - apply close_triple.
  - unfold sys_halt. eapply triple_pre; [|exact Hok]. eapply triple_bind; [apply (dev_triple (fd_inv [] []))|]. intros u. by apply triple_ret.
Qed.
End one.

Lemma kern_ready {A} c (m : M (kstate St) A) : calm_op m → triple (ready c) (kern m) (λ _, ready c).
Proof. intros Hm. by apply (kern_triple (runs c [] []) m (λ _, runs c [] [])), calm_runs. Qed.

Lemma ready_lt c x : ready c x → c < NPROC.
Proof. intros [([Hl _ _] & _) (p & Hp & _)]. rewrite <-Hl. by eapply lookup_lt_Some. Qed.

Lemma exit_if_killed_triple c : c < NPROC →
  triple fd_ok (exit_if_killed kend kdata devsw_read devsw_write c) (λ _, fd_ok).
Proof.
  intros Hc. unfold exit_if_killed. eapply triple_bind; [apply kern_calm, calm_getp|]. intros p. case_decide; [|by apply triple_ret].
  eapply triple_bind; [by apply exit_call|]. intros u. by apply triple_ret.
Qed.

Lemma exit_if_killed_ready c :
  triple (ready c) (exit_if_killed kend kdata devsw_read devsw_write c) (λ gone x, fd_ok x ∧ (gone = false → ready c x)).
Proof.
  intros x b x' Hx Hr. split; [eapply exit_if_killed_triple; [by eapply ready_lt|apply Hx|exact Hr]|]. intros ->.
  unfold exit_if_killed in Hr. apply bind_done in Hr as (p & x1 & H1 & Hr). apply (kern_ready c _ (calm_getp c)) in H1; [|done].
  case_decide; [by apply bind_done in Hr as (u & x2 & _ & ?)|]. by injection Hr as <-.
Qed.

Lemma ready_triple {A} c (m : M (machine St D) A) Q : (c < NPROC → triple (ready c) m Q) → triple (ready c) m Q.
Proof. intros Hm x a x' Hx. apply Hm; [by eapply ready_lt|done]. Qed.

Lemma syscall_triple c pid killed :
  triple (ready c) (syscall kend kdata forkret devsw_read devsw_write c pid killed) (λ _, fd_ok).
Proof.
  assert (Hset : ∀ v, triple fd_ok (set_result c v) (λ _, fd_ok)) by (intros v; apply kern_calm, calm_updp; by intros p).
  apply ready_triple. intros Hc. unfold syscall. eapply triple_bind; [apply kern_ready, calm_getp|]. intros p.
  destruct (syscall_lookup _) as [n|].
  - eapply triple_bind; [by apply syscall_numbers|]. intros [v|]; [|by apply triple_ret].
    eapply triple_bind; [apply Hset|]. intros []. by apply triple_ret.
  - eapply triple_bind; [eapply triple_pre; [apply Hset|by intros x [Hx _]]|]. intros []. by apply triple_ret.
Qed.

Lemma trap_syscall_triple c : triple (ready c) (trap_syscall kend kdata forkret devsw_read devsw_write c) (λ _, fd_ok).
Proof.
  apply ready_triple. intros Hc. unfold trap_syscall. eapply triple_bind; [apply exit_if_killed_ready|].
  intros [|]; [apply triple_ret; by intros x [Hx _]|]. eapply triple_pre; [|intros x [_ Hx]; by apply Hx].
  eapply triple_bind; [apply kern_ready, calm_getp|]. intros p. eapply triple_bind; [apply syscall_triple|].
  intros []; [|by apply triple_ret]. simpl negb. eapply triple_bind; [by apply exit_if_killed_triple|]. intros b. by apply triple_ret.
Qed.

Lemma trap_switch_triple cur cpuid tf : triple fd_ok (trap_switch cur cpuid tf) (λ _, fd_ok).
Proof.
  assert (Hdev : ∀ B (m : M D B), triple fd_ok (dev m) (λ _, fd_ok)) by (intros B m; apply (dev_triple (fd_inv [] []))).
  assert (Hwake : ∀ l, triple fd_ok (kern (mfor l (λ c, wakeup c))) (λ _, fd_ok)).
  { intros l. apply kern_calm, calm_mfor. intros ch. apply calm_wakeup. }
  assert (Hintr : ∀ m : M D (list chan), triple fd_ok (l ← dev m; kern (mfor l (λ c, wakeup c));; dev lapiceoi) (λ _, fd_ok)).
  { intros m. eapply triple_bind; [apply Hdev|]. intros l. eapply triple_bind; [apply Hwake|]. intros []. apply Hdev. }
  unfold trap_switch. case_decide; [|repeat (case_decide; [first [apply Hintr|apply Hdev|by apply triple_ret]|])].
  - eapply (triple_bind _ _ _ (λ _, fd_ok)); [|intros []; apply Hdev]. case_decide; [|by apply triple_ret].
    eapply (triple_bind _ _ _ (λ _, fd_ok)); [by apply triple_modify|]. intros []. apply kern_calm, calm_wakeup.
  - destruct cur as [c|]; [|apply triple_panic]. case_decide; [apply triple_panic|]. apply kern_calm, calm_updp. by intros p.
Qed.

Lemma trap_end_triple c tf : c < NPROC → triple fd_ok (trap_end kend kdata devsw_read devsw_write c tf) (λ _, fd_ok).
Proof.
  intros Hc. unfold trap_end. eapply (triple_bind _ _ _ (λ _, fd_ok)); [|intros b; by apply triple_ret].
  case_bool_decide; [by apply exit_if_killed_triple|by apply triple_ret].
Qed.

Lemma trap_triple cur cpuid tf :
  triple (λ x, fd_ok x ∧ ∀ c, cur = Some c → ready c x) (trap kend kdata forkret devsw_read devsw_write cur cpuid tf) (λ _, fd_ok).
Proof.
  unfold trap. destruct cur as [c|].
  - eapply triple_pre; [|intros x [_ Hx]; exact (Hx c eq_refl)]. apply ready_triple. intros Hc. case_decide as Hsys.
    { eapply triple_bind; [apply kern_ready, calm_updp; by intros p|]. intros []. apply trap_syscall_triple. }
    eapply triple_bind; [eapply triple_pre; [apply trap_switch_triple|by intros x [Hx _]]|]. intros [].
    eapply (triple_bind _ _ _ (λ _, fd_ok)); [case_bool_decide; [by apply exit_if_killed_triple|by apply triple_ret]|].
    intros []; [by apply triple_ret|]. eapply triple_bind; [apply kern_calm, calm_getp|]. intros p.
    eapply triple_bind; [apply ticks_triple|]. intros t. case_decide; [|by apply trap_end_triple].
    eapply triple_bind; [apply kern_calm, calm_yield|]. intros u. by apply triple_ret.
  - case_decide; [apply triple_panic|]. eapply triple_bind; [eapply triple_pre; [apply trap_switch_triple|by intros x [Hx _]]|].
    intros []. by apply triple_ret.
Qed.

Lemma userinit_triple pid killed :
  let _ := kernel_proc_env kend kdata devsw_read devsw_write pid killed in
  triple (fd_inv [] []) (userinit forkret initcode) (λ _, fd_inv [] []).
Proof.
  intros penv. unfold userinit. eapply triple_bind; [apply allocproc_triple|]. intros [i|]; [|apply triple_panic].
  eapply triple_pre; [apply calm_triple|by intros s [Hs _]]. apply calm_bind; [intros s [] s' [= <-]; by constructor|]. intros [].
  calm_tac. by apply (calm_state i RUNNABLE (λ p, p)).
Qed.

(** ** Everything together *)

(** What the machine does, one kernel entry at a time: the first process is set
    up; a CPU takes a trap, in a system call of the process that it runs or an
    interrupt, and handles it to its end, or until the process is off the CPU in
    [yield], [wait], [sleep] or [exit]; a process goes on after these; the
    scheduler picks a process; the clock and the devices change. The interleaving
    of two entries, on two CPUs or because one of them sleeps for a block or a
    pipe in the middle of its work, is not a step of this relation. *)
Inductive machine_step : machine St D → machine St D → Prop :=
| ms_init pid killed x k :
    @userinit _ (kernel_proc_env kend kdata devsw_read devsw_write pid killed) forkret initcode (m_kernel x) = Done tt k →
    machine_step x (Machine k (m_ticks x) (m_dev x))
| ms_trap cur cpuid tf x b x' : (∀ c, cur = Some c → running c (m_kernel x)) →
    trap kend kdata forkret devsw_read devsw_write cur cpuid tf x = Done b x' → machine_step x x'
| ms_trap_end c tf x b x' : c < NPROC →
    trap_end kend kdata devsw_read devsw_write c tf x = Done b x' → machine_step x x'
| ms_wait c pid killed x r x' :
    sys_wait kend kdata devsw_read devsw_write c pid killed x = Done r x' → machine_step x x'
| ms_sleep c t0 n x r x' : sys_sleep_loop c t0 n x = Done r x' → machine_step x x'
| ms_schedule i x r k : scheduler_next i (m_kernel x) = Done r k → machine_step x (Machine k (m_ticks x) (m_dev x))
| ms_resume c x k : sleep_resume c (m_kernel x) = Done tt k → machine_step x (Machine k (m_ticks x) (m_dev x))
| ms_device x t d : machine_step x (Machine (m_kernel x) t d).

Lemma machine_step_ok x x' : fd_ok x → machine_step x x' → fd_ok x'.
Proof.
  intros Hx Hst. destruct Hst as [pid killed x k Hr|cur cpuid tf x b x' Hrun Hr|c tf x b x' Hc Hr|c pid killed x r x' Hr|
    c t0 n x r x' Hr|i x r k Hr|c x k Hr|x t d].
  - unfold fd_ok. simpl. by eapply userinit_triple.
  - eapply trap_triple; [|exact Hr]. split; [done|]. intros c ->. split; [done|auto].
  - by eapply trap_end_triple.
  - by eapply wait_call.
  - revert x r x' Hx Hr. change (triple (S := machine St D) fd_ok (sys_sleep_loop c t0 n) (λ _, fd_ok)). unfold sys_sleep_loop.
    eapply triple_bind; [apply ticks_triple|]. intros t. case_decide; [|by apply triple_ret].
    eapply triple_bind; [apply kern_calm, calm_getp|]. intros p. case_decide; [by apply triple_ret|].
    eapply triple_bind; [apply kern_calm, calm_sleep|]. intros u. by apply triple_ret.
  - unfold fd_ok. simpl. eapply calm_triple; [|exact Hx|exact Hr]. unfold scheduler_next. calm_tac. by apply (calm_state _ RUNNING (λ p, p)).
  - unfold fd_ok. simpl. eapply calm_triple; [|exact Hx|exact Hr]. unfold sleep_resume. calm_tac.
  - done.
Qed.

Lemma boot_ok k t d : ps_procs k = replicate NPROC zero_proc →
  (∀ i f, ft_file (ps_env k) !! i = Some f → f_ref f = 0%Z) → fd_ok (Machine k t d).
Proof.
  intros Hp Hf. unfold fd_ok, fd_inv. simpl. rewrite Hp. assert (Hz : ∀ n, fds (replicate n zero_proc) = []).
  { induction n as [|n IH]; [done|]. simpl replicate. by rewrite fds_cons, IH. }
  split.
  - constructor; [done|..]; by intros p [-> _]%elem_of_replicate.
  - exists []. rewrite Hz. split; [|done]. split; simpl; [|by intros f ?%elem_of_nil]. intros i f Hi. by rewrite (Hf _ _ Hi).
Qed.

(** What the descriptors and the file table have to do with each other. *)
Record counted (x : machine St D) : Prop := {
  ct_ref : ∀ i f, ft_file (ps_env (m_kernel x)) !! i = Some f → f_ref f = Z.of_nat (cnt i (fds (ps_procs (m_kernel x))));
  ct_open : ∀ p fd i, p ∈ ps_procs (m_kernel x) → p_ofile p !! fd = Some (Some i) →
    ∃ f, ft_file (ps_env (m_kernel x)) !! i = Some f ∧ (1 ≤ f_ref f)%Z;
  ct_closed : ∀ p fd i, p ∈ ps_procs (m_kernel x) → closed p → p_ofile p !! fd ≠ Some (Some i)
}.

Lemma counted_ok x : fd_ok x → counted x.
Proof.
  intros ([_ _ Hcl] & R & [Hr Hl] & Hp). simpl in Hr, Hl, Hp.
  assert (Hin : ∀ p fd i, p_ofile p !! fd = Some (Some i) → i ∈ own p).
  { intros p fd i Hi. unfold own. apply list_elem_of_bind. exists (Some i). split; [by left|by eapply list_elem_of_lookup_2]. }
  constructor.
  - intros i f Hi. by rewrite (Hr _ _ Hi), Hp.
  - intros p fd i Hpr Hi. assert (HiR : i ∈ R).
    { rewrite Hp. unfold fds. apply list_elem_of_bind. exists p. split; [by eapply Hin|done]. }
    destruct (lookup_lt_is_Some_2 _ _ (Hl _ HiR)) as [f Hf]. exists f. split; [done|]. rewrite (Hr _ _ Hf). apply cnt_elem in HiR. lia.
  - intros p fd i Hpr Hc Hi. apply (not_elem_of_nil i). rewrite <-(Hcl p) by done. by eapply Hin.
Qed.

(** C24. The whole kernel keeps account of open files, between kernel entries:
    in every state that traps, system calls (fork, exit, open, close, dup, pipe,
    exec and the others, with all their error paths) and scheduling lead to from
    boot, each entry handled to its end before the next one begins, the
    reference count of each entry of the file table is the number of descriptors
    of processes that refer to it, so no entry leaks and none is freed while it
    is in use; every descriptor refers to an entry that is in use; and unused
    slots and zombies have no descriptors. Within an entry this need not hold:
    [exit] drops a file's reference before it clears the descriptor, and may
    sleep in between. *)
Theorem fd_references :
  (∀ k t d, ps_procs k = replicate NPROC zero_proc → (∀ i f, ft_file (ps_env k) !! i = Some f → f_ref f = 0%Z) →
    fd_ok (Machine k t d)) ∧
  (∀ x0 x, fd_ok x0 → rtc machine_step x0 x → counted x).
Proof.
  split; [exact boot_ok|]. intros x0 x Hx Hst. apply counted_ok.
  induction Hst as [|x y z Hxy _ IH]; [done|]. by eapply IH, machine_step_ok.
Qed.
End machine.

(** ** Witness *)

#[local] Instance demo_dev : DevEnv unit := {|
  ideintr := mret [];
  kbdintr := mret [];
  uartintr := mret [];
  lapiceoi := mret tt;
  outw _ _ := mret tt
|}.
#[local] Instance demo_blocks : BlockCache bstate := bio_cache 1.

(** Process 0 runs with file 0 as its descriptor 0, its stack is empty. *)
Definition demo_tf : trapframe := Trapframe 0 0 0 0 0 0 0 10 0 0 0 0 T_SYSCALL 0 0 0x1b 0 0 0.
Definition demo_dup_proc : proc :=
  Proc PGSIZE 0 1 RUNNING 1 None zero_tf (Context 0 0 0 0 0) None 0 (Some 0 :: replicate 15 None) (Some 0) [].
Definition demo_fds : machine bstate unit :=
  Machine (PState (demo_dup_proc :: replicate 63 zero_proc) (Some 0) 2
    (Ftable [File FD_INODE 1 1 1 0 0 0; zero_file]
      (Kenv (FState (LState (BState [] [] []) (Log 2 30 0 0 1 (LogHeader 0 []))) (Superblock 0 0 0 0 0 0 0) []) ∅ (Kmem 0 0 ∅) []))) 0 tt.

Definition demo_trap : M (machine bstate unit) bool :=
  trap 0x80115000 0x80108000 0 (λ _, None) (λ _, None) (Some 0) 0 demo_tf.

(** dup(0) gives descriptor 1, and the file two references. *)
Lemma fd_references_witness : ∃ b x, demo_trap demo_fds = Done b x ∧
  counted x ∧ p_ofile <$> head (ps_procs (m_kernel x)) = Some (Some 0 :: Some 0 :: replicate 14 None) ∧
  cnt 0 (fds (ps_procs (m_kernel x))) = 2.
Proof.
  assert (Hrun : match demo_trap demo_fds with
    | Done b x => (p_ofile <$> head (ps_procs (m_kernel x)), cnt 0 (fds (ps_procs (m_kernel x)))) =
        (Some (Some 0 :: Some 0 :: replicate 14 None), 2)
    | _ => False
    end) by (vm_compute; reflexivity).
  destruct (demo_trap demo_fds) as [b x| | |] eqn:Htrap; [|done..]. injection Hrun as H1 H2. exists b, x. split_and!; [done| |done..].
  assert (Hok : fd_ok demo_fds).
  { assert (Hz : fds (replicate 63 zero_proc) = []) by done. split.
    - constructor; [done|..]; intros p [->|[-> _]%elem_of_replicate]%elem_of_cons; try done. by intros [?|?].
    - exists [0]. split; [|done]. split; simpl.
      + intros [|[|i]] f Hf; simpl in Hf; by simplify_eq.
      + intros f [->|?%elem_of_nil]%elem_of_cons; [lia|done]. }
  apply (proj2 (fd_references 0x80115000 0x80108000 0 [] (λ _, None) (λ _, None)) demo_fds x Hok). apply rtc_once.
  eapply (ms_trap _ _ _ _ _ _ (Some 0) 0 demo_tf); [|exact Htrap]. intros c [= <-]. exists demo_dup_proc. split; [done|]. by intros [?|?].
Defined.
