(* ===== verification/Desc.v ===== *)
(** * Segments and gates (mmu.h, vm.c [seginit], [switchuvm], trap.c [tvinit])

    The descriptor tables through which the CPU enters the kernel. A descriptor
    is a struct of bit fields; [pack] lays it out as the compiler does, and the
    functions [hw_...] read it back at the positions that the processor's manual
    gives. *)

From S2P Require Import Prelude Params Spinlock Kalloc Proc Trap.

Local Open Scope Z_scope.

(** ** Bit fields *)

(** Fields of given widths, the first one in the lowest bits. *)
Fixpoint pack (l : list (Z * Z)) : Z :=
  match l with
  | [] => 0
  | (v, w) :: l => v `mod` 2 ^ w + 2 ^ w * pack l
  end.

Definition field (b off w : Z) : Z := (b / 2 ^ off) `mod` 2 ^ w.
Definition width (l : list (Z * Z)) : Z := foldr (λ x s, x.2 + s) 0 l.

Lemma width_nonneg l : Forall (λ x, 0 ≤ x.2) l → 0 ≤ width l.
Proof. induction 1; simpl; lia. Qed.

Lemma field_pack l1 v w l2 : Forall (λ x, 0 ≤ x.2) l1 → 0 ≤ w → field (pack (l1 ++ (v, w) :: l2)) (width l1) w = v `mod` 2 ^ w.
Proof.
  intros Hl Hw. induction Hl as [|[v1 w1] l1 Hw1 Hl IH]; unfold field in *; simpl in *.
  - rewrite Z.div_1_r, Z.mul_comm, Z.mod_add by lia. by rewrite Z.mod_mod by lia.
  - pose proof (width_nonneg l1 Hl). rewrite Z.pow_add_r, <-Z.div_div by lia. rewrite (Z.mul_comm (2 ^ w1) (pack _)), Z.div_add by lia.
    rewrite (Z.div_small (v1 `mod` 2 ^ w1)), Z.add_0_l; [done|]. apply Z.mod_pos_bound. lia.
Qed.

Lemma field_at l i v w : Forall (λ x, 0 ≤ x.2) l → l !! i = Some (v, w) → field (pack l) (width (take i l)) w = v `mod` 2 ^ w.
Proof.
  intros Hall Hi. rewrite <-(take_drop_middle _ _ _ Hi) at 1. apply field_pack; [by apply Forall_take|].
  by eapply (Forall_lookup_1 _ _ _ _ Hall) in Hi.
Qed.

(** ** mmu.h *)

Definition SEG_KCODE : Z := 1.
Definition SEG_KDATA : Z := 2.
Definition SEG_UCODE : Z := 3.
Definition SEG_UDATA : Z := 4.
Definition SEG_TSS : Z := 5.
Definition NSEGS : nat := 6.
Definition STA_X : Z := 0x8.
Definition STA_W : Z := 0x2.
Definition STA_R : Z := 0x2.
Definition STS_T32A : Z := 0x9.
Definition STS_IG32 : Z := 0xE.
Definition STS_TG32 : Z := 0xF.

Record segdesc := Segdesc {
  lim_15_0 : Z; base_15_0 : Z; base_23_16 : Z; sd_type : Z; sd_s : Z; sd_dpl : Z; sd_p : Z;
  lim_19_16 : Z; sd_avl : Z; sd_rsv1 : Z; sd_db : Z; sd_g : Z; base_31_24 : Z
}.
Definition segdesc_fields (d : segdesc) : list (Z * Z) :=
  [(lim_15_0 d, 16); (base_15_0 d, 16); (base_23_16 d, 8); (sd_type d, 4); (sd_s d, 1); (sd_dpl d, 2); (sd_p d, 1);
   (lim_19_16 d, 4); (sd_avl d, 1); (sd_rsv1 d, 1); (sd_db d, 1); (sd_g d, 1); (base_31_24 d, 8)].

Definition SEG (type base lim dpl : Z) : segdesc :=
  Segdesc (Z.land (Z.shiftr lim 12) 0xffff) (Z.land base 0xffff) (Z.land (Z.shiftr base 16) 0xff) type 1 dpl 1
    (Z.shiftr lim 28) 0 0 1 1 (Z.shiftr base 24).
Definition SEG16 (type base lim dpl : Z) : segdesc :=
  Segdesc (Z.land lim 0xffff) (Z.land base 0xffff) (Z.land (Z.shiftr base 16) 0xff) type 1 dpl 1
    (Z.shiftr lim 16) 0 0 1 0 (Z.shiftr base 24).

Record gatedesc := Gatedesc {
  off_15_0 : Z; gd_cs : Z; gd_args : Z; gd_rsv1 : Z; gd_type : Z; gd_s : Z; gd_dpl : Z; gd_p : Z; off_31_16 : Z
}.
Definition gatedesc_fields (g : gatedesc) : list (Z * Z) :=
  [(off_15_0 g, 16); (gd_cs g, 16); (gd_args g, 5); (gd_rsv1 g, 3); (gd_type g, 4); (gd_s g, 1); (gd_dpl g, 2); (gd_p g, 1);
   (off_31_16 g, 16)].

Definition SETGATE (istrap : bool) (sel off d : Z) : gatedesc :=
  Gatedesc (Z.land off 0xffff) sel 0 0 (if istrap then STS_TG32 else STS_IG32) 0 d 1 (Z.shiftr off 16).

(** Of the task state segment the kernel sets three fields; its size is 104. *)
Record taskstate := Taskstate { ts_esp0 : Z; ts_ss0 : Z; ts_iomb : Z }.
Definition TSSZ : Z := 104.
Definition KSTACKSIZE : Z := 4096.

(** ** The tables of a CPU

    [d_gdtr] and [d_idtr] are the limits that [lgdt] and [lidt] load, [d_tr] and
    [d_cr3] the task register and the page directory's address. *)
Record desc := Desc {
  d_gdt : list segdesc; d_ts : taskstate; d_idt : list gatedesc; d_gdtr : Z; d_idtr : Z; d_tr : Z; d_cr3 : Z
}.

Definition zero_seg : segdesc := Segdesc 0 0 0 0 0 0 0 0 0 0 0 0 0.
Definition zero_gate : gatedesc := Gatedesc 0 0 0 0 0 0 0 0 0.
Definition desc_boot : desc := Desc (replicate NSEGS zero_seg) (Taskstate 0 0 0) (replicate 256 zero_gate) 0 0 0 0.

Definition set_gdt (n : Z) (d : segdesc) (s : desc) : desc :=
  Desc (<[Z.to_nat n := d]> (d_gdt s)) (d_ts s) (d_idt s) (d_gdtr s) (d_idtr s) (d_tr s) (d_cr3 s).
Definition set_idt (n : Z) (g : gatedesc) (s : desc) : desc :=
  Desc (d_gdt s) (d_ts s) (<[Z.to_nat n := g]> (d_idt s)) (d_gdtr s) (d_idtr s) (d_tr s) (d_cr3 s).
Definition set_ts (t : taskstate) (s : desc) : desc := Desc (d_gdt s) t (d_idt s) (d_gdtr s) (d_idtr s) (d_tr s) (d_cr3 s).
Definition lgdt (size : Z) (s : desc) : desc := Desc (d_gdt s) (d_ts s) (d_idt s) (size - 1) (d_idtr s) (d_tr s) (d_cr3 s).
Definition lidt (size : Z) (s : desc) : desc := Desc (d_gdt s) (d_ts s) (d_idt s) (d_gdtr s) (size - 1) (d_tr s) (d_cr3 s).
Definition ltr (sel : Z) (s : desc) : desc := Desc (d_gdt s) (d_ts s) (d_idt s) (d_gdtr s) (d_idtr s) sel (d_cr3 s).
Definition lcr3 (pa : Z) (s : desc) : desc := Desc (d_gdt s) (d_ts s) (d_idt s) (d_gdtr s) (d_idtr s) (d_tr s) pa.

Section desc_code.
Variable vectors : Z → Z.      (* the entry points that vectors.pl generates *)
Variable ts_addr : Z.          (* the address of this CPU's task state *)

Definition seginit (s : desc) : desc :=
  let s := set_gdt SEG_KCODE (SEG (Z.lor STA_X STA_R) 0 0xffffffff 0) s in
  let s := set_gdt SEG_KDATA (SEG STA_W 0 0xffffffff 0) s in
  let s := set_gdt SEG_UCODE (SEG (Z.lor STA_X STA_R) 0 0xffffffff DPL_USER) s in
  let s := set_gdt SEG_UDATA (SEG STA_W 0 0xffffffff DPL_USER) s in
  lgdt (8 * Z.of_nat NSEGS) s.

Definition tvinit (s : desc) : desc :=
  let s := foldl (λ s i, set_idt i (SETGATE false (Z.shiftl SEG_KCODE 3) (vectors i) 0) s) s (seqZ 0 256) in
  set_idt T_SYSCALL (SETGATE true (Z.shiftl SEG_KCODE 3) (vectors T_SYSCALL) DPL_USER) s.

Definition idtinit (s : desc) : desc := lidt (8 * 256) s.

Definition switchkvm (kpgdir : Z) (s : desc) : desc := lcr3 (V2P kpgdir) s.

(** The part of [switchuvm] after its checks; [pushcli] and [popcli] around it
    are in Spinlock.v. *)
Definition switchuvm (kstack pgdir : Z) (s : desc) : desc :=
  let d := SEG16 STS_T32A ts_addr (TSSZ - 1) 0 in
  let s := set_gdt SEG_TSS d s in
  let s := set_gdt SEG_TSS (Segdesc (lim_15_0 d) (base_15_0 d) (base_23_16 d) (sd_type d) 0 (sd_dpl d) (sd_p d)
    (lim_19_16 d) (sd_avl d) (sd_rsv1 d) (sd_db d) (sd_g d) (base_31_24 d)) s in
  let s := set_ts (Taskstate (u32 (kstack + KSTACKSIZE)) (Z.shiftl SEG_KDATA 3) 0xFFFF) s in
  let s := ltr (Z.shiftl SEG_TSS 3) s in
  lcr3 (V2P pgdir) s.
End desc_code.

(** ** What the processor reads *)

(** A segment: base, limit in bytes, type, application or system, privilege
    level, present, 32-bit. *)
Record hwseg := HwSeg { hs_base : Z; hs_limit : Z; hs_type : Z; hs_s : Z; hs_dpl : Z; hs_p : Z; hs_db : Z }.
Definition hw_seg (b : Z) : hwseg :=
  let lim := field b 0 16 + 2 ^ 16 * field b 48 4 in
  HwSeg (field b 16 16 + 2 ^ 16 * field b 32 8 + 2 ^ 24 * field b 56 8)
    (if decide (field b 55 1 = 1) then lim * 4096 + 4095 else lim)
    (field b 40 4) (field b 44 1) (field b 45 2) (field b 47 1) (field b 54 1).

(** A gate: offset, selector, type, privilege level, present. *)
Record hwgate := HwGate { hg_off : Z; hg_sel : Z; hg_type : Z; hg_dpl : Z; hg_p : Z }.
Definition hw_gate (b : Z) : hwgate :=
  HwGate (field b 0 16 + 2 ^ 16 * field b 48 16) (field b 16 16) (field b 40 4) (field b 45 2) (field b 47 1).

(** The descriptor of a selector, and the gate of a vector, if they are within
    the limits of the tables. *)
Definition segment (s : desc) (sel : Z) : option hwseg :=
  if decide (8 * (sel / 8) + 7 ≤ d_gdtr s) then d ← d_gdt s !! Z.to_nat (sel / 8); Some (hw_seg (pack (segdesc_fields d))) else None.
Definition gate (s : desc) (n : Z) : option hwgate :=
  if decide (8 * n + 7 ≤ d_idtr s) then g ← d_idt s !! Z.to_nat n; Some (hw_gate (pack (gatedesc_fields g))) else None.

(** Each field of a descriptor is read where it was put. *)
Lemma seg_view d : hw_seg (pack (segdesc_fields d)) =
  let lim := lim_15_0 d `mod` 2 ^ 16 + 2 ^ 16 * (lim_19_16 d `mod` 2 ^ 4) in
  HwSeg (base_15_0 d `mod` 2 ^ 16 + 2 ^ 16 * (base_23_16 d `mod` 2 ^ 8) + 2 ^ 24 * (base_31_24 d `mod` 2 ^ 8))
    (if decide (sd_g d `mod` 2 ^ 1 = 1) then lim * 4096 + 4095 else lim)
    (sd_type d `mod` 2 ^ 4) (sd_s d `mod` 2 ^ 1) (sd_dpl d `mod` 2 ^ 2) (sd_p d `mod` 2 ^ 1) (sd_db d `mod` 2 ^ 1).
Proof.
  assert (Hf := λ i v w, field_at (segdesc_fields d) i v w ltac:(repeat constructor; simpl; lia)).
  unfold hw_seg.
  rewrite (Hf 0%nat _ _ eq_refl : field _ 0 16 = _), (Hf 1%nat _ _ eq_refl : field _ 16 16 = _), (Hf 2%nat _ _ eq_refl : field _ 32 8 = _),
    (Hf 3%nat _ _ eq_refl : field _ 40 4 = _), (Hf 4%nat _ _ eq_refl : field _ 44 1 = _), (Hf 5%nat _ _ eq_refl : field _ 45 2 = _),
    (Hf 6%nat _ _ eq_refl : field _ 47 1 = _), (Hf 7%nat _ _ eq_refl : field _ 48 4 = _), (Hf 10%nat _ _ eq_refl : field _ 54 1 = _),
    (Hf 11%nat _ _ eq_refl : field _ 55 1 = _), (Hf 12%nat _ _ eq_refl : field _ 56 8 = _). done.
Qed.

Lemma gate_view g : hw_gate (pack (gatedesc_fields g)) =
  HwGate (off_15_0 g `mod` 2 ^ 16 + 2 ^ 16 * (off_31_16 g `mod` 2 ^ 16)) (gd_cs g `mod` 2 ^ 16) (gd_type g `mod` 2 ^ 4) (gd_dpl g `mod` 2 ^ 2) (gd_p g `mod` 2 ^ 1).
Proof.
  assert (Hf := λ i v w, field_at (gatedesc_fields g) i v w ltac:(repeat constructor; simpl; lia)).
  unfold hw_gate.
  rewrite (Hf 0%nat _ _ eq_refl : field _ 0 16 = _), (Hf 1%nat _ _ eq_refl : field _ 16 16 = _), (Hf 4%nat _ _ eq_refl : field _ 40 4 = _),
    (Hf 6%nat _ _ eq_refl : field _ 45 2 = _), (Hf 7%nat _ _ eq_refl : field _ 47 1 = _), (Hf 8%nat _ _ eq_refl : field _ 48 16 = _). done.
Qed.

Lemma low_bits x n : 0 ≤ n → Z.land x (Z.ones n) `mod` 2 ^ n = x `mod` 2 ^ n.
Proof. intros Hn. rewrite Z.land_ones by done. apply Z.mod_mod. lia. Qed.

(** A word from its parts. *)
Lemma join_word x : is_u32 x → x `mod` 2 ^ 16 + 2 ^ 16 * (Z.shiftr x 16 `mod` 2 ^ 16) = x.
Proof.
  unfold is_u32. intros Hx. rewrite Z.shiftr_div_pow2 by lia. change (2 ^ 32) with 4294967296 in Hx. change (2 ^ 16) with 65536. Z.to_euclidean_division_equations. lia.
Qed.

Lemma join_base x : is_u32 x → x `mod` 2 ^ 16 + 2 ^ 16 * (Z.shiftr x 16 `mod` 2 ^ 8) + 2 ^ 24 * (Z.shiftr x 24 `mod` 2 ^ 8) = x.
Proof.
  unfold is_u32. intros Hx. rewrite !Z.shiftr_div_pow2 by lia. change (2 ^ 32) with 4294967296 in Hx. change (2 ^ 16) with 65536. change (2 ^ 8) with 256.
  change (2 ^ 24) with 16777216. Z.to_euclidean_division_equations. lia.
Qed.

(** [SEG] makes a segment of whole pages, [SETGATE] a gate to the handler. *)
Lemma SEG_view type base lim dpl : is_u32 base → is_u32 lim → 0 ≤ type < 16 → 0 ≤ dpl < 4 →
  hw_seg (pack (segdesc_fields (SEG type base lim dpl))) = HwSeg base (lim / 4096 * 4096 + 4095) type 1 dpl 1 1.
Proof.
  intros Hb Hl Ht Hd. rewrite seg_view. unfold SEG. cbn [lim_15_0 base_15_0 base_23_16 sd_type sd_s sd_dpl sd_p lim_19_16 sd_db sd_g base_31_24].
  change 0xffff with (Z.ones 16). change 0xff with (Z.ones 8). rewrite !low_bits by lia. rewrite (join_base base Hb). rewrite decide_True by done.
  rewrite (Z.mod_small type), (Z.mod_small dpl) by (change (2 ^ 4) with 16; change (2 ^ 2) with 4; lia). f_equal.
  unfold is_u32 in Hl. rewrite !Z.shiftr_div_pow2 by lia. change (2 ^ 32) with 4294967296 in Hl. change (2 ^ 12) with 4096. change (2 ^ 28) with 268435456.
  change (2 ^ 16) with 65536. change (2 ^ 4) with 16. Z.to_euclidean_division_equations. lia.
Qed.

Lemma SETGATE_view istrap sel off dpl : is_u32 off → 0 ≤ sel < 2 ^ 16 → 0 ≤ dpl < 4 →
  hw_gate (pack (gatedesc_fields (SETGATE istrap sel off dpl))) = HwGate off sel (if istrap then STS_TG32 else STS_IG32) dpl 1.
Proof.
  intros Ho Hs Hd. rewrite gate_view. unfold SETGATE. cbn [off_15_0 gd_cs gd_type gd_dpl gd_p off_31_16]. change 0xffff with (Z.ones 16).
  rewrite low_bits, (join_word off Ho), (Z.mod_small sel), (Z.mod_small dpl) by (change (2 ^ 2) with 4; lia). by destruct istrap.
Qed.

(** The loop of [tvinit] fills the table. *)
Lemma gates_set (f : Z → gatedesc) s (k : nat) : (k ≤ length (d_idt s))%nat →
  foldl (λ s i, set_idt i (f i) s) s (seqZ 0 (Z.of_nat k)) =
  Desc (d_gdt s) (d_ts s) ((f <$> seqZ 0 (Z.of_nat k)) ++ drop k (d_idt s)) (d_gdtr s) (d_idtr s) (d_tr s) (d_cr3 s).
Proof.
  induction k as [|k IH]; intros Hk; [by destruct s|]. rewrite seqZ_S, foldl_snoc, IH by lia. unfold set_idt. cbn [d_gdt d_ts d_idt d_gdtr d_idtr d_tr d_cr3].
  f_equal. rewrite fmap_app, Z.add_0_l, Nat2Z.id, insert_app_r_alt by (rewrite length_fmap, length_seqZ; lia).
  rewrite <-app_assoc. f_equal. rewrite length_fmap, length_seqZ, Nat2Z.id, Nat.sub_diag.
  destruct (lookup_lt_is_Some_2 (d_idt s) k ltac:(lia)) as [x Hx]. by rewrite (drop_S _ _ _ Hx).
Qed.

(** The tables after [seginit], [tvinit], [idtinit] and a [switchuvm]. *)
Definition tables (vectors : Z → Z) (ts_addr kstack pgdir : Z) : desc :=
  switchuvm ts_addr kstack pgdir (idtinit (tvinit vectors (seginit desc_boot))).

Definition flat (type dpl : Z) : hwseg := HwSeg 0 0xffffffff type 1 dpl 1 1.
Definition the_gate (vectors : Z → Z) (n : Z) : hwgate :=
  if decide (n = T_SYSCALL) then HwGate (vectors n) (8 * SEG_KCODE) STS_TG32 DPL_USER 1 else HwGate (vectors n) (8 * SEG_KCODE) STS_IG32 0 1.

Lemma tables_gate vectors ts_addr kstack pgdir n : (∀ n, is_u32 (vectors n)) → 0 ≤ n < 256 →
  gate (tables vectors ts_addr kstack pgdir) n = Some (the_gate vectors n).
Proof.
  intros Hv Hn. unfold tables, tvinit. set (s := seginit desc_boot). change (seqZ 0 256) with (seqZ 0 (Z.of_nat 256)).
  rewrite (gates_set (λ i, SETGATE false (Z.shiftl SEG_KCODE 3) (vectors i) 0)) by done. unfold gate. rewrite decide_True by (simpl; lia).
  cbn [switchuvm idtinit set_idt set_gdt set_ts ltr lcr3 lidt d_idt d_gdt d_ts d_gdtr d_idtr d_tr d_cr3]. unfold the_gate. destruct (decide (n = T_SYSCALL)) as [->|Hne].
  - rewrite list_lookup_insert_eq by (rewrite length_app, length_fmap, length_seqZ; unfold T_SYSCALL; lia). cbv [mbind option_bind].
    by rewrite SETGATE_view.
  - rewrite list_lookup_insert_ne by (unfold T_SYSCALL in *; lia). rewrite lookup_app_l by (rewrite length_fmap, length_seqZ; lia).
    rewrite list_lookup_fmap, lookup_seqZ_lt by lia. cbn [fmap option_fmap option_map mbind option_bind]. rewrite Z.add_0_l, Z2Nat.id by lia. by rewrite SETGATE_view.
Qed.

Lemma tables_gdt vectors ts_addr kstack pgdir : d_gdt (tables vectors ts_addr kstack pgdir) =
  [zero_seg; SEG 10 0 0xffffffff 0; SEG 2 0 0xffffffff 0; SEG 10 0 0xffffffff 3; SEG 2 0 0xffffffff 3;
   Segdesc 103 (Z.land ts_addr 0xffff) (Z.land (Z.shiftr ts_addr 16) 0xff) 9 0 0 1 0 0 0 1 0 (Z.shiftr ts_addr 24)].
Proof.
  unfold tables, tvinit. change (seqZ 0 256) with (seqZ 0 (Z.of_nat 256)). by rewrite (gates_set (λ i, SETGATE false (Z.shiftl SEG_KCODE 3) (vectors i) 0)) by done.
Qed.

Lemma tables_gdtr vectors ts_addr kstack pgdir : d_gdtr (tables vectors ts_addr kstack pgdir) = 47.
Proof. done. Qed.

Lemma tables_ts vectors ts_addr kstack pgdir : d_ts (tables vectors ts_addr kstack pgdir) = Taskstate (u32 (kstack + KSTACKSIZE)) 16 0xFFFF.
Proof. done. Qed.

Lemma tables_kcode vectors ts_addr kstack pgdir : segment (tables vectors ts_addr kstack pgdir) 8 = Some (flat 10 0).
Proof. unfold segment. rewrite tables_gdtr, tables_gdt. by vm_compute. Qed.
Lemma tables_kdata vectors ts_addr kstack pgdir : segment (tables vectors ts_addr kstack pgdir) 16 = Some (flat 2 0).
Proof. unfold segment. rewrite tables_gdtr, tables_gdt. by vm_compute. Qed.
Lemma tables_ucode vectors ts_addr kstack pgdir : segment (tables vectors ts_addr kstack pgdir) 27 = Some (flat 10 DPL_USER).
Proof. unfold segment. rewrite tables_gdtr, tables_gdt. by vm_compute. Qed.
Lemma tables_udata vectors ts_addr kstack pgdir : segment (tables vectors ts_addr kstack pgdir) 35 = Some (flat 2 DPL_USER).
Proof. unfold segment. rewrite tables_gdtr, tables_gdt. by vm_compute. Qed.

(** C25. The CPU's tables, as the processor reads them after [seginit], [tvinit],
    [idtinit] and [switchuvm]: kernel and user segments cover the whole address
    space with privilege levels 0 and 3, and there is no other segment but the
    task state; each of the 256 vectors leads to its entry point in the kernel's
    code segment; all are interrupt gates that user code cannot call, except
    for [T_SYSCALL], a trap gate that it can; an interrupt in user mode switches
    to the top of the process's kernel stack, and the I/O permission map is
    outside of the task state, so that user code has no access to ports. *)
Theorem descriptors_correct vectors ts_addr kstack pgdir : (∀ n, is_u32 (vectors n)) → is_u32 ts_addr →
  let s := tables vectors ts_addr kstack pgdir in
  segment s (8 * SEG_KCODE) = Some (flat 10 0) ∧ segment s (8 * SEG_KDATA) = Some (flat 2 0) ∧
  segment s (8 * SEG_UCODE + DPL_USER) = Some (flat 10 DPL_USER) ∧ segment s (8 * SEG_UDATA + DPL_USER) = Some (flat 2 DPL_USER) ∧
  segment s (d_tr s) = Some (HwSeg ts_addr (TSSZ - 1) STS_T32A 0 0 1 1) ∧
  (∀ sel x, 0 ≤ sel → segment s sel = Some x → hs_p x = 1 → SEG_KCODE ≤ sel / 8 ≤ SEG_TSS) ∧
  (∀ n, 0 ≤ n < 256 → gate s n = Some (the_gate vectors n)) ∧ (∀ n, 256 ≤ n → gate s n = None) ∧
  d_ts s = Taskstate (u32 (kstack + KSTACKSIZE)) (8 * SEG_KDATA) 0xFFFF ∧ TSSZ - 1 < ts_iomb (d_ts s) ∧ d_cr3 s = V2P pgdir.
Proof.
  intros Hv Ht s. pose proof (tables_gdtr vectors ts_addr kstack pgdir : d_gdtr s = _) as Hg. pose proof (tables_gdt vectors ts_addr kstack pgdir : d_gdt s = _) as Hs.
  split_and!.
  - apply tables_kcode.
  - apply tables_kdata.
  - apply tables_ucode.
  - apply tables_udata.
  - change (d_tr s) with 40. unfold segment. rewrite Hg, Hs, decide_True by done. change (Z.to_nat (40 / 8)) with 5%nat. cbn [lookup list_lookup mbind option_bind].
    rewrite seg_view. cbn [lim_15_0 base_15_0 base_23_16 sd_type sd_s sd_dpl sd_p lim_19_16 sd_db sd_g base_31_24].
    change 0xffff with (Z.ones 16). change 0xff with (Z.ones 8). rewrite !low_bits by lia. by rewrite (join_base ts_addr Ht).
  - intros sel x Hsel Hx Hp. unfold segment in Hx. rewrite Hg in Hx. case_decide as Hd; [|done]. unfold SEG_KCODE, SEG_TSS.
    destruct (decide (sel / 8 = 0)) as [He|He]; [|Z.to_euclidean_division_equations; lia]. rewrite He, Hs in Hx. cbn in Hx. by injection Hx as <-.
  - intros n Hn. by apply tables_gate.
  - intros n Hn. unfold gate. assert (Hi : d_idtr s = 2047) by done. rewrite Hi. by rewrite decide_False by lia.
  - done.
  - done.
  - done.
Qed.

(** ** Witness *)

Definition demo_vectors (n : Z) : Z := u32 (0x80106000 + 16 * n).

Lemma descriptors_correct_witness :
  gate (tables demo_vectors 0x80112790 0x8dffe000 0x8dfff000) T_SYSCALL = Some (HwGate 0x80106400 8 STS_TG32 3 1) ∧
  gate (tables demo_vectors 0x80112790 0x8dffe000 0x8dfff000) 14 = Some (HwGate 0x801060e0 8 STS_IG32 0 1).
Proof.
  destruct (descriptors_correct demo_vectors 0x80112790 0x8dffe000 0x8dfff000 (λ n, u32_range _) ltac:(unfold is_u32; lia))
    as (_ & _ & _ & _ & _ & _ & Hg & _).
  split; [exact (Hg T_SYSCALL ltac:(unfold T_SYSCALL; lia))|exact (Hg 14 ltac:(lia))].
Defined.
