(* ===== verification/Asm.v ===== *)
(** * Context switch and trap entry (swtch.S, trapasm.S, vectors.pl, usys.S)

    The assembly code as lists of instructions of a small x86 machine: the
    registers, memory in words, and the processor's entry to and exit from an
    interrupt handler through the tables of Desc.v. Within a list of instructions
    [eip] is not followed; instructions that transfer control set it. *)

From S2P Require Import Prelude Params Spinlock Kalloc Proc Syscall Trap Desc.

Local Open Scope Z_scope.

(** ** The machine *)

Inductive reg := EAX | ECX | EDX | EBX | ESP | EBP | ESI | EDI.
Inductive sreg := DS | ES | FS | GS.

Record regs := Regs {
  eax : Z; ecx : Z; edx : Z; ebx : Z; esp : Z; ebp : Z; esi : Z; edi : Z;
  eip : Z; eflags : Z; cs : Z; ss : Z; ds : Z; es : Z; fs : Z; gs : Z
}.

Definition get (r : reg) (s : regs) : Z :=
  match r with EAX => eax s | ECX => ecx s | EDX => edx s | EBX => ebx s | ESP => esp s | EBP => ebp s | ESI => esi s | EDI => edi s end.
Definition set (r : reg) (v : Z) (s : regs) : regs :=
  let '(Regs a c d b sp bp si di ip fl cs ss ds es fs gs) := s in
  match r with
  | EAX => Regs v c d b sp bp si di ip fl cs ss ds es fs gs
  | ECX => Regs a v d b sp bp si di ip fl cs ss ds es fs gs
  | EDX => Regs a c v b sp bp si di ip fl cs ss ds es fs gs
  | EBX => Regs a c d v sp bp si di ip fl cs ss ds es fs gs
  | ESP => Regs a c d b v bp si di ip fl cs ss ds es fs gs
  | EBP => Regs a c d b sp v si di ip fl cs ss ds es fs gs
  | ESI => Regs a c d b sp bp v di ip fl cs ss ds es fs gs
  | EDI => Regs a c d b sp bp si v ip fl cs ss ds es fs gs
  end.
Definition sget (r : sreg) (s : regs) : Z := match r with DS => ds s | ES => es s | FS => fs s | GS => gs s end.
Definition sset (r : sreg) (v : Z) (s : regs) : regs :=
  let '(Regs a c d b sp bp si di ip fl cs ss ds es fs gs) := s in
  match r with
  | DS => Regs a c d b sp bp si di ip fl cs ss v es fs gs
  | ES => Regs a c d b sp bp si di ip fl cs ss ds v fs gs
  | FS => Regs a c d b sp bp si di ip fl cs ss ds es v gs
  | GS => Regs a c d b sp bp si di ip fl cs ss ds es fs v
  end.
(** [eip], [eflags], [cs] and [ss]. *)
Definition set_eip (v : Z) (s : regs) : regs :=
  let '(Regs a c d b sp bp si di _ fl cs ss ds es fs gs) := s in Regs a c d b sp bp si di v fl cs ss ds es fs gs.
Definition set_ctl (ip fl code stk : Z) (s : regs) : regs :=
  let '(Regs a c d b sp bp si di _ _ _ _ ds es fs gs) := s in Regs a c d b sp bp si di ip fl code stk ds es fs gs.

Record mach := Mach { m_r : regs; m_mem : Z → Z }.

Definition upd (a v : Z) (m : Z → Z) (b : Z) : Z := if decide (b = a) then v else m b.
Definition with_r (f : regs → regs) (m : mach) : mach := Mach (f (m_r m)) (m_mem m).

Definition push (v : Z) (m : mach) : mach :=
  let sp := u32 (esp (m_r m) - 4) in Mach (set ESP sp (m_r m)) (upd sp v (m_mem m)).
(** The word on top of the stack, and the machine without it. *)
Definition top (m : mach) : Z := m_mem m (esp (m_r m)).
Definition drop4 (m : mach) : mach := with_r (λ r, set ESP (u32 (esp r + 4)) r) m.

Inductive instr :=
| pushl (r : reg) | popl (r : reg)
| pushl_s (r : sreg) | popl_s (r : sreg)
| pushl_i (n : Z)
| pushal | popal
| movl (src dst : reg)                 (* movl %src, %dst *)
| movl_i (n : Z) (dst : reg)           (* movl $n, %dst *)
| movl_load (off : Z) (base dst : reg) (* movl off(%base), %dst *)
| movl_store (src base : reg)          (* movl %src, (%base) *)
| movw_i_ax (n : Z)                    (* movw $n, %ax *)
| movw_ax (r : sreg)                   (* movw %ax, %r *)
| addl_i (n : Z) (dst : reg)
| jmp (a : Z)
| call (a next : Z)                    (* next: the address after the call *)
| ret.

Definition pop (f : Z → regs → regs) (m : mach) : mach := with_r (f (top m)) (drop4 m).

Definition exec (i : instr) (m : mach) : mach :=
  match i with
  | pushl r => push (get r (m_r m)) m
  | popl r => pop (set r) m
  | pushl_s r => push (sget r (m_r m)) m
  | popl_s r => pop (λ v, sset r (v `mod` 2 ^ 16)) m
  | pushl_i n => push n m
  | pushal =>
    let r := m_r m in
    push (edi r) (push (esi r) (push (ebp r) (push (esp r) (push (ebx r) (push (edx r) (push (ecx r) (push (eax r) m)))))))
  | popal =>
    let m := pop (set EBP) (pop (set ESI) (pop (set EDI) m)) in
    let m := drop4 m in
    pop (set EAX) (pop (set ECX) (pop (set EDX) (pop (set EBX) m)))
  | movl src dst => with_r (λ r, set dst (get src r) r) m
  | movl_i n dst => with_r (set dst n) m
  | movl_load off base dst => with_r (set dst (m_mem m (u32 (get base (m_r m) + off)))) m
  | movl_store src base => Mach (m_r m) (upd (get base (m_r m)) (get src (m_r m)) (m_mem m))
  | movw_i_ax n => with_r (λ r, set EAX (eax r / 2 ^ 16 * 2 ^ 16 + n) r) m
  | movw_ax s => with_r (λ r, sset s (eax r `mod` 2 ^ 16) r) m
  | addl_i n dst => with_r (λ r, set dst (u32 (get dst r + n)) r) m
  | jmp a => with_r (set_eip a) m
  | call a next => with_r (set_eip a) (push next m)
  | ret => pop set_eip m
  end.

Definition run (l : list instr) (m : mach) : mach := foldl (λ m i, exec i m) m l.

(** ** Interrupts *)

Definition cpl (m : mach) : Z := cs (m_r m) `mod` 4.
Definition CODE_SEG (x : hwseg) : Prop := hs_p x = 1 ∧ hs_s x = 1 ∧ 8 ≤ hs_type x.
#[export] Instance CODE_SEG_dec x : Decision (CODE_SEG x).
Proof. unfold CODE_SEG. apply _. Defined.

(** The flags that a handler starts with: TF, NT, RF and VM are clear, and so is
    IF for an interrupt gate. *)
Definition entry_flags (type fl : Z) : Z :=
  Z.ldiff fl (Z.lor 0x34100 (if decide (type = STS_IG32) then FL_IF else 0)).

(** The exceptions with an error code: double fault, invalid TSS, segment not
    present, stack fault, general protection, page fault, alignment check. *)
Definition hw_err (n : Z) : bool := bool_decide (n ∈ [8; 10; 11; 12; 13; 14; 17]).

(** Interrupt or exception [n], with an error code if it has one. *)
Definition deliver (d : desc) (n : Z) (err : option Z) (m : mach) : option mach :=
  g ← gate d n;
  x ← segment d (hg_sel g);
  if decide (hg_p g = 1 ∧ CODE_SEG x ∧ hs_dpl x ≤ cpl m) then
    let r := m_r m in
    let m1 := if decide (hs_dpl x < cpl m)
      then push (esp r) (push (ss r) (with_r (λ r, set_ctl (eip r) (eflags r) (cs r) (ts_ss0 (d_ts d)) (set ESP (ts_esp0 (d_ts d)) r)) m))
      else m in
    let m2 := push (eip r) (push (cs r) (push (eflags r) m1)) in
    let m3 := match err with Some e => push e m2 | None => m2 end in
    Some (with_r (λ r, set_ctl (hg_off g) (entry_flags (hg_type g) (eflags r)) (hg_sel g / 4 * 4 + hs_dpl x) (ss r) r) m3)
  else None.

(** int $n, with the address of the next instruction: a gate of a more
    privileged level causes a general protection fault at the instruction. *)
Definition T_GPFLT : Z := 13.
Definition int_n (d : desc) (n next : Z) (m : mach) : option mach :=
  g ← gate d n;
  if decide (hg_dpl g < cpl m) then deliver d T_GPFLT (Some (8 * n + 2)) m
  else deliver d n None (with_r (set_eip next) m).

Definition iret (d : desc) (m : mach) : option mach :=
  let ip := top m in
  let m1 := drop4 m in
  let code := top m1 `mod` 2 ^ 16 in
  let m2 := drop4 m1 in
  let fl := top m2 in
  let m3 := drop4 m2 in
  x ← segment d code;
  if decide (CODE_SEG x ∧ hs_dpl x = code `mod` 4 ∧ cpl m ≤ code `mod` 4) then
    if decide (cpl m < code `mod` 4) then
      let sp := top m3 in
      let stk := top (drop4 m3) `mod` 2 ^ 16 in
      Some (with_r (λ r, set_ctl ip fl code stk (set ESP sp r)) m3)
    else Some (with_r (λ r, set_ctl ip fl code (ss r) r) m3)
  else None.

(** ** The code *)

Definition swtch : list instr :=
  [movl_load 4 ESP EAX; movl_load 8 ESP EDX;
   pushl EBP; pushl EBX; pushl ESI; pushl EDI;
   movl_store ESP EAX; movl EDX ESP;
   popl EDI; popl ESI; popl EBX; popl EBP; ret].

Section entry.
Variables alltraps trap after_trap : Z.        (* addresses of the labels *)

(** The vectors that do not push a 0 in place of an error code. *)
Definition has_err (n : Z) : bool := (n =? 8) || ((10 <=? n) && (n <=? 14)) || (n =? 17).

Definition vector (n : Z) : list instr :=
  (if has_err n then [] else [pushl_i 0]) ++ [pushl_i n; jmp alltraps].

Definition alltraps_code : list instr :=
  [pushl_s DS; pushl_s ES; pushl_s FS; pushl_s GS; pushal;
   movw_i_ax (Z.shiftl SEG_KDATA 3); movw_ax DS; movw_ax ES;
   pushl ESP; call trap after_trap].

(** After [trap] has returned. *)
Definition alltraps_end : list instr := [addl_i 4 ESP].
Definition trapret : list instr := [popal; popl_s GS; popl_s FS; popl_s ES; popl_s DS; addl_i 0x8 ESP].
End entry.

(** SYSCALL(name) of usys.S, up to and after its int. *)
Definition usys_before (n : Z) : list instr := [movl_i n EAX].
Definition usys_after : list instr := [ret].

(** ** Stacks *)

(** The words of a list, from address [a] on. *)
Fixpoint words (m : Z → Z) (a : Z) (l : list Z) : Prop :=
  match l with
  | [] => True
  | w :: l => m a = w ∧ words m (a + 4) l
  end.

Lemma stack_words_app m l1 : ∀ a l2, words m a (l1 ++ l2) ↔ words m a l1 ∧ words m (a + 4 * Z.of_nat (length l1)) l2.
Proof.
  induction l1 as [|w l1 IH]; intros a l2; cbn [app words length].
  - rewrite Z.mul_0_r, Z.add_0_r. naive_solver.
  - rewrite IH. replace (a + 4 + 4 * Z.of_nat (length l1)) with (a + 4 * Z.of_nat (S (length l1))) by lia. naive_solver.
Qed.

Lemma words_same m m' l : ∀ a, (∀ b, a ≤ b < a + 4 * Z.of_nat (length l) → m' b = m b) → words m a l → words m' a l.
Proof.
  induction l as [|w l IH]; intros a Hs; cbn [words length] in *; [done|]. intros [Hw Hl]. split; [rewrite Hs by lia; done|].
  apply IH; [|done]. intros b Hb. apply Hs. lia.
Qed.

Lemma words_lookup m l : ∀ a i w, words m a l → l !! i = Some w → m (a + 4 * Z.of_nat i) = w.
Proof.
  induction l as [|v l IH]; intros a i w Hw Hi; [done|]. destruct Hw as [Hv Hl]. destruct i as [|i]; cbn in Hi.
  - injection Hi as <-. by rewrite Z.mul_0_r, Z.add_0_r.
  - rewrite <-(IH _ _ _ Hl Hi). f_equal. lia.
Qed.

Definition pushes (l : list Z) (m : mach) : mach := foldl (λ m v, push v m) m l.

Lemma esp_set_esp v r : esp (set ESP v r) = v.
Proof. by destruct r. Qed.
Lemma set_esp_set v w r : set ESP v (set ESP w r) = set ESP v r.
Proof. by destruct r. Qed.
Lemma set_esp_same r : set ESP (esp r) r = r.
Proof. by destruct r. Qed.

(** What [pushes] leaves: the words in reverse order below the old top. *)
Lemma pushes_spec l : ∀ m, 4 * Z.of_nat (length l) ≤ esp (m_r m) < 2 ^ 32 →
  let a := esp (m_r m) - 4 * Z.of_nat (length l) in
  m_r (pushes l m) = set ESP a (m_r m) ∧ words (m_mem (pushes l m)) a (rev l) ∧
  ∀ b, b < a ∨ esp (m_r m) ≤ b → m_mem (pushes l m) b = m_mem m b.
Proof.
  induction l as [|v l IH]; intros m Hm a.
  - split; [|done]. unfold a. cbn [length]. rewrite Z.mul_0_r, Z.sub_0_r. by rewrite set_esp_same.
  - cbn [length] in *. unfold pushes in *. cbn [foldl]. set (m1 := push v m).
    assert (Hsp : esp (m_r m1) = esp (m_r m) - 4) by (unfold m1, push; cbn [m_r]; rewrite esp_set_esp; apply u32_small; unfold is_u32; lia).
    destruct (IH m1 ltac:(rewrite Hsp; lia)) as (Hr & Hw & Hm1). rewrite Hsp in Hr, Hw, Hm1.
    replace (esp (m_r m) - 4 - 4 * Z.of_nat (length l)) with a in Hr, Hw, Hm1 by (unfold a; lia). split_and!.
    + rewrite Hr. unfold m1, push. cbn [m_r]. by rewrite set_esp_set.
    + cbn [rev]. apply stack_words_app. split; [done|]. rewrite length_rev. split; [|done].
      replace (a + 4 * Z.of_nat (length l)) with (esp (m_r m) - 4) by (unfold a; lia). rewrite Hm1 by lia.
      unfold m1, push, upd. cbn [m_mem]. rewrite u32_small by (unfold is_u32; lia). by rewrite decide_True.
    + intros b Hb. rewrite Hm1 by (unfold a in *; lia). unfold m1, push, upd. cbn [m_mem]. rewrite u32_small by (unfold is_u32; lia). rewrite decide_False; [done|]. unfold a in *. lia.
Qed.

Lemma pop_spec f w m a : esp (m_r m) = a → 0 ≤ a → a + 4 < 2 ^ 32 → m_mem m a = w → pop f m = Mach (f w (set ESP (a + 4) (m_r m))) (m_mem m).
Proof. intros <- Ha Hb <-. unfold pop, with_r, drop4, with_r, top. cbn [m_r m_mem]. by rewrite u32_small by (unfold is_u32; lia). Qed.

(** ** swtch *)

Definition context_words (c : context) : list Z := [cx_edi c; cx_esi c; cx_ebx c; cx_ebp c; cx_eip c].

(** A call of [swtch(old, new)]: the arguments and the return address are on the
    stack; [new] is a context that does not overlap the words pushed, and [old]
    is outside of both. *)
Record swtch_call (m : mach) (next old new : Z) (c : context) : Prop := {
  sw_sp : 16 ≤ esp (m_r m) ∧ esp (m_r m) + 12 < 2 ^ 32;
  sw_args : words (m_mem m) (esp (m_r m)) [next; old; new];
  sw_new : 0 ≤ new ∧ new + 20 < 2 ^ 32;
  sw_context : words (m_mem m) new (context_words c);
  sw_apart : new + 20 ≤ esp (m_r m) - 16 ∨ esp (m_r m) ≤ new;
  sw_old : (old < esp (m_r m) - 16 ∨ esp (m_r m) + 4 ≤ old) ∧ (old < new ∨ new + 20 ≤ old)
}.

Definition saved (m : mach) (next : Z) : context :=
  Context (edi (m_r m)) (esi (m_r m)) (ebx (m_r m)) (ebp (m_r m)) next.

Lemma swtch_spec m next old new c : swtch_call m next old new c →
  let m' := run swtch m in let sp := esp (m_r m) in
  edi (m_r m') = cx_edi c ∧ esi (m_r m') = cx_esi c ∧ ebx (m_r m') = cx_ebx c ∧ ebp (m_r m') = cx_ebp c ∧
  eip (m_r m') = cx_eip c ∧ esp (m_r m') = new + 20 ∧ eflags (m_r m') = eflags (m_r m) ∧ cs (m_r m') = cs (m_r m) ∧
  m_mem m' old = sp - 16 ∧ words (m_mem m') (sp - 16) (context_words (saved m next)) ∧
  (∀ b, b ≠ old → b < sp - 16 ∨ sp ≤ b → m_mem m' b = m_mem m b).
Proof.
  intros [Hsp (Ha & Ho & Hn & _) Hnew Hc Hap Hold] m' sp. fold sp in Hsp, Ha, Ho, Hn, Hap, Hold.
  set (r := m_r m) in *. set (r1 := set EDX new (set EAX old r)).
  destruct (pushes_spec [ebp r; ebx r; esi r; edi r] (Mach r1 (m_mem m))) as (Hr2 & Hw2 & Hm2); [destruct r; cbn in *; lia|].
  set (m2 := pushes [ebp r; ebx r; esi r; edi r] (Mach r1 (m_mem m))) in *. change (4 * Z.of_nat (length [ebp r; ebx r; esi r; edi r])) with 16 in *.
  assert (He1 : esp (m_r (Mach r1 (m_mem m))) = sp) by (unfold r1; by destruct r). rewrite He1 in Hr2, Hw2, Hm2. cbn [rev app] in Hw2.
  set (M := upd old (sp - 16) (m_mem m2)).
  assert (Hm' : m' = run [popl EDI; popl ESI; popl EBX; popl EBP; ret] (Mach (set ESP new (m_r m2)) M)).
  { assert (H1 : run [movl_load 4 ESP EAX; movl_load 8 ESP EDX] m = Mach r1 (m_mem m)).
    { unfold run. cbn [foldl exec get]. unfold with_r. cbn [m_r m_mem]. fold r. replace (esp (set EAX _ r)) with sp by (unfold sp; by destruct r). fold sp.
      rewrite !u32_small by (unfold is_u32; lia). rewrite Ho. replace (sp + 8) with (sp + 4 + 4) by lia. by rewrite Hn. }
    assert (H2 : run [pushl EBP; pushl EBX; pushl ESI; pushl EDI] (Mach r1 (m_mem m)) = m2) by (unfold m2, r1; by destruct r).
    change m' with (run [movl_store ESP EAX; movl EDX ESP; popl EDI; popl ESI; popl EBX; popl EBP; ret]
      (run [pushl EBP; pushl EBX; pushl ESI; pushl EDI] (run [movl_load 4 ESP EAX; movl_load 8 ESP EDX] m))). rewrite H1, H2.
    unfold run at 1. cbn [foldl exec get]. unfold with_r. cbn [m_r m_mem]. rewrite Hr2, esp_set_esp. unfold M, r1. by destruct r. }
  assert (HM : ∀ b, new ≤ b < new + 20 → M b = m_mem m b) by (intros b Hb; unfold M, upd; rewrite decide_False by lia; apply Hm2; lia).
  assert (HcM : words M new (context_words c)) by (eapply words_same; [|exact Hc]; intros b Hb; apply HM; cbn in Hb; lia).
  rewrite Hm'. destruct HcM as (H1 & H2 & H3 & H4 & H5 & _). unfold run. cbn [foldl exec].
  assert (Hres : pop set_eip (pop (set EBP) (pop (set EBX) (pop (set ESI) (pop (set EDI) (Mach (set ESP new (m_r m2)) M))))) =
    Mach (set ESP (new + 20) (set_eip (cx_eip c) (set EBP (cx_ebp c) (set EBX (cx_ebx c) (set ESI (cx_esi c) (set EDI (cx_edi c) (m_r m2))))))) M).
  { rewrite (pop_spec (set EDI) (cx_edi c) _ new), (pop_spec (set ESI) (cx_esi c) _ (new + 4)), (pop_spec (set EBX) (cx_ebx c) _ (new + 4 + 4)),
      (pop_spec (set EBP) (cx_ebp c) _ (new + 4 + 4 + 4)), (pop_spec set_eip (cx_eip c) _ (new + 4 + 4 + 4 + 4)) by (done || lia || by destruct (m_r m2)).
    cbn [m_r m_mem]. destruct (m_r m2). cbn. do 2 f_equal. lia. }
  rewrite Hres, Hr2. unfold r1. cbn [m_r m_mem]. split_and!; try (by destruct r).
  - unfold M, upd. by rewrite decide_True.
  - change (context_words (saved m next)) with ([edi r; esi r; ebx r; ebp r] ++ [next]). apply stack_words_app. split.
    + eapply words_same; [|exact Hw2]. intros b Hb. cbn in Hb. unfold M, upd. by rewrite decide_False by lia.
    + cbn [words length]. split; [|done]. change (4 * Z.of_nat 4) with 16. replace (sp - 16 + 16) with sp by lia. unfold M, upd. rewrite decide_False by lia.
      rewrite Hm2 by lia. done.
  - intros b Hb1 Hb2. unfold M, upd. rewrite decide_False by done. by apply Hm2.
Qed.

Lemma words_inj m l1 : ∀ a l2, length l1 = length l2 → words m a l1 → words m a l2 → l1 = l2.
Proof.
  induction l1 as [|w l1 IH]; intros a [|v l2] Hl; try done. intros [<- H1] [<- H2]. f_equal. eapply IH; [by injection Hl|done..].
Qed.

(** A thread that has called [swtch] and is switched to again returns from the
    call with its registers. *)
Lemma swtch_resume m1 next old new c m2 next2 old2 c2 : swtch_call m1 next old new c → let sp := esp (m_r m1) in
  swtch_call m2 next2 old2 (m_mem (run swtch m1) old) c2 →
  (∀ b, sp - 16 ≤ b < sp + 4 → m_mem m2 b = m_mem (run swtch m1) b) →
  let r := m_r (run swtch m2) in
  eip r = next ∧ esp r = sp + 4 ∧ ebx r = ebx (m_r m1) ∧ esi r = esi (m_r m1) ∧ edi r = edi (m_r m1) ∧ ebp r = ebp (m_r m1).
Proof.
  intros H1 sp H2 Hsame r. destruct (swtch_spec _ _ _ _ _ H1) as (_ & _ & _ & _ & _ & _ & _ & _ & Hold & Hw & _). fold sp in Hold, Hw. rewrite Hold in H2.
  assert (Hc : context_words c2 = context_words (saved m1 next)).
  { apply (words_inj (m_mem m2) _ (sp - 16)); [done|apply H2|]. eapply words_same; [|exact Hw]. intros b Hb. apply Hsame. cbn in Hb. lia. }
  destruct (swtch_spec _ _ _ _ _ H2) as (G1 & G2 & G3 & G4 & G5 & G6 & _). unfold r. rewrite G1, G2, G3, G4, G5, G6.
  injection Hc as E1 E2 E3 E4 E5. split_and!; [done|lia|done..].
Qed.

(** ** The stack of a new process (proc.c [allocproc]) *)

Definition TFSZ : Z := 76.     (* sizeof(struct trapframe) *)

(** The memory after [allocproc], the trap frame's and the context's address. *)
Definition allocproc_stack (trapret forkret kstack : Z) (m : Z → Z) : (Z → Z) * Z * Z :=
  let sp := u32 (kstack + KSTACKSIZE) in
  let sp := u32 (sp - TFSZ) in
  let tf := sp in
  let sp := u32 (sp - 4) in
  let m := upd sp trapret m in
  let sp := u32 (sp - 20) in
  let m := foldl (λ m i, upd (u32 (sp + 4 * i)) 0 m) m (seqZ 0 5) in
  let m := upd (u32 (sp + 16)) forkret m in
  (m, tf, sp).

Lemma allocproc_stack_spec trapret forkret kstack m : 0 ≤ kstack → kstack + KSTACKSIZE < 2 ^ 32 →
  ∃ m', allocproc_stack trapret forkret kstack m = (m', kstack + 4020, kstack + 3996) ∧
    words m' (kstack + 3996) (context_words (Context 0 0 0 0 forkret) ++ [trapret]) ∧
    ∀ b, b < kstack + 3996 ∨ kstack + 4020 ≤ b → m' b = m b.
Proof.
  unfold KSTACKSIZE, TFSZ. intros H1 H2. unfold allocproc_stack, KSTACKSIZE, TFSZ. change (seqZ 0 5) with [0; 1; 2; 3; 4]. cbn [foldl].
  rewrite (u32_small (kstack + 4096)), (u32_small (kstack + 4096 - 76)), (u32_small (kstack + 4096 - 76 - 4)), (u32_small (kstack + 4096 - 76 - 4 - 20)) by (unfold is_u32; lia).
  replace (kstack + 4096 - 76 - 4 - 20) with (kstack + 3996) by lia. rewrite !u32_small by (unfold is_u32; lia). eexists. split; [f_equal; f_equal; lia|]. split.
  - cbn [app context_words words cx_edi cx_esi cx_ebx cx_ebp cx_eip]. unfold upd. split_and!; try done; repeat (case_decide; try lia).
  - intros b Hb. unfold upd. by repeat (case_decide; try lia).
Qed.

(** C26. Context switches. [swtch(old, new)] saves the callee-saved registers and
    the return address as a struct context on the caller's stack, stores its
    address in [*old], and continues where [new] was saved, with [new]'s
    registers; it writes nowhere else. A thread that is switched to again
    returns from its call to [swtch] with its registers and stack pointer as
    they were. A process that [allocproc] has made starts in [forkret], whose
    return leads to [trapret] with the stack pointer at its trap frame. *)
Theorem swtch_correct m next old new c : swtch_call m next old new c →
  let m' := run swtch m in let sp := esp (m_r m) in
  (edi (m_r m') = cx_edi c ∧ esi (m_r m') = cx_esi c ∧ ebx (m_r m') = cx_ebx c ∧ ebp (m_r m') = cx_ebp c ∧
   eip (m_r m') = cx_eip c ∧ esp (m_r m') = new + 20 ∧ eflags (m_r m') = eflags (m_r m) ∧ cs (m_r m') = cs (m_r m) ∧
   m_mem m' old = sp - 16 ∧ words (m_mem m') (sp - 16) (context_words (saved m next)) ∧
   (∀ b, b ≠ old → b < sp - 16 ∨ sp ≤ b → m_mem m' b = m_mem m b)) ∧
  (∀ m2 next2 old2 c2, swtch_call m2 next2 old2 (m_mem m' old) c2 →
    (∀ b, sp - 16 ≤ b < sp + 4 → m_mem m2 b = m_mem m' b) →
    let r := m_r (run swtch m2) in
    eip r = next ∧ esp r = sp + 4 ∧ ebx r = ebx (m_r m) ∧ esi r = esi (m_r m) ∧ edi r = edi (m_r m) ∧ ebp r = ebp (m_r m)) ∧
  (∀ trapret forkret kstack mem0 mem1 tf, 0 ≤ kstack → kstack + KSTACKSIZE < 2 ^ 32 →
    allocproc_stack trapret forkret kstack mem0 = (mem1, tf, new) → (∀ b, new ≤ b < new + 24 → m_mem m b = mem1 b) →
    old ≠ new + 20 → new + 20 < sp - 16 ∨ sp ≤ new + 20 →
    eip (m_r m') = forkret ∧ eip (m_r (run [ret] m')) = trapret ∧ esp (m_r (run [ret] m')) = tf).
Proof.
  intros Hcall m' sp. pose proof (swtch_spec _ _ _ _ _ Hcall) as Hspec. split; [done|]. split; [intros; by eapply swtch_resume|].
  intros trapret forkret kstack mem0 mem1 tf H1 H2 Hst Hmem Hne Hap. destruct (allocproc_stack_spec trapret forkret kstack mem0 H1 H2) as (m1 & Hst' & Hw & _).
  rewrite Hst in Hst'. injection Hst' as -> -> ->. apply stack_words_app in Hw as [Hw [Ht _]]. change (4 * Z.of_nat (length (context_words (Context 0 0 0 0 forkret)))) with 20 in Ht.
  destruct Hspec as (_ & _ & _ & _ & Heip & Hesp & _ & _ & _ & _ & Hm'). fold m' in Heip, Hesp, Hm'.
  assert (Hc : context_words c = context_words (Context 0 0 0 0 forkret)).
  { apply (words_inj (m_mem m) _ (kstack + 3996)); [done|apply Hcall|]. eapply words_same; [|exact Hw]. intros b Hb. apply Hmem. cbn in Hb. lia. }
  injection Hc as E1 E2 E3 E4 E5. rewrite Heip. split; [done|]. unfold run. cbn [foldl exec].
  unfold KSTACKSIZE in *. rewrite (pop_spec set_eip trapret m' (kstack + 3996 + 20)); [|done|lia|lia|].
  - cbn [m_r]. destruct (m_r m'). cbn in *. split; [done|lia].
  - rewrite Hm' by (done || (fold sp; lia)). rewrite Hmem by lia. done.
Qed.

(** ** Trap entry and exit *)

Lemma pushes_app l1 l2 m : pushes (l1 ++ l2) m = pushes l2 (pushes l1 m).
Proof. unfold pushes. by rewrite foldl_app. Qed.

(** Changes of other registers and pushes commute. *)
Lemma pushes_with l f m : (∀ v r, f (set ESP v r) = set ESP v (f r)) → (∀ r, esp (f r) = esp r) →
  pushes l (with_r f m) = with_r f (pushes l m).
Proof.
  intros Hf He. revert m. induction l as [|v l IH]; intros m; [done|]. unfold pushes in *. cbn [foldl]. rewrite <-IH. f_equal.
  unfold push, with_r. cbn [m_r m_mem]. by rewrite He, Hf.
Qed.

(** The trap frame of a machine at vector [n]. *)
Definition tf_words (t : trapframe) : list Z :=
  [tf_edi t; tf_esi t; tf_ebp t; tf_oesp t; tf_ebx t; tf_edx t; tf_ecx t; tf_eax t; tf_gs t; tf_fs t; tf_es t; tf_ds t;
   tf_trapno t; tf_err t; tf_eip t; tf_cs t; tf_eflags t; tf_esp t; tf_ss t].
Definition frame (r : regs) (n e oesp : Z) : trapframe :=
  Trapframe (edi r) (esi r) (ebp r) oesp (ebx r) (edx r) (ecx r) (eax r) (gs r) (fs r) (es r) (ds r)
    n e (eip r) (cs r) (eflags r) (esp r) (ss r).
(** A trap from kernel mode has no stack pointer and stack segment. *)
Definition frame_len (user : bool) : nat := if user then 19%nat else 17%nat.

Section traps.
Variables (vectors : Z → Z) (ts_addr kstack pgdir alltraps trap after_trap : Z).
Hypothesis Hvec : ∀ n, is_u32 (vectors n).
Hypothesis Hkstack : 0 ≤ kstack ∧ kstack + KSTACKSIZE < 2 ^ 32.

Abbreviation d := (tables vectors ts_addr kstack pgdir).

(** The way of interrupt [n] into the kernel, up to the first instruction of
    [trap]. *)
Definition enter (n : Z) (err : option Z) (m : mach) : option mach :=
  m1 ← deliver d n err m;
  Some (run (alltraps_code trap after_trap) (run (vector alltraps n) m1)).

Definition in_user (m : mach) : bool := bool_decide (cpl m = DPL_USER).
Definition stack_top (m : mach) : Z := if in_user m then kstack + KSTACKSIZE else esp (m_r m).

(** All that is pushed on the way. *)
Definition entry_pushes (r : regs) (user : bool) (n e oesp : Z) : list Z :=
  (if user then [ss r; esp r] else []) ++ [eflags r; cs r; eip r] ++ [e; n] ++
  [ds r; es r; fs r; gs r] ++ [eax r; ecx r; edx r; ebx r; oesp; ebp r; esi r; edi r].

Lemma entry_pushes_frame r user n e oesp : rev (entry_pushes r user n e oesp) = take (frame_len user) (tf_words (frame r n e oesp)).
Proof. by destruct user. Qed.

Definition M0 (m : mach) : mach :=
  Mach (if in_user m then set_ctl (eip (m_r m)) (eflags (m_r m)) (cs (m_r m)) (8 * SEG_KDATA) (set ESP (kstack + KSTACKSIZE) (m_r m)) else m_r m) (m_mem m).

(** Only the stack pointer changes. *)
Lemma pushes_regs l : ∀ m, m_r (pushes l m) = set ESP (esp (m_r (pushes l m))) (m_r m).
Proof.
  induction l as [|v l IH]; intros m; [by rewrite set_esp_same|]. unfold pushes in *. cbn [foldl]. rewrite IH at 1. unfold push. cbn [m_r]. by rewrite set_esp_set.
Qed.

Lemma sget_push x v m : sget x (m_r (push v m)) = sget x (m_r m).
Proof. unfold push. cbn [m_r]. by destruct x, (m_r m). Qed.

Lemma vector_run n m : run (vector alltraps n) m = with_r (set_eip alltraps) (pushes ((if has_err n then [] else [0]) ++ [n]) m).
Proof. unfold vector. by destruct (has_err n). Qed.

Definition kernel_data (r : regs) : regs :=
  let ax := eax r / 2 ^ 16 * 2 ^ 16 + 16 in sset ES (ax `mod` 2 ^ 16) (sset DS (ax `mod` 2 ^ 16) (set EAX ax r)).

Lemma alltraps_run m : let r := m_r m in
  let m1 := pushes [ds r; es r; fs r; gs r] m in
  let m2 := pushes [eax r; ecx r; edx r; ebx r; esp (m_r m1); ebp r; esi r; edi r] m1 in
  run (alltraps_code trap after_trap) m = with_r (λ r, set_eip trap (kernel_data r)) (pushes [esp (m_r m2); after_trap] m2).
Proof.
  intros r m1 m2. change (run (alltraps_code trap after_trap) m) with
    (run [movw_i_ax (Z.shiftl SEG_KDATA 3); movw_ax DS; movw_ax ES; pushl ESP; call trap after_trap] (exec pushal (run [pushl_s DS; pushl_s ES; pushl_s FS; pushl_s GS] m))).
  assert (H1 : run [pushl_s DS; pushl_s ES; pushl_s FS; pushl_s GS] m = m1).
  { unfold run. cbn [foldl exec]. rewrite !sget_push. reflexivity. }
  rewrite H1. assert (H2 : exec pushal m1 = m2).
  { assert (Hr : m_r m1 = set ESP (esp (m_r m1)) r) by apply pushes_regs. unfold m2, pushes. cbn [foldl exec]. rewrite Hr. generalize (esp (m_r m1)). intros v.
    replace (esp (set ESP v r)) with v by by destruct r. by destruct r. }
  rewrite H2. clearbody m2. by destruct m2 as [[] mem].
Qed.

Lemma deliver_run n err m : 0 ≤ n < 256 → cpl m = 0 ∨ cpl m = DPL_USER → let r := m_r m in
  deliver d n err m = Some (with_r (λ r, set_ctl (vectors n) (entry_flags (hg_type (the_gate vectors n)) (eflags r)) 8 (ss r) r)
    (pushes ((if in_user m then [ss r; esp r] else []) ++ [eflags r; cs r; eip r] ++ match err with Some e => [e] | None => [] end) (M0 m))).
Proof.
  intros Hn Hcpl r. unfold deliver. rewrite (tables_gate _ _ _ _ _ Hvec Hn). cbv [mbind option_bind].
  assert (Hsel : hg_sel (the_gate vectors n) = 8) by (unfold the_gate; by case_decide). assert (Hp : hg_p (the_gate vectors n) = 1) by (unfold the_gate; by case_decide).
  assert (Hoff : hg_off (the_gate vectors n) = vectors n) by (unfold the_gate; by case_decide).
  rewrite Hsel, tables_kcode, Hoff. rewrite decide_True.
  2:{ split; [done|]. split; [by vm_compute|]. unfold DPL_USER in Hcpl. cbn. lia. }
  rewrite tables_ts, (u32_small (kstack + KSTACKSIZE)) by (unfold is_u32, KSTACKSIZE in *; lia). cbv zeta. cbn [ts_esp0 ts_ss0]. change (hs_dpl (flat 10 0)) with 0.
  change (8 / 4 * 4 + 0) with 8. f_equal. f_equal. unfold in_user. change (8 * SEG_KDATA) with 16. destruct Hcpl as [Hc|Hc].
  - rewrite decide_False by lia. unfold M0, in_user. rewrite !bool_decide_eq_false_2 by (rewrite Hc; done). destruct m. by destruct err.
  - rewrite decide_True by (rewrite Hc; done). unfold M0, in_user. rewrite !bool_decide_eq_true_2 by done. by destruct err.
Qed.

(** The entry is a sequence of pushes. *)
Lemma enter_pushes n err m e : 0 ≤ n < 256 → (if has_err n then err = Some e else err = None ∧ e = 0) → cpl m = 0 ∨ cpl m = DPL_USER →
  let r := m_r m in let user := in_user m in
  let pre := (if user then [ss r; esp r] else []) ++ [eflags r; cs r; eip r] ++ [e; n] ++ [ds r; es r; fs r; gs r] in
  let P := entry_pushes r user n e (esp (m_r (pushes pre (M0 m)))) in
  let tfp := esp (m_r (pushes P (M0 m))) in
  enter n err m = Some (with_r (λ r, set_eip trap (kernel_data (set_eip alltraps
    (set_ctl (vectors n) (entry_flags (hg_type (the_gate vectors n)) (eflags r)) 8 (ss r) r)))) (pushes (P ++ [tfp; after_trap]) (M0 m))).
Proof.
  intros Hn Herr Hcpl r user pre P tfp. unfold enter. rewrite (deliver_run n err m Hn Hcpl). cbv [mbind option_bind]. f_equal.
  set (h1 := λ r, set_ctl (vectors n) _ 8 (ss r) r). set (h := λ r, set_eip alltraps (h1 r)).
  assert (Hh1 : ∀ v r, h1 (set ESP v r) = set ESP v (h1 r)) by (intros v []; done). assert (He1 : ∀ r, esp (h1 r) = esp r) by (intros []; done).
  assert (Hh : ∀ v r, h (set ESP v r) = set ESP v (h r)) by (intros v []; done). assert (He : ∀ r, esp (h r) = esp r) by (intros []; done).
  set (L1 := (if in_user m then _ else _) ++ _). rewrite vector_run, (pushes_with _ _ _ Hh1 He1), <-pushes_app.
  change (with_r (set_eip alltraps) (with_r h1 ?x)) with (with_r h x).
  assert (HL : L1 ++ (if has_err n then [] else [0]) ++ [n] = (if user then [ss r; esp r] else []) ++ [eflags r; cs r; eip r] ++ [e; n]).
  { unfold L1. destruct (has_err n); [subst err|destruct Herr as [-> ->]]; by rewrite <-!app_assoc. }
  rewrite HL. set (L2 := (if user then _ else _) ++ _).
  assert (Hr2 : ∀ x, m_r (with_r h (pushes L2 (M0 m))) = x → ds x = ds r ∧ es x = es r ∧ fs x = fs r ∧ gs x = gs r ∧ eax x = eax r ∧ ecx x = ecx r ∧ edx x = edx r ∧
    ebx x = ebx r ∧ ebp x = ebp r ∧ esi x = esi r ∧ edi x = edi r).
  { intros x <-. unfold with_r. cbn [m_r]. rewrite pushes_regs. unfold M0. cbn [m_r]. unfold r. by destruct (in_user m), (m_r m). }
  rewrite alltraps_run. destruct (Hr2 _ eq_refl) as (-> & -> & -> & -> & -> & -> & -> & -> & -> & -> & ->).
  assert (Hpre : pushes [ds r; es r; fs r; gs r] (with_r h (pushes L2 (M0 m))) = with_r h (pushes pre (M0 m))).
  { rewrite (pushes_with _ _ _ Hh He), <-pushes_app. unfold L2, pre. by rewrite <-!app_assoc. }
  rewrite Hpre. replace (esp (m_r (with_r h (pushes pre (M0 m))))) with (esp (m_r (pushes pre (M0 m)))) by (symmetry; apply He).
  assert (HP : pushes [eax r; ecx r; edx r; ebx r; esp (m_r (pushes pre (M0 m))); ebp r; esi r; edi r] (with_r h (pushes pre (M0 m))) = with_r h (pushes P (M0 m))).
  { rewrite (pushes_with _ _ _ Hh He), <-pushes_app. unfold P, entry_pushes, pre. by rewrite <-!app_assoc. }
  rewrite HP. replace (esp (m_r (with_r h (pushes P (M0 m))))) with tfp by (symmetry; apply He).
  rewrite (pushes_with _ _ _ Hh He), <-pushes_app. done.
Qed.

Lemma enter_spec n err m e : 0 ≤ n < 256 → (if has_err n then err = Some e else err = None ∧ e = 0) → cpl m = 0 ∨ cpl m = DPL_USER →
  84 ≤ stack_top m < 2 ^ 32 → let r := m_r m in let len := frame_len (in_user m) in let tfp := stack_top m - 4 * Z.of_nat len in
  ∃ m' oesp, enter n err m = Some m' ∧ words (m_mem m') (tfp - 8) ([after_trap; tfp] ++ take len (tf_words (frame r n e oesp))) ∧
    esp (m_r m') = tfp - 8 ∧ eip (m_r m') = trap ∧ cs (m_r m') = 8 * SEG_KCODE ∧ ds (m_r m') = 8 * SEG_KDATA ∧ es (m_r m') = 8 * SEG_KDATA ∧
    ss (m_r m') = (if in_user m then 8 * SEG_KDATA else ss r) ∧ eflags (m_r m') = entry_flags (hg_type (the_gate vectors n)) (eflags r) ∧
    ∀ b, b < tfp - 8 ∨ stack_top m ≤ b → m_mem m' b = m_mem m b.
Proof.
  intros Hn Herr Hcpl Htop r len tfp. rewrite (enter_pushes n err m e Hn Herr Hcpl). fold r.
  set (pre := (if in_user m then _ else _) ++ _). set (oesp := esp (m_r (pushes pre (M0 m)))). set (P := entry_pushes r (in_user m) n e oesp).
  assert (Hs0 : esp (m_r (M0 m)) = stack_top m) by (unfold M0, stack_top; cbn [m_r]; by destruct (in_user m), (m_r m)).
  assert (Hlen : Z.of_nat (length P) = Z.of_nat len) by (unfold P, len; by destruct (in_user m)).
  assert (Hll : Z.of_nat len ≤ 19) by (unfold len; by destruct (in_user m)).
  destruct (pushes_spec P (M0 m)) as (HrP & _ & _); [rewrite Hs0, Hlen; lia|]. rewrite Hs0, Hlen in HrP. rewrite HrP, esp_set_esp. fold tfp.
  destruct (pushes_spec (P ++ [tfp; after_trap]) (M0 m)) as (HrL & HwL & HmL); [rewrite Hs0, length_app, Nat2Z.inj_add, Hlen; cbn [length]; lia|].
  rewrite Hs0, length_app, Nat2Z.inj_add, Hlen in HrL, HwL, HmL. replace (stack_top m - 4 * (Z.of_nat len + Z.of_nat (length [tfp; after_trap]))) with (tfp - 8) in HrL, HwL, HmL by (cbn [length]; lia).
  set (mL := pushes (P ++ [tfp; after_trap]) (M0 m)) in *. eexists _, oesp. split; [reflexivity|]. unfold with_r. cbn [m_r m_mem]. rewrite HrL.
  assert (Hax : ∀ x, (x / 2 ^ 16 * 2 ^ 16 + 16) `mod` 2 ^ 16 = 16) by (intros x; rewrite Z.add_comm, Z.mod_add by done; done).
  split_and!.
  - rewrite rev_app_distr in HwL. unfold P in HwL. by rewrite entry_pushes_frame in HwL.
  - unfold M0. cbn [m_r]. by destruct (in_user m), (m_r m).
  - unfold M0. cbn [m_r]. by destruct (in_user m), (m_r m).
  - unfold M0. cbn [m_r]. by destruct (in_user m), (m_r m).
  - unfold M0, kernel_data. cbn [m_r]. destruct (in_user m), (m_r m); cbn [set sset set_ctl set_eip ds eax]; apply Hax.
  - unfold M0, kernel_data. cbn [m_r]. destruct (in_user m), (m_r m); cbn [set sset set_ctl set_eip es eax]; apply Hax.
  - unfold M0. cbn [m_r]. unfold r. by destruct (in_user m), (m_r m).
  - unfold M0. cbn [m_r]. unfold r. by destruct (in_user m), (m_r m).
  - done.
Qed.

Lemma enter_some n err m m' : enter n err m = Some m' →
  ∃ m1, deliver d n err m = Some m1 ∧ run (alltraps_code trap after_trap) (run (vector alltraps n) m1) = m'.
Proof. unfold enter. generalize (deliver d n err m). intros [m1|] Hm; [|discriminate Hm]. exists m1. split; [reflexivity|]. by apply (inj Some). Qed.

(** *** The way out *)

Definition keeps_esp (f : Z → regs → regs) : Prop := ∀ w v r, f w (set ESP v r) = set ESP v (f w r) ∧ esp (f w r) = esp r.
Definition pops (fs : list (Z → regs → regs)) (m : mach) : mach := foldl (λ m f, pop f m) m fs.

Lemma pops_spec fs : ∀ ws m, Forall keeps_esp fs → length fs = length ws → words (m_mem m) (esp (m_r m)) ws →
  0 ≤ esp (m_r m) → esp (m_r m) + 4 * Z.of_nat (length ws) < 2 ^ 32 →
  pops fs m = Mach (set ESP (esp (m_r m) + 4 * Z.of_nat (length ws)) (foldl (λ r p, p.1 p.2 r) (m_r m) (zip fs ws))) (m_mem m).
Proof.
  induction fs as [|f fs IH]; intros [|w ws] m Hk Hl Hw H0 H1; try done.
  - cbn. rewrite Z.add_0_r, set_esp_same. by destruct m.
  - apply Forall_cons in Hk as [Hf Hk]. cbn [words] in Hw. destruct Hw as [Hw Hws]. cbn [length] in *. unfold pops in *. cbn [foldl zip zip_with fst snd].
    rewrite (pop_spec f w m (esp (m_r m))) by (done || lia). set (m1 := Mach _ _).
    assert (Hm1 : m_r m1 = set ESP (esp (m_r m) + 4) (f w (m_r m))) by apply Hf. assert (He : esp (m_r m1) = esp (m_r m) + 4) by (rewrite Hm1; apply esp_set_esp).
    rewrite (IH ws m1) by (done || lia || (rewrite He; done) || (rewrite He; lia)). rewrite He, Hm1. f_equal.
    replace (esp (m_r m) + 4 + 4 * Z.of_nat (length ws)) with (esp (m_r m) + 4 * Z.of_nat (S (length ws))) by lia.
    generalize (esp (m_r m) + 4 * Z.of_nat (S (length ws))) (esp (m_r m) + 4) (f w (m_r m)). clear -Hk. intros v u r. revert ws r.
    induction Hk as [|g gs Hg Hk IH]; intros [|x ws] r; cbn [zip zip_with foldl fst snd]; rewrite ?set_esp_set; [done..|]. rewrite (proj1 (Hg x u r)). apply IH.
Qed.

Lemma addl8 m : with_r (λ r, set ESP (u32 (get ESP r + 0x8)) r) m = pop (λ _ r, r) (pop (λ _ r, r) m).
Proof.
  unfold pop, drop4, with_r. cbn [m_r m_mem get]. rewrite esp_set_esp, set_esp_set, u32_add_l. do 3 f_equal. lia.
Qed.

(** The registers that a trap frame stands for. *)
Definition tf_regs (t : trapframe) : regs :=
  Regs (tf_eax t) (tf_ecx t) (tf_edx t) (tf_ebx t) (tf_esp t) (tf_ebp t) (tf_esi t) (tf_edi t) (tf_eip t) (tf_eflags t) (tf_cs t) (tf_ss t)
    (tf_ds t) (tf_es t) (tf_fs t) (tf_gs t).
Definition is_u16 (x : Z) : Prop := 0 ≤ x < 2 ^ 16.
Definition segs_ok (t : trapframe) : Prop := is_u16 (tf_ds t) ∧ is_u16 (tf_es t) ∧ is_u16 (tf_fs t) ∧ is_u16 (tf_gs t) ∧ is_u16 (tf_ss t).

Definition leave (m : mach) : option mach := iret d (run trapret m).

Lemma trapret_spec m t user : words (m_mem m) (esp (m_r m)) (take (frame_len user) (tf_words t)) → 0 ≤ esp (m_r m) → esp (m_r m) + TFSZ < 2 ^ 32 →
  run trapret m = Mach (set ESP (esp (m_r m) + 56) (foldl (λ r p, p.1 p.2 r) (m_r m)
    [(set EDI, tf_edi t); (set ESI, tf_esi t); (set EBP, tf_ebp t); (λ _ r, r, tf_oesp t); (set EBX, tf_ebx t); (set EDX, tf_edx t); (set ECX, tf_ecx t); (set EAX, tf_eax t);
     (λ v, sset GS (v `mod` 2 ^ 16), tf_gs t); (λ v, sset FS (v `mod` 2 ^ 16), tf_fs t); (λ v, sset ES (v `mod` 2 ^ 16), tf_es t); (λ v, sset DS (v `mod` 2 ^ 16), tf_ds t);
     (λ _ r, r, tf_trapno t); (λ _ r, r, tf_err t)])) (m_mem m).
Proof.
  intros Hw H0 H1. unfold TFSZ in H1.
  set (fs := [set EDI; set ESI; set EBP; (λ _ r, r); set EBX; set EDX; set ECX; set EAX;
    (λ v, sset GS (v `mod` 2 ^ 16)); (λ v, sset FS (v `mod` 2 ^ 16)); (λ v, sset ES (v `mod` 2 ^ 16)); (λ v, sset DS (v `mod` 2 ^ 16)); (λ _ r, r); (λ _ r, r)]).
  assert (Hrun : run trapret m = pops fs m).
  { unfold run, pops, trapret, fs. cbn [foldl exec]. rewrite addl8. reflexivity. }
  rewrite Hrun, (pops_spec fs (take 14 (tf_words t))); [done| |done| |done|].
  - repeat constructor; by destruct r.
  - replace (take 14 (tf_words t)) with (take 14 (take (frame_len user) (tf_words t))) by (by destruct user).
    rewrite <-(take_drop 14 (take (frame_len user) (tf_words t))) in Hw. by apply stack_words_app in Hw as [Hw _].
  - cbn. lia.
Qed.

(** [trapret] and [iret] load the registers from the trap frame. *)
Lemma leave_spec m t : cpl m = 0 → words (m_mem m) (esp (m_r m)) (take (frame_len (bool_decide (tf_cs t = 27))) (tf_words t)) →
  0 ≤ esp (m_r m) → esp (m_r m) + TFSZ < 2 ^ 32 → segs_ok t → tf_cs t = 27 ∨ tf_cs t = 8 →
  leave m = Some (Mach (if decide (tf_cs t = 27) then tf_regs t else
    set_ctl (tf_eip t) (tf_eflags t) 8 (ss (m_r m)) (set ESP (esp (m_r m) + 68) (tf_regs t))) (m_mem m)).
Proof.
  intros Hcpl Hw H0 H1 (Hds & Hes & Hfs & Hgs & Hss) Hcs. unfold leave. rewrite (trapret_spec m t _ Hw H0 H1). cbn [foldl fst snd]. unfold TFSZ in H1.
  unfold is_u16 in *. rewrite (Z.mod_small (tf_gs t)), (Z.mod_small (tf_fs t)), (Z.mod_small (tf_es t)), (Z.mod_small (tf_ds t)) by done.
  assert (Hat : ∀ i w, take (frame_len (bool_decide (tf_cs t = 27))) (tf_words t) !! i = Some w → m_mem m (u32 (esp (m_r m) + 4 * Z.of_nat i)) = w).
  { intros i w Hi. rewrite u32_small; [by eapply words_lookup|]. apply lookup_lt_Some in Hi. rewrite length_take in Hi. cbn [tf_words length] in Hi. unfold is_u32. lia. }
  set (a := esp (m_r m)) in *. set (R := set ESP (a + 56) _). set (M := Mach R (m_mem m)).
  assert (Hcpl' : cpl M = 0) by (unfold M, R, cpl in *; cbn [m_r]; by destruct (m_r m)).
  assert (HR : esp R = u32 (a + 4 * Z.of_nat 14)) by (unfold R; rewrite esp_set_esp, u32_small; [lia|unfold is_u32; lia]).
  assert (Hnext : ∀ x i, esp (m_r x) = u32 (a + 4 * Z.of_nat i) → esp (m_r (drop4 x)) = u32 (a + 4 * Z.of_nat (S i))).
  { intros x i Hx. unfold drop4, with_r. cbn [m_r]. rewrite esp_set_esp, Hx, u32_add_l. f_equal. lia. }
  pose proof (Hnext M 14%nat HR) as HR1. pose proof (Hnext _ _ HR1) as HR2. pose proof (Hnext _ _ HR2) as HR3. pose proof (Hnext _ _ HR3) as HR4.
  assert (Hdr : ∀ x, m_mem (drop4 x) = m_mem x) by done. assert (Ht : ∀ x, top x = m_mem x (esp (m_r x))) by done. unfold iret.
  rewrite !Ht, HR4, HR3, HR2, HR1, !Hdr. change (m_mem M) with (m_mem m). change (esp (m_r M)) with (esp R). rewrite HR, Hcpl'.
  assert (Hm3 : drop4 (drop4 (drop4 M)) = Mach (set ESP (a + 68) R) (m_mem m)).
  { unfold drop4 at 1, with_r. cbn [m_r m_mem]. fold (drop4 M). rewrite HR2.
    unfold drop4, with_r. cbn [m_r m_mem]. rewrite !set_esp_set. f_equal. f_equal. rewrite u32_add_l, u32_small; [lia|unfold is_u32; lia]. }
  rewrite Hm3. rewrite (Hat 14%nat (tf_eip t)), (Hat 15%nat (tf_cs t)), (Hat 16%nat (tf_eflags t)) by (by destruct (bool_decide (tf_cs t = 27))).
  destruct Hcs as [Hcs|Hcs]; rewrite Hcs in *.
  - rewrite (Hat 17%nat (tf_esp t)), (Hat 18%nat (tf_ss t)) by done. rewrite (Z.mod_small (tf_ss t)) by done. change (27 `mod` 2 ^ 16) with 27. change (27 `mod` 4) with 3.
    rewrite tables_ucode. cbv [mbind option_bind]. rewrite decide_True by (split; [by vm_compute|split; [done|lia]]). rewrite !decide_True by (done || lia).
    unfold with_r, R, tf_regs. cbn [m_r m_mem]. rewrite Hcs. by destruct (m_r m).
  - change (8 `mod` 2 ^ 16) with 8. change (8 `mod` 4) with 0. rewrite tables_kcode. cbv [mbind option_bind].
    rewrite decide_True by (split; [by vm_compute|split; [done|lia]]). rewrite !decide_False by (done || lia). unfold with_r, R, tf_regs. cbn [m_r m_mem]. by destruct (m_r m).
Qed.

(** When [trap] has returned, its argument is still on the stack. *)
Lemma return_spec m t tfp : cpl m = 0 → esp (m_r m) = tfp - 4 → words (m_mem m) tfp (take (frame_len (bool_decide (tf_cs t = 27))) (tf_words t)) →
  4 ≤ tfp → tfp + TFSZ < 2 ^ 32 → segs_ok t → tf_cs t = 27 ∨ tf_cs t = 8 →
  leave (run alltraps_end m) = Some (Mach (if decide (tf_cs t = 27) then tf_regs t else
    set_ctl (tf_eip t) (tf_eflags t) 8 (ss (m_r m)) (set ESP (tfp + 68) (tf_regs t))) (m_mem m)).
Proof.
  intros Hcpl Hsp Hw H0 H1 Hs Hcs. set (m1 := run alltraps_end m). assert (Hm1 : m1 = Mach (set ESP tfp (m_r m)) (m_mem m)).
  { unfold m1, run, alltraps_end. cbn [foldl exec get]. unfold with_r. rewrite Hsp, u32_small by (unfold is_u32, TFSZ in *; lia). do 2 f_equal. lia. }
  assert (He : esp (m_r m1) = tfp) by (rewrite Hm1; apply esp_set_esp). rewrite (leave_spec m1 t).
  - rewrite Hm1. cbn [m_r m_mem]. rewrite esp_set_esp. do 2 f_equal. by destruct (m_r m).
  - rewrite Hm1. unfold cpl in *. cbn [m_r]. by destruct (m_r m).
  - rewrite He, Hm1. done.
  - rewrite He. lia.
  - by rewrite He.
  - done.
  - done.
Qed.

(** Which gates user code can call. *)
Lemma int_spec n next m : 0 ≤ n < 256 → cpl m = DPL_USER →
  int_n d n next m = if decide (n = T_SYSCALL) then deliver d n None (with_r (set_eip next) m) else deliver d T_GPFLT (Some (8 * n + 2)) m.
Proof.
  intros Hn Hc. unfold int_n. rewrite (tables_gate _ _ _ _ _ Hvec Hn). cbv [mbind option_bind]. rewrite Hc. unfold the_gate. destruct (decide (n = T_SYSCALL)); [by rewrite decide_False|by rewrite decide_True].
Qed.

(** A system call of user code, from its stub and back. *)
Lemma stub_spec u k next back v : cs (m_r u) = 27 → segs_ok (frame (m_r u) 0 0 0) → 0 ≤ esp (m_r u) → esp (m_r u) + 4 < 2 ^ 32 →
  let tfp := kstack + KSTACKSIZE - TFSZ in
  ∃ m1 m' oesp, let t := frame (set_eip next (set EAX k (m_r u))) T_SYSCALL 0 oesp in
    int_n d T_SYSCALL next (run (usys_before k) u) = Some m1 ∧ run (alltraps_code trap after_trap) (run (vector alltraps T_SYSCALL) m1) = m' ∧
    eip (m_r m') = trap ∧ words (m_mem m') (tfp - 8) ([after_trap; tfp] ++ tf_words t) ∧ tf_eax t = k ∧ tf_esp t = esp (m_r u) ∧
    ∀ m2, cpl m2 = 0 → esp (m_r m2) = tfp - 4 → words (m_mem m2) tfp (tf_words (set_eax v t)) → m_mem m2 (esp (m_r u)) = back →
      ∃ m3, leave (run alltraps_end m2) = Some m3 ∧
        m_r (run usys_after m3) = set_eip back (set ESP (esp (m_r u) + 4) (set EAX v (m_r u))).
Proof.
  intros Hcs Hsegs H0 H1 tfp. set (u1 := with_r (set_eip next) (run (usys_before k) u)).
  assert (Hu1 : m_r u1 = set_eip next (set EAX k (m_r u))) by done. assert (Hcu : cpl (run (usys_before k) u) = DPL_USER) by (clear -Hcs; destruct u as [[] ?]; cbn in *; by subst).
  assert (Hc1 : cpl u1 = DPL_USER) by (clear -Hcs; unfold u1; destruct u as [[] ?]; cbn in *; by subst).
  assert (Hus : in_user u1 = true) by (unfold in_user; by rewrite Hc1). unfold KSTACKSIZE, TFSZ in *.
  assert (Htop : stack_top u1 = kstack + 4096) by (unfold stack_top; by rewrite Hus).
  destruct (enter_spec T_SYSCALL None u1 0) as (m' & oesp & Hent & Hw & _ & Heip & _); [unfold T_SYSCALL; lia|by vm_compute|by right|rewrite Htop; lia|].
  rewrite Hus, Htop, Hu1 in Hw. unfold frame_len in Hw. change (4 * Z.of_nat 19) with 76 in Hw. change (take 19 (tf_words ?t)) with (tf_words t) in Hw. fold tfp in Hw.
  apply enter_some in Hent as (m1 & Hdel & Hent).
  exists m1, m', oesp. cbv zeta. set (t := frame _ T_SYSCALL 0 oesp). split_and!; [| |exact Heip|exact Hw| | |].
  - rewrite int_spec; [|unfold T_SYSCALL; lia|exact Hcu]. rewrite decide_True by reflexivity. exact Hdel.
  - exact Hent.
  - clear. unfold t. by destruct (m_r u).
  - clear. unfold t. by destruct (m_r u).
  - clear Hdel Hent. intros m2 Hcpl Hsp Hw2 Hback. assert (Htcs : tf_cs (set_eax v t) = 27) by (unfold t; destruct (m_r u); cbn in *; by subst).
    rewrite (return_spec m2 (set_eax v t) tfp); [|done|done|by rewrite Htcs|unfold tfp; lia|unfold tfp, TFSZ; lia| |by left].
    2:{ unfold t, segs_ok, set_eax in *. destruct (m_r u). cbn in *. done. }
    rewrite decide_True by done. eexists. split; [reflexivity|]. unfold run, usys_after. cbn [foldl exec].
    rewrite (pop_spec set_eip back _ (esp (m_r u))); [|unfold t; by destruct (m_r u)|done|done|done]. cbn [m_r]. unfold t. by destruct (m_r u).
Qed.
End traps.

Lemma hw_err_vectors n : has_err n = hw_err n.
Proof.
  unfold has_err, hw_err. destruct (bool_decide_reflect (n ∈ [8; 10; 11; 12; 13; 14; 17])) as [Hin|Hout].
  - repeat (apply elem_of_cons in Hin as [->|Hin]; [reflexivity|]). by apply elem_of_nil in Hin.
  - rewrite !not_elem_of_cons in Hout. rewrite !orb_false_iff, andb_false_iff, !Z.eqb_neq, !Z.leb_gt. lia.
Qed.

(** C27. Traps. Every interrupt and exception, from user or kernel mode, reaches
    [trap] with a pointer to a struct trapframe that holds the interrupted
    registers, the trap number and the error code, 0 where the processor has
    none; it is at the top of the process's kernel stack if the trap came from
    user mode, else below the interrupted stack. When [trap] returns, all
    registers are loaded from the frame. An int instruction of user code enters
    the kernel for [T_SYSCALL] only, any other number is a general protection
    fault. A system call's stub arrives with the number in [eax] and the caller's
    stack pointer, and returns to its caller with the value that the kernel put
    into the frame's [eax] and all other registers as they were. *)
Theorem trap_correct vectors ts_addr kstack pgdir alltraps trap after_trap :
  (∀ n, is_u32 (vectors n)) → 0 ≤ kstack ∧ kstack + KSTACKSIZE < 2 ^ 32 →
  let d := tables vectors ts_addr kstack pgdir in
  (∀ n err m e, 0 ≤ n < 256 → (if hw_err n then err = Some e else err = None ∧ e = 0) → cpl m = 0 ∨ cpl m = DPL_USER →
    84 ≤ stack_top kstack m < 2 ^ 32 →
    let r := m_r m in let len := frame_len (in_user m) in let tfp := stack_top kstack m - 4 * Z.of_nat len in
    ∃ m' oesp, enter vectors ts_addr kstack pgdir alltraps trap after_trap n err m = Some m' ∧
      words (m_mem m') (tfp - 8) ([after_trap; tfp] ++ take len (tf_words (frame r n e oesp))) ∧
      esp (m_r m') = tfp - 8 ∧ eip (m_r m') = trap ∧ cs (m_r m') = 8 * SEG_KCODE ∧ ds (m_r m') = 8 * SEG_KDATA ∧ es (m_r m') = 8 * SEG_KDATA ∧
      ss (m_r m') = (if in_user m then 8 * SEG_KDATA else ss r) ∧ eflags (m_r m') = entry_flags (hg_type (the_gate vectors n)) (eflags r) ∧
      ∀ b, b < tfp - 8 ∨ stack_top kstack m ≤ b → m_mem m' b = m_mem m b) ∧
  (∀ m t tfp, cpl m = 0 → esp (m_r m) = tfp - 4 → words (m_mem m) tfp (take (frame_len (bool_decide (tf_cs t = 27))) (tf_words t)) →
    4 ≤ tfp → tfp + TFSZ < 2 ^ 32 → segs_ok t → tf_cs t = 27 ∨ tf_cs t = 8 →
    leave vectors ts_addr kstack pgdir (run alltraps_end m) = Some (Mach (if decide (tf_cs t = 27) then tf_regs t else
      set_ctl (tf_eip t) (tf_eflags t) 8 (ss (m_r m)) (set ESP (tfp + 68) (tf_regs t))) (m_mem m))) ∧
  (∀ n next m, 0 ≤ n < 256 → cpl m = DPL_USER →
    int_n d n next m = if decide (n = T_SYSCALL) then deliver d n None (with_r (set_eip next) m) else deliver d T_GPFLT (Some (8 * n + 2)) m) ∧
  (∀ u k next back v, cs (m_r u) = 27 → segs_ok (frame (m_r u) 0 0 0) → 0 ≤ esp (m_r u) → esp (m_r u) + 4 < 2 ^ 32 →
    let tfp := kstack + KSTACKSIZE - TFSZ in
    ∃ m1 m' oesp, let t := frame (set_eip next (set EAX k (m_r u))) T_SYSCALL 0 oesp in
      int_n d T_SYSCALL next (run (usys_before k) u) = Some m1 ∧ run (alltraps_code trap after_trap) (run (vector alltraps T_SYSCALL) m1) = m' ∧
      eip (m_r m') = trap ∧ words (m_mem m') (tfp - 8) ([after_trap; tfp] ++ tf_words t) ∧ tf_eax t = k ∧ tf_esp t = esp (m_r u) ∧
      ∀ m2, cpl m2 = 0 → esp (m_r m2) = tfp - 4 → words (m_mem m2) tfp (tf_words (set_eax v t)) → m_mem m2 (esp (m_r u)) = back →
        ∃ m3, leave vectors ts_addr kstack pgdir (run alltraps_end m2) = Some m3 ∧
          m_r (run usys_after m3) = set_eip back (set ESP (esp (m_r u) + 4) (set EAX v (m_r u)))).
Proof.
  intros Hvec Hk d. split_and!.
  - intros n err m e Hn He. rewrite <-hw_err_vectors in He. by apply enter_spec.
  - intros. by apply return_spec.
  - intros. by apply int_spec.
  - intros. by apply stub_spec.
Qed.

(** ** Witnesses *)

(** The scheduler switches to a new process. *)
Definition demo_scheduler : mach :=
  Mach (Regs 0 0 0 7 0x8010b000 6 5 4 0 0 8 16 16 16 0 0)
    (upd 0x8010b000 0x80103a55 (upd 0x8010b004 0x80112784 (upd 0x8010b008 0x8dffef9c (allocproc_stack 0x80105a1c 0x80103b20 0x8dffe000 (λ _, 0)).1.1))).

Lemma swtch_correct_witness :
  eip (m_r (run swtch demo_scheduler)) = 0x80103b20 ∧ eip (m_r (run [ret] (run swtch demo_scheduler))) = 0x80105a1c.
Proof.
  assert (Hcall : swtch_call demo_scheduler 0x80103a55 0x80112784 0x8dffef9c (Context 0 0 0 0 0x80103b20)).
  { constructor; cbn [demo_scheduler m_r m_mem esp]; [lia|vm_compute; auto|lia|vm_compute; split_and!; reflexivity|lia|lia]. }
  destruct (swtch_correct _ _ _ _ _ Hcall) as (_ & _ & Hnew).
  destruct (Hnew 0x80105a1c 0x80103b20 0x8dffe000 (λ _, 0) (allocproc_stack 0x80105a1c 0x80103b20 0x8dffe000 (λ _, 0)).1.1 0x8dffefb4)
    as (H1 & H2 & _); [lia|unfold KSTACKSIZE; lia|vm_compute; reflexivity| |lia|cbn [demo_scheduler m_r esp]; lia|].
  - intros b Hb. unfold demo_scheduler. cbn [m_mem]. unfold upd at 1 2 3. by rewrite !decide_False by lia.
  - split; [exact H1|exact H2].
Defined.

(** A page fault in user code. *)
Definition demo_user : mach := Mach (Regs 1 2 3 4 0x2fe0 6 7 8 0x1234 0x202 27 35 35 35 0 0) (λ _, 0).

Lemma trap_correct_witness : ∃ m' oesp,
  enter demo_vectors 0x80112790 0x8dffe000 0x8dfff000 0x80105a00 0x80105b00 0x80105a17 14 (Some 6) demo_user = Some m' ∧
  words (m_mem m') 0x8dffefac ([0x80105a17; 0x8dffefb4] ++ [8; 7; 6; oesp; 4; 3; 2; 1; 0; 0; 35; 35; 14; 6; 0x1234; 27; 0x202; 0x2fe0; 35]) ∧
  eip (m_r m') = 0x80105b00.
Proof.
  destruct (trap_correct demo_vectors 0x80112790 0x8dffe000 0x8dfff000 0x80105a00 0x80105b00 0x80105a17 (λ n, u32_range _) ltac:(unfold KSTACKSIZE; lia))
    as (Hin & _). destruct (Hin 14 (Some 6) demo_user 6) as (m' & oesp & He & Hw & _ & Hip & _);
    [lia|reflexivity|right; reflexivity|change (stack_top 0x8dffe000 demo_user) with 0x8dfff000; lia|].
  exists m', oesp. split; [exact He|]. split; [exact Hw|exact Hip].
Defined.
