(* ===== verification/Apic.v ===== *)
(** * Interrupt controllers, the start of other processors, and the clock
    (lapic.c, ioapic.c, picirq.c, and [startothers] of main.c)

    The local APIC, the I/O APIC and the real-time clock are devices: each is a
    class with what the code does to it and what can be observed of it, and a
    class of laws, from the manuals that the code names. *)

From S2P Require Import Prelude Params Trap.

Local Open Scope Z_scope.

(** ** The local APIC *)

Definition IRQ_ERROR : Z := 19.

Inductive lapic_reg := ID | VER | TPR | EOI | SVR | ESR | ICRLO | ICRHI | TIMER | PCINT | LINT0 | LINT1 | ERROR | TICR | TCCR | TDCR.
#[export] Instance lapic_reg_eq_dec : EqDecision lapic_reg.
Proof. solve_decision. Defined.

(** The index of a register in an array of words. *)
Definition index (r : lapic_reg) : Z :=
  match r with
  | ID => 0x0020 / 4 | VER => 0x0030 / 4 | TPR => 0x0080 / 4 | EOI => 0x00B0 / 4 | SVR => 0x00F0 / 4 | ESR => 0x0280 / 4
  | ICRLO => 0x0300 / 4 | ICRHI => 0x0310 / 4 | TIMER => 0x0320 / 4 | PCINT => 0x0340 / 4 | LINT0 => 0x0350 / 4 | LINT1 => 0x0360 / 4
  | ERROR => 0x0370 / 4 | TICR => 0x0380 / 4 | TCCR => 0x0390 / 4 | TDCR => 0x03E0 / 4
  end.

Abbreviation ENABLE := (0x00000100) (only parsing).     (* Unit Enable *)
Abbreviation INIT := (0x00000500) (only parsing).       (* INIT/RESET *)
Abbreviation STARTUP := (0x00000600) (only parsing).    (* Startup IPI *)
Abbreviation DELIVS := (0x00001000) (only parsing).     (* Delivery status *)
Abbreviation ASSERT := (0x00004000) (only parsing).     (* Assert interrupt (vs deassert) *)
Abbreviation LEVEL := (0x00008000) (only parsing).      (* Level triggered *)
Abbreviation BCAST := (0x00080000) (only parsing).      (* Send to all APICs, including self. *)
Abbreviation X1 := (0x0000000B) (only parsing).         (* divide counts by 1 *)
Abbreviation PERIODIC := (0x00020000) (only parsing).   (* Periodic *)
Abbreviation MASKED := (0x00010000) (only parsing).     (* Interrupt masked *)

(** The registers as the CPU reads and writes them, the values of those that
    only software changes, and the interprocessor interrupts that were sent:
    the destination and the low command word. [lag] is 0 if no command is
    pending, else it bounds how often the delivery status is still read as
    pending; [delay] bounds it. *)
Class Lapic (H : Type) := {
  lread : Z → M H Z;
  lwrite : Z → Z → M H unit;
  reg : H → lapic_reg → Z;
  sent : H → list (Z * Z);
  lag : H → nat;
  delay : nat
}.

Definition stable (r : lapic_reg) : bool := match r with EOI | ESR | ICRLO | TCCR => false | _ => true end.
Definition same_regs {H} `{Lapic H} (h h' : H) : Prop := ∀ q, stable q = true → reg h' q = reg h q.

(** A write of the low command word sends an interrupt if no other command is
    pending; what happens to it otherwise is not said. Only such a write makes a
    command pending. *)
Class LapicLaws (H : Type) `{Lapic H} : Prop := {
  lwrite_set r v h : stable r = true → r ≠ ID → r ≠ VER → ∃ h', lwrite (index r) v h = Done tt h' ∧ sent h' = sent h ∧ (lag h' ≤ lag h)%nat ∧
    ∀ q, stable q = true → reg h' q = if decide (q = r) then v else reg h q;
  lwrite_act r v h : r = EOI ∨ r = ESR → ∃ h', lwrite (index r) v h = Done tt h' ∧ sent h' = sent h ∧ (lag h' ≤ lag h)%nat ∧ same_regs h h';
  lwrite_icr v h : lag h = 0%nat →
    ∃ h', lwrite (index ICRLO) v h = Done tt h' ∧ sent h' = sent h ++ [(Z.shiftr (reg h ICRHI) 24, v)] ∧ same_regs h h';
  lread_stable r h : stable r = true → ∃ h', lread (index r) h = Done (reg h r) h' ∧ sent h' = sent h ∧ (lag h' ≤ lag h)%nat ∧ same_regs h h';
  lread_icr h : ∃ v h', lread (index ICRLO) h = Done v h' ∧ sent h' = sent h ∧ same_regs h h' ∧
    (Z.land v DELIVS = 0 ∧ lag h' = 0%nat ∨ Z.land v DELIVS ≠ 0 ∧ (lag h' < lag h)%nat);
  lag_delay h : (lag h ≤ delay)%nat
}.

(** A command is delivered when the register [ID] has been read after it. The
    manuals do not promise this: [lapicstartap] relies on it, because it does not
    look at the delivery status and [microdelay] does not wait. *)
Class LapicPrompt (H : Type) `{Lapic H} : Prop :=
  icr_prompt v x h h1 h2 : lwrite (index ICRLO) v h = Done tt h1 → lread (index ID) h1 = Done x h2 → lag h2 = 0%nat.

Abbreviation CMOS_PORT := (0x70) (only parsing).
(* I/O addresses of the two programmable interrupt controllers *)
Abbreviation IO_PIC1 := (0x20) (only parsing).
Abbreviation IO_PIC2 := (0xA0) (only parsing).

Section lapic_code.
  Context {H : Type} `{Lapic H}.

(** [lapic], the address of the registers or 0; the device; the bytes written to
    ports; and words of memory below 1M. *)
Record lapic_state := Lst { l_lapic : Z; l_hw : H; l_out : list (Z * Z); l_mem : gmap Z Z }.
Definition lhw {A} (m : M H A) : M lapic_state A := zoom l_hw (λ h s, Lst (l_lapic s) h (l_out s) (l_mem s)) m.
Definition loutb (p v : Z) : M lapic_state unit := mmodify (λ s, Lst (l_lapic s) (l_hw s) (l_out s ++ [(p, u8 v)]) (l_mem s)).
Definition lpoke (a v : Z) : M lapic_state unit := mmodify (λ s, Lst (l_lapic s) (l_hw s) (l_out s) (<[a := u16 v]> (l_mem s))).

(** Address 0 is not mapped. *)
Definition lapicw (r : lapic_reg) (value : Z) : M lapic_state unit :=
  s ← mget;
  if decide (l_lapic s = 0) then panic "page fault" else
  lhw (lwrite (index r) value);;
  lhw (lread (index ID));;      (* wait for write to finish, by reading *)
  mret tt.

(** The delivery of a command ends within [delay] reads. *)
Fixpoint delivered (fuel : nat) : M lapic_state unit :=
  match fuel with
  | O => λ _, Diverge
  | S fuel => v ← lhw (lread (index ICRLO)); if decide (Z.land v DELIVS ≠ 0) then delivered fuel else mret tt
  end.

Definition lapicinit : M lapic_state unit :=
  s ← mget;
  if decide (l_lapic s = 0) then mret tt else
  lapicw SVR (Z.lor ENABLE (T_IRQ0 + IRQ_SPURIOUS));;
  lapicw TDCR X1;;
  lapicw TIMER (Z.lor PERIODIC (T_IRQ0 + IRQ_TIMER));;
  lapicw TICR 1000000;;
  lapicw LINT0 MASKED;;
  lapicw LINT1 MASKED;;
  ver ← lhw (lread (index VER));
  (if decide (4 ≤ Z.land (Z.shiftr ver 16) 0xFF) then lapicw PCINT MASKED else mret tt);;
  lapicw ERROR (T_IRQ0 + IRQ_ERROR);;
  lapicw ESR 0;;
  lapicw ESR 0;;
  lapicw EOI 0;;
  lapicw ICRHI 0;;
  lapicw ICRLO (Z.lor (Z.lor BCAST INIT) LEVEL);;
  delivered (S delay);;
  lapicw TPR 0.

Definition lapicid : M lapic_state Z :=
  s ← mget;
  if decide (l_lapic s = 0) then mret 0 else
  v ← lhw (lread (index ID)); mret (Z.shiftr v 24).

Definition lapiceoi : M lapic_state unit :=
  s ← mget;
  if decide (l_lapic s ≠ 0) then lapicw EOI 0 else mret tt.

(** It does not spin. *)
Definition microdelay (us : Z) : M lapic_state unit := mret tt.

Definition WARM_RESET : Z := Z.lor (Z.shiftl 0x40 4) 0x67.

Definition lapicstartap (apicid addr : Z) : M lapic_state unit :=
  loutb CMOS_PORT 0xF;;
  loutb (CMOS_PORT + 1) 0x0A;;
  lpoke WARM_RESET 0;;
  lpoke (WARM_RESET + 2) (Z.shiftr addr 4);;
  lapicw ICRHI (u32 (Z.shiftl apicid 24));;
  lapicw ICRLO (Z.lor (Z.lor INIT LEVEL) ASSERT);;
  microdelay 200;;
  lapicw ICRLO (Z.lor INIT LEVEL);;
  microdelay 100;;
  mfor (seq 0 2) (λ _,
    lapicw ICRHI (u32 (Z.shiftl apicid 24));;
    lapicw ICRLO (Z.lor STARTUP (Z.shiftr addr 12));;
    microdelay 200).

(** The two programmable interrupt controllers are not used: all their
    interrupts are masked. *)
Definition picinit : M lapic_state unit := loutb (IO_PIC1 + 1) 0xFF;; loutb (IO_PIC2 + 1) 0xFF.
End lapic_code.

(** What a processor does with an interprocessor interrupt (MultiProcessor
    Specification, appendix B): INIT resets it and it waits; a STARTUP starts a
    processor that waits, in the page that the vector names, and is ignored by
    others; a de-assertion of INIT only synchronises arbitration. *)
Inductive processor := Running | Waiting | Started (pc : Z).

Definition to_me (me : Z) (i : Z * Z) : bool := (Z.land i.2 0xC0000 =? BCAST) || (Z.land i.2 0xC0000 =? 0) && (i.1 =? me).
Definition receive (me : Z) (p : processor) (i : Z * Z) : processor :=
  if negb (to_me me i) then p
  else if Z.land i.2 0x700 =? INIT then if (Z.land i.2 LEVEL =? 0) || negb (Z.land i.2 ASSERT =? 0) then Waiting else p
  else if Z.land i.2 0x700 =? STARTUP then match p with Waiting => Started (Z.shiftl (Z.land i.2 0xFF) 12) | _ => p end
  else p.

Section lapic_proof.
  Context {H : Type} `{HA : Lapic H} `{HL : !LapicLaws H}.
  Implicit Types (h : H) (s : lapic_state (H := H)).

(** What a write does to the registers and the interrupts sent. *)
Definition effect (r : lapic_reg) (v : Z) (w : (lapic_reg → Z) * list (Z * Z)) : (lapic_reg → Z) * list (Z * Z) :=
  match r with
  | EOI | ESR => w
  | ICRLO => (w.1, w.2 ++ [(Z.shiftr (w.1 ICRHI) 24, v)])
  | _ => (λ q, if decide (q = r) then v else w.1 q, w.2)
  end.
Definition shows h (w : (lapic_reg → Z) * list (Z * Z)) : Prop := sent h = w.2 ∧ ∀ q, stable q = true → reg h q = w.1 q.

Lemma shows_self h : shows h (reg h, sent h).
Proof. done. Qed.

Lemma shows_same h h' w : shows h w → sent h' = sent h → same_regs h h' → shows h' w.
Proof. intros [Hs Hr] Hs' Hr'. split; [congruence|]. intros q Hq. rewrite Hr' by done. auto. Qed.

Definition writable (r : lapic_reg) : bool := match r with ID | VER | TCCR => false | _ => true end.

Lemma lwrite_effect r v h w : shows h w → writable r = true → (r = ICRLO → lag h = 0%nat) →
  ∃ h', lwrite (index r) v h = Done tt h' ∧ shows h' (effect r v w) ∧ (r ≠ ICRLO → (lag h' ≤ lag h)%nat).
Proof.
  intros Hw Hr Hl. assert (Hcase : r = EOI ∨ r = ESR ∨ r = ICRLO ∨ stable r = true ∧ r ≠ ID ∧ r ≠ VER ∧ effect r v w = (λ q, if decide (q = r) then v else w.1 q, w.2)).
  { destruct r; try discriminate Hr; auto 6; do 3 right; repeat split; discriminate. }
  destruct Hcase as [->|[->|[->|(Hst & Hi & Hv & ->)]]].
  - destruct (lwrite_act EOI v h ltac:(auto)) as (h' & Hrun & Hs & Hla & Hk). exists h'. split; [done|]. split; [by eapply shows_same|done].
  - destruct (lwrite_act ESR v h ltac:(auto)) as (h' & Hrun & Hs & Hla & Hk). exists h'. split; [done|]. split; [by eapply shows_same|done].
  - destruct (lwrite_icr v h (Hl eq_refl)) as (h' & Hrun & Hs & Hk). exists h'. split; [done|]. split; [|done]. destruct Hw as [Hw1 Hw2]. split; simpl.
    + by rewrite Hs, Hw1, Hw2.
    + intros q Hq. rewrite Hk by done. auto.
  - destruct (lwrite_set r v h Hst Hi Hv) as (h' & Hrun & Hs & Hla & Hk). exists h'. split; [done|]. split; [|done]. destruct Hw as [Hw1 Hw2]. split; simpl; [congruence|].
    intros q Hq. rewrite Hk by done. case_decide; auto.
Qed.

Definition with_hw s h : lapic_state := Lst (l_lapic s) h (l_out s) (l_mem s).

Lemma lhw_run {A} (m : M H A) s a h : m (l_hw s) = Done a h → lhw m s = Done a (with_hw s h).
Proof. intros Hm. unfold lhw, zoom. by rewrite Hm. Qed.

Lemma lapicw_spec r v s h w : l_lapic s ≠ 0 → shows h w → writable r = true → (r = ICRLO → lag h = 0%nat) →
  ∃ h', lapicw r v (with_hw s h) = Done tt (with_hw s h') ∧ shows h' (effect r v w) ∧ (lag h = 0%nat → r ≠ ICRLO ∨ LapicPrompt H → lag h' = 0%nat).
Proof.
  intros Hl Hw Hr Hlag. destruct (lwrite_effect r v _ w Hw Hr Hlag) as (h1 & Hrun1 & Hw1 & Hl1). destruct (lread_stable ID h1 eq_refl) as (h2 & Hrun2 & Hs & Hl2 & Hk).
  exists h2. split; [|split; [by eapply shows_same|]].
  - unfold lapicw. rewrite (run_bind mget _ (with_hw s h) (with_hw s h) (with_hw s h)) by done. rewrite decide_False by done.
    rewrite (run_bind _ _ _ _ _ (lhw_run _ (with_hw s h) _ _ Hrun1)). by rewrite (run_bind _ _ _ _ _ (lhw_run _ (with_hw s h1) _ _ Hrun2)).
  - intros H0 Hp. destruct (decide (r = ICRLO)) as [->|Hne]; [|specialize (Hl1 Hne); lia]. destruct Hp as [|Hp]; [done|]. by eapply icr_prompt.
Qed.

Lemma lapicw_run {A} r v (k : unit → M lapic_state A) s h w : l_lapic s ≠ 0 → shows h w ∧ lag h = 0%nat → writable r = true → r ≠ ICRLO ∨ LapicPrompt H →
  ∃ h', (lapicw r v ≫= k) (with_hw s h) = k tt (with_hw s h') ∧ shows h' (effect r v w) ∧ lag h' = 0%nat.
Proof.
  intros Hl [Hw H0] Hr Hp. destruct (lapicw_spec r v s h w Hl Hw Hr (λ _, H0)) as (h' & Hrun & Hh & Hl'). exists h'. split; [|split; [done|by apply Hl']].
  by rewrite (run_bind _ _ _ _ _ Hrun).
Qed.

Lemma delivered_spec w : ∀ fuel s, shows (l_hw s) w → (lag (l_hw s) < fuel)%nat →
  ∃ h, delivered fuel s = Done tt (with_hw s h) ∧ shows h w ∧ lag h = 0%nat.
Proof.
  induction fuel as [|fuel IH]; intros s Hw Hlag; [lia|]. destruct (lread_icr (l_hw s)) as (v & h1 & Hrun & Hs & Hk & Hcase). cbn [delivered].
  rewrite (run_bind _ _ _ _ _ (lhw_run _ s _ _ Hrun)). assert (Hw1 : shows h1 w) by by eapply shows_same. destruct Hcase as [[Hv Hl]|[Hv Hl]].
  - rewrite decide_False by tauto. by exists h1.
  - rewrite decide_True by done. destruct (IH (with_hw s h1) Hw1 ltac:(simpl; lia)) as (h & Hh & Hw'). by exists h.
Qed.

(** [step_w] runs the next write of a register. *)
Ltac step_w := match goal with Hw : shows ?h ?w ∧ _ |- context [(lapicw ?r ?v ≫= ?k) (with_hw ?s ?h)] =>
  let h' := fresh "h" in let E := fresh "E" in let Hw' := fresh "Hw" in
  destruct (lapicw_run r v k s h w) as (h' & E & Hw'); [assumption|exact Hw|reflexivity|first [by left|by right]|]; rewrite E; clear E Hw end.

Definition lapic_ready h (hpc : bool) : Prop :=
  reg h SVR = Z.lor ENABLE (T_IRQ0 + IRQ_SPURIOUS) ∧ reg h TDCR = X1 ∧ reg h TIMER = Z.lor PERIODIC (T_IRQ0 + IRQ_TIMER) ∧ reg h TICR = 1000000 ∧
  reg h LINT0 = MASKED ∧ reg h LINT1 = MASKED ∧ (hpc = true → reg h PCINT = MASKED) ∧ reg h ERROR = T_IRQ0 + IRQ_ERROR ∧ reg h TPR = 0.

Lemma lapicinit_spec s : l_lapic s ≠ 0 → lag (l_hw s) = 0%nat → let hpc := bool_decide (4 ≤ Z.land (Z.shiftr (reg (l_hw s) VER) 16) 0xFF) in
  ∃ h i, lapicinit s = Done tt (with_hw s h) ∧ lapic_ready h hpc ∧ reg h ID = reg (l_hw s) ID ∧ lag h = 0%nat ∧ sent h = sent (l_hw s) ++ [i] ∧
    ∀ me p, receive me p i = p.
Proof.
  intros Hl Hlag hpc. pose proof (conj (shows_self (l_hw s)) Hlag) as Hw. assert (Hs : lapicinit s = lapicinit (with_hw s (l_hw s))) by by destruct s. rewrite Hs. clear Hs.
  set (h0 := l_hw s) in *. set (w0 := (reg h0, sent h0)) in *. unfold lapicinit. rewrite (run_bind mget _ _ (with_hw s h0) (with_hw s h0)) by done. rewrite decide_False by done.
  do 6 step_w. match type of Hw with shows ?h ?w ∧ _ => rename h into h6; set (w6 := w) in * end.
  destruct (lread_stable VER h6 eq_refl) as (h7 & Hver & Hs7 & Hl7 & Hk7). rewrite (run_bind _ _ _ _ _ (lhw_run _ (with_hw s h6) _ _ Hver)).
  assert (Hv : reg h6 VER = reg h0 VER) by exact (proj2 (proj1 Hw) VER eq_refl). rewrite Hv. change (with_hw (with_hw s h6) h7) with (with_hw s h7).
  assert (Hw7 : shows h7 w6 ∧ lag h7 = 0%nat) by (destruct Hw; split; [by eapply shows_same|lia]). clear Hw Hv Hver Hs7 Hl7 Hk7.
  match goal with |- context [((if decide ?P then ?m else ?n) ≫= ?k) (with_hw s h7)] =>
    assert (Hopt : ∃ h8, ((if decide P then m else n) ≫= k) (with_hw s h7) = k tt (with_hw s h8) ∧ shows h8 (if hpc then effect PCINT MASKED w6 else w6) ∧ lag h8 = 0%nat) end.
  { unfold hpc. case_decide as Hn; [rewrite bool_decide_true by done; apply lapicw_run; [done|done|done|by left]|]. rewrite bool_decide_false by done. by exists h7. }
  destruct Hopt as (h8 & -> & Hw). do 5 step_w.
  match goal with Hc : shows ?h ?w ∧ _ |- _ => destruct Hc as [Hwc Hlc]; destruct (lapicw_spec ICRLO (Z.lor (Z.lor BCAST INIT) LEVEL) s h w Hl Hwc eq_refl (λ _, Hlc)) as (hd & Hcmd & Hw & _) end.
  rewrite (run_bind _ _ _ _ _ Hcmd). clear Hwc Hlc Hcmd.
  destruct (delivered_spec _ (S delay) (with_hw s hd) Hw) as (he & Hdel & Hwe & Hle); [pose proof (lag_delay hd); simpl; lia|].
  rewrite (run_bind _ _ _ _ _ Hdel). destruct (lapicw_spec TPR 0 s he _ Hl Hwe eq_refl ltac:(discriminate)) as (hf & Hlast & [Hsent Hreg] & Hlf).
  specialize (Hlf Hle ltac:(by left)). exists hf, (0, Z.lor (Z.lor BCAST INIT) LEVEL).
  split; [exact Hlast|]. clear -Hsent Hreg Hlf. unfold lapic_ready. rewrite !Hreg, Hsent by reflexivity.
  destruct hpc; (split; [split_and!; reflexivity || discriminate|]); (split; [reflexivity|]); (split; [exact Hlf|]); split; reflexivity.
Qed.

(** The start-up sequence, as the processors receive it. *)
Lemma startup_bits : forallb (λ v, let w := Z.lor STARTUP v in
  (Z.land w 0xC0000 =? 0) && negb (Z.land w 0x700 =? INIT) && (Z.land w 0x700 =? STARTUP) && (Z.land w 0xFF =? v)) (seqZ 0 256) = true.
Proof. vm_compute. reflexivity. Qed.

Definition start_sequence (apicid vec : Z) : list (Z * Z) :=
  [(apicid, Z.lor (Z.lor INIT LEVEL) ASSERT); (apicid, Z.lor INIT LEVEL); (apicid, Z.lor STARTUP vec); (apicid, Z.lor STARTUP vec)].

Lemma receive_start apicid vec me p : 0 ≤ vec < 256 →
  foldl (receive me) p (start_sequence apicid vec) = if decide (me = apicid) then Started (Z.shiftl vec 12) else p.
Proof.
  intros Hvec. pose proof startup_bits as Hall. rewrite forallb_forall in Hall.
  specialize (Hall vec (proj1 (list_elem_of_In _ _) (proj2 (elem_of_seqZ 0 256 vec) ltac:(lia)))). cbv zeta in Hall.
  apply andb_true_iff in Hall as [Hall H4%Z.eqb_eq]. apply andb_true_iff in Hall as [Hall H3]. apply andb_true_iff in Hall as [H1 H2%negb_true_iff].
  assert (Hst : ∀ p, receive me p (apicid, Z.lor STARTUP vec) = if apicid =? me then match p with Waiting => Started (Z.shiftl vec 12) | _ => p end else p).
  { intros q. unfold receive, to_me. cbn [fst snd]. apply Z.eqb_eq in H1. rewrite H1, H2, H3, H4. change (0 =? BCAST) with false. change (0 =? 0) with true. cbn [orb andb].
    by destruct (apicid =? me). }
  cbn [start_sequence foldl]. rewrite !Hst. unfold receive, to_me. cbn [fst snd].
  change (Z.land (Z.lor (Z.lor INIT LEVEL) ASSERT) 0xC0000 =? BCAST) with false. change (Z.land (Z.lor (Z.lor INIT LEVEL) ASSERT) 0xC0000 =? 0) with true.
  change (Z.land (Z.lor INIT LEVEL) 0xC0000 =? BCAST) with false. change (Z.land (Z.lor INIT LEVEL) 0xC0000 =? 0) with true. cbn [orb andb].
  destruct (Z.eqb_spec apicid me) as [->|Hne]; [by rewrite decide_True|by rewrite decide_False by congruence].
Qed.

Lemma apicid_shift a : 0 ≤ a < 256 → Z.shiftr (u32 (Z.shiftl a 24)) 24 = a.
Proof.
  intros Ha. rewrite Z.shiftl_mul_pow2 by lia. change (2 ^ 24) with 16777216. rewrite u32_small by (unfold is_u32; lia).
  rewrite Z.shiftr_div_pow2 by lia. change (2 ^ 24) with 16777216. by rewrite Z.div_mul.
Qed.

Lemma lapicstartap_spec s apicid addr : LapicPrompt H → l_lapic s ≠ 0 → lag (l_hw s) = 0%nat → 0 ≤ apicid < 256 →
  ∃ h, lapicstartap apicid addr s = Done tt (Lst (l_lapic s) h (l_out s ++ [(CMOS_PORT, 0xF); (CMOS_PORT + 1, 0x0A)])
      (<[WARM_RESET + 2 := u16 (Z.shiftr addr 4)]> (<[WARM_RESET := 0]> (l_mem s)))) ∧
    reg h ID = reg (l_hw s) ID ∧ lag h = 0%nat ∧ sent h = sent (l_hw s) ++ start_sequence apicid (Z.shiftr addr 12).
Proof.
  intros Hprompt Hl Hlag Ha. pose proof (conj (shows_self (l_hw s)) Hlag) as Hw. unfold lapicstartap. cbn [mfor seq].
  set (s1 := Lst (l_lapic s) (l_hw s) (l_out s ++ [(CMOS_PORT, 0xF); (CMOS_PORT + 1, 0x0A)]) (<[WARM_RESET + 2 := u16 (Z.shiftr addr 4)]> (<[WARM_RESET := 0]> (l_mem s)))).
  rewrite (run_bind _ _ s tt (Lst (l_lapic s) (l_hw s) (l_out s ++ [(CMOS_PORT, 0xF)]) (l_mem s))) by done.
  rewrite (run_bind _ _ _ tt (Lst (l_lapic s) (l_hw s) (l_out s ++ [(CMOS_PORT, 0xF); (CMOS_PORT + 1, 0x0A)]) (l_mem s)))
    by (unfold loutb, mmodify; cbn [l_out l_lapic l_hw l_mem]; by rewrite <-app_assoc).
  rewrite (run_bind _ _ _ tt (Lst (l_lapic s) (l_hw s) (l_out s ++ [(CMOS_PORT, 0xF); (CMOS_PORT + 1, 0x0A)]) (<[WARM_RESET := 0]> (l_mem s)))) by done.
  rewrite (run_bind _ _ _ tt (with_hw s1 (l_hw s))) by done. assert (Hl1 : l_lapic s1 ≠ 0) by done.
  assert (Hd : ∀ A us (k : unit → M (lapic_state (H := H)) A) t, (microdelay us ≫= k) t = k tt t) by done.
  do 2 step_w. rewrite Hd. step_w. rewrite Hd. rewrite !bind_assoc. step_w. rewrite !bind_assoc. step_w. rewrite Hd, !bind_assoc. step_w. rewrite !bind_assoc. step_w. rewrite Hd.
  match goal with Hc : shows ?h _ ∧ _ |- _ => exists h; destruct Hc as [[Hsent Hreg] Hlast] end. split; [done|]. split; [by rewrite Hreg|]. split; [exact Hlast|]. rewrite Hsent. cbn [effect fst snd]. rewrite !decide_True by done.
  rewrite !apicid_shift by done. by rewrite <-!app_assoc.
Qed.

Lemma lapiceoi_spec s : l_lapic s ≠ 0 → ∃ h, lapiceoi s = Done tt (with_hw s h) ∧ sent h = sent (l_hw s) ∧ same_regs (l_hw s) h.
Proof.
  intros Hl. destruct (lapicw_spec EOI 0 s (l_hw s) _ Hl (shows_self _) eq_refl ltac:(discriminate)) as (h & Hrun & [Hs Hr] & _). exists h. split; [|done].
  unfold lapiceoi. rewrite (run_bind mget _ s s s) by done. rewrite decide_True by done. replace s with (with_hw s (l_hw s)) at 1 by by destruct s. done.
Qed.

Lemma lapicid_spec s : l_lapic s ≠ 0 → ∃ h, lapicid s = Done (Z.shiftr (reg (l_hw s) ID) 24) (with_hw s h) ∧ sent h = sent (l_hw s) ∧ same_regs (l_hw s) h.
Proof.
  intros Hl. destruct (lread_stable ID (l_hw s) eq_refl) as (h & Hrun & Hs & _ & Hk). exists h. split; [|done].
  unfold lapicid. rewrite (run_bind mget _ s s s) by done. rewrite decide_False by done. by rewrite (run_bind _ _ _ _ _ (lhw_run _ s _ _ Hrun)).
Qed.

Lemma no_lapic s : l_lapic s = 0 → lapicinit s = Done tt s ∧ lapiceoi s = Done tt s ∧ lapicid s = Done 0 s ∧
  ∀ apicid addr, lapicstartap apicid addr s = Panic "page fault".
Proof.
  intros Hl. unfold lapicinit, lapiceoi, lapicid. rewrite !(run_bind mget _ s s s) by done. rewrite !(decide_True (P := l_lapic s = 0)), decide_False by tauto.
  do 3 (split; [done|]). intros apicid addr. unfold lapicstartap.
  do 4 (erewrite (run_bind _ _ _ tt) by reflexivity). apply run_panic. unfold lapicw.
  erewrite (run_bind mget) by reflexivity. cbn [l_lapic]. by rewrite decide_True.
Qed.

(** C28. The local APIC. Without one, [lapicinit] and [lapiceoi] do nothing and
    the processor's number is 0; [lapicstartap] does not look, and accesses an
    address that is not mapped. [lapicinit], when no command is pending, leaves it
    enabled, with a periodic timer on its vector, the lines [LINT0] and [LINT1]
    masked, and sends one interrupt, which no processor acts on; it waits until it
    is delivered. If a command is always delivered when [ID] has been read after
    it ([LapicPrompt]; [microdelay] does not wait), [lapicstartap] starts the
    processor [apicid] at the page [addr], whatever it did before, and no other
    one; the warm reset vector, for processors that start from it, is the same
    address. Both return, and the state of the device else is kept. *)
Theorem lapic_correct s :
  (l_lapic s = 0 → lapicinit s = Done tt s ∧ lapiceoi s = Done tt s ∧ lapicid s = Done 0 s ∧
    ∀ apicid addr, lapicstartap apicid addr s = Panic "page fault") ∧
  (l_lapic s ≠ 0 →
    (∃ h, lapiceoi s = Done tt (with_hw s h) ∧ sent h = sent (l_hw s) ∧ same_regs (l_hw s) h) ∧
    (∃ h, lapicid s = Done (Z.shiftr (reg (l_hw s) ID) 24) (with_hw s h) ∧ sent h = sent (l_hw s) ∧ same_regs (l_hw s) h) ∧
    (lag (l_hw s) = 0%nat →
      (∃ h i, lapicinit s = Done tt (with_hw s h) ∧ lapic_ready h (bool_decide (4 ≤ Z.land (Z.shiftr (reg (l_hw s) VER) 16) 0xFF)) ∧ reg h ID = reg (l_hw s) ID ∧
        lag h = 0%nat ∧ sent h = sent (l_hw s) ++ [i] ∧ ∀ me p, receive me p i = p) ∧
      (LapicPrompt H → ∀ apicid page, 0 ≤ apicid < 256 → 0 ≤ page < 256 →
        ∃ s' l, lapicstartap apicid (4096 * page) s = Done tt s' ∧ l_lapic s' = l_lapic s ∧ reg (l_hw s') ID = reg (l_hw s) ID ∧
          lag (l_hw s') = 0%nat ∧ sent (l_hw s') = sent (l_hw s) ++ l ∧
          (∀ me p, foldl (receive me) p l = if decide (me = apicid) then Started (4096 * page) else p) ∧
          l_mem s' !! WARM_RESET = Some 0 ∧ (λ w, 16 * w) <$> l_mem s' !! (WARM_RESET + 2) = Some (4096 * page)))).
Proof.
  split; [by apply no_lapic|].
  intros Hl. split; [by apply lapiceoi_spec|]. split; [by apply lapicid_spec|]. intros Hlag. split; [by apply lapicinit_spec|]. intros Hprompt apicid page Ha Hp.
  destruct (lapicstartap_spec s apicid (4096 * page) Hprompt Hl Hlag Ha) as (h & Hrun & Hid & Hlh & Hsent). eexists _, _. split; [exact Hrun|]. cbn [l_lapic l_hw l_mem].
  split; [done|]. split; [done|]. split; [done|].
  split; [exact Hsent|]. rewrite !Z.shiftr_div_pow2 by lia. change (2 ^ 12) with 4096. change (2 ^ 4) with 16. rewrite (Z.mul_comm 4096), Z.div_mul by lia. split; [|split].
  - intros me p. rewrite receive_start by done. rewrite Z.shiftl_mul_pow2 by lia. done.
  - rewrite lookup_insert_ne by done. apply lookup_insert_eq.
  - rewrite lookup_insert_eq. cbn. f_equal. unfold u16. replace (page * 4096) with (page * 256 * 16) by lia. rewrite Z.div_mul by lia. change (2 ^ 16) with 65536. rewrite Z.mod_small by lia. lia.
Qed.
End lapic_proof.

(** ** The I/O APIC *)

Abbreviation IOAPIC := (0xFEC00000) (only parsing).   (* Default physical address of IO APIC *)
Abbreviation REG_ID := (0x00) (only parsing).         (* Register index: ID *)
Abbreviation REG_VER := (0x01) (only parsing).        (* Register index: version *)
Abbreviation REG_TABLE := (0x10) (only parsing).      (* Redirection table base *)
Abbreviation INT_DISABLED := (0x00010000) (only parsing).

(** The register that is selected and the values of the registers. A redirection
    entry holds what is written to it. *)
Class Ioapic (H : Type) := {
  io_select : Z → M H unit;
  io_get : M H Z;
  io_put : Z → M H unit;
  io_sel : H → Z;
  io_regs : H → Z → Z
}.
Definition maxintr_of {H} `{Ioapic H} (h : H) : Z := Z.land (Z.shiftr (io_regs h REG_VER) 16) 0xFF.
Class IoapicLaws (H : Type) `{Ioapic H} : Prop := {
  io_select_ok r h : ∃ h', io_select r h = Done tt h' ∧ io_sel h' = r ∧ ∀ q, io_regs h' q = io_regs h q;
  io_get_ok h : io_get h = Done (io_regs h (io_sel h)) h;
  io_put_ok v h : REG_TABLE ≤ io_sel h ≤ REG_TABLE + 2 * maxintr_of h + 1 →
    ∃ h', io_put v h = Done tt h' ∧ ∀ q, io_regs h' q = if decide (q = io_sel h) then v else io_regs h q
}.

Section ioapic_code.
  Context {H : Type} `{Ioapic H}.

(** [ioapic], the pointer to the device, and the messages on the console. *)
Record ioapic_state := Ios { io_ptr : Z; io_dev : H; io_said : list string }.
Definition ihw {A} (m : M H A) : M ioapic_state A :=
  s ← mget;
  if decide (io_ptr s = 0) then panic "page fault" else zoom io_dev (λ h s, Ios (io_ptr s) h (io_said s)) m.
Definition isay (msg : string) : M ioapic_state unit := mmodify (λ s, Ios (io_ptr s) (io_dev s) (io_said s ++ [msg])).

Definition ioapicread (reg : Z) : M ioapic_state Z := ihw (io_select reg);; ihw io_get.
Definition ioapicwrite (reg data : Z) : M ioapic_state unit := ihw (io_select reg);; ihw (io_put data).

Definition ioapicinit (ioapicid : Z) : M ioapic_state unit :=
  mmodify (λ s, Ios IOAPIC (io_dev s) (io_said s));;
  v ← ioapicread REG_VER;
  let maxintr := Z.land (Z.shiftr v 16) 0xFF in
  v ← ioapicread REG_ID;
  let id := Z.shiftr v 24 in
  (if decide (id ≠ ioapicid) then isay "ioapicinit: id isn't equal to ioapicid; not a MP" else mret tt);;
  mfor (seqZ 0 (maxintr + 1)) (λ i,
    ioapicwrite (REG_TABLE + 2 * i) (Z.lor INT_DISABLED (T_IRQ0 + i));;
    ioapicwrite (REG_TABLE + 2 * i + 1) 0).

Definition ioapicenable (irq cpunum : Z) : M ioapic_state unit :=
  ioapicwrite (REG_TABLE + 2 * irq) (T_IRQ0 + irq);;
  ioapicwrite (REG_TABLE + 2 * irq + 1) (u32 (Z.shiftl cpunum 24)).
End ioapic_code.

(** The fields of a redirection entry. *)
Record redirection := Redirection { rd_vector : Z; rd_mode : Z; rd_masked : bool; rd_level : bool; rd_low : bool; rd_logical : bool; rd_dest : Z }.
#[export] Instance redirection_eq_dec : EqDecision redirection.
Proof. solve_decision. Defined.
Definition redirection_of (lo hi : Z) : redirection :=
  Redirection (Z.land lo 0xFF) (Z.land (Z.shiftr lo 8) 7) (Z.testbit lo 16) (Z.testbit lo 15) (Z.testbit lo 13) (Z.testbit lo 11) (Z.shiftr hi 24).

Section ioapic_proof.
  Context {H : Type} `{HA : Ioapic H} `{HL : !IoapicLaws H}.
  Implicit Types (h : H) (s : ioapic_state (H := H)).

Definition io_state (s : ioapic_state (H := H)) (f : Z → Z) (said : list string) : Prop := io_ptr s = IOAPIC ∧ io_said s = said ∧ ∀ q, io_regs (io_dev s) q = f q.

Lemma ihw_run {A} (m : M H A) s a h : io_ptr s = IOAPIC → m (io_dev s) = Done a h → ihw m s = Done a (Ios (io_ptr s) h (io_said s)).
Proof. intros Hp Hm. unfold ihw. rewrite (run_bind mget _ s s s) by done. rewrite decide_False by (rewrite Hp; done). unfold zoom. by rewrite Hm. Qed.

Lemma ioapicread_spec r s f said : io_state s f said → wp (ioapicread r) (λ v s', v = f r ∧ io_state s' f said) s.
Proof.
  intros (Hp & Hs & Hf). destruct (io_select_ok r (io_dev s)) as (h & Hrun & Hsel & Hr). unfold ioapicread. eapply wp_bind, wp_done; [by apply ihw_run|].
  eapply wp_done; [apply ihw_run; [done|apply io_get_ok]|]. cbn [io_dev]. split; [by rewrite Hsel, Hr, Hf|]. split_and!; [done|done|].
  intros q. cbn [io_dev]. by rewrite Hr.
Qed.

Definition table_reg (f : Z → Z) (r : Z) : Prop := REG_TABLE ≤ r ≤ REG_TABLE + 2 * Z.land (Z.shiftr (f REG_VER) 16) 0xFF + 1.

Lemma ioapicwrite_spec r v s f said : io_state s f said → table_reg f r → wp (ioapicwrite r v) (λ _ s', io_state s' (λ q, if decide (q = r) then v else f q) said) s.
Proof.
  intros (Hp & Hs & Hf) Hr. destruct (io_select_ok r (io_dev s)) as (h & Hrun & Hsel & Hr'). unfold ioapicwrite. eapply wp_bind, wp_done; [by apply ihw_run|].
  destruct (io_put_ok v h) as (h' & Hrun' & Hput). { rewrite Hsel. unfold maxintr_of. by rewrite Hr', Hf. }
  eapply wp_done; [apply ihw_run; [done|exact Hrun']|]. split_and!; [done|done|]. intros q. cbn [io_dev]. rewrite Hput, Hsel, Hr', Hf. done.
Qed.

(** The two words of an entry are written. *)
Definition entry_set (i lo hi : Z) (f : Z → Z) (q : Z) : Z := if decide (q = REG_TABLE + 2 * i + 1) then hi else if decide (q = REG_TABLE + 2 * i) then lo else f q.

Lemma entry_write i lo hi s f said : io_state s f said → 0 ≤ i ≤ Z.land (Z.shiftr (f REG_VER) 16) 0xFF →
  wp (ioapicwrite (REG_TABLE + 2 * i) lo;; ioapicwrite (REG_TABLE + 2 * i + 1) hi) (λ _ s', io_state s' (entry_set i lo hi f) said) s.
Proof.
  intros Hs Hi. eapply wp_bind, wp_mono; [apply ioapicwrite_spec; [exact Hs|]; unfold table_reg; lia|]. intros [] s1 Hs1. cbv beta in Hs1.
  apply ioapicwrite_spec; [exact Hs1|]. unfold table_reg. rewrite decide_False by lia. lia.
Qed.

(** The processor that an interrupt was last routed to. *)
Definition route (l : list (Z * Z)) (i : Z) : option Z := snd <$> last (filter (λ e, e.1 = i) l).
Definition entry_words (l : list (Z * Z)) (i : Z) : Z * Z :=
  match route l i with Some c => (T_IRQ0 + i, u32 (Z.shiftl c 24)) | None => (Z.lor INT_DISABLED (T_IRQ0 + i), 0) end.

Lemma route_snoc l j c i : route (l ++ [(j, c)]) i = if decide (i = j) then Some c else route l i.
Proof.
  unfold route. rewrite filter_app, filter_cons, filter_nil. cbn [fst]. destruct (decide (i = j)) as [->|Hne].
  - rewrite decide_True by done. by rewrite last_snoc.
  - by rewrite decide_False, app_nil_r by congruence.
Qed.

Lemma redirection_bits : forallb (λ i,
    bool_decide (redirection_of (T_IRQ0 + i) 0 = Redirection (T_IRQ0 + i) 0 false false false false 0) &&
    bool_decide (redirection_of (Z.lor INT_DISABLED (T_IRQ0 + i)) 0 = Redirection (T_IRQ0 + i) 0 true false false false 0)) (seqZ 0 224) = true.
Proof. vm_compute. reflexivity. Qed.

(** The fields of the entries; vectors fit in a byte for the first 224. *)
Lemma entry_fields l i : 0 ≤ i < 224 → (∀ c, route l i = Some c → 0 ≤ c < 256) →
  redirection_of (entry_words l i).1 (entry_words l i).2 =
  Redirection (T_IRQ0 + i) 0 (bool_decide (route l i = None)) false false false (default 0 (route l i)).
Proof.
  intros Hi Hc. pose proof redirection_bits as Hall. rewrite forallb_forall in Hall.
  specialize (Hall i (proj1 (list_elem_of_In _ _) (proj2 (elem_of_seqZ 0 224 i) ltac:(lia)))).
  apply andb_true_iff in Hall as [H1%bool_decide_eq_true H2%bool_decide_eq_true]. unfold entry_words. destruct (route l i) as [c|] eqn:Hr.
  - cbn [fst snd default]. transitivity (let r := redirection_of (T_IRQ0 + i) 0 in
      Redirection (rd_vector r) (rd_mode r) (rd_masked r) (rd_level r) (rd_low r) (rd_logical r) (Z.shiftr (u32 (Z.shiftl c 24)) 24)); [reflexivity|].
    rewrite H1. cbv zeta. cbn [rd_vector rd_mode rd_masked rd_level rd_low rd_logical]. rewrite apicid_shift by (apply Hc; done). by rewrite bool_decide_false.
  - exact H2.
Qed.

Lemma route_range l i c : Forall (λ e, 0 ≤ e.2 < 256) l → route l i = Some c → 0 ≤ c < 256.
Proof.
  intros Hl. unfold route. destruct (last _) as [e|] eqn:Hlast; [|done]. cbn. intros [= <-]. apply last_Some_elem_of, list_elem_of_filter in Hlast as [_ Hin].
  rewrite Forall_forall in Hl. by apply Hl.
Qed.

Definition table_words (f : Z → Z) (n : Z) (l : list (Z * Z)) : Prop :=
  ∀ i, 0 ≤ i < n → f (REG_TABLE + 2 * i) = (entry_words l i).1 ∧ f (REG_TABLE + 2 * i + 1) = (entry_words l i).2.

Lemma entry_set_same i lo hi f : entry_set i lo hi f (REG_TABLE + 2 * i) = lo ∧ entry_set i lo hi f (REG_TABLE + 2 * i + 1) = hi.
Proof. unfold entry_set. split; [by rewrite decide_False, decide_True by lia|by rewrite decide_True]. Qed.
Lemma entry_set_other i j lo hi f : i ≠ j → entry_set i lo hi f (REG_TABLE + 2 * j) = f (REG_TABLE + 2 * j) ∧ entry_set i lo hi f (REG_TABLE + 2 * j + 1) = f (REG_TABLE + 2 * j + 1).
Proof. intros Hne. unfold entry_set. split; by rewrite !decide_False by lia. Qed.
Lemma entry_set_ver i lo hi f : 0 ≤ i → entry_set i lo hi f REG_VER = f REG_VER.
Proof. intros Hi. unfold entry_set. by rewrite !decide_False by lia. Qed.

Lemma ioapicinit_spec ioapicid s : let maxintr := maxintr_of (io_dev s) in
  wp (ioapicinit ioapicid) (λ _ s', ∃ f, io_state s' f (io_said s ++ if decide (Z.shiftr (io_regs (io_dev s) REG_ID) 24 = ioapicid) then [] else ["ioapicinit: id isn't equal to ioapicid; not a MP"]) ∧
    f REG_VER = io_regs (io_dev s) REG_VER ∧ table_words f (maxintr + 1) []) s.
Proof.
  intros maxintr. unfold ioapicinit. apply wp_bind, wp_modify.
  assert (Hs0 : io_state (Ios IOAPIC (io_dev s) (io_said s)) (io_regs (io_dev s)) (io_said s)) by (split_and!; [exact eq_refl|exact eq_refl|intros q; exact eq_refl]).
  eapply wp_bind, wp_mono; [exact (ioapicread_spec REG_VER _ _ _ Hs0)|]. intros v s1 [-> Hs1].
  cbv zeta. eapply wp_bind, wp_mono; [exact (ioapicread_spec REG_ID _ _ _ Hs1)|]. intros v s2 [-> Hs2]. fold (maxintr_of (io_dev s)). fold maxintr. set (f0 := io_regs (io_dev s)) in *.
  set (said := io_said s ++ _). apply wp_bind. apply (wp_mono _ (λ _ s', io_state s' f0 said)).
  { destruct Hs2 as (Hp & Hsaid & Hf). unfold said. destruct (decide (Z.shiftr (f0 REG_ID) 24 = ioapicid)) as [Hid|Hid].
    - rewrite decide_False by tauto. apply wp_ret. split_and!; [exact Hp| |exact Hf]. by rewrite Hsaid, app_nil_r.
    - rewrite decide_True by exact Hid. apply wp_modify. split_and!; [exact Hp| |exact Hf]. cbn [io_said]. by rewrite Hsaid. }
  intros [] s3 Hs3. assert (Hmax : 0 ≤ maxintr) by (unfold maxintr, maxintr_of; apply Z.land_nonneg; right; lia).
  apply (wp_mfor (λ l1 s', ∃ f, io_state s' f said ∧ f REG_VER = f0 REG_VER ∧ table_words f (Z.of_nat (length l1)) [])).
  - exists f0. split_and!; [done|done|]. intros i Hi. simpl in Hi. lia.
  - intros l1 x l2 s' Hl (f & Hs' & Hver & Ht). assert (Hx : seqZ 0 (maxintr + 1) !! length l1 = Some x) by (rewrite Hl; by apply list_lookup_middle).
    apply lookup_seqZ in Hx as [-> Hx]. eapply wp_mono; [apply entry_write; [exact Hs'|]|].
    + rewrite Hver. change (Z.land (Z.shiftr (f0 REG_VER) 16) 255) with maxintr. lia.
    + intros [] s4 Hs4. eexists. split; [exact Hs4|]. split; [rewrite entry_set_ver by lia; done|]. rewrite length_app. cbn [length]. intros i Hi.
      destruct (decide (i = 0 + Z.of_nat (length l1))) as [->|Hne].
      * rewrite !(proj1 (entry_set_same _ _ _ _)), !(proj2 (entry_set_same _ _ _ _)). done.
      * rewrite !(proj1 (entry_set_other _ i _ _ _ (not_eq_sym Hne))), !(proj2 (entry_set_other _ i _ _ _ (not_eq_sym Hne))). apply Ht. lia.
  - intros s' (f & Hs' & Hver & Ht). exists f. split; [done|]. split; [done|]. rewrite length_seqZ, Z2Nat.id in Ht by lia. done.
Qed.

(** C30. After [ioapicinit] and any calls of [ioapicenable], the redirection table
    has for every interrupt of the device the vector [T_IRQ0 + i], fixed
    delivery, edge-triggered, active high, physical destination; the
    interrupts that were enabled go to the processor of the last call, and all
    others are masked. (The vector fits its byte for up to 224 interrupts.) *)
Theorem ioapic_correct ioapicid l s : maxintr_of (io_dev s) < 224 → Forall (λ e, 0 ≤ e.1 ≤ maxintr_of (io_dev s) ∧ 0 ≤ e.2 < 256) l →
  ∃ s', (ioapicinit ioapicid;; mfor l (λ e, ioapicenable e.1 e.2)) s = Done tt s' ∧
    ∀ i, 0 ≤ i ≤ maxintr_of (io_dev s) →
      redirection_of (io_regs (io_dev s') (REG_TABLE + 2 * i)) (io_regs (io_dev s') (REG_TABLE + 2 * i + 1)) =
      Redirection (T_IRQ0 + i) 0 (bool_decide (route l i = None)) false false false (default 0 (route l i)).
Proof.
  intros Hmax Hl. set (maxintr := maxintr_of (io_dev s)) in *.
  assert (Hwp : wp (ioapicinit ioapicid;; mfor l (λ e, ioapicenable e.1 e.2)) (λ _ s', ∃ f said, io_state s' f said ∧ table_words f (maxintr + 1) l) s).
  { eapply wp_bind, wp_mono; [apply ioapicinit_spec|]. fold maxintr. intros [] s1 (f & Hs1 & Hver & Ht). set (said := io_said s ++ _) in Hs1. clearbody said.
    apply (wp_mfor (λ l1 s', ∃ f', io_state s' f' said ∧ f' REG_VER = io_regs (io_dev s) REG_VER ∧ table_words f' (maxintr + 1) l1)); [by exists f| |].
    - intros l1 [irq cpu] l2 s2 -> (f2 & Hs2 & Hver2 & Ht2). apply Forall_app in Hl as [_ [[Hirq Hcpu] _]%Forall_cons]. cbn [fst snd] in *.
      eapply wp_mono; [apply entry_write; [exact Hs2|]|]. { rewrite Hver2. exact Hirq. }
      intros [] s3 Hs3. eexists. split; [exact Hs3|]. split; [by rewrite entry_set_ver by lia|]. intros i Hi. unfold entry_words. rewrite route_snoc.
      destruct (decide (i = irq)) as [->|Hne]; [apply entry_set_same|]. rewrite !(proj1 (entry_set_other _ i _ _ _ (not_eq_sym Hne))), !(proj2 (entry_set_other _ i _ _ _ (not_eq_sym Hne))). by apply Ht2.
    - intros s' (f' & Hs' & _ & Ht'). by exists f', said. }
  apply wp_inv in Hwp as ([] & s' & Hrun & f & said & (_ & _ & Hf) & Ht). exists s'. split; [done|]. intros i Hi. rewrite !Hf.
  destruct (Ht i ltac:(lia)) as [-> ->]. apply entry_fields; [lia|]. intros c. apply route_range. eapply Forall_impl; [exact Hl|]. by intros [? ?] [? ?].
Qed.
End ioapic_proof.

(** ** The real-time clock *)

Abbreviation CMOS_RETURN := (0x71) (only parsing).
Abbreviation CMOS_STATA := (0x0a) (only parsing).
Abbreviation CMOS_STATB := (0x0b) (only parsing).
Abbreviation CMOS_UIP := (Z.shiftl 1 7) (only parsing).        (* RTC update in progress *)
Abbreviation SECS := (0x00) (only parsing).
Abbreviation MINS := (0x02) (only parsing).
Abbreviation HOURS := (0x04) (only parsing).
Abbreviation DAY := (0x07) (only parsing).
Abbreviation MONTH := (0x08) (only parsing).
Abbreviation YEAR := (0x09) (only parsing).

Record rtcdate := Rtcdate { second : Z; minute : Z; hour : Z; day : Z; month : Z; year : Z }.
#[export] Instance rtcdate_eq_dec : EqDecision rtcdate.
Proof. solve_decision. Defined.

(** The clock holds a date; it announces an update a little before; during the
    update the registers show anything. *)
Inductive phase := Steady (d : rtcdate) | Pending (d : rtcdate) | Updating.
Definition date_of (p : phase) : option rtcdate := match p with Steady d | Pending d => Some d | Updating => None end.

(** A register shows a number in binary or as two decimal digits, as bit 2 of
    status register B says; hours are those of a 24-hour clock, and the year is
    one of the century. *)
Definition encode (statb x : Z) : Z := if Z.testbit statb 2 then x else 16 * (x / 10) + x `mod` 10.
Definition field (r : Z) (d : rtcdate) : Z :=
  if decide (r = SECS) then second d else if decide (r = MINS) then minute d else if decide (r = HOURS) then hour d
  else if decide (r = DAY) then day d else if decide (r = MONTH) then month d else year d - 2000.
Definition shown (statb : Z) (p : phase) (r v : Z) : Prop :=
  if decide (r = CMOS_STATB) then v = statb
  else if decide (r = CMOS_STATA) then Z.land v CMOS_UIP = 0 ↔ ∃ d, p = Steady d
  else ∀ d, date_of p = Some d → v = encode statb (field r d).

(** The course of the clock, in units of accesses to the ports. *)
Class Rtc (H : Type) := {
  rtc_select : Z → M H unit;
  rtc_read : M H Z;
  rtc_sel : H → Z;
  rtc_now : H → nat;
  rtc_clock : nat → phase;
  rtc_statb : Z;
  patience : nat
}.
Definition date_at {H} `{Rtc H} (k : nat) : option rtcdate := date_of (rtc_clock k).
Definition valid_date (d : rtcdate) : Prop :=
  0 ≤ second d < 60 ∧ 0 ≤ minute d < 60 ∧ 0 ≤ hour d < 24 ∧ 1 ≤ day d ≤ 31 ∧ 1 ≤ month d ≤ 12 ∧ 2000 ≤ year d < 2100.

(** Only an update changes the date; updates come one second apart, which is
    longer than a try to read the date takes; and between them the clock is
    steady for longer than two tries. *)
Class RtcLaws (H : Type) `{Rtc H} : Prop := {
  rtc_select_ok r h : ∃ h', rtc_select r h = Done tt h' ∧ rtc_sel h' = r ∧ rtc_now h' = S (rtc_now h);
  rtc_read_ok h : ∃ v h', rtc_read h = Done v h' ∧ rtc_sel h' = rtc_sel h ∧ rtc_now h' = S (rtc_now h) ∧
    shown rtc_statb (rtc_clock (rtc_now h)) (rtc_sel h) v;
  clock_kept k d d' : date_at k = Some d → date_at (S k) = Some d' → d = d';
  clock_apart i j k : (i ≤ k ≤ j)%nat → (j ≤ i + 26)%nat → date_at i = None → date_at j = None → date_at k = None;
  clock_rest k : ∃ j, (k ≤ j ≤ k + patience)%nat ∧ ∀ i, (j ≤ i < j + 52)%nat → ∃ d, rtc_clock i = Steady d;
  clock_valid k d : date_at k = Some d → valid_date d
}.

Section clock_code.
  Context {H : Type} `{Rtc H}.

Definition cmos_read (reg : Z) : M H Z := rtc_select reg;; rtc_read.

Definition fill_rtcdate : M H rtcdate :=
  s ← cmos_read SECS;
  m ← cmos_read MINS;
  h ← cmos_read HOURS;
  d ← cmos_read DAY;
  mo ← cmos_read MONTH;
  y ← cmos_read YEAR;
  mret (Rtcdate s m h d mo y).

(** The loop of [cmostime] that reads a date twice. *)
Fixpoint stable_date (fuel : nat) : M H rtcdate :=
  match fuel with
  | O => λ _, Diverge
  | S fuel =>
    t1 ← fill_rtcdate;
    a ← cmos_read CMOS_STATA;
    if decide (Z.land a CMOS_UIP ≠ 0) then stable_date fuel else
    t2 ← fill_rtcdate;
    if decide (t1 = t2) then mret t1 else stable_date fuel
  end.

Definition CONV (x : Z) : Z := Z.shiftr x 4 * 10 + Z.land x 0xf.
Definition conv_date (t : rtcdate) : rtcdate :=
  Rtcdate (CONV (second t)) (CONV (minute t)) (CONV (hour t)) (CONV (day t)) (CONV (month t)) (CONV (year t)).

Definition cmostime : M H rtcdate :=
  sb ← cmos_read CMOS_STATB;
  let bcd := bool_decide (Z.land sb (Z.shiftl 1 2) = 0) in
  t1 ← stable_date (S patience);
  let t1 := if bcd then conv_date t1 else t1 in
  mret (Rtcdate (second t1) (minute t1) (hour t1) (day t1) (month t1) (u32 (year t1 + 2000))).
End clock_code.

Section clock_proof.
  Context {H : Type} `{HA : Rtc H} `{HL : !RtcLaws H}.
  Implicit Types h : H.

Lemma cmos_read_spec r h : ∃ v h', cmos_read r h = Done v h' ∧ rtc_now h' = (rtc_now h + 2)%nat ∧ shown rtc_statb (rtc_clock (rtc_now h + 1)) r v.
Proof.
  destruct (rtc_select_ok r h) as (h1 & Hrun1 & Hsel & Hn1). destruct (rtc_read_ok h1) as (v & h2 & Hrun2 & _ & Hn2 & Hsh). exists v, h2.
  unfold cmos_read. rewrite (run_bind _ _ _ _ _ Hrun1). split; [done|]. split; [lia|]. rewrite Hsel, Hn1 in Hsh. by rewrite Nat.add_1_r.
Qed.

(** The registers of a date. *)
Definition encoded (d : rtcdate) : rtcdate :=
  let e := encode rtc_statb in Rtcdate (e (second d)) (e (minute d)) (e (hour d)) (e (day d)) (e (month d)) (e (year d - 2000)).

Lemma fill_spec h : ∃ t h', fill_rtcdate h = Done t h' ∧ rtc_now h' = (rtc_now h + 12)%nat ∧
  ∀ d, (∀ k, (rtc_now h ≤ k < rtc_now h + 12)%nat → date_at k = Some d) → t = encoded d.
Proof.
  destruct (cmos_read_spec SECS h) as (v1 & h1 & R1 & N1 & S1). destruct (cmos_read_spec MINS h1) as (v2 & h2 & R2 & N2 & S2).
  destruct (cmos_read_spec HOURS h2) as (v3 & h3 & R3 & N3 & S3). destruct (cmos_read_spec DAY h3) as (v4 & h4 & R4 & N4 & S4).
  destruct (cmos_read_spec MONTH h4) as (v5 & h5 & R5 & N5 & S5). destruct (cmos_read_spec YEAR h5) as (v6 & h6 & R6 & N6 & S6).
  exists (Rtcdate v1 v2 v3 v4 v5 v6), h6. split; [|split; [lia|]].
  - unfold fill_rtcdate. rewrite (run_bind _ _ _ _ _ R1), (run_bind _ _ _ _ _ R2), (run_bind _ _ _ _ _ R3), (run_bind _ _ _ _ _ R4), (run_bind _ _ _ _ _ R5), (run_bind _ _ _ _ _ R6). done.
  - intros d Hd. unfold encoded. cbv zeta. f_equal.
    + apply (S1 d), Hd. lia.
    + apply (S2 d), Hd. lia.
    + apply (S3 d), Hd. lia.
    + apply (S4 d), Hd. lia.
    + apply (S5 d), Hd. lia.
    + apply (S6 d), Hd. lia.
Qed.

Lemma kept_range a n : (0 < n)%nat → (∀ k, (a ≤ k < a + n)%nat → date_at k ≠ None) → ∃ d, ∀ k, (a ≤ k < a + n)%nat → date_at k = Some d.
Proof.
  induction n as [|n IH]; intros Hn Hk; [lia|]. destruct (decide (n = 0)%nat) as [->|Hn0].
  - destruct (date_at a) as [d|] eqn:Hd; [|by destruct (Hk a); [lia|]]. exists d. intros k Hka. by replace k with a by lia.
  - destruct IH as [d Hd]; [lia|intros k Hka; apply Hk; lia|]. exists d. intros k Hka. destruct (decide (k = a + n)%nat) as [->|]; [|apply Hd; lia].
    destruct (date_at (a + n)) as [d'|] eqn:Hd'; [|by destruct (Hk (a + n)%nat); [lia|]]. f_equal. symmetry. apply (clock_kept (a + n - 1)); [apply Hd; lia|].
    by replace (S (a + n - 1)) with (a + n)%nat by lia.
Qed.

(** The date that two equal readings show is one that the clock held. *)
Lemma held_date a t1 t2 d0 : rtc_clock (a + 13) = Steady d0 → t1 = t2 →
  (∀ d, (∀ k, (a ≤ k < a + 12)%nat → date_at k = Some d) → t1 = encoded d) → (∀ d, (∀ k, (a + 14 ≤ k < a + 26)%nat → date_at k = Some d) → t2 = encoded d) →
  ∃ k d, (a ≤ k < a + 26)%nat ∧ date_at k = Some d ∧ t1 = encoded d.
Proof.
  intros H13 <- H1 H2. destruct (decide (Forall (λ k, date_at k ≠ None) (seq a 12))) as [Hok|Hbad].
  - destruct (kept_range a 12) as [d Hd]; [lia|intros k Hk; rewrite Forall_forall in Hok; by apply Hok, elem_of_seq|]. exists a, d. split; [lia|]. split; [apply Hd; lia|]. by apply H1.
  - apply not_Forall_Exists in Hbad; [|apply _]. apply Exists_exists in Hbad as (i & Hi%elem_of_seq & Hup). apply dec_stable in Hup.
    destruct (kept_range (a + 14) 12) as [d Hd]; [lia| |].
    + intros k Hk Hnone. pose proof (clock_apart i k (a + 13) ltac:(lia) ltac:(lia) Hup Hnone) as Hn. unfold date_at in Hn. by rewrite H13 in Hn.
    + exists (a + 14)%nat, d. split; [lia|]. split; [apply Hd; lia|]. apply H2. intros k Hk. apply Hd. lia.
Qed.

Lemma stable_date_spec j : (∀ i, (j ≤ i < j + 52)%nat → ∃ d, rtc_clock i = Steady d) → ∀ fuel h, (rtc_now h ≤ j + 26)%nat → (j - rtc_now h < fuel)%nat →
  ∃ t h' k d, stable_date fuel h = Done t h' ∧ (rtc_now h ≤ k < rtc_now h')%nat ∧ date_at k = Some d ∧ t = encoded d.
Proof.
  intros Hrest. induction fuel as [|fuel IH]; intros h Hj Hf; [lia|]. destruct (fill_spec h) as (t1 & h1 & R1 & N1 & D1). destruct (cmos_read_spec CMOS_STATA h1) as (v & h2 & R2 & N2 & S2).
  destruct (fill_spec h2) as (t2 & h3 & R3 & N3 & D3). cbn [stable_date]. rewrite (run_bind _ _ _ _ _ R1), (run_bind _ _ _ _ _ R2).
  replace (rtc_now h1 + 1)%nat with (rtc_now h + 13)%nat in S2 by lia. change (Z.land v CMOS_UIP = 0 ↔ ∃ d, rtc_clock (rtc_now h + 13) = Steady d) in S2.
  replace (rtc_now h2) with (rtc_now h + 14)%nat in D3 by lia. case_decide as Huip.
  - assert (Hlt : (rtc_now h < j)%nat). { destruct (decide (rtc_now h < j)%nat) as [|Hge]; [done|]. destruct Huip. apply S2, Hrest. lia. }
    destruct (IH h2) as (t & h' & k & d & Hrun & Hk & Hd & Ht); [lia|lia|]. exists t, h', k, d. split; [done|]. split; [lia|done].
  - destruct (proj1 S2 Huip) as [d0 Hd0]. rewrite (run_bind _ _ _ _ _ R3). case_decide as Heq.
    + destruct (held_date (rtc_now h) t1 t2 d0 Hd0 Heq D1) as (k & d & Hk & Hd & Ht). { intros d Hd. apply D3. intros k Hk. apply Hd. lia. }
      exists t1, h3, k, d. split; [done|]. split; [lia|done].
    + assert (Hlt : (rtc_now h < j)%nat).
      { destruct (decide (rtc_now h < j)%nat) as [|Hge]; [done|]. destruct Heq. destruct (kept_range (rtc_now h) 26) as [d Hd]; [lia| |].
        - intros k Hk. destruct (Hrest k ltac:(lia)) as [d Hd]. unfold date_at. by rewrite Hd.
        - rewrite (D1 d), (D3 d); [done|intros k Hk; apply Hd; lia..]. }
      destruct (IH h3) as (t & h' & k & d & Hrun & Hk & Hd & Ht); [lia|lia|]. exists t, h', k, d. split; [done|]. split; [lia|done].
Qed.

Lemma conv_encode x : 0 ≤ x < 100 → CONV (16 * (x / 10) + x `mod` 10) = x.
Proof.
  intros Hx. unfold CONV. rewrite Z.shiftr_div_pow2 by lia. change 0xf with (Z.ones 4). rewrite Z.land_ones by lia. change (2 ^ 4) with 16.
  Z.to_euclidean_division_equations. lia.
Qed.

Lemma land_bit x : bool_decide (Z.land x (Z.shiftl 1 2) = 0) = negb (Z.testbit x 2).
Proof.
  destruct (Z.testbit x 2) eqn:Hb; cbn [negb].
  - apply bool_decide_false. intros Hz. assert (Ht : Z.testbit (Z.land x (Z.shiftl 1 2)) 2 = false) by (rewrite Hz; done). rewrite Z.land_spec, Hb in Ht. done.
  - apply bool_decide_true. apply Z.bits_inj_0. intros n. rewrite Z.land_spec. change (Z.shiftl 1 2) with (2 ^ 2). rewrite Z.pow2_bits_eqb by lia.
    destruct (Z.eqb_spec 2 n) as [<-|]; [by rewrite Hb|apply andb_false_r].
Qed.

(** C31. [cmostime] returns, and the date that it returns is one that the clock
    held while it ran, converted from two decimal digits if the clock shows
    these, although the clock may be updated during the reads and then shows
    anything. *)
Theorem cmostime_correct h : ∃ d h' k, cmostime h = Done d h' ∧ (rtc_now h ≤ k < rtc_now h')%nat ∧ date_at k = Some d ∧ valid_date d.
Proof.
  destruct (cmos_read_spec CMOS_STATB h) as (sb & h1 & R1 & N1 & S1). change (sb = rtc_statb) in S1. subst sb. destruct (clock_rest (rtc_now h1)) as (j & Hj & Hrest).
  destruct (stable_date_spec j Hrest (S patience) h1 ltac:(lia) ltac:(lia)) as (t & h' & k & d & R2 & Hk & Hd & ->). pose proof (clock_valid _ _ Hd) as Hv.
  exists d, h', k. split; [|split; [lia|done]]. unfold cmostime. rewrite (run_bind _ _ _ _ _ R1), (run_bind _ _ _ _ _ R2). clear -Hv. destruct Hv as (V1 & V2 & V3 & V4 & V5 & V6).
  rewrite land_bit. unfold encoded, encode, conv_date. destruct d as [sec mi ho da mo ye]. cbn [second minute hour day month year] in *. unfold mret, M_ret.
  destruct (Z.testbit rtc_statb 2); cbn [negb second minute hour day month year]; rewrite ?conv_encode by lia; repeat f_equal; rewrite u32_small by (unfold is_u32; lia); lia.
Qed.
End clock_proof.

(** ** Devices that follow the manuals *)

Record soft_lapic := SoftLapic { sl_regs : lapic_reg → Z; sl_sent : list (Z * Z); sl_busy : bool }.
Definition lapic_regs : list lapic_reg := [ID; VER; TPR; EOI; SVR; ESR; ICRLO; ICRHI; TIMER; PCINT; LINT0; LINT1; ERROR; TICR; TCCR; TDCR].
Definition reg_at (i : Z) : option lapic_reg := head (filter (λ r, index r = i) lapic_regs).

Lemma reg_at_index r : reg_at (index r) = Some r.
Proof. destruct r; vm_compute; reflexivity. Qed.

(** A command that is written while another one is pending is lost. *)
#[export] Instance soft_lapic_ops : Lapic soft_lapic := {
  lread i h := Done match reg_at i with
    | Some ICRLO => if sl_busy h then DELIVS else 0
    | Some r => sl_regs h r
    | None => 0
    end (SoftLapic (sl_regs h) (sl_sent h) false);
  lwrite i v h := Done tt match reg_at i with
    | Some ICRLO => if sl_busy h then h else let w := effect ICRLO v (sl_regs h, sl_sent h) in SoftLapic w.1 w.2 true
    | Some r => let w := effect r v (sl_regs h, sl_sent h) in SoftLapic w.1 w.2 (sl_busy h)
    | None => h
    end;
  reg := sl_regs;
  sent := sl_sent;
  lag h := if sl_busy h then 1%nat else 0%nat;
  delay := 1
}.

#[export] Instance soft_lapic_laws : LapicLaws soft_lapic.
Proof.
  constructor; unfold same_regs; cbn [lread lwrite reg sent lag delay soft_lapic_ops].
  - intros r v h Hr Hi Hv. rewrite reg_at_index. destruct r; try done; (eexists; split; [reflexivity|]; split; [done|]; split; [done|]; done).
  - intros r v h [-> | ->]; rewrite reg_at_index; by eexists.
  - intros v h Hb. rewrite reg_at_index. destruct (sl_busy h); [done|]. by eexists.
  - intros r h Hr. rewrite reg_at_index. eexists. split; [by destruct r|]. split; [done|]. split; [destruct (sl_busy h); simpl; lia|done].
  - intros h. rewrite reg_at_index. eexists _, _. split; [reflexivity|]. split; [done|]. split; [done|]. destruct (sl_busy h); [right|left]; [|done]. split; [done|]. simpl. lia.
  - intros h. destruct (sl_busy h); lia.
Qed.

#[export] Instance soft_lapic_prompt : LapicPrompt soft_lapic.
Proof. intros v x h h1 h2 _ [= _ <-]. done. Qed.

Lemma lapic_correct_witness : let s := Lst 0xfee00000 (SoftLapic (λ _, 0) [] false) [] ∅ in
  ∃ s' l, lapicstartap 3 0x7000 s = Done tt s' ∧ foldl (receive 3) Running l = Started 0x7000 ∧ foldl (receive 0) Running l = Running ∧ sent (l_hw s') = l.
Proof.
  intros s. destruct (lapic_correct s) as [_ Hon]. destruct (Hon ltac:(discriminate)) as (_ & _ & Hidle). destruct (Hidle eq_refl) as [_ Hstart].
  destruct (Hstart soft_lapic_prompt 3 7 ltac:(lia) ltac:(lia)) as (s' & l & Hrun & _ & _ & _ & Hs & Hrec & _). exists s', l. split; [exact Hrun|]. rewrite !Hrec. split; [reflexivity|]. split; [reflexivity|exact Hs].
Defined.

Record soft_ioapic := SoftIoapic { si_sel : Z; si_regs : Z → Z }.
#[export] Instance soft_ioapic_ops : Ioapic soft_ioapic := {
  io_select r h := Done tt (SoftIoapic r (si_regs h));
  io_get h := Done (si_regs h (si_sel h)) h;
  io_put v h := Done tt (SoftIoapic (si_sel h) (λ q, if decide (q = si_sel h) then v else si_regs h q));
  io_sel := si_sel;
  io_regs := si_regs
}.
#[export] Instance soft_ioapic_laws : IoapicLaws soft_ioapic.
Proof.
  constructor; cbn [io_select io_get io_put io_sel io_regs soft_ioapic_ops].
  - intros r h. by eexists.
  - done.
  - intros v h _. by eexists.
Qed.

(** The interrupts that the kernel enables, on a device with 24. *)
Lemma ioapic_correct_witness : let s := Ios 0 (SoftIoapic 0 (λ r, if decide (r = REG_VER) then 0x170011 else 0)) [] in
  ∃ s', (ioapicinit 0;; mfor [(IRQ_KBD, 0); (IRQ_COM1, 0); (IRQ_IDE, 1)] (λ e, ioapicenable e.1 e.2)) s = Done tt s' ∧
    redirection_of (io_regs (io_dev s') (REG_TABLE + 2 * IRQ_IDE)) (io_regs (io_dev s') (REG_TABLE + 2 * IRQ_IDE + 1)) = Redirection 46 0 false false false false 1 ∧
    rd_masked (redirection_of (io_regs (io_dev s') (REG_TABLE + 2 * 7)) (io_regs (io_dev s') (REG_TABLE + 2 * 7 + 1))) = true.
Proof.
  intros s. assert (Hmax : maxintr_of (io_dev s) = 23) by (vm_compute; reflexivity).
  destruct (ioapic_correct 0 [(IRQ_KBD, 0); (IRQ_COM1, 0); (IRQ_IDE, 1)] s) as (s' & Hrun & Ht).
  - rewrite Hmax. lia.
  - rewrite Hmax. repeat constructor; simpl; unfold IRQ_KBD, IRQ_COM1, IRQ_IDE; lia.
  - exists s'. split; [exact Hrun|]. rewrite !Ht by (rewrite Hmax; unfold IRQ_IDE; lia). split; reflexivity.
Defined.

(** A clock that is updated at the accesses 4 to 6, from the end of a year. *)
Record soft_rtc := SoftRtc { sr_sel : Z; sr_now : nat }.
Definition old_year : rtcdate := Rtcdate 59 59 23 31 12 2023.
Definition new_year : rtcdate := Rtcdate 0 0 0 1 1 2024.
Definition demo_clock (k : nat) : phase := if decide (k < 4)%nat then Pending old_year else if decide (k < 7)%nat then Updating else Steady new_year.
Definition demo_shows (k : nat) (r : Z) : Z :=
  if decide (r = CMOS_STATB) then 2
  else if decide (r = CMOS_STATA) then match demo_clock k with Steady _ => 0 | _ => CMOS_UIP end
  else match date_of (demo_clock k) with Some d => encode 2 (field r d) | None => 0xFF end.
#[export] Instance soft_rtc_ops : Rtc soft_rtc := {
  rtc_select r h := Done tt (SoftRtc r (S (sr_now h)));
  rtc_read h := Done (demo_shows (sr_now h) (sr_sel h)) (SoftRtc (sr_sel h) (S (sr_now h)));
  rtc_sel := sr_sel;
  rtc_now := sr_now;
  rtc_clock := demo_clock;
  rtc_statb := 2;
  patience := 7
}.
#[export] Instance soft_rtc_laws : RtcLaws soft_rtc.
Proof.
  constructor; unfold date_at; cbn [rtc_select rtc_read rtc_sel rtc_now rtc_clock rtc_statb patience soft_rtc_ops].
  - intros r h. by eexists.
  - intros h. eexists _, _. split; [reflexivity|]. split; [done|]. split; [done|]. unfold shown, demo_shows. case_decide; [done|]. case_decide.
    + destruct (demo_clock (sr_now h)) as [d|d|]; split; try done; [by exists d|by intros [? [=]]..].
    + intros d ->. done.
  - intros k d d'. unfold demo_clock. repeat case_decide; try lia; simpl; congruence.
  - intros i j k Hk Hj. unfold demo_clock. repeat case_decide; simpl; try lia; done.
  - intros k. exists (Nat.max k 7). split; [lia|]. intros i Hi. exists new_year. unfold demo_clock. by rewrite !decide_False by lia.
  - intros k d. unfold demo_clock, valid_date. repeat case_decide; simpl; intros [= <-]; simpl; lia.
Qed.

Lemma cmostime_correct_witness : ∃ h' k, cmostime (SoftRtc 0 0) = Done new_year h' ∧ (k < sr_now h')%nat ∧ date_at k = Some new_year.
Proof.
  assert (Hrun : (if cmostime (SoftRtc 0 0) is Done d _ then Some d else None) = Some new_year) by (vm_compute; reflexivity).
  destruct (cmostime_correct (SoftRtc 0 0)) as (d & h' & k & Hd & Hk & Hc & _). rewrite Hd in Hrun. injection Hrun as ->.
  exists h', k. split; [exact Hd|]. split; [apply Hk|exact Hc].
Defined.
