(* ===== verification/Smp.v ===== *)
(** * The start of the other processors ([startothers] of main.c, entryother.S)

    The boot processor and the processors that it starts run at the same time:
    they share the words below the copied code, which say where a processor
    finds its stack, and the flags [started]. Every read and every write of such
    a word is a step of its own, and so are the allocation of the stack and the
    startup interrupt. *)

From S2P Require Import Prelude Params Kalloc Desc Apic.

Local Open Scope Z_scope.

(** Where the code of entryother.S is copied to. *)
Definition start_addr : Z := 0x7000.
Definition code : Z := P2V start_addr.

(** A processor: not started; in the code of entryother.S, with the registers
    that it has loaded from the words below the code; or in the kernel, with
    [started] set. *)
Inductive ap :=
| Off
| Entry (pc : Z) (cr3 esp : option Z)
| Called (cr3 esp eip : Z)
| Up (cr3 esp eip : Z).

(** The statements of the loop's body between the allocation and the wait. *)
Inductive stmt := Store (a v : Z) | Startap (apicid addr : Z).

(** The boot processor, in the loop of [startothers]: at the head of the loop
    for a CPU, with the statements that are left of the body, waiting for the
    CPU, or behind the loop. *)
Inductive bsp := Loop (i : nat) | Body (i : nat) (rest : list stmt) | Wait_for (i : nat) | Finished.

Section smp_code.
  Context {H : Type} `{Lapic H}.
  Variables (entryother : list Z) (mpenter entrypgdir : Z).
  Variables (cpus : list Z) (me : nat).   (* the APIC ids of the table [cpus], and this CPU *)

(** The device, the free pages, the code that was copied to memory, the words of
    memory, the flags [started], and the processors. *)
Record smp := Smp {
  sm_lapic : lapic_state (H := H);
  sm_kmem : kmem;
  sm_text : gmap Z (list Z);
  sm_words : gmap Z Z;
  sm_started : list Z;
  sm_aps : list ap
}.

Definition copy_entry (s : smp) : smp := Smp (sm_lapic s) (sm_kmem s) (<[code := entryother]> (sm_text s)) (sm_words s) (sm_started s) (sm_aps s).

Definition skalloc : M smp Z := zoom sm_kmem (λ k s, Smp (sm_lapic s) k (sm_text s) (sm_words s) (sm_started s) (sm_aps s)) kalloc.
Definition sword (a v : Z) : M smp unit := mmodify (λ s, Smp (sm_lapic s) (sm_kmem s) (sm_text s) (<[a := v]> (sm_words s)) (sm_started s) (sm_aps s)).

(** The other processors receive the interrupts that the local APIC sends. *)
Definition wake_ap (l : list (Z * Z)) (apicid : Z) (p : ap) : ap :=
  match foldl (receive apicid) Running l with Started pc => Entry pc None None | _ => p end.
Definition sstartap (apicid addr : Z) : M smp unit := λ s,
  match lapicstartap apicid addr (sm_lapic s) with
  | Done _ la => Done tt (Smp la (sm_kmem s) (sm_text s) (sm_words s) (sm_started s)
      (zip_with (wake_ap (drop (length (sent (l_hw (sm_lapic s)))) (sent (l_hw la)))) cpus (sm_aps s)))
  | Panic e => Panic e
  | Wait la => Wait s
  | Diverge => Diverge
  end.

(** The body of the loop after the allocation of the stack, up to the wait. *)
Definition start_one (stack apicid : Z) : list stmt :=
  [Store (code - 4) (u32 (stack + KSTACKSIZE));
   Store (code - 8) mpenter;
   Store (code - 12) (V2P entrypgdir);
   Startap apicid (V2P code)].
Definition exec (c : stmt) : M smp unit :=
  match c with Store a v => sword a v | Startap apicid addr => sstartap apicid addr end.
Definition go_on (i : nat) (rest : list stmt) : bsp := match rest with [] => Wait_for i | _ => Body i rest end.

Definition set_ap (j : nat) (p : ap) (s : smp) : smp := Smp (sm_lapic s) (sm_kmem s) (sm_text s) (sm_words s) (sm_started s) (<[j := p]> (sm_aps s)).

(** entryother.S runs with the identity mapping: the words are at their physical
    addresses. The flag is set at the end of [mpmain]. *)
Inductive ap_step (j : nat) : smp → smp → Prop :=
| ap_pgdir s pc v : sm_aps s !! j = Some (Entry pc None None) → sm_text s !! P2V pc = Some entryother → sm_words s !! P2V (pc - 12) = Some v →
    ap_step j s (set_ap j (Entry pc (Some v) None) s)
| ap_stack s pc cr3 v : sm_aps s !! j = Some (Entry pc (Some cr3) None) → sm_words s !! P2V (pc - 4) = Some v →
    ap_step j s (set_ap j (Entry pc (Some cr3) (Some v)) s)
| ap_call s pc cr3 esp v : sm_aps s !! j = Some (Entry pc (Some cr3) (Some esp)) → sm_words s !! P2V (pc - 8) = Some v →
    ap_step j s (set_ap j (Called cr3 esp v) s)
| ap_started s cr3 esp eip : sm_aps s !! j = Some (Called cr3 esp eip) →
    ap_step j s (Smp (sm_lapic s) (sm_kmem s) (sm_text s) (sm_words s) (<[j := 1]> (sm_started s)) (<[j := Up cr3 esp eip]> (sm_aps s))).

Inductive smp_step : bsp * smp → bsp * smp → Prop :=
| smp_self s i a : cpus !! i = Some a → i = me → smp_step (Loop i, s) (Loop (S i), s)
| smp_alloc s s' i a stack : cpus !! i = Some a → i ≠ me → skalloc s = Done stack s' → smp_step (Loop i, s) (go_on i (start_one stack a), s')
| smp_body s s' i c rest : exec c s = Done tt s' → smp_step (Body i (c :: rest), s) (go_on i rest, s')
| smp_wait s i : sm_started s !! i = Some 0 → smp_step (Wait_for i, s) (Wait_for i, s)
| smp_next s i v : sm_started s !! i = Some v → v ≠ 0 → smp_step (Wait_for i, s) (Loop (S i), s)
| smp_end s : smp_step (Loop (length cpus), s) (Finished, s)
| smp_ap b s s' j : ap_step j s s' → smp_step (b, s) (b, s').
End smp_code.

Section smp_proof.
  Context {H : Type} `{HA : Lapic H} `{HL : !LapicLaws H} `{HP : !LapicPrompt H}.
  Variables (kend : Z) (entryother : list Z) (mpenter entrypgdir : Z) (cpus : list Z) (me : nat) (pages : list Z).
  Hypothesis Hids : NoDup cpus.
  Hypothesis Hbytes : Forall (λ a, 0 ≤ a < 256) cpus.
  Hypothesis Hpages : (length cpus ≤ length pages)%nat.
  Abbreviation n := (length cpus).
  Implicit Types s : smp (H := H).

(** The processors before [i] that are started, and the stack of a processor. *)
Definition ord (i : nat) : nat := if decide (i ≤ me)%nat then i else (i - 1)%nat.
Definition stack_of (i : nat) : Z := pages !!! ord i.
Definition up (i : nat) : ap := Up (V2P entrypgdir) (u32 (stack_of i + KSTACKSIZE)) mpenter.

Definition others (i : nat) s : Prop := ∀ j, (j < n)%nat → j ≠ me →
  ((j < i)%nat → sm_aps s !! j = Some (up j) ∧ sm_started s !! j = Some 1) ∧ ((i < j)%nat → sm_aps s !! j = Some Off ∧ sm_started s !! j = Some 0).

Definition entering (i : nat) (p : ap) (f : Z) : Prop :=
  match p with
  | Off => False
  | Entry pc cr3 esp => pc = start_addr ∧ f = 0 ∧ (cr3 = None → esp = None) ∧ (∀ v, cr3 = Some v → v = V2P entrypgdir) ∧ ∀ v, esp = Some v → v = u32 (stack_of i + KSTACKSIZE)
  | Called cr3 esp eip => f = 0 ∧ Up cr3 esp eip = up i
  | Up cr3 esp eip => f = 1 ∧ p = up i
  end.

Record smp_ok s : Prop := {
  so_aps : length (sm_aps s) = n;
  so_started : length (sm_started s) = n;
  so_me : ∀ p, sm_aps s !! me = Some p → p = Off;
  so_text : sm_text s !! code = Some entryother;
  so_lapic : l_lapic (sm_lapic s) ≠ 0;
  so_idle : lag (l_hw (sm_lapic s)) = 0%nat
}.

(** The first [k] words are stored for processor [i]. *)
Definition stored (i k : nat) s : Prop :=
  ((1 ≤ k)%nat → sm_words s !! (code - 4) = Some (u32 (stack_of i + KSTACKSIZE))) ∧
  ((2 ≤ k)%nat → sm_words s !! (code - 8) = Some mpenter) ∧
  ((3 ≤ k)%nat → sm_words s !! (code - 12) = Some (V2P entrypgdir)).

Definition smp_inv (x : bsp * smp) : Prop := smp_ok x.2 ∧
  match x.1 with
  | Loop i => (i ≤ n)%nat ∧ free_list kend (sm_kmem x.2) (drop (ord i) pages) ∧ others i x.2 ∧
      ((i < n)%nat → i ≠ me → sm_aps x.2 !! i = Some Off ∧ sm_started x.2 !! i = Some 0)
  | Body i rest => (i < n)%nat ∧ i ≠ me ∧ free_list kend (sm_kmem x.2) (drop (S (ord i)) pages) ∧ others i x.2 ∧
      sm_aps x.2 !! i = Some Off ∧ sm_started x.2 !! i = Some 0 ∧
      ∃ a k, cpus !! i = Some a ∧ (k < 4)%nat ∧ rest = drop k (start_one mpenter entrypgdir (stack_of i) a) ∧ stored i k x.2
  | Wait_for i => (i < n)%nat ∧ i ≠ me ∧ free_list kend (sm_kmem x.2) (drop (S (ord i)) pages) ∧ others i x.2 ∧
      stored i 3 x.2 ∧
      ∃ p f, sm_aps x.2 !! i = Some p ∧ sm_started x.2 !! i = Some f ∧ entering i p f
  | Finished => others n x.2
  end.

Lemma ord_le i : (i < n)%nat → i ≠ me → (ord i < length pages)%nat ∧ ord (S i) = S (ord i).
Proof. unfold ord. intros. repeat case_decide; lia. Qed.

Lemma drop_page i : (i < n)%nat → i ≠ me → drop (ord i) pages = stack_of i :: drop (S (ord i)) pages.
Proof. intros Hi Hme. destruct (ord_le i Hi Hme) as [Ho _]. unfold stack_of. apply drop_S. by apply list_lookup_lookup_total_lt. Qed.

Lemma wake_start a b p : wake_ap (start_sequence a (Z.shiftr start_addr 12)) b p = if decide (b = a) then Entry start_addr None None else p.
Proof. unfold wake_ap. rewrite receive_start by (vm_compute; split; congruence). by case_decide. Qed.

Lemma alloc_stack_spec s i : smp_ok s → (i < n)%nat → i ≠ me → free_list kend (sm_kmem s) (drop (ord i) pages) →
  ∃ k, skalloc s = Done (stack_of i) (Smp (sm_lapic s) k (sm_text s) (sm_words s) (sm_started s) (sm_aps s)) ∧ free_list kend k (drop (S (ord i)) pages).
Proof.
  intros Hok Hi Hme Hfl. rewrite (drop_page i Hi Hme) in Hfl. pose proof (kalloc_spec kend _ _ Hfl) as (k & Hk & Hfl' & _).
  exists k. split; [|done]. unfold skalloc, zoom. by rewrite Hk.
Qed.

Lemma startap_spec s i a : smp_ok s → cpus !! i = Some a → i ≠ me →
  ∃ s', sstartap cpus a (V2P code) s = Done tt s' ∧ smp_ok s' ∧ sm_kmem s' = sm_kmem s ∧ sm_started s' = sm_started s ∧ sm_words s' = sm_words s ∧
    (∀ j, j ≠ i → sm_aps s' !! j = sm_aps s !! j) ∧ sm_aps s' !! i = Some (Entry start_addr None None).
Proof.
  intros Hok Ha Hme. change (V2P code) with start_addr.
  destruct (lapicstartap_spec (sm_lapic s) a start_addr HP (so_lapic _ Hok) (so_idle _ Hok)) as (h & Hrun & _ & Hlag & Hsent). { by eapply Forall_lookup_1 in Hbytes. }
  unfold sstartap. rewrite Hrun. cbn [l_hw]. rewrite Hsent, drop_app_length. eexists. split; [reflexivity|].
  assert (Haps : ∀ j, zip_with (wake_ap (start_sequence a (Z.shiftr start_addr 12))) cpus (sm_aps s) !! j = if decide (j = i) then Some (Entry start_addr None None) else sm_aps s !! j).
  { intros j. rewrite lookup_zip_with. destruct (cpus !! j) as [b|] eqn:Hb.
    - destruct (lookup_lt_is_Some_2 (sm_aps s) j) as [p Hp]; [rewrite (so_aps _ Hok); by eapply lookup_lt_Some|]. rewrite Hp. cbn. rewrite wake_start. destruct (decide (j = i)) as [->|Hji].
      + rewrite decide_True by congruence. done.
      + rewrite decide_False; [done|]. intros ->. destruct Hji. by eapply NoDup_lookup.
    - cbn. rewrite decide_False by congruence. symmetry. apply lookup_ge_None. rewrite (so_aps _ Hok). by apply lookup_ge_None. }
  cbn [sm_lapic sm_kmem sm_text sm_words sm_started sm_aps]. split; [|split_and!; [done|done|done|..]].
  - constructor; cbn [sm_lapic sm_kmem sm_text sm_words sm_started sm_aps l_lapic].
    + rewrite length_zip_with, (so_aps _ Hok). lia.
    + apply Hok.
    + intros p. rewrite Haps, decide_False by congruence. apply Hok.
    + apply Hok.
    + apply Hok.
    + exact Hlag.
  - intros j Hj. by rewrite Haps, decide_False.
  - by rewrite Haps, decide_True.
Qed.

Lemma store_ok s a v : smp_ok s → smp_ok (Smp (sm_lapic s) (sm_kmem s) (sm_text s) (<[a := v]> (sm_words s)) (sm_started s) (sm_aps s)).
Proof. by intros [H1 H2 H3 H4 H5 H6]. Qed.

(** A step of another processor: it is one that the boot processor waits for. *)
Lemma ap_step_cases j s s' : ap_step entryother j s s' → ∃ p p' f', sm_aps s !! j = Some p ∧ p ≠ Off ∧ sm_aps s' = <[j := p']> (sm_aps s) ∧
  (sm_started s' = sm_started s ∧ f' = None ∨ sm_started s' = <[j := 1]> (sm_started s) ∧ f' = Some 1) ∧
  sm_text s' = sm_text s ∧ sm_words s' = sm_words s ∧ sm_kmem s' = sm_kmem s ∧ sm_lapic s' = sm_lapic s ∧
  (∀ cr3 esp eip, p ≠ Up cr3 esp eip) ∧
  ∀ i f, entering i p f → stored i 3 s → entering i p' (default f f').
Proof.
  intros [t pc v Hp Htx Hw|t pc cr3 v Hp Hw|t pc cr3 esp v Hp Hw|t cr3 esp eip Hp]; eexists _, _, _; (split; [exact Hp|]); (split; [done|]); (split; [reflexivity|]).
  1-3: split; [left; split; reflexivity|]. 4: split; [right; split; reflexivity|].
  all: do 4 (split; [done|]); (split; [done|]); intros i f He (W4 & W8 & W12); specialize (W4 ltac:(lia)); specialize (W8 ltac:(lia)); specialize (W12 ltac:(lia)); cbn [entering default] in *.
  - destruct He as (-> & -> & _). change (P2V (start_addr - 12)) with (code - 12) in Hw. rewrite W12 in Hw. injection Hw as <-. split_and!; [done|done|done|by intros v [= <-]|done].
  - destruct He as (-> & -> & _ & Hc & _). change (P2V (start_addr - 4)) with (code - 4) in Hw. rewrite W4 in Hw. injection Hw as <-. split_and!; [done|done|done|done|by intros v [= <-]].
  - destruct He as (-> & -> & _ & Hc & Hs). change (P2V (start_addr - 8)) with (code - 8) in Hw. rewrite W8 in Hw. injection Hw as <-. split; [done|].
    by rewrite (Hc cr3 eq_refl), (Hs esp eq_refl).
  - destruct He as (_ & Hu). split; [done|exact Hu].
Qed.

Lemma ap_step_inv b s s' j : ap_step entryother j s s' → smp_inv (b, s) → smp_inv (b, s').
Proof.
  intros Hst [Hok Hb]. destruct (ap_step_cases j s s' Hst) as (p & p' & f' & Hp & Hoff & Haps & Hstart & Htx & Hw & Hk & Hla & Hnup & Hent). cbn [fst snd] in *.
  assert (Hj : (j < n)%nat) by (rewrite <-(so_aps _ Hok); by eapply lookup_lt_Some). assert (Hjm : j ≠ me) by (intros ->; by destruct Hoff; apply (so_me _ Hok)).
  assert (Hlen : length (sm_started s') = length (sm_started s)) by (destruct Hstart as [[-> _]|[-> _]]; [done|apply length_insert]).
  assert (Hno : ∀ i, others i s → j ≠ i → False).
  { intros i Ho Hne. destruct (Ho j Hj Hjm) as [H1 H2]. destruct (decide (j < i)%nat).
    - destruct (H1 ltac:(lia)) as [Hx _]. rewrite Hp in Hx. injection Hx as ->. by eapply Hnup.
    - destruct (H2 ltac:(lia)) as [Hx _]. rewrite Hp in Hx. by injection Hx. }
  split.
  { constructor; cbn [snd]; rewrite ?Haps, ?length_insert, ?Hlen, ?Htx, ?Hla; try apply Hok. intros q. rewrite list_lookup_insert_ne by done. apply Hok. }
  destruct b as [i|i rest|i|]; cbn [fst snd] in *.
  - destruct Hb as (Hi & _ & Ho & Hfresh). destruct (decide (j = i)) as [->|Hne]; [|by destruct (Hno i Ho Hne)].
    destruct (Hfresh Hj Hjm) as [Hx _]. rewrite Hp in Hx. by injection Hx.
  - destruct Hb as (Hi & _ & _ & Ho & Hx & _). destruct (decide (j = i)) as [->|Hne]; [|by destruct (Hno i Ho Hne)].
    rewrite Hp in Hx. by injection Hx.
  - destruct Hb as (Hi & Him & Hfl & Ho & Hsd & q & f & Hq & Hf & He). destruct (decide (j = i)) as [->|Hne]; [|by destruct (Hno i Ho Hne)].
    rewrite Hq in Hp. injection Hp as ->. rewrite Hk. split; [done|]. split; [done|]. split; [done|]. split; [|split; [unfold stored; by rewrite Hw|]].
    + intros k Hk' Hkm. rewrite Haps. destruct (decide (k = i)) as [->|Hki]; [split; lia|]. rewrite list_lookup_insert_ne by done.
      assert (sm_started s' !! k = sm_started s !! k) as -> by (destruct Hstart as [[-> _]|[-> _]]; [done|by rewrite list_lookup_insert_ne]). by apply Ho.
    + exists p', (default f f'). rewrite Haps, list_lookup_insert_eq by (by rewrite (so_aps _ Hok)). split; [done|]. split; [|by eapply Hent].
      destruct Hstart as [[-> ->]|[-> ->]]; [done|]. apply list_lookup_insert_eq. by rewrite (so_started _ Hok).
  - by destruct (Hno n Hb ltac:(lia)).
Qed.

(** The statements of the body, one after the other. *)
Lemma body_inv i c rest s s' : smp_inv (Body i (c :: rest), s) → exec cpus c s = Done tt s' → smp_inv (go_on i rest, s').
Proof.
  intros (Hok & Hi & Him & Hfl & Ho & Hoff & Hst & a & k & Ha & Hk & Hrest & W4 & W8 & W12) Hrun. cbn [fst snd] in *.
  destruct k as [|[|[|[|k]]]]; [| | | |lia]; cbn [drop start_one] in Hrest; injection Hrest as -> ->; cbn [exec go_on] in *.
  1-3: injection Hrun as <-; split; [by apply store_ok|]; cbn [fst snd sm_kmem sm_aps sm_started sm_words]; split_and!; try done.
  - exists a, 1%nat. split_and!; [done|lia|done|]. split_and!; [intros _; apply lookup_insert_eq|lia..].
  - exists a, 2%nat. split_and!; [done|lia|done|]. split_and!; cbn [sm_words]; [intros _; rewrite lookup_insert_ne by done; apply W4; lia|intros _; apply lookup_insert_eq|lia].
  - exists a, 3%nat. split_and!; [done|lia|done|]. split_and!; cbn [sm_words]; intros _;
      [rewrite lookup_insert_ne by done; apply W4; lia|rewrite lookup_insert_ne by done; apply W8; lia|apply lookup_insert_eq].
  - destruct (startap_spec s i a Hok Ha Him) as (s2 & Hrun2 & Hok2 & Hk2 & Hst2 & Hw2 & Haps & Hap). rewrite Hrun in Hrun2. injection Hrun2 as <-.
    split; [done|]. cbn [fst snd]. split_and!; [done|done|by rewrite Hk2| | |].
    + intros j Hj Hjm. rewrite Hst2. destruct (decide (j = i)) as [->|Hji]; [split; lia|]. rewrite Haps by done. by apply Ho.
    + unfold stored. by rewrite Hw2.
    + exists (Entry start_addr None None), 0. split; [done|]. rewrite Hst2. split; [done|]. cbn [entering]. by split_and!.
Qed.

Lemma smp_step_inv x y : smp_step entryother mpenter entrypgdir cpus me x y → smp_inv x → smp_inv y.
Proof.
  intros [s i a Ha ->|s s' i a st Ha Hme Hrun|s s' i c rest Hrun|s i Hs|s i v Hs Hv|s|b s s' j Hst] Hinv; try done.
  - destruct Hinv as (Hok & Hi & Hfl & Ho & _). split; [done|]. pose proof (lookup_lt_Some _ _ _ Ha) as Hlt. cbn [fst snd] in *. split; [lia|]. split; [|split].
    + replace (ord (S me)) with (ord me); [done|]. unfold ord. by rewrite decide_True, decide_False by lia; lia.
    + intros j Hj Hjm. split; intros Hc; apply Ho; lia.
    + intros Hs Hsm. apply Ho; lia.
  - destruct Hinv as (Hok & Hi & Hfl & Ho & Hfresh). pose proof (lookup_lt_Some _ _ _ Ha) as Hlt. cbn [fst snd] in *.
    destruct (alloc_stack_spec s i Hok Hlt Hme Hfl) as (k & Hrun2 & Hfl2). rewrite Hrun in Hrun2. injection Hrun2 as -> ->. destruct (Hfresh Hlt Hme) as [Hoff Hst].
    split; [by destruct Hok|]. cbn [go_on start_one fst snd sm_kmem sm_aps sm_started]. split_and!; try done. exists a, 0%nat. split_and!; [done|lia|done|]. split_and!; lia.
  - by eapply body_inv.
  - destruct Hinv as (Hok & Hi & Him & Hfl & Ho & _ & p & f & Hp & Hf & He). cbn [fst snd] in *. rewrite Hs in Hf. injection Hf as ->.
    assert (Hup : p = up i ∧ f = 1). { destruct p; cbn [entering] in He; [done|destruct He as (_ & -> & _); done|destruct He as (-> & _); done|]. destruct He as (-> & ->). done. }
    destruct Hup as [-> ->]. destruct (ord_le i Hi Him) as [_ Hord]. split; [done|]. cbn [fst snd]. split; [lia|]. split; [by rewrite Hord|]. split.
    + intros j Hj Hjm. split; intros Hc; [|apply Ho; lia]. destruct (decide (j = i)) as [->|]; [done|apply Ho; lia].
    + intros Hlt Hsm. apply Ho; lia.
  - destruct Hinv as (Hok & _ & _ & Ho & _). split; [done|]. cbn [fst snd] in *. intros j Hj Hjm. split; intros Hc; apply Ho; lia.
  - by eapply ap_step_inv.
Qed.

(** Before the loop: no processor is started. *)
Record smp_boot s : Prop := {
  sb_aps : sm_aps s = replicate n Off;
  sb_started : sm_started s = replicate n 0;
  sb_lapic : l_lapic (sm_lapic s) ≠ 0;
  sb_idle : lag (l_hw (sm_lapic s)) = 0%nat;
  sb_free : free_list kend (sm_kmem s) pages
}.

Lemma smp_boot_inv s : smp_boot s → smp_inv (Loop 0, copy_entry entryother s).
Proof.
  intros [Ha Hs Hl Hi Hf]. split; [constructor; cbn [snd copy_entry sm_aps sm_started sm_text sm_lapic]|].
  - rewrite Ha. apply length_replicate.
  - rewrite Hs. apply length_replicate.
  - intros p. rewrite Ha. by intros [-> _]%lookup_replicate.
  - apply lookup_insert_eq.
  - done.
  - done.
  - cbn [fst snd copy_entry sm_kmem]. split; [lia|]. split; [done|]. unfold others. cbn [copy_entry sm_aps sm_started]. rewrite Ha, Hs. split.
    + intros j Hj _. split; [lia|]. intros _. by rewrite !lookup_replicate_2.
    + intros Hj _. by rewrite !lookup_replicate_2.
Qed.

Definition left_steps (p : ap) : nat := match p with Off => 0 | Entry _ None _ => 4 | Entry _ (Some _) None => 3 | Entry _ _ _ => 2 | Called _ _ _ => 1 | Up _ _ _ => 0 end.

Lemma entry_goes i s p f : smp_inv (Wait_for i, s) → sm_aps s !! i = Some p → sm_started s !! i = Some f → f = 0 → ∃ s' p', ap_step entryother i s s' ∧ sm_aps s' !! i = Some p' ∧ (left_steps p' < left_steps p)%nat.
Proof.
  intros (Hok & Hi & _ & _ & _ & (W4 & W8 & W12) & p0 & f0 & Hp0 & Hf0 & He) Hp Hf ->. cbn [fst snd] in *. specialize (W4 ltac:(lia)). specialize (W8 ltac:(lia)). specialize (W12 ltac:(lia)). rewrite Hp in Hp0. injection Hp0 as <-. rewrite Hf in Hf0. injection Hf0 as <-.
  assert (Hlt : (i < length (sm_aps s))%nat) by (by rewrite (so_aps _ Hok)).
  destruct p as [|pc [cr3|] [esp|]|cr3 esp eip|cr3 esp eip]; cbn [entering] in He; try done.
  - destruct He as (-> & _). eexists _, _. split; [by eapply ap_call|]. split; [by apply list_lookup_insert_eq|cbn; lia].
  - destruct He as (-> & _). eexists _, _. split; [by eapply ap_stack|]. split; [by apply list_lookup_insert_eq|cbn; lia].
  - destruct He as (_ & _ & Hn & _). by specialize (Hn eq_refl).
  - destruct He as (-> & _). eexists _, _. split; [eapply ap_pgdir; [done|apply Hok|done]|]. split; [by apply list_lookup_insert_eq|cbn; lia].
  - eexists _, _. split; [by eapply ap_started|]. split; [by apply list_lookup_insert_eq|cbn; lia].
  - by destruct He.
Qed.

Abbreviation steps := (rtc (smp_step entryother mpenter entrypgdir cpus me)).

Lemma smp_steps_inv x y : steps x y → smp_inv x → smp_inv y.
Proof. induction 1 as [|x y z Hxy _ IH]; [done|]. intros Hx. by eapply IH, smp_step_inv. Qed.

Lemma wait_ends i k : ∀ s p, smp_inv (Wait_for i, s) → sm_aps s !! i = Some p → (left_steps p ≤ k)%nat → ∃ s', steps (Wait_for i, s) (Loop (S i), s').
Proof.
  induction k as [|k IH]; intros s p Hinv Hp Hk; pose proof Hinv as (Hok & Hi & _ & _ & _ & _ & p0 & f & Hp0 & Hf & He); cbn [fst snd] in *.
  all: rewrite Hp in Hp0; injection Hp0 as <-; destruct (decide (f = 0)) as [->|Hne]; [|exists s; apply rtc_once; by eapply smp_next].
  - destruct (entry_goes i s p 0 Hinv Hp Hf eq_refl) as (s' & p' & _ & _ & Hlt). lia.
  - destruct (entry_goes i s p 0 Hinv Hp Hf eq_refl) as (s1 & p1 & Hst & Hp1 & Hlt).
    assert (H1 : smp_step entryother mpenter entrypgdir cpus me (Wait_for i, s) (Wait_for i, s1)) by (by eapply smp_ap).
    destruct (IH s1 p1 (smp_step_inv _ _ H1 Hinv) Hp1 ltac:(lia)) as [s' Hs']. exists s'. by eapply rtc_l.
Qed.

Lemma waiting_ends i s : smp_inv (Wait_for i, s) → ∃ s', steps (Wait_for i, s) (Loop (S i), s').
Proof. intros Hinv. pose proof Hinv as (_ & _ & _ & _ & _ & _ & p & f & Hp & _). by eapply wait_ends. Qed.

(** The body comes to the wait. *)
Lemma body_ends i rest : ∀ s, smp_inv (Body i rest, s) → ∃ s', steps (Body i rest, s) (Wait_for i, s').
Proof.
  induction rest as [|c rest IH]; intros s Hinv; pose proof Hinv as (Hok & Hi & Him & _ & _ & _ & _ & a & k & Ha & Hk & Hrest & _); cbn [fst snd] in *.
  { apply (f_equal length) in Hrest. rewrite length_drop in Hrest. cbn in Hrest. lia. }
  assert (Hrun : ∃ s1, exec cpus c s = Done tt s1).
  { destruct k as [|[|[|[|k]]]]; [| | | |lia]; cbn [drop start_one] in Hrest; injection Hrest as -> _; [by eexists..|].
    destruct (startap_spec s i a Hok Ha Him) as (s1 & Hrun & _). by exists s1. }
  destruct Hrun as [s1 Hrun]. assert (H1 : smp_step entryother mpenter entrypgdir cpus me (Body i (c :: rest), s) (go_on i rest, s1)) by by apply smp_body.
  pose proof (smp_step_inv _ _ H1 Hinv) as Hinv1. destruct rest as [|c' rest]; [exists s1; by apply rtc_once|].
  destruct (IH s1 Hinv1) as [s' Hs']. exists s'. by eapply rtc_l.
Qed.

Lemma loop_ends k : ∀ i s, (n - i ≤ k)%nat → smp_inv (Loop i, s) → ∃ s', steps (Loop i, s) (Finished, s').
Proof.
  induction k as [|k IH]; intros i s Hk Hinv; pose proof Hinv as (Hok & Hi & Hfl & _); cbn [fst snd] in *.
  { assert (i = n) as -> by lia. exists s. apply rtc_once, smp_end. }
  destruct (decide (i = n)) as [->|Hin]; [exists s; apply rtc_once, smp_end|]. destruct (lookup_lt_is_Some_2 cpus i ltac:(lia)) as [a Ha].
  destruct (decide (i = me)) as [->|Hme].
  - assert (H1 : smp_step entryother mpenter entrypgdir cpus me (Loop me, s) (Loop (S me), s)) by (by eapply smp_self).
    destruct (IH (S me) s ltac:(lia) (smp_step_inv _ _ H1 Hinv)) as [s' Hs']. exists s'. by eapply rtc_l.
  - destruct (alloc_stack_spec s i Hok ltac:(lia) Hme Hfl) as (k' & Hrun & _). set (s1 := Smp _ k' _ _ _ _) in Hrun.
    assert (H1 : smp_step entryother mpenter entrypgdir cpus me (Loop i, s) (Body i (start_one mpenter entrypgdir (stack_of i) a), s1))
      by (by apply (smp_alloc entryother mpenter entrypgdir cpus me s s1 i a (stack_of i))). pose proof (smp_step_inv _ _ H1 Hinv) as Hinv1.
    destruct (body_ends i _ s1 Hinv1) as [s2 Hs2]. pose proof (smp_steps_inv _ _ Hs2 Hinv1) as Hinv2.
    destruct (waiting_ends i s2 Hinv2) as [s3 Hs3]. destruct (IH (S i) s3 ltac:(lia) (smp_steps_inv _ _ Hs3 Hinv2)) as [s' Hs'].
    exists s'. eapply rtc_l; [exact H1|]. etrans; [exact Hs2|]. by etrans.
Qed.

Lemma inv_ends x : smp_inv x → ∃ s', steps x (Finished, s').
Proof.
  assert (Hwait : ∀ i s, smp_inv (Wait_for i, s) → ∃ s', steps (Wait_for i, s) (Finished, s')).
  { intros i s Hinv. destruct (waiting_ends i s Hinv) as [s1 Hs1]. destruct (loop_ends (n - S i) (S i) s1 ltac:(lia) (smp_steps_inv _ _ Hs1 Hinv)) as [s' Hs'].
    exists s'. by etrans. }
  destruct x as [[i|i rest|i|] s]; intros Hinv; [by apply (loop_ends (n - i))| |by apply Hwait|by exists s].
  destruct (body_ends i rest s Hinv) as [s1 Hs1]. destruct (Hwait i s1 (smp_steps_inv _ _ Hs1 Hinv)) as [s' Hs']. exists s'. by etrans.
Qed.

Lemma stacks_apart i j : NoDup pages → (i < n)%nat → (j < n)%nat → i ≠ me → j ≠ me → stack_of i = stack_of j → i = j.
Proof.
  intros Hnd Hi Hj Him Hjm Heq. destruct (ord_le i Hi Him) as [H1 _]. destruct (ord_le j Hj Hjm) as [H2 _].
  assert (ord i = ord j) as Ho. { eapply (NoDup_lookup pages); [done|by apply list_lookup_lookup_total_lt|]. unfold stack_of in Heq. rewrite Heq. by apply list_lookup_lookup_total_lt. }
  unfold ord in Ho. repeat case_decide; lia.
Qed.

(** C29. [startothers], for every interleaving of the boot processor's steps (the
    allocation of a stack, the store of each of the three words, the startup
    interrupt and the wait) with those of the processors that it starts: each processor finds its own stack, the page
    directory and the entry [mpenter], although the words that say so are
    reused; the stacks are different pages that were free. When the loop has
    ended, every other processor of the table is up; and from every reachable
    state the loop can end, it never waits for a processor that cannot go on. The
    local APIC is one for which [lapicstartap] works (see [LapicPrompt]). *)
Theorem startothers_correct s x : smp_boot s → steps (Loop 0, copy_entry entryother s) x →
  (∀ j p, sm_aps x.2 !! j = Some p → p = Off ∨ (j < n)%nat ∧ j ≠ me ∧ ∃ f, entering j p f) ∧
  (∀ i j, (i < n)%nat → (j < n)%nat → i ≠ me → j ≠ me → stack_of i = stack_of j → i = j) ∧
  (∀ j, (j < n)%nat → j ≠ me → stack_of j ∈ pages ∧ page_ok kend (stack_of j)) ∧
  (x.1 = Finished → ∀ j, (j < n)%nat → j ≠ me → sm_aps x.2 !! j = Some (up j) ∧ sm_started x.2 !! j = Some 1) ∧
  ∃ s', steps x (Finished, s').
Proof.
  intros Hb Hst. pose proof (smp_steps_inv _ _ Hst (smp_boot_inv s Hb)) as Hinv. pose proof (sb_free _ Hb) as Hfl. split_and!.
  - intros j p Hp. destruct Hinv as [Hok Hx]. assert (Hj : (j < n)%nat) by (rewrite <-(so_aps _ Hok); by eapply lookup_lt_Some).
    destruct (decide (j = me)) as [->|Hjm]; [left; by apply (so_me _ Hok)|].
    assert (Hoth : ∀ i, others i x.2 → j ≠ i → p = Off ∨ ∃ f, entering j p f).
    { intros i Ho Hne. destruct (Ho j Hj Hjm) as [H1 H2]. destruct (decide (j < i)%nat) as [Hlt|].
      - destruct (H1 Hlt) as [Hup _]. rewrite Hp in Hup. injection Hup as ->. right. by exists 1.
      - destruct (H2 ltac:(lia)) as [Hoff _]. rewrite Hp in Hoff. injection Hoff as ->. by left. }
    assert (Hres : p = Off ∨ ∃ f, entering j p f).
    { destruct x as [[i|i rest|i|] t]; cbn [fst snd] in *.
      - destruct Hx as (_ & _ & Ho & Hf). destruct (decide (j = i)) as [->|Hne]; [|by eapply Hoth]. left. destruct (Hf Hj Hjm) as [Hoff _]. rewrite Hp in Hoff. by injection Hoff.
      - destruct Hx as (_ & _ & _ & Ho & Hoff & _). destruct (decide (j = i)) as [->|Hne]; [|by eapply Hoth]. left. rewrite Hp in Hoff. by injection Hoff.
      - destruct Hx as (_ & _ & _ & Ho & _ & q & f & Hq & _ & He). destruct (decide (j = i)) as [->|Hne]; [|by eapply Hoth]. right. rewrite Hp in Hq. injection Hq as ->. by exists f.
      - apply (Hoth _ Hx). lia. }
    destruct Hres as [|He]; [by left|by right].
  - intros i j. apply stacks_apart, Hfl.
  - intros j Hj Hjm. destruct (ord_le j Hj Hjm) as [Ho _]. assert (Hin : stack_of j ∈ pages) by (eapply list_elem_of_lookup_2; by apply list_lookup_lookup_total_lt).
    split; [done|]. pose proof (fl_pages _ _ _ Hfl) as Hall. rewrite Forall_forall in Hall. by apply Hall.
  - intros Hfin j Hj Hjm. destruct Hinv as [_ Hx]. rewrite Hfin in Hx. by apply Hx.
  - by apply inv_ends.
Qed.
End smp_proof.

(** Three processors, the first of which starts the others. *)
Definition demo_pages : list Z := [0x80117000; 0x80116000; 0x80115000].

Lemma demo_pages_free : ∃ k, free_list demo_kend k demo_pages.
Proof.
  assert (Hok : ∀ v, v ∈ demo_pages → page_ok demo_kend v). { intros v Hv. repeat (apply elem_of_cons in Hv as [->|Hv]; [vm_compute; split_and!; congruence|]). by apply elem_of_nil in Hv. }
  destruct (kfree_spec demo_kend demo_boot [] 0x80115000 demo_boot_free ltac:(apply Hok; set_solver) ltac:(set_solver)) as (k1 & _ & H1 & _).
  destruct (kfree_spec demo_kend k1 _ 0x80116000 H1 ltac:(apply Hok; set_solver) ltac:(set_solver)) as (k2 & _ & H2 & _).
  destruct (kfree_spec demo_kend k2 _ 0x80117000 H2 ltac:(apply Hok; set_solver) ltac:(set_solver)) as (k3 & _ & H3 & _). by exists k3.
Qed.

Lemma startothers_correct_witness : let la := Lst 0xfee00000 (SoftLapic (λ _, 0) [] false) [] ∅ in
  ∃ k s', rtc (smp_step [0xfa] 0x80103020 0x80109000 [0; 1; 2] 0) (Loop 0, copy_entry [0xfa] (Smp la k ∅ ∅ [0; 0; 0] [Off; Off; Off])) (Finished, s') ∧
    sm_aps s' !! 1%nat = Some (Up 0x109000 0x80118000 0x80103020) ∧ sm_aps s' !! 2%nat = Some (Up 0x109000 0x80117000 0x80103020).
Proof.
  intros la. destruct demo_pages_free as [k Hk]. set (s := Smp la k ∅ ∅ [0; 0; 0] [Off; Off; Off]).
  assert (Hb : smp_boot demo_kend [0; 1; 2] demo_pages s) by (split; [reflexivity|reflexivity|discriminate|reflexivity|exact Hk]).
  assert (Hn : NoDup [0; 1; 2]) by (repeat (apply NoDup_cons; split; [set_solver|]); apply NoDup_nil_2).
  assert (Hf : Forall (λ a, 0 ≤ a < 256) [0; 1; 2]) by (repeat constructor; lia).
  destruct (startothers_correct demo_kend [0xfa] 0x80103020 0x80109000 [0; 1; 2] 0 demo_pages Hn Hf (le_n _) s _ Hb (rtc_refl _ _)) as (_ & _ & _ & _ & s' & Hst).
  destruct (startothers_correct demo_kend [0xfa] 0x80103020 0x80109000 [0; 1; 2] 0 demo_pages Hn Hf (le_n _) s _ Hb Hst) as (_ & _ & _ & Hfin & _).
  exists k, s'. split; [exact Hst|]. destruct (Hfin eq_refl 1%nat ltac:(simpl; lia) ltac:(lia)) as [H1 _]. destruct (Hfin eq_refl 2%nat ltac:(simpl; lia) ltac:(lia)) as [H2 _].
  split; [etrans; [exact H1|reflexivity]|etrans; [exact H2|reflexivity]].
Defined.
