(* ===== verification/Ulib.v ===== *)
(** * The user library and formatted output (ulib.c, printf.c, console.c [printint])

    Strings are lists of bytes without the NUL. Output is the list of the
    characters written. Where an int overflows, in [atoi] and [printint] for the
    most negative int among others, the result wraps around: C leaves it
    undefined, and this is what the machine's instructions give. *)

From S2P Require Import Prelude Params.

(** ** Numbers *)

(** The character of a digit, with upper or lower case letters. *)
Definition digit_char (upper : bool) (d : Z) : Z :=
  if decide (d < 10)%Z then (48 + d)%Z else ((if upper then 65 else 97) + (d - 10))%Z.

(** The loop that fills [buf], least significant digit first. 32 rounds are
    enough for an unsigned int. *)
Fixpoint digits_loop (fuel : nat) (upper : bool) (x base : Z) : list Z :=
  match fuel with
  | O => []
  | S fuel =>
    digit_char upper (x `mod` base) ::
    (if decide (x / base = 0)%Z then [] else digits_loop fuel upper (x / base) base)
  end.

Definition printint (upper : bool) (xx base sgn : Z) : list Z :=
  let neg := bool_decide (sgn ≠ 0 ∧ s32 xx < 0)%Z in
  let x := if neg then u32 (- s32 xx) else u32 xx in
  let buf := digits_loop 32 upper x base in
  let buf := if neg then buf ++ [45%Z] else buf in
  reverse buf.

(** ** Formatted output *)

Section printf.
Variable cstring : Z → list Z.         (* the string at an address *)
Variable ap : nat → Z.                 (* the argument words *)

Definition null_str : list Z := [40; 110; 117; 108; 108; 41]%Z.
Definition fmt_str (s : Z) : list Z := if decide (s = 0%Z) then null_str else cstring s.

(** printf.c; [k] arguments are consumed, [pct] is the state '%'. *)
Fixpoint printf_loop (fmt : list Z) (pct : bool) (k : nat) : list Z :=
  match fmt with
  | [] => []
  | c :: fmt =>
    if negb pct then
      if decide (c = 37%Z) then printf_loop fmt true k else c :: printf_loop fmt false k
    else if decide (c = 100%Z) then printint true (ap k) 10 1 ++ printf_loop fmt false (S k)
    else if decide (c = 120 ∨ c = 112)%Z then printint true (ap k) 16 0 ++ printf_loop fmt false (S k)
    else if decide (c = 115%Z) then fmt_str (ap k) ++ printf_loop fmt false (S k)
    else if decide (c = 99%Z) then u8 (ap k) :: printf_loop fmt false (S k)
    else if decide (c = 37%Z) then c :: printf_loop fmt false k
    else 37%Z :: c :: printf_loop fmt false k
  end.
Definition printf (fmt : list Z) : list Z := printf_loop fmt false 0.

(** console.c: the characters that [cprintf] passes to [consputc]. *)
Fixpoint cprintf_loop (fmt : list Z) (k : nat) : list Z :=
  match fmt with
  | [] => []
  | c :: fmt =>
    if decide (c ≠ 37%Z) then c :: cprintf_loop fmt k else
    match fmt with
    | [] => []
    | c :: fmt =>
      if decide (c = 100%Z) then printint false (ap k) 10 1 ++ cprintf_loop fmt (S k)
      else if decide (c = 120 ∨ c = 112)%Z then printint false (ap k) 16 0 ++ cprintf_loop fmt (S k)
      else if decide (c = 115%Z) then fmt_str (ap k) ++ cprintf_loop fmt (S k)
      else if decide (c = 37%Z) then 37%Z :: cprintf_loop fmt k
      else 37%Z :: c :: cprintf_loop fmt k
    end
  end.
Definition cprintf (fmt : list Z) : list Z := cprintf_loop fmt 0.

End printf.

(** ** Strings *)

Definition strlen (s : list Z) : Z := Z.of_nat (length s).

Fixpoint strcmp (p q : list Z) : Z :=
  match p, q with
  | [], _ => (0 - u8 (hd 0 q))%Z
  | x :: _, [] => u8 x
  | x :: p, y :: q => if decide (x = y) then strcmp p q else (u8 x - u8 y)%Z
  end.

(** The suffix at the first [c]. *)
Fixpoint strchr (s : list Z) (c : Z) : option (list Z) :=
  match s with
  | [] => None
  | x :: s' => if decide (x = c) then Some s else strchr s' c
  end.

(** A line of at most [n] characters of the input, and the rest of it. *)
Fixpoint gets_loop (n : nat) (inp : list Z) : list Z * list Z :=
  match n, inp with
  | S n, c :: inp =>
    if decide (c = 10 ∨ c = 13)%Z then ([c], inp)
    else let '(l, rest) := gets_loop n inp in (c :: l, rest)
  | _, _ => ([], inp)
  end.
Definition gets (max : Z) (inp : list Z) : list Z * list Z := gets_loop (Z.to_nat (max - 1)) inp.

(** ** Conversions *)

Fixpoint skip_spaces (s : list Z) : list Z :=
  match s with
  | x :: s' => if decide (x = 32%Z) then skip_spaces s' else s
  | [] => []
  end.

Fixpoint ato_loop (base : Z) (s : list Z) (n : Z) : Z :=
  match s with
  | x :: s => if decide (48 ≤ x < 48 + base)%Z then ato_loop base s (s32 (n * base + x - 48)) else n
  | [] => n
  end.

(** [atoi] and [atoo]; an overflow of the int wraps around. *)
Definition ato (base : Z) (s : list Z) : Z :=
  let s := skip_spaces s in
  let sign := if decide (hd 0%Z s = 45%Z) then (-1)%Z else 1%Z in
  let s := if decide (hd 0 s = 43 ∨ hd 0 s = 45)%Z then tail s else s in
  s32 (sign * ato_loop base s 0).
Definition atoi : list Z → Z := ato 10.
Definition atoo : list Z → Z := ato 8.

(** ** Printing and reading *)

(** The value of digits, least significant first. *)
Fixpoint value (base : Z) (l : list Z) : Z :=
  match l with
  | [] => 0
  | d :: l => d + base * value base l
  end%Z.

(** The digits of a number. *)
Fixpoint digits (fuel : nat) (x base : Z) : list Z :=
  match fuel with
  | O => []
  | S fuel => (x `mod` base)%Z :: (if decide (x / base = 0)%Z then [] else digits fuel (x / base) base)
  end.

Lemma digits_loop_eq fuel upper x base : digits_loop fuel upper x base = digit_char upper <$> digits fuel x base.
Proof.
  revert x. induction fuel as [|fuel IH]; intros x; [done|]. cbn [digits_loop digits]. rewrite fmap_cons. f_equal.
  case_decide; [done|]. apply IH.
Qed.

Lemma digits_spec fuel x base : (2 ≤ base)%Z → (0 ≤ x < base ^ Z.of_nat fuel)%Z → fuel ≠ 0 →
  value base (digits fuel x base) = x ∧ Forall (λ d, 0 ≤ d < base)%Z (digits fuel x base) ∧ digits fuel x base ≠ [] ∧
  (∀ k, k ≤ fuel → k ≠ 0 → (x < base ^ Z.of_nat k)%Z → length (digits fuel x base) ≤ k).
Proof.
  intros Hb. revert x. induction fuel as [|fuel IH]; intros x Hx Hf; [done|]. cbn [digits].
  pose proof (Z.mod_pos_bound x base ltac:(lia)) as Hm. pose proof (Z.div_mod x base ltac:(lia)) as Hd.
  case_decide as Hz.
  - split_and!; [simpl; lia|by repeat constructor; lia|done|simpl; lia].
  - assert (Hq : (0 < x / base)%Z) by (pose proof (Z.div_pos x base); lia).
    assert (Hlt : ∀ k, (x < base ^ Z.of_nat (S k))%Z → (x / base < base ^ Z.of_nat k)%Z).
    { intros k Hk. apply Z.div_lt_upper_bound; [lia|]. by rewrite Nat2Z.inj_succ, Z.pow_succ_r in Hk by lia. }
    destruct fuel as [|fuel]; [specialize (Hlt 0 ltac:(lia)); simpl in Hlt; lia|].
    destruct (IH (x / base)%Z) as (Hv & Hall & _ & Hlen); [split; [lia|apply Hlt; lia]|done|].
    split_and!; [cbn [value]; lia|by constructor|done|]. intros k Hk Hk0 Hxk. destruct k as [|[|k]]; [lia| |].
    + specialize (Hlt 0 Hxk). simpl in Hlt. lia.
    + cbn [length]. apply le_n_S, Hlen; [lia|lia|]. by apply Hlt.
Qed.

Lemma s32_mod x y : u32 x = u32 y → s32 x = s32 y.
Proof. intros Heq. by rewrite <-(s32_u32 x), Heq, s32_u32. Qed.

Lemma u32_mul_s32 n b c : u32 (s32 n * b + c) = u32 (n * b + c).
Proof.
  rewrite <-(u32_add_l (s32 n * b)), <-(u32_add_l (n * b)). do 2 f_equal. unfold u32.
  rewrite <-(Z.mul_mod_idemp_l (s32 n)), <-(Z.mul_mod_idemp_l n) by lia. do 2 f_equal. exact (u32_s32 n).
Qed.

Lemma ato_loop_digits base l n : (2 ≤ base ≤ 10)%Z → Forall (λ d, 0 ≤ d < base)%Z l →
  s32 (ato_loop base (reverse (digit_char true <$> l)) n) = s32 (n * base ^ Z.of_nat (length l) + value base l).
Proof.
  intros Hb. revert n. induction l as [|d l IH] using rev_ind; intros n Hl.
  { simpl. f_equal. lia. }
  apply Forall_app in Hl as [Hl [Hd _]%Forall_cons]. rewrite fmap_app, reverse_app. cbn [fmap list_fmap reverse].
  change (reverse [digit_char true d]) with [digit_char true d]. simpl app. cbn [ato_loop].
  assert (Hc : digit_char true d = (48 + d)%Z) by (unfold digit_char; rewrite decide_True by lia; lia).
  rewrite Hc, decide_True by lia. rewrite IH by done.
  assert (Hv : value base (l ++ [d]) = (value base l + base ^ Z.of_nat (length l) * d)%Z).
  { clear. induction l as [|x l IH]; [simpl; lia|]. cbn [app value length]. rewrite IH, Nat2Z.inj_succ, Z.pow_succ_r by lia. lia. }
  apply s32_mod. rewrite u32_mul_s32, Hv, length_app. simpl length.
  replace (Z.of_nat (length l + 1)) with (Z.succ (Z.of_nat (length l))) by lia. rewrite Z.pow_succ_r by lia. f_equal. lia.
Qed.

Lemma ato_digits upper base l (neg : bool) : (2 ≤ base ≤ 10)%Z → Forall (λ d, 0 ≤ d < base)%Z l → l ≠ [] →
  ato base (reverse ((digit_char upper <$> l) ++ (if neg then [45%Z] else []))) =
    s32 (if neg then - value base l else value base l)%Z.
Proof.
  intros Hb Hl Hne. assert (Hup : digit_char upper <$> l = digit_char true <$> l).
  { apply list_fmap_ext. intros i d Hd. rewrite Forall_lookup in Hl. specialize (Hl i d Hd). unfold digit_char.
    by rewrite !decide_True by lia. }
  rewrite Hup, reverse_app. pose proof (ato_loop_digits base l 0 Hb Hl) as Hato. rewrite Z.mul_0_l, Z.add_0_l in Hato.
  assert (Hhd : ∃ c t, reverse (digit_char true <$> l) = c :: t ∧ (48 ≤ c < 58)%Z).
  { destruct (exists_last Hne) as (l' & d & ->). apply Forall_app in Hl as [_ [Hd _]%Forall_cons].
    exists (48 + d)%Z, (reverse (digit_char true <$> l')). rewrite fmap_app, reverse_app. split; [|lia].
    unfold digit_char at 1. simpl. by rewrite decide_True by lia. }
  destruct Hhd as (c & t & Hrev & Hc). unfold ato. destruct neg; simpl app.
  - change (reverse [45%Z] ++ reverse (digit_char true <$> l)) with (45%Z :: reverse (digit_char true <$> l)).
    cbn [skip_spaces hd tail]. rewrite (decide_False (P := 45%Z = 32%Z)) by done. cbn [hd tail].
    rewrite (decide_True (P := 45%Z = 45%Z)), (decide_True (P := 45 = 43 ∨ 45 = 45)%Z) by lia.
    set (m := ato_loop base (reverse (digit_char true <$> l)) 0) in *.
    assert (Hu : u32 m = u32 (value base l)) by (rewrite <-(u32_s32 m), Hato; apply u32_s32).
    apply s32_mod. replace (-1 * m)%Z with (0 - m)%Z by lia. replace (- value base l)%Z with (0 - value base l)%Z by lia.
    rewrite <-(u32_sub_r 0 m), Hu. apply u32_sub_r.
  - rewrite Hrev in *. simpl skip_spaces. rewrite (decide_False (P := c = 32%Z)) by lia. simpl hd.
    rewrite (decide_False (P := c = 45%Z)) by lia. rewrite (decide_False (P := c = 43 ∨ c = 45)%Z) by lia.
    by rewrite Z.mul_1_l.
Qed.

Lemma printint_digits upper xx base sgn : (2 ≤ base)%Z →
  ∃ l, printint upper xx base sgn =
      reverse ((digit_char upper <$> l) ++ (if bool_decide (sgn ≠ 0 ∧ s32 xx < 0)%Z then [45%Z] else [])) ∧
    Forall (λ d, 0 ≤ d < base)%Z l ∧ l ≠ [] ∧
    value base l = (if bool_decide (sgn ≠ 0 ∧ s32 xx < 0)%Z then u32 (- s32 xx) else u32 xx) ∧
    (∀ k, k ≤ 32 → k ≠ 0 → (2 ^ 32 ≤ base ^ Z.of_nat k)%Z → length l ≤ k).
Proof.
  intros Hb. unfold printint. set (neg := bool_decide _). set (x := if neg then u32 (- s32 xx) else u32 xx).
  assert (Hx : is_u32 x) by (unfold x; destruct neg; apply u32_range). unfold is_u32 in Hx.
  assert (Hp : (2 ^ 32 ≤ base ^ Z.of_nat 32)%Z) by (apply (Z.pow_le_mono_l 2 base 32); lia).
  destruct (digits_spec 32 x base Hb ltac:(lia) ltac:(done)) as (Hv & Hall & Hne & Hlen).
  exists (digits 32 x base). rewrite digits_loop_eq. split_and!; [|done|done|done|].
  - destruct neg; [done|]. by rewrite app_nil_r.
  - intros k Hk Hk0 Hk2. apply Hlen; [done|done|lia].
Qed.

(** C39. Printed numbers: [atoi] reads back every int that %d prints, the most
    negative one included (with overflow that wraps around), and at most 11 of the 16 characters of the buffer
    are used; %x prints the hexadecimal digits of the word, at most 8 of them. *)
Theorem printint_roundtrip (upper : bool) (xx : Z) :
  atoi (printint upper xx 10 1) = s32 xx ∧ length (printint upper xx 10 1) ≤ 11 ∧
  ∃ l, printint upper xx 16 0 = reverse (digit_char upper <$> l) ∧ Forall (λ d, 0 ≤ d < 16)%Z l ∧
    value 16 l = u32 xx ∧ length l ≤ 8.
Proof.
  destruct (printint_digits upper xx 10 1 ltac:(lia)) as (l & Hp & Hall & Hne & Hv & Hlen).
  destruct (printint_digits upper xx 16 0 ltac:(lia)) as (l' & Hp' & Hall' & Hne' & Hv' & Hlen').
  split_and!.
  - rewrite Hp. unfold atoi. rewrite ato_digits by (done || lia). rewrite Hv.
    destruct (bool_decide (1 ≠ 0 ∧ s32 xx < 0)%Z); [|by rewrite s32_u32].
    transitivity (s32 (s32 xx)); [|by rewrite <-(s32_u32 (s32 xx)), u32_s32, s32_u32]. apply s32_mod.
    replace (- u32 (- s32 xx))%Z with (0 - u32 (- s32 xx))%Z by lia. rewrite u32_sub_r. f_equal. lia.
  - rewrite Hp, length_reverse, length_app, length_fmap.
    specialize (Hlen 10 ltac:(lia) ltac:(lia) ltac:(by vm_compute)). destruct (bool_decide _); simpl; lia.
  - exists l'. rewrite (bool_decide_false (0 ≠ 0 ∧ s32 xx < 0)%Z) in Hp', Hv' by lia. rewrite app_nil_r in Hp'.
    split_and!; [done..|]. apply Hlen'; [lia|lia|by vm_compute].
Qed.
