(* ===== verification/Uprog.v ===== *)
(** * User programs that copy and count (cat.c, wc.c, echo.c, and [fmtname] of
    ls.c)

    They run over the system calls, which are an interface here: what a call
    returns and does to the descriptors of the process. *)

From Stdlib Require Import Ascii.
From S2P Require Import Prelude Params Ulib.

Local Open Scope Z_scope.

(** ** System calls *)

(** The calls, and what there is to observe: the contents of the files that can
    be opened; the bytes that are left to read on a descriptor; the bytes that
    were written to one; whether a descriptor takes all that is written; and the
    calls of [read] and [open] that have failed so far. *)
Inductive failure := ReadFailed (fd : Z) | OpenFailed (path : list Z).
Class Sys (S : Type) := {
  read : Z → nat → M S (Z * list Z);
  write : Z → list Z → M S Z;
  open : list Z → Z → M S Z;
  close : Z → M S Z;
  file : S → list Z → option (list Z);
  rest : S → Z → option (list Z);
  out : S → Z → list Z;
  good : S → Z → Prop;
  failures : S → list failure
}.

Section laws.
  Context {S : Type} `{Sys S}.
Definition upd {A} (fd : Z) (x : A) (f : Z → A) (q : Z) : A := if decide (q = fd) then x else f q.
Record keeps (s s' : S) : Prop := {
  kp_file : ∀ p, file s' p = file s p;
  kp_good : ∀ q, good s q → good s' q
}.
End laws.

(** A [read] of at least one byte fails, or gives the next bytes, none only at
    the end of the file. *)
Class SysLaws (S : Type) `{Sys S} : Prop := {
  read_law fd n s t : rest s fd = Some t → (0 < n)%nat → ∃ k bs s', read fd n s = Done (k, bs) s' ∧ keeps s s' ∧ (∀ q, out s' q = out s q) ∧
    (k < 0 ∧ (∀ q, rest s' q = rest s q) ∧ failures s' = failures s ++ [ReadFailed fd] ∨
     failures s' = failures s ∧ k = Z.of_nat (length bs) ∧ (length bs ≤ n)%nat ∧ (bs = [] → t = []) ∧ ∃ t', t = bs ++ t' ∧ ∀ q, rest s' q = upd fd (Some t') (rest s) q);
  write_law fd bs s : ∃ k s', write fd bs s = Done k s' ∧ keeps s s' ∧ (∀ q, rest s' q = rest s q) ∧ failures s' = failures s ∧ k ≤ Z.of_nat (length bs) ∧
    (good s fd → k = Z.of_nat (length bs)) ∧ ∀ q, out s' q = upd fd (out s fd ++ take (Z.to_nat k) bs) (out s) q;
  open_law path s : ∃ fd s', open path 0 s = Done fd s' ∧ keeps s s' ∧ (∀ q, out s' q = out s q) ∧
    (fd < 0 ∧ (∀ q, rest s' q = rest s q) ∧ failures s' = failures s ++ [OpenFailed path] ∨
     failures s' = failures s ∧ 0 ≤ fd ∧ rest s fd = None ∧ ∃ t, file s path = Some t ∧ ∀ q, rest s' q = upd fd (Some t) (rest s) q);
  close_law fd s t : rest s fd = Some t → ∃ k s', close fd s = Done k s' ∧ keeps s s' ∧ (∀ q, out s' q = out s q) ∧ failures s' = failures s ∧ ∀ q, rest s' q = upd fd None (rest s) q
}.

(** A program: [None] is a process that has called [exit]. *)
Record U (S A : Type) := Prg { run : M S (option A) }.
Arguments Prg {_ _} _.
Arguments run {_ _} _.
#[export] Instance U_ret {S} : MRet (U S) := λ A a, Prg (mret (Some a)).
#[export] Instance U_bind {S} : MBind (U S) := λ A B k m, Prg (x ← run m; match x with Some a => run (k a) | None => mret None end).
Definition call {S A} (m : M S A) : U S A := Prg (a ← m; mret (Some a)).
Definition exit {S A} : U S A := Prg (mret None).
Definition ufor {S A} (l : list A) (f : A → U S unit) : U S unit := foldr (λ x k, f x;; k) (mret tt) l.

(** ** Output *)

(** The bytes of a string of the source; [nl] is '\n'. *)
Fixpoint str (s : string) : list Z := match s with EmptyString => [] | String.String c s => Z.of_nat (nat_of_ascii c) :: str s end.
Definition nl : list Z := [10].

(** The arguments of [printf]; a string is passed by its address. *)
Inductive arg := Int (x : Z) | Str (s : list Z).
Definition arg_word (args : list arg) (k : nat) : Z := match args !! k with Some (Int x) => x | Some (Str _) => Z.of_nat (S k) | None => 0 end.
Definition arg_str (args : list arg) (a : Z) : list Z := match args !! Z.to_nat (a - 1) with Some (Str s) => s | _ => [] end.
Definition format (fmt : list Z) (args : list arg) : list Z := printf (arg_str args) (arg_word args) fmt.

Section programs.
  Context {S : Type} `{Sys S}.

(** Every character is written by a call of its own. *)
Definition putc (fd c : Z) : U S unit := call (write fd [c]);; mret tt.
Definition uprintf (fd : Z) (fmt : list Z) (args : list arg) : U S unit := ufor (format fmt args) (putc fd).

(** ** echo *)

Fixpoint echo_loop (args : list (list Z)) : U S unit :=
  match args with
  | [] => mret tt
  | a :: args => uprintf 1 (str "%s%s") [Str a; Str (if decide (args ≠ []) then [32] else nl)];; echo_loop args
  end.
Definition echo_main (args : list (list Z)) : U S unit := echo_loop args;; exit.

(** ** cat *)

(** The loop's last [n]. *)
Fixpoint cat_loop (fuel : nat) (fd : Z) : U S Z :=
  match fuel with
  | O => Prg (λ _, Diverge)
  | Datatypes.S fuel =>
    '(n, buf) ← call (read fd 512);
    if decide (0 < n) then
      k ← call (write 1 buf);
      if decide (k ≠ n) then uprintf 1 (str "cat: write error" ++ nl) [];; exit else cat_loop fuel fd
    else mret n
  end.
Definition cat (fuel : nat) (fd : Z) : U S unit :=
  n ← cat_loop fuel fd;
  if decide (n < 0) then uprintf 1 (str "cat: read error" ++ nl) [];; exit else mret tt.

(** ** wc *)

Record counts := Counts { wl : Z; ww : Z; wc_ : Z; inword : bool }.
Definition wc_blanks : list Z := [32; 13; 9; 10; 11].       (* " \r\t\n\v" *)
Definition wc_byte (st : counts) (b : Z) : counts :=
  let c := s32 (wc_ st + 1) in
  let l := if decide (b = 10) then s32 (wl st + 1) else wl st in
  match strchr wc_blanks b with
  | Some _ => Counts l (ww st) c false
  | None => if inword st then Counts l (ww st) c true else Counts l (s32 (ww st + 1)) c true
  end.
Fixpoint wc_loop (fuel : nat) (fd : Z) (st : counts) : U S (Z * counts) :=
  match fuel with
  | O => Prg (λ _, Diverge)
  | Datatypes.S fuel =>
    '(n, buf) ← call (read fd 512);
    if decide (0 < n) then wc_loop fuel fd (foldl wc_byte st buf) else mret (n, st)
  end.
Definition wc (fuel : nat) (fd : Z) (name : list Z) : U S unit :=
  '(n, st) ← wc_loop fuel fd (Counts 0 0 0 false);
  if decide (n < 0) then uprintf 1 (str "wc: read error" ++ nl) [];; exit else
  uprintf 1 (str "%d %d %d %s" ++ nl) [Int (wl st); Int (ww st); Int (wc_ st); Str name].

(** ** main of cat and of wc *)

Fixpoint files_loop (msg : list Z) (f : Z → list Z → U S unit) (args : list (list Z)) : U S unit :=
  match args with
  | [] => exit
  | a :: args =>
    fd ← call (open a 0);
    if decide (fd < 0) then uprintf 1 msg [Str a];; exit else
    f fd a;;
    call (close fd);;
    files_loop msg f args
  end.
Definition files_main (msg : list Z) (f : Z → list Z → U S unit) (args : list (list Z)) : U S unit :=
  match args with
  | [] => f 0 [];; exit
  | _ => files_loop msg f args
  end.
Definition cat_main (fuel : nat) : list (list Z) → U S unit := files_main (str "cat: cannot open %s" ++ nl) (λ fd _, cat fuel fd).
Definition wc_main (fuel : nat) : list (list Z) → U S unit := files_main (str "wc: cannot open %s" ++ nl) (wc fuel).
End programs.

(** ** ls: the last element of a path, padded with blanks to [DIRSIZ] *)

(** The scan from the end of the path back to a slash. *)
Fixpoint back (rev e : list Z) : list Z := match rev with [] => e | x :: rev => if decide (x = 47) then e else back rev (x :: e) end.
Definition fmtname (path : list Z) : list Z :=
  let p := back (reverse path) [] in
  if decide (Z.of_nat DIRSIZ ≤ strlen p) then p else p ++ replicate (Z.to_nat (Z.of_nat DIRSIZ - strlen p)) 32.

(** ** Runs *)

Section uprog_proof.
  Context {S : Type} `{HA : Sys S} `{HL : !SysLaws S}.
  Implicit Types s : S.

Lemma urun {A B} (m : U S A) (k : A → U S B) s a s1 : run m s = Done (Some a) s1 → run (m ≫= k) s = run (k a) s1.
Proof. intros Hm. unfold mbind at 1, U_bind. cbn [run]. by rewrite (run_bind _ _ _ _ _ Hm). Qed.
Lemma urun_exit {A B} (m : U S A) (k : A → U S B) s s1 : run m s = Done None s1 → run (m ≫= k) s = Done None s1.
Proof. intros Hm. unfold mbind, U_bind. cbn [run]. by rewrite (run_bind _ _ _ _ _ Hm). Qed.
Lemma call_run {A B} (m : M S A) (k : A → U S B) s a s1 : m s = Done a s1 → run (call m ≫= k) s = run (k a) s1.
Proof. intros Hm. apply urun. unfold call. cbn [run]. by rewrite (run_bind _ _ _ _ _ Hm). Qed.

(** From [s] to [s'], [txt] is written to descriptor 1, [rest] becomes [r], and
    the calls [er] fail. *)
Record goes (s s' : S) (r : Z → option (list Z)) (txt : list Z) (er : list failure) : Prop := {
  go_keeps : keeps s s';
  go_rest : ∀ q, rest s' q = r q;
  go_out : ∀ q, out s' q = upd 1 (out s 1 ++ txt) (out s) q;
  go_failures : failures s' = failures s ++ er
}.

Lemma goes_silent s s' r er : keeps s s' → (∀ q, rest s' q = r q) → (∀ q, out s' q = out s q) → failures s' = failures s ++ er → goes s s' r [] er.
Proof. intros Hk Hr Ho He. split; [done|done| |done]. intros q. rewrite Ho. unfold upd. rewrite app_nil_r. case_decide; by subst. Qed.
Lemma no_failure s s' : failures s' = failures s → failures s' = failures s ++ [].
Proof. by rewrite app_nil_r. Qed.
Lemma goes_refl s : goes s s (rest s) [] [].
Proof. apply goes_silent; [done|done|done|by rewrite app_nil_r]. Qed.

Lemma goes_trans s1 s2 s3 r r' t1 t2 e1 e2 : goes s1 s2 r t1 e1 → goes s2 s3 r' t2 e2 → goes s1 s3 r' (t1 ++ t2) (e1 ++ e2).
Proof.
  intros [[K1 K2] R O F] [[K1' K2'] R' O' F']. split; [split| | |].
  - intros p. by rewrite K1', K1.
  - auto.
  - done.
  - intros q. rewrite O'. unfold upd at 1. rewrite !O. unfold upd. rewrite (decide_True (P := 1 = 1)), <-app_assoc by done. by case_decide.
  - by rewrite F', F, app_assoc.
Qed.

Lemma goes_good s s' r t e q : goes s s' r t e → good s q → good s' q.
Proof. intros [[_ K] _ _ _]. apply K. Qed.

Lemma goes_ext s s' r r' t e : goes s s' r t e → (∀ q, r q = r' q) → goes s s' r' t e.
Proof. intros [K R O F] Hr. split; [done|intros q; by rewrite R|done|done]. Qed.

Lemma write_goes bs s : good s 1 → ∃ s', write 1 bs s = Done (Z.of_nat (length bs)) s' ∧ goes s s' (rest s) bs [].
Proof.
  intros Hg. destruct (write_law 1 bs s) as (k & s' & Hrun & Hk & Hr & Hf & _ & Hfull & Ho). rewrite (Hfull Hg) in *. exists s'. split; [done|]. split; [done|done| |by apply no_failure].
  intros q. by rewrite Ho, Nat2Z.id, firstn_all.
Qed.

Lemma uprintf_goes fmt args s : good s 1 → ∃ s', run (uprintf 1 fmt args) s = Done (Some tt) s' ∧ goes s s' (rest s) (format fmt args) [].
Proof.
  unfold uprintf. generalize (format fmt args). intros l. revert s. induction l as [|c l IH]; intros s Hg.
  { exists s. split; [done|apply goes_refl]. }
  destruct (write_goes [c] s Hg) as (s1 & Hrun & G1). destruct (IH s1 (goes_good _ _ _ _ _ _ G1 Hg)) as (s2 & Hrun2 & G2). exists s2. split.
  - cbn [ufor foldr]. rewrite (urun _ _ s tt s1); [exact Hrun2|]. unfold putc. by rewrite (call_run _ _ _ _ _ Hrun).
  - change (c :: l) with ([c] ++ l). change (@nil failure) with (@nil failure ++ []). eapply goes_trans; [exact G1|]. eapply goes_ext; [exact G2|]. intros q. by rewrite (go_rest _ _ _ _ _ G1).
Qed.

(** A program [f] on a descriptor and a name: it reads all that is left there and
    writes what [R] says, and no call fails; or it ends the process after an
    output that [E] describes, because a [read] has failed. [fuel] bounds the
    bytes to read. *)
Definition reads_all (fuel : nat) (f : Z → list Z → U S unit) (R : list Z → list Z → list Z) (E : list Z → list Z → Prop) : Prop :=
  ∀ fd a s t, good s 1 → rest s fd = Some t → (length t < fuel)%nat → ∃ r s', run (f fd a) s = Done r s' ∧
    match r with
    | Some _ => goes s s' (upd fd (Some []) (rest s)) (R a t) []
    | None => ∃ r' e, E t e ∧ goes s s' r' e [ReadFailed fd]
    end.

Lemma uprintf_exit {A} fmt args s : good s 1 → ∃ s', run (uprintf 1 fmt args;; exit) s = Done (@None A) s' ∧ goes s s' (rest s) (format fmt args) [].
Proof. intros Hg. destruct (uprintf_goes fmt args s Hg) as (s' & Hrun & G). exists s'. split; [|done]. by rewrite (urun _ _ _ _ _ Hrun). Qed.

Lemma cat_loop_spec fd : ∀ fuel s t, rest s fd = Some t → good s 1 → (length t < fuel)%nat → ∃ n s', run (cat_loop fuel fd) s = Done (Some n) s' ∧
  (0 ≤ n ∧ goes s s' (upd fd (Some []) (rest s)) t [] ∨ n < 0 ∧ ∃ r e, e `prefix_of` t ∧ goes s s' r e [ReadFailed fd]).
Proof.
  induction fuel as [|fuel IH]; intros s t Ht Hg Hf; [lia|]. destruct (read_law fd 512 s t Ht ltac:(lia)) as (k & bs & s1 & Hrd & Hk & Ho & Hcase).
  cbn [cat_loop]. rewrite (call_run _ _ _ _ _ Hrd). destruct Hcase as [(Hneg & Hr & Her)|(Her%no_failure & -> & Hn & Hend & t' & -> & Hr)].
  - rewrite decide_False by lia. exists k, s1. split; [done|]. right. split; [done|]. exists (rest s), []. split; [apply prefix_nil|].
    by apply goes_silent.
  - assert (G1 : goes s s1 (upd fd (Some t') (rest s)) [] []) by by apply goes_silent.
    case_decide as Hpos.
    + destruct (write_goes bs s1 (goes_good _ _ _ _ _ _ G1 Hg)) as (s2 & Hw & G2). rewrite (call_run _ _ _ _ _ Hw). rewrite decide_False by lia.
      assert (Ht2 : rest s2 fd = Some t') by (rewrite (go_rest _ _ _ _ _ G2), Hr; unfold upd; by rewrite decide_True).
      rewrite length_app in Hf. destruct (IH s2 t' Ht2 (goes_good _ _ _ _ _ _ G2 (goes_good _ _ _ _ _ _ G1 Hg)) ltac:(lia)) as (n & s' & Hrun & Hpost).
      pose proof (goes_trans _ _ _ _ _ _ _ _ _ G1 G2) as G12. cbn [app] in G12. exists n, s'. split; [done|]. destruct Hpost as [[Hn0 G3]|(Hn0 & r & e & He & G3)].
      * left. split; [done|]. eapply goes_ext; [exact (goes_trans _ _ _ _ _ _ _ _ _ G12 G3)|]. intros q. unfold upd. case_decide; [done|]. rewrite (go_rest _ _ _ _ _ G2), Hr. unfold upd. by rewrite decide_False.
      * right. split; [done|]. exists r, (bs ++ e). split; [by apply prefix_app|]. exact (goes_trans _ _ _ _ _ _ _ _ _ G12 G3).
    + assert (bs = []) as -> by (destruct bs; [done|simpl in Hpos; lia]). specialize (Hend eq_refl). simpl in Hend. subst t'.
      exists 0, s1. split; [done|]. left. split; [lia|done].
Qed.

Definition cat_error (t e : list Z) : Prop := ∃ p, p `prefix_of` t ∧ e = p ++ str "cat: read error" ++ nl.

Lemma cat_spec fuel : reads_all fuel (λ fd _, cat fuel fd) (λ _ t, t) cat_error.
Proof.
  intros fd a s t Hg Ht Hf. destruct (cat_loop_spec fd fuel s t Ht Hg Hf) as (n & s1 & Hrun & Hpost). unfold cat. rewrite (urun _ _ _ _ _ Hrun).
  destruct Hpost as [[Hn G]|(Hn & r & e & He & G)].
  - rewrite decide_False by lia. by exists (Some tt), s1.
  - rewrite decide_True by lia. destruct (uprintf_exit (A := unit) (str "cat: read error" ++ nl) [] s1 (goes_good _ _ _ _ _ _ G Hg)) as (s2 & Hrun2 & G2).
    exists None, s2. split; [done|]. eexists _, _. split; [|exact (goes_trans _ _ _ _ _ _ _ _ _ G G2)]. exists e. split; [done|]. f_equal.
Qed.

Lemma wc_loop_spec fd : ∀ fuel st s t, rest s fd = Some t → (length t < fuel)%nat → ∃ n st' s', run (wc_loop fuel fd st) s = Done (Some (n, st')) s' ∧
  (0 ≤ n ∧ st' = foldl wc_byte st t ∧ goes s s' (upd fd (Some []) (rest s)) [] [] ∨ n < 0 ∧ ∃ r, goes s s' r [] [ReadFailed fd]).
Proof.
  induction fuel as [|fuel IH]; intros st s t Ht Hf; [lia|]. destruct (read_law fd 512 s t Ht ltac:(lia)) as (k & bs & s1 & Hrd & Hk & Ho & Hcase).
  cbn [wc_loop]. rewrite (call_run _ _ _ _ _ Hrd). destruct Hcase as [(Hneg & Hr & Her)|(Her%no_failure & -> & Hn & Hend & t' & -> & Hr)].
  - rewrite decide_False by lia. exists k, st, s1. split; [done|]. right. split; [done|]. exists (rest s). by apply goes_silent.
  - pose proof (goes_silent _ _ _ _ Hk Hr Ho Her) as G1. case_decide as Hpos.
    + assert (Ht2 : rest s1 fd = Some t') by (rewrite Hr; unfold upd; by rewrite decide_True).
      rewrite length_app in Hf. destruct (IH (foldl wc_byte st bs) s1 t' Ht2 ltac:(lia)) as (n & st' & s' & Hrun & Hpost). exists n, st', s'. split; [done|].
      destruct Hpost as [(Hn0 & -> & G2)|(Hn0 & r & G2)]; pose proof (goes_trans _ _ _ _ _ _ _ _ _ G1 G2) as G; [left|right; split; [done|]; by exists r].
      split; [done|]. split; [by rewrite foldl_app|]. eapply goes_ext; [exact G|]. intros q. unfold upd. case_decide; [done|]. rewrite Hr. unfold upd. by rewrite decide_False.
    + assert (bs = []) as -> by (destruct bs; [done|simpl in Hpos; lia]). specialize (Hend eq_refl). simpl in Hend. subst t'.
      exists 0, st, s1. split; [done|]. left. split; [lia|]. split; done.
Qed.

(** What [wc] counts: newlines, positions where a word starts, and bytes. *)
Definition blank (b : Z) : bool := bool_decide (b ∈ wc_blanks).
Definition starts_word (t : list Z) (i : nat) : bool :=
  match t !! i with
  | Some b => negb (blank b) && match i with O => true | Datatypes.S j => match t !! j with Some b => blank b | None => true end end
  | None => false
  end.
Definition nlines (t : list Z) : nat := length (filter (λ b, b = 10) t).
Definition nwords (t : list Z) : nat := length (filter (λ i, starts_word t i = true) (seq 0 (length t))).
Definition ends_in_word (t : list Z) : bool := match last t with Some b => negb (blank b) | None => false end.

Lemma strchr_blank b : match strchr wc_blanks b with Some _ => blank b = true | None => blank b = false end.
Proof.
  unfold wc_blanks, blank. cbn [strchr]. repeat case_decide; (apply bool_decide_true; subst; set_solver) || (apply bool_decide_false; unfold wc_blanks; set_solver).
Qed.

Lemma starts_word_app t x i : (i < length t)%nat → starts_word (t ++ [x]) i = starts_word t i.
Proof. intros Hi. unfold starts_word. rewrite lookup_app_l by done. destruct i as [|j]; [done|]. by rewrite lookup_app_l by lia. Qed.

Lemma starts_word_last t x : starts_word (t ++ [x]) (length t) = negb (blank x) && negb (ends_in_word t).
Proof.
  unfold starts_word, ends_in_word. rewrite list_lookup_middle by done. destruct t as [|y t] using rev_ind; [done|]. rewrite last_snoc, length_app, Nat.add_1_r.
  rewrite lookup_app_l by (rewrite length_app; simpl; lia). rewrite list_lookup_middle by done. by rewrite negb_involutive.
Qed.

Lemma filter_agree {A} (P Q : A → bool) (l : list A) : (∀ x, x ∈ l → P x = Q x) → filter (λ x, P x = true) l = filter (λ x, Q x = true) l.
Proof. induction l as [|y l IH]; intros Hl; [done|]. rewrite !filter_cons, (Hl y), IH by set_solver. done. Qed.

Lemma nwords_snoc t x : nwords (t ++ [x]) = (nwords t + if negb (blank x) && negb (ends_in_word t) then 1 else 0)%nat.
Proof.
  unfold nwords. rewrite length_app, seq_app, filter_app, length_app. cbn [length plus seq]. f_equal.
  - f_equal. apply filter_agree. intros i Hi%elem_of_seq. apply starts_word_app. lia.
  - rewrite filter_cons, filter_nil, starts_word_last. by destruct (_ && _).
Qed.

Lemma wc_counts t : Z.of_nat (length t) < 2 ^ 31 →
  foldl wc_byte (Counts 0 0 0 false) t = Counts (Z.of_nat (nlines t)) (Z.of_nat (nwords t)) (Z.of_nat (length t)) (ends_in_word t).
Proof.
  induction t as [|x t IH] using rev_ind; [done|]. rewrite length_app. cbn [length]. intros Hlen. rewrite foldl_app. cbn [foldl]. rewrite IH by lia.
  assert (Hl : (nlines t ≤ length t)%nat) by apply length_filter. assert (Hw : (nwords t ≤ length t)%nat) by (unfold nwords; rewrite length_filter, length_seq; done).
  assert (Hnl : nlines (t ++ [x]) = (nlines t + if decide (x = 10)%Z then 1 else 0)%nat).
  { unfold nlines. rewrite filter_app, length_app, filter_cons, filter_nil. by case_decide. }
  unfold wc_byte. cbn [wl ww wc_ inword]. rewrite nwords_snoc, Hnl. assert (He : ends_in_word (t ++ [x]) = negb (blank x)) by (unfold ends_in_word; by rewrite last_snoc).
  rewrite He, (s32_small (Z.of_nat (length t) + 1)) by lia.
  rewrite (s32_small (Z.of_nat (nlines t) + 1)), (s32_small (Z.of_nat (nwords t) + 1)) by lia.
  pose proof (strchr_blank x) as Hb. destruct (strchr wc_blanks x); rewrite Hb; cbn [negb andb].
  - rewrite Nat.add_0_r. f_equal; [case_decide; lia|lia].
  - destruct (ends_in_word t); cbn [negb]; f_equal; try (case_decide; lia); lia.
Qed.

Definition wc_report (name t : list Z) : list Z :=
  printint true (Z.of_nat (nlines t)) 10 1 ++ [32] ++ printint true (Z.of_nat (nwords t)) 10 1 ++ [32] ++ printint true (Z.of_nat (length t)) 10 1 ++ [32] ++ name ++ nl.

Lemma wc_spec fuel : Z.of_nat fuel ≤ 2 ^ 31 → reads_all fuel (wc fuel) wc_report (λ _ e, e = str "wc: read error" ++ nl).
Proof.
  intros Hfu fd a s t Hg Ht Hf. destruct (wc_loop_spec fd fuel (Counts 0 0 0 false) s t Ht Hf) as (n & st & s1 & Hrun & Hpost). unfold wc. rewrite (urun _ _ _ _ _ Hrun).
  destruct Hpost as [(Hn & -> & G)|(Hn & r & G)].
  - rewrite decide_False by lia. rewrite wc_counts by lia. cbn [wl ww wc_].
    destruct (uprintf_goes (str "%d %d %d %s" ++ nl) [Int (Z.of_nat (nlines t)); Int (Z.of_nat (nwords t)); Int (Z.of_nat (length t)); Str a] s1 (goes_good _ _ _ _ _ _ G Hg)) as (s2 & Hrun2 & G2).
    exists (Some tt), s2. split; [done|]. pose proof (goes_trans _ _ _ _ _ _ _ _ _ G G2) as G12. eapply goes_ext; [exact G12|]. apply (go_rest _ _ _ _ _ G).
  - rewrite decide_True by lia. destruct (uprintf_exit (A := unit) (str "wc: read error" ++ nl) [] s1 (goes_good _ _ _ _ _ _ G Hg)) as (s2 & Hrun2 & G2).
    exists None, s2. split; [done|]. eexists _, _. split; [|exact (goes_trans _ _ _ _ _ _ _ _ _ G G2)]. done.
Qed.

(** The files of [pre] are reported; the loop ends after all of them and no call
    fails; or at one that cannot be opened, or at one that cannot be read, and
    then exactly this call fails. *)
Definition processed s (msg : list Z) (R : list Z → list Z → list Z) (E : list Z → list Z → Prop) (args : list (list Z)) (txt : list Z) (er : list failure) : Prop :=
  ∃ pre post e, args = pre ++ post ∧ txt = mjoin ((λ a, R a (default [] (file s a))) <$> pre) ++ e ∧ (∀ a, a ∈ pre → is_Some (file s a)) ∧
    match post with
    | [] => e = [] ∧ er = []
    | a :: _ => e = format msg [Str a] ∧ er = [OpenFailed a] ∨ ∃ t fd, file s a = Some t ∧ E t e ∧ er = [ReadFailed fd]
    end.

Lemma processed_cons s s' msg R E a t args txt er : keeps s s' → file s a = Some t → processed s' msg R E args txt er → processed s msg R E (a :: args) (R a t ++ txt) er.
Proof.
  intros [Hk _] Ha (pre & post & e & -> & -> & Hall & Hpost). exists (a :: pre), post, e. split; [done|]. split; [|split].
  - cbn [fmap list_fmap mjoin list_join]. rewrite Ha. cbn [default]. rewrite <-app_assoc. do 3 f_equal. apply list_fmap_ext. intros i b _. by rewrite Hk.
  - intros b [->|Hb]%elem_of_cons; [by rewrite Ha|]. rewrite <-Hk. by apply Hall.
  - destruct post as [|b post]; [done|]. by rewrite <-Hk.
Qed.

Lemma files_loop_spec fuel msg f R E : reads_all fuel f R E → ∀ args s, good s 1 → (∀ a t, a ∈ args → file s a = Some t → (length t < fuel)%nat) →
  ∃ s' r txt er, run (files_loop msg f args) s = Done None s' ∧ processed s msg R E args txt er ∧ goes s s' r txt er.
Proof.
  intros Hf. induction args as [|a args IH]; intros s Hg Hlen.
  { exists s, (rest s), [], []. split; [done|]. split; [|apply goes_refl]. exists [], [], []. split_and!; [done|done|set_solver|done|done]. }
  destruct (open_law a s) as (fd & s1 & Ho & Hk1 & Hout & Hcase). cbn [files_loop]. rewrite (call_run _ _ _ _ _ Ho).
  destruct Hcase as [(Hneg & Hr & Her)|(Her%no_failure & Hpos & _ & t & Ha & Hr)]; pose proof (goes_silent _ _ _ _ Hk1 Hr Hout Her) as G1.
  { rewrite decide_True by done. destruct (uprintf_exit (A := unit) msg [Str a] s1 (goes_good _ _ _ _ _ _ G1 Hg)) as (s2 & Hrun & G2).
    exists s2, (rest s1), ([] ++ format msg [Str a]), [OpenFailed a]. split; [done|]. split; [|exact (goes_trans _ _ _ _ _ _ _ _ _ G1 G2)].
    exists [], (a :: args), (format msg [Str a]). split_and!; [done|done|set_solver|by left]. }
  rewrite decide_False by lia. assert (Hrest1 : rest s1 fd = Some t) by (rewrite Hr; unfold upd; by rewrite decide_True).
  destruct (Hf fd a s1 t (goes_good _ _ _ _ _ _ G1 Hg) Hrest1) as ([[]|] & s2 & Hrun & Hpost); [apply (Hlen a); [set_solver|done]| |].
  - rewrite (urun _ _ _ _ _ Hrun). destruct (close_law fd s2 []) as (k & s3 & Hc & Hk3 & Hout3 & He3%no_failure & Hr3); [rewrite (go_rest _ _ _ _ _ Hpost); unfold upd; by rewrite decide_True|].
    rewrite (call_run _ _ _ _ _ Hc). assert (G3 : goes s2 s3 (rest s3) [] []) by by apply goes_silent.
    pose proof (goes_trans _ _ _ _ _ _ _ _ _ (goes_trans _ _ _ _ _ _ _ _ _ G1 Hpost) G3) as G. cbn [app] in G. rewrite app_nil_r in G.
    destruct (IH s3 (goes_good _ _ _ _ _ _ G Hg)) as (s' & r & txt & er & Hrun' & Hp & G').
    { intros b tb Hb Htb. apply (Hlen b); [set_solver|]. by rewrite <-(kp_file _ _ (go_keeps _ _ _ _ _ G)). }
    exists s', r, (R a t ++ txt), er. split; [done|]. split; [|exact (goes_trans _ _ _ _ _ _ _ _ _ G G')]. eapply processed_cons; [exact (go_keeps _ _ _ _ _ G)|done|done].
  - rewrite (urun_exit _ _ _ _ Hrun). destruct Hpost as (r' & e & He & G2). exists s2, r', ([] ++ e), [ReadFailed fd]. split; [done|].
    split; [|exact (goes_trans _ _ _ _ _ _ _ _ _ G1 G2)]. exists [], (a :: args), e. split_and!; [done|done|set_solver|]. right. by exists t, fd.
Qed.

(** echo. *)
Fixpoint spaced (args : list (list Z)) : list Z :=
  match args with [] => [] | [a] => a ++ nl | a :: args => a ++ [32] ++ spaced args end.

Lemma echo_spec args s : good s 1 → ∃ s', run (echo_main args) s = Done None s' ∧ goes s s' (rest s) (spaced args) [].
Proof.
  intros Hg. assert (Hloop : ∃ s', run (echo_loop args) s = Done (Some tt) s' ∧ goes s s' (rest s) (spaced args) []).
  { revert s Hg. induction args as [|a args IH]; intros s Hg; [exists s; split; [done|apply goes_refl]|]. cbn [echo_loop].
    set (sep := if decide (args ≠ []) then [32] else nl). destruct (uprintf_goes (str "%s%s") [Str a; Str sep] s Hg) as (s1 & Hrun & G1).
    rewrite (urun _ _ _ _ _ Hrun). destruct (IH s1 (goes_good _ _ _ _ _ _ G1 Hg)) as (s' & Hrun' & G'). exists s'. split; [done|].
    pose proof (goes_trans _ _ _ _ _ _ _ _ _ G1 G') as G. change (format _ _) with (a ++ sep ++ []) in G. rewrite app_nil_r in G.
    assert (Htxt : (a ++ sep) ++ spaced args = spaced (a :: args)).
    { unfold sep. destruct args as [|b args]; [by rewrite decide_False, app_nil_r by tauto|]. rewrite decide_True by done. by rewrite <-app_assoc. }
    rewrite Htxt in G. eapply goes_ext; [exact G|]. apply (go_rest _ _ _ _ _ G1). }
  destruct Hloop as (s' & Hrun & G). exists s'. split; [|done]. unfold echo_main. by rewrite (urun _ _ _ _ _ Hrun).
Qed.
End uprog_proof.

Lemma back_spec rev e : ∃ pre, reverse rev ++ e = pre ++ back rev e ∧ (pre = [] ∨ last pre = Some 47) ∧ (47 ∉ e → 47 ∉ back rev e).
Proof.
  revert e. induction rev as [|x rev IH]; intros e; cbn [back].
  { exists []. split; [done|]. split; [by left|done]. }
  rewrite reverse_cons. case_decide as Hx.
  - subst x. exists (reverse rev ++ [47]). split; [done|]. split; [right; apply last_snoc|done].
  - destruct (IH (x :: e)) as (pre & Heq & Hpre & Hns). exists pre. split; [by rewrite <-app_assoc|]. split; [done|]. intros He. apply Hns. set_solver.
Qed.

(** [fmtname]: the part after the last slash, padded with blanks. *)
Lemma fmtname_spec path : ∃ pre e, path = pre ++ e ∧ (pre = [] ∨ last pre = Some 47) ∧ (47 ∉ e) ∧ fmtname path = e ++ replicate (DIRSIZ - length e) 32.
Proof.
  destruct (back_spec (reverse path) []) as (pre & Heq & Hpre & Hns). rewrite reverse_involutive, app_nil_r in Heq. exists pre, (back (reverse path) []).
  split; [done|]. split; [done|]. split; [apply Hns; set_solver|]. unfold fmtname, strlen. set (e := back _ _). case_decide as Hl.
  - replace (DIRSIZ - length e)%nat with 0%nat by lia. by rewrite app_nil_r.
  - do 2 f_equal. lia.
Qed.

Section uprog_claim.
  Context {S : Type} `{HA : Sys S} `{HL : !SysLaws S}.

Lemma stdin_spec fuel msg f R E (s : S) t : reads_all fuel f R E → good s 1 → rest s 0 = Some t → (length t < fuel)%nat →
  ∃ s' r txt er, run (files_main msg f []) s = Done None s' ∧ (txt = R [] t ∧ er = [] ∨ E t txt ∧ er = [ReadFailed 0]) ∧ goes s s' r txt er.
Proof.
  intros Hf Hg Ht Hlen. destruct (Hf 0 [] s t Hg Ht Hlen) as ([[]|] & s' & Hrun & Hpost); cbn [files_main].
  - eexists s', _, _, _. rewrite (urun _ _ _ _ _ Hrun). split; [done|]. split; [by left|exact Hpost].
  - destruct Hpost as (r & e & He & G). exists s', r, e, [ReadFailed 0]. rewrite (urun_exit _ _ _ _ Hrun). auto.
Qed.

(** C35. User programs, on a standard output that takes what is written. [cat]
    copies its files, complete and in order, and [wc] prints for each the
    numbers of newlines, of words and of bytes, whatever the sizes of the reads
    are; both go through the files in order. If no call fails, all files are
    reported and nothing else is printed; a failed [open] ends the program with
    "cannot open", a failed [read] with "read error", and there are no other
    reasons for these messages. Without arguments they read the standard input.
    [echo] prints its arguments with blanks between them and a newline. [fmtname]
    gives the part of a path after its last slash, padded with blanks. All end,
    with [fuel] above the length of the longest input. *)
Theorem user_programs_correct fuel (s : S) : good s 1 → Z.of_nat fuel ≤ 2 ^ 31 →
  (∀ args, args ≠ [] → (∀ a t, a ∈ args → file s a = Some t → (length t < fuel)%nat) →
    (∃ s' r txt er, run (cat_main fuel args) s = Done None s' ∧ goes s s' r txt er ∧
      processed s (str "cat: cannot open %s" ++ nl) (λ _ t, t) cat_error args txt er) ∧
    (∃ s' r txt er, run (wc_main fuel args) s = Done None s' ∧ goes s s' r txt er ∧
      processed s (str "wc: cannot open %s" ++ nl) wc_report (λ _ e, e = str "wc: read error" ++ nl) args txt er)) ∧
  (∀ t, rest s 0 = Some t → (length t < fuel)%nat →
    (∃ s' r txt er, run (cat_main fuel []) s = Done None s' ∧ goes s s' r txt er ∧ (txt = t ∧ er = [] ∨ cat_error t txt ∧ er = [ReadFailed 0])) ∧
    (∃ s' r txt er, run (wc_main fuel []) s = Done None s' ∧ goes s s' r txt er ∧
      (txt = wc_report [] t ∧ er = [] ∨ txt = str "wc: read error" ++ nl ∧ er = [ReadFailed 0]))) ∧
  (∀ args, ∃ s', run (echo_main args) s = Done None s' ∧ goes s s' (rest s) (spaced args) []) ∧
  (∀ path, ∃ pre e, path = pre ++ e ∧ (pre = [] ∨ last pre = Some 47) ∧ (47 ∉ e) ∧ fmtname path = e ++ replicate (DIRSIZ - length e) 32).
Proof.
  intros Hg Hfu. split; [|split; [|split; [|exact fmtname_spec]]].
  - intros args Hne Hlen. destruct args as [|a args]; [done|]. split.
    + destruct (files_loop_spec fuel (str "cat: cannot open %s" ++ nl) _ _ _ (cat_spec fuel) (a :: args) s Hg Hlen) as (s' & r & txt & er & Hrun & Hp & G). by exists s', r, txt, er.
    + destruct (files_loop_spec fuel (str "wc: cannot open %s" ++ nl) _ _ _ (wc_spec fuel Hfu) (a :: args) s Hg Hlen) as (s' & r & txt & er & Hrun & Hp & G). by exists s', r, txt, er.
  - intros t Ht Hlen. split.
    + destruct (stdin_spec fuel (str "cat: cannot open %s" ++ nl) _ _ _ s t (cat_spec fuel) Hg Ht Hlen) as (s' & r & txt & er & Hrun & Hp & G). by exists s', r, txt, er.
    + destruct (stdin_spec fuel (str "wc: cannot open %s" ++ nl) _ _ _ s t (wc_spec fuel Hfu) Hg Ht Hlen) as (s' & r & txt & er & Hrun & Hp & G). by exists s', r, txt, er.
  - intros args. by apply echo_spec.
Qed.
End uprog_claim.

(** ** A process with one descriptor for files, 3, and reads of up to 5 bytes;
    descriptor 3 cannot be read if [us_bad] is set *)

Record usys := Usys { us_file : list Z → option (list Z); us_in : gmap Z (list Z); us_out : Z → list Z; us_failed : list failure; us_bad : bool }.
#[export] Instance usys_ops : Sys usys := {
  read fd n s := match us_in s !! fd, us_bad s && bool_decide (fd = 3) with
    | Some t, false => let bs := take (Nat.min n 5) t in
      Done (Z.of_nat (length bs), bs) (Usys (us_file s) (<[fd := drop (Nat.min n 5) t]> (us_in s)) (us_out s) (us_failed s) (us_bad s))
    | _, _ => Done (-1, []) (Usys (us_file s) (us_in s) (us_out s) (us_failed s ++ [ReadFailed fd]) (us_bad s))
    end;
  write fd bs s := Done (Z.of_nat (length bs)) (Usys (us_file s) (us_in s) (upd fd (us_out s fd ++ bs) (us_out s)) (us_failed s) (us_bad s));
  open path _ s := match us_in s !! 3, us_file s path with
    | None, Some t => Done 3 (Usys (us_file s) (<[3 := t]> (us_in s)) (us_out s) (us_failed s) (us_bad s))
    | _, _ => Done (-1) (Usys (us_file s) (us_in s) (us_out s) (us_failed s ++ [OpenFailed path]) (us_bad s))
    end;
  close fd s := Done 0 (Usys (us_file s) (delete fd (us_in s)) (us_out s) (us_failed s) (us_bad s));
  file := us_file;
  rest s fd := us_in s !! fd;
  out := us_out;
  good _ _ := True;
  failures := us_failed
}.
#[export] Instance usys_laws : SysLaws usys.
Proof.
  constructor; cbn [read write open close file rest out good failures usys_ops].
  - intros fd n s t -> Hn. destruct (us_bad s && bool_decide (fd = 3)).
    { eexists _, _, _. split; [reflexivity|]. split; [done|]. split; [done|]. left. split; [lia|done]. }
    eexists _, _, _. split; [reflexivity|]. split; [done|]. split; [done|]. right. split; [done|]. split; [done|]. rewrite length_take. split; [lia|]. split.
    + intros Ht. destruct t as [|x t]; [done|]. by destruct n as [|n]; [lia|].
    + eexists. split; [symmetry; apply take_drop|]. intros q. unfold upd. cbn [us_in]. case_decide; [subst; apply lookup_insert_eq|by apply lookup_insert_ne].
  - intros fd bs s. eexists _, _. split; [reflexivity|]. split; [done|]. split; [done|]. split; [done|]. split; [done|]. split; [done|]. intros q. by rewrite Nat2Z.id, firstn_all.
  - intros path s. destruct (us_in s !! 3) as [t3|] eqn:H3; [eexists _, _; split; [reflexivity|]; split; [done|]; split; [done|]; left; split; [lia|done]|].
    destruct (us_file s path) as [t|] eqn:Ht; eexists _, _; (split; [reflexivity|]); (split; [done|]); (split; [done|]); [right|left; split; [lia|done]].
    split; [done|]. split; [lia|]. split; [done|]. exists t. split; [done|]. intros q. unfold upd. cbn [us_in]. case_decide; [subst; apply lookup_insert_eq|by apply lookup_insert_ne].
  - intros fd s t _. eexists _, _. split; [reflexivity|]. split; [done|]. split; [done|]. split; [done|]. intros q. unfold upd. cbn [us_in]. case_decide; [subst; apply lookup_delete_eq|by apply lookup_delete_ne].
Qed.

Definition demo_text : list Z := str "one two" ++ nl ++ str " three" ++ nl.
Definition demo_usys (bad : bool) : usys := Usys (λ p, if decide (p = str "f") then Some demo_text else None) ∅ (λ _, []) [] bad.

(** A file is counted; and a file that can be opened but not read. *)
Lemma user_programs_correct_witness :
  (∃ s', run (wc_main 100 [str "f"]) (demo_usys false) = Done None s' ∧ out s' 1 = str "2 3 15 f" ++ nl) ∧
  ∃ s' er, run (cat_main 100 [str "f"]) (demo_usys true) = Done None s' ∧ failures s' = er ∧ er = [ReadFailed 3] ∧ out s' 1 = str "cat: read error" ++ nl.
Proof.
  assert (Hlen : ∀ b a t, a ∈ [str "f"] → file (demo_usys b) a = Some t → (length t < 100)%nat).
  { intros b a t _. cbn [file usys_ops us_file demo_usys]. case_decide; [|discriminate]. intros [= <-]. vm_compute. lia. }
  split.
  - assert (Hrun : (if run (wc_main 100 [str "f"]) (demo_usys false) is Done None s' then Some (out s' 1) else None) = Some (str "2 3 15 f" ++ nl)) by (vm_compute; reflexivity).
    destruct (user_programs_correct 100 (demo_usys false) ltac:(exact I) ltac:(lia)) as [Hfiles _].
    destruct (Hfiles [str "f"] ltac:(discriminate) (Hlen false)) as [_ (s' & r & txt & er & Hw & _ & _)].
    exists s'. rewrite Hw in Hrun. split; [exact Hw|]. by injection Hrun.
  - assert (Hrun : (if run (cat_main 100 [str "f"]) (demo_usys true) is Done None s' then Some (out s' 1, failures s') else None) = Some (str "cat: read error" ++ nl, [ReadFailed 3])) by (vm_compute; reflexivity).
    destruct (user_programs_correct 100 (demo_usys true) ltac:(exact I) ltac:(lia)) as [Hfiles _].
    destruct (Hfiles [str "f"] ltac:(discriminate) (Hlen true)) as [(s' & r & txt & er & Hc & [_ _ _ Hf] & _) _].
    exists s', er. rewrite Hc in Hrun. injection Hrun as Ho Hfl. split; [exact Hc|]. split; [exact Hf|]. split; [transitivity (failures s'); [symmetry; exact Hf|exact Hfl]|exact Ho].
Defined.
