(* ===== verification/Grep.v ===== *)
(** * grep (grep.c)

    The regular expression matcher and the line splitter. A string is the list
    of its bytes, without the NUL; the contents of the buffer may have NULs. *)

From S2P Require Import Prelude.

Definition newline : Z := 10.
Definition ch_dot : Z := 46.
Definition ch_star : Z := 42.
Definition ch_caret : Z := 94.
Definition ch_dollar : Z := 36.

(** ** The matcher *)

(** Search for c*re at beginning of text; [here] is [matchhere re]. *)
Fixpoint matchstar (here : list Z → bool) (c : Z) (text : list Z) : bool :=
  here text ||
  match text with
  | [] => false
  | x :: text => ((x =? c) || (c =? ch_dot))%Z && matchstar here c text
  end.

(** Search for re at beginning of text. *)
Fixpoint matchhere (re text : list Z) : bool :=
  match re with
  | [] => true
  | c :: re1 =>
    match re1 with
    | s :: re2 =>
      if (s =? ch_star)%Z then matchstar (matchhere re2) c text else
      match text with
      | x :: text => ((c =? ch_dot) || (c =? x))%Z && matchhere re1 text
      | [] => false
      end
    | [] =>
      if (c =? ch_dollar)%Z then bool_decide (text = []) else
      match text with
      | x :: text => ((c =? ch_dot) || (c =? x))%Z && matchhere re1 text
      | [] => false
      end
    end
  end.

(** The search at every position. *)
Fixpoint match_any (re text : list Z) : bool :=
  matchhere re text ||
  match text with
  | [] => false
  | _ :: text => match_any re text
  end.

Definition match_re (re text : list Z) : bool :=
  if (hd 0 re =? ch_caret)%Z then matchhere (tail re) text else match_any re text.

(** ** The lines of the buffer *)

(** [strchr(p, '\n')]: the bytes before the newline and those after it. *)
Fixpoint cut_line (p : list Z) : option (list Z * list Z) :=
  match p with
  | [] => None
  | x :: p =>
    if decide (x = 0%Z) then None else
    if decide (x = newline) then Some ([], p) else
    '(l, rest) ← cut_line p; Some (x :: l, rest)
  end.

(** The inner loop: what is written, and the rest of the buffer. Every round
    removes a line. *)
Fixpoint grep_lines (fuel : nat) (pattern p out : list Z) : list Z * list Z :=
  match fuel with
  | O => (out, p)
  | S fuel =>
    match cut_line p with
    | None => (out, p)
    | Some (l, rest) =>
      grep_lines fuel pattern rest (if match_re pattern l then out ++ l ++ [newline] else out)
    end
  end.

(** One round of the outer loop: [m] are the bytes kept in the buffer, [d] those
    that [read] returns. *)
Definition grep_round (pattern m d : list Z) : list Z * list Z :=
  let b := m ++ d in
  let '(out, p) := grep_lines (length b) pattern b [] in
  (out, if decide (length p = length b) then [] else p).

(** The loop, over the results of the reads up to end of file or an error. *)
Fixpoint grep (pattern m : list Z) (reads : list (list Z)) : list Z :=
  match reads with
  | [] => []
  | d :: reads =>
    let '(out, m) := grep_round pattern m d in
    out ++ grep pattern m reads
  end.

(** ** What a pattern means *)

Inductive item :=
| One (c : Z)            (* a character, or any with '.' *)
| Star (c : Z)           (* c* *)
| Eol.                   (* '$' at the end *)

Fixpoint parse (re : list Z) : list item :=
  match re with
  | [] => []
  | c :: re1 =>
    match re1 with
    | s :: re2 => if (s =? ch_star)%Z then Star c :: parse re2 else One c :: parse re1
    | [] => if (c =? ch_dollar)%Z then [Eol] else [One c]
    end
  end.

Definition char_ok (c x : Z) : Prop := c = ch_dot ∨ c = x.

(** A prefix of the text is in the language of the pattern. *)
Inductive prefix_of : list item → list Z → Prop :=
| po_nil t : prefix_of [] t
| po_one c re x t : char_ok c x → prefix_of re t → prefix_of (One c :: re) (x :: t)
| po_star c re u t : Forall (char_ok c) u → prefix_of re t → prefix_of (Star c :: re) (u ++ t)
| po_eol re : prefix_of (Eol :: re) [].

(** A line matches: at its beginning for a pattern with '^', else anywhere. *)
Definition line_matches (re text : list Z) : Prop :=
  if decide (hd 0%Z re = ch_caret) then prefix_of (parse (tail re)) text
  else ∃ u t, text = u ++ t ∧ prefix_of (parse re) t.

Lemma char_okb c x : ((c =? ch_dot) || (c =? x))%Z = true ↔ char_ok c x.
Proof. rewrite orb_true_iff, !Z.eqb_eq. done. Qed.

Lemma matchstar_spec here c re text : (∀ t, here t = true ↔ prefix_of re t) →
  matchstar here c text = true ↔ prefix_of (Star c :: re) text.
Proof.
  intros Hh. induction text as [|x text IH]; cbn [matchstar]; rewrite orb_true_iff, Hh.
  - split.
    + intros [Hp|]; [|done]. by apply (po_star c re []).
    + inversion 1 as [| |c' re' u t _ Hp|]; subst. left. by destruct u, t.
  - rewrite andb_true_iff, IH, orb_comm, (Z.eqb_sym x c), char_okb. split.
    + intros [Hp|[Hc Hs]]; [by apply (po_star c re [])|].
      inversion Hs as [| |c' re' u t Hu Hp Heq1 Heq2|]; subst. apply (po_star c re (x :: u)); [by constructor|done].
    + inversion 1 as [| |c' re' u t Hu Hp Heq1 Heq2|]; subst.
      destruct u as [|y u]; simpl in Heq2; subst; [by left|]. injection Heq2 as <- <-.
      inversion Hu; subst. right. split; [done|]. by constructor.
Qed.

Lemma one_spec c re text (IH : ∀ t, matchhere re t = true ↔ prefix_of (parse re) t) :
  match text with x :: t => ((c =? ch_dot) || (c =? x))%Z && matchhere re t | [] => false end = true ↔
  prefix_of (One c :: parse re) text.
Proof.
  destruct text as [|x t]; [by split; inversion 1|]. rewrite andb_true_iff, char_okb, IH. split.
  - intros [??]. by constructor.
  - by inversion 1.
Qed.

Lemma matchhere_spec re text : matchhere re text = true ↔ prefix_of (parse re) text.
Proof.
  revert text. induction re as [re IH] using (induction_ltof1 _ length); unfold ltof in IH. intros text.
  destruct re as [|c [|s re2]]; cbn [matchhere parse].
  - split; [intros _; constructor|done].
  - destruct (Z.eqb_spec c ch_dollar) as [->|Hc].
    + rewrite bool_decide_eq_true. split; [intros ->; constructor|by inversion 1].
    + apply (one_spec c []). intros t. split; [intros _; constructor|done].
  - destruct (s =? ch_star)%Z.
    + apply matchstar_spec. intros t. apply IH. simpl. lia.
    + apply (one_spec c (s :: re2)). intros t. apply IH. simpl. lia.
Qed.

(** The matcher accepts exactly the lines that the pattern describes. *)
Lemma match_spec re text : match_re re text = true ↔ line_matches re text.
Proof.
  unfold match_re, line_matches. destruct (Z.eqb_spec (hd 0%Z re) ch_caret) as [Hc|Hc].
  { rewrite decide_True by done. apply matchhere_spec. }
  rewrite decide_False by done. induction text as [|x text IH]; cbn [match_any]; rewrite orb_true_iff, matchhere_spec.
  - split; [intros [?|?]; [by exists [], []|done]|]. intros (u & t & Heq & Hp). left. by destruct u, t.
  - rewrite IH. split.
    + intros [Hp|(u & t & -> & Hp)]; [by exists [], (x :: text)|by exists (x :: u), t].
    + intros ([|y u] & t & Heq & Hp); simpl in Heq; subst; [by left|]. injection Heq as <- ->. right. by exists u, t.
Qed.

(** ** The output *)

(** The complete lines of a text, and the rest after the last newline. *)
Fixpoint split_lines (t : list Z) : list (list Z) * list Z :=
  match t with
  | [] => ([], [])
  | x :: t =>
    let '(ls, rest) := split_lines t in
    if decide (x = newline) then ([] :: ls, rest) else
    match ls with
    | [] => ([], x :: rest)
    | l :: ls => ((x :: l) :: ls, rest)
    end
  end.

Definition print_lines (ls : list (list Z)) : list Z := mjoin ((λ l, l ++ [newline]) <$> ls).
Definition matching (pattern t : list Z) : list (list Z) :=
  filter (λ l, match_re pattern l = true) (split_lines t).1.

Lemma cut_line_split p : 0%Z ∉ p →
  match cut_line p with
  | Some (l, rest) => p = l ++ newline :: rest ∧ newline ∉ l
  | None => newline ∉ p
  end.
Proof.
  induction p as [|x p IH]; intros Hz; cbn [cut_line]; [set_solver|].
  rewrite decide_False by set_solver. case_decide as Hx; [subst; split; set_solver|].
  specialize (IH ltac:(set_solver)). destruct (cut_line p) as [[l rest]|]; simpl; [|set_solver].
  destruct IH as [-> Hl]. split; [done|set_solver].
Qed.

Lemma split_lines_none t : newline ∉ t → split_lines t = ([], t).
Proof.
  induction t as [|x t IH]; intros Hn; [done|]. cbn [split_lines]. rewrite IH by set_solver.
  by rewrite decide_False by set_solver.
Qed.

Lemma split_lines_line l t : newline ∉ l →
  split_lines (l ++ newline :: t) = (l :: (split_lines t).1, (split_lines t).2).
Proof.
  induction l as [|x l IH]; intros Hn; cbn [app split_lines].
  - destruct (split_lines t). by rewrite decide_True.
  - rewrite IH by set_solver. by rewrite decide_False by set_solver.
Qed.

Lemma split_lines_app t1 t2 :
  split_lines (t1 ++ t2) =
    ((split_lines t1).1 ++ (split_lines ((split_lines t1).2 ++ t2)).1, (split_lines ((split_lines t1).2 ++ t2)).2).
Proof.
  induction t1 as [|x t1 IH]; cbn [app split_lines fst snd]; [by destruct (split_lines t2)|]. rewrite IH.
  destruct (split_lines t1) as [ls rest]; cbn [fst snd]. case_decide as Hx; [done|].
  destruct ls as [|l ls]; cbn [fst snd app split_lines]; [|done].
  destruct (split_lines (rest ++ t2)) as [[|? ?] ?]; by rewrite decide_False.
Qed.

Lemma split_lines_has t : newline ∈ t → (split_lines t).1 ≠ [].
Proof.
  induction t as [|x t IH]; [set_solver|]. intros [<-|Hin]%elem_of_cons; cbn [split_lines].
  - destruct (split_lines t). by rewrite decide_True.
  - specialize (IH Hin). destruct (split_lines t) as [[|l ls] rest]; [done|]. simpl. by case_decide.
Qed.

Lemma grep_lines_spec pattern p out fuel : length p ≤ fuel → 0%Z ∉ p →
  grep_lines fuel pattern p out = (out ++ print_lines (matching pattern p), (split_lines p).2).
Proof.
  revert p out. induction fuel as [|fuel IH]; intros p out Hf Hz; cbn [grep_lines].
  { destruct p; [|simpl in Hf; lia]. by rewrite app_nil_r. }
  pose proof (cut_line_split p Hz) as Hc. destruct (cut_line p) as [[l rest]|].
  - destruct Hc as [-> Hl]. rewrite length_app in Hf. simpl in Hf. rewrite IH by (lia || set_solver).
    unfold matching. rewrite (split_lines_line l rest) by done. simpl. rewrite filter_cons.
    destruct (match_re pattern l); simpl; [|done]. unfold print_lines. simpl. by rewrite <-!app_assoc.
  - unfold matching. rewrite (split_lines_none p) by done. simpl. by rewrite app_nil_r.
Qed.

Lemma split_lines_len t : length (split_lines t).2 ≤ length t.
Proof.
  induction t as [|x t IH]; simpl; [lia|]. destruct (split_lines t) as [[|l ls] rest]; case_decide; simpl in *; lia.
Qed.

Lemma split_lines_rest t : newline ∈ t → length (split_lines t).2 < length t.
Proof.
  induction t as [|x t IH]; [set_solver|]. pose proof (split_lines_len t) as Hle.
  intros [<-|Hin]%elem_of_cons; cbn [split_lines].
  - destruct (split_lines t) as [ls rest]. rewrite decide_True by done. simpl in *. lia.
  - pose proof (split_lines_has t Hin) as Hne. specialize (IH Hin).
    destruct (split_lines t) as [[|l ls] rest]; [done|]. simpl in *. case_decide; simpl; lia.
Qed.

Lemma grep_round_spec pattern m d : 0%Z ∉ m → 0%Z ∉ d → newline ∈ d →
  grep_round pattern m d = (print_lines (matching pattern (m ++ d)), (split_lines (m ++ d)).2).
Proof.
  intros Hm Hd Hn. unfold grep_round. rewrite grep_lines_spec by (lia || set_solver). rewrite decide_False; [done|].
  pose proof (split_lines_rest (m ++ d) ltac:(set_solver)). lia.
Qed.

Lemma split_lines_nonul t : 0%Z ∉ t → 0%Z ∉ (split_lines t).2.
Proof.
  induction t as [|x t IH]; intros Hz; [done|]. cbn [split_lines]. specialize (IH ltac:(set_solver)).
  destruct (split_lines t) as [[|l ls] rest]; case_decide; simpl in *; set_solver.
Qed.

Lemma print_lines_app l1 l2 : print_lines (l1 ++ l2) = print_lines l1 ++ print_lines l2.
Proof. unfold print_lines. by rewrite fmap_app, join_app. Qed.

Lemma matching_rest pattern m : (split_lines m).1 = [] → matching pattern m = [].
Proof. unfold matching. by intros ->. Qed.

Lemma split_rest t : (split_lines (split_lines t).2).1 = [].
Proof.
  induction t as [|x t IH]; [done|]. cbn [split_lines].
  destruct (split_lines t) as [[|l ls] rest]; simpl in *; [|by case_decide].
  case_decide as Hx; [done|]. cbn [snd split_lines]. destruct (split_lines rest) as [ls' r']. simpl in *. subst.
  by rewrite decide_False.
Qed.

Lemma split_rest_id m : (split_lines m).1 = [] → (split_lines m).2 = m.
Proof.
  intros Hm. assert (Hn : newline ∉ m) by (intros Hin; by apply split_lines_has in Hin).
  by rewrite split_lines_none.
Qed.

Lemma grep_whole_lines pattern reads m : Forall (λ d, (0%Z ∉ d) ∧ newline ∈ d) reads → 0%Z ∉ m → (split_lines m).1 = [] →
  grep pattern m reads = print_lines (matching pattern (m ++ mjoin reads)).
Proof.
  revert m. induction reads as [|d reads IH]; intros m Hall Hm Hs; simpl.
  - rewrite app_nil_r. by rewrite matching_rest.
  - inversion Hall as [|? ? [Hz Hn] Hall']; subst. rewrite grep_round_spec by done. rewrite IH; [..|done| |].
    + rewrite app_assoc. unfold matching. rewrite (split_lines_app (m ++ d)). simpl.
      by rewrite filter_app, print_lines_app.
    + apply split_lines_nonul. set_solver.
    + apply split_rest.
Qed.

Lemma grep_partial pattern c reads : 0%Z ∉ c → newline ∉ c → grep pattern [] (c :: reads) = grep pattern [] reads.
Proof.
  intros Hz Hn. cbn [grep]. unfold grep_round at 1. simpl app. rewrite grep_lines_spec by (lia || done).
  unfold matching. rewrite split_lines_none by done. simpl. by rewrite decide_True.
Qed.

(** C34. The matcher of grep accepts exactly the lines that the pattern
    describes, for the documented operators: a prefix of the line for a pattern
    that begins with '^', of any suffix of it otherwise. grep prints the matching
    lines, complete and in order, whatever the sizes of the reads are, if every
    read brings the end of a line and there are no NULs (a line without a newline
    at its end is not searched). A read that brings no end of line, as from a
    pipe or a terminal, is lost: the rest of the input is searched as if the line
    began after it. *)
Theorem grep_correct pattern reads c :
  Forall (λ d, (0%Z ∉ d) ∧ newline ∈ d) reads → 0%Z ∉ c → newline ∉ c →
  (∀ text, match_re pattern text = true ↔ line_matches pattern text) ∧
  grep pattern [] reads = print_lines (matching pattern (mjoin reads)) ∧
  grep pattern [] (c :: reads) = print_lines (matching pattern (mjoin reads)).
Proof.
  intros Hr Hz Hn. rewrite (grep_partial pattern c reads Hz Hn).
  rewrite (grep_whole_lines pattern reads []) by (done || set_solver). split; [apply match_spec|done].
Qed.

(** "ab" LF "c" and "d" LF for the pattern "d$"; the line "cd" in two pieces for
    the pattern "cd". *)
Lemma grep_correct_witness :
  grep [100; 36]%Z [] [[97; 98; 10; 99]; [100; 10]]%Z = [99; 100; 10]%Z ∧
  match_re [99; 100]%Z [99; 100]%Z = true ∧ grep [99; 100]%Z [] [[99]; [100; 10]]%Z = [].
Proof.
  split_and!; [|reflexivity|].
  - rewrite (proj1 (proj2 (grep_correct [100; 36]%Z [[97; 98; 10; 99]; [100; 10]]%Z []
      ltac:(repeat constructor; set_solver) ltac:(set_solver) ltac:(set_solver)))). reflexivity.
  - rewrite (proj2 (proj2 (grep_correct [99; 100]%Z [[100; 10]]%Z [99]%Z
      ltac:(repeat constructor; set_solver) ltac:(set_solver) ltac:(set_solver)))). reflexivity.
Defined.
