(* ===== verification/Umalloc.v ===== *)
(** * The user memory allocator (umalloc.c)

    The headers of the blocks are a map from their addresses; [h_sz] is the size
    of the process, which [sbrk] returns. A pointer moves by 8 bytes, the size
    of a [Header], for each unit. *)

From S2P Require Import Prelude Params Spinlock Kalloc.

(** ** The code *)

Record heap := Heap {
  h_hdr : gmap Z (Z * Z);        (* s.ptr and s.size *)
  h_freep : Z;
  h_sz : Z
}.

Definition HEADER : Z := 8.
Definition hdr (h : heap) (a : Z) : Z * Z := default (0, 0)%Z (h_hdr h !! a).
Definition ptr_of (a : Z) : M heap Z := λ h, Done (hdr h a).1 h.
Definition size_of (a : Z) : M heap Z := λ h, Done (hdr h a).2 h.
Definition set_ptr (a v : Z) : M heap unit :=
  mmodify (λ h, Heap (<[a := (v, (hdr h a).2)]> (h_hdr h)) (h_freep h) (h_sz h)).
Definition set_size (a v : Z) : M heap unit :=
  mmodify (λ h, Heap (<[a := ((hdr h a).1, v)]> (h_hdr h)) (h_freep h) (h_sz h)).
Definition get_freep : M heap Z := λ h, Done (h_freep h) h.
Definition set_freep (v : Z) : M heap unit := mmodify (λ h, Heap (h_hdr h) v (h_sz h)).
Definition step_units (a n : Z) : Z := u32 (a + HEADER * n).

Section umalloc.
Variable base : Z.                            (* address of the static header *)
Variable has_memory : Z → Z → bool.           (* the kernel can grow the process *)

(** The system call, as [sys_sbrk], [growproc], [allocuvm] and [deallocuvm]
    change the size. *)
Definition sbrk (n : Z) : M heap Z := λ h,
  let n := s32 n in
  let sz := h_sz h in
  let new := u32 (sz + n) in
  let resize v := Heap (h_hdr h) (h_freep h) v in
  if decide (0 < n)%Z then
    if decide (KERNBASE ≤ new)%Z then Done 0xffffffff%Z h else
    if decide (new < sz)%Z then Done sz h else
    if has_memory sz new then Done sz (resize new) else Done 0xffffffff%Z h
  else if decide (n < 0)%Z then
    if decide (sz ≤ new)%Z then Done sz h else
    if decide (new = 0%Z) then Done 0xffffffff%Z h else Done sz (resize new)
  else Done sz h.

(** The loop of [free]: the block after which [bp] goes. *)
Fixpoint free_find (fuel : nat) (bp p : Z) : M heap Z :=
  match fuel with
  | O => λ _, Diverge
  | S fuel =>
    q ← ptr_of p;
    if decide ((p < bp ∧ bp < q) ∨ (q ≤ p ∧ (p < bp ∨ bp < q)))%Z then mret p
    else free_find fuel bp q
  end.

(** The list has no more blocks than there are headers. *)
Definition ring_fuel (h : heap) : nat := S (S (size (h_hdr h))).

(** Let [a] be followed by [c], as one block if they touch. *)
Definition join (a c : Z) : M heap unit :=
  n ← size_of a;
  if decide (step_units a n = c) then
    m ← size_of c;
    set_size a (u32 (n + m));;
    r ← ptr_of c;
    set_ptr a r
  else set_ptr a c.

Definition free (ap : Z) : M heap unit :=
  let bp := u32 (ap - HEADER) in
  h ← mget;
  p ← free_find (ring_fuel h) bp (h_freep h);
  q ← ptr_of p;
  join bp q;;
  join p bp;;
  set_freep p.

Definition morecore (nu : Z) : M heap Z :=
  let nu := if decide (nu < 4096)%Z then 4096%Z else nu in
  p ← sbrk (u32 (nu * HEADER));
  if decide (p = 0xffffffff%Z) then mret 0%Z else
  set_size p nu;;
  free (u32 (p + HEADER));;
  get_freep.

(** A block is found at [p]: take it, or its tail. *)
Definition take_block (prevp p nunits : Z) : M heap Z :=
  n ← size_of p;
  r ← (if decide (n = nunits) then
         q ← ptr_of p;
         set_ptr prevp q;;
         mret p
       else
         set_size p (u32 (n - nunits));;
         let t := step_units p (u32 (n - nunits)) in
         set_size t nunits;;
         mret t);
  set_freep prevp;;
  mret (u32 (r + HEADER)).

Fixpoint malloc_loop (fuel : nat) (nunits prevp p : Z) : M heap Z :=
  match fuel with
  | O => λ _, Diverge
  | S fuel =>
    n ← size_of p;
    if decide (nunits ≤ n)%Z then take_block prevp p nunits else
    fp ← get_freep;
    if decide (p = fp) then
      p ← morecore nunits;
      if decide (p = 0%Z) then mret 0%Z else
      q ← ptr_of p;
      malloc_loop fuel nunits p q
    else
      q ← ptr_of p;
      malloc_loop fuel nunits p q
  end.

(** The list is walked at most twice. *)
Definition malloc_fuel (h : heap) : nat := 2 * size (h_hdr h) + 8.
Definition units (nbytes : Z) : Z := u32 (u32 (nbytes + HEADER - 1) / HEADER + 1).

Definition malloc (nbytes : Z) : M heap Z :=
  let nunits := units nbytes in
  fp ← get_freep;
  (if decide (fp = 0%Z) then
    set_freep base;;
    set_ptr base base;;
    set_size base 0
  else mret tt);;
  prevp ← get_freep;
  p ← ptr_of prevp;
  h ← mget;
  malloc_loop (malloc_fuel h) nunits prevp p.

End umalloc.

(** ** Blocks *)

Abbreviation blk := (Z * Z)%type.       (* address of the header and units *)
Definition bend (x : blk) : Z := (x.1 + HEADER * x.2)%Z.
Definition disj (x y : blk) : Prop := (bend x ≤ y.1 ∨ bend y ≤ x.1)%Z.

(** The blocks are pairwise disjoint. *)
Fixpoint pw (l : list blk) : Prop :=
  match l with
  | [] => True
  | x :: l => Forall (disj x) l ∧ pw l
  end.

#[export] Instance disj_sym : Symmetric disj.
Proof. intros x y. unfold disj. tauto. Qed.

#[export] Instance pw_perm : Proper ((≡ₚ) ==> iff) pw.
Proof.
  assert (Hone : ∀ l l', l ≡ₚ l' → pw l → pw l').
  { induction 1 as [|x l l' Hl IH|x y l|l1 l2 l3 _ IH1 _ IH2]; simpl; [done|..|tauto].
    - intros [Hf Hp]. split; [by rewrite <-Hl|auto].
    - rewrite !Forall_cons. intros ([Hd Hx] & Hy & Hl). by split_and!; [symmetry|..]. }
  intros l l' Hl. split; apply Hone; [done|by symmetry].
Qed.

Lemma pw_merge a n m l : (0 ≤ n)%Z → (0 ≤ m)%Z → Forall (λ y, 1 ≤ y.2)%Z l →
  pw ((a, n) :: (a + HEADER * n, m)%Z :: l) → pw ((a, n + m)%Z :: l).
Proof.
  intros Hn Hm Hl ([_ H1]%Forall_cons & H2 & H3). split; [|done]. rewrite Forall_forall in *. intros y Hy.
  specialize (H1 y Hy). specialize (H2 y Hy). specialize (Hl y Hy). unfold disj, bend, HEADER in *. simpl in *. lia.
Qed.

Lemma pw_split a n m l : (0 ≤ n)%Z → (0 ≤ m)%Z → pw ((a, n + m)%Z :: l) →
  pw ((a, n) :: (a + HEADER * n, m)%Z :: l).
Proof.
  intros Hn Hm [Hp Hl]. simpl. rewrite Forall_cons, !Forall_forall in *. split_and!; [|..|done].
  1: unfold disj, bend; simpl; lia.
  all: intros y Hy; specialize (Hp y Hy); unfold disj, bend, HEADER in *; simpl in *; lia.
Qed.

Lemma pw_elem x l y : pw (x :: l) → y ∈ l → disj x y.
Proof. intros [Hf _] Hy. rewrite Forall_forall in Hf. auto. Qed.

(** ** The circular list *)

Definition hdaddr (l : list blk) (e : Z) : Z := match l with [] => e | x :: _ => x.1 end.

(** The headers of [l] are linked, and the last one points to [e]. *)
Fixpoint chain (g : gmap Z (Z * Z)) (l : list blk) (e : Z) : Prop :=
  match l with
  | [] => True
  | x :: l => g !! x.1 = Some (hdaddr l e, x.2) ∧ chain g l e
  end.

Lemma hdaddr_app l1 l2 e : hdaddr (l1 ++ l2) e = hdaddr l1 (hdaddr l2 e).
Proof. by destruct l1. Qed.

Lemma chain_app g l1 l2 e : chain g (l1 ++ l2) e ↔ chain g l1 (hdaddr l2 e) ∧ chain g l2 e.
Proof. induction l1 as [|x l1 IH]; simpl; [tauto|]. rewrite IH, hdaddr_app. tauto. Qed.

Lemma list_chain_insert g l e a v : a ∉ l.*1 → chain (<[a := v]> g) l e ↔ chain g l e.
Proof.
  induction l as [|x l IH]; simpl; [done|]. intros Hn. rewrite IH by set_solver.
  rewrite lookup_insert_ne by set_solver. done.
Qed.

(** Neighbours do not touch. *)
Definition before (x y : blk) : Prop := (bend x < y.1)%Z.
Fixpoint sorted (l : list blk) : Prop :=
  match l with
  | [] => True
  | x :: l => match l with [] => True | y :: _ => before x y end ∧ sorted l
  end.

Lemma sorted_app l1 x l2 : sorted (l1 ++ x :: l2) ↔ sorted (l1 ++ [x]) ∧ sorted (x :: l2).
Proof.
  induction l1 as [|y l1 IH]; simpl app.
  - simpl. tauto.
  - cbn [sorted]. cbn [sorted] in IH. rewrite IH. destruct l1; simpl; tauto.
Qed.

Lemma sorted_snoc l x y : x.1 = y.1 → sorted (l ++ [x]) → sorted (l ++ [y]).
Proof.
  intros Heq. induction l as [|z l IH]; simpl; [done|]. intros [Hz Hl]. split; [|auto].
  destruct l as [|w l]; simpl in *; unfold before in *; by rewrite <-?Heq.
Qed.

Lemma sorted_lt x l y : Forall (λ z, 0 ≤ z.2)%Z (x :: l) → sorted (x :: l) → y ∈ l → (bend x < y.1)%Z.
Proof.
  revert x. induction l as [|z l IH]; intros x Hs Hsort Hy; [set_solver|].
  destruct Hsort as [Hxz Hsort]. apply elem_of_cons in Hy as [->|Hy]; [done|].
  inversion Hs as [|? ? Hx Hs']; subst. specialize (IH z Hs' Hsort Hy). inversion Hs'; subst.
  unfold before, bend, HEADER in *. lia.
Qed.

Lemma sorted_nodup l : Forall (λ z, 0 ≤ z.2)%Z l → sorted l → NoDup l.*1.
Proof.
  induction l as [|x l IH]; intros Hs Hsort; simpl; [constructor|]. constructor.
  - intros (y & Heq & Hy)%list_elem_of_fmap. pose proof (sorted_lt x l y Hs Hsort Hy) as Hlt.
    inversion Hs; subst. unfold bend, HEADER in Hlt. lia.
  - inversion Hs; subst. apply IH; [done|]. by destruct Hsort.
Qed.

(** A block in front of a list, joined with the first of it if they touch. *)
Definition join_list (x : blk) (l : list blk) : list blk :=
  match l with
  | y :: l' => if decide (bend x = y.1) then (x.1, x.2 + y.2)%Z :: l' else x :: l
  | [] => [x]
  end.

Lemma join_list_addr x l e : hdaddr (join_list x l) e = x.1.
Proof. destruct l as [|y l]; simpl; [done|]. by case_decide. Qed.

Lemma join_list_subset x l : (join_list x l).*1 ⊆ x.1 :: l.*1.
Proof. destruct l as [|y l]; simpl; [set_solver|]. case_decide; set_solver. Qed.

Lemma join_list_length x l : length (join_list x l) ≤ S (length l).
Proof. destruct l as [|y l]; simpl; [lia|]. case_decide; simpl; lia. Qed.

Lemma join_list_head x l : Forall (λ y, 0 ≤ y.2)%Z l → ∃ n l', join_list x l = (x.1, n) :: l' ∧ (x.2 ≤ n)%Z.
Proof.
  destruct x as [a n], l as [|y l]; simpl; [intros _; exists n, []; by split|]. intros Hf. inversion Hf; subst.
  case_decide; [exists (n + y.2)%Z, l|exists n, (y :: l)]; split; (done || simpl; lia).
Qed.

Lemma join_list_pred (P : blk → Prop) x l : Forall P (x :: l) →
  (∀ y, P x → P y → bend x = y.1 → P (x.1, x.2 + y.2)%Z) → Forall P (join_list x l).
Proof.
  intros [Hx Hl]%Forall_cons Hj. destruct l as [|y l]; simpl; [by constructor|].
  inversion Hl; subst. case_decide; constructor; auto.
Qed.

Lemma join_list_big x l k : (0 ≤ x.2)%Z → (∃ y, y ∈ l ∧ (k ≤ y.2)%Z) → ∃ y, y ∈ join_list x l ∧ (k ≤ y.2)%Z.
Proof.
  intros Hx (y & Hy & Hk). destruct l as [|z l]; simpl; [set_solver|]. case_decide as Hd.
  - apply elem_of_cons in Hy as [->|Hy]; [|exists y; set_solver].
    exists (x.1, x.2 + z.2)%Z. split; [set_solver|simpl; lia].
  - exists y. set_solver.
Qed.

Lemma sorted_join x l : sorted l → match l with y :: _ => (bend x ≤ y.1)%Z | [] => True end → sorted (join_list x l).
Proof.
  destruct l as [|y l]; simpl; [done|]. intros [Hy Hl] Hxy. case_decide as Heq; simpl.
  - split; [|done]. destruct l as [|z l]; [done|]. unfold before, bend, HEADER in *. simpl. lia.
  - split; [|done]. unfold before. lia.
Qed.

Lemma pw_join x l R : (0 ≤ x.2)%Z → Forall (λ y, 1 ≤ y.2)%Z (l ++ R) → pw (x :: l ++ R) → pw (join_list x l ++ R).
Proof.
  intros Hx Hpos Hp. destruct x as [a n], l as [|[c k] l]; simpl in *; [done|]. case_decide as Heq; [|done].
  inversion Hpos as [|? ? Hk Hpos']; subst. simpl in Hk. apply pw_merge; [lia|lia|done|].
  exact Hp.
Qed.

Section heap_proofs.
Variable base : Z.
Variable has_memory : Z → Z → bool.

(** A block of the heap, above the static header. *)
Definition in_heap (sz : Z) (x : blk) : Prop := (base + HEADER ≤ x.1 ∧ 1 ≤ x.2 ∧ bend x ≤ sz)%Z.

(** [bs] are the free blocks after the static header, [A] the blocks handed out. *)
Record heap_ok (h : heap) (bs A : list blk) : Prop := {
  ho_chain : chain (h_hdr h) ((base, 0)%Z :: bs) base;
  ho_sorted : sorted ((base, 0)%Z :: bs);
  ho_freep : h_freep h ∈ ((base, 0)%Z :: bs).*1;
  ho_pw : pw (bs ++ A);
  ho_in : Forall (in_heap (h_sz h)) (bs ++ A);
  ho_size : Forall (λ x, (hdr h x.1).2 = x.2) A;
  ho_base : (0 < base ∧ base + HEADER ≤ h_sz h ≤ KERNBASE)%Z
}.

(** ** free *)

Lemma hdr_insert g f z a v c : hdr (Heap (<[a := v]> g) f z) c = if decide (a = c) then v else hdr (Heap g f z) c.
Proof. unfold hdr. simpl. rewrite lookup_insert. by case_decide. Qed.

Lemma find_left h b p m u post : (p < b)%Z → Forall (λ z, 0 ≤ z.2)%Z (u ++ (p, m) :: post) →
  sorted (u ++ (p, m) :: post) → chain (h_hdr h) (u ++ (p, m) :: post) base → (base ≤ p)%Z →
  (∀ y, y ∈ post → b < y.1)%Z → ∀ fuel, length u < fuel →
  free_find fuel b (hdaddr (u ++ [(p, m)]) base) h = Done p h.
Proof.
  intros Hp Hsz Hs Hc Hbase Hpost. induction u as [|x u IH]; intros [|fuel] Hf; try (simpl in Hf; lia); cbn [free_find].
  - simpl in *. destruct Hc as [Hc _]. unfold ptr_of, hdr. unfold mbind, M_bind. rewrite Hc. simpl.
    rewrite decide_True; [done|]. destruct post as [|y post]; simpl; [lia|]. specialize (Hpost y ltac:(set_solver)). lia.
  - simpl in Hc, Hs, Hf. destruct Hc as [Hx Hc]. unfold ptr_of, hdr. unfold mbind, M_bind. simpl. rewrite Hx. simpl.
    assert (Hy : hdaddr (u ++ (p, m) :: post) base = hdaddr (u ++ [(p, m)]) base) by (by destruct u). rewrite Hy.
    inversion Hsz as [|? ? Hx2 Hsz']; subst. destruct Hs as [Hb Hs]. rewrite decide_False.
    { apply IH; [done..|lia]. }
    assert (Hxy : (x.1 < hdaddr (u ++ [(p, m)]) base)%Z ∧ (hdaddr (u ++ [(p, m)]) base ≤ p)%Z); [|lia].
    unfold before, bend, HEADER in *. destruct u as [|y u]; simpl in *; [lia|]. split; [lia|].
    pose proof (sorted_lt y (u ++ (p, m) :: post) (p, m) Hsz' Hs ltac:(set_solver)) as Hlt.
    inversion Hsz'; subst. unfold bend, HEADER in Hlt. simpl in Hlt. lia.
Qed.

Lemma find_right h b v : (base < b)%Z → Forall (λ z, 0 ≤ z.2)%Z v → sorted v → chain (h_hdr h) v base →
  (∀ y, y ∈ v → b < y.1)%Z → v ≠ [] → ∀ fuel,
  free_find (length v + fuel) b (hdaddr v base) h = free_find fuel b base h.
Proof.
  intros Hb. induction v as [|x v IH]; intros Hsz Hs Hc Hv Hne fuel; [done|]. simpl in *. destruct Hc as [Hx Hc].
  unfold mbind, M_bind, ptr_of at 1, hdr. rewrite Hx. simpl. inversion Hsz as [|? ? Hx2 Hsz']; subst.
  pose proof (Hv x ltac:(set_solver)). destruct Hs as [Hbf Hs]. rewrite decide_False.
  - destruct v as [|y v]; [done|]. apply IH; [done..| |done]. set_solver.
  - destruct v as [|y v]; simpl; [lia|]. unfold before, bend, HEADER in Hbf. pose proof (Hv y ltac:(set_solver)). lia.
Qed.

Lemma pred_exists fl b : Forall (λ z, 0 ≤ z.2)%Z fl → sorted fl → b ∉ fl.*1 → (hdaddr fl b < b)%Z →
  ∃ pre p m post, fl = pre ++ (p, m) :: post ∧ (∀ y, y ∈ pre ++ [(p, m)] → y.1 < b)%Z ∧ (∀ y, y ∈ post → b < y.1)%Z.
Proof.
  induction fl as [|[a n] fl IH]; intros Hsz Hs Hn Hb; [simpl in Hb; lia|]. simpl in Hb.
  inversion Hsz as [|? ? Ha Hsz']; subst. destruct (decide (hdaddr fl b < b)%Z) as [Hlt|Hge].
  - destruct IH as (pre & p & m & post & -> & Hpre & Hpost); [done|by destruct Hs|set_solver|done|].
    exists ((a, n) :: pre), p, m, post. split_and!; [done| |done]. set_solver.
  - exists [], a, n, fl. split_and!; [done|set_solver|]. intros y Hy. destruct fl as [|z fl]; [set_solver|].
    simpl in Hge, Hn. apply elem_of_cons in Hy as [->|Hy]; [set_solver by lia|].
    destruct Hs as [_ Hs]. pose proof (sorted_lt z fl y Hsz' Hs Hy) as Hlt.
    inversion Hsz'; subst. unfold bend, HEADER in Hlt. lia.
Qed.

(** The header of [a] after [join a c]. *)
Definition joined (h : heap) (a c : Z) : Z * Z :=
  if decide (step_units a (hdr h a).2 = c) then ((hdr h c).1, u32 ((hdr h a).2 + (hdr h c).2)) else (c, (hdr h a).2).
Definition join_heap (h : heap) (a c : Z) : heap := Heap (<[a := joined h a c]> (h_hdr h)) (h_freep h) (h_sz h).

Lemma join_run h a c : a ≠ c → join a c h = Done tt (join_heap h a c).
Proof.
  intros Hac. unfold join, join_heap, joined. destruct h as [g f z].
  rewrite (run_bind _ _ _ (hdr (Heap g f z) a).2 (Heap g f z)) by done. destruct (decide (step_units a _ = c)); [|done].
  unfold mbind, M_bind, ptr_of, size_of, set_ptr, set_size, mmodify. cbn [h_hdr h_freep h_sz].
  by rewrite !hdr_insert, decide_False, decide_True, insert_insert_eq by done.
Qed.

Lemma free_run h b p : is_u32 b → free_find (ring_fuel h) b (h_freep h) h = Done p h → p ≠ b → (hdr h p).1 ≠ b →
  free (u32 (b + HEADER)) h =
    let h' := join_heap (join_heap h b (hdr h p).1) p b in Done tt (Heap (h_hdr h') p (h_sz h')).
Proof.
  intros Hb Hfind Hpb Hqb. unfold free.
  replace (u32 (u32 (b + HEADER) - HEADER)) with b
    by (rewrite u32_sub_l; replace (b + HEADER - HEADER)%Z with b by lia; by rewrite u32_small).
  rewrite (run_bind _ _ _ h h) by done. rewrite (run_bind _ _ _ _ _ Hfind).
  rewrite (run_bind _ _ _ (hdr h p).1 h) by done. rewrite (run_bind _ _ _ _ _ (join_run h _ _ (not_eq_sym Hqb))).
  by rewrite (run_bind _ _ _ _ _ (join_run _ _ _ Hpb)).
Qed.

Lemma join_chain h a n l : chain (h_hdr h) l base → (hdr h a).2 = n → a ∉ l.*1 → (l = [] → base < a)%Z →
  (0 ≤ a)%Z → (0 ≤ n)%Z → Forall (λ y, 0 ≤ y.2 ∧ bend y < 2 ^ 32)%Z ((a, n) :: l) →
  chain (h_hdr (join_heap h a (hdaddr l base))) (join_list (a, n) l) base.
Proof.
  intros Hc Hn Ha Hl Ha0 Hn0 [Hb Hf]%Forall_cons. simpl in Hb. unfold bend, HEADER in Hb. simpl in Hb.
  unfold join_heap, joined. rewrite Hn. unfold step_units. rewrite u32_small by (unfold is_u32, HEADER; lia). simpl.
  destruct l as [|y l]; simpl.
  - rewrite decide_False by (specialize (Hl eq_refl); unfold HEADER; lia). simpl. by rewrite lookup_insert_eq.
  - simpl in Ha. destruct Hc as [Hy Hc]. inversion Hf as [|? ? [Hy0 Hyb] _]; subst. unfold bend, HEADER in Hyb.
    unfold bend. simpl. destruct (decide (a + HEADER * (hdr h a).2 = y.1)%Z) as [Ht|Ht]; simpl;
      rewrite lookup_insert_eq, !list_chain_insert by set_solver.
    + split; [|done]. assert (Hhy : hdr h y.1 = (hdaddr l base, y.2)) by (unfold hdr; by rewrite Hy).
      rewrite Hhy. simpl. rewrite u32_small; [done|]. unfold is_u32, HEADER in *. lia.
    + split; [done|]. rewrite lookup_insert_ne by set_solver. done.
Qed.

Lemma chain_dom g l e : chain g l e → ∀ a, a ∈ l.*1 → a ∈ dom g.
Proof.
  induction l as [|x l IH]; simpl; [set_solver|]. intros [Hx Hc] a [->|Ha]%elem_of_cons; [|by auto].
  apply elem_of_dom. by eexists.
Qed.

Lemma heap_sizes h bs A : heap_ok h bs A → Forall (λ y, 1 ≤ y.2)%Z (bs ++ A) ∧ Forall (λ z, 0 ≤ z.2)%Z ((base, 0)%Z :: bs).
Proof.
  intros Hok. pose proof (ho_in _ _ _ Hok) as Hin. split.
  - eapply Forall_impl; [exact Hin|]. unfold in_heap. lia.
  - constructor; [simpl; lia|]. apply Forall_app in Hin as [Hin _]. eapply Forall_impl; [exact Hin|]. unfold in_heap. lia.
Qed.

Lemma ring_length h bs A : heap_ok h bs A → length ((base, 0)%Z :: bs) ≤ size (h_hdr h).
Proof.
  intros Hok. pose proof (heap_sizes _ _ _ Hok) as [_ Hsz].
  pose proof (sorted_nodup _ Hsz (ho_sorted _ _ _ Hok)) as Hnd.
  rewrite <-size_dom, <-(length_fmap fst), <-(size_list_to_set (C := gset Z)) by done. apply subseteq_size.
  intros a Ha%elem_of_list_to_set. by eapply chain_dom; [apply (ho_chain _ _ _ Hok)|].
Qed.

Lemma pw_fresh x l : pw (x :: l) → (1 ≤ x.2)%Z → Forall (λ y, 1 ≤ y.2)%Z l → x.1 ∉ l.*1.
Proof.
  intros [Hd _] Hx Hl (y & Heq & Hy)%list_elem_of_fmap. rewrite Forall_forall in Hd, Hl.
  specialize (Hd y Hy). specialize (Hl y Hy). unfold disj, bend, HEADER in Hd. simpl in Hl. lia.
Qed.

Lemma ring_not_alloc h bs A a x : heap_ok h bs A → a ∈ ((base, 0)%Z :: bs).*1 → x ∈ A → a ≠ x.1.
Proof.
  intros Hok Ha Hx Heq. pose proof (heap_sizes _ _ _ Hok) as [Hpos _]. pose proof Hok as [_ _ _ Hpw Hin _ _].
  rewrite Forall_forall in Hin. destruct (Hin x ltac:(set_solver)) as [Hb _]. unfold HEADER in Hb.
  apply list_elem_of_fmap in Ha as (y & -> & [->|Hy]%elem_of_cons); [simpl in Heq; lia|].
  apply list_elem_of_split in Hx as (A1 & A2 & ->). apply (pw_fresh x (bs ++ A1 ++ A2)).
  - eapply pw_perm; [|exact Hpw]. solve_Permutation.
  - rewrite Forall_forall in Hpos. apply Hpos. set_solver.
  - rewrite Forall_forall in *. intros z Hz. apply Hpos. set_solver.
  - rewrite <-Heq, fmap_app. set_solver.
Qed.

(** The loop of [free] finds the free block before [b]. *)
Lemma find_spec h bs b n A : heap_ok h bs ((b, n) :: A) → ∃ pre p m post,
  (base, 0)%Z :: bs = pre ++ (p, m) :: post ∧ (∀ y, y ∈ pre ++ [(p, m)] → y.1 < b)%Z ∧ (∀ y, y ∈ post → b < y.1)%Z ∧
  free_find (ring_fuel h) b (h_freep h) h = Done p h.
Proof.
  intros Hok. pose proof (heap_sizes _ _ _ Hok) as [Hpos Hsz]. pose proof (ring_length _ _ _ Hok) as Hlen.
  pose proof Hok as [Hc Hs Hfp Hpw Hin _ _]. assert (Hp2 : pw ((b, n) :: bs ++ A)) by (by rewrite <-Permutation_middle in Hpw).
  assert (Hb : (base < b)%Z ∧ (1 ≤ n)%Z).
  { apply Forall_app in Hin as [_ Hin]. inversion Hin; subst. unfold in_heap, HEADER in *. simpl in *. lia. }
  assert (Hfresh : b ∉ ((base, 0)%Z :: bs).*1).
  { simpl. intros [->|Hb']%elem_of_cons; [lia|]. apply (pw_fresh (b, n) (bs ++ A) Hp2); [simpl; lia| |set_solver].
    apply Forall_app. apply Forall_app in Hpos as [? Hpa]. inversion Hpa; subst. done. }
  destruct (pred_exists ((base, 0)%Z :: bs) b Hsz Hs Hfresh ltac:(simpl; lia)) as (pre & p & m & post & Heq & Hpre & Hpost).
  exists pre, p, m, post. split_and!; [done..|]. rewrite Heq in Hc, Hs, Hsz, Hfp, Hlen.
  assert (Hbp : (base ≤ p)%Z).
  { destruct pre as [|x pre]; simpl in Heq; inversion Heq as [[Hx Hbs]]; [lia|]. simpl in Hs, Hsz.
    pose proof (sorted_lt x _ (p, m) Hsz Hs ltac:(set_solver)) as Hlt. subst x. unfold bend, HEADER in Hlt. simpl in Hlt. lia. }
  assert (Hpb : (p < b)%Z) by (apply (Hpre (p, m)); set_solver). rewrite length_app in Hlen. simpl in Hlen.
  assert (Hleft : ∀ u w fuel, pre = w ++ u → length u < fuel →
    free_find fuel b (hdaddr (u ++ [(p, m)]) base) h = Done p h).
  { intros u w fuel -> Hf. rewrite <-app_assoc in Hc, Hs, Hsz. apply (find_left h b p m u post); [done|..|done|done|done].
    - by apply Forall_app in Hsz as [_ ?].
    - destruct u as [|x u]; simpl in *; [by apply sorted_app in Hs as [_ ?]|]. by apply sorted_app in Hs as [_ ?].
    - by apply chain_app in Hc as [_ ?]. }
  rewrite fmap_app in Hfp. apply elem_of_app in Hfp as [(x & -> & (w & u & ->)%list_elem_of_split)%list_elem_of_fmap|Hfp].
  { rewrite length_app in Hlen. simpl in Hlen. apply (Hleft (x :: u) w); [done|]. unfold ring_fuel. simpl. lia. }
  simpl in Hfp. apply elem_of_cons in Hfp as [->|(x & -> & (w & v & ->)%list_elem_of_split)%list_elem_of_fmap].
  { apply (Hleft [] pre); [by rewrite app_nil_r|]. unfold ring_fuel. simpl. lia. }
  rewrite length_app in Hlen. simpl in Hlen.
  replace (ring_fuel h) with (length (x :: v) + (ring_fuel h - length (x :: v))) by (unfold ring_fuel; simpl; lia).
  assert (Hcv : chain (h_hdr h) (x :: v) base).
  { apply chain_app in Hc as [_ [_ Hc]]. by apply chain_app in Hc as [_ ?]. }
  assert (Hsv : sorted (x :: v)).
  { apply sorted_app in Hs as [_ Hs]. destruct Hs as [_ Hs]. by apply sorted_app in Hs as [_ ?]. }
  rewrite (find_right h b (x :: v)); [|lia| |done|done| |done].
  - replace base with (hdaddr (pre ++ [(p, m)]) base) at 1.
    + apply (Hleft pre []); [done|]. unfold ring_fuel. simpl. lia.
    + destruct pre as [|y pre]; simpl in Heq; by inversion Heq.
  - apply Forall_app in Hsz as [_ Hsz]. inversion Hsz as [|? ? _ Hsz']; subst. by apply Forall_app in Hsz' as [_ ?].
  - intros y Hy. apply Hpost. set_solver.
Qed.

Lemma in_heap_join sz x y : in_heap sz x → in_heap sz y → bend x = y.1 → in_heap sz (x.1, x.2 + y.2)%Z.
Proof. unfold in_heap, bend, HEADER. simpl. lia. Qed.

Lemma in_heap_word sz x : (0 < base)%Z → (sz ≤ KERNBASE)%Z → in_heap sz x → (0 ≤ x.2 ∧ bend x < 2 ^ 32)%Z.
Proof. unfold in_heap, KERNBASE. lia. Qed.

Lemma list_in_word sz l : (0 < base)%Z → (sz ≤ KERNBASE)%Z → Forall (in_heap sz) l →
  Forall (λ y, 0 ≤ y.2 ∧ bend y < 2 ^ 32)%Z l.
Proof. intros Hb Hs Hl. eapply Forall_impl; [exact Hl|]. intros x. by apply in_heap_word. Qed.

(** The links after the two joins of [free]. *)
Lemma joins_chain h pre p m post b n : (0 < base)%Z → (h_sz h ≤ KERNBASE)%Z →
  chain (h_hdr h) (pre ++ (p, m) :: post) base → (hdr h b).2 = n → Forall (in_heap (h_sz h)) ((b, n) :: post) →
  NoDup (b :: (pre ++ (p, m) :: post).*1) → (base ≤ p)%Z → (0 ≤ m)%Z → (bend (p, m) < 2 ^ 32)%Z →
  chain (h_hdr (join_heap (join_heap h b (hdr h p).1) p b))
    (pre ++ join_list (p, m) (join_list (b, n) post)) base.
Proof.
  intros Hb0 Hsz Hc Hn Hin Hnd Hbp Hm Hpm. apply chain_app in Hc as [Hpre [Hp Hpost]]. simpl in Hp.
  assert (Hhp : hdr h p = (hdaddr post base, m)) by (unfold hdr; by rewrite Hp).
  rewrite fmap_app in Hnd. simpl in Hnd. apply NoDup_cons in Hnd as [Hbn Hnd]. apply NoDup_app in Hnd as (_ & Hd & Hnd).
  apply NoDup_cons in Hnd as [Hpn _]. pose proof (list_in_word _ _ Hb0 Hsz Hin) as Hw.
  inversion Hin as [|? ? [Hbb [Hn1 _]] Hin']; subst. simpl in Hbb, Hn1. unfold HEADER in Hbb.
  set (h1 := join_heap h b (hdr h p).1).
  assert (Hc1 : chain (h_hdr h1) (join_list (b, (hdr h b).2) post) base).
  { unfold h1. rewrite Hhp. apply join_chain; [done|done|set_solver|lia|lia|lia|done]. }
  assert (Hhp1 : (hdr h1 p).2 = m).
  { unfold h1, join_heap. rewrite hdr_insert, decide_False by set_solver. destruct h. simpl. by rewrite Hhp. }
  apply chain_app. split.
  - rewrite join_list_addr. simpl. rewrite list_chain_insert by (intros ?; by destruct (Hd p); [|left]).
    unfold h1, join_heap. simpl. rewrite list_chain_insert by set_solver. done.
  - rewrite <-(join_list_addr (b, (hdr h b).2) post base) at 1. apply join_chain; [done|done|..|lia|lia|].
    + intros Hp'%join_list_subset. simpl in Hp'. set_solver.
    + destruct (join_list_head (b, (hdr h b).2) post) as (? & ? & -> & _); [|done].
      eapply Forall_impl; [exact (proj2 (proj1 (Forall_cons _ _ _) Hw))|]. simpl. lia.
    + constructor; [simpl; done|]. apply (list_in_word (h_sz h)); [done..|]. apply join_list_pred; [done|].
      intros y. apply in_heap_join.
Qed.

(** The sorted list after the joins. *)
Lemma joins_sorted pre p m post b n : sorted (pre ++ (p, m) :: post) → (bend (p, m) ≤ b)%Z →
  match post with y :: _ => (bend (b, n) ≤ y.1)%Z | [] => True end →
  sorted (pre ++ join_list (p, m) (join_list (b, n) post)).
Proof.
  intros [Hpre [_ Hpost]]%sorted_app Hpb Hb.
  assert (Hs : sorted (join_list (p, m) (join_list (b, n) post))).
  { apply sorted_join; [by apply sorted_join|]. pose proof (join_list_addr (b, n) post 0) as Ha. simpl in Ha.
    destruct (join_list (b, n) post) as [|y l]; [done|]. simpl in Ha. by rewrite Ha. }
  pose proof (join_list_addr (p, m) (join_list (b, n) post) (p + 1)) as Ha. simpl in Ha.
  destruct (join_list (p, m) (join_list (b, n) post)) as [|y l]; [simpl in Ha; lia|].
  apply sorted_app. split; [|done]. by apply (sorted_snoc pre (p, m)).
Qed.

(** The blocks stay disjoint and in the heap. *)
Lemma joins_blocks sz pre p m post b n A : Forall (in_heap sz) ((b, n) :: pre ++ (p, m) :: post ++ A) →
  pw ((b, n) :: pre ++ (p, m) :: post ++ A) →
  Forall (in_heap sz) (pre ++ join_list (p, m) (join_list (b, n) post) ++ A) ∧
  pw (pre ++ join_list (p, m) (join_list (b, n) post) ++ A).
Proof.
  rewrite !Forall_cons, !Forall_app, !Forall_cons, !Forall_app. intros (Hb & Hpre & Hp & Hpost & HA) Hpw.
  assert (Hj : Forall (in_heap sz) (join_list (b, n) post)).
  { apply join_list_pred; [by constructor|]. intros y. apply in_heap_join. }
  assert (Hpos : ∀ l, Forall (in_heap sz) l → Forall (λ y, 1 ≤ y.2)%Z l).
  { intros l Hl. eapply Forall_impl; [exact Hl|]. unfold in_heap. lia. }
  split.
  - split_and!; [done| |done]. apply join_list_pred; [by constructor|]. intros y. apply in_heap_join.
  - assert (H1 : pw (join_list (b, n) post ++ (p, m) :: pre ++ A)).
    { apply pw_join; [destruct Hb; simpl in *; lia|apply Hpos; rewrite !Forall_app, Forall_cons, Forall_app; done|].
      eapply pw_perm; [|exact Hpw]. solve_Permutation. }
    assert (H2 : pw (join_list (p, m) (join_list (b, n) post) ++ pre ++ A)).
    { apply pw_join; [destruct Hp; simpl in *; lia|apply Hpos; rewrite !Forall_app; done|].
      eapply pw_perm; [|exact H1]. solve_Permutation. }
    eapply pw_perm; [|exact H2]. solve_Permutation.
Qed.

(** Where a block goes in the free list. *)
Record place (h : heap) (bs A : list blk) (b n : Z) (pre : list blk) (p m : Z) (post : list blk) : Prop := {
  pl_eq : (base, 0)%Z :: bs = pre ++ (p, m) :: post;
  pl_find : free_find (ring_fuel h) b (h_freep h) h = Done p h;
  pl_pw : pw ((b, n) :: bs ++ A);
  pl_in : Forall (in_heap (h_sz h)) ((b, n) :: bs ++ A);
  pl_fresh : b ∉ bs.*1 ++ A.*1;
  pl_p : (base ≤ p < b)%Z;
  pl_m : (0 ≤ m)%Z;
  pl_left : (bend (p, m) ≤ b)%Z;
  pl_right : match post with y :: _ => (b < y.1 ∧ bend (b, n) ≤ y.1)%Z | [] => True end
}.

Lemma place_spec h bs b n A : heap_ok h bs ((b, n) :: A) → ∃ pre p m post, place h bs A b n pre p m post.
Proof.
  intros Hok. destruct (find_spec _ _ _ _ _ Hok) as (pre & p & m & post & Heq & Hpre & Hpost & Hfind).
  pose proof Hok as [_ _ _ Hpw Hin _ _]. exists pre, p, m, post.
  assert (Hpb : (p < b)%Z) by (apply (Hpre (p, m)); set_solver).
  rewrite <-Permutation_middle in Hpw, Hin. inversion Hin as [|? ? (Hbb & Hn1 & Hbe) HbsA]; subst.
  simpl in Hbb, Hn1. unfold HEADER in Hbb.
  assert (HposA : Forall (λ y, 1 ≤ y.2)%Z (bs ++ A)) by (eapply Forall_impl; [exact HbsA|unfold in_heap; lia]).
  assert (Hpm : (base ≤ p)%Z ∧ (0 ≤ m)%Z ∧ (bend (p, m) ≤ b)%Z).
  { destruct pre as [|x pre]; simpl in Heq; inversion Heq as [[Hx Hbs]].
    - unfold bend. simpl. split_and!; lia.
    - subst bs. assert (Hp : (p, m) ∈ (pre ++ (p, m) :: post) ++ A) by set_solver.
      rewrite Forall_forall in HbsA. specialize (HbsA _ Hp) as (? & ? & _). simpl in *.
      pose proof (pw_elem _ _ _ Hpw Hp) as Hd. unfold disj, bend, HEADER in *. simpl in *. split_and!; lia. }
  destruct Hpm as (Hbp & Hm & Hpmb). constructor; [done..| |lia|done|done|].
  - rewrite <-fmap_app. by apply (pw_fresh (b, n)).
  - destruct post as [|y post]; [done|]. assert (Hy : y ∈ bs).
    { destruct pre as [|x pre]; simpl in Heq; inversion Heq; set_solver. }
    pose proof (pw_elem _ _ y Hpw ltac:(set_solver)) as Hd. specialize (Hpost y ltac:(set_solver)).
    rewrite Forall_forall in HposA. specialize (HposA y ltac:(set_solver)). unfold disj, bend, HEADER in *. simpl in *. lia.
Qed.

(** The free list after [free]. *)
Definition freed (pre : list blk) (p m : Z) (L : list blk) : list blk :=
  match pre with [] => L | _ :: pre => pre ++ join_list (p, m) L end.

Lemma freed_eq h bs A b n pre p m post : place h bs A b n pre p m post →
  (base, 0)%Z :: freed pre p m (join_list (b, n) post) = pre ++ join_list (p, m) (join_list (b, n) post).
Proof.
  intros Hpl. pose proof (pl_eq _ _ _ _ _ _ _ _ _ Hpl) as Heq. destruct pre as [|x pre]; simpl in *; inversion Heq; [|done].
  subst. pose proof (pl_p _ _ _ _ _ _ _ _ _ Hpl). pose proof (join_list_addr (b, n) post base) as Ha. simpl in Ha.
  destruct (join_list (b, n) post) as [|y l]; simpl in *; [done|]. rewrite decide_False; [done|]. unfold bend. simpl. lia.
Qed.

Lemma freed_blocks h bs A b n pre p m post : place h bs A b n pre p m post →
  Forall (in_heap (h_sz h)) (freed pre p m (join_list (b, n) post) ++ A) ∧ pw (freed pre p m (join_list (b, n) post) ++ A) ∧
  (∃ x, x ∈ freed pre p m (join_list (b, n) post) ∧ (n ≤ x.2)%Z) ∧
  length (freed pre p m (join_list (b, n) post)) ≤ S (length bs).
Proof.
  intros Hpl. pose proof Hpl as [Heq _ Hpw Hin _ _ Hm _ _]. pose proof (join_list_length (b, n) post) as Hl.
  assert (Hpost : Forall (λ y, 0 ≤ y.2)%Z post).
  { assert (Hsub : post ⊆ (b, n) :: bs ++ A).
    { destruct pre as [|x pre]; simpl in Heq; inversion Heq; set_solver. }
    apply Forall_forall. intros y Hy. rewrite Forall_forall in Hin. destruct (Hin y (Hsub _ Hy)). lia. }
  destruct (join_list_head (b, n) post Hpost) as (n1 & l1 & HL & Hn1). simpl in HL, Hn1.
  destruct pre as [|x pre]; simpl in Heq; inversion Heq; subst; cbn [freed].
  - apply Forall_cons in Hin as [Hb Hin]. rewrite !Forall_app in Hin. split_and!.
    + apply Forall_app. split; [|tauto]. apply join_list_pred; [constructor; tauto|]. intros y. apply in_heap_join.
    + apply pw_join; [destruct Hb; simpl in *; lia| |done]. rewrite Forall_app. split; eapply Forall_impl; try apply Hin; unfold in_heap; lia.
    + exists (b, n1). rewrite HL. split; [set_solver|done].
    + lia.
  - rewrite <-!app_assoc in *. simpl in Hin, Hpw. destruct (joins_blocks (h_sz h) pre p m post b n A Hin Hpw) as [Hin' Hpw'].
    split_and!; [done|done| |].
    + destruct (join_list_big (p, m) (join_list (b, n) post) n Hm) as (y & Hy & Hk).
      { exists (b, n1). rewrite HL. split; [set_solver|done]. }
      exists y. split; [set_solver|done].
    + rewrite !length_app. pose proof (join_list_length (p, m) (join_list (b, n) post)). simpl. lia.
Qed.

Lemma free_spec h bs b n A : heap_ok h bs ((b, n) :: A) → ∃ h' bs',
  free (u32 (b + HEADER)) h = Done tt h' ∧ heap_ok h' bs' A ∧ (∃ x, x ∈ bs' ∧ (n ≤ x.2)%Z) ∧
  length bs' ≤ S (length bs) ∧ h_sz h' = h_sz h.
Proof.
  intros Hok. destruct (place_spec _ _ _ _ _ Hok) as (pre & p & m & post & Hpl).
  destruct (freed_blocks _ _ _ _ _ _ _ _ _ Hpl) as (HinF & HpwF & Hbig & Hlen).
  pose proof (freed_eq _ _ _ _ _ _ _ _ _ Hpl) as HF. pose proof Hpl as [Heq Hfind _ Hin Hfresh Hp Hm Hleft Hright].
  pose proof Hok as [Hc Hs Hfp _ _ Hsize [Hb0 [Hbz Hsz]]]. pose proof (heap_sizes _ _ _ Hok) as [_ Hnn].
  pose proof (sorted_nodup _ Hnn Hs) as Hnd. inversion Hin as [|? ? Hbin _]; subst. rewrite Heq in Hc, Hs, Hnd.
  assert (Hbfl : b ∉ (pre ++ (p, m) :: post).*1) by (rewrite <-Heq; simpl; set_solver by lia).
  assert (Hhp : hdr h p = (hdaddr post base, m)).
  { apply chain_app in Hc as [_ [Hc _]]. unfold hdr. simpl in Hc. by rewrite Hc. }
  destruct Hbin as (Hbb & Hn1 & Hbe). unfold bend, HEADER in Hbb, Hbe. simpl in Hbb, Hn1, Hbe.
  set (h2 := join_heap (join_heap h b (hdr h p).1) p b).
  exists (Heap (h_hdr h2) p (h_sz h2)), (freed pre p m (join_list (b, n) post)). split_and!; [|constructor|done|done|done].
  - apply free_run; [unfold is_u32, KERNBASE in *; lia|done|lia|]. rewrite Hhp. simpl.
    destruct post as [|y post]; simpl; lia.
  - rewrite HF. apply joins_chain; [done..| | |by rewrite NoDup_cons|lia|done|unfold KERNBASE in *; lia].
    + by inversion Hsize.
    + apply Forall_forall. intros y Hy. rewrite Forall_forall in Hin. apply Hin.
      destruct pre as [|x pre]; simpl in Heq; inversion Heq; set_solver.
  - rewrite HF. apply joins_sorted; [done|done|]. destruct post; [done|]. apply Hright.
  - rewrite HF, fmap_app. apply elem_of_app. right. pose proof (join_list_addr (p, m) (join_list (b, n) post) (p + 1)) as Ha.
    destruct (join_list (p, m) _); simpl in Ha |- *; [lia|]. apply elem_of_cons. by left.
  - done.
  - done.
  - inversion Hsize as [|? ? _ HsA]; subst. rewrite Forall_forall in HsA |- *. intros x Hx. rewrite <-(HsA x Hx).
    assert (Hxb : b ≠ x.1) by (intros ->; apply Hfresh; set_solver).
    assert (Hxp : p ≠ x.1) by (apply (ring_not_alloc _ _ _ _ _ Hok); [rewrite Heq|]; set_solver).
    unfold h2, join_heap, hdr. simpl. by rewrite !lookup_insert_ne by done.
  - done.
Qed.

(** ** malloc *)

Lemma sbrk_grow h n : (0 < n < 2 ^ 31)%Z → (0 < h_sz h ≤ KERNBASE)%Z →
  sbrk has_memory n h = Done 0xffffffff%Z h ∨
  (sbrk has_memory n h = Done (h_sz h) (Heap (h_hdr h) (h_freep h) (h_sz h + n)) ∧ (h_sz h + n < KERNBASE)%Z).
Proof.
  intros Hn Hsz. unfold sbrk, KERNBASE in *. rewrite s32_small by lia. rewrite u32_small by (unfold is_u32; lia).
  rewrite decide_True by lia. case_decide; [by left|]. rewrite decide_False by lia.
  destruct (has_memory _ _); [right; split; [done|lia]|by left].
Qed.

Lemma heap_grow h bs A n : heap_ok h bs A → (1 ≤ n)%Z → (h_sz h + HEADER * n ≤ KERNBASE)%Z →
  heap_ok (Heap (<[h_sz h := ((hdr h (h_sz h)).1, n)]> (h_hdr h)) (h_freep h) (h_sz h + HEADER * n)) bs ((h_sz h, n) :: A).
Proof.
  intros Hok Hn Hsz. pose proof Hok as [Hc Hs Hfp Hpw Hin Hsize [Hb0 [Hbz Hk]]].
  assert (Hlt : ∀ x, x ∈ bs ++ A → (x.1 < h_sz h)%Z ∧ (bend x ≤ h_sz h)%Z).
  { intros x Hx. rewrite Forall_forall in Hin. destruct (Hin x Hx) as (_ & ? & ?). unfold bend, HEADER in *. lia. }
  assert (Hfr : h_sz h ∉ (bs ++ A).*1).
  { intros (x & Heq & Hx)%list_elem_of_fmap. destruct (Hlt x Hx). lia. }
  rewrite fmap_app in Hfr. unfold HEADER in *. constructor; cbn [h_hdr h_freep h_sz].
  - apply list_chain_insert; [|done]. simpl. set_solver by lia.
  - done.
  - done.
  - rewrite <-Permutation_middle. split; [|done]. apply Forall_forall. intros x Hx. right. by apply Hlt.
  - rewrite <-Permutation_middle. constructor; [unfold in_heap, bend, HEADER; simpl; lia|].
    eapply Forall_impl; [exact Hin|]. unfold in_heap. lia.
  - constructor; [simpl; by rewrite hdr_insert, decide_True|]. rewrite Forall_forall in *. intros x Hx.
    rewrite hdr_insert, decide_False by set_solver. destruct h. by apply Hsize.
  - split; [done|]. unfold HEADER. lia.
Qed.

Lemma morecore_spec h bs A nu : heap_ok h bs A → (1 ≤ nu)%Z → (HEADER * nu < 2 ^ 31)%Z →
  morecore has_memory nu h = Done 0%Z h ∨ ∃ h' bs', morecore has_memory nu h = Done (h_freep h') h' ∧
    heap_ok h' bs' A ∧ (∃ x, x ∈ bs' ∧ (nu ≤ x.2)%Z) ∧ length bs' ≤ S (length bs).
Proof.
  intros Hok Hnu Hlt. pose proof Hok as [_ _ _ _ _ _ [Hb0 [Hbz Hk]]]. unfold HEADER in Hbz, Hlt.
  unfold morecore. set (nu' := if decide (nu < 4096)%Z then 4096%Z else nu).
  assert (Hnu' : (nu ≤ nu')%Z ∧ (HEADER * nu' < 2 ^ 31)%Z) by (unfold nu', HEADER; case_decide; lia).
  destruct Hnu' as [Hle Hlt']. unfold HEADER in Hlt'.
  replace (u32 (nu' * HEADER)) with (HEADER * nu')%Z by (rewrite u32_small; unfold is_u32, HEADER; lia).
  destruct (sbrk_grow h (HEADER * nu')) as [Hs|[Hs Hk']]; [unfold HEADER; lia|lia|left|right].
  { rewrite (run_bind _ _ _ _ _ Hs). by rewrite decide_True. }
  rewrite (run_bind _ _ _ _ _ Hs). rewrite decide_False by (unfold KERNBASE in *; lia).
  pose proof (heap_grow h bs A nu' Hok ltac:(lia) ltac:(lia)) as Hok1.
  destruct (free_spec _ _ _ _ _ Hok1) as (h' & bs' & Hf & Hok' & (x & Hx & Hxn) & Hlen & _).
  exists h', bs'. split_and!; [|done|exists x; split; [done|lia]|done].
  rewrite (run_bind (set_size _ _) _ _ tt
    (Heap (<[h_sz h := ((hdr h (h_sz h)).1, nu')]> (h_hdr h)) (h_freep h) (h_sz h + HEADER * nu'))) by done.
  by rewrite (run_bind _ _ _ _ _ Hf).
Qed.

(** The block found is taken whole. *)
Lemma take_whole h bs A w pre v mv p n post : heap_ok h bs A → bs = w ++ (p, n) :: post →
  (base, 0)%Z :: w = pre ++ [(v, mv)] →
  heap_ok (Heap (<[v := (hdaddr post base, mv)]> (h_hdr h)) v (h_sz h)) (w ++ post) ((p, n) :: A).
Proof.
  intros Hok -> Hw. pose proof (heap_sizes _ _ _ Hok) as [_ Hnn]. pose proof Hok as [Hc Hs _ Hpw Hin Hsize Hb].
  pose proof (sorted_nodup _ Hnn Hs) as Hnd.
  assert (Hfl : (base, 0)%Z :: w ++ (p, n) :: post = pre ++ (v, mv) :: (p, n) :: post)
    by (rewrite app_comm_cons, Hw, <-app_assoc; done).
  assert (Hfl' : (base, 0)%Z :: w ++ post = pre ++ (v, mv) :: post) by (rewrite app_comm_cons, Hw, <-app_assoc; done).
  rewrite Hfl in Hc, Hs, Hnd, Hnn. rewrite fmap_app in Hnd. apply NoDup_app in Hnd as (_ & Hvp & Hnd). simpl in Hnd, Hvp.
  apply NoDup_cons in Hnd as [Hvn _]. apply chain_app in Hc as [Hcp (Hv & Hp & Hcr)]. simpl in Hp, Hv.
  constructor; cbn [h_hdr h_freep h_sz]; rewrite ?Hfl'.
  - apply chain_app. simpl. rewrite lookup_insert_eq, !list_chain_insert; [done|set_solver|].
    intros Hin'. apply (Hvp v); [done|set_solver].
  - apply sorted_app in Hs as [Hs1 (Hvp' & Hpr & Hs2)]. apply sorted_app. split; [done|]. split; [|done].
    destruct post as [|y post]; [done|]. apply Forall_app in Hnn as [_ Hnn]. inversion Hnn as [|? ? _ Hn2]; subst.
    inversion Hn2; subst. unfold before, bend, HEADER in *. simpl in *. lia.
  - rewrite fmap_app. set_solver.
  - eapply pw_perm; [|exact Hpw]. solve_Permutation.
  - eapply Forall_Permutation; [done| |exact Hin]. solve_Permutation.
  - assert (Hvx : ∀ x, x ∈ A → v ≠ x.1).
    { intros x Hx. apply (ring_not_alloc _ _ _ _ _ Hok); [rewrite Hfl, fmap_app; set_solver|done]. }
    constructor; [|rewrite Forall_forall in *; intros x Hx]; rewrite hdr_insert, decide_False.
    + unfold hdr. simpl. by rewrite Hp.
    + set_solver.
    + destruct h. by apply Hsize.
    + by apply Hvx.
  - done.
Qed.

(** Its tail is taken. *)
Lemma take_tail h bs A w v p n k post z : heap_ok h bs A → bs = w ++ (p, n) :: post → (1 ≤ k < n)%Z →
  v ∈ ((base, 0)%Z :: w).*1 → let t := (p + HEADER * (n - k))%Z in
  heap_ok (Heap (<[t := (z, k)]> (<[p := (hdaddr post base, n - k)%Z]> (h_hdr h))) v (h_sz h))
    (w ++ (p, n - k)%Z :: post) ((t, k) :: A).
Proof.
  intros Hok Hbs Hk Hv t. pose proof (heap_sizes _ _ _ Hok) as [Hpos Hnn]. pose proof Hok as [Hc Hs _ Hpw Hin Hsize Hb].
  assert (Hperm : bs ++ A ≡ₚ (p, n) :: w ++ post ++ A) by (subst; solve_Permutation).
  assert (Hperm' : (w ++ (p, n - k)%Z :: post) ++ (t, k) :: A ≡ₚ (p, n - k)%Z :: (t, k) :: w ++ post ++ A) by solve_Permutation.
  rewrite Hperm in Hpw, Hin, Hpos. inversion Hin as [|? ? [Hp1 [_ Hp2]] Hin']; subst. unfold bend, HEADER in Hp1, Hp2. simpl in Hp1, Hp2.
  assert (Hpw' : pw ((p, n - k)%Z :: (t, k) :: w ++ post ++ A)).
  { apply pw_split; [lia|lia|]. by replace (n - k + k)%Z with n by lia. }
  inversion Hpos as [|? ? _ Hpos']; subst.
  assert (Ht : t ∉ (w ++ post ++ A).*1) by (apply (pw_fresh (t, k)); [apply Hpw'|simpl; lia|done]).
  assert (Hp : p ∉ (w ++ post ++ A).*1) by (apply (pw_fresh (p, n)); [exact Hpw|simpl; lia|done]).
  assert (Htp : (p < t)%Z) by (unfold t, HEADER; lia). rewrite !fmap_app in Ht, Hp.
  assert (Hbase : (base < p)%Z) by lia. rewrite app_comm_cons in Hc, Hs. apply chain_app in Hc as [Hc1 [_ Hc2]].
  constructor; cbn [h_hdr h_freep h_sz].
  - rewrite app_comm_cons. apply chain_app. split.
    + rewrite !list_chain_insert; [done|simpl; set_solver by lia|simpl; set_solver by lia].
    + split; [|rewrite !list_chain_insert; [done|set_solver|set_solver]].
      simpl. rewrite lookup_insert_ne by lia. by rewrite lookup_insert_eq.
  - rewrite app_comm_cons. apply sorted_app in Hs as [Hs1 [Hs2 Hs3]]. apply sorted_app. split; [by apply (sorted_snoc _ (p, n))|].
    split; [|done]. destruct post as [|y post]; [done|]. unfold before, bend, HEADER in *. simpl in *. lia.
  - rewrite app_comm_cons, fmap_app. set_solver.
  - by rewrite Hperm'.
  - rewrite Hperm'. constructor; [|constructor; [|done]]; unfold t, in_heap, bend, HEADER; simpl; lia.
  - constructor; [simpl; by rewrite hdr_insert, decide_True|]. rewrite Forall_forall in *. intros x Hx.
    rewrite !hdr_insert, !decide_False; [destruct h; by apply Hsize| |]; intros ->; set_solver.
  - done.
Qed.

Lemma take_block_spec h bs A w pre v mv p n post k : heap_ok h bs A → bs = w ++ (p, n) :: post →
  (base, 0)%Z :: w = pre ++ [(v, mv)] → (1 ≤ k ≤ n)%Z → ∃ r h' bs',
  take_block v p k h = Done (u32 (r + HEADER)) h' ∧ heap_ok h' bs' ((r, k) :: A).
Proof.
  intros Hok Hbs Hw Hk. pose proof Hok as [Hc _ _ _ Hin _ [Hb0 [_ Hsz]]]. rewrite Hbs, app_comm_cons, Hw, <-app_assoc in Hc.
  apply chain_app in Hc as [_ (Hv & Hp & _)]. simpl in Hv, Hp.
  assert (Hhv : hdr h v = (p, mv)) by (unfold hdr; by rewrite Hv).
  assert (Hhp : hdr h p = (hdaddr post base, n)) by (unfold hdr; by rewrite Hp).
  rewrite Forall_forall in Hin. destruct (Hin (p, n)) as (Hp1 & _ & Hp2); [subst; set_solver|].
  unfold bend, HEADER, KERNBASE in *. simpl in Hp1, Hp2.
  unfold take_block. rewrite (run_bind _ _ _ n h) by (unfold size_of; by rewrite Hhp).
  destruct (decide (n = k)) as [->|Hne].
  - exists p, (Heap (<[v := (hdaddr post base, mv)]> (h_hdr h)) v (h_sz h)), (w ++ post). split.
    + unfold mbind, M_bind, ptr_of, set_ptr, set_freep, mmodify, mret, M_ret. simpl. by rewrite Hhp, Hhv.
    + by eapply take_whole.
  - set (t := (p + HEADER * (n - k))%Z). set (g := <[p := (hdaddr post base, n - k)%Z]> (h_hdr h)).
    exists t, (Heap (<[t := ((hdr (Heap g (h_freep h) (h_sz h)) t).1, k)]> g) v (h_sz h)), (w ++ (p, n - k)%Z :: post). split.
    + rewrite (u32_small (n - k)) by (unfold is_u32; lia). unfold step_units.
      rewrite (u32_small (p + HEADER * (n - k))) by (unfold is_u32, HEADER; lia).
      unfold mbind, M_bind, set_size, set_freep, mmodify, mret, M_ret. simpl. by rewrite Hhp.
    + apply (take_tail h bs); [done|done|lia|]. rewrite Hw, fmap_app. set_solver.
Qed.

(** The list, walked twice around. *)
Definition twice (bs : list blk) : list blk := ((base, 0)%Z :: bs) ++ (base, 0)%Z :: bs.

Lemma chain_next g l e k x y : chain g l e → l !! k = Some x → l !! S k = Some y → g !! x.1 = Some (y.1, x.2).
Proof.
  revert k. induction l as [|z l IH]; intros k; [done|]. intros [Hz Hc] Hx Hy. destruct k as [|k].
  - simpl in Hx, Hy. injection Hx as <-. destruct l as [|w l]; [done|]. simpl in Hy. by injection Hy as <-.
  - by eapply IH.
Qed.

Lemma twice_hdr h bs A k x y : heap_ok h bs A → twice bs !! k = Some x → twice bs !! S k = Some y →
  hdr h x.1 = (y.1, x.2).
Proof.
  intros Hok Hx Hy. assert (Hc : chain (h_hdr h) (twice bs) base) by (apply chain_app; split; apply Hok).
  unfold hdr. by rewrite (chain_next _ _ _ _ _ _ Hc Hx Hy).
Qed.

Lemma twice_split bs k x y : twice bs !! k = Some x → twice bs !! S k = Some y → (1 ≤ y.2)%Z →
  ∃ pre w post, bs = w ++ y :: post ∧ (base, 0)%Z :: w = pre ++ [x].
Proof.
  unfold twice. intros Hx Hy Hpos.
  assert (Hi : ∃ i, ((base, 0)%Z :: bs) !! i = Some x ∧ bs !! i = Some y).
  { set (fl := (base, 0)%Z :: bs) in *. destruct (decide (S k < length fl)) as [Hk|Hk].
    - rewrite lookup_app_l in Hx, Hy by lia. by exists k.
    - destruct (decide (k < length fl)) as [Hk'|Hk'].
      + rewrite lookup_app_r in Hy by lia. replace (S k - length fl) with 0 in Hy by lia. injection Hy as <-. simpl in Hpos. lia.
      + rewrite lookup_app_r in Hx, Hy by lia. exists (k - length fl). split; [done|].
        replace (S k - length fl) with (S (k - length fl)) in Hy by lia. done. }
  destruct Hi as (i & Hxi & Hyi). exists (take i ((base, 0)%Z :: bs)), (take i bs), (drop (S i) bs).
  split; [by rewrite take_drop_middle|]. rewrite <-(take_S_r _ _ _ Hxi). done.
Qed.

Lemma twice_inj h bs A i j x y : heap_ok h bs A → twice bs !! i = Some x → twice bs !! j = Some y → x.1 = y.1 →
  (i ≤ j)%nat → j - i < S (length bs) → i = j.
Proof.
  intros Hok Hx Hy Heq Hij Hd. pose proof (heap_sizes _ _ _ Hok) as [_ Hnn].
  pose proof (sorted_nodup _ Hnn (ho_sorted _ _ _ Hok)) as Hnd. unfold twice in *.
  set (fl := (base, 0)%Z :: bs) in *. assert (Hl : length fl = S (length bs)) by done.
  assert (Hin : ∀ k z, (fl ++ fl) !! k = Some z → fl !! (if decide (k < length fl) then k else k - length fl) = Some z).
  { intros k z. case_decide; [by rewrite lookup_app_l|by rewrite lookup_app_r by lia]. }
  apply Hin in Hx, Hy. assert (Hinj : (if decide (i < length fl) then i else i - length fl) =
    (if decide (j < length fl) then j else j - length fl)); [|repeat case_decide; lia].
  eapply (NoDup_lookup fl.*1); [done|by rewrite list_lookup_fmap, Hx|]. rewrite list_lookup_fmap, Hy. simpl. by rewrite Heq.
Qed.

Definition allocated (A : list blk) (k : Z) (o : outcome heap Z) : Prop :=
  ∃ r h' bs', o = Done (u32 (r + HEADER)) h' ∧ heap_ok h' bs' ((r, k) :: A).

Lemma twice_elem bs k x : twice bs !! k = Some x → x ∈ (base, 0)%Z :: bs.
Proof. intros [Hx|Hx]%list_elem_of_lookup_2%elem_of_app; done. Qed.

Lemma ring_size h bs A x : heap_ok h bs A → x ∈ (base, 0)%Z :: bs → (hdr h x.1).2 = x.2.
Proof.
  intros Hok Hx. pose proof (ho_chain _ _ _ Hok) as Hc. apply list_elem_of_split in Hx as (l1 & l2 & Heq).
  rewrite Heq in Hc. apply chain_app in Hc as [_ [Hc _]]. unfold hdr. by rewrite Hc.
Qed.

Lemma loop_fits h bs A k i x p : heap_ok h bs A → (1 ≤ k)%Z → twice bs !! i = Some x → twice bs !! S i = Some p →
  (k ≤ p.2)%Z → allocated A k (take_block x.1 p.1 k h).
Proof.
  intros Hok Hk Hx Hp Hfit. destruct (twice_split bs i x p Hx Hp ltac:(lia)) as (pre & w & post & Hbs & Hw).
  destruct x as [v mv], p as [p n]. apply (take_block_spec h bs A w pre v mv p n post k Hok Hbs Hw). simpl in *. lia.
Qed.

(** A walk that meets a block that is large enough before it comes to [freep]. *)
Lemma loop_found h bs A k e : heap_ok h bs A → (1 ≤ k)%Z → ∀ fuel i d x p y f,
  e ≤ d → d < S (length bs) → e < fuel →
  twice bs !! i = Some x → twice bs !! S i = Some p → twice bs !! (S i + e) = Some y → (k ≤ y.2)%Z →
  twice bs !! (S i + d) = Some f → h_freep h = f.1 →
  allocated A k (malloc_loop has_memory fuel k x.1 p.1 h).
Proof.
  intros Hok Hk. induction e as [|e IH]; intros fuel i d x p y f Hed Hd Hf Hx Hp Hy Hky Hfi Hfp;
    (destruct fuel as [|fuel]; [lia|]); cbn [malloc_loop];
    rewrite (run_bind _ _ _ p.2 h) by (unfold size_of; by rewrite (ring_size _ _ _ _ Hok (twice_elem _ _ _ Hp)));
    (destruct (decide (k ≤ p.2)%Z) as [Hfit|Hfit]; [by eapply loop_fits|]).
  { rewrite Nat.add_0_r, Hp in Hy. by injection Hy as <-. }
  rewrite (run_bind _ _ _ (h_freep h) h) by done. rewrite decide_False.
  - destruct (lookup_lt_is_Some_2 (twice bs) (S (S i))) as [z Hz]; [apply lookup_lt_Some in Hfi; lia|].
    rewrite (run_bind _ _ _ z.1 h) by (unfold ptr_of; by rewrite (twice_hdr _ _ _ _ _ _ Hok Hp Hz)).
    apply (IH fuel (S i) (d - 1) p z y f); [lia|lia|lia|done|done| |done| |done].
    + by replace (S (S i) + e) with (S i + S e) by lia.
    + by replace (S (S i) + (d - 1)) with (S i + d) by lia.
  - intros Heq. assert (S i = S i + d); [|lia]. eapply (twice_inj h bs A _ _ p f Hok Hp Hfi); [by rewrite Heq|lia|lia].
Qed.

(** The walk from [freep] on, after a block that is large enough was added. *)
Lemma loop_around h bs A k fuel : heap_ok h bs A → (1 ≤ k)%Z → (∃ x, x ∈ bs ∧ (k ≤ x.2)%Z) → S (length bs) < fuel →
  ∃ q, (hdr h (h_freep h)).1 = q ∧ allocated A k (malloc_loop has_memory fuel k (h_freep h) q h).
Proof.
  intros Hok Hk (x & Hx & Hkx) Hf. pose proof (ho_freep _ _ _ Hok) as Hfp. set (fl := (base, 0)%Z :: bs) in *.
  assert (Hlen : length fl = S (length bs)) by done. apply list_elem_of_fmap in Hfp as (f & Hfe & [i Hi]%list_elem_of_lookup).
  assert (Hxf : x ∈ fl) by (right; done). apply list_elem_of_lookup in Hxf as [g Hg].
  pose proof (lookup_lt_Some _ _ _ Hi) as Hil. pose proof (lookup_lt_Some _ _ _ Hg) as Hgl.
  assert (Hi1 : twice bs !! i = Some f) by (by apply lookup_app_l_Some).
  assert (Hi2 : twice bs !! (length fl + i) = Some f) by (change (twice bs) with (fl ++ fl); rewrite lookup_app_r, Nat.add_sub' by lia; done).
  destruct (lookup_lt_is_Some_2 (twice bs) (S i)) as [p Hp]; [unfold twice; rewrite length_app; simpl; lia|].
  exists p.1. rewrite Hfe. split; [by rewrite (twice_hdr _ _ _ _ _ _ Hok Hi1 Hp)|].
  set (e := if decide (i < g) then g - S i else length fl + g - S i).
  apply (loop_found h bs A k e Hok Hk fuel i (length bs) f p x f); [|lia| |done|done| |done| |done].
  - unfold e. case_decide; lia.
  - unfold e. case_decide; lia.
  - unfold e. case_decide as Hd; [replace (S i + (g - S i)) with g by lia|replace (S i + (length fl + g - S i)) with (length fl + g) by lia].
    + by apply lookup_app_l_Some.
    + change (twice bs) with (fl ++ fl). by rewrite lookup_app_r, Nat.add_sub' by lia.
  - replace (S i + length bs) with (length fl + i) by lia. done.
Qed.

(** No block was large enough: the list is extended. *)
Lemma loop_more h bs A k fuel : heap_ok h bs A → (1 ≤ k)%Z → (HEADER * k < 2 ^ 31)%Z → S (S (length bs)) < fuel →
  let m := (p ← morecore has_memory k; if decide (p = 0%Z) then mret 0%Z else
            q ← ptr_of p; malloc_loop has_memory fuel k p q) in
  m h = Done 0%Z h ∨ allocated A k (m h).
Proof.
  intros Hok Hk Hk31 Hf. cbv zeta. destruct (morecore_spec h bs A k Hok Hk Hk31) as [Hm|(h' & bs' & Hm & Hok' & Hbig & Hlen)].
  { left. rewrite (run_bind _ _ _ _ _ Hm). by rewrite decide_True. }
  right. rewrite (run_bind _ _ _ _ _ Hm).
  destruct (loop_around h' bs' A k fuel Hok' Hk Hbig ltac:(lia)) as (q & Hq & Hres). rewrite decide_False.
  - rewrite (run_bind _ _ _ q h') by (unfold ptr_of; by rewrite Hq). done.
  - pose proof Hok' as [_ _ Hfp _ Hin _ [Hb0 _]]. intros Hz. rewrite Hz in Hfp.
    apply list_elem_of_fmap in Hfp as (x & Hx & [->|Hx']%elem_of_cons); [simpl in Hx; lia|].
    rewrite Forall_forall in Hin. destruct (Hin x ltac:(set_solver)) as [? _]. unfold HEADER in *. lia.
Qed.

(** The walk of [malloc], from [freep] around to it. *)
Lemma loop_spec h bs A k d : heap_ok h bs A → (1 ≤ k)%Z → (HEADER * k < 2 ^ 31)%Z → ∀ fuel i x p f,
  d + 5 + length bs < fuel → twice bs !! i = Some x → twice bs !! S i = Some p → twice bs !! (S i + d) = Some f →
  h_freep h = f.1 →
  malloc_loop has_memory fuel k x.1 p.1 h = Done 0%Z h ∨ allocated A k (malloc_loop has_memory fuel k x.1 p.1 h).
Proof.
  intros Hok Hk Hk31. induction d as [|d IH]; intros fuel i x p f Hf Hx Hp Hfi Hfp; (destruct fuel as [|fuel]; [lia|]);
    cbn [malloc_loop];
    rewrite (run_bind _ _ _ p.2 h) by (unfold size_of; by rewrite (ring_size _ _ _ _ Hok (twice_elem _ _ _ Hp)));
    (destruct (decide (k ≤ p.2)%Z) as [Hfit|Hfit]; [right; by eapply loop_fits|]);
    rewrite (run_bind _ _ _ (h_freep h) h) by done; (destruct (decide (p.1 = h_freep h)) as [Hpf|Hpf]; [eapply loop_more; (done || lia)|]).
  - rewrite Nat.add_0_r, Hp in Hfi. injection Hfi as <-. done.
  - destruct (lookup_lt_is_Some_2 (twice bs) (S (S i))) as [z Hz]; [apply lookup_lt_Some in Hfi; lia|].
    rewrite (run_bind _ _ _ z.1 h) by (unfold ptr_of; by rewrite (twice_hdr _ _ _ _ _ _ Hok Hp Hz)).
    apply (IH fuel (S i) p z f); [lia|done|done| |done]. by replace (S (S i) + d) with (S i + S d) by lia.
Qed.

(** ** A program that uses the allocator *)

(** [malloc] has not been called yet, or the heap is in order. *)
Definition client_inv (h : heap) (A : list blk) : Prop :=
  (h_freep h = 0%Z ∧ A = [] ∧ (0 < base ∧ base + HEADER ≤ h_sz h ≤ KERNBASE)%Z) ∨ ∃ bs, heap_ok h bs A.

Lemma units_eq n : (0 ≤ n ≤ 0x7fffffe0)%Z → units n = ((n + 7) / 8 + 1)%Z.
Proof.
  intros Hn. unfold units, HEADER. rewrite (u32_small (n + 8 - 1)) by (unfold is_u32; lia).
  replace (n + 8 - 1)%Z with (n + 7)%Z by lia. rewrite u32_small; [done|].
  unfold is_u32. pose proof (Z.div_pos (n + 7) 8). pose proof (Z.div_lt_upper_bound (n + 7) 8 (2 ^ 30)). lia.
Qed.

Lemma units_bounds n : (0 ≤ n ≤ 0x7fffffe0)%Z → (1 ≤ units n ∧ HEADER * units n < 2 ^ 31 ∧ n ≤ HEADER * (units n - 1))%Z.
Proof.
  intros Hn. rewrite units_eq by done. unfold HEADER. pose proof (Z.div_mod (n + 7) 8 ltac:(lia)).
  pose proof (Z.mod_pos_bound (n + 7) 8 ltac:(lia)). lia.
Qed.

Lemma malloc_ring h bs A n : heap_ok h bs A → (0 ≤ n ≤ 0x7fffffe0)%Z →
  malloc base has_memory n h = Done 0%Z h ∨ allocated A (units n) (malloc base has_memory n h).
Proof.
  intros Hok Hn. destruct (units_bounds n Hn) as (Hu1 & Hu2 & _). pose proof (ring_length _ _ _ Hok) as Hlen. simpl in Hlen.
  pose proof Hok as [_ _ Hfp _ Hin _ [Hb0 _]]. set (fl := (base, 0)%Z :: bs) in *.
  apply list_elem_of_fmap in Hfp as (f & Hfe & [i Hi]%list_elem_of_lookup). pose proof (lookup_lt_Some _ _ _ Hi) as Hil.
  assert (Hfl : length fl = S (length bs)) by done.
  assert (Hi1 : twice bs !! i = Some f) by (by apply lookup_app_l_Some).
  assert (Hi2 : twice bs !! (S i + length bs) = Some f).
  { change (twice bs) with (fl ++ fl). rewrite lookup_app_r by lia. by replace (S i + length bs - length fl) with i by lia. }
  destruct (lookup_lt_is_Some_2 (twice bs) (S i)) as [p Hp]; [unfold twice; rewrite length_app; simpl; lia|].
  unfold malloc. rewrite (run_bind _ _ _ (h_freep h) h) by done. rewrite decide_False.
  - rewrite (run_bind _ _ _ tt h), (run_bind _ _ _ (h_freep h) h) by done.
    rewrite (run_bind _ _ _ p.1 h) by (unfold ptr_of; by rewrite Hfe, (twice_hdr _ _ _ _ _ _ Hok Hi1 Hp)).
    rewrite (run_bind _ _ _ h h) by done. rewrite Hfe.
    apply (loop_spec h bs A (units n) (length bs) Hok Hu1 Hu2 _ i f p f); [unfold malloc_fuel; lia|done..].
  - intros Hz. apply list_elem_of_lookup_2, elem_of_cons in Hi as [->|Hi]; [simpl in *; lia|].
    rewrite Forall_forall in Hin. destruct (Hin f ltac:(set_solver)) as [? _]. unfold HEADER in *. lia.
Qed.

(** The first call sets up the list. *)
Lemma malloc_first h n : h_freep h = 0%Z → (0 < base ∧ base + HEADER ≤ h_sz h ≤ KERNBASE)%Z →
  ∃ h', heap_ok h' [] [] ∧ h_sz h' = h_sz h ∧ malloc base has_memory n h = malloc base has_memory n h'.
Proof.
  intros Hf Hb. exists (Heap (<[base := (base, 0)%Z]> (h_hdr h)) base (h_sz h)). split_and!; [constructor| |]; simpl.
  - split; [by rewrite lookup_insert_eq|done].
  - done.
  - set_solver.
  - done.
  - constructor.
  - constructor.
  - done.
  - done.
  - destruct h as [g f z]. simpl in *. subst f. unfold malloc.
    rewrite (run_bind get_freep _ _ 0%Z (Heap g 0 z)) by done. rewrite decide_True by done.
    rewrite (run_bind get_freep _ _ base (Heap (<[base := (base, 0)%Z]> g) base z)) by done. rewrite decide_False by lia.
    rewrite (run_bind (mret tt) _ _ tt (Heap (<[base := (base, 0)%Z]> g) base z)) by done.
    erewrite (run_bind (set_freep base;; _)); [reflexivity|].
    unfold mbind, M_bind, set_freep, set_ptr, set_size, mmodify. simpl. rewrite !hdr_insert, decide_True by done. simpl.
    by rewrite insert_insert_eq.
Qed.

Lemma malloc_spec h A n : client_inv h A → (0 ≤ n ≤ 0x7fffffe0)%Z →
  (∃ h', malloc base has_memory n h = Done 0%Z h' ∧ client_inv h' A) ∨ allocated A (units n) (malloc base has_memory n h).
Proof.
  intros [(Hf & -> & Hb)|[bs Hok]] Hn.
  - destruct (malloc_first h n Hf Hb) as (h' & Hok & _ & ->).
    destruct (malloc_ring h' [] [] n Hok Hn) as [Hm|Hm]; [left|by right]. exists h'. split; [done|]. right. by exists [].
  - destruct (malloc_ring h bs A n Hok Hn) as [Hm|Hm]; [left|by right]. exists h. split; [done|]. right. by exists bs.
Qed.

(** What a program does: it allocates and frees, writes into its blocks and may
    grow its memory by itself. [A] are the blocks that it has. *)
Inductive client_step : heap * list blk → heap * list blk → Prop :=
| cs_malloc h h' A n r : (0 ≤ n ≤ 0x7fffffe0)%Z → malloc base has_memory n h = Done r h' → r ≠ 0%Z →
    client_step (h, A) (h', (r - HEADER, units n)%Z :: A)
| cs_fail h h' A n : (0 ≤ n ≤ 0x7fffffe0)%Z → malloc base has_memory n h = Done 0%Z h' → client_step (h, A) (h', A)
| cs_free h h' A A' b n : A ≡ₚ (b, n) :: A' → free (b + HEADER) h = Done tt h' → client_step (h, A) (h', A')
| cs_write h A a v b n : (b, n) ∈ A → (b + HEADER ≤ a ∧ a + HEADER ≤ b + HEADER * n)%Z →
    client_step (h, A) (Heap (<[a := v]> (h_hdr h)) (h_freep h) (h_sz h), A)
| cs_sbrk h A n : (0 ≤ n)%Z → (h_sz h + n ≤ KERNBASE)%Z →
    client_step (h, A) (Heap (h_hdr h) (h_freep h) (h_sz h + n), A).

Lemma heap_ok_perm h bs A A' : A ≡ₚ A' → heap_ok h bs A → heap_ok h bs A'.
Proof. intros HA [? ? ? Hpw Hin Hsize ?]. constructor; try done; by rewrite <-HA. Qed.

Lemma heap_ok_sz h bs A n : heap_ok h bs A → (0 ≤ n)%Z → (h_sz h + n ≤ KERNBASE)%Z →
  heap_ok (Heap (h_hdr h) (h_freep h) (h_sz h + n)) bs A.
Proof.
  intros [? ? ? ? Hin ? ?] Hn Hk. constructor; simpl; try done; [|lia].
  eapply Forall_impl; [exact Hin|]. unfold in_heap. lia.
Qed.

Lemma heap_ok_write h bs A a v b n : heap_ok h bs A → (b, n) ∈ A →
  (b + HEADER ≤ a ∧ a + HEADER ≤ b + HEADER * n)%Z → heap_ok (Heap (<[a := v]> (h_hdr h)) (h_freep h) (h_sz h)) bs A.
Proof.
  intros Hok Hb Ha. pose proof (heap_sizes _ _ _ Hok) as [Hpos _]. pose proof Hok as [Hc Hs Hfp Hpw Hin Hsize Hbase].
  assert (Hy : ∀ y, y ∈ bs ++ A → a ≠ y.1).
  { intros y Hy ->. apply list_elem_of_split in Hb as (A1 & A2 & ->). rewrite Forall_forall in Hpos. specialize (Hpos y Hy).
    assert (Hy' : y = (b, n) ∨ y ∈ bs ++ A1 ++ A2) by set_solver. destruct Hy' as [->|Hy']; [unfold HEADER in *; simpl in *; lia|].
    assert (Hpw' : pw ((b, n) :: bs ++ A1 ++ A2)) by (eapply pw_perm; [|exact Hpw]; solve_Permutation).
    pose proof (pw_elem _ _ _ Hpw' Hy') as Hd. unfold disj, bend, HEADER in *. simpl in *. lia. }
  constructor; cbn [h_hdr h_freep h_sz]; try done.
  - apply list_chain_insert; [|done]. intros (y & -> & [->|Hbs]%elem_of_cons)%list_elem_of_fmap.
    + rewrite Forall_forall in Hin. destruct (Hin (b, n) ltac:(set_solver)) as [Hb1 _]. unfold HEADER in *. simpl in *. lia.
    + by apply (Hy y); [set_solver|].
  - rewrite Forall_forall in *. intros x Hx. rewrite hdr_insert, decide_False by (apply Hy; set_solver).
    destruct h. by apply Hsize.
Qed.

Lemma payload_word h bs A x : heap_ok h bs A → x ∈ A → u32 (x.1 + HEADER) = (x.1 + HEADER)%Z ∧ (0 < x.1)%Z.
Proof.
  intros [_ _ _ _ Hin _ [Hb0 [_ Hk]]] Hx. rewrite Forall_forall in Hin. destruct (Hin x ltac:(set_solver)) as (H1 & H2 & H3).
  unfold bend, HEADER, KERNBASE in *. split; [|lia]. rewrite u32_small; [done|]. unfold is_u32. lia.
Qed.

Lemma malloc_run h A n r h' : client_inv h A → (0 ≤ n ≤ 0x7fffffe0)%Z → malloc base has_memory n h = Done r h' →
  (r = 0%Z ∧ client_inv h' A) ∨ (r ≠ 0%Z ∧ ∃ bs, heap_ok h' bs ((r - HEADER, units n)%Z :: A)).
Proof.
  intros Hi Hn Hm. destruct (malloc_spec _ _ _ Hi Hn) as [(h1 & Hm1 & Hi1)|(r1 & h1 & bs & Hm1 & Hok)]; rewrite Hm in Hm1.
  - injection Hm1 as -> ->. by left.
  - injection Hm1 as -> ->. right. destruct (payload_word _ _ _ (r1, units n) Hok ltac:(set_solver)) as [Hw H0].
    simpl in Hw, H0. rewrite Hw. unfold HEADER in *. split; [lia|]. exists bs. by replace (r1 + 8 - 8)%Z with r1 by lia.
Qed.

Lemma free_total h A A' b n : client_inv h A → A ≡ₚ (b, n) :: A' →
  ∃ h', free (b + HEADER) h = Done tt h' ∧ client_inv h' A'.
Proof.
  intros [(_ & -> & _)|[bs Hok]] HA; [by apply Permutation_nil_cons in HA|]. apply (heap_ok_perm _ _ _ _ HA) in Hok.
  destruct (free_spec _ _ _ _ _ Hok) as (h' & bs' & Hf & Hok' & _).
  destruct (payload_word _ _ _ (b, n) Hok ltac:(set_solver)) as [Hw _]. simpl in Hw. rewrite Hw in Hf.
  exists h'. split; [done|]. right. by exists bs'.
Qed.

Lemma client_step_inv s s' : client_step s s' → client_inv s.1 s.2 → client_inv s'.1 s'.2.
Proof.
  intros Hst Hi. destruct Hst as [h h' A n r Hn Hm Hr|h h' A n Hn Hm|h h' A A' b n HA Hf|h A a v b n Hb Ha|h A n Hn Hk]; simpl in *.
  - destruct (malloc_run _ _ _ _ _ Hi Hn Hm) as [[? _]|[_ Hok]]; [done|by right].
  - destruct (malloc_run _ _ _ _ _ Hi Hn Hm) as [[_ ?]|[? _]]; done.
  - destruct (free_total _ _ _ _ _ Hi HA) as (h1 & Hf1 & Hi1). rewrite Hf in Hf1. by injection Hf1 as ->.
  - destruct Hi as [(_ & -> & _)|[bs Hok]]; [set_solver|]. right. exists bs. by eapply heap_ok_write.
  - destruct Hi as [(Hf & -> & Hb)|[bs Hok]]; [left|right; exists bs; by apply heap_ok_sz]. simpl. split_and!; [done|done|lia|lia|lia].
Qed.

Lemma client_blocks h A : client_inv h A → pw A ∧ Forall (in_heap (h_sz h)) A.
Proof.
  intros [(_ & -> & _)|[bs [_ _ _ Hpw Hin _ _]]]; [by split|].
  apply Forall_app in Hin as [_ Hin]. split; [|done]. clear Hin. induction bs as [|x bs IH]; [done|]. apply IH, Hpw.
Qed.

Lemma client_size h A : client_inv h A → (0 < h_sz h)%Z.
Proof. unfold HEADER. intros [(_ & _ & Hb)|[bs [_ _ _ _ _ _ Hb]]]; unfold HEADER in *; lia. Qed.

(** A request of 2^31 bytes or a little less asks the kernel to shrink the
    process. The kernel refuses, and reports the size as if it had grown. *)
Lemma sbrk_huge h n : (0x7ffffff1 ≤ n ≤ 0x80000000)%Z → (0 < h_sz h < 0x7ffffff0)%Z →
  sbrk has_memory (u32 (units n * HEADER)) h = Done (h_sz h) h.
Proof.
  intros Hn Hsz. assert (Hu : (units n * HEADER = 0x80000000 ∨ units n * HEADER = 0x80000008)%Z).
  { unfold units, HEADER. rewrite (u32_small (n + 8 - 1)) by (unfold is_u32; lia).
    assert ((n + 8 - 1) / 8 = 0xfffffff ∨ (n + 8 - 1) / 8 = 0x10000000)%Z as [->| ->]
      by (Z.to_euclidean_division_equations; lia); vm_compute; auto. }
  unfold sbrk. assert (Hs : (s32 (u32 (units n * HEADER)) = -0x80000000 ∨ s32 (u32 (units n * HEADER)) = -0x7ffffff8)%Z)
    by (destruct Hu as [-> | ->]; vm_compute; auto).
  set (m := s32 _) in *. clearbody m. rewrite decide_False, decide_True by lia. rewrite decide_True; [done|].
  unfold u32. rewrite <-(Z_mod_plus_full _ 1), Z.mod_small by lia. lia.
Qed.

(** C36. The allocator, for every program that allocates up to 0x7fffffe0 bytes
    at a time, frees what it has, writes into its blocks and grows its memory in
    any order. Once [malloc] was called the free list is well formed: it is a
    ring through the static header, in order of addresses, of blocks that do not
    touch; [freep] is one of them; free blocks and those handed out are disjoint
    and inside the process, and each header has its block's size. [malloc] and
    [free] return; a block that [malloc] returns has room for the request and
    overlaps no other block. Beyond that size requests go wrong: for one of about
    2^31 bytes, [morecore] asks the kernel for a negative number of bytes, and
    gets none although the call seems to succeed; one of 2^32-1 bytes is taken
    for one of none. *)
Theorem umalloc_correct h0 h A :
  h_freep h0 = 0%Z → (0 < base ∧ base + HEADER ≤ h_sz h0 ≤ KERNBASE)%Z → rtc client_step (h0, []) (h, A) →
  (h_freep h = 0%Z ∧ A = [] ∨ ∃ bs, heap_ok h bs A) ∧
  pw A ∧ Forall (in_heap (h_sz h)) A ∧
  (∀ n, (0 ≤ n ≤ 0x7fffffe0)%Z → ∃ r h', malloc base has_memory n h = Done r h' ∧
    (r ≠ 0%Z → (n ≤ HEADER * (units n - 1))%Z ∧ in_heap (h_sz h') (r - HEADER, units n)%Z ∧
      Forall (disj (r - HEADER, units n)%Z) A)) ∧
  (∀ b n, (b, n) ∈ A → ∃ h', free (b + HEADER) h = Done tt h') ∧
  (∀ n, (0x7ffffff1 ≤ n ≤ 0x80000000)%Z → (h_sz h < 0x7ffffff0)%Z → sbrk has_memory (u32 (units n * HEADER)) h = Done (h_sz h) h) ∧
  malloc base has_memory 0xffffffff h = malloc base has_memory 0 h.
Proof.
  intros Hf Hb Hst. assert (Hi : client_inv h A).
  { assert (Hgen : ∀ s s', rtc client_step s s' → client_inv s.1 s.2 → client_inv s'.1 s'.2).
    { induction 1 as [|x y z Hxy _ IH]; [done|]. intros H0. by eapply IH, client_step_inv. }
    apply (Hgen _ _ Hst). by left. }
  destruct (client_blocks _ _ Hi) as [Hpw Hin]. split; [destruct Hi as [(? & ? & _)|?]; [by left|by right]|].
  split_and!; [done|done| | | |done].
  - intros n Hn. destruct (malloc_spec _ _ _ Hi Hn) as [(h' & Hm & _)|(r & h' & bs & Hm & Hok)]; [by exists 0%Z, h'|].
    exists (u32 (r + HEADER)), h'. split; [done|]. intros Hr. destruct (malloc_run _ _ _ _ _ Hi Hn Hm) as [[? _]|[_ [bs' Hok']]]; [done|].
    destruct (client_blocks h' _ (or_intror (ex_intro _ bs' Hok'))) as [[Hd _] Hin']. inversion Hin'; subst.
    split_and!; [by apply units_bounds|done|done].
  - intros b n Hbn. apply list_elem_of_split in Hbn as (A1 & A2 & ->).
    destruct (free_total _ _ (A1 ++ A2) b n Hi) as (h' & Hf' & _); [solve_Permutation|by exists h'].
  - intros n Hn Hsz. apply sbrk_huge; [done|]. pose proof (client_size _ _ Hi). lia.
Qed.

End heap_proofs.

(** ** Witness *)

Definition demo_base : Z := 0x2000.
Definition demo_memory (_ _ : Z) : bool := true.
Definition state_of {A} (o : outcome heap A) : heap := match o with Done _ h => h | _ => Heap ∅ 0 0 end.
Definition demo_heap : heap := Heap ∅ 0 0x3000.
Definition demo_heap1 : heap := state_of (malloc demo_base demo_memory 20 demo_heap).
Definition demo_heap2 : heap := state_of (malloc demo_base demo_memory 10 demo_heap1).
Definition demo_heap3 : heap := state_of (free 45032 demo_heap2).

(** A program of three pages allocates two blocks and frees the first one. *)
Lemma umalloc_correct_witness :
  rtc (client_step demo_base demo_memory) (demo_heap, []) (demo_heap3, [(45000, 3)%Z]) ∧
  ∃ h', free (45000 + HEADER) demo_heap3 = Done tt h'.
Proof.
  assert (Hst : rtc (client_step demo_base demo_memory) (demo_heap, []) (demo_heap3, [(45000, 3)%Z])).
  { apply (rtc_l _ _ (demo_heap1, [(45024, 4)%Z])).
    { apply (cs_malloc _ _ demo_heap demo_heap1 [] 20 45032); [lia|vm_compute; reflexivity|done]. }
    apply (rtc_l _ _ (demo_heap2, [(45000, 3); (45024, 4)]%Z)).
    { apply (cs_malloc _ _ demo_heap1 demo_heap2 [(45024, 4)%Z] 10 45008); [lia|vm_compute; reflexivity|done]. }
    apply rtc_once, (cs_free _ _ demo_heap2 demo_heap3 _ _ 45024 4); [apply Permutation_swap|vm_compute; reflexivity]. }
  split; [done|]. destruct (umalloc_correct demo_base demo_memory demo_heap demo_heap3 [(45000, 3)%Z] ltac:(done)
    ltac:(unfold demo_base, HEADER, KERNBASE; simpl; lia) Hst) as (_ & _ & _ & _ & Hf & _).
  exact (Hf 45000%Z 3%Z (list_elem_of_here _ _)).
Defined.
