(* ===== verification/Kbd.v ===== *)
(** * The keyboard driver (kbd.c, kbd.h)

    [shift] is the driver's static variable; the hardware is the result of the
    status port and the scan code in the data port. The tables are arrays of 256
    bytes, and an access outside of an array is an error. *)

From S2P Require Import Prelude.

Definition SHIFT : Z := 1.
Definition CTL : Z := 2.
Definition ALT : Z := 4.
Definition CAPSLOCK : Z := 8.
Definition NUMLOCK : Z := 16.
Definition SCROLLLOCK : Z := 32.
Definition E0ESC : Z := 64.
Definition KBS_DIB : Z := 1.

(** An array of 256 bytes: the entries from 0 on, and those given by index. *)
Definition table (l : list Z) (ext : list (nat * Z)) : list Z :=
  foldr (λ p t, <[p.1 := p.2]> t) (l ++ replicate (256 - length l) 0%Z) ext.
(** [t[i]] for an unsigned index; [None] outside of the array. *)
Definition entry {A} (t : list A) (i : Z) : option A := t !! Z.to_nat i.

Definition shiftcode : list Z := table []
  [(0x1D, CTL); (0x2A, SHIFT); (0x36, SHIFT); (0x38, ALT); (0x9D, CTL); (0xB8, ALT)].
Definition togglecode : list Z := table [] [(0x3A, CAPSLOCK); (0x45, NUMLOCK); (0x46, SCROLLLOCK)].

(** The keys of the keypad and the arrows, in all maps: KEY_UP, KEY_DN, ... *)
Definition special_keys : list (nat * Z) :=
  [(0xC8, 0xE2%Z); (0xD0, 0xE3%Z); (0xC9, 0xE6%Z); (0xD1, 0xE7%Z); (0xCB, 0xE4%Z); (0xCD, 0xE5%Z);
   (0x97, 0xE0%Z); (0xCF, 0xE1%Z); (0xD2, 0xE8%Z); (0xD3, 0xE9%Z)].

Definition normalmap : list Z := table
  [0; 27; 49; 50; 51; 52; 53; 54;
   55; 56; 57; 48; 45; 61; 8; 9;
   113; 119; 101; 114; 116; 121; 117; 105;
   111; 112; 91; 93; 10; 0; 97; 115;
   100; 102; 103; 104; 106; 107; 108; 59;
   39; 96; 0; 92; 122; 120; 99; 118;
   98; 110; 109; 44; 46; 47; 0; 42;
   0; 32; 0; 0; 0; 0; 0; 0;
   0; 0; 0; 0; 0; 0; 0; 55;
   56; 57; 45; 52; 53; 54; 43; 49;
   50; 51; 48; 46]%Z
  ([(0x9C, 10%Z); (0xB5, 47%Z)] ++ special_keys).

Definition shiftmap : list Z := table
  [0; 27; 33; 64; 35; 36; 37; 94;
   38; 42; 40; 41; 95; 43; 8; 9;
   81; 87; 69; 82; 84; 89; 85; 73;
   79; 80; 123; 125; 10; 0; 65; 83;
   68; 70; 71; 72; 74; 75; 76; 58;
   34; 126; 0; 124; 90; 88; 67; 86;
   66; 78; 77; 60; 62; 63; 0; 42;
   0; 32; 0; 0; 0; 0; 0; 0;
   0; 0; 0; 0; 0; 0; 0; 55;
   56; 57; 45; 52; 53; 54; 43; 49;
   50; 51; 48; 46]%Z
  ([(0x9C, 10%Z); (0xB5, 47%Z)] ++ special_keys).

Definition ctlmap : list Z := table
  [0; 0; 0; 0; 0; 0; 0; 0;
   0; 0; 0; 0; 0; 0; 0; 0;
   17; 23; 5; 18; 20; 25; 21; 9;
   15; 16; 0; 0; 13; 0; 1; 19;
   4; 6; 7; 8; 10; 11; 12; 0;
   0; 0; 0; 28; 26; 24; 3; 22;
   2; 14; 13; 0; 0; 239; 0; 0]%Z
  ([(0x9C, 13%Z); (0xB5, 239%Z)] ++ special_keys).

Definition charcode : list (list Z) := [normalmap; shiftmap; ctlmap; ctlmap].

(** The result of [kbdgetc] and the new value of [shift]; [None] for an access
    outside of one of the arrays. *)
Definition kbdgetc (shift st data : Z) : option (Z * Z) :=
  if decide (Z.land st KBS_DIB = 0%Z) then Some ((-1)%Z, shift) else
  if decide (data = 0xE0%Z) then Some (0%Z, Z.lor shift E0ESC) else
  if decide (Z.land data 0x80 ≠ 0%Z) then
    let data := if decide (Z.land shift E0ESC ≠ 0%Z) then data else Z.land data 0x7F in
    code ← entry shiftcode data;
    Some (0%Z, Z.ldiff shift (Z.lor code E0ESC))
  else
    let '(data, shift) :=
      if decide (Z.land shift E0ESC ≠ 0%Z) then (Z.lor data 0x80, Z.ldiff shift E0ESC) else (data, shift) in
    code ← entry shiftcode data;
    let shift := Z.lor shift code in
    toggle ← entry togglecode data;
    let shift := Z.lxor shift toggle in
    m ← entry charcode (Z.land shift (Z.lor CTL SHIFT));
    c ← entry m data;
    let c :=
      if decide (Z.land shift CAPSLOCK ≠ 0%Z) then
        if decide (97 ≤ c ≤ 122)%Z then (c + (65 - 97))%Z
        else if decide (65 ≤ c ≤ 90)%Z then (c + (97 - 65))%Z else c
      else c in
    Some (c, shift).

(** ** What a key means *)

(** The state of the keyboard: the modifiers held down, the locks, and whether
    the last code was the escape 0xE0. *)
Record keyboard := Keyboard {
  k_shift : bool; k_ctl : bool; k_alt : bool;
  k_caps : bool; k_num : bool; k_scroll : bool;
  k_esc : bool
}.
Definition bit (b : bool) (v : Z) : Z := if b then v else 0%Z.
(** The driver's variable. *)
Definition encode (k : keyboard) : Z :=
  (bit (k_shift k) 1 + bit (k_ctl k) 2 + bit (k_alt k) 4 + bit (k_caps k) 8 + bit (k_num k) 16 + bit (k_scroll k) 32 + bit (k_esc k) 64)%Z.
Definition decode (shift : Z) : keyboard :=
  Keyboard (Z.testbit shift 0) (Z.testbit shift 1) (Z.testbit shift 2) (Z.testbit shift 3) (Z.testbit shift 4) (Z.testbit shift 5) (Z.testbit shift 6).

(** The keys: a number from 0 to 127, and whether its codes follow an escape. *)
Inductive key := Key (ext : bool) (n : Z).
Inductive role := Shift | Ctl | Alt | CapsLock | NumLock | ScrollLock | Char.
(** Shift is 0x2A and 0x36, Ctrl 0x1D and Alt 0x38, each also as the right-hand
    key that sends an escape; the locks are 0x3A, 0x45 and 0x46. *)
Definition key_role (k : key) : role :=
  match k with
  | Key false 0x2A | Key false 0x36 => Shift
  | Key _ 0x1D => Ctl
  | Key _ 0x38 => Alt
  | Key false 0x3A => CapsLock
  | Key false 0x45 => NumLock
  | Key false 0x46 => ScrollLock
  | _ => Char
  end.

(** A modifier is on while its key is down; a lock changes when its key is pressed. *)
Definition press (r : role) (k : keyboard) : keyboard :=
  match r, k with
  | Shift, Keyboard s c a p n l e => Keyboard true c a p n l e
  | Ctl, Keyboard s c a p n l e => Keyboard s true a p n l e
  | Alt, Keyboard s c a p n l e => Keyboard s c true p n l e
  | CapsLock, Keyboard s c a p n l e => Keyboard s c a (negb p) n l e
  | NumLock, Keyboard s c a p n l e => Keyboard s c a p (negb n) l e
  | ScrollLock, Keyboard s c a p n l e => Keyboard s c a p n (negb l) e
  | Char, k => k
  end.
Definition release (r : role) (k : keyboard) : keyboard :=
  match r, k with
  | Shift, Keyboard s c a p n l e => Keyboard false c a p n l e
  | Ctl, Keyboard s c a p n l e => Keyboard s false a p n l e
  | Alt, Keyboard s c a p n l e => Keyboard s c false p n l e
  | _, k => k
  end.
Definition set_esc (b : bool) (k : keyboard) : keyboard :=
  Keyboard (k_shift k) (k_ctl k) (k_alt k) (k_caps k) (k_num k) (k_scroll k) b.

(** What the key gives: the entry of one of the maps, with Caps Lock the letter
    of the other case. *)
Definition key_char (k : keyboard) (x : key) : Z :=
  let m := if k_ctl k then ctlmap else if k_shift k then shiftmap else normalmap in
  let c := match x with Key ext n => m !!! Z.to_nat (if ext then n + 128 else n)%Z end in
  if k_caps k then
    if bool_decide (97 ≤ c ≤ 122)%Z then (c - 32)%Z else if bool_decide (65 ≤ c ≤ 90)%Z then (c + 32)%Z else c
  else c.

(** A scan code: the escape, or bit 7 for the release of a key and the key in
    the rest. The escape is for one code only. *)
Definition key_event (k : keyboard) (data : Z) : Z * keyboard :=
  if decide (data = 0xE0%Z) then (0%Z, set_esc true k)
  else
    let x := Key (k_esc k) (data `mod` 128) in
    let k := set_esc false k in
    if decide (128 ≤ data)%Z then (0%Z, release (key_role x) k)
    else let k := press (key_role x) k in (key_char k x, k).

(** The letter of a key, in upper case, and the code that it should give. *)
Definition letter (data : Z) : option Z :=
  let c := normalmap !!! Z.to_nat data in if decide (97 ≤ c ≤ 122)%Z then Some (c - 32)%Z else None.
Definition letter_code (k : keyboard) (c : Z) : Z :=
  if k_ctl k then (c - 64)%Z else if xorb (k_shift k) (k_caps k) then c else (c + 32)%Z.

(** What [kbdgetc] does with a code is what the key means, the result is a
    character code, and a letter gives its code. *)
Definition event_ok (shift data : Z) : Prop :=
  let '(c, k) := key_event (decode shift) data in
  kbdgetc shift KBS_DIB data = Some (c, encode k) ∧ (0 ≤ c < 256)%Z ∧
  match letter data with
  | Some l => k_esc (decode shift) = false → (data < 128)%Z → c = letter_code (decode shift) l
  | None => True
  end.

#[export] Instance event_ok_dec shift data : Decision (event_ok shift data).
Proof. unfold event_ok. destruct (key_event _ _). destruct (letter data); apply _. Defined.

Definition states : list Z := Z.of_nat <$> seq 0 128.
Definition codes : list Z := Z.of_nat <$> seq 0 256.

Lemma events_ok : forallb (λ s, forallb (λ d, bool_decide (event_ok s d)) codes) states = true.
Proof. vm_compute. reflexivity. Qed.

Lemma in_range n (x : Z) : (0 ≤ x < Z.of_nat n)%Z → x ∈ Z.of_nat <$> seq 0 n.
Proof. intros Hx. apply list_elem_of_fmap. exists (Z.to_nat x). split; [lia|]. apply elem_of_seq. lia. Qed.

Lemma every_event shift data : (0 ≤ shift < 128)%Z → (0 ≤ data < 256)%Z → event_ok shift data.
Proof.
  intros Hs Hd. pose proof events_ok as Hall. rewrite forallb_forall in Hall.
  specialize (Hall shift (proj1 (list_elem_of_In _ _) (in_range 128 shift Hs))). rewrite forallb_forall in Hall.
  specialize (Hall data (proj1 (list_elem_of_In _ _) (in_range 256 data Hd))). by apply bool_decide_eq_true in Hall.
Qed.

Lemma encode_all : forallb (λ s, bool_decide (encode (decode s) = s)) states = true.
Proof. vm_compute. reflexivity. Qed.

Lemma encode_decode shift : (0 ≤ shift < 128)%Z → encode (decode shift) = shift.
Proof.
  intros Hs. pose proof encode_all as Hall. rewrite forallb_forall in Hall.
  specialize (Hall shift (proj1 (list_elem_of_In _ _) (in_range 128 shift Hs))). by apply bool_decide_eq_true in Hall.
Qed.

(** C37. The keyboard driver, in every state and for every scan code. The tables
    are never indexed outside of their 256 entries and four maps. The variable
    [shift] is the state of the keyboard, and a code changes it as it should: an
    escape is for the next code only; a modifier is on from the press of its key
    to the release; a lock key changes its lock. The result is the entry of the
    map for Ctrl or Shift, with Caps Lock in the other case; so a letter key gives
    the letter, in upper case exactly if one of Shift and Caps Lock is on, or its
    control code with Ctrl. Without data in the buffer the result is -1 and
    nothing changes. (The release of a key with code 0x60 would be taken for an
    escape.) *)
Theorem kbd_correct shift st data : (0 ≤ shift < 128)%Z → (0 ≤ data < 256)%Z →
  encode (decode shift) = shift ∧
  if decide (Z.land st KBS_DIB = 0%Z) then kbdgetc shift st data = Some ((-1)%Z, shift)
  else kbdgetc shift st data = kbdgetc shift KBS_DIB data ∧ event_ok shift data.
Proof.
  intros Hs Hd. split; [by apply encode_decode|]. unfold kbdgetc at 1 2. case_decide as Hst; [done|].
  split; [done|by apply every_event].
Qed.

(** The key Q with Shift gives 'Q'; the escape is forgotten after the key. *)
Lemma kbd_correct_witness : event_ok SHIFT 0x10 ∧ kbdgetc SHIFT KBS_DIB 0x10 = Some (81%Z, SHIFT) ∧
  event_ok E0ESC 0x48 ∧ kbdgetc E0ESC KBS_DIB 0x48 = Some (0xE2%Z, 0%Z).
Proof.
  split_and!; [|reflexivity| |reflexivity].
  - exact (proj2 (proj2 (kbd_correct SHIFT KBS_DIB 0x10 ltac:(unfold SHIFT; lia) ltac:(lia)))).
  - exact (proj2 (proj2 (kbd_correct E0ESC KBS_DIB 0x48 ltac:(unfold E0ESC; lia) ltac:(lia)))).
Defined.
