(* ===== verification/Console.v ===== *)
(** * The console (console.c, uart.c [uartputc])

    The screen and its cursor, the characters sent to the serial port, and the
    input buffer with its line editing. The console's lock is held throughout an
    operation, except while [consoleread] sleeps: it is translated as the
    segments it runs between sleeps. *)

From S2P Require Import Prelude Params.

(** ** The screen *)

Definition BACKSPACE : Z := 0x100.
Definition COLS : Z := 80.

(** CGA memory, and the cursor of the hardware. *)
Record screen := Screen { crt : list Z; cursor : Z }.

Definition cell (c : Z) : Z := Z.lor (Z.land c 0xff) 0x0700.

(** The position after a character, and the memory with it. *)
Definition advance (c : Z) (s : screen) : list Z * Z :=
  let pos := cursor s in
  if decide (c = 10%Z) then (crt s, (pos + (COLS - pos `mod` COLS))%Z)
  else if decide (c = BACKSPACE) then (crt s, if decide (0 < pos)%Z then (pos - 1)%Z else pos)
  else (<[Z.to_nat pos := cell c]> (crt s), (pos + 1)%Z).

(** Rows 1 to 23 move up; the cells from the new position on are cleared. *)
Definition scroll (m : list Z) (pos : Z) : list Z * Z :=
  let m := splice 0 (bytes_at 80 (23 * 80) m) m in
  let pos := (pos - COLS)%Z in
  (splice (Z.to_nat pos) (replicate (Z.to_nat (24 * COLS - pos)) 0%Z) m, pos).

Definition cgaputc (c : Z) : M screen unit := λ s,
  let '(m, pos) := advance c s in
  if decide (pos < 0 ∨ 25 * COLS < pos)%Z then Panic "pos under/overflow" else
  let '(m, pos) := if decide (24 ≤ pos / COLS)%Z then scroll m pos else (m, pos) in
  Done tt (Screen (<[Z.to_nat pos := cell 32]> m) pos).

(** ** Output *)

Definition INPUT_BUF : Z := 128.
Record input := Input { in_buf : list Z; in_r : Z; in_w : Z; in_e : Z }.

(** [c_serial] are the characters sent to the serial port, if there is one;
    [c_wake] says whether the processes that sleep on [input.r] were woken. *)
Record cons := Cons {
  c_screen : screen;
  c_serial : list Z;
  c_uart : bool;
  c_panicked : bool;
  c_input : input;
  c_wake : bool
}.

Definition uartputc (c : Z) : M cons unit := mmodify (λ s,
  if c_uart s then Cons (c_screen s) (c_serial s ++ [u8 c]) (c_uart s) (c_panicked s) (c_input s) (c_wake s) else s).
Definition on_screen {A} (m : M screen A) : M cons A :=
  zoom c_screen (λ x s, Cons x (c_serial s) (c_uart s) (c_panicked s) (c_input s) (c_wake s)) m.

Definition consputc (c : Z) : M cons unit := λ s,
  if c_panicked s then Diverge else
  ((if decide (c = BACKSPACE) then uartputc 8;; uartputc 32;; uartputc 8 else uartputc c);;
   on_screen (cgaputc c)) s.

Definition consolewrite (buf : list Z) (n : Z) : M cons Z :=
  mfor (take (Z.to_nat n) buf) (λ c, consputc (Z.land c 0xff));;
  mret n.

(** ** Input *)

Definition get_input : M cons input := λ s, Done (c_input s) s.
Definition set_input (i : input) : M cons unit :=
  mmodify (λ s, Cons (c_screen s) (c_serial s) (c_uart s) (c_panicked s) i (c_wake s)).
Definition wake_input : M cons unit :=
  mmodify (λ s, Cons (c_screen s) (c_serial s) (c_uart s) (c_panicked s) (c_input s) true).

Definition in_at (i : input) (k : Z) : Z := in_buf i !!! Z.to_nat (k `mod` INPUT_BUF).
Definition back (i : input) : input := Input (in_buf i) (in_r i) (in_w i) (u32 (in_e i - 1)).
Definition store (c : Z) (i : input) : input :=
  Input (<[Z.to_nat (in_e i `mod` INPUT_BUF) := c]> (in_buf i)) (in_r i) (in_w i) (u32 (in_e i + 1)).
Definition commit (i : input) : input := Input (in_buf i) (in_r i) (in_e i) (in_e i).
Definition next_r (i : input) : input := Input (in_buf i) (u32 (in_r i + 1)) (in_w i) (in_e i).

Definition ctl (x : Z) : Z := (x - 64)%Z.
Definition CTL_D : Z := ctl 68.
Definition CTL_H : Z := ctl 72.
Definition CTL_P : Z := ctl 80.
Definition CTL_U : Z := ctl 85.

(** Kill line: the buffer has at most [INPUT_BUF] characters. *)
Fixpoint kill_line (fuel : nat) : M cons unit :=
  match fuel with
  | O => λ _, Diverge
  | S fuel =>
    i ← get_input;
    if decide (in_e i ≠ in_w i ∧ in_at i (u32 (in_e i - 1)) ≠ 10%Z) then
      set_input (back i);;
      consputc BACKSPACE;;
      kill_line fuel
    else mret tt
  end.

(** One character of [consoleintr]'s loop; control-P only asks for a listing. *)
Definition consoleintr_char (c : Z) : M cons unit :=
  i ← get_input;
  if decide (c = CTL_P) then mret tt
  else if decide (c = CTL_U) then kill_line (S (Z.to_nat INPUT_BUF))
  else if decide (c = CTL_H ∨ c = 127%Z) then
    if decide (in_e i ≠ in_w i) then
      set_input (back i);;
      consputc BACKSPACE
    else mret tt
  else if decide (c ≠ 0%Z ∧ u32 (in_e i - in_r i) < INPUT_BUF)%Z then
    let c := if decide (c = 13%Z) then 10%Z else c in
    set_input (store c i);;
    consputc c;;
    i ← get_input;
    if decide (c = 10%Z ∨ c = CTL_D ∨ in_e i = u32 (in_r i + INPUT_BUF)) then
      set_input (commit i);;
      wake_input
    else mret tt
  else mret tt.

(** The interrupt handler, on the characters that [getc] returns. *)
Definition consoleintr (cs : list Z) : M cons unit := mfor cs consoleintr_char.

(** What a segment of [consoleread] ends with: the count and the bytes, or
    sleep with the bytes so far. *)
Inductive cread := CRet (n : Z) (bytes : list Z) | CSleep (bytes : list Z).

(** [n] characters are still wanted; [bytes] are copied. *)
Fixpoint consoleread_seg (killed : Z) (n : nat) (bytes : list Z) : M cons cread :=
  match n with
  | O => mret (CRet (Z.of_nat (length bytes)) bytes)
  | S n =>
    i ← get_input;
    if decide (in_r i = in_w i) then
      mret (if decide (killed ≠ 0%Z) then CRet (-1) bytes else CSleep bytes)
    else
      let c := in_at i (in_r i) in
      set_input (next_r i);;
      if decide (c = CTL_D) then
        (if decide (bytes ≠ []) then set_input i else mret tt);;
        mret (CRet (Z.of_nat (length bytes)) bytes)
      else if decide (c = 10%Z) then mret (CRet (Z.of_nat (length bytes) + 1) (bytes ++ [c]))
      else consoleread_seg killed n (bytes ++ [c])
  end.

Definition consoleread (killed n : Z) : M cons cread := consoleread_seg killed (Z.to_nat n) [].

(** ** The screen never overflows *)

Definition screen_ok (s : screen) : Prop := 25 * 80 ≤ length (crt s) ∧ (0 ≤ cursor s < 24 * COLS)%Z.

Lemma cgaputc_spec c s : screen_ok s → ∃ s', cgaputc c s = Done tt s' ∧ screen_ok s' ∧ length (crt s') = length (crt s).
Proof.
  intros [Hl Hp]. unfold cgaputc. destruct (advance c s) as [m pos] eqn:Ha.
  assert (Hm : length m = length (crt s) ∧ (0 ≤ pos ≤ 24 * COLS)%Z).
  { unfold advance, COLS in *. pose proof (Z.mod_pos_bound (cursor s) 80 ltac:(lia)).
    pose proof (Z.div_mod (cursor s) 80 ltac:(lia)).
    destruct (decide (c = 10%Z)); [injection Ha as <- <-; split; [done|lia]|].
    destruct (decide (c = BACKSPACE)); injection Ha as <- <-; [split; [done|case_decide; lia]|].
    rewrite length_insert. split; [done|lia]. }
  destruct Hm as [Hm Hpos]. unfold COLS in *. rewrite decide_False by lia. destruct (decide (24 ≤ pos / 80)%Z) as [Hs|Hs].
  - assert (pos = 1920)%Z as -> by (pose proof (Z.div_mod pos 80 ltac:(lia)); pose proof (Z.mod_pos_bound pos 80 ltac:(lia)); lia).
    unfold scroll, COLS. cbn [fst snd]. eexists. split; [reflexivity|]. unfold screen_ok, COLS. cbn [crt cursor].
    assert (Hlen : length (splice 0 (bytes_at 80 (23 * 80) m) m) = length m).
    { apply splice_length. rewrite bytes_at_length by lia. lia. }
    rewrite length_insert, splice_length by (rewrite length_replicate, Hlen; lia). split; [split; lia|lia].
  - eexists. split; [reflexivity|]. unfold screen_ok, COLS. cbn [crt cursor]. rewrite length_insert.
    assert (pos < 1920)%Z by (destruct (decide (pos = 1920)%Z) as [->|]; [by destruct Hs|lia]). split; [split; lia|lia].
Qed.

(** ** The input buffer as a list *)

(** [l] are the characters from [r] to [e], the first [nw] of them before [w]. *)
Record ring (i : input) (l : list Z) (nw : nat) : Prop := {
  rg_len : length (in_buf i) = Z.to_nat INPUT_BUF;
  rg_r : is_u32 (in_r i);
  rg_w : in_w i = u32 (in_r i + Z.of_nat nw);
  rg_e : in_e i = u32 (in_r i + Z.of_nat (length l));
  rg_nw : nw ≤ length l;
  rg_max : length l ≤ Z.to_nat INPUT_BUF;
  rg_at : ∀ j c, l !! j = Some c → in_at i (in_r i + Z.of_nat j) = c
}.

Lemma u32_mod_buf x : (u32 x `mod` INPUT_BUF = x `mod` INPUT_BUF)%Z.
Proof. unfold u32, INPUT_BUF. apply Z.mod_mod_divide. by exists (2 ^ 25)%Z. Qed.

Lemma in_at_u32 i k : in_at i (u32 k) = in_at i k.
Proof. unfold in_at. by rewrite u32_mod_buf. Qed.

Lemma in_at_r i k : in_at i (u32 (in_r i + 1) + k) = in_at i (in_r i + (k + 1)).
Proof. rewrite <-in_at_u32, u32_add_l, in_at_u32. f_equal. lia. Qed.

(** Counters that are at most [INPUT_BUF] apart differ if their distance does. *)
Lemma u32_near r a b : (0 ≤ a ≤ INPUT_BUF)%Z → (0 ≤ b ≤ INPUT_BUF)%Z → u32 (r + a) = u32 (r + b) → a = b.
Proof.
  intros Ha Hb Heq. unfold INPUT_BUF in *. assert (Hd : u32 (r + a - r) = u32 (r + b - r)).
  { rewrite <-(u32_sub_l (r + a)), Heq. apply u32_sub_l. }
  replace (r + a - r)%Z with a in Hd by lia. replace (r + b - r)%Z with b in Hd by lia.
  by rewrite !u32_small in Hd by (unfold is_u32; lia).
Qed.

Lemma ring_used i l nw : ring i l nw → u32 (in_e i - in_r i) = Z.of_nat (length l).
Proof.
  intros [_ _ _ -> _ Hm _]. rewrite u32_sub_l. replace (_ - _)%Z with (Z.of_nat (length l)) by lia.
  apply u32_small. unfold is_u32, INPUT_BUF in *. lia.
Qed.

Lemma ring_edit i l nw : ring i l nw → in_e i = in_w i ↔ length l = nw.
Proof.
  intros [_ _ -> -> Hn Hm _]. unfold INPUT_BUF in Hm. split; [|by intros ->].
  intros Heq%u32_near; unfold INPUT_BUF; lia.
Qed.

Lemma ring_ready i l nw : ring i l nw → in_r i = in_w i ↔ nw = 0.
Proof.
  intros [_ Hr -> _ Hn Hm _]. unfold INPUT_BUF in Hm. split.
  - intros Heq. assert (Hz : u32 (in_r i + 0) = u32 (in_r i + Z.of_nat nw)) by (by rewrite Z.add_0_r, u32_small).
    apply u32_near in Hz; unfold INPUT_BUF; lia.
  - intros ->. by rewrite Z.add_0_r, u32_small.
Qed.

Lemma ring_full i l nw : ring i l nw → in_e i = u32 (in_r i + INPUT_BUF) ↔ length l = Z.to_nat INPUT_BUF.
Proof.
  intros [_ _ _ -> Hn Hm _]. split; [|intros ->; by rewrite Z2Nat.id by (unfold INPUT_BUF; lia)].
  intros Heq%u32_near; unfold INPUT_BUF in *; lia.
Qed.

Lemma mod_near r a b : (0 ≤ a < b)%Z → (b < a + INPUT_BUF)%Z → ((r + a) `mod` INPUT_BUF ≠ (r + b) `mod` INPUT_BUF)%Z.
Proof.
  unfold INPUT_BUF. intros Hab Hb Heq. assert (Hz : (((r + b) - (r + a)) `mod` 128 = 0)%Z).
  { rewrite Zminus_mod, Heq, Z.sub_diag. done. }
  replace (r + b - (r + a))%Z with (b - a)%Z in Hz by lia. rewrite Z.mod_small in Hz; lia.
Qed.

Lemma ring_store i l nw c : ring i l nw → length l < Z.to_nat INPUT_BUF → ring (store c i) (l ++ [c]) nw.
Proof.
  intros Hi Hl. pose proof Hi as [Hlen Hr Hw He Hn Hm Hat]. unfold store. constructor; cbn [in_buf in_r in_w in_e].
  - by rewrite length_insert.
  - done.
  - done.
  - rewrite He, u32_add_l, length_app. simpl. f_equal. lia.
  - rewrite length_app. lia.
  - rewrite length_app. simpl. lia.
  - assert (Hpos : ∀ k, (0 ≤ k `mod` INPUT_BUF < INPUT_BUF)%Z) by (intros k; apply Z.mod_pos_bound; unfold INPUT_BUF; lia).
    intros j d Hj. unfold in_at. cbn [in_buf]. rewrite He, u32_mod_buf.
    apply lookup_app_Some in Hj as [Hj|[Hge Hj]].
    + apply lookup_lt_Some in Hj as Hlt. rewrite list_lookup_total_insert_ne; [by apply Hat|].
      intros Heq%Z2Nat.inj; [|apply Hpos..]. symmetry in Heq. apply mod_near in Heq; unfold INPUT_BUF in *; lia.
    + apply list_lookup_singleton_Some in Hj as [Hj <-]. replace j with (length l) by lia.
      apply list_lookup_total_insert_eq. rewrite Hlen. specialize (Hpos (in_r i + Z.of_nat (length l))%Z). lia.
Qed.

Lemma ring_back i l nw c : ring i (l ++ [c]) nw → nw ≤ length l →
  ring (back i) l nw ∧ in_at i (u32 (in_e i - 1)) = c.
Proof.
  intros [Hlen Hr Hw He Hn Hm Hat] Hnw. rewrite length_app in *. simpl in *. split.
  - unfold back. constructor; cbn [in_buf in_r in_w in_e]; try done; [|lia|].
    + rewrite He, u32_sub_l. f_equal. lia.
    + intros j d Hj. apply Hat. by apply lookup_app_l_Some.
  - rewrite in_at_u32, He, <-in_at_u32, u32_sub_l, in_at_u32.
    replace (_ - 1)%Z with (in_r i + Z.of_nat (length l))%Z by lia. apply Hat. by rewrite lookup_app_r, Nat.sub_diag by lia.
Qed.

Lemma ring_commit i l nw : ring i l nw → ring (commit i) l (length l).
Proof. intros [Hlen Hr Hw He Hn Hm Hat]. by constructor. Qed.

Lemma ring_next i c l nw : ring i (c :: l) (S nw) → in_at i (in_r i) = c ∧ ring (next_r i) l nw.
Proof.
  intros [Hlen Hr Hw He Hn Hm Hat]. simpl in *. split; [rewrite <-(Hat 0 c); [f_equal; lia|done]|].
  unfold next_r. constructor; cbn [in_buf in_r in_w in_e]; [done|apply u32_range|..|lia|lia|].
  - rewrite Hw, u32_add_l. f_equal. lia.
  - rewrite He, u32_add_l. f_equal. lia.
  - intros j d Hj. unfold in_at at 1. cbn [in_buf]. fold (in_at i (u32 (in_r i + 1) + Z.of_nat j)).
    rewrite in_at_r. rewrite <-(Hat (S j) d Hj). f_equal. lia.
Qed.

(** ** The line discipline

    The characters that readers may take, and those of the line being edited. *)

Definition intr (c : Z) (x : list Z * list Z) : list Z * list Z :=
  let '(ready, edit) := x in
  if decide (c = CTL_P) then x
  else if decide (c = CTL_U) then (ready, [])
  else if decide (c = CTL_H ∨ c = 127%Z) then (ready, take (length edit - 1) edit)
  else if decide (c ≠ 0%Z ∧ length (ready ++ edit) < Z.to_nat INPUT_BUF) then
    let c := if decide (c = 13%Z) then 10%Z else c in
    if decide (c = 10%Z ∨ c = CTL_D ∨ length (ready ++ edit ++ [c]) = Z.to_nat INPUT_BUF)
    then (ready ++ edit ++ [c], [])
    else (ready, edit ++ [c])
  else x.

Fixpoint read_ready (killed : Z) (n : nat) (bytes ready : list Z) : cread * list Z :=
  match n with
  | O => (CRet (Z.of_nat (length bytes)) bytes, ready)
  | S n =>
    match ready with
    | [] => (if decide (killed ≠ 0%Z) then CRet (-1) bytes else CSleep bytes, [])
    | c :: rest =>
      if decide (c = CTL_D) then
        (CRet (Z.of_nat (length bytes)) bytes, if decide (bytes ≠ []) then ready else rest)
      else if decide (c = 10%Z) then (CRet (Z.of_nat (length bytes) + 1) (bytes ++ [c]), rest)
      else read_ready killed n (bytes ++ [c]) rest
    end
  end.

Definition cons_ok (s : cons) : Prop := screen_ok (c_screen s) ∧ c_panicked s = false.
Definition rep (s : cons) (x : list Z * list Z) : Prop :=
  ring (c_input s) (x.1 ++ x.2) (length x.1) ∧ 10%Z ∉ x.2.

(** A step that leaves the input alone. *)
Definition quiet (s s' : cons) : Prop := cons_ok s' ∧ c_input s' = c_input s ∧ c_wake s' = c_wake s.

Lemma uartputc_quiet c s : cons_ok s → ∃ s', uartputc c s = Done tt s' ∧ quiet s s'.
Proof. intros Hok. eexists. split; [reflexivity|]. unfold quiet. by destruct (c_uart s). Qed.

Lemma consputc_quiet c s : cons_ok s → ∃ s', consputc c s = Done tt s' ∧ quiet s s'.
Proof.
  intros Hok. unfold consputc. rewrite (proj2 Hok).
  assert (Hu : ∃ s1, (if decide (c = BACKSPACE) then uartputc 8;; uartputc 32;; uartputc 8 else uartputc c) s = Done tt s1 ∧ quiet s s1).
  { case_decide; [|by apply uartputc_quiet]. destruct (uartputc_quiet 8 s Hok) as (s1 & H1 & Hq1 & Hi1 & Hw1).
    destruct (uartputc_quiet 32 s1 Hq1) as (s2 & H2 & Hq2 & Hi2 & Hw2). destruct (uartputc_quiet 8 s2 Hq2) as (s3 & H3 & Hq3 & Hi3 & Hw3).
    exists s3. rewrite (run_bind _ _ _ _ _ H1), (run_bind _ _ _ _ _ H2). split; [done|]. split_and!; [done|congruence|congruence]. }
  destruct Hu as (s1 & H1 & [Hs1 Hp1] & Hi1 & Hw1). rewrite (run_bind _ _ _ _ _ H1).
  destruct (cgaputc_spec c _ Hs1) as (x & Hx & Hxok & _). unfold on_screen, zoom. rewrite Hx. eexists. split; [reflexivity|].
  unfold quiet, cons_ok. cbn [c_screen c_panicked c_input c_wake]. by rewrite Hi1, Hw1.
Qed.

(** The last character of the line is erased. *)
Lemma erase_spec ready edit c s : cons_ok s → rep s (ready, edit ++ [c]) →
  in_e (c_input s) ≠ in_w (c_input s) ∧ in_at (c_input s) (u32 (in_e (c_input s) - 1)) = c ∧
  ∃ s', (set_input (back (c_input s));; consputc BACKSPACE) s = Done tt s' ∧ cons_ok s' ∧ rep s' (ready, edit) ∧
    c_wake s' = c_wake s.
Proof.
  intros Hok [Hr Hn]. simpl in Hr, Hn. rewrite app_assoc in Hr.
  destruct (ring_back _ _ _ _ Hr) as [Hb Hc]; [rewrite length_app; lia|]. split_and!; [|done|].
  - intros He. apply (ring_edit _ _ _ Hr) in He. rewrite !length_app in He. simpl in He. lia.
  - set (s1 := Cons (c_screen s) (c_serial s) (c_uart s) (c_panicked s) (back (c_input s)) (c_wake s)).
    rewrite (run_bind (set_input _) _ _ tt s1) by done.
    destruct (consputc_quiet BACKSPACE s1 Hok) as (s2 & H2 & Hq2 & Hi2 & Hw2).
    exists s2. split_and!; [done|done| |done]. split; [by rewrite Hi2|set_solver].
Qed.

Lemma rep_no_edit ready s : rep s (ready, []) → in_e (c_input s) = in_w (c_input s).
Proof. intros [Hr _]. apply (ring_edit _ _ _ Hr). simpl. by rewrite app_nil_r. Qed.

Lemma kill_line_spec ready edit fuel s : cons_ok s → rep s (ready, edit) → length edit < fuel →
  ∃ s', kill_line fuel s = Done tt s' ∧ cons_ok s' ∧ rep s' (ready, []) ∧ c_wake s' = c_wake s.
Proof.
  revert fuel s. induction edit as [|c edit IH] using rev_ind; intros [|fuel] s Hok Hr Hf; [lia| |lia|]; cbn [kill_line];
    rewrite (run_bind _ _ _ (c_input s) s) by done.
  - rewrite decide_False; [by exists s|]. intros [He _]. by apply He, (rep_no_edit ready).
  - rewrite length_app in Hf. simpl in Hf. destruct (erase_spec _ _ _ _ Hok Hr) as (He & Hc & s2 & H2 & Hok2 & Hr2 & Hw2).
    rewrite decide_True by (split; [done|rewrite Hc; destruct Hr as [_ Hn]; set_solver]).
    destruct (IH fuel s2 Hok2 Hr2 ltac:(lia)) as (s3 & H3 & Hok3 & Hr3 & Hw3). exists s3.
    split_and!; [|done|done|by rewrite Hw3]. rewrite <-H3. apply (run_bind _ (λ _, kill_line fuel)) in H2.
    rewrite <-H2. unfold mbind, M_bind. simpl. by destruct (consputc BACKSPACE _).
Qed.

(** Whether a character makes input ready. *)
Definition wakes (c : Z) (x : list Z * list Z) : bool := negb (bool_decide ((intr c x).1 = x.1)).

Lemma intr_spec c x s : cons_ok s → rep s x →
  ∃ s', consoleintr_char c s = Done tt s' ∧ cons_ok s' ∧ rep s' (intr c x) ∧ c_wake s' = c_wake s || wakes c x.
Proof.
  destruct x as [ready edit]. intros Hok Hrep. pose proof Hrep as [Hr Hn]. simpl in Hr, Hn.
  unfold consoleintr_char, wakes, intr. rewrite (run_bind _ _ _ (c_input s) s) by done.
  destruct (decide (c = CTL_P)); [exists s; rewrite bool_decide_true by done; by rewrite orb_false_r|].
  destruct (decide (c = CTL_U)).
  { destruct (kill_line_spec ready edit (S (Z.to_nat INPUT_BUF)) s Hok Hrep) as (s' & Hs & Hok' & Hr' & Hw').
    { pose proof (rg_max _ _ _ Hr) as Hm. rewrite length_app in Hm. lia. }
    exists s'. rewrite bool_decide_true by done. rewrite orb_false_r. done. }
  destruct (decide (c = CTL_H ∨ c = 127%Z)).
  { rewrite bool_decide_true by done. rewrite orb_false_r. destruct edit as [|d edit _] using rev_ind.
    - rewrite decide_False; [by exists s|]. intros He. by apply He, (rep_no_edit ready).
    - destruct (erase_spec _ _ _ _ Hok Hrep) as (He & _ & Hs'). rewrite decide_True by done.
      by rewrite length_app, Nat.add_sub, take_app_length. }
  rewrite (ring_used _ _ _ Hr). destruct (decide (c ≠ 0%Z ∧ length (ready ++ edit) < Z.to_nat INPUT_BUF)) as [[Hc0 Hl]|Hd].
  2:{ rewrite decide_False by (unfold INPUT_BUF in *; lia). rewrite bool_decide_true by done. rewrite orb_false_r. by exists s. }
  rewrite decide_True by (unfold INPUT_BUF in *; lia). set (c' := if decide (c = 13%Z) then 10%Z else c).
  set (s1 := Cons (c_screen s) (c_serial s) (c_uart s) (c_panicked s) (store c' (c_input s)) (c_wake s)).
  rewrite (run_bind (set_input _) _ _ tt s1) by done.
  destruct (consputc_quiet c' s1 Hok) as (s2 & H2 & Hq2 & Hi2 & Hw2). rewrite (run_bind _ _ _ _ _ H2).
  rewrite (run_bind _ _ _ (c_input s2) s2) by done.
  pose proof (ring_store _ _ _ c' Hr Hl) as Hst. change (store c' (c_input s)) with (c_input s1) in Hst.
  rewrite <-Hi2 in Hst. rewrite <-app_assoc in Hst. pose proof (ring_full _ _ _ Hst) as Hfull.
  destruct (decide (c' = 10%Z ∨ c' = CTL_D ∨ length (ready ++ edit ++ [c']) = Z.to_nat INPUT_BUF)) as [Hcm|Hcm].
  - rewrite decide_True by (rewrite Hfull; done). eexists. split; [reflexivity|]. cbn [fst snd].
    rewrite bool_decide_false. 2:{ intros Heq%(f_equal length). rewrite !length_app in Heq. simpl in Heq. lia. }
    rewrite orb_true_r. split_and!; [done| |done]. split; [|set_solver]. cbn [c_input fst snd]. rewrite app_nil_r.
    by apply (ring_commit _ _ _ Hst).
  - rewrite decide_False by (rewrite Hfull; done). exists s2. cbn [fst snd]. rewrite bool_decide_true by done.
    rewrite orb_false_r. split_and!; [done|done| |done]. split; [done|]. cbn [snd]. set_solver.
Qed.

Lemma consoleintr_spec cs x s : cons_ok s → rep s x →
  ∃ s', consoleintr cs s = Done tt s' ∧ cons_ok s' ∧ rep s' (foldl (λ y c, intr c y) x cs) ∧
    (c_wake s = true ∨ (foldl (λ y c, intr c y) x cs).1 ≠ x.1 → c_wake s' = true).
Proof.
  revert x s. induction cs as [|c cs IH]; intros x s Hok Hr; [exists s; split_and!; [done|done|done|by intros [?|?]]|].
  destruct (intr_spec c x s Hok Hr) as (s1 & H1 & Hok1 & Hr1 & Hw1).
  destruct (IH (intr c x) s1 Hok1 Hr1) as (s2 & H2 & Hok2 & Hr2 & Hw2). exists s2. split_and!; [|done|done|].
  - unfold consoleintr. simpl. rewrite (run_bind _ _ _ _ _ H1). exact H2.
  - simpl. intros Hg. apply Hw2. rewrite Hw1. unfold wakes.
    destruct (decide ((intr c x).1 = x.1)) as [Heq|Hne]; [|left; by rewrite bool_decide_false, orb_true_r].
    rewrite Heq. destruct Hg as [->|?]; [by left|by right].
Qed.

Lemma rep_input ready edit s i : ring i (ready ++ edit) (length ready) → 10%Z ∉ edit →
  rep (Cons (c_screen s) (c_serial s) (c_uart s) (c_panicked s) i (c_wake s)) (ready, edit).
Proof. done. Qed.

Lemma consoleread_spec killed n bytes ready edit s : cons_ok s → rep s (ready, edit) →
  ∃ s', consoleread_seg killed n bytes s = Done (read_ready killed n bytes ready).1 s' ∧ cons_ok s' ∧
    rep s' ((read_ready killed n bytes ready).2, edit).
Proof.
  revert bytes ready s. induction n as [|n IH]; intros bytes ready s Hok Hrep; cbn [consoleread_seg read_ready]; [by exists s|].
  rewrite (run_bind _ _ _ (c_input s) s) by done. pose proof Hrep as [Hr Hn]. simpl in Hr, Hn.
  destruct ready as [|c rest].
  { rewrite decide_True by (by apply (ring_ready _ _ _ Hr)). by exists s. }
  rewrite decide_False by (rewrite (ring_ready _ _ _ Hr); done). destruct (ring_next _ _ _ _ Hr) as [Hc Hnx]. rewrite Hc.
  set (s1 := Cons (c_screen s) (c_serial s) (c_uart s) (c_panicked s) (next_r (c_input s)) (c_wake s)).
  rewrite (run_bind (set_input _) _ _ tt s1) by done. destruct (decide (c = CTL_D)).
  - case_decide; (eexists; split_and!; [reflexivity|done|]); [by apply (rep_input (c :: rest))|by apply rep_input].
  - destruct (decide (c = 10%Z)); [exists s1; split_and!; [done|done|by apply rep_input]|]. apply IH; [done|by apply rep_input].
Qed.

Lemma consolewrite_spec buf n s : cons_ok s → ∃ s', consolewrite buf n s = Done n s' ∧ quiet s s'.
Proof.
  unfold consolewrite. generalize (take (Z.to_nat n) buf). intros l. revert s.
  assert (Hl : ∀ s, cons_ok s → ∃ s', mfor l (λ c, consputc (Z.land c 0xff)) s = Done tt s' ∧ quiet s s').
  { induction l as [|c l IH]; intros s Hok; [by exists s|]. destruct (consputc_quiet (Z.land c 0xff) s Hok) as (s1 & H1 & Hok1 & Hi1 & Hw1).
    destruct (IH s1 Hok1) as (s2 & H2 & Hok2 & Hi2 & Hw2). exists s2. simpl. rewrite (run_bind _ _ _ _ _ H1).
    split; [done|]. split_and!; [done|congruence|congruence]. }
  intros s Hok. destruct (Hl s Hok) as (s' & Hs & Hq). exists s'. by rewrite (run_bind _ _ _ _ _ Hs).
Qed.

(** C38. The console implements a line discipline, for every state and across
    the wrap-around of the buffer's indices: interrupts edit the current line
    and make it ready, and wake the readers if they do; [consoleread] takes the
    ready characters up to a newline or control-D, which is kept for the next
    call if it does not come first. No operation diverges or runs out of the
    buffer or the screen. *)
Theorem console_refines s x : cons_ok s → rep s x →
  (∀ cs, ∃ s', consoleintr cs s = Done tt s' ∧ cons_ok s' ∧ rep s' (foldl (λ y c, intr c y) x cs) ∧
    ((foldl (λ y c, intr c y) x cs).1 ≠ x.1 → c_wake s' = true)) ∧
  (∀ killed n, let res := read_ready killed (Z.to_nat n) [] x.1 in
    ∃ s', consoleread killed n s = Done res.1 s' ∧ cons_ok s' ∧ rep s' (res.2, x.2)) ∧
  (∀ buf n, ∃ s', consolewrite buf n s = Done n s' ∧ cons_ok s' ∧ rep s' x).
Proof.
  intros Hok Hr. split_and!.
  - intros cs. destruct (consoleintr_spec cs x s Hok Hr) as (s' & Hs & Hok' & Hr' & Hw). exists s'.
    split_and!; [done|done|done|]. intros Hne. apply Hw. by right.
  - intros killed n. cbv zeta. destruct x as [ready edit]. by apply consoleread_spec.
  - intros buf n. destruct (consolewrite_spec buf n s Hok) as (s' & Hs & Hok' & Hi & _). exists s'.
    split_and!; [done|done|]. unfold rep. by rewrite Hi.
Qed.

(** ** Witness *)

Definition demo_cons : cons :=
  Cons (Screen (replicate (25 * 80) 0%Z) 0) [] true false (Input (replicate 128 0%Z) 4294967294 4294967294 4294967294) false.

(** "lx", backspace, "s" and return are typed, then 10 characters are read. *)
Lemma console_refines_witness : ∃ s', consoleintr [108; 120; 8; 115; 13]%Z demo_cons = Done tt s' ∧
  c_wake s' = true ∧ rep s' ([108; 115; 10]%Z, []).
Proof.
  assert (Hok : cons_ok demo_cons) by (split; [split; vm_compute; [lia|split; [discriminate|reflexivity]]|reflexivity]).
  assert (Hrep : rep demo_cons ([], [])).
  { split; [|set_solver]. constructor; simpl; [reflexivity|unfold is_u32; lia|reflexivity|reflexivity|lia|lia|done]. }
  destruct (console_refines demo_cons ([], []) Hok Hrep) as (Hintr & _ & _).
  destruct (Hintr [108; 120; 8; 115; 13]%Z) as (s' & Hs & _ & Hr & Hw). exists s'. split_and!; [done|by apply Hw|exact Hr].
Defined.
