(* ===== verification/Sh.v ===== *)
(** * The shell (sh.c)

    The state of the parser is [*ps], the rest of the line up to its NUL. A
    pointer into the line is the number of characters from it to the end [es];
    a token is the pair of pointers to its start and its end. *)

From S2P Require Import Prelude Params CString Ulib.

Definition MAXARGS : nat := 10.
Definition O_RDONLY : Z := 0x000.
Definition O_WRONLY : Z := 0x001.
Definition O_CREATE : Z := 0x200.

(** Commands over a type of words: pairs of pointers in the parser, texts after it. *)
Inductive cmd (T : Type) :=
| EXEC (argv : list T)
| REDIR (c : cmd T) (file : T) (mode fd : Z)
| PIPE (left right : cmd T)
| LIST (left right : cmd T)
| BACK (c : cmd T).
Arguments EXEC {T} argv.
Arguments REDIR {T} c file mode fd.
Arguments PIPE {T} left right.
Arguments LIST {T} left right.
Arguments BACK {T} c.

Fixpoint cmd_map {T U} (f : T → U) (c : cmd T) : cmd U :=
  match c with
  | EXEC argv => EXEC (f <$> argv)
  | REDIR c file mode fd => REDIR (cmd_map f c) (f file) mode fd
  | PIPE l r => PIPE (cmd_map f l) (cmd_map f r)
  | LIST l r => LIST (cmd_map f l) (cmd_map f r)
  | BACK c => BACK (cmd_map f c)
  end.

(** ** Tokens *)

Definition whitespace : list Z := [32; 9; 13; 10; 11]%Z.        (* " \t\r\n\v" *)
Definition symbols : list Z := [60; 124; 62; 38; 59; 40; 41]%Z.  (* "<|>&;()" *)
Definition is_ws (c : Z) : bool := bool_decide (c ∈ whitespace).
Definition is_sym (c : Z) : bool := bool_decide (c ∈ symbols).

Fixpoint skip_ws (s : list Z) : list Z :=
  match s with
  | c :: s' => if is_ws c then skip_ws s' else s
  | [] => []
  end.

(** The rest of the line after a word. *)
Fixpoint skip_word (s : list Z) : list Z :=
  match s with
  | c :: s' => if is_ws c || is_sym c then s else skip_word s'
  | [] => []
  end.

Abbreviation ptrs := (nat * nat)%type.
Abbreviation P := (M (list Z)).

(** The code of the next token, its pointers, and the rest of the line. *)
Definition gettoken : P (Z * ptrs) := λ s,
  let s := skip_ws s in
  let '(ret, s') :=
    match s with
    | [] => (0%Z, [])
    | c :: t =>
      if decide (c ∈ [124; 40; 41; 59; 38; 60]%Z) then (c, t)
      else if decide (c = 62%Z) then
        match t with
        | d :: t' => if decide (d = 62%Z) then (43%Z, t') else (c, t)
        | [] => (c, t)
        end
      else (97%Z, skip_word s)
    end in
  Done (ret, (length s, length s')) (skip_ws s').

Definition peek (toks : list Z) : P bool := λ s,
  let s := skip_ws s in
  Done (match s with c :: _ => bool_decide (c ∈ toks) | [] => false end) s.

(** ** The parser *)

(** Redirections around a command, the first one innermost. *)
Abbreviation redir T := (T * Z * Z)%type.
Definition add_redirs {T} (c : cmd T) (rs : list (redir T)) : cmd T :=
  foldl (λ c r, REDIR c r.1.1 r.1.2 r.2) c rs.

Fixpoint parseredirs (fuel : nat) : P (list (redir ptrs)) :=
  match fuel with
  | O => λ _, Diverge
  | S fuel =>
    b ← peek [60; 62]%Z;
    if (b : bool) then
      t ← gettoken;
      f ← gettoken;
      assert_or_panic (f.1 =? 97)%Z "missing file for redirection";;
      let r := if decide (t.1 = 60%Z) then (f.2, O_RDONLY, 0%Z) else (f.2, Z.lor O_WRONLY O_CREATE, 1%Z) in
      rs ← parseredirs fuel;
      mret (r :: rs)
    else mret []
  end.

(** The loop of [parseexec]: the arguments and the redirections among them. *)
Fixpoint parseargs (fuel : nat) (argc : nat) : P (list ptrs * list (redir ptrs)) :=
  match fuel with
  | O => λ _, Diverge
  | S fuel =>
    b ← peek [124; 41; 38; 59]%Z;
    if (b : bool) then mret ([], []) else
    t ← gettoken;
    if decide (t.1 = 0%Z) then mret ([], []) else
    assert_or_panic (t.1 =? 97)%Z "syntax";;
    assert_or_panic (negb (bool_decide (MAXARGS ≤ S argc))) "too many args";;
    rs ← parseredirs fuel;
    x ← parseargs fuel (S argc);
    mret (t.2 :: x.1, rs ++ x.2)
  end.

(** The loop over '&' of [parseline]. *)
Fixpoint parsebacks (fuel : nat) (c : cmd ptrs) : P (cmd ptrs) :=
  match fuel with
  | O => λ _, Diverge
  | S fuel =>
    b ← peek [38%Z];
    if (b : bool) then gettoken;; parsebacks fuel (BACK c) else mret c
  end.

Fixpoint parseline (fuel : nat) : P (cmd ptrs) :=
  match fuel with
  | O => λ _, Diverge
  | S fuel =>
    c ← parsepipe fuel;
    c ← parsebacks fuel c;
    b ← peek [59%Z];
    if (b : bool) then gettoken;; r ← parseline fuel; mret (LIST c r) else mret c
  end
with parsepipe (fuel : nat) : P (cmd ptrs) :=
  match fuel with
  | O => λ _, Diverge
  | S fuel =>
    c ← parseexec fuel;
    b ← peek [124%Z];
    if (b : bool) then gettoken;; r ← parsepipe fuel; mret (PIPE c r) else mret c
  end
with parseexec (fuel : nat) : P (cmd ptrs) :=
  match fuel with
  | O => λ _, Diverge
  | S fuel =>
    b ← peek [40%Z];
    if (b : bool) then
      (* parseblock *)
      gettoken;;
      c ← parseline fuel;
      b ← peek [41%Z];
      assert_or_panic b "syntax - missing )";;
      gettoken;;
      rs ← parseredirs fuel;
      mret (add_redirs c rs)
    else
      rs ← parseredirs fuel;
      x ← parseargs fuel 0;
      mret (add_redirs (EXEC x.1) (rs ++ x.2))
  end.

(** Every call that does not consume a character is in a chain of three. *)
Definition parse_fuel (s : list Z) : nat := 3 * length s + 4.

(** ** Termination of the strings *)

(** The buffer holds the line and its NUL; [k] characters from the end. *)
Definition put_nul (line : list Z) (k : nat) (buf : list Z) : list Z := <[length line - k := 0%Z]> buf.

Definition put_nuls (line : list Z) (ts : list ptrs) (buf : list Z) : list Z := foldl (λ b t, put_nul line t.2 b) buf ts.

Fixpoint nulterminate (line : list Z) (c : cmd ptrs) (buf : list Z) : list Z :=
  match c with
  | EXEC argv => put_nuls line argv buf
  | REDIR c file _ _ => put_nul line file.2 (nulterminate line c buf)
  | PIPE l r | LIST l r => nulterminate line r (nulterminate line l buf)
  | BACK c => nulterminate line c buf
  end.

(** The characters left over are printed before the panic. *)
Definition parsecmd (s : list Z) : outcome (list Z) (cmd ptrs * list Z) :=
  (c ← parseline (parse_fuel s);
   peek [];;
   rest ← mget;
   assert_or_panic (bool_decide (rest = [])) "syntax";;
   mret (c, nulterminate s c (s ++ [0%Z]))) s.

(** The C string at the start of a word, in the buffer that [parsecmd] leaves. *)
Definition cstring (line buf : list Z) (t : ptrs) : list Z := until_nul (drop (length line - t.1) buf).

(** ** Running a command *)

(** The system calls of a process, as a tree: [Fork] has the parent's calls when
    it fails, the child's and the parent's; [Exec], [Open], [Pipe] and [Chdir]
    have the calls after a failure, [Pipe] gives the numbers of its two
    descriptors; [Printf] is a message on descriptor 2. [Next] is the next turn
    of the loop of [main]. *)
Inductive prog :=
| Exit
| Next
| Printf (fmt : string) (args : list (list Z)) (k : prog)
| Exec (argv : list (list Z)) (fails : prog)
| Close (fd : Z) (k : prog)
| Dup (fd : Z) (k : prog)
| Open (file : list Z) (mode : Z) (fails k : prog)
| Fork (fails child parent : prog)
| Wait_ (k : prog)
| Pipe_ (fails : prog) (k : Z → Z → prog)
| Chdir (path : list Z) (fails k : prog)
| Setid (uid : bool) (i : Z) (fails k : prog)
| Getid (uid : bool) (k : prog).

Definition sh_panic (s : string) : prog := Printf (s +:+ "\n") [] Exit.
Definition fork1 : prog → prog → prog := Fork (sh_panic "fork").

Fixpoint runcmd (c : cmd (list Z)) : prog :=
  match c with
  | EXEC [] => Exit
  | EXEC (file :: _ as argv) => Exec argv (Printf "exec %s failed\n" [file] Exit)
  | REDIR c file mode fd => Close fd (Open file mode (Printf "open %s failed\n" [file] Exit) (runcmd c))
  | LIST l r => fork1 (runcmd l) (Wait_ (runcmd r))
  | PIPE l r =>
    Pipe_ (sh_panic "pipe") (λ p0 p1,
      fork1 (Close 1 (Dup p1 (Close p0 (Close p1 (runcmd l)))))
        (fork1 (Close 0 (Dup p0 (Close p0 (Close p1 (runcmd r)))))
          (Close p0 (Close p1 (Wait_ (Wait_ Exit))))))
  | BACK c => fork1 (runcmd c) Exit
  end.

(** ** The shell's loop *)

Definition NBUF : Z := 100.

Definition getcmd (nbuf : Z) (inp : list Z) : option (list Z) * list Z :=
  let '(l, rest) := gets nbuf inp in
  match until_nul l with [] => (None, rest) | s => (Some s, rest) end.

(** The order of two strings up to [n] characters. *)
Fixpoint strncmp (p q : list Z) (n : nat) : Z :=
  match n with
  | O => 0
  | S n =>
    let c := default 0 (head p) in
    let d := default 0 (head q) in
    if decide (c ≠ 0 ∧ c = d) then strncmp (tail p) (tail q) n else u8 c - u8 d
  end%Z.

Definition str_set : list Z := [95; 115; 101; 116]%Z.
Definition str_get : list Z := [95; 103; 101; 116]%Z.
Definition str_uid : list Z := [117; 105; 100]%Z.
Definition str_gid : list Z := [103; 105; 100]%Z.

Definition setbuiltin (p : list Z) (k : prog) : prog :=
  let p := skip_spaces (drop 4 p) in
  let bad := Printf "Invalid _set parameter\n" [] k in
  if decide (strncmp str_uid p 3 = 0%Z) then Setid true (atoi (skip_spaces (drop 3 p))) bad k
  else if decide (strncmp str_gid p 3 = 0%Z) then Setid false (atoi (skip_spaces (drop 3 p))) bad k
  else bad.

Definition getbuiltin (p : list Z) (k : prog) : prog :=
  let p := skip_spaces (drop 4 p) in
  if decide (strncmp str_uid p 3 = 0%Z) then Getid true k
  else if decide (strncmp str_gid p 3 = 0%Z) then Getid false k
  else Printf "Invalid _get parameter\n" [] k.

Definition dobuiltin (cmd : list Z) (k : prog) : prog :=
  let k := if decide (strncmp cmd str_get 4 = 0%Z) then getbuiltin cmd k else k in
  if decide (strncmp cmd str_set 4 = 0%Z) then setbuiltin cmd k else k.

(** One turn of the loop, for the line in the buffer. [use_builtins] is whether
    the shell is compiled with USE_BUILTINS, which the Makefile defines for the
    projects 2 to 5. *)
Definition main_line (use_builtins : bool) (buf : list Z) : prog :=
  let run := fork1 (match parsecmd buf with
           | Done (c, buf') _ => runcmd (cmd_map (cstring buf buf') c)
           | Panic msg => sh_panic msg
           | _ => Exit
           end) (Wait_ Next) in
  match buf with
  | 99 :: 100 :: 32 :: _ =>
    let path := drop 3 (take (length buf - 1) buf) in
    Chdir path (Printf "cannot cd %s\n" [path] Next) Next
  | 95 :: _ => if use_builtins then dobuiltin buf Next else run
  | _ => run
  end%Z.

(** ** Every line is parsed, and its words do not overlap *)

Lemma skip_ws_idem s : skip_ws (skip_ws s) = skip_ws s.
Proof. induction s as [|c s IH]; simpl; [done|]. destruct (is_ws c) eqn:Hc; [done|]. simpl. by rewrite Hc. Qed.

Lemma skip_ws_len s : length (skip_ws s) ≤ length s.
Proof. induction s as [|c s IH]; simpl; [lia|]. destruct (is_ws c); simpl; lia. Qed.

(** How far from the end a word can start in the rest of a line. *)
Definition cap (s : list Z) : nat :=
  match skip_ws s with
  | c :: t => if is_sym c then length t else S (length t)
  | [] => 0
  end.

Lemma cap_skip s : cap (skip_ws s) = cap s.
Proof. unfold cap. by rewrite skip_ws_idem. Qed.

Lemma cap_len s : cap s ≤ length (skip_ws s).
Proof. unfold cap. destruct (skip_ws s) as [|c t]; simpl; [lia|]. destruct (is_sym c); lia. Qed.

(** After a word the line goes on with white space or a symbol, or ends. *)
Lemma skip_word_len s : length (skip_word s) ≤ length s ∧
  (cap (skip_word s) < length (skip_word s) ∨ skip_word s = []).
Proof.
  induction s as [|c s IH]; simpl; [split; [lia|by right]|]. destruct (is_ws c) eqn:Hw; simpl.
  - split; [lia|]. left. unfold cap. simpl. rewrite Hw. pose proof (cap_len s) as Hc. unfold cap in Hc.
    pose proof (skip_ws_len s). destruct (skip_ws s) as [|d t]; [lia|]. simpl in *. lia.
  - destruct (is_sym c) eqn:Hs; simpl; [|split; [lia|apply IH]].
    split; [lia|]. left. unfold cap. simpl. rewrite Hw, Hs. lia.
Qed.

(** What a token does to the rest of the line. *)
Record token_ok (s : list Z) (t : Z * ptrs) (s' : list Z) : Prop := {
  tk_end : t.1 = 0%Z → s' = [];
  tk_len : t.1 ≠ 0%Z → length s' < length (skip_ws s);
  tk_cap : cap s' ≤ cap s;
  tk_word : t.1 = 97%Z → t.2.2 < t.2.1 ≤ cap s ∧ (cap s' < t.2.2 ∨ cap s' = 0)
}.

Lemma sym_elem c : c ∈ [124; 40; 41; 59; 38; 60]%Z ∨ c = 62%Z ↔ is_sym c = true.
Proof. unfold is_sym. rewrite bool_decide_eq_true. unfold symbols. set_solver. Qed.

Lemma skip_ws_head s c t : skip_ws s = c :: t → is_ws c = false.
Proof.
  induction s as [|d s IH]; simpl; [done|]. destruct (is_ws d) eqn:Hd; [done|]. by intros [= <- _].
Qed.

Lemma gettoken_spec s : ∃ t s', gettoken s = Done t s' ∧ token_ok s t s'.
Proof.
  unfold gettoken. destruct (skip_ws s) as [|c t] eqn:Hu.
  { eexists _, _. split; [reflexivity|]. constructor; simpl; try done. unfold cap. simpl. lia. }
  assert (Hsym : ∀ r t', is_sym c = true → r ≠ 0%Z → r ≠ 97%Z → length t' ≤ length t →
    token_ok s (r, (length (c :: t), length t')) (skip_ws t')).
  { intros r t' Hc Hr0 Hr97 Hl. pose proof (skip_ws_len t'). constructor; simpl; [done|rewrite Hu; simpl; lia| |done].
    rewrite cap_skip. pose proof (cap_len t'). unfold cap at 2. rewrite Hu, Hc. lia. }
  destruct (decide (c ∈ [124; 40; 41; 59; 38; 60]%Z)) as [Hin|Hin].
  { eexists _, _. split; [reflexivity|]. apply Hsym; [by apply sym_elem; left|set_solver|set_solver|done]. }
  destruct (decide (c = 62%Z)) as [->|H62].
  { destruct t as [|d t']; [|destruct (decide (d = 62%Z))]; (eexists _, _; split; [reflexivity|]); apply Hsym; (done || simpl; lia). }
  eexists _, _. split; [reflexivity|]. apply skip_ws_head in Hu as Hw.
  assert (Hs : is_sym c = false) by (apply not_true_is_false; rewrite <-sym_elem; tauto).
  assert (Hsk : skip_word (c :: t) = skip_word t) by (simpl; by rewrite Hw, Hs). rewrite Hsk.
  destruct (skip_word_len t) as [Hl Hc]. pose proof (skip_ws_len (skip_word t)) as Hl2.
  assert (Hcs : cap s = S (length t)) by (unfold cap; by rewrite Hu, Hs).
  constructor; simpl; [done|rewrite Hu; simpl; lia|rewrite cap_skip; pose proof (cap_len (skip_word t)); lia|].
  intros _. rewrite Hcs, cap_skip. split; [lia|]. destruct Hc as [Hc|Hc]; [by left|right]. by rewrite Hc.
Qed.

(** The words of a command. *)
Fixpoint words {T} (c : cmd T) : list T :=
  match c with
  | EXEC argv => argv
  | REDIR c file _ _ => words c ++ [file]
  | PIPE l r | LIST l r => words l ++ words r
  | BACK c => words c
  end.

(** Words read between two positions of the line: the end of none of them is
    inside another one or at its start. *)
Record words_ok (a b : nat) (W : list ptrs) : Prop := {
  wo_in : ∀ t, t ∈ W → t.2 < t.1 ≤ a ∧ (b < t.2 ∨ b = 0);
  wo_apart : ∀ t u, t ∈ W → u ∈ W → u.2 ≤ t.2 ∨ t.1 < u.2
}.

Lemma words_nil a b : words_ok a b [].
Proof. constructor; set_solver. Qed.

Lemma words_app a b c W1 W2 : b ≤ a → c ≤ b → words_ok a b W1 → words_ok b c W2 → words_ok a c (W1 ++ W2).
Proof.
  intros Hba Hcb [H1 A1] [H2 A2]. constructor.
  - intros t [Ht|Ht]%elem_of_app; [destruct (H1 t Ht)|destruct (H2 t Ht)]; lia.
  - intros t u [Ht|Ht]%elem_of_app [Hu|Hu]%elem_of_app; [by apply A1| | |by apply A2].
    + destruct (H1 t Ht), (H2 u Hu). lia.
    + destruct (H2 t Ht), (H1 u Hu). lia.
Qed.

Lemma words_weaken a a' b b' W : a ≤ a' → b' ≤ b → words_ok a b W → words_ok a' b' W.
Proof. intros Ha Hb [H1 A1]. constructor; [|done]. intros t Ht. destruct (H1 t Ht). lia. Qed.

Lemma words_set a b W W' : (∀ t, t ∈ W' → t ∈ W) → words_ok a b W → words_ok a b W'.
Proof. intros Hs [H1 A1]. constructor; [auto|]. intros t u Ht Hu. apply A1; auto. Qed.

Lemma words_token s t s' : token_ok s t s' → t.1 = 97%Z → words_ok (cap s) (cap s') [t.2].
Proof.
  intros Ht Hw. pose proof (tk_word _ _ _ Ht Hw) as [H1 H2]. constructor.
  - intros u ->%list_elem_of_singleton. lia.
  - intros u v ->%list_elem_of_singleton ->%list_elem_of_singleton. lia.
Qed.

(** A parser goes forward and returns words of [V] and words that it has read,
    or it panics. *)
Definition parses {A} (V : list ptrs) (W : A → list ptrs) (m : P A) (s : list Z) : Prop :=
  wpe m (λ x s', length s' ≤ length s ∧ cap s' ≤ cap s ∧
    ∃ W2, words_ok (cap s) (cap s') W2 ∧ ∀ t, t ∈ W x → t ∈ V ++ W2) (λ _, True) s.

Lemma parses_ret {A} V (W : A → list ptrs) x s : (∀ t, t ∈ W x → t ∈ V) → parses V W (mret x) s.
Proof.
  intros Hx. unfold parses, wpe. simpl. split_and!; [done|done|]. exists []. rewrite app_nil_r. split; [apply words_nil|done].
Qed.

Lemma parses_panic {A} V (W : A → list ptrs) msg s : parses V W (panic msg) s.
Proof. done. Qed.

Lemma parses_more {A} V V' (W : A → list ptrs) m s : (∀ t, t ∈ V → t ∈ V') → parses V W m s → parses V' W m s.
Proof.
  unfold parses, wpe. destruct (m s) as [x s'| | |]; try done. intros HV (Hl & Hc & W2 & Hw & Hs). split_and!; [done|done|].
  exists W2. split; [done|]. intros t Ht%Hs. set_solver.
Qed.

Lemma parses_bind' {A B} V (W1 : A → list ptrs) (W : B → list ptrs) m k s :
  parses V W1 m s → (∀ x s', length s' ≤ length s → m s = Done x s' → parses (V ++ W1 x) W (k x) s') →
  parses V W (m ≫= k) s.
Proof.
  unfold parses, wpe, mbind, M_bind. destruct (m s) as [x s'| | |]; try done. intros (Hl & Hc & W1' & Hw & Hs1) Hk.
  specialize (Hk x s' Hl eq_refl). destruct (k x s') as [y s2| | |]; try done.
  destruct Hk as (Hl2 & Hc2 & W2 & Hw2 & Hs). split_and!; [lia|lia|]. exists (W1' ++ W2). split; [by eapply words_app|].
  intros t Ht. specialize (Hs t Ht). specialize (Hs1 t). set_solver.
Qed.

Lemma parses_bind {A B} V (W1 : A → list ptrs) (W : B → list ptrs) m k s :
  parses [] W1 m s → (∀ x s', length s' ≤ length s → m s = Done x s' → parses (V ++ W1 x) W (k x) s') →
  parses V W (m ≫= k) s.
Proof. intros Hm. apply parses_bind'. eapply parses_more; [|exact Hm]. set_solver. Qed.

Lemma parses_peek V toks {B} (W : B → list ptrs) k s :
  (∀ b, (b = true → skip_ws s ≠ []) → parses V W (k b) (skip_ws s)) → parses V W (peek toks ≫= k) s.
Proof.
  intros Hk. apply (parses_bind V (λ _, [])).
  - unfold parses, wpe, peek. rewrite cap_skip. pose proof (skip_ws_len s). split_and!; [done|done|].
    exists []. split; [apply words_nil|set_solver].
  - intros b s' _ [= <- <-]. rewrite app_nil_r. apply Hk. by destruct (skip_ws s).
Qed.

Lemma parses_token V {B} (W : B → list ptrs) k s :
  (∀ t s', token_ok s t s' → parses (V ++ (if decide (t.1 = 97%Z) then [t.2] else [])) W (k t) s') →
  parses V W (gettoken ≫= k) s.
Proof.
  intros Hk. destruct (gettoken_spec s) as (t & s' & Hg & Ht).
  assert (Hl : length s' ≤ length s).
  { destruct (decide (t.1 = 0%Z)) as [H0|H0]; [by rewrite (tk_end _ _ _ Ht H0); simpl; lia|].
    pose proof (tk_len _ _ _ Ht H0). pose proof (skip_ws_len s). lia. }
  apply (parses_bind V (λ t, if decide (t.1 = 97%Z) then [t.2] else [])).
  - unfold parses, wpe. rewrite Hg. split_and!; [done|apply Ht|].
    exists (if decide (t.1 = 97%Z) then [t.2] else []). split; [|set_solver].
    case_decide; [by apply words_token|apply words_nil].
  - intros t1 s1 _ Hg1. rewrite Hg in Hg1. injection Hg1 as <- <-. by apply Hk.
Qed.

Lemma parses_assert V b msg {B} (W : B → list ptrs) (k : P B) s :
  (b = true → parses V W k s) → parses V W (assert_or_panic b msg;; k) s.
Proof. intros Hk. destruct b; [by apply Hk|done]. Qed.

Definition redir_words (rs : list (redir ptrs)) : list ptrs := (λ r, r.1.1) <$> rs.

Lemma words_redirs (c : cmd ptrs) rs t : t ∈ words (add_redirs c rs) ↔ t ∈ words c ++ redir_words rs.
Proof.
  revert c. induction rs as [|r rs IH]; intros c; [simpl; by rewrite app_nil_r|].
  change (add_redirs c (r :: rs)) with (add_redirs (REDIR c r.1.1 r.1.2 r.2) rs). rewrite IH.
  change (redir_words (r :: rs)) with (r.1.1 :: redir_words rs). simpl. set_solver.
Qed.

Lemma peeked_len s t s' : skip_ws s ≠ [] → token_ok (skip_ws s) t s' → length s' < length s.
Proof.
  intros Hne Ht. pose proof (skip_ws_len s). destruct (decide (t.1 = 0%Z)) as [H0|H0].
  - rewrite (tk_end _ _ _ Ht H0). destruct (skip_ws s); [done|]. simpl in *. lia.
  - pose proof (tk_len _ _ _ Ht H0) as Hl. rewrite skip_ws_idem in Hl. lia.
Qed.

Lemma token_len s t s' : token_ok s t s' → length s' ≤ length s ∧ (t.1 ≠ 0%Z → length s' < length s).
Proof.
  intros Ht. pose proof (skip_ws_len s). destruct (decide (t.1 = 0%Z)) as [H0|H0].
  - rewrite (tk_end _ _ _ Ht H0). simpl. split; [lia|done].
  - pose proof (tk_len _ _ _ Ht H0) as Hl. lia.
Qed.

Lemma parseredirs_parses fuel s : length s < fuel → parses [] redir_words (parseredirs fuel) s.
Proof.
  revert s. induction fuel as [|fuel IH]; intros s Hf; [lia|]. cbn [parseredirs]. apply parses_peek. intros [] Hne.
  2:{ apply parses_ret. set_solver. }
  apply parses_token. intros t s1 Ht1. pose proof (peeked_len _ _ _ (Hne eq_refl) Ht1).
  apply parses_token. intros f s2 Ht2. pose proof (token_len _ _ _ Ht2) as [Hl2 _]. apply parses_assert. intros Hf97%Z.eqb_eq.
  eapply (parses_bind _ redir_words); [apply IH; lia|]. intros rs s3 _ _. apply parses_ret. rewrite (decide_True (P := f.1 = 97%Z)) by done.
  intros u. destruct (decide (t.1 = 60%Z)); simpl; set_solver.
Qed.

Lemma parseargs_parses fuel argc s : length s < fuel →
  parses [] (λ x, x.1 ++ redir_words x.2) (parseargs fuel argc) s.
Proof.
  revert argc s. induction fuel as [|fuel IH]; intros argc s Hf; [lia|]. cbn [parseargs]. apply parses_peek. intros [] _.
  { apply parses_ret. set_solver. }
  pose proof (skip_ws_len s). apply parses_token. intros t s1 Ht1. pose proof (token_len _ _ _ Ht1) as [Hl1 Hl1'].
  destruct (decide (t.1 = 0%Z)) as [H0|H0]; [apply parses_ret; set_solver|]. specialize (Hl1' H0).
  apply parses_assert. intros H97%Z.eqb_eq. apply parses_assert. intros _. rewrite (decide_True (P := t.1 = 97%Z)) by done.
  eapply (parses_bind _ redir_words); [apply parseredirs_parses; lia|]. intros rs s2 Hl2 _.
  eapply (parses_bind _ (λ x, x.1 ++ redir_words x.2)); [apply IH; lia|]. intros x s3 _ _. apply parses_ret.
  intros u. simpl. unfold redir_words. rewrite fmap_app. set_solver.
Qed.

Lemma parsebacks_parses fuel c s : length s < fuel → parses (words c) words (parsebacks fuel c) s.
Proof.
  revert c s. induction fuel as [|fuel IH]; intros c s Hf; [lia|]. cbn [parsebacks]. apply parses_peek. intros [] Hne.
  2:{ apply parses_ret. set_solver. }
  apply parses_token. intros t s1 Ht1. pose proof (peeked_len _ _ _ (Hne eq_refl) Ht1).
  eapply parses_more; [|apply (IH (BACK c)); lia]. simpl. set_solver.
Qed.

(** The three levels of the grammar. *)
Lemma parse_levels fuel :
  (∀ s, 3 * length s + 3 < fuel → parses [] words (parseline fuel) s) ∧
  (∀ s, 3 * length s + 2 < fuel → parses [] words (parsepipe fuel) s) ∧
  (∀ s, 3 * length s + 1 < fuel → parses [] words (parseexec fuel) s).
Proof.
  induction fuel as [|fuel (IHl & IHp & IHe)]; [split_and!; intros; lia|]. split_and!; intros s Hf.
  - cbn [parseline]. eapply (parses_bind _ words); [apply IHp; lia|]. intros c s1 Hl1 _.
    eapply (parses_bind' _ words); [apply parsebacks_parses; lia|]. intros c2 s2 Hl2 _.
    apply parses_peek. intros [] Hne; [|apply parses_ret; set_solver].
    apply parses_token. intros t s3 Ht3. pose proof (peeked_len _ _ _ (Hne eq_refl) Ht3).
    eapply (parses_bind _ words); [apply IHl; lia|]. intros r s4 _ _. apply parses_ret. simpl. set_solver.
  - cbn [parsepipe]. eapply (parses_bind _ words); [apply IHe; lia|]. intros c s1 Hl1 _.
    apply parses_peek. intros [] Hne; [|apply parses_ret; set_solver].
    apply parses_token. intros t s2 Ht2. pose proof (peeked_len _ _ _ (Hne eq_refl) Ht2).
    eapply (parses_bind _ words); [apply IHp; lia|]. intros r s3 _ _. apply parses_ret. simpl. set_solver.
  - cbn [parseexec]. apply parses_peek. intros [] Hne.
    + apply parses_token. intros t s1 Ht1. pose proof (peeked_len _ _ _ (Hne eq_refl) Ht1).
      eapply (parses_bind _ words); [apply IHl; lia|]. intros c s2 Hl2 _. apply parses_peek. intros b _.
      pose proof (skip_ws_len s2). apply parses_assert. intros _. apply parses_token. intros t2 s3 Ht3.
      pose proof (token_len _ _ _ Ht3) as [Hl3 _]. eapply (parses_bind _ redir_words); [apply parseredirs_parses; lia|].
      intros rs s4 _ _. apply parses_ret. intros u. rewrite words_redirs. set_solver.
    + pose proof (skip_ws_len s). eapply (parses_bind _ redir_words); [apply parseredirs_parses; lia|]. intros rs s1 Hl1 _.
      eapply (parses_bind _ (λ x, x.1 ++ redir_words x.2)); [apply parseargs_parses; lia|]. intros x s2 _ _.
      apply parses_ret. intros u. rewrite words_redirs. unfold redir_words. rewrite fmap_app. simpl. set_solver.
Qed.

(** ** The strings after [nulterminate] *)

(** The text of a word in the line. *)
Definition text (line : list Z) (t : ptrs) : list Z := take (t.1 - t.2) (drop (length line - t.1) line).

Lemma nulterminate_fold line c buf : nulterminate line c buf = put_nuls line (words c) buf.
Proof.
  revert buf. induction c as [argv|c IH file mode fd|l IHl r IHr|l IHl r IHr|c IH]; intros buf; simpl; [done|..|done];
    unfold put_nuls in *; rewrite foldl_app; by rewrite ?IH, ?IHl, ?IHr.
Qed.

Lemma nuls_length line W buf : length (put_nuls line W buf) = length buf.
Proof.
  revert buf. induction W as [|t W IH]; intros buf; [done|]. unfold put_nuls in *. simpl. rewrite IH. unfold put_nul.
  by rewrite length_insert.
Qed.

Lemma nuls_other line (W : list ptrs) buf i : (∀ t, t ∈ W → length line - t.2 ≠ i) →
  put_nuls line W buf !! i = buf !! i.
Proof.
  unfold put_nuls. revert buf. induction W as [|t W IH]; intros buf Hi; simpl; [done|]. rewrite IH by set_solver.
  unfold put_nul. by rewrite list_lookup_insert_ne by set_solver.
Qed.

Lemma nuls_at line (W : list ptrs) buf t : t ∈ W → length line - t.2 < length buf →
  put_nuls line W buf !! (length line - t.2) = Some 0%Z.
Proof.
  intros Ht Hl. apply list_elem_of_split in Ht as (W1 & W2 & ->).
  unfold put_nuls. rewrite foldl_app. simpl. fold (put_nuls line W1 buf). set (b := put_nuls line W1 buf). assert (Hb : length b = length buf) by apply nuls_length.
  assert (Hz : put_nul line t.2 b !! (length line - t.2) = Some 0%Z) by (unfold put_nul; by rewrite list_lookup_insert_eq by lia).
  revert Hz. generalize (put_nul line t.2 b). induction W2 as [|u W2 IH]; intros b' Hz; simpl; [done|]. apply IH. unfold put_nul.
  destruct (decide (length line - u.2 = length line - t.2)) as [->|Hne].
  - rewrite list_lookup_insert_eq; [done|]. by apply lookup_lt_Some in Hz.
  - by rewrite list_lookup_insert_ne.
Qed.

Lemma until_nul_take l n : n < length l → l !! n = Some 0%Z → (∀ i x, i < n → l !! i = Some x → x ≠ 0%Z) →
  until_nul l = take n l.
Proof.
  revert n. induction l as [|x l IH]; intros n Hn Hz Hi; [simpl in Hn; lia|]. destruct n as [|n]; simpl in *.
  - injection Hz as ->. by rewrite decide_True.
  - rewrite decide_False by (by apply (Hi 0); [lia|]). f_equal. apply IH; [lia|done|]. intros i y Hlt. apply (Hi (S i)). lia.
Qed.

(** Each word of the command is a string of its own in the buffer. *)
Lemma word_string line (W : list ptrs) b t : 0%Z ∉ line → words_ok (length line) b W → t ∈ W →
  until_nul (drop (length line - t.1) (put_nuls line W (line ++ [0%Z]))) = text line t.
Proof.
  intros Hz [Hin Hap] Ht. destruct (Hin t Ht) as [[Ht1 Ht2] _]. set (buf := put_nuls line W _).
  assert (Hlen : length buf = S (length line)) by (unfold buf; rewrite nuls_length, length_app; simpl; lia).
  assert (Hsame : ∀ i, i < t.1 - t.2 → buf !! (length line - t.1 + i) = line !! (length line - t.1 + i)).
  { intros i Hi. unfold buf. rewrite nuls_other; [by rewrite lookup_app_l by lia|].
    intros u Hu. destruct (Hap t u Ht Hu), (Hin u Hu). all: lia. }
  rewrite (until_nul_take _ (t.1 - t.2)).
  - unfold text. apply list_eq. intros i. destruct (decide (i < t.1 - t.2)) as [Hi|Hi].
    + rewrite !lookup_take_lt, !lookup_drop by lia. by apply Hsame.
    + rewrite !lookup_take_ge by lia. done.
  - rewrite length_drop. lia.
  - rewrite lookup_drop. replace (length line - t.1 + (t.1 - t.2)) with (length line - t.2) by lia.
    apply nuls_at; [done|]. rewrite length_app. simpl. lia.
  - intros i x Hi. rewrite lookup_drop, Hsame by done. intros Hx ->. apply Hz. by eapply list_elem_of_lookup_2.
Qed.

Lemma parsecmd_strings line : 0%Z ∉ line →
  match parsecmd line with
  | Done (c, buf) _ => ∀ t, t ∈ words c → t.2 < t.1 ≤ length line ∧ until_nul (drop (length line - t.1) buf) = text line t
  | Panic _ => True
  | _ => False
  end.
Proof.
  intros Hz. unfold parsecmd. destruct (parse_levels (parse_fuel line)) as (Hp & _ & _).
  specialize (Hp line ltac:(unfold parse_fuel; lia)). unfold parses, wpe in Hp. unfold mbind at 1, M_bind at 1.
  destruct (parseline (parse_fuel line) line) as [c s1| | |]; try done. destruct Hp as (_ & _ & W & Hw & Hs).
  unfold mbind, M_bind, peek, mget. destruct (bool_decide (skip_ws s1 = [])); simpl; [|done].
  assert (Hwo : words_ok (length line) 0 (words c)).
  { eapply words_set; [|eapply words_weaken; [| |exact Hw]]; [by intros t Ht%Hs| |lia].
    pose proof (cap_len line). pose proof (skip_ws_len line). lia. }
  intros t Ht. split; [by apply Hwo|]. rewrite nulterminate_fold. by eapply word_string.
Qed.

(** ** Printing *)

Definition redir_ok (mode fd : Z) : Prop :=
  (mode = O_RDONLY ∧ fd = 0%Z) ∨ (mode = Z.lor O_WRONLY O_CREATE ∧ fd = 1%Z).
Definition redir_sym (mode : Z) : Z := if decide (mode = O_RDONLY) then 60%Z else 62%Z.

Definition paren (b : bool) (ts : list (list Z)) : list (list Z) := if b then [40%Z] :: ts ++ [[41%Z]] else ts.

(** The tokens of a command, as a list, one with '&', a pipe or a simple command
    for the levels 0 to 3. *)
Fixpoint toks (lvl : nat) (c : cmd (list Z)) : list (list Z) :=
  match c with
  | EXEC argv => argv
  | REDIR c file mode _ => toks 3 c ++ [[redir_sym mode]; file]
  | PIPE l r => paren (bool_decide (2 < lvl)) (toks 3 l ++ [124%Z] :: toks 2 r)
  | LIST l r => paren (bool_decide (0 < lvl)) (toks 1 l ++ [59%Z] :: toks 0 r)
  | BACK c => paren (bool_decide (1 < lvl)) (toks 1 c ++ [[38%Z]])
  end.

(** Tokens with a space before each of them, and without the first space. *)
Definition spaced (ts : list (list Z)) : list Z := mjoin ((λ t, 32%Z :: t) <$> ts).
Definition joined (ts : list (list Z)) : list Z :=
  match ts with [] => [] | t :: ts => t ++ spaced ts end.
Definition print (c : cmd (list Z)) : list Z := joined (toks 0 c).

Definition word_ok (w : list Z) : Prop := w ≠ [] ∧ Forall (λ c, is_ws c = false ∧ is_sym c = false) w.
Definition tok_ok (t : list Z) : Prop := word_ok t ∨ ∃ c, t = [c] ∧ is_sym c = true.

Fixpoint cmd_ok (c : cmd (list Z)) : Prop :=
  match c with
  | EXEC argv => Forall word_ok argv ∧ length argv < MAXARGS
  | REDIR c file mode fd => cmd_ok c ∧ word_ok file ∧ redir_ok mode fd
  | PIPE l r | LIST l r => cmd_ok l ∧ cmd_ok r
  | BACK c => cmd_ok c
  end.

(** ** Reading what was printed *)

Lemma sym_not_ws c : is_sym c = true → is_ws c = false.
Proof.
  unfold is_sym, is_ws. rewrite bool_decide_eq_true, bool_decide_eq_false. unfold symbols, whitespace. intros Hc Hw.
  repeat (apply elem_of_cons in Hc as [->|Hc]; [set_solver|]). by apply elem_of_nil in Hc.
Qed.

Lemma tok_head t : tok_ok t → ∃ c t', t = c :: t' ∧ is_ws c = false.
Proof.
  intros [[Hne Hf]|(c & -> & Hc)]; [|exists c, []; split; [done|by apply sym_not_ws]].
  destruct t as [|c t']; [done|]. inversion Hf as [|? ? [Hw _] _]; subst. by exists c, t'.
Qed.

Lemma skip_joined ts : Forall tok_ok ts → skip_ws (joined ts) = joined ts.
Proof.
  intros Hts. destruct ts as [|t ts]; [done|]. inversion Hts as [|? ? Ht _]; subst.
  destruct (tok_head t Ht) as (c & t' & -> & Hc). simpl. by rewrite Hc.
Qed.

Lemma skip_spaced ts : Forall tok_ok ts → skip_ws (spaced ts) = joined ts.
Proof. intros Hts. destruct ts as [|t ts]; [done|]. apply (skip_joined (t :: ts)). done. Qed.

(** The next token starts with one of these characters. *)
Definition heads (l : list Z) (ts : list (list Z)) : bool :=
  match ts with t :: _ => bool_decide (hd 0%Z t ∈ l) | [] => false end.
Definition stops (l : list Z) (ts : list (list Z)) : Prop := ts = [] ∨ heads l ts = true.

Lemma peek_joined l ts : Forall tok_ok ts → peek l (joined ts) = Done (heads l ts) (joined ts).
Proof.
  intros Hts. unfold peek. rewrite skip_joined by done. destruct ts as [|t ts]; [done|]. inversion Hts as [|? ? Ht _]; subst.
  by destruct (tok_head t Ht) as (c & t' & -> & Hc).
Qed.

Lemma stops_not l l' ts : stops l ts → forallb (λ c, negb (bool_decide (c ∈ l'))) l = true → heads l' ts = false.
Proof.
  intros [->|Hs] Hl; [done|]. destruct ts as [|t ts]; [done|]. simpl in *. apply bool_decide_eq_true in Hs.
  rewrite forallb_forall in Hl. apply list_elem_of_In in Hs. specialize (Hl _ Hs). by apply negb_true_iff in Hl.
Qed.

Lemma stops_weaken l l' ts : stops l ts → forallb (λ c, bool_decide (c ∈ l')) l = true → stops l' ts.
Proof.
  intros [->|Hs] Hl; [by left|right]. destruct ts as [|t ts]; [done|]. simpl in *. apply bool_decide_eq_true in Hs.
  rewrite forallb_forall in Hl. apply list_elem_of_In in Hs. by apply Hl.
Qed.

Lemma heads_word l w ts : word_ok w → forallb is_sym l = true → heads l (w :: ts) = false.
Proof.
  intros [Hne Hw] Hl. destruct w as [|c w]; [done|]. inversion Hw as [|? ? [_ Hs] _]; subst. simpl.
  apply bool_decide_eq_false. intros Hc%list_elem_of_In. rewrite forallb_forall in Hl. by rewrite (Hl _ Hc) in Hs.
Qed.

Lemma gettoken_sym c ts : is_sym c = true → Forall tok_ok ts →
  ∃ p, gettoken (joined ([c] :: ts)) = Done (c, p) (joined ts).
Proof.
  intros Hc Hts. unfold gettoken. simpl joined. simpl app. simpl skip_ws. rewrite (sym_not_ws c Hc).
  rewrite <-(skip_spaced ts Hts). destruct (decide (c ∈ [124; 40; 41; 59; 38; 60]%Z)) as [Hin|Hin]; [by eexists|].
  apply sym_elem in Hc as [Hc| ->]; [done|]. rewrite (decide_True (P := 62%Z = 62%Z)) by done.
  destruct ts as [|t ts]; [by eexists|]. simpl. by eexists.
Qed.

Lemma skip_word_spaced w ts : Forall (λ c, is_ws c = false ∧ is_sym c = false) w → skip_word (w ++ spaced ts) = spaced ts.
Proof.
  induction w as [|c w IH]; intros Hw; simpl; [by destruct ts|]. inversion Hw as [|? ? [H1 H2] Hw']; subst.
  rewrite H1, H2. by apply IH.
Qed.

Lemma gettoken_word w ts : word_ok w → Forall tok_ok ts →
  gettoken (joined (w :: ts)) = Done (97%Z, (length (w ++ spaced ts), length (spaced ts))) (joined ts).
Proof.
  intros [Hne Hw] Hts. unfold gettoken. rewrite (skip_joined (w :: ts)) by (constructor; [by left|done]). simpl joined.
  destruct w as [|c w]; [done|]. assert (Hsk := skip_word_spaced (c :: w) ts Hw). simpl app in *.
  inversion Hw as [|? ? [_ Hs] _]; subst. assert (Hn : ¬ (is_sym c = true)) by by rewrite Hs. rewrite <-sym_elem in Hn.
  rewrite decide_False by tauto. rewrite (decide_False (P := c = 62%Z)) by tauto. by rewrite Hsk, skip_spaced.
Qed.

Lemma run_assert {B} msg (k : () → P B) s : (assert_or_panic true msg ≫= k) s = k () s.
Proof. done. Qed.

(** The line ends with these tokens. *)
Definition ends_with (line : list Z) (ts : list (list Z)) : Prop := ∃ pre, line = pre ++ joined ts.

Lemma ends_tail line t ts : ends_with line (t :: ts) → ends_with line ts.
Proof.
  intros [pre ->]. destruct ts as [|u ts]; [exists (pre ++ t); simpl; by rewrite !app_nil_r|].
  exists (pre ++ t ++ [32%Z]). simpl. by rewrite <-!app_assoc.
Qed.

Lemma ends_app line ts1 ts2 : ends_with line (ts1 ++ ts2) → ends_with line ts2.
Proof. induction ts1 as [|t ts1 IH]; [done|]. intros Ht%ends_tail. by apply IH. Qed.

Lemma text_word line w ts : ends_with line (w :: ts) → text line (length (w ++ spaced ts), length (spaced ts)) = w.
Proof.
  intros [pre ->]. unfold text. simpl. rewrite !length_app.
  replace (length pre + (length w + length (spaced ts)) - (length w + length (spaced ts))) with (length pre) by lia.
  replace (length w + length (spaced ts) - length (spaced ts)) with (length w) by lia.
  by rewrite drop_app_length, take_app_length.
Qed.

(** *** Redirections and arguments *)

Definition redir_toks (rs : list (redir (list Z))) : list (list Z) := rs ≫= λ r, [[redir_sym r.1.2]; r.1.1].
Definition redirs_ok (rs : list (redir (list Z))) : Prop := Forall (λ r, word_ok r.1.1 ∧ redir_ok r.1.2 r.2) rs.
Definition redir_text (line : list Z) (r : redir ptrs) : redir (list Z) := (text line r.1.1, r.1.2, r.2).

Lemma redir_sym_ok mode : is_sym (redir_sym mode) = true ∧ heads [60; 62]%Z [[redir_sym mode]] = true.
Proof. unfold redir_sym. by destruct (decide (mode = O_RDONLY)). Qed.

Lemma redir_toks_cons file mode fd rs ts :
  redir_toks ((file, mode, fd) :: rs) ++ ts = [redir_sym mode] :: file :: (redir_toks rs ++ ts).
Proof. done. Qed.

Lemma redir_toks_ok rs : redirs_ok rs → Forall tok_ok (redir_toks rs).
Proof.
  induction 1 as [|r rs [Hw _] _ IH]; simpl; [constructor|]. constructor; [|constructor; [by left|done]].
  right. eexists. split; [done|]. apply redir_sym_ok.
Qed.

Lemma redir_read mode fd (f : ptrs) : redir_ok mode fd →
  (if decide (redir_sym mode = 60%Z) then (f, O_RDONLY, 0%Z) else (f, Z.lor O_WRONLY O_CREATE, 1%Z)) = (f, mode, fd).
Proof. by intros [[-> ->]|[-> ->]]. Qed.

Lemma parseredirs_print line rs ts fuel :
  redirs_ok rs → Forall tok_ok ts → heads [60; 62]%Z ts = false → ends_with line (redir_toks rs ++ ts) → length rs < fuel →
  ∃ rs', parseredirs fuel (joined (redir_toks rs ++ ts)) = Done rs' (joined ts) ∧ redir_text line <$> rs' = rs.
Proof.
  intros Hrs Hts Hh. revert fuel. induction Hrs as [|[[file mode] fd] rs [Hw Hr] Hrs IH]; intros fuel He Hf;
    (destruct fuel as [|fuel]; [simpl in Hf; lia|]); simpl parseredirs.
  { rewrite (run_bind _ _ _ _ _ (peek_joined _ _ Hts)). simpl app. rewrite Hh. by exists []. }
  assert (Hok : Forall tok_ok (redir_toks rs ++ ts)) by (apply Forall_app; split; [by apply redir_toks_ok|done]).
  assert (Hok1 : Forall tok_ok (file :: redir_toks rs ++ ts)) by (constructor; [by left|done]).
  destruct (redir_sym_ok mode) as [Hs Hm]. simpl in Hw, Hr. rewrite redir_toks_cons in *.
  rewrite (run_bind _ _ _ _ _ (peek_joined _ ([redir_sym mode] :: _) ltac:(constructor; [right; by eexists|exact Hok1]))).
  change (heads [60; 62]%Z ([redir_sym mode] :: ?x)) with (heads [60; 62]%Z [[redir_sym mode]]). rewrite Hm.
  destruct (gettoken_sym _ _ Hs Hok1) as [p Hg]. rewrite (run_bind _ _ _ _ _ Hg).
  rewrite (run_bind _ _ _ _ _ (gettoken_word _ _ Hw Hok)). simpl fst. simpl snd.
  rewrite (redir_read mode fd) by done. apply ends_tail in He as He1.
  destruct (IH fuel) as (rs' & Hrun & Ht); [by apply ends_tail in He1|simpl in Hf; lia|].
  rewrite run_assert, (run_bind _ _ _ _ _ Hrun). eexists. split; [reflexivity|].
  rewrite fmap_cons, Ht. unfold redir_text at 1. simpl fst. simpl snd. by rewrite (text_word line file _ He1).
Qed.

Lemma gettoken_end : gettoken [] = Done (0%Z, (0, 0)) [].
Proof. done. Qed.

Lemma word_toks ws : Forall word_ok ws → Forall tok_ok ws.
Proof. intros Hws. eapply Forall_impl; [exact Hws|]. intros w Hw. by left. Qed.

(** The tokens after a simple command. *)
Abbreviation exec_stop := [124; 41; 38; 59]%Z.

Lemma parseargs_stop ts fuel argc : Forall tok_ok ts → stops exec_stop ts → 0 < fuel →
  parseargs fuel argc (joined ts) = Done ([], []) (joined ts).
Proof.
  intros Hts Hs Hf. destruct fuel as [|fuel]; [lia|]. simpl parseargs. rewrite (run_bind _ _ _ _ _ (peek_joined _ _ Hts)).
  destruct Hs as [->| ->]; [|done]. change (heads exec_stop []) with false. cbv match. by rewrite (run_bind gettoken _ (joined []) _ _ gettoken_end).
Qed.

Lemma parseargs_print line ws rs ts fuel argc :
  Forall word_ok ws → redirs_ok rs → (ws = [] → rs = []) → Forall tok_ok ts → stops exec_stop ts →
  argc + length ws < MAXARGS → ends_with line (ws ++ redir_toks rs ++ ts) → length ws + length rs < fuel →
  ∃ x, parseargs fuel argc (joined (ws ++ redir_toks rs ++ ts)) = Done x (joined ts) ∧
    text line <$> x.1 = ws ∧ redir_text line <$> x.2 = rs.
Proof.
  intros Hws Hrs Hne Hts Hs. revert fuel argc Hne. induction Hws as [|w ws Hw Hws IH]; intros fuel argc Hne Ha He Hf.
  { rewrite Hne by done. exists ([], []). split_and!; [|done..]. apply parseargs_stop; [done..|lia]. }
  destruct fuel as [|fuel]; [lia|]. simpl parseargs. simpl app in *. simpl length in *. apply ends_tail in He as He1.
  assert (Hok : Forall tok_ok (ws ++ redir_toks rs ++ ts)).
  { apply Forall_app; split; [by apply word_toks|]. apply Forall_app; split; [by apply redir_toks_ok|done]. }
  rewrite (run_bind _ _ _ _ _ (peek_joined _ (w :: _) ltac:(constructor; [left; exact Hw|exact Hok]))).
  rewrite (heads_word _ w _ Hw) by done. cbv match. rewrite (run_bind _ _ _ _ _ (gettoken_word _ _ Hw Hok)). simpl fst. simpl snd.
  rewrite decide_False by done. change (97 =? 97)%Z with true. rewrite run_assert.
  rewrite (bool_decide_eq_false_2 (MAXARGS ≤ S argc)) by lia. simpl negb. rewrite run_assert.
  destruct ws as [|w2 ws].
  - destruct (parseredirs_print line rs ts fuel) as (rs' & Hrun & Ht); [done..|by eapply stops_not|done|lia|].
    simpl app in *. rewrite (run_bind _ _ _ _ _ Hrun), (run_bind _ _ _ _ _ (parseargs_stop ts fuel _ Hts Hs ltac:(lia))).
    eexists. split; [reflexivity|]. cbn [fst snd].
    by rewrite app_nil_r, fmap_cons, (text_word line w _ He).
  - destruct (IH fuel (S argc)) as (x & Hrun & Hx1 & Hx2); [done|lia|done|lia|].
    destruct (parseredirs_print line [] ((w2 :: ws) ++ redir_toks rs ++ ts) fuel) as (rs' & Hr & Ht);
      [constructor|done| |done|simpl; lia|].
    { inversion Hws; subst. by apply heads_word. }
    simpl redir_toks in Hr. simpl app in *. rewrite (run_bind _ _ _ _ _ Hr), (run_bind _ _ _ _ _ Hrun).
    eexists. split; [reflexivity|]. apply fmap_nil_inv in Ht as ->. cbn [fst snd app].
    by rewrite fmap_cons, Hx1, (text_word line w _ He).
Qed.

(** *** The levels of the grammar *)

Section levels.
Context (line : list Z).

(** A parser reads these tokens, whatever follows of the given kind, and returns
    this command. *)
Definition reads (p : nat → P (cmd ptrs)) (k : nat) (stop : list Z) (c : cmd (list Z)) (us : list (list Z)) : Prop :=
  ∀ ts fuel, Forall tok_ok ts → stops stop ts → ends_with line (us ++ ts) → 3 * length us + k ≤ fuel →
    ∃ c', p fuel (joined (us ++ ts)) = Done c' (joined ts) ∧ cmd_map (text line) c' = c.

Definition pipes (fuel : nat) : P (cmd ptrs) := c ← parsepipe fuel; parsebacks fuel c.
Definition backs (k : nat) : cmd (list Z) → cmd (list Z) := Nat.iter k BACK.

Definition reads_exec c := ∀ rs, redirs_ok rs → reads parseexec 2 exec_stop (add_redirs c rs) (toks 3 c ++ redir_toks rs).
Definition reads_pipe c := reads parsepipe 3 [41; 38; 59]%Z c (toks 2 c).
Definition reads_back c := ∀ k, reads pipes 3 [41; 59]%Z (backs k c) (toks 1 c ++ replicate k [38%Z]).
Definition reads_line c := reads parseline 4 [41]%Z c (toks 0 c).

Lemma toks_ok lvl c : cmd_ok c → Forall tok_ok (toks lvl c).
Proof.
  assert (Hsym : ∀ s, is_sym s = true → tok_ok [s]) by (intros s Hs; right; by exists s).
  assert (Hp : ∀ b ts, Forall tok_ok ts → Forall tok_ok (paren b ts)).
  { intros [] ts Hts; [|done]. constructor; [by apply Hsym|]. apply Forall_app; split; [done|]. constructor; [by apply Hsym|done]. }
  revert lvl. induction c as [argv|c IH file mode fd|l IHl r IHr|l IHl r IHr|c IH]; intros lvl Hc; simpl in *.
  - by apply word_toks, Hc.
  - destruct Hc as (Hc & Hw & Hr). apply Forall_app; split; [by apply IH|]. constructor; [apply Hsym, redir_sym_ok|].
    constructor; [by left|done].
  - destruct Hc as [Hl Hr]. apply Hp, Forall_app; split; [by apply IHl|]. constructor; [by apply Hsym|by apply IHr].
  - destruct Hc as [Hl Hr]. apply Hp, Forall_app; split; [by apply IHl|]. constructor; [by apply Hsym|by apply IHr].
  - apply Hp, Forall_app; split; [by apply IH|]. constructor; [by apply Hsym|done].
Qed.

Lemma cmd_map_redirs c rs :
  cmd_map (text line) (add_redirs c rs) = add_redirs (cmd_map (text line) c) (redir_text line <$> rs).
Proof. revert c. induction rs as [|r rs IH]; intros c; [done|]. apply (IH (REDIR c r.1.1 r.1.2 r.2)). Qed.

Lemma exec_exec argv : cmd_ok (EXEC argv) → reads_exec (EXEC argv).
Proof.
  intros [Hw Hlen] rs Hrs ts fuel Hts Hs He Hf. simpl toks in *. rewrite <-app_assoc in *. rewrite length_app in Hf.
  destruct fuel as [|fuel]; [lia|]. simpl parseexec.
  assert (Hok : Forall tok_ok (argv ++ redir_toks rs ++ ts)).
  { apply Forall_app; split; [by apply word_toks|]. apply Forall_app; split; [by apply redir_toks_ok|done]. }
  assert (Hrl : length (redir_toks rs) = 2 * length rs) by (clear; induction rs as [|r rs IH]; simpl in *; [done|lia]).
  rewrite (run_bind _ _ _ _ _ (peek_joined _ _ Hok)).
  assert (Hh : heads [40]%Z (argv ++ redir_toks rs ++ ts) = false).
  { destruct argv as [|w argv]; [|inversion Hw; subst; by apply heads_word]. destruct rs as [|[[f m] d] rs]; [by eapply stops_not|].
    simpl. unfold redir_sym. by destruct (decide (m = O_RDONLY)). }
  rewrite Hh. cbv match. destruct argv as [|w argv].
  - destruct (parseredirs_print line rs ts fuel) as (rs' & Hr & Ht); [done..|by eapply stops_not|done|lia|].
    simpl app. rewrite (run_bind _ _ _ _ _ Hr), (run_bind _ _ _ _ _ (parseargs_stop ts fuel 0 Hts Hs ltac:(lia))).
    eexists. split; [reflexivity|]. cbn [fst snd]. by rewrite app_nil_r, cmd_map_redirs, Ht.
  - destruct (parseredirs_print line [] ((w :: argv) ++ redir_toks rs ++ ts) fuel) as (rs' & Hr & Ht); [constructor|done| |done|simpl; lia|].
    { inversion Hw; subst. by apply heads_word. }
    change (redir_toks [] ++ ?x) with x in Hr. rewrite (run_bind _ _ _ _ _ Hr). apply fmap_nil_inv in Ht as ->.
    destruct (parseargs_print line (w :: argv) rs ts fuel 0) as (x & Hrun & Hx1 & Hx2); [done..|simpl in *; lia|].
    rewrite (run_bind _ _ _ _ _ Hrun). eexists. split; [reflexivity|]. rewrite cmd_map_redirs. cbn [fst snd app cmd_map].
    by rewrite Hx1, Hx2.
Qed.

Lemma exec_redir c file mode fd : word_ok file → redir_ok mode fd → reads_exec c → reads_exec (REDIR c file mode fd).
Proof.
  intros Hw Hr He rs Hrs. simpl toks. rewrite <-app_assoc. apply (He ((file, mode, fd) :: rs)). by constructor.
Qed.

Lemma exec_paren c : toks 3 c = [40%Z] :: toks 0 c ++ [[41%Z]] → cmd_ok c → reads_line c → reads_exec c.
Proof.
  intros Heq Hc Hl rs Hrs ts fuel Hts Hs He Hf. rewrite Heq in *. simpl app in *. rewrite <-!app_assoc in *. simpl app in *.
  simpl length in Hf. rewrite !length_app in Hf. simpl length in Hf. destruct fuel as [|fuel]; [lia|]. simpl parseexec.
  assert (Hrl : length (redir_toks rs) = 2 * length rs) by (clear; induction rs as [|r rs IH]; simpl in *; [done|lia]).
  assert (Hok1 : Forall tok_ok (redir_toks rs ++ ts)) by (apply Forall_app; split; [by apply redir_toks_ok|done]).
  assert (Hok2 : Forall tok_ok ([41%Z] :: redir_toks rs ++ ts)) by (constructor; [right; by eexists|done]).
  assert (Hok3 : Forall tok_ok (toks 0 c ++ [41%Z] :: redir_toks rs ++ ts)) by (apply Forall_app; split; [by apply toks_ok|done]).
  rewrite (run_bind _ _ _ _ _ (peek_joined _ ([40%Z] :: _) ltac:(constructor; [right; by eexists|exact Hok3]))). cbn [heads hd].
  change (bool_decide (40%Z ∈ [40%Z])) with true. cbv match. apply ends_tail in He as He1.
  destruct (gettoken_sym 40%Z _ eq_refl Hok3) as [p Hg]. rewrite (run_bind _ _ _ _ _ Hg).
  destruct (Hl ([41%Z] :: redir_toks rs ++ ts) fuel Hok2 ltac:(by right) He1 ltac:(lia)) as (c' & Hrun & Hc').
  rewrite (run_bind _ _ _ _ _ Hrun), (run_bind _ _ _ _ _ (peek_joined _ _ Hok2)). cbn [heads hd].
  change (bool_decide (41%Z ∈ [41%Z])) with true. rewrite run_assert.
  destruct (gettoken_sym 41%Z _ eq_refl Hok1) as [q Hq]. rewrite (run_bind _ _ _ _ _ Hq).
  apply ends_app, ends_tail in He1. destruct (parseredirs_print line rs ts fuel) as (rs' & Hr & Ht); [done..|by eapply stops_not|done|lia|].
  rewrite (run_bind _ _ _ _ _ Hr). eexists. split; [reflexivity|]. by rewrite cmd_map_redirs, Ht, Hc'.
Qed.

Lemma pipe_exec c : toks 2 c = toks 3 c → reads_exec c → reads_pipe c.
Proof.
  intros Heq Hc ts fuel Hts Hs He Hf. rewrite Heq in *. destruct fuel as [|fuel]; [lia|]. simpl parsepipe.
  destruct (Hc [] ltac:(constructor) ts fuel Hts) as (c' & Hrun & Hc'); rewrite ?app_nil_r; [by eapply stops_weaken|done|lia|].
  rewrite app_nil_r in Hrun. rewrite (run_bind _ _ _ _ _ Hrun), (run_bind _ _ _ _ _ (peek_joined _ _ Hts)).
  rewrite (stops_not _ _ _ Hs) by done. by eexists.
Qed.

Lemma pipe_pipe l r : cmd_ok r → reads_exec l → reads_pipe r → reads_pipe (PIPE l r).
Proof.
  intros Hokr Hl Hr ts fuel Hts Hs He Hf. change (toks 2 (PIPE l r)) with (toks 3 l ++ [124%Z] :: toks 2 r) in *.
  rewrite <-app_assoc in *. simpl app in *. rewrite length_app in Hf. simpl length in Hf. destruct fuel as [|fuel]; [lia|]. simpl parsepipe.
  assert (Hok : Forall tok_ok (toks 2 r ++ ts)) by (apply Forall_app; split; [by apply toks_ok|done]).
  assert (Hok1 : Forall tok_ok ([124%Z] :: toks 2 r ++ ts)) by (constructor; [right; by eexists|done]).
  destruct (Hl [] ltac:(constructor) _ fuel Hok1) as (l' & Hrun & Hl'); rewrite ?app_nil_r; [by right|done|lia|].
  rewrite app_nil_r in Hrun. rewrite (run_bind _ _ _ _ _ Hrun), (run_bind _ _ _ _ _ (peek_joined _ _ Hok1)).
  change (heads [124%Z] ([124%Z] :: _)) with true. cbv match. destruct (gettoken_sym 124%Z _ eq_refl Hok) as [p Hg].
  rewrite (run_bind _ _ _ _ _ Hg). apply ends_app, ends_tail in He.
  destruct (Hr ts fuel Hts Hs He ltac:(lia)) as (r' & Hrun' & Hr'). rewrite (run_bind _ _ _ _ _ Hrun').
  eexists. split; [reflexivity|]. simpl in *. by rewrite Hl', Hr'.
Qed.

Lemma parsebacks_print k ts fuel c : Forall tok_ok ts → stops [41; 59]%Z ts → k < fuel →
  parsebacks fuel c (joined (replicate k [38%Z] ++ ts)) = Done (Nat.iter k BACK c) (joined ts).
Proof.
  intros Hts Hs. revert fuel c. induction k as [|k IH]; intros fuel c Hf; (destruct fuel as [|fuel]; [lia|]); simpl parsebacks.
  { rewrite (run_bind _ _ _ _ _ (peek_joined _ _ Hts)). by rewrite (stops_not _ _ _ Hs). }
  assert (Hok : ∀ n, Forall tok_ok (replicate n [38%Z] ++ ts)).
  { intros n. apply Forall_app; split; [|done]. apply Forall_replicate. right. by eexists. }
  rewrite (run_bind _ _ _ _ _ (peek_joined _ _ (Hok (S k)))).
  change (replicate (S k) [38%Z] ++ ts) with ([38%Z] :: (replicate k [38%Z] ++ ts)).
  change (heads [38%Z] ([38%Z] :: _)) with true. cbv match. destruct (gettoken_sym 38%Z _ eq_refl (Hok k)) as [p Hg].
  rewrite (run_bind _ _ _ _ _ Hg), IH by lia. by rewrite Nat.iter_swap.
Qed.

Lemma cmd_map_backs k c : cmd_map (text line) (Nat.iter k BACK c) = backs k (cmd_map (text line) c).
Proof. induction k as [|k IH]; simpl; [done|]. by rewrite IH. Qed.

Lemma back_pipe c : toks 1 c = toks 2 c → reads_pipe c → reads_back c.
Proof.
  intros Heq Hc k ts fuel Hts Hs He Hf. rewrite Heq, <-?app_assoc in *. rewrite length_app, length_replicate in Hf. unfold pipes.
  destruct (Hc (replicate k [38%Z] ++ ts) fuel) as (c' & Hrun & Hc'); [|destruct k; [by eapply stops_weaken|by right]|done|lia|].
  { apply Forall_app; split; [|done]. apply Forall_replicate. right. by eexists. }
  rewrite (run_bind _ _ _ _ _ Hrun), parsebacks_print by (done || lia). eexists. split; [reflexivity|]. by rewrite cmd_map_backs, Hc'.
Qed.

Lemma back_back c : reads_back c → reads_back (BACK c).
Proof.
  intros Hc k. change (toks 1 (BACK c)) with (toks 1 c ++ [[38%Z]]). rewrite <-app_assoc. unfold backs. rewrite Nat.iter_swap.
  apply (Hc (S k)).
Qed.

(** The last steps of [parseline]. *)
Lemma parseline_pipes fuel s : parseline (S fuel) s =
  (c ← pipes fuel; b ← peek [59%Z]; if (b : bool) then gettoken;; r ← parseline fuel; mret (LIST c r) else mret c) s.
Proof.
  simpl parseline. unfold pipes, mbind, M_bind. by destruct (parsepipe fuel s).
Qed.

Lemma line_back c : toks 0 c = toks 1 c → reads_back c → reads_line c.
Proof.
  intros Heq Hc ts fuel Hts Hs He Hf. rewrite Heq in *. destruct fuel as [|fuel]; [lia|]. rewrite parseline_pipes.
  destruct (Hc 0 ts fuel Hts) as (c' & Hrun & Hc'); simpl replicate; rewrite ?app_nil_r; [by eapply stops_weaken|done|lia|].
  simpl replicate in Hrun. rewrite app_nil_r in Hrun.
  rewrite (run_bind _ _ _ _ _ Hrun), (run_bind _ _ _ _ _ (peek_joined _ _ Hts)), (stops_not _ _ _ Hs) by done. by eexists.
Qed.

Lemma line_list l r : cmd_ok r → reads_back l → reads_line r → reads_line (LIST l r).
Proof.
  intros Hokr Hl Hr ts fuel Hts Hs He Hf. change (toks 0 (LIST l r)) with (toks 1 l ++ [59%Z] :: toks 0 r) in *.
  rewrite <-app_assoc in *. simpl app in *. rewrite length_app in Hf. simpl length in Hf. destruct fuel as [|fuel]; [lia|].
  rewrite parseline_pipes.
  assert (Hok : Forall tok_ok (toks 0 r ++ ts)) by (apply Forall_app; split; [by apply toks_ok|done]).
  assert (Hok1 : Forall tok_ok ([59%Z] :: toks 0 r ++ ts)) by (constructor; [right; by eexists|done]).
  destruct (Hl 0 _ fuel Hok1) as (l' & Hrun & Hl'); simpl replicate; rewrite ?app_nil_r; [by right|done|lia|].
  simpl replicate in Hrun. rewrite app_nil_r in Hrun. rewrite (run_bind _ _ _ _ _ Hrun), (run_bind _ _ _ _ _ (peek_joined _ _ Hok1)).
  change (heads [59%Z] ([59%Z] :: _)) with true. cbv match. destruct (gettoken_sym 59%Z _ eq_refl Hok) as [p Hg].
  rewrite (run_bind _ _ _ _ _ Hg). apply ends_app, ends_tail in He.
  destruct (Hr ts fuel Hts Hs He ltac:(lia)) as (r' & Hrun' & Hr'). rewrite (run_bind _ _ _ _ _ Hrun').
  eexists. split; [reflexivity|]. simpl in *. by rewrite Hl', Hr'.
Qed.

Lemma all_levels c : cmd_ok c → reads_exec c ∧ reads_pipe c ∧ reads_back c ∧ reads_line c.
Proof.
  assert (Hup : ∀ c, toks 2 c = toks 3 c → toks 1 c = toks 2 c → toks 0 c = toks 1 c →
    reads_exec c → reads_exec c ∧ reads_pipe c ∧ reads_back c ∧ reads_line c).
  { intros d H2 H1 H0 Hd. assert (reads_pipe d) by by apply pipe_exec. assert (reads_back d) by by apply back_pipe.
    split_and!; [done..|]. by apply line_back. }
  induction c as [argv|c IH file mode fd|l IHl r IHr|l IHl r IHr|c IH]; intros Hc; pose proof Hc as Hc'; simpl in Hc'.
  - apply Hup; [done..|]. by apply exec_exec.
  - destruct Hc' as (Hok & Hw & Hr). apply Hup; [done..|]. apply exec_redir; [done..|]. by apply IH.
  - destruct Hc' as [Hl Hr]. destruct (IHl Hl) as (El & _ & _ & _), (IHr Hr) as (_ & Pr & _ & _).
    assert (Hp : reads_pipe (PIPE l r)) by by apply pipe_pipe. assert (Hb : reads_back (PIPE l r)) by by apply back_pipe.
    assert (Hn : reads_line (PIPE l r)) by by apply line_back. split_and!; [|done..]. by apply exec_paren.
  - destruct Hc' as [Hl Hr]. destruct (IHl Hl) as (_ & _ & Bl & _), (IHr Hr) as (_ & _ & _ & Lr).
    assert (Hn : reads_line (LIST l r)) by by apply line_list. assert (He : reads_exec (LIST l r)) by by apply exec_paren.
    assert (Hp : reads_pipe (LIST l r)) by by apply pipe_exec. split_and!; [done..| |done]. by apply back_pipe.
  - destruct (IH Hc') as (_ & _ & Bc & _). assert (Hb : reads_back (BACK c)) by by apply back_back.
    assert (Hn : reads_line (BACK c)) by by apply line_back. assert (He : reads_exec (BACK c)) by by apply exec_paren.
    split_and!; [done| |done..]. by apply pipe_exec.
Qed.
End levels.

Lemma toks_len ts : Forall tok_ok ts → length ts ≤ length (joined ts).
Proof.
  intros Hts. assert (Hsp : ∀ us, length us ≤ length (spaced us)).
  { induction us as [|u us IH]; [simpl; lia|]. change (spaced (u :: us)) with ((32%Z :: u) ++ spaced us).
    rewrite length_app. simpl. lia. }
  destruct ts as [|t ts]; [done|]. inversion Hts as [|? ? Ht _]; subst. simpl. rewrite length_app.
  destruct (tok_head t Ht) as (c & t' & -> & _). simpl. specialize (Hsp ts). lia.
Qed.

Lemma parsecmd_print c : cmd_ok c →
  ∃ c' buf, parsecmd (print c) = Done (c', buf) [] ∧ cmd_map (text (print c)) c' = c.
Proof.
  intros Hc. unfold parsecmd. destruct (all_levels (print c) c Hc) as (_ & _ & _ & Hl).
  destruct (Hl [] (parse_fuel (print c))) as (c' & Hrun & Hc'); [constructor|by left|exists []; by rewrite app_nil_r| |].
  { pose proof (toks_len _ (toks_ok 0 c Hc)). unfold parse_fuel, print. lia. }
  rewrite app_nil_r in Hrun. rewrite (run_bind _ _ _ _ _ Hrun). eexists _, _. split; [reflexivity|done].
Qed.

Lemma cmd_map_ext {T U} (f g : T → U) c : (∀ t, t ∈ words c → f t = g t) → cmd_map f c = cmd_map g c.
Proof.
  induction c as [argv|c IH file mode fd|l IHl r IHr|l IHl r IHr|c IH]; simpl; intros Hfg.
  - f_equal. apply list_fmap_ext. intros i t Ht. apply Hfg. by eapply list_elem_of_lookup_2.
  - rewrite IH by (intros t Ht; apply Hfg; set_solver). by rewrite (Hfg file) by set_solver.
  - by rewrite IHl, IHr by (intros t Ht; apply Hfg; set_solver).
  - by rewrite IHl, IHr by (intros t Ht; apply Hfg; set_solver).
  - by rewrite IH.
Qed.

(** C40. The shell's parser terminates on every line: it returns a command or
    panics with a syntax error; in the command, each word is not empty and in
    the line, and after [nulterminate] has written the NULs over the line the
    C string at each word is the text of that word and no other word's NUL cuts
    it. The parser is a left inverse of the printer of commands: printed with
    parentheses where the grammar needs them, any command with at most nine
    arguments per program is read back as itself, with its pipes, lists,
    background marks and redirections nested as they were. *)
Theorem parsecmd_correct :
  (∀ line, 0%Z ∉ line →
    match parsecmd line with
    | Done (c, buf) _ => ∀ t, t ∈ words c → t.2 < t.1 ≤ length line ∧ cstring line buf t = text line t
    | Panic _ => True
    | _ => False
    end) ∧
  (∀ c, cmd_ok c → 0%Z ∉ print c →
    ∃ c' buf, parsecmd (print c) = Done (c', buf) [] ∧ cmd_map (cstring (print c) buf) c' = c).
Proof.
  split; [exact parsecmd_strings|]. intros c Hc Hz. destruct (parsecmd_print c Hc) as (c' & buf & Hrun & Hc').
  exists c', buf. split; [done|]. pose proof (parsecmd_strings _ Hz) as Hs. rewrite Hrun in Hs.
  rewrite <-Hc' at 2. apply cmd_map_ext. intros t Ht. by apply Hs.
Qed.

(** (echo a | wc > f) & ; ls *)
Definition demo_cmd : cmd (list Z) :=
  LIST (BACK (PIPE (EXEC [[101; 99; 104; 111]; [97]]%Z) (REDIR (EXEC [[119; 99]%Z]) [102%Z] (Z.lor O_WRONLY O_CREATE) 1)))
    (EXEC [[108; 115]%Z]).

Lemma parsecmd_correct_witness :
  (∃ c' buf, parsecmd (print demo_cmd) = Done (c', buf) [] ∧ cmd_map (cstring (print demo_cmd) buf) c' = demo_cmd) ∧
  (∀ t, t ∈ [(2, 0)] → t.2 < t.1 ≤ 2 ∧ cstring [108; 115]%Z [108; 115; 0]%Z t = text [108; 115]%Z t).
Proof.
  assert (Hw : ∀ w, w ≠ [] → forallb (λ c, negb (is_ws c) && negb (is_sym c)) w = true → word_ok w).
  { intros w Hne Hf. split; [done|]. apply Forall_forall. intros x Hx%list_elem_of_In. rewrite forallb_forall in Hf.
    by apply Hf, andb_true_iff in Hx as [?%negb_true_iff ?%negb_true_iff]. }
  split.
  - apply parsecmd_correct; [|vm_compute; set_solver]. unfold demo_cmd. simpl. unfold MAXARGS.
    split_and!; first [lia | by apply Hw | by right | repeat (constructor; [by apply Hw|]); constructor].
  - apply (proj1 parsecmd_correct [108; 115]%Z). set_solver.
Defined.
